(* ===== verification/_CoqProject ===== *)
-Q . S2P
Prelude.v
Mem.v
Kernel.v
Fifo.v
Shm.v
SpinLock.v
SpinConc.v
Flags.v
SeqMem.v
Boot.v
DList.v
Channel.v
Pools.v
Waiting.v
Returns.v
Smm.v
SmmHeap.v
Routine.v
RoutineTable.v
Msgbox.v
UserQueue.v
Proto.v
Acks.v
Send.v
Call.v
Rpc.v
Answer.v
FdPool.v
FdSpec.v
FdOps.v
FdInit.v
FdSafe.v
InitMem.v
InitSpec.v
InitSafe.v
Dev.v
DevSafe.v
DecdRegs.v
Decd.v
DecdItem.v
DecdQueue.v
DecdDevice.v
DecdTyped.v
DecdOwn.v
DecdFrames.v
DecdStream.v
DecdSteps.v
DecdCreate.v
DecdSafe.v
DecdOrder.v
DecdHw.v
DecdShow.v
DecdPlanes.v
DecdInterlace.v
Tvtop.v
TvtopSpec.v
TvtopSafe.v
Audio.v
AudioIf.v
AudioPcm.v
AudioCore.v
AudioInv.v
AudioRing.v
AudioPower.v
AudioMask.v
AudioWindow.v
AudioSafe.v
