(* ===== verification/Prelude.v ===== *)
(** * A verification library for the HY310 (Allwinner H713) Linux drivers

    The repository brings mainline Linux to a projector whose H713 chip has an
    ARM cluster (which runs Linux) and a MIPS core (which runs the vendor's
    display firmware).  Four drivers are the program's own core.  [cpu_comm]
    (src/drivers/cpu_comm) lets the two CPUs, which share five megabytes of
    memory and a mailbox, call each other's routines.  [decd]
    (src/drivers/decd) puts decoded video frames on the screen: user space
    submits dma-bufs, the vsync interrupt programs the next frame's addresses,
    and a tasklet and a work item manage the queue between them.  [tvtop]
    (src/drivers/tvtop) switches the clocks, resets and power of the display,
    capture and front-end blocks for its users.  The audio bridge
    (src/drivers/audio/bridge) plays and records through memory it shares with
    the MIPS side.  This library models them
    function by function and proves what they do - and, in places,
    what they do not do that their comments say.

    ** How the code is modelled

    - [Prelude]: machine integers are [Z]; every 8-, 16- and 32-bit wrap-around
      the C code has is written out ([u8], [u16], [u32], [s32]); bit operations
      are those of [Z].  Shared tactics ([zbool], [zcmp], [ands]), lists, and
      finite sequences of steps ([star]).
    - [Mem]: one byte-addressed memory ([gmap Z Z]) with little-endian loads
      and stores [ld]/[st] of [n] bytes, fills and copies.  Shared memory, the
      driver's static sockets, kernel objects and buffers all live in it, so
      aliasing is what it is in the C code.  [same_out a n m m'] (nothing
      changed outside [n] bytes at [a]) is the frame condition used everywhere.
    - [Kernel]: the [world] (memory, the module's mutable globals, register
      writes with the memory at each of them, queued work) and the monad [M] of the functions: a result and a
      new world, or [Stop] with a reason (null dereference, division by zero,
      a semaphore that would block, a loop out of fuel, BUG).  [wp m Q w] says
      that [m] does return from [w], in [Q]; theorems are total-correctness
      statements.  Kernel primitives the repository does not contain are
      operations of the class [Kernel]; [SemLaws] (a semaphore is sixteen bytes
      with a count) and [Quiet] (spinning and sleeping calls leave the modelled
      memory alone) state their documented behaviour, [SimpleKernel] is a
      concrete instance and every theorem with such a hypothesis has a witness
      that runs on it.  [Timed] of [Send] says the same of a wait with a
      timeout; [Jiffies], [Kmalloc], [Uaccess] and the register classes of
      [Msgbox] are further interfaces of that kind.
    - A function of the C code is a definition of the same name; a long function
      is cut into named steps at its own comments, and the composition is again
      a definition.  A local buffer whose address is passed on is an argument.
      Log output, memory barriers and cache maintenance that has no effect on
      values are left out.

    ** The communication driver (files under src/drivers/cpu_comm)

    - [Shm]: constants, layout and address translation (cpu_comm.h,
      cpu_comm_mem.c, cpu_comm_hw.c).  The class [Shm] holds the addresses that
      module load fixes, [ShmOk] what the initialisation guarantees of them.
    - [Fifo]: the ring buffer of cpu_comm_fifo.c.  [fifo_at m f base vb cap q]
      represents the abstract queue [q]; pushing and popping refine appending
      and taking the head, and a writer and a reader that interleave at every
      memory step neither lose, duplicate nor reorder items, and cannot both be
      stuck.
    - [SpinLock]: the two-level locks of cpu_comm_hw.c as locks with an owner
      and a depth; that unlocking ignores the owner and that the clean-up after
      a reset keeps held locks.  [SpinConc]: several threads at one lock.  The
      unit of interleaving is one attempt of spinLock (from enterCritical to
      leaveCritical): what a call does while others lock and unlock between its
      attempts, and mutual exclusion as long as attempts do not overlap.
      [lock_race] is a run in which they do, and two threads get the lock.
    - [Flags]: the two CPU status words (cpu_comm_mem.c), their waits with
      proofs that they end.
    - [SeqMem], [Boot]: the initialisation of sockets and shared sequences
      (InitCommSeqMem, InitCommShareSeqMem, InitCommSeqs) and the state they
      establish together; [booted] is the world the witnesses start from.
    - [DList], [Channel], [Pools], [Waiting], [Returns]: cpu_comm_channel.c.
      Doubly linked lists in memory; the channel table; pools of call entries
      and wait objects, which never hand out an object twice; the list of
      waiting callers, which refines a list searched by session; the pipeline
      of returned calls, which delivers every answer to its session in order.
    - [Smm], [SmmHeap]: the shared-memory allocator Trid_SMM (cpu_comm_mem.c):
      disjointness of large blocks, size classes, wrap-around, and the ways it
      fails.
    - [Routine], [RoutineTable]: the hash table of registered routines
      (cpu_comm_rpc.c): registering and finding refine a finite map under the
      table invariant; removal can lose another routine.
    - [Msgbox], [UserQueue]: the mailbox registers and their interrupt
      (cpu_comm_hw.c), the queues of /dev/cpu_comm (cpu_comm_user.c).
    - [Proto], [Acks], [Send], [Call]: cpu_comm_proto.c.  [Proto] has the
      definitions: sending, receiving, acknowledging, dispatch.  [Acks]: the
      interrupt dispatches like a table from message types to actions, an
      acknowledgement wakes exactly one sender, a local one is lost.  [Send]
      specifies the steps of SendComm2CPUEx, [Call] the whole function: what
      memory holds at the moment the doorbell is written, what is left when the wait ends, and
      what a refused send leaves.
    - [Rpc], [Answer]: cpu_comm_rpc.c.  Building a call, running a handler for
      a call from MIPS, and the second half of a synchronous call: with an
      answer the caller gets its values and all resources are returned, without
      one it is told 0 all the same.
    - [FdPool], [FdSpec], [FdOps], [FdInit], [FdSafe]: comm_fd_ioctl of
      cpu_comm_dev.c, the registry of components that processes create, attach,
      detach and listen to, and InitComponentPool behind it.  [FdPool] has a
      definition per command; [pool_rel] of [FdSpec] relates the slots in memory
      to abstract ones and [FdOps] proves each operation against them.
      [FdSafe]: any sequence of requests (an attach with a timeout, a listener
      with a callback, blocks the kernel can access) refines the abstract
      registry, names stay unique, and what goes wrong - an attach without a
      timeout that never ends, a listener no one can remove, a count
      that wraps, a stale shared buffer; [FdInit]: what initialisation leaves.
    - [InitMem], [InitSpec], [InitSafe]: InitCommMem and setCPUReset of
      cpu_comm_mem.c.  [init_establishes]: InitCommMem returns 0 with everything
      in place that the theorems on the parts start from (locks, sockets,
      sequences, pools, routine table, heap, status words), provided the pages
      the allocator takes for its table are zero.
    - [Dev], [DevSafe]: open, release, mmap and the ioctls of /dev/cpu_comm, and
      the state cpu_comm_init sets up (cpu_comm_dev.c).  [init_state_wp]: after
      the handshake the table is empty and sixteen channels are in use;
      [run_installs_wp], [last_install_wp]: processes that install a routine are
      told 0 whether there is a channel left for them or not.

    ** How the parts of cpu_comm interact

    A caller enters [CPUComm_CallEx] ([Rpc]), which builds a message and hands
    it to [SendComm2CPUEx] ([Proto]).  That looks the routine up
    ([FindRoutineEx], [Routine]), takes the send semaphore of the socket
    ([SeqMem]), a call entry ([Comm_GetFreeCall], [Channel] over [Fifo]) and a
    wait object ([GetFreeWaitComm]), links it into the waiting list
    ([AddtoWaitComm]), rings the mailbox ([Msgbox]) and waits.  The interrupt
    ([cpu_comm_msgbox_irq_handler]) queues work ([queueAction]);
    [comm_WorkAction] runs [command_action] (calls and returns) or
    [ack_action].  A return goes through [AddReturn2Fifo] to the return list of
    the socket, from which [GetReturnbySessionId] takes it; a call goes to user
    space ([cpu_comm_userspace_deliver]) and to its handler
    ([comm_CallWorkAction]).  The routine table, the status words and the
    allocator are guarded by the locks of [SpinLock].

    ** The decoder display driver (files under src/drivers/decd)

    The driver's objects have types, so here memory is not bytes: frames, items,
    fences and info pages are records in heaps of their own, indexed by address.
    kfree takes an object out of its heap, addresses are never handed out twice,
    and touching an address without an object, relocking a held spinlock or
    following NULL stops the run ([Halt]); a theorem that a function returns
    ([Done]) therefore says that it does none of these.

    - [DecdRegs]: the dec_reg_ functions of decd_hw.c on a register block.
    - [Decd]: the state (decd_types.h), the monad [D], total correctness [dwp]
      and partial correctness [after], and the class [DecKernel] of reference
      counts, kfifos, failing calls and dma-bufs with the laws [DecLaws].
    - [DecdItem]: frame items, dma-buf mappings, fences and info pages
      (decd_frame.c, decd_fence.c).  [DecdQueue]: the frame queue and manager -
      submission, interrupt, tasklet with its six states, release work, stop
      (decd_frame.c, and dec_sync_frame_to_hardware of decd_hw.c).
      [DecdDevice]: the interrupt handler, power, ioctls, exported buffers and
      the page pool (decd_hw.c, decd_ioctl.c, decd_core.c, decd_frame.c).
    - [DecdTyped]: whatever entry points run, in any order, every integer stays
      in the range of its C type and every kfifo within its capacity.
    - [DecdOwn], [DecdFrames], [DecdStream], [DecdSteps], [DecdCreate]: the
      ownership invariant of a progressive stream.  [owned] relates each count
      to a multiset of owners (slots, ready list, fifos, callers); [streaming]
      is the invariant, and each operation has a specification that preserves
      it and says what it does to the display.
    - [DecdSafe]: all interleavings of submissions, interrupts, tasklet, work
      and stop requests: memory safety, and what the code gets wrong - an
      underrun freezes the picture, stopping times out, frames are lost.
      [DecdOrder]: a frame keeps its item for life, so the items that go on
      display are those submitted, in that order: the stream refines a labelled
      queue of items.
    - [DecdHw]: programming and reading back a slot, the ring of timestamps as
      a bounded queue, the history that overruns, powering up all or nothing.
    - [DecdShow]: the next vsync after a change leaves the shown item's
      addresses in all four slots, stated on the registers and their bits.  [DecdPlanes]: where frame_item_create puts
      the luma and chroma planes of a buffer.
    - [DecdInterlace]: interlaced streams: stopping completes, a second pair of
      fields deadlocks, the second field follows a bad pointer, and a fence is
      freed under its sync file.

    dec_frame_submit ([DecdDevice]) creates an item ([DecdItem]), puts a frame
    for it on the ready list and starts the stream if it is stopped
    ([DecdQueue]).  The interrupt programs the slots when they have changed and
    schedules the tasklet, which pops the next frame into the slots and defers
    the release of the old one; the work releases deferred frames, and the last
    release of a frame releases its item, which signals the fence and unmaps
    the buffers.

    ** The TV top driver (files under src/drivers/tvtop)

    The state is the driver's device and, because its purpose is to keep them
    right, the counts of the clock, reset and power frameworks.  Every call that
    may fail takes its result from the class [TvKernel]; theorems hold for all
    of its instances, so for every combination of failures.

    - [Tvtop]: the tables (sunxi_tvtop_data.c), enabling the clocks of a block
      with parent selection and rollback, get and put (sunxi_tvtop_clk.c), the
      three enable functions and the disable function (sunxi_tvtop_power.c),
      probe and removal (sunxi_tvtop_drv.c) and the sysfs files
      (sunxi_tvtop_sysfs.c).
    - [TvtopSpec]: what each step does.  Counts are compared through weights on
      clocks ([gained]); [blk_spec] says what a computation does to one block
      and to the counts, with rules for sequences and early exits; [get_one],
      [get_display] and their puts specify the user operations.
    - [TvtopSafe]: in any history and under any failures every operation returns
      and the counts agree with the flags; without failures the driver refines
      three counters; what a failing enable leaves on, and that it is never
      undone.

    sunxi_tvtop_clk_get locks a reference count and, for the first user, calls
    the enable function of the block, which locks the block and enables its
    clocks, bus clock, reset and power domain; the display block brings the
    capture block with it through a recursive call of depth two (fuel 2, proved
    to be enough by [accounts_balance]).  Sleeps and log output are left out.

    ** The audio bridge (files under src/drivers/audio/bridge)

    The bridge moves PCM data between ALSA's buffers and segments of memory that
    it shares with the MIPS side: a timer copies a period at a time, and the
    hardware is told which segment to play or to fill.  The state is the
    driver's bridge, the device behind the class [AudHw] (a read may change it),
    bytes of memory, what ALSA keeps of its substreams, and the notifications it
    was sent.  Reading past an array, a division by zero or a copy that makes no
    progress stops the run; [awp] says that a function returns.

    - [Audio]: addresses, data, the monad [A], register access and segments
      (audio_bridge.h, audio_bridge_mem.c, audio_bridge_core.c).
    - [AudioIf]: the interfaces, the windows of the bridge streams, delay lines,
      frame rings and the interrupt threads (audio_bridge_if.c).
    - [AudioPcm]: the substream callbacks, the timer, the copy between rings,
      the controls, the card (audio_bridge_pcm.c).  [AudioCore]: suspend and
      resume, the ioctl, probe and removal (audio_bridge_core.c).
    - [AudioInv]: every function of [AudioIf] returns and keeps the shape of the
      arrays, the streams, the memory, and a relation [J] between the device and
      the shadow of its interrupt mask ([safe]).
    - [AudioRing]: a copy between rings is right and ends; [ring_rel] says that
      after the bytes [l] the destination ring holds the newest of [l], and each
      operation on a stream moves it along.  [AudioPower]: what suspend, resume,
      close and open do to each stream of the arrays.  [AudioMask]: every
      operation of the driver keeps the mask register and its shadow equal.
    - [AudioWindow]: the addresses the hardware takes from a programmed window,
      on a device whose registers hold what is written; they miss segments above
      256 MB, and the S/PDIF playback programs a window it does not use.
    - [AudioSafe]: a prepared stream delivers its source in order over every
      interleaving, the mask invariant over every run, suspend and resume as a
      round trip, and the stream that a resume starts without a preparation.

    The timer handler is two steps, because ALSA may trigger the stream in
    between; the copy loop has two rounds of fuel more than there are bytes,
    which [copy_ring_spec] shows to be enough.  Locks are left out: what they
    guard is one step, and so is a call of trid_pcm_trigger, although its START
    fills the segment after stream->lock is given back.

    ** Loops and fuel

    Loops that the code bounds have that bound as fuel (101 attempts, 10000
    lock retries, 64 mailbox messages plus one test).  Walks over lists use
    [list_fuel], more than the number of entries a well-formed list can have,
    and the specifications prove it is enough; the chain walks of the routine
    table use [rt_fuel], more than the number of slots.  Only the wait for a
    free wait object and the spins on a status bit have no bound in the code:
    they get [wait_fuel], and the theorems cover the states in which they end; so
    does the wait of an attach for its component, whose readings of the clock
    are an argument.
    In [DecdQueue] the release and recycle loops get one round more than the
    length of the fifo they drain, in [DecdDevice] the submit loop its repeat
    count; a loop out of fuel would be a [Halt], which the total-correctness
    theorems exclude.  What other contexts do while a caller sleeps in
    wait_event_timeout, and the clocks the interrupt reads, are arguments.

    ** Not modelled

    Of cpu_comm_dev.c: the clocks, mappings, character devices and interrupt
    lines of cpu_comm_init, probing, and the file that prints the state; the
    mapping of registers at module load, and the MIPS firmware itself (its side
    appears as the contents of shared memory).  Of decd: probe and removal (device tree,
    clocks, character device), the sysfs and debugfs prints, dec_debug_dump and
    its work, and the callbacks that the dma-buf core would call on exported
    buffers.  Of tvtop: the system sleep callbacks, which log.  Of the audio
    bridge: buffer allocation and the info callbacks, which only call ALSA, and
    the order in which two CPUs see its registers.  The vendored Wi-Fi drivers
    (src/drivers/wifi), the older copies in src/drivers/Archived, and the
    display, media and codec drivers, which are register programming around
    kernel frameworks. *)
From stdpp Require Export base list gmap.
From Stdlib Require Export ZArith Lia.
#[global] Open Scope Z_scope.

(** ** Machine integers: a [w]-bit unsigned value is a [Z] in [0, 2^w) *)

Definition u8 (z : Z) : Z := z mod 2 ^ 8.
Definition u16 (z : Z) : Z := z mod 2 ^ 16.
Definition u32 (z : Z) : Z := z mod 2 ^ 32.

(** The value of a 32-bit pattern read as a signed [int]. *)
Definition s32 (z : Z) : Z :=
  let v := u32 z in if v <? 2 ^ 31 then v else v - 2 ^ 32.

Arguments u8 : simpl never.
Arguments u16 : simpl never.
Arguments u32 : simpl never.
Arguments s32 : simpl never.

Declare Scope bits_scope.
Delimit Scope bits_scope with bits.
Notation "x &. y" := (Z.land x y) (at level 40, left associativity) : bits_scope.
Notation "x |. y" := (Z.lor x y) (at level 50, left associativity) : bits_scope.
#[global] Open Scope bits_scope.

(** [x & ~mask] on a [w]-bit value *)
Definition bic (x mask : Z) : Z := Z.ldiff x mask.

Lemma u32_small z : 0 <= z < 2 ^ 32 -> u32 z = z.
Proof. apply Z.mod_small. Qed.

Lemma u32_range z : 0 <= u32 z < 2 ^ 32.
Proof. apply Z.mod_pos_bound; lia. Qed.

Lemma u16_small z : 0 <= z < 2 ^ 16 -> u16 z = z.
Proof. apply Z.mod_small. Qed.

Lemma u16_range z : 0 <= u16 z < 2 ^ 16.
Proof. apply Z.mod_pos_bound; lia. Qed.

Lemma u8_small z : 0 <= z < 2 ^ 8 -> u8 z = z.
Proof. apply Z.mod_small. Qed.

Lemma u8_range z : 0 <= u8 z < 2 ^ 8.
Proof. apply Z.mod_pos_bound; lia. Qed.

Lemma u32_idem z : u32 (u32 z) = u32 z.
Proof. apply u32_small, u32_range. Qed.

Lemma u32_add_l x y : u32 (u32 x + y) = u32 (x + y).
Proof. apply Zplus_mod_idemp_l. Qed.

Lemma u32_add_r x y : u32 (x + u32 y) = u32 (x + y).
Proof. apply Zplus_mod_idemp_r. Qed.

Lemma u32_sub_l x y : u32 (u32 x - y) = u32 (x - y).
Proof. apply Zminus_mod_idemp_l. Qed.

Lemma s32_id z : - 2 ^ 31 <= z < 2 ^ 31 -> s32 z = z.
Proof.
  intros H. unfold s32, u32. destruct (Z.leb_spec 0 z).
  - rewrite Z.mod_small by lia. destruct (Z.ltb_spec z (2 ^ 31)); lia.
  - replace (z mod 2 ^ 32) with (z + 2 ^ 32).
    2: { rewrite <- (Z.mod_add _ 1), Z.mod_small by lia. lia. }
    destruct (Z.ltb_spec (z + 2 ^ 32) (2 ^ 31)); lia.
Qed.

Lemma s32_small z : 0 <= z < 2 ^ 31 -> s32 z = z.
Proof. intros. apply s32_id. lia. Qed.

Lemma u32_wrap z k : u32 (z + k * 2 ^ 32) = u32 z.
Proof. unfold u32. apply Z.mod_add. lia. Qed.

(** Reading as signed changes a value by a multiple of [2 ^ 32]. *)
Lemma s32_wrap z : exists k, s32 z = z + k * 2 ^ 32.
Proof.
  unfold s32, u32. pose proof (Z.div_mod z (2 ^ 32) ltac:(lia)).
  destruct (Z.ltb_spec (z mod 2 ^ 32) (2 ^ 31)).
  - exists (- (z / 2 ^ 32)). lia.
  - exists (- (z / 2 ^ 32) - 1). lia.
Qed.

Lemma u32_s32 z : u32 (s32 z) = u32 z.
Proof. destruct (s32_wrap z) as [k ->]. apply u32_wrap. Qed.

Lemma s32_range z : - 2 ^ 31 <= s32 z < 2 ^ 31.
Proof.
  unfold s32. pose proof (u32_range z).
  destruct (Z.ltb_spec (u32 z) (2 ^ 31)); lia.
Qed.

Lemma lor_range n x y : 0 <= n -> 0 <= x < 2 ^ n -> 0 <= y < 2 ^ n -> 0 <= Z.lor x y < 2 ^ n.
Proof.
  intros Hn Hx Hy. assert (E : Z.lor x y = (Z.lor x y) mod 2 ^ n).
  { rewrite <- Z.land_ones, Z.land_lor_distr_l, !Z.land_ones, !Z.mod_small by lia. done. }
  rewrite E. apply Z.mod_pos_bound. lia.
Qed.

Lemma ldiff_range x y n : 0 <= n -> 0 <= x < 2 ^ n -> 0 <= Z.ldiff x y < 2 ^ n.
Proof.
  intros Hn Hx. assert (E : Z.ldiff x y = Z.land (Z.ldiff x y) (Z.ones n)).
  { apply Z.bits_inj'. intros k Hk. rewrite Z.land_spec, Z.ldiff_spec.
    destruct (Z.lt_ge_cases k n); [rewrite Z.ones_spec_low by lia; by rewrite andb_true_r|].
    rewrite Z.ones_spec_high by lia. destruct (Z.eq_dec x 0) as [->|]; [by rewrite Z.bits_0|].
    rewrite (Z.bits_above_log2 x k); [done | lia |].
    apply Z.lt_le_trans with n; [|done]. apply Z.log2_lt_pow2; lia. }
  rewrite E, Z.land_ones by lia. apply Z.mod_pos_bound. lia.
Qed.

Lemma u16_lor_small x y : 0 <= x < 2 ^ 16 -> 0 <= y < 2 ^ 16 -> u16 (Z.lor x y) = Z.lor x y.
Proof. intros Hx Hy. apply u16_small, lor_range; lia. Qed.

Create Rewrite HintDb u32.
#[export] Hint Rewrite u32_idem u32_add_l u32_add_r u32_sub_l : u32.

(** [u32s] removes the wrap-around of every 32-bit sum that is in range. *)
Ltac u32s :=
  repeat match goal with
  | |- context [u32 ?z] => rewrite (u32_small z) by lia
  | H : context [u32 ?z] |- _ => rewrite (u32_small z) in H by lia
  end.

(** Evaluate the wrap-around of a literal. *)
Ltac plit p :=
  lazymatch p with xH => idtac | xO ?q => plit q | xI ?q => plit q end.
Ltac zlit z := lazymatch z with Z0 => idtac | Zpos ?p => plit p | Zneg ?p => plit p end.
Ltac uconst1 f z := zlit z; let v := eval vm_compute in (f z) in change (f z) with v.
Ltac uconst :=
  repeat match goal with
  | |- context [u8 ?z] => uconst1 u8 z
  | |- context [u16 ?z] => uconst1 u16 z
  | |- context [u32 ?z] => uconst1 u32 z
  | |- context [s32 ?z] => uconst1 s32 z
  end.

(** Split a conjunction, and nothing below it. *)
Ltac ands := repeat lazymatch goal with |- _ /\ _ => split end.

(** Booleans of [Z] comparisons to propositions, in goal and hypotheses. *)
Ltac zbool :=
  repeat match goal with
  | H : (_ =? _) = true |- _ => apply Z.eqb_eq in H
  | H : (_ =? _) = false |- _ => apply Z.eqb_neq in H
  | H : (_ <? _) = true |- _ => apply Z.ltb_lt in H
  | H : (_ <? _) = false |- _ => apply Z.ltb_ge in H
  | H : (_ <=? _) = true |- _ => apply Z.leb_le in H
  | H : (_ <=? _) = false |- _ => apply Z.leb_gt in H
  | H : (_ && _) = true |- _ => apply andb_true_iff in H as [? ?]
  | H : (_ || _) = false |- _ => apply orb_false_iff in H as [? ?]
  | H : negb _ = true |- _ => apply negb_true_iff in H
  | H : negb _ = false |- _ => apply negb_false_iff in H
  end.

Lemma eqb_neq_false x y : x <> y -> (x =? y) = false.
Proof. apply Z.eqb_neq. Qed.

Lemma ltb_true x y : x < y -> (x <? y) = true.
Proof. apply Z.ltb_lt. Qed.

Lemma ltb_false x y : y <= x -> (x <? y) = false.
Proof. apply Z.ltb_ge. Qed.

Lemma leb_true x y : x <= y -> (x <=? y) = true.
Proof. apply Z.leb_le. Qed.

Lemma leb_false x y : y < x -> (x <=? y) = false.
Proof. apply Z.leb_gt. Qed.

(** Decide every comparison of the goal that [lia] can. *)
Ltac zcmp :=
  repeat match goal with
  | |- context [?x =? ?x] => rewrite (Z.eqb_refl x)
  | |- context [?x =? ?y] =>
      first [ rewrite (eqb_neq_false x y) by lia
            | rewrite (proj2 (Z.eqb_eq x y)) by lia ]
  | |- context [?x <? ?y] =>
      first [ rewrite (ltb_true x y) by lia | rewrite (ltb_false x y) by lia ]
  | |- context [?x <=? ?y] =>
      first [ rewrite (leb_true x y) by lia | rewrite (leb_false x y) by lia ]
  end; cbn [negb andb orb].

(** ** Finite sequences of steps *)

Section Star.
Context {St : Type} (R : St -> St -> Prop).

Inductive star : St -> St -> Prop :=
| star_refl s : star s s
| star_right s t u : star s t -> R t u -> star s u.

Lemma star_invariant (I : St -> Prop) :
  (forall s t, I s -> R s t -> I t) ->
  forall s t, I s -> star s t -> I t.
Proof. intros HI s t Hs. induction 1; eauto. Qed.
End Star.

(** ** Lists *)

Lemma seqZ_cons_S (a : Z) (n : nat) :
  seqZ a (Z.of_nat (S n)) = a :: seqZ (a + 1) (Z.of_nat n).
Proof. rewrite seqZ_cons by lia. do 2 f_equal; lia. Qed.

Lemma Forall2_len {A B} (P : A -> B -> Prop) l k : Forall2 P l k -> length l = length k.
Proof. apply Forall2_length. Qed.

(** ** Record updates *)

(** [field_setter eta f]: the function that replaces field [f], where [eta]
    rebuilds a record from its fields. *)
Ltac field_setter eta f :=
  match eval pattern f in eta with ?s _ => exact (fun v => s (fun _ => v)) end.
