(* ===== verification/Mem.v ===== *)
(** Byte-addressed memory: the kernel and shared memory the drivers read and
    write through [u8 *], [u16 *], [u32 *] and [u64 *] pointers.  A load or a
    store of [n] bytes is little-endian; [ld n] and [st n] are stated once for
    every width. *)
From S2P Require Import Prelude.

(** A byte that was never written reads as 0: any content can be given by
    writing it first, and no theorem relies on the default. *)
Abbreviation mem := (gmap Z Z).

Definition ld8 (m : mem) (a : Z) : Z := u8 (default 0 (m !! a)).
Definition st8 (m : mem) (a v : Z) : mem := <[a := u8 v]> m.

(** [ld n m a]: the [n]-byte value at [a]; [st n m a v]: store it. *)
Fixpoint ld (n : nat) (m : mem) (a : Z) : Z :=
  match n with
  | O => 0
  | S k => ld8 m a + 256 * ld k m (a + 1)
  end.

Fixpoint st (n : nat) (m : mem) (a v : Z) : mem :=
  match n with
  | O => m
  | S k => st k (st8 m a v) (a + 1) (v / 256)
  end.

Abbreviation ld16 := (ld 2).
Abbreviation ld32 := (ld 4).
Abbreviation ld64 := (ld 8).
Abbreviation st16 := (st 2).
Abbreviation st32 := (st 4).
Abbreviation st64 := (st 8).

Arguments ld : simpl never.
Arguments st : simpl never.
Arguments ld8 : simpl never.
Arguments st8 : simpl never.

(** Fill [n] bytes with [v]; copy a byte list. *)
Fixpoint fill (n : nat) (m : mem) (a v : Z) : mem :=
  match n with
  | O => m
  | S k => fill k (st8 m a v) (a + 1) v
  end.

Fixpoint bytes (n : nat) (m : mem) (a : Z) : list Z :=
  match n with
  | O => []
  | S k => ld8 m a :: bytes k m (a + 1)
  end.

Fixpoint wrbytes (m : mem) (a : Z) (l : list Z) : mem :=
  match l with
  | [] => m
  | b :: l' => wrbytes (st8 m a b) (a + 1) l'
  end.

Arguments fill : simpl never.

(** Two memories with the same bytes in [[a, a + n)]. *)
Definition same_on (a n : Z) (m m' : mem) : Prop :=
  forall x, a <= x < a + n -> ld8 m' x = ld8 m x.

(** Two memories with the same bytes outside [[a, a + n)]. *)
Definition same_out (a n : Z) (m m' : mem) : Prop :=
  forall x, x < a \/ a + n <= x -> ld8 m' x = ld8 m x.

Lemma same_out_refl a n m : same_out a n m m.
Proof. done. Qed.

Lemma same_out_trans a n m1 m2 m3 :
  same_out a n m1 m2 -> same_out a n m2 m3 -> same_out a n m1 m3.
Proof. intros H1 H2 x Hx. by rewrite H2, H1. Qed.

Lemma same_out_weaken a n b k m m' :
  same_out a n m m' -> b <= a -> a + n <= b + k -> same_out b k m m'.
Proof. intros H H1 H2 x Hx. apply H. lia. Qed.

Lemma ld8_range m a : 0 <= ld8 m a < 256.
Proof. apply u8_range. Qed.

Lemma ld8_st8_eq m a v : ld8 (st8 m a v) a = u8 v.
Proof.
  unfold ld8, st8. rewrite lookup_insert_eq. simpl.
  apply u8_small, u8_range.
Qed.

Lemma ld8_st8_ne m a v b : a <> b -> ld8 (st8 m a v) b = ld8 m b.
Proof. intros. unfold ld8, st8. by rewrite lookup_insert_ne. Qed.

Lemma ld_S n m a : ld (S n) m a = ld8 m a + 256 * ld n m (a + 1).
Proof. reflexivity. Qed.

Lemma st_S n m a v : st (S n) m a v = st n (st8 m a v) (a + 1) (v / 256).
Proof. reflexivity. Qed.

Lemma ld_1 m a : ld 1 m a = ld8 m a.
Proof. rewrite ld_S. unfold ld at 1. lia. Qed.

Lemma ld_range n m a : 0 <= ld n m a < 256 ^ Z.of_nat n.
Proof.
  revert a. induction n as [|n IH]; intros a; [unfold ld; lia|].
  rewrite ld_S. specialize (IH (a + 1)). pose proof (ld8_range m a).
  rewrite Nat2Z.inj_succ, Z.pow_succ_r by lia. lia.
Qed.

Lemma ld32_range m a : 0 <= ld32 m a < 2 ^ 32.
Proof. apply (ld_range 4). Qed.

Lemma ld16_range m a : 0 <= ld16 m a < 2 ^ 16.
Proof. apply (ld_range 2). Qed.

Lemma ld8_st_out n m a v b :
  b < a \/ a + Z.of_nat n <= b -> ld8 (st n m a v) b = ld8 m b.
Proof.
  revert m a v. induction n as [|n IH]; intros m a v Hb; [done|].
  rewrite st_S, IH by lia. apply ld8_st8_ne. lia.
Qed.

Lemma ld_same n m m' a :
  (forall x, a <= x < a + Z.of_nat n -> ld8 m' x = ld8 m x) ->
  ld n m' a = ld n m a.
Proof.
  revert a. induction n as [|n IH]; intros a H; [done|].
  rewrite !ld_S, H by lia. rewrite IH; [done|]. intros. apply H. lia.
Qed.

(** A value outside the region two memories may differ in. *)
Lemma ld_same_out k m m' a n b :
  same_out a n m m' -> b + Z.of_nat k <= a \/ a + n <= b -> ld k m' b = ld k m b.
Proof. intros H Hb. apply ld_same. intros. apply H. lia. Qed.

Lemma same_out_st k m a v lo n :
  lo <= a -> a + Z.of_nat k <= lo + n -> same_out lo n m (st k m a v).
Proof. intros H1 H2 x Hx. apply ld8_st_out. lia. Qed.

(** The one lemma behind every "the other fields are unchanged". *)
Lemma ld_st_ne k n m a v b :
  b + Z.of_nat k <= a \/ a + Z.of_nat n <= b ->
  ld k (st n m a v) b = ld k m b.
Proof. intros H. apply ld_same. intros. apply ld8_st_out. lia. Qed.

Lemma ld_st_eq n m a v : ld n (st n m a v) a = v mod 256 ^ Z.of_nat n.
Proof.
  revert m a v. induction n as [|n IH]; intros m a v.
  { unfold ld. by rewrite Z.mod_1_r. }
  rewrite ld_S, st_S, IH, ld8_st_out, ld8_st8_eq by lia.
  rewrite Nat2Z.inj_succ, Z.pow_succ_r by lia. unfold u8.
  rewrite Z.rem_mul_r by lia. done.
Qed.

Lemma ld32_st32_eq m a v : ld32 (st32 m a v) a = u32 v.
Proof. apply (ld_st_eq 4). Qed.

Lemma ld16_st16_eq m a v : ld16 (st16 m a v) a = u16 v.
Proof. apply (ld_st_eq 2). Qed.

Lemma ld1_st1_eq m a v : ld 1 (st 1 m a v) a = u8 v.
Proof. apply (ld_st_eq 1). Qed.

Lemma ld1_range m a : 0 <= ld 1 m a < 2 ^ 8.
Proof. apply (ld_range 1). Qed.

Lemma ld_st8_ne k m a v b :
  b + Z.of_nat k <= a \/ a + 1 <= b -> ld k (st8 m a v) b = ld k m b.
Proof. intros H. apply ld_same. intros. apply ld8_st8_ne. lia. Qed.

Lemma ld8_fill_in n m a v x :
  a <= x < a + Z.of_nat n -> ld8 (fill n m a v) x = u8 v.
Proof.
  assert (Hout : forall n m a x, x < a -> ld8 (fill n m a v) x = ld8 m x).
  { clear. induction n as [|n IH]; intros m a x H; [done|].
    unfold fill; fold fill. rewrite IH by lia. apply ld8_st8_ne. lia. }
  revert m a. induction n as [|n IH]; intros m a H; [lia|].
  unfold fill; fold fill. destruct (decide (a = x)) as [->|].
  - rewrite Hout by lia. apply ld8_st8_eq.
  - apply IH. lia.
Qed.

Lemma ld8_fill_out n m a v x :
  x < a \/ a + Z.of_nat n <= x -> ld8 (fill n m a v) x = ld8 m x.
Proof.
  revert m a. induction n as [|n IH]; intros m a H; [done|].
  unfold fill; fold fill. rewrite IH by lia. apply ld8_st8_ne. lia.
Qed.

Lemma ld_fill_ne k n m a v b :
  b + Z.of_nat k <= a \/ a + Z.of_nat n <= b -> ld k (fill n m a v) b = ld k m b.
Proof. intros H. apply ld_same. intros. apply ld8_fill_out. lia. Qed.

Lemma ld_fill0_in k n m a b :
  a <= b -> b + Z.of_nat k <= a + Z.of_nat n -> ld k (fill n m a 0) b = 0.
Proof.
  revert b. induction k as [|k IH]; intros b H1 H2; [done|].
  rewrite ld_S, ld8_fill_in, IH by lia. reflexivity.
Qed.

Lemma bytes_length n m a : length (bytes n m a) = n.
Proof. revert a. induction n; intros; simpl; auto. Qed.

Lemma bytes_same n m m' a :
  (forall x, a <= x < a + Z.of_nat n -> ld8 m' x = ld8 m x) ->
  bytes n m' a = bytes n m a.
Proof.
  revert a. induction n as [|n IH]; intros a H; [done|].
  simpl. rewrite H, IH by (intros; first [apply H | idtac]; lia). done.
Qed.

Lemma ld8_wrbytes_out l m a x :
  x < a \/ a + Z.of_nat (length l) <= x -> ld8 (wrbytes m a l) x = ld8 m x.
Proof.
  revert m a. induction l as [|b l IH]; intros m a H; [done|].
  simpl in *. rewrite IH by lia. apply ld8_st8_ne. lia.
Qed.

Lemma ld_wrbytes_ne k l m a b :
  b + Z.of_nat k <= a \/ a + Z.of_nat (length l) <= b ->
  ld k (wrbytes m a l) b = ld k m b.
Proof. intros H. apply ld_same. intros. apply ld8_wrbytes_out. lia. Qed.

(** Reading back what a byte copy wrote. *)
Lemma bytes_wrbytes l m a :
  Forall (fun b => 0 <= b < 256) l -> bytes (length l) (wrbytes m a l) a = l.
Proof.
  intros H. revert m a. induction H as [|b l Hb Hl IH]; intros m a; [done|].
  simpl. rewrite IH, ld8_wrbytes_out, ld8_st8_eq by lia.
  by rewrite u8_small by lia.
Qed.

Lemma bytes_wrbytes_u8 l m a : bytes (length l) (wrbytes m a l) a = map u8 l.
Proof.
  revert m a. induction l as [|b l IH]; intros m a; [done|].
  simpl. by rewrite IH, ld8_wrbytes_out, ld8_st8_eq by lia.
Qed.

Lemma bytes_range n m a : Forall (fun b => 0 <= b < 256) (bytes n m a).
Proof.
  revert a. induction n; intros; simpl; constructor; auto. apply ld8_range.
Qed.

Lemma ld_bytes_eq k m m' a b :
  bytes k m a = bytes k m' b -> ld k m a = ld k m' b.
Proof.
  revert a b. induction k as [|k IH]; intros a b H; [done|].
  simpl in H. injection H as H1 H2. rewrite !ld_S, H1. by rewrite (IH _ _ H2).
Qed.

(** A field of a copied block is the field of the source. *)
Lemma ld8_wrbytes_in l m a i x :
  l !! i = Some x -> 0 <= x < 256 -> ld8 (wrbytes m a l) (a + Z.of_nat i) = x.
Proof.
  revert m a i. induction l as [|b l IH]; intros m a [|i] H Hx; try done.
  - injection H as ->. simpl. rewrite Z.add_0_r, ld8_wrbytes_out by lia.
    rewrite ld8_st8_eq. apply u8_small. lia.
  - simpl in *. rewrite <- (IH (st8 m a b) (a + 1) i H Hx). f_equal. lia.
Qed.

Lemma bytes_lookup n m a i :
  (i < n)%nat -> bytes n m a !! i = Some (ld8 m (a + Z.of_nat i)).
Proof.
  revert a i. induction n as [|n IH]; intros a [|i] H; try lia; simpl.
  - by rewrite Z.add_0_r.
  - rewrite IH by lia. do 2 f_equal. lia.
Qed.

Lemma ld_copy k n m m0 a src off :
  0 <= off -> off + Z.of_nat k <= Z.of_nat n ->
  ld k (wrbytes m a (bytes n m0 src)) (a + off) = ld k m0 (src + off).
Proof.
  revert off. induction k as [|k IH]; intros off H1 H2; [done|].
  rewrite !ld_S. replace (a + off + 1) with (a + (off + 1)) by lia.
  replace (src + off + 1) with (src + (off + 1)) by lia.
  rewrite IH by lia. f_equal.
  pose proof (bytes_lookup n m0 src (Z.to_nat off) ltac:(lia)) as Hl.
  pose proof (ld8_wrbytes_in _ m a _ _ Hl (ld8_range _ _)) as E.
  by rewrite Z2Nat.id in E by lia.
Qed.

Lemma ld8_copy n m m0 a src x :
  a <= x < a + Z.of_nat n ->
  ld8 (wrbytes m a (bytes n m0 src)) x = ld8 m0 (src + (x - a)).
Proof.
  intros H. pose proof (ld_copy 1 n m m0 a src (x - a) ltac:(lia) ltac:(lia)) as E.
  rewrite !ld_1 in E. rewrite <- E. f_equal. lia.
Qed.

(** A value and a block at two places with the same bytes. *)
Lemma ld_move n m m' a b :
  (forall x, 0 <= x < Z.of_nat n -> ld8 m' (a + x) = ld8 m (b + x)) -> ld n m' a = ld n m b.
Proof.
  revert a b. induction n as [|n IH]; intros a b H; [done|].
  rewrite !ld_S. pose proof (H 0 ltac:(lia)) as E. rewrite !Z.add_0_r in E. rewrite E.
  rewrite (IH (a + 1) (b + 1)); [done|]. intros x Hx.
  rewrite <- !Z.add_assoc. apply H. lia.
Qed.

Lemma bytes_move n m m' a b :
  (forall x, 0 <= x < Z.of_nat n -> ld8 m' (a + x) = ld8 m (b + x)) -> bytes n m' a = bytes n m b.
Proof.
  revert a b. induction n as [|n IH]; intros a b H; [done|].
  simpl. pose proof (H 0 ltac:(lia)) as E. rewrite !Z.add_0_r in E. rewrite E.
  rewrite (IH (a + 1) (b + 1)); [done|]. intros x Hx. rewrite <- !Z.add_assoc. apply H. lia.
Qed.

(** A load stored elsewhere is a copy of its bytes. *)
Lemma st_ld n m m0 a b : st n m a (ld n m0 b) = wrbytes m a (bytes n m0 b).
Proof.
  revert m a b. induction n as [|n IH]; intros m a b; [done|].
  rewrite st_S, ld_S. simpl. pose proof (ld8_range m0 b) as R.
  replace ((ld8 m0 b + 256 * ld n m0 (b + 1)) / 256) with (ld n m0 (b + 1)).
  2: { apply (Z.div_unique_pos _ 256 _ (ld8 m0 b)); lia. }
  rewrite IH. f_equal. unfold st8. f_equal. unfold u8.
  change (2 ^ 8) with 256. rewrite (Z.mul_comm 256), Z.mod_add by lia. done.
Qed.

(** ** Rewriting loads over stores: [memsimp] decides each address by [lia]. *)

Create Rewrite HintDb mem.
#[export] Hint Rewrite ld_st_ne ld8_st_out ld_st8_ne ld_fill_ne ld8_fill_out
  ld8_st8_ne ld8_wrbytes_out ld_wrbytes_ne using (rewrite ?bytes_length; lia) : mem.
#[export] Hint Rewrite ld32_st32_eq ld16_st16_eq ld8_st8_eq ld1_st1_eq : mem.

Ltac memsimp := autorewrite with mem; uconst.

(** [same_out] of a chain of stores. *)
Ltac same_out_tac :=
  repeat first
    [ apply same_out_refl | assumption
    | eapply same_out_trans; [| apply same_out_st; simpl Z.of_nat; lia]
    | eapply same_out_weaken; [eassumption | lia | lia] ].
