(* ===== verification/Kernel.v ===== *)
(** The world the cpu_comm code runs in, the monad its functions are written
    in, and the interface of the Linux kernel primitives they call.

    - [world]: memory, the module's mutable globals, and what the code makes
      visible outside (register writes, queued work).
    - [M A]: a computation that returns a value and a new world, or stops for a
      reason ([stuck]): a null dereference, a division by zero, a semaphore
      that would put the caller to sleep, a loop that used up its fuel.
    - [Kernel]: semaphores, scheduling and hardware spinlocks, which are not
      part of this repository, as the operations of a class; [SemLaws] and
      [Quiet] state what a theorem relies on; [SimpleKernel] is one instance.
    - [wp m Q w]: running [m] from [w] returns, and [Q] holds of the result. *)
From S2P Require Import Prelude Mem.

Inductive stuck : Set :=
| NullDeref (a : Z)
| DivByZero
| WouldBlock (sem : Z)
| NoFuel
| Panic.                         (* BUG_ON or while (1) *)

(** One open of /dev/cpu_comm ([struct cpu_comm_user_ctx]). *)
Record user_ctx := UserCtx {
  uc_id : Z;                   (* the open file it belongs to *)
  uc_queue : list (list Z);    (* queued 104-byte messages, oldest first *)
  uc_count : Z;
  uc_owner : Z;
  uc_dropped : Z;
}.

(** The module state of the mailbox code of [cpu_comm_hw.c]. *)
Record msgbox := Msgbox {
  mips_ctrl_base : Z;
  msgbox_ctrl_base : Z;
  msgbox_irqs : list (Z * bool);   (* the slots in use: number, registered *)
  msgbox_rx_callback : bool;       (* set (to [cpu_comm_msg_cb]) or NULL *)
  msgbox_poll_active : bool;
  msgbox_poll_initialized : bool;
  msgbox_irq_count : Z;
  msgbox_irq_msgs_drained : Z;
  poll_delay : list Z;             (* delays the poll was scheduled with, in ms *)
  arisc_tx_seq : Z;
}.

Record world := World {
  mm : mem;                    (* kernel and shared memory *)
  s_CallSessionId : Z;
  mips_app_ready_assumed : Z;
  ShMemAddr1 : Z;
  cur_tgid : Z;                (* current->tgid *)
  cur_pid : Z;                 (* current->pid *)
  mmio : list (Z * Z * mem);   (* writel: address, value and the memory then, oldest first *)
  works : list (Z * Z);        (* pending s_action_work[cpu][type] *)
  call_works : list Z;         (* scheduled comm_work_item call entries *)
  user_ctxs : list user_ctx;
  mbox : msgbox;
  env : list Z;                (* what the environment keeps; the code never looks *)
}.

Definition set_mm (w : world) (m : mem) : world :=
  World m (s_CallSessionId w) (mips_app_ready_assumed w) (ShMemAddr1 w)
        (cur_tgid w) (cur_pid w) (mmio w) (works w) (call_works w) (user_ctxs w) (mbox w) (env w).

(** The same world, running in the context of thread group [t]. *)
Definition set_tgid (w : world) (t : Z) : world :=
  World (mm w) (s_CallSessionId w) (mips_app_ready_assumed w) (ShMemAddr1 w)
        t (cur_pid w) (mmio w) (works w) (call_works w) (user_ctxs w) (mbox w) (env w).

Definition set_session (w : world) (s : Z) : world :=
  World (mm w) s (mips_app_ready_assumed w) (ShMemAddr1 w)
        (cur_tgid w) (cur_pid w) (mmio w) (works w) (call_works w) (user_ctxs w) (mbox w) (env w).

Definition set_assumed (w : world) (v : Z) : world :=
  World (mm w) (s_CallSessionId w) v (ShMemAddr1 w)
        (cur_tgid w) (cur_pid w) (mmio w) (works w) (call_works w) (user_ctxs w) (mbox w) (env w).

Definition set_ShMemAddr1 (w : world) (v : Z) : world :=
  World (mm w) (s_CallSessionId w) (mips_app_ready_assumed w) v
        (cur_tgid w) (cur_pid w) (mmio w) (works w) (call_works w) (user_ctxs w) (mbox w) (env w).

Definition set_mmio (w : world) (l : list (Z * Z * mem)) : world :=
  World (mm w) (s_CallSessionId w) (mips_app_ready_assumed w) (ShMemAddr1 w)
        (cur_tgid w) (cur_pid w) l (works w) (call_works w) (user_ctxs w) (mbox w) (env w).

Definition set_works (w : world) (l : list (Z * Z)) : world :=
  World (mm w) (s_CallSessionId w) (mips_app_ready_assumed w) (ShMemAddr1 w)
        (cur_tgid w) (cur_pid w) (mmio w) l (call_works w) (user_ctxs w) (mbox w) (env w).

Definition set_call_works (w : world) (l : list Z) : world :=
  World (mm w) (s_CallSessionId w) (mips_app_ready_assumed w) (ShMemAddr1 w)
        (cur_tgid w) (cur_pid w) (mmio w) (works w) l (user_ctxs w) (mbox w) (env w).

Definition set_user_ctxs (w : world) (l : list user_ctx) : world :=
  World (mm w) (s_CallSessionId w) (mips_app_ready_assumed w) (ShMemAddr1 w)
        (cur_tgid w) (cur_pid w) (mmio w) (works w) (call_works w) l (mbox w) (env w).

Definition set_mbox (w : world) (b : msgbox) : world :=
  World (mm w) (s_CallSessionId w) (mips_app_ready_assumed w) (ShMemAddr1 w)
        (cur_tgid w) (cur_pid w) (mmio w) (works w) (call_works w) (user_ctxs w) b (env w).

Definition set_env (w : world) (l : list Z) : world :=
  World (mm w) (s_CallSessionId w) (mips_app_ready_assumed w) (ShMemAddr1 w)
        (cur_tgid w) (cur_pid w) (mmio w) (works w) (call_works w) (user_ctxs w) (mbox w) l.

Lemma mm_set_mm w m : mm (set_mm w m) = m.
Proof. done. Qed.

Lemma set_mm_set_mm w m m' : set_mm (set_mm w m) m' = set_mm w m'.
Proof. done. Qed.

Lemma cur_tgid_set_mm w m : cur_tgid (set_mm w m) = cur_tgid w.
Proof. done. Qed.
Lemma cur_pid_set_mm w m : cur_pid (set_mm w m) = cur_pid w.
Proof. done. Qed.
Lemma app_ready_set_mm w m : mips_app_ready_assumed (set_mm w m) = mips_app_ready_assumed w.
Proof. done. Qed.
Lemma session_set_mm w m : s_CallSessionId (set_mm w m) = s_CallSessionId w.
Proof. done. Qed.

Lemma set_mm_id w : set_mm w (mm w) = w.
Proof. by destruct w. Qed.

(** ** The monad *)

Inductive outcome (A : Type) : Type :=
| Ret (a : A) (w : world)
| Stop (r : stuck).
Arguments Ret {A} a w.
Arguments Stop {A} r.

Definition M (A : Type) : Type := world -> outcome A.

#[export] Instance M_ret : MRet M := fun A a w => Ret a w.
#[export] Instance M_bind : MBind M := fun A B k m w =>
  match m w with Ret a w' => k a w' | Stop r => Stop r end.

Definition stop {A} (r : stuck) : M A := fun _ => Stop r.
Definition gets {A} (f : world -> A) : M A := fun w => Ret (f w) w.
Definition modify (f : world -> world) : M unit := fun w => Ret tt (f w).

(** Loads and stores; an address in page 0 is a null dereference. *)
Definition rd (n : nat) (a : Z) : M Z := fun w =>
  if a <? 4096 then Stop (NullDeref a) else Ret (ld n (mm w) a) w.
Definition wr (n : nat) (a v : Z) : M unit := fun w =>
  if a <? 4096 then Stop (NullDeref a) else Ret tt (set_mm w (st n (mm w) a v)).

Abbreviation rd8 := (rd 1).
Abbreviation rd16 := (rd 2).
Abbreviation rd32 := (rd 4).
Abbreviation rd64 := (rd 8).
Abbreviation wr8 := (wr 1).
Abbreviation wr16 := (wr 2).
Abbreviation wr32 := (wr 4).
Abbreviation wr64 := (wr 8).

(** [memset]/[memset_io], [memcpy]/[memcpy_toio] *)
Definition memset (a v : Z) (n : nat) : M unit := fun w =>
  if a <? 4096 then Stop (NullDeref a) else Ret tt (set_mm w (fill n (mm w) a v)).
Definition memcpy (dst src : Z) (n : nat) : M unit := fun w =>
  if (dst <? 4096) || (src <? 4096) then Stop (NullDeref (Z.min dst src))
  else Ret tt (set_mm w (wrbytes (mm w) dst (bytes n (mm w) src))).

(** An unsigned 32-bit remainder; ARM has no defined result for [x % 0]. *)
Definition umod (x y : Z) : M Z :=
  if y =? 0 then stop DivByZero else mret (x mod y).

(** [for (j = i; j < i + n; j++) body] *)
Fixpoint for_ (n : nat) (i : Z) (body : Z -> M unit) : M unit :=
  match n with
  | O => mret tt
  | S k => body i ;; for_ k (i + 1) body
  end.

(** The same with an early exit: [Some r] leaves the loop. *)
Fixpoint for_exit {R} (n : nat) (i : Z) (body : Z -> M (option R)) : M (option R) :=
  match n with
  | O => mret None
  | S k => r ← body i; match r with Some x => mret (Some x) | None => for_exit k (i + 1) body end
  end.

(** [while (1)] over loop variables of type [T]; [inr] leaves the loop. *)
Fixpoint loop {T R} (fuel : nat) (body : T -> M (T + R)) (s : T) : M R :=
  match fuel with
  | O => stop NoFuel
  | S k => r ← body s; match r with inl s' => loop k body s' | inr x => mret x end
  end.

(** ** Kernel primitives *)

Class Kernel := {
  sema_init : mem -> Z -> Z -> mem;              (* sema_init(sem, n) *)
  down : mem -> Z -> option mem;                 (* None: the caller sleeps *)
  up : mem -> Z -> mem;
  down_timeout : Z -> Z -> world -> Z * world;   (* others may run meanwhile *)
  schedule : world -> world;
  msleep : Z -> world -> world;
  hwspin_lock_timeout : Z -> Z -> world -> Z * world;  (* handle, ms *)
  hwspin_trylock : Z -> world -> Z * world;
  hwspin_unlock : Z -> world -> world;
}.

(** [struct semaphore] is 16 bytes with the count in its second word. *)
Definition sem_count (m : mem) (a : Z) : Z := ld32 m (a + 4).

Class SemLaws (K : Kernel) : Prop := {
  sema_init_frame m a n : same_out a 16 m (sema_init m a n);
  sema_init_count m a n : sem_count (sema_init m a n) a = u32 n;
  up_frame m a : same_out a 16 m (up m a);
  up_count m a : sem_count (up m a) a = u32 (sem_count m a + 1);
  down_ok m a : 0 < sem_count m a -> exists m',
    down m a = Some m' /\ same_out a 16 m m' /\
    sem_count m' a = sem_count m a - 1;
}.

(** No other agent touches the modelled world during these calls; the returned
    status stays arbitrary. *)
Class Quiet (K : Kernel) : Prop := {
  schedule_quiet w : schedule w = w;
  msleep_quiet t w : msleep t w = w;
  hwspin_lock_timeout_quiet h t w : snd (hwspin_lock_timeout h t w) = w;
  hwspin_trylock_quiet h w : snd (hwspin_trylock h w) = w;
  hwspin_unlock_quiet h w : hwspin_unlock h w = w;
}.

Section Ops.
Context {K : Kernel}.

Definition k_sema_init (a n : Z) : M unit := fun w =>
  if a <? 4096 then Stop (NullDeref a) else Ret tt (set_mm w (sema_init (mm w) a n)).
Definition k_down (a : Z) : M unit := fun w =>
  if a <? 4096 then Stop (NullDeref a)
  else match down (mm w) a with
       | Some m => Ret tt (set_mm w m)
       | None => Stop (WouldBlock a)
       end.
Definition k_up (a : Z) : M unit := fun w =>
  if a <? 4096 then Stop (NullDeref a) else Ret tt (set_mm w (up (mm w) a)).
Definition lift_env {A} (f : world -> A * world) : M A := fun w =>
  let '(a, w') := f w in Ret a w'.
Definition k_down_timeout (a t : Z) : M Z := lift_env (down_timeout a t).
Definition k_schedule : M unit := modify schedule.
Definition k_msleep (t : Z) : M unit := modify (msleep t).
Definition k_hwspin_lock_timeout (h t : Z) : M Z := lift_env (hwspin_lock_timeout h t).
Definition k_hwspin_trylock (h : Z) : M Z := lift_env (hwspin_trylock h).
Definition k_hwspin_unlock (h : Z) : M unit := modify (hwspin_unlock h).
End Ops.

(** A concrete kernel: counting semaphores in place, locks always granted. *)
Definition simple_sema_init (m : mem) (a n : Z) : mem :=
  st32 (st32 (st32 (st32 m a 0) (a + 4) n) (a + 8) (a + 8)) (a + 12) (a + 8).
Definition simple_down (m : mem) (a : Z) : option mem :=
  if 0 <? sem_count m a then Some (st32 m (a + 4) (sem_count m a - 1)) else None.
Definition simple_down_timeout (a t : Z) (w : world) : Z * world :=
  match simple_down (mm w) a with
  | Some m => (0, set_mm w m)
  | None => (-62, w)
  end.

#[export] Instance SimpleKernel : Kernel := {|
  sema_init := simple_sema_init;
  down := simple_down;
  up m a := st32 m (a + 4) (sem_count m a + 1);
  down_timeout := simple_down_timeout;
  schedule w := w;
  msleep _ w := w;
  hwspin_lock_timeout _ _ w := (0, w);
  hwspin_trylock _ w := (0, w);
  hwspin_unlock _ w := w;
|}.

#[export] Instance SimpleKernel_SemLaws : SemLaws SimpleKernel.
Proof.
  constructor; simpl; unfold sem_count.
  - intros m a n x Hx. unfold simple_sema_init. memsimp. done.
  - intros m a n. unfold simple_sema_init. memsimp. done.
  - intros m a x Hx. memsimp. done.
  - intros m a. memsimp. done.
  - intros m a H. unfold simple_down, sem_count. rewrite ltb_true by lia.
    eexists. split; [done|]. pose proof (ld32_range m (a + 4)). split.
    + intros x Hx. memsimp. done.
    + memsimp. u32s. done.
Qed.

#[export] Instance SimpleKernel_Quiet : Quiet SimpleKernel.
Proof. by constructor. Qed.

(** ** Total-correctness reasoning *)

Definition wp {A} (m : M A) (Q : A -> world -> Prop) (w : world) : Prop :=
  match m w with Ret a w' => Q a w' | Stop _ => False end.

Section Wp.
Context {A B : Type}.
Implicit Types (w : world).

Lemma wp_ret (a : A) (Q : A -> world -> Prop) w : Q a w -> wp (mret a) Q w.
Proof. done. Qed.

Lemma wp_bind (m : M A) (k : A -> M B) Q w :
  wp m (fun a w' => wp (k a) Q w') w -> wp (m ≫= k) Q w.
Proof. unfold wp, mbind, M_bind. by destruct (m w). Qed.

Lemma wp_mono (m : M A) (P Q : A -> world -> Prop) w :
  wp m P w -> (forall a w', P a w' -> Q a w') -> wp m Q w.
Proof. unfold wp. destruct (m w); auto. Qed.

(** Use a callee's specification. *)
Lemma wp_call (m : M A) (k : A -> M B) (P : A -> world -> Prop) Q w :
  wp m P w -> (forall a w', P a w' -> wp (k a) Q w') -> wp (m ≫= k) Q w.
Proof. intros H1 H2. apply wp_bind. eapply wp_mono; eauto. Qed.

(** Replace a call whose result is known. *)
Lemma wp_eq (m : M A) (k : A -> M B) Q w a w' :
  m w = Ret a w' -> wp (k a) Q w' -> wp (m ≫= k) Q w.
Proof. unfold wp, mbind, M_bind. by intros ->. Qed.

Lemma wp_run (m : M A) Q w : wp m Q w -> exists a w', m w = Ret a w' /\ Q a w'.
Proof. unfold wp. destruct (m w); [eauto | done]. Qed.

Lemma wp_Ret (m : M A) Q w a w' : wp m Q w -> m w = Ret a w' -> Q a w'.
Proof. unfold wp. intros H E. by rewrite E in H. Qed.

Lemma run_wp (m : M A) (Q : A -> world -> Prop) w a w' :
  m w = Ret a w' -> Q a w' -> wp m Q w.
Proof. unfold wp. by intros ->. Qed.
End Wp.

Section WpSteps.
Context {B : Type}.
Implicit Types (w : world) (Q : B -> world -> Prop).

Lemma wp_rd n a (k : Z -> M B) Q w :
  4096 <= a -> wp (k (ld n (mm w) a)) Q w -> wp (rd n a ≫= k) Q w.
Proof.
  intros Ha H. apply wp_bind. unfold wp, rd. by rewrite ltb_false by lia.
Qed.

Lemma wp_wr n a v (k : unit -> M B) Q w :
  4096 <= a -> wp (k tt) Q (set_mm w (st n (mm w) a v)) -> wp (wr n a v ≫= k) Q w.
Proof.
  intros Ha H. apply wp_bind. unfold wp, wr. by rewrite ltb_false by lia.
Qed.

Lemma wp_wr_last n a v (Q : unit -> world -> Prop) w :
  4096 <= a -> Q tt (set_mm w (st n (mm w) a v)) -> wp (wr n a v) Q w.
Proof. intros Ha H. unfold wp, wr. by rewrite ltb_false by lia. Qed.

Lemma wp_rd_last n a (Q : Z -> world -> Prop) w :
  4096 <= a -> Q (ld n (mm w) a) w -> wp (rd n a) Q w.
Proof. intros Ha H. unfold wp, rd. by rewrite ltb_false by lia. Qed.

Lemma wp_memset a v n (k : unit -> M B) Q w :
  4096 <= a -> wp (k tt) Q (set_mm w (fill n (mm w) a v)) -> wp (memset a v n ≫= k) Q w.
Proof.
  intros Ha H. apply wp_bind. unfold wp, memset. by rewrite ltb_false by lia.
Qed.

Lemma wp_memcpy d s n (k : unit -> M B) Q w :
  4096 <= d -> 4096 <= s ->
  wp (k tt) Q (set_mm w (wrbytes (mm w) d (bytes n (mm w) s))) ->
  wp (memcpy d s n ≫= k) Q w.
Proof.
  intros Hd Hs H. apply wp_bind. unfold wp, memcpy.
  by rewrite !ltb_false by lia.
Qed.

Lemma wp_umod x y (k : Z -> M B) Q w :
  y <> 0 -> wp (k (x mod y)) Q w -> wp (umod x y ≫= k) Q w.
Proof.
  intros Hy H. apply wp_bind. unfold umod. by rewrite eqb_neq_false by done.
Qed.

Lemma wp_gets {A} (f : world -> A) (k : A -> M B) Q w :
  wp (k (f w)) Q w -> wp (gets f ≫= k) Q w.
Proof. done. Qed.

Lemma wp_modify f (k : unit -> M B) Q w :
  wp (k tt) Q (f w) -> wp (modify f ≫= k) Q w.
Proof. done. Qed.

Lemma wp_mret {A} (a : A) (k : A -> M B) Q w :
  wp (k a) Q w -> wp (mret a ≫= k) Q w.
Proof. done. Qed.

Lemma wp_assoc {A C} (m : M A) (f : A -> M C) (k : C -> M B) Q w :
  wp (m ≫= (fun a => f a ≫= k)) Q w -> wp ((m ≫= f) ≫= k) Q w.
Proof. unfold wp, mbind, M_bind. by destruct (m w). Qed.

Context {K : Kernel} {L : SemLaws K}.

Lemma wp_sema_init a n (k : unit -> M B) Q w :
  4096 <= a -> wp (k tt) Q (set_mm w (sema_init (mm w) a n)) ->
  wp (k_sema_init a n ≫= k) Q w.
Proof.
  intros Ha H. apply wp_bind. unfold wp, k_sema_init. by rewrite ltb_false by lia.
Qed.

Lemma wp_up a (k : unit -> M B) Q w :
  4096 <= a -> wp (k tt) Q (set_mm w (up (mm w) a)) -> wp (k_up a ≫= k) Q w.
Proof.
  intros Ha H. apply wp_bind. unfold wp, k_up. by rewrite ltb_false by lia.
Qed.

Lemma wp_down a (k : unit -> M B) Q w :
  4096 <= a -> 0 < sem_count (mm w) a ->
  (forall m, same_out a 16 (mm w) m -> sem_count m a = sem_count (mm w) a - 1 ->
    wp (k tt) Q (set_mm w m)) ->
  wp (k_down a ≫= k) Q w.
Proof.
  intros Ha Hc H. apply wp_bind. unfold wp, k_down. rewrite ltb_false by lia.
  destruct (down_ok (mm w) a Hc) as (m & -> & Hf & Hn). by apply H.
Qed.
End WpSteps.

(** The same steps, with the new memory known only by what changed. *)
Section WpAbs.
Context {B : Type}.
Implicit Types (w : world) (Q : B -> world -> Prop).

Lemma wp_wr_abs n a v (k : unit -> M B) Q w :
  4096 <= a ->
  (forall m, same_out a (Z.of_nat n) (mm w) m -> ld n m a = v mod 256 ^ Z.of_nat n ->
     wp (k tt) Q (set_mm w m)) ->
  wp (wr n a v ≫= k) Q w.
Proof.
  intros Ha H. apply wp_wr; [done|]. apply H; [apply same_out_st; lia | apply ld_st_eq].
Qed.

Lemma wp_memset_abs a n (k : unit -> M B) Q w :
  4096 <= a ->
  (forall m, same_out a (Z.of_nat n) (mm w) m ->
     (forall j b, a <= b -> b + Z.of_nat j <= a + Z.of_nat n -> ld j m b = 0) ->
     wp (k tt) Q (set_mm w m)) ->
  wp (memset a 0 n ≫= k) Q w.
Proof.
  intros Ha H. apply wp_memset; [done|]. apply H.
  - intros x Hx. apply ld8_fill_out. lia.
  - intros. by apply ld_fill0_in.
Qed.

Context {K : Kernel} {L : SemLaws K}.

Lemma wp_sema_init_abs a n (k : unit -> M B) Q w :
  4096 <= a ->
  (forall m, same_out a 16 (mm w) m -> sem_count m a = u32 n -> wp (k tt) Q (set_mm w m)) ->
  wp (k_sema_init a n ≫= k) Q w.
Proof.
  intros Ha H. apply wp_sema_init; [done|].
  apply H; [apply sema_init_frame | apply sema_init_count].
Qed.

Lemma wp_up_abs a (k : unit -> M B) Q w :
  4096 <= a ->
  (forall m, same_out a 16 (mm w) m -> sem_count m a = u32 (sem_count (mm w) a + 1) ->
     wp (k tt) Q (set_mm w m)) ->
  wp (k_up a ≫= k) Q w.
Proof.
  intros Ha H. apply wp_up; [done|]. apply H; [apply up_frame | apply up_count].
Qed.
End WpAbs.

(** Follow a value back through the steps that did not touch it. *)
Ltac chase :=
  repeat match goal with
  | H : context [mm (set_mm _ _)] |- _ => rewrite mm_set_mm in H
  end;
  rewrite ?mm_set_mm;
  repeat match goal with
  | H : same_out ?a ?n ?m ?m' |- context [ld ?k ?m' ?b] =>
      rewrite (ld_same_out k m m' a n b H) by lia
  | H : same_out ?a ?n ?m ?m' |- context [sem_count ?m' ?b] =>
      progress unfold sem_count; rewrite (ld_same_out 4 m m' a n (b + 4) H) by lia
  | |- context [ld ?k (st ?n ?m ?a ?v) ?b] => rewrite (ld_st_ne k n m a v b) by lia
  | |- context [ld ?k (fill ?n ?m ?a ?v) ?b] => rewrite (ld_fill_ne k n m a v b) by lia
  end.

(** The same for single bytes. *)
Ltac chase8 :=
  repeat match goal with
  | H : context [mm (set_mm _ _)] |- _ => rewrite mm_set_mm in H
  end;
  rewrite ?mm_set_mm;
  repeat match goal with
  | H : same_out ?a ?n ?m ?m' |- context [ld8 ?m' ?x] => rewrite (H x) by lia
  | |- context [ld8 (st ?n ?m ?a ?v) ?x] => rewrite (ld8_st_out n m a v x) by lia
  | |- context [ld8 (fill ?n ?m ?a ?v) ?x] => rewrite (ld8_fill_out n m a v x) by lia
  end.

(** Calls that leave the world alone and return an arbitrary status. *)
Section WpQuiet.
Context {B : Type} {K : Kernel} {HQ : Quiet K}.
Implicit Types (w : world) (Q : B -> world -> Prop).

Lemma wp_hwspin_lock_timeout h t (k : Z -> M B) Q w :
  (forall r, wp (k r) Q w) -> wp (k_hwspin_lock_timeout h t ≫= k) Q w.
Proof.
  intros H. apply wp_bind. unfold wp, k_hwspin_lock_timeout, lift_env.
  pose proof (hwspin_lock_timeout_quiet h t w) as E.
  destruct (hwspin_lock_timeout h t w) as [r w']. simpl in E. subst. apply H.
Qed.

Lemma wp_hwspin_trylock h (k : Z -> M B) Q w :
  (forall r, wp (k r) Q w) -> wp (k_hwspin_trylock h ≫= k) Q w.
Proof.
  intros H. apply wp_bind. unfold wp, k_hwspin_trylock, lift_env.
  pose proof (hwspin_trylock_quiet h w) as E.
  destruct (hwspin_trylock h w) as [r w']. simpl in E. subst. apply H.
Qed.

Lemma wp_hwspin_unlock h (k : unit -> M B) Q w :
  wp (k tt) Q w -> wp (k_hwspin_unlock h ≫= k) Q w.
Proof.
  intros H. apply wp_bind. unfold wp, k_hwspin_unlock, modify.
  by rewrite hwspin_unlock_quiet.
Qed.

Lemma wp_hwspin_unlock_last h (Q : unit -> world -> Prop) w :
  Q tt w -> wp (k_hwspin_unlock h) Q w.
Proof. intros H. unfold wp, k_hwspin_unlock, modify. by rewrite hwspin_unlock_quiet. Qed.

Lemma wp_schedule (k : unit -> M B) Q w :
  wp (k tt) Q w -> wp (k_schedule ≫= k) Q w.
Proof. intros H. apply wp_bind. unfold wp, k_schedule, modify. by rewrite schedule_quiet. Qed.

Lemma wp_msleep t (k : unit -> M B) Q w :
  wp (k tt) Q w -> wp (k_msleep t ≫= k) Q w.
Proof. intros H. apply wp_bind. unfold wp, k_msleep, modify. by rewrite msleep_quiet. Qed.
End WpQuiet.

(** ** Loop rules *)

Lemma wp_for (n : nat) i body (I : Z -> world -> Prop) (Q : unit -> world -> Prop) w :
  I i w ->
  (forall j w, i <= j < i + Z.of_nat n -> I j w -> wp (body j) (fun _ => I (j + 1)) w) ->
  (forall w, I (i + Z.of_nat n) w -> Q tt w) ->
  wp (for_ n i body) Q w.
Proof.
  revert i w. induction n as [|n IH]; intros i w H0 Hb HQ; simpl.
  - apply wp_ret, HQ. by rewrite Z.add_0_r.
  - eapply wp_call; [apply Hb; [lia | done] |]. intros [] w' H'.
    apply IH; [done | intros; apply Hb; [lia | done] |].
    intros w2 H2. apply HQ. by replace (i + Z.of_nat (S n)) with (i + 1 + Z.of_nat n) by lia.
Qed.

Lemma wp_for_exit {R} (n : nat) i (body : Z -> M (option R)) (I : Z -> world -> Prop)
    (Q : option R -> world -> Prop) w :
  I i w ->
  (forall j w, i <= j < i + Z.of_nat n -> I j w ->
     wp (body j) (fun r w' => match r with Some x => Q (Some x) w' | None => I (j + 1) w' end) w) ->
  (forall w, I (i + Z.of_nat n) w -> Q None w) ->
  wp (for_exit n i body) Q w.
Proof.
  revert i w. induction n as [|n IH]; intros i w H0 Hb HQ; simpl.
  - apply wp_ret, HQ. by rewrite Z.add_0_r.
  - eapply wp_call; [apply Hb; [lia | done] |]. intros [x|] w' H'; [by apply wp_ret |].
    apply IH; [done | intros; apply Hb; [lia | done] |].
    intros w2 H2. apply HQ. by replace (i + Z.of_nat (S n)) with (i + 1 + Z.of_nat n) by lia.
Qed.

(** A loop whose measure decreases needs no more fuel than the measure. *)
Lemma wp_loop {T R} (I : nat -> T -> world -> Prop) (body : T -> M (T + R))
    (Q : R -> world -> Prop) fuel k s w :
  (k < fuel)%nat -> I k s w ->
  (forall k s w, I k s w ->
     wp (body s) (fun r w' => match r with
                              | inl s' => exists k', (k' < k)%nat /\ I k' s' w'
                              | inr x => Q x w'
                              end) w) ->
  wp (loop fuel body s) Q w.
Proof.
  intros Hk H0 Hb. revert k s w Hk H0.
  induction fuel as [|fuel IH]; intros k s w Hk H0; [lia|]. simpl.
  eapply wp_call; [by apply Hb |]. intros [s'|x] w'; simpl.
  - intros (k' & Hk' & H'). eapply (IH k'); [lia | done].
  - intros HQ. by apply wp_ret.
Qed.

(** ** Symbolic execution *)

Ltac wsimp :=
  rewrite ?mm_set_mm, ?set_mm_set_mm, ?cur_tgid_set_mm, ?cur_pid_set_mm,
    ?app_ready_set_mm, ?session_set_mm.

(** One step of the program at the head of a [wp] goal. *)
Ltac wp_step :=
  lazymatch goal with
  | |- wp (mret _) _ _ => apply wp_ret
  | |- wp (mret _ ≫= _) _ _ => apply wp_mret
  | |- wp (rd _ _ ≫= _) _ _ => apply wp_rd; [try lia |]
  | |- wp (wr _ _ _ ≫= _) _ _ => apply wp_wr; [try lia |]
  | |- wp (rd _ _) _ _ => apply wp_rd_last; [try lia |]
  | |- wp (wr _ _ _) _ _ => apply wp_wr_last; [try lia |]
  | |- wp (memset _ _ _ ≫= _) _ _ => apply wp_memset; [try lia |]
  | |- wp (memcpy _ _ _ ≫= _) _ _ => apply wp_memcpy; [try lia | try lia |]
  | |- wp (umod _ _ ≫= _) _ _ => apply wp_umod; [try lia |]
  | |- wp (gets _ ≫= _) _ _ => apply wp_gets
  | |- wp (modify _ ≫= _) _ _ => apply wp_modify
  | |- wp (k_sema_init _ _ ≫= _) _ _ => apply wp_sema_init; [try lia |]
  | |- wp (k_up _ ≫= _) _ _ => apply wp_up; [try lia |]
  | |- wp (k_down _ ≫= _) _ _ => apply wp_down; [try lia | |]
  | |- wp (k_hwspin_lock_timeout _ _ ≫= _) _ _ => apply wp_hwspin_lock_timeout; intros ?
  | |- wp (k_hwspin_trylock _ ≫= _) _ _ => apply wp_hwspin_trylock; intros ?
  | |- wp (k_hwspin_unlock _ ≫= _) _ _ => apply wp_hwspin_unlock
  | |- wp (k_hwspin_unlock _) _ _ => apply wp_hwspin_unlock_last
  | |- wp (k_schedule ≫= _) _ _ => apply wp_schedule
  | |- wp (k_msleep _ ≫= _) _ _ => apply wp_msleep
  | |- wp ((_ ≫= _) ≫= _) _ _ => apply wp_assoc
  end; cbn beta; wsimp.

(** Decide a test on the known part of the state. *)
Ltac wp_test :=
  lazymatch goal with
  | |- wp (if _ then _ else _) _ _ => progress zcmp
  | |- wp ((if _ then _ else _) ≫= _) _ _ => progress zcmp
  end; cbn iota.

Ltac wp_go := repeat first [wp_step | wp_test].

(** ** Concrete worlds for the witnesses *)

Definition blank_msgbox : msgbox := Msgbox 0xF0800000 0xF0900000 [] false false false 0 0 [] 0.
Definition blank_world : world := World ∅ 0 0 0 1234 1234 [] [] [] [] blank_msgbox [].
Definition after {A} (m : M A) (w : world) : world :=
  match m w with Ret _ w' => w' | Stop _ => w end.

(** What a run returns. *)
Definition returns {A} (m : M A) (w : world) : option A := match m w with Ret a _ => Some a | Stop _ => None end.
