(* ===== verification/Fifo.v ===== *)
(** The ring buffer of [cpu_comm_fifo.c]: its operations on the raw header
    words, the abstract queue they implement, and the interleavings of one
    producer with one consumer. *)
From S2P Require Import Prelude Mem Kernel.

Definition FIFO_NAME_LEN : nat := 48.

(** *** C strings: a NUL-terminated byte sequence, given without its NUL *)

Definition str (s : String.string) : list Z :=
  map (fun c => Z.of_nat (Ascii.nat_of_ascii c)) (String.list_ascii_of_string s).

(** [strncpy(dst, s, n)] pads with NULs; [strlcat(dst, s, n)] appends. *)
Definition strncpy (dst : Z) (s : list Z) (n : nat) : M unit := fun w =>
  Ret tt (set_mm w (wrbytes (mm w) dst (take n s ++ replicate (n - length s) 0))).

Fixpoint strnlen (n : nat) (m : mem) (a : Z) : nat :=
  match n with
  | O => O
  | S k => if ld8 m a =? 0 then O else S (strnlen k m (a + 1))
  end.

Definition strlcat (dst : Z) (s : list Z) (n : nat) : M unit := fun w =>
  let l := strnlen n (mm w) dst in
  if (n <=? l)%nat then Stop Panic
  else Ret tt (set_mm w (wrbytes (mm w) (dst + Z.of_nat l) (take (n - l - 1) s ++ [0]))).

Lemma wp_strncpy {B} dst s n (k : unit -> M B) Q w :
  (forall m', same_out dst (Z.of_nat n) (mm w) m' ->
     bytes n m' dst = map u8 (take n s ++ replicate (n - length s) 0) ->
     wp (k tt) Q (set_mm w m')) ->
  wp (strncpy dst s n ≫= k) Q w.
Proof.
  intros H. apply wp_bind. unfold wp, strncpy. set (l := take n s ++ _).
  assert (Hl : length l = n) by (unfold l; rewrite length_app, length_take, length_replicate; lia).
  apply H.
  - intros x Hx. apply ld8_wrbytes_out. lia.
  - fold l. by rewrite <- (bytes_wrbytes_u8 l (mm w) dst), Hl.
Qed.

Lemma strnlen_text l n m a :
  (length l < n)%nat -> Forall (fun b => 0 < b < 256) l ->
  bytes n m a = map u8 (take n l ++ replicate (n - length l) 0) -> strnlen n m a = length l.
Proof.
  intros Hn Hl. revert n a Hn. induction Hl as [|b l Hb Hl IH]; intros [|n] a Hn; simpl in *; try lia.
  - intros [= E _]. rewrite E. done.
  - intros [= E H]. rewrite E, u8_small, eqb_neq_false by lia. f_equal. apply IH; [lia | done].
Qed.

(** A name and a suffix that fit: the text is the concatenation. *)
Lemma wp_strlcat {B} dst s t n (k : unit -> M B) Q w :
  (length s < n)%nat -> Forall (fun b => 0 < b < 256) s ->
  bytes n (mm w) dst = map u8 (take n s ++ replicate (n - length s) 0) ->
  (forall m', same_out dst (Z.of_nat n) (mm w) m' -> wp (k tt) Q (set_mm w m')) ->
  wp (strlcat dst t n ≫= k) Q w.
Proof.
  intros Hn Hs Hb H. apply wp_bind. unfold wp, strlcat. rewrite (strnlen_text s) by done.
  replace (n <=? length s)%nat with false by (symmetry; apply Nat.leb_gt; done). apply H.
  intros x Hx. apply ld8_wrbytes_out. rewrite length_app, length_take. simpl. lia.
Qed.

Section Fifo.
Context {K : Kernel}.

Definition InitMsgFIFO (f : Z) (prefix suffix : list Z) (mode : Z) : M unit :=
  strncpy f prefix FIFO_NAME_LEN ;;
  strlcat f suffix FIFO_NAME_LEN ;;
  wr8 (f + 48) 0 ;;
  wr32 (f + 52) 0 ;;
  wr32 (f + 56) (f + 56) ;;
  wr32 (f + 60) (f + 56) ;;
  if 0 <=? mode then
    k_sema_init (f + 64) 1 ;;
    wr32 (f + 68) mode
  else mret tt.
End Fifo.

Lemma InitMsgFIFO_wp {K : Kernel} {L : SemLaws K} f prefix suffix w :
  4096 <= f < 2 ^ 32 - 80 -> (length prefix < FIFO_NAME_LEN)%nat ->
  Forall (fun b => 0 < b < 256) prefix ->
  wp (InitMsgFIFO f prefix suffix 1) (fun _ w' => exists m', w' = set_mm w m' /\
    same_out f 80 (mm w) m' /\ sem_count m' (f + 64) = 1 /\
    ld32 m' (f + 52) = 0 /\ ld32 m' (f + 56) = f + 56 /\ ld32 m' (f + 60) = f + 56) w.
Proof.
  unfold InitMsgFIFO, FIFO_NAME_LEN. intros Hf Hp Hc. apply wp_strncpy. intros m1 H1 Hb.
  apply (wp_strlcat _ prefix); [done | done | done |]. intros m2 H2. wsimp. wp_go.
  eexists. split; [done|]. split.
  { intros x Hx. rewrite ld8_st_out by lia. rewrite (sema_init_frame _ _ _) by lia.
    rewrite !ld8_st_out by lia. rewrite H2, H1 by (wsimp; lia). done. }
  unfold sem_count. replace (f + 64 + 4) with (f + 68) by lia.
  split; [by memsimp|].
  rewrite !ld_st_ne by lia. rewrite !(ld_same_out _ _ _ _ _ _ (sema_init_frame _ _ _)) by lia.
  memsimp. rewrite !u32_small by lia. done.
Qed.

Definition fifo_getItemWr (f : Z) : M Z :=
  if f =? 0 then mret 0 else
  rdi ← rd32 f; wri ← rd32 (f + 4); cap ← rd32 (f + 16);
  nx ← umod (u32 (wri + 1)) cap;
  if rdi =? nx then mret 0 else
  base ← rd32 (f + 24); isz ← rd32 (f + 20);
  mret (u32 (base + u32 (isz * wri))).

Definition fifo_getCount (f : Z) : M Z :=
  if f =? 0 then mret 0 else
  rdi ← rd32 f; wri ← rd32 (f + 4); cap ← rd32 (f + 16);
  if rdi <=? wri then mret (s32 (wri - rdi))
  else mret (s32 (cap - rdi + wri)).

Definition fifo_requestItemWr (f : Z) : M Z :=
  if f =? 0 then mret 0 else
  rdi ← rd32 f; wri ← rd32 (f + 4); cap ← rd32 (f + 16);
  next_wr ← umod (u32 (wri + 1)) cap;
  if rdi =? next_wr then mret 0 else
  wr32 (f + 4) next_wr ;;
  track ← rd32 (f + 12);
  (if negb (track =? 0) then
     count ← fifo_getCount f;
     peak ← rd32 (f + 8);
     if s32 peak <? count then wr32 (f + 8) count else mret tt
   else mret tt) ;;
  base ← rd32 (f + 24); isz ← rd32 (f + 20);
  mret (u32 (base + u32 (isz * next_wr))).

Definition fifo_getItemRd (f : Z) : M Z :=
  if f =? 0 then mret 0 else
  rdi ← rd32 f; wri ← rd32 (f + 4); cap ← rd32 (f + 16);
  if rdi =? wri then mret 0 else
  base ← rd32 (f + 24); isz ← rd32 (f + 20);
  mret (u32 (base + u32 (isz * rdi))).

Definition fifo_ItemRdNext (f : Z) : M Z :=
  if f =? 0 then mret 0 else
  rdi ← rd32 f; wri ← rd32 (f + 4); cap ← rd32 (f + 16);
  if rdi =? wri then mret 0 else
  next_rd ← umod (u32 (rdi + 1)) cap;
  wr32 f next_rd ;;
  track ← rd32 (f + 12);
  (if track =? 0 then
     count ← fifo_getCount f;
     peak ← rd32 (f + 8);
     if count <? s32 peak then wr32 (f + 8) count else mret tt
   else mret tt) ;;
  if wri =? next_rd then mret 0 else
  base ← rd32 (f + 24); isz ← rd32 (f + 20);
  mret (u32 (base + u32 (isz * next_rd))).

Definition fifo_isNearlyFull (f margin : Z) : M Z :=
  if f =? 0 then mret 1 else
  count ← fifo_getCount f;
  cap ← rd32 (f + 16);
  mret (if s32 (s32 cap - 1 - margin) <=? count then 1 else 0).

Definition fifo_setmode (f mode : Z) : M unit :=
  if negb (f =? 0) then wr32 (f + 12) mode else mret tt.

(** ** The abstract queue *)

(** [fifo_at m f base vb cap q]: the header at [f] describes a ring of [cap]
    four-byte slots that holds the items [q], oldest first.  [base] is the
    address stored in the header, [vb] the address at which this CPU reaches
    the slots (they differ when the header stores a physical address). *)
Record fifo_at (m : mem) (f base vb cap : Z) (q : list Z) : Prop := FifoAt {
  fa_hdr : 4096 <= f;
  fa_vb : 4096 <= vb;
  fa_base : 0 < base /\ base + 4 * cap <= 2 ^ 32;
  fa_cap : 1 < cap < 2 ^ 16;
  fa_sep : f + 28 <= vb \/ vb + 4 * cap <= f;
  fa_rd : 0 <= ld32 m f < cap;
  fa_wr : ld32 m (f + 4) = (ld32 m f + Z.of_nat (length q)) mod cap;
  fa_len : Z.of_nat (length q) < cap;
  fa_capf : ld32 m (f + 16) = cap;
  fa_isz : ld32 m (f + 20) = 4;
  fa_basef : ld32 m (f + 24) = base;
  fa_items : forall i v, q !! i = Some v ->
    ld32 m (vb + 4 * ((ld32 m f + Z.of_nat i) mod cap)) = v;
}.

(** The number of the slot the next write goes to. *)
Definition wr_slot (m : mem) (f : Z) : Z := ld32 m (f + 4).
Definition rd_slot (m : mem) (f : Z) : Z := ld32 m f.

Definition fifo_full (cap : Z) (q : list Z) : bool := Z.of_nat (length q) =? cap - 1.

(** Distinct offsets below [cap] name distinct slots. *)
Lemma ring_inj r i j cap :
  0 <= i < cap -> 0 <= j < cap -> (r + i) mod cap = (r + j) mod cap -> i = j.
Proof.
  intros Hi Hj E.
  assert (Hd : (i - j) mod cap = 0).
  { replace (i - j) with ((r + i) - (r + j)) by lia.
    rewrite Zminus_mod, E, Z.sub_diag. apply Z.mod_0_l. lia. }
  apply Z.mod_divide in Hd; [|lia]. destruct Hd as [k Hk].
  assert (k = 0) by (destruct (Z.lt_trichotomy k 0) as [|[|]]; nia). lia.
Qed.

Lemma ring_succ r n cap : 1 < cap -> ((r + n) mod cap + 1) mod cap = (r + (n + 1)) mod cap.
Proof. intros. rewrite Zplus_mod_idemp_l. f_equal. lia. Qed.

Section FifoFacts.
Context {m : mem} {f base vb cap : Z} {q : list Z} (H : fifo_at m f base vb cap q).

Lemma fifo_wr_range : 0 <= wr_slot m f < cap.
Proof.
  unfold wr_slot. rewrite (fa_wr _ _ _ _ _ _ H). apply Z.mod_pos_bound.
  destruct H. lia.
Qed.

(** [rd == (wr + 1) % cap] holds exactly when [cap - 1] items are queued. *)
Lemma fifo_full_test :
  (ld32 m f =? (u32 (ld32 m (f + 4) + 1)) mod cap) = fifo_full cap q.
Proof.
  pose proof fifo_wr_range as Hw. unfold wr_slot in Hw. destruct H.
  rewrite u32_small by lia. rewrite fa_wr0, ring_succ by lia.
  unfold fifo_full. apply eq_true_iff_eq. rewrite !Z.eqb_eq. split.
  - intros E. destruct (decide (Z.of_nat (length q) = cap - 1)) as [|Hn]; [done|].
    exfalso. rewrite <- (Z.mod_small (ld32 m f) cap) in E at 1 by lia.
    rewrite <- (Z.add_0_r (ld32 m f)) in E at 1.
    apply ring_inj in E; lia.
  - intros ->. replace (ld32 m f + (cap - 1 + 1)) with (ld32 m f + 1 * cap) by lia.
    rewrite Z.mod_add, Z.mod_small by lia. done.
Qed.

(** [rd == wr] holds exactly when the queue is empty. *)
Lemma fifo_empty_test :
  (ld32 m f =? ld32 m (f + 4)) = (Z.of_nat (length q) =? 0).
Proof.
  destruct H. rewrite fa_wr0. apply eq_true_iff_eq. rewrite !Z.eqb_eq. split.
  - intros E. rewrite <- (Z.mod_small (ld32 m f) cap) in E at 1 by lia.
    rewrite <- (Z.add_0_r (ld32 m f)) in E at 1. apply ring_inj in E; lia.
  - intros ->. rewrite Z.add_0_r, Z.mod_small by lia. done.
Qed.

(** The queue survives any write outside its header and occupied slots. *)
Lemma fifo_at_frame m' :
  (forall x, f <= x < f + 8 \/ f + 16 <= x < f + 28 -> ld8 m' x = ld8 m x) ->
  (forall i x, (i < length q)%nat ->
     vb + 4 * ((ld32 m f + Z.of_nat i) mod cap) <= x <
     vb + 4 * ((ld32 m f + Z.of_nat i) mod cap) + 4 -> ld8 m' x = ld8 m x) ->
  fifo_at m' f base vb cap q.
Proof.
  intros Hh Hs. destruct H.
  assert (E0 : ld32 m' f = ld32 m f) by (apply ld_same; intros; apply Hh; lia).
  split; try done; rewrite ?E0; try done.
  1-4: rewrite (ld_same _ m); [done | intros; apply Hh; lia].
  intros i v Hi. rewrite (ld_same _ m); [by apply fa_items0|].
  intros x Hx. apply (Hs i); [by eapply lookup_lt_Some | lia].
Qed.

(** In particular a write to the next free slot. *)
Lemma fifo_at_slot_write v :
  fifo_full cap q = false ->
  fifo_at (st32 m (vb + 4 * wr_slot m f) v) f base vb cap q.
Proof.
  intros Hn. pose proof fifo_wr_range as Hw. unfold fifo_full in Hn. zbool.
  apply fifo_at_frame; destruct H.
  - intros x Hx. apply ld8_st_out. lia.
  - intros i x Hi Hx. apply ld8_st_out.
    assert (wr_slot m f <> (ld32 m f + Z.of_nat i) mod cap).
    { unfold wr_slot. rewrite fa_wr0. intros E. apply ring_inj in E; lia. }
    lia.
Qed.

(** ... and any change away from its header and its ring. *)
Lemma fifo_at_same_out m' lo n :
  same_out lo n m m' -> f + 28 <= lo \/ lo + n <= f -> vb + 4 * cap <= lo \/ lo + n <= vb ->
  fifo_at m' f base vb cap q.
Proof.
  intros Hs H1 H2. apply fifo_at_frame; pose proof (fa_cap _ _ _ _ _ _ H).
  - intros x Hx. apply Hs. lia.
  - intros i x Hi Hx. apply Hs.
    pose proof (Z.mod_pos_bound (ld32 m f + Z.of_nat i) cap ltac:(lia)). lia.
Qed.
End FifoFacts.

(** A queue whose base the writer and reader use directly. *)
Ltac fifo_hdr H :=
  let Hf := fresh "Hff" in pose proof (fa_hdr _ _ _ _ _ _ H) as Hf;
  let Hf := fresh "Hff" in pose proof (fa_vb _ _ _ _ _ _ H) as Hf;
  let Hf := fresh "Hff" in pose proof (fa_base _ _ _ _ _ _ H) as Hf;
  let Hf := fresh "Hff" in pose proof (fa_cap _ _ _ _ _ _ H) as Hf;
  let Hf := fresh "Hff" in pose proof (fa_sep _ _ _ _ _ _ H) as Hf;
  let Hf := fresh "Hff" in pose proof (fa_rd _ _ _ _ _ _ H) as Hf;
  let Hf := fresh "Hff" in pose proof (fa_len _ _ _ _ _ _ H) as Hf;
  pose proof (fifo_wr_range H) as Hwr_range.

Section FifoSpecs.
Context {f base vb cap : Z} {q : list Z} {w : world}.
Context (H : fifo_at (mm w) f base vb cap q).

Lemma fifo_getItemWr_wp :
  wp (fifo_getItemWr f)
    (fun a w' => w' = w /\ a = if fifo_full cap q then 0 else base + 4 * wr_slot (mm w) f) w.
Proof.
  fifo_hdr H. unfold wr_slot in *. unfold fifo_getItemWr. wp_test. do 3 wp_step.
  rewrite (fa_capf _ _ _ _ _ _ H). wp_step. rewrite (fifo_full_test H).
  destruct (fifo_full cap q); [by wp_go|]. wp_go.
  rewrite (fa_isz _ _ _ _ _ _ H), (fa_basef _ _ _ _ _ _ H). u32s. split; [done | lia].
Qed.

Lemma fifo_getItemRd_wp :
  wp (fifo_getItemRd f)
    (fun a w' => w' = w /\ a = if Z.of_nat (length q) =? 0 then 0
                             else base + 4 * rd_slot (mm w) f) w.
Proof.
  fifo_hdr H. unfold fifo_getItemRd, rd_slot. wp_test. do 3 wp_step.
  rewrite (fifo_empty_test H). destruct (Z.of_nat (length q) =? 0); [by wp_go|]. wp_go.
  rewrite (fa_isz _ _ _ _ _ _ H), (fa_basef _ _ _ _ _ _ H). u32s. split; [done | lia].
Qed.

(** [fifo_getCount] is the number of queued items. *)
Lemma fifo_getCount_wp :
  wp (fifo_getCount f) (fun n w' => w' = w /\ n = Z.of_nat (length q)) w.
Proof.
  fifo_hdr H. unfold fifo_getCount. wp_test. do 3 wp_step.
  pose proof (fa_wr _ _ _ _ _ _ H) as Ew. rewrite (fa_capf _ _ _ _ _ _ H).
  pose proof (Z.mod_eq (ld32 (mm w) f + Z.of_nat (length q)) cap ltac:(lia)) as Em.
  unfold wr_slot in *.
  assert (Hdiv : (ld32 (mm w) f + Z.of_nat (length q)) / cap = 0 \/
                 (ld32 (mm w) f + Z.of_nat (length q)) / cap = 1).
  { assert (0 <= (ld32 (mm w) f + Z.of_nat (length q)) / cap) by (apply Z.div_pos; lia).
    assert ((ld32 (mm w) f + Z.of_nat (length q)) / cap < 2)
      by (apply Z.div_lt_upper_bound; lia). lia. }
  destruct Hdiv as [Hd|Hd]; rewrite Hd in Em.
  - wp_test. wp_step. split; [done|]. rewrite s32_small; lia.
  - wp_test. wp_step. split; [done|]. rewrite s32_small; lia.
Qed.

(** Nearly full: at most [margin] free slots are left. *)
Lemma fifo_isNearlyFull_wp margin :
  0 <= margin < 2 ^ 16 ->
  wp (fifo_isNearlyFull f margin)
    (fun r w' => w' = w /\
       r = if cap - 1 - margin <=? Z.of_nat (length q) then 1 else 0) w.
Proof.
  intros Hm. fifo_hdr H. unfold fifo_isNearlyFull. wp_test.
  eapply wp_call; [apply fifo_getCount_wp|]. intros n w' [-> ->]. wp_go.
  rewrite (fa_capf _ _ _ _ _ _ H), (s32_small cap) by lia.
  by rewrite s32_id by lia.
Qed.
End FifoSpecs.

(** ** Committing a write, consuming a read *)

Lemma fifo_at_push m f base vb cap q v :
  fifo_at m f base vb cap q -> fifo_full cap q = false ->
  ld32 m (vb + 4 * wr_slot m f) = v ->
  fifo_at (st32 m (f + 4) ((wr_slot m f + 1) mod cap)) f base vb cap (q ++ [v]).
Proof.
  intros H Hn Hv. fifo_hdr H. unfold fifo_full in Hn. zbool.
  pose proof (fa_wr _ _ _ _ _ _ H) as Ew. unfold wr_slot in *.
  pose proof (Z.mod_pos_bound (ld32 m (f + 4) + 1) cap ltac:(lia)).
  split; memsimp; try (by destruct H); rewrite ?length_app, ?Nat2Z.inj_add; simpl length; try lia.
  - u32s. by rewrite Ew, ring_succ by lia.
  - intros i x Hi. pose proof (Z.mod_pos_bound (ld32 m f + Z.of_nat i) cap ltac:(lia)).
    rewrite ld_st_ne by lia. apply lookup_app_Some in Hi as [Hi|[Hi1 Hi2]].
    + by apply (fa_items _ _ _ _ _ _ H).
    + apply list_lookup_singleton_Some in Hi2 as [Hi2 <-].
      replace (Z.of_nat i) with (Z.of_nat (length q)) by lia. by rewrite <- Ew.
Qed.

Lemma fifo_at_pop m f base vb cap x q :
  fifo_at m f base vb cap (x :: q) ->
  fifo_at (st32 m f ((rd_slot m f + 1) mod cap)) f base vb cap q.
Proof.
  intros H. fifo_hdr H. pose proof (fa_wr _ _ _ _ _ _ H) as Ew. simpl length in *.
  unfold rd_slot. pose proof (Z.mod_pos_bound (ld32 m f + 1) cap ltac:(lia)).
  split; memsimp; try (by destruct H); try lia.
  - u32s. lia.
  - u32s. rewrite Ew, Zplus_mod_idemp_l. f_equal. lia.
  - intros i y Hi. u32s. rewrite Zplus_mod_idemp_l.
    pose proof (Z.mod_pos_bound (ld32 m f + 1 + Z.of_nat i) cap ltac:(lia)).
    rewrite ld_st_ne by lia.
    replace (ld32 m f + 1 + Z.of_nat i) with (ld32 m f + Z.of_nat (S i)) by lia.
    by apply (fa_items _ _ _ _ _ _ H).
Qed.

(** Writes to the statistics word leave the queue alone. *)
Lemma fifo_at_peak m f base vb cap q v :
  fifo_at m f base vb cap q -> fifo_at (st32 m (f + 8) v) f base vb cap q.
Proof.
  intros H. apply (fifo_at_frame H); fifo_hdr H.
  - intros x Hx. apply ld8_st_out. lia.
  - intros i x Hi Hx. pose proof (Z.mod_pos_bound (ld32 m f + Z.of_nat i) cap ltac:(lia)).
    apply ld8_st_out. lia.
Qed.

(** The occupancy record kept at [f + 8]: a maximum while [f + 12] is set
    (updated by writers), a minimum while it is clear (updated by readers). *)
Definition peak_after_push (m : mem) (f n : Z) : Z :=
  if ld32 m (f + 12) =? 0 then ld32 m (f + 8) else
  if s32 (ld32 m (f + 8)) <? n then n else ld32 m (f + 8).
Definition peak_after_pop (m : mem) (f n : Z) : Z :=
  if ld32 m (f + 12) =? 0
  then if n <? s32 (ld32 m (f + 8)) then n else ld32 m (f + 8)
  else ld32 m (f + 8).

Section FifoCommit.
Context {f base vb cap : Z} {w : world}.

(** Committing after the slot was written enqueues the slot's value. *)
Lemma fifo_requestItemWr_wp q v :
  fifo_at (mm w) f base vb cap q -> fifo_full cap q = false ->
  ld32 (mm w) (vb + 4 * wr_slot (mm w) f) = v ->
  wp (fifo_requestItemWr f)
    (fun a w' => exists m', w' = set_mm w m' /\
       a = base + 4 * wr_slot m' f /\ a <> 0 /\
       fifo_at m' f base vb cap (q ++ [v]) /\
       same_out (f + 4) 8 (mm w) m' /\
       ld32 m' (f + 8) = peak_after_push (mm w) f (Z.of_nat (length q) + 1)) w.
Proof.
  intros H Hn Hv. fifo_hdr H.
  pose proof (fifo_at_push _ _ _ _ _ _ _ H Hn Hv) as H'.
  unfold wr_slot in *. unfold fifo_requestItemWr. wp_test. do 3 wp_step.
  rewrite (fa_capf _ _ _ _ _ _ H). wp_step. rewrite (fifo_full_test H), Hn.
  rewrite u32_small by lia. wp_step. wp_step.
  pose proof (Z.mod_pos_bound (ld32 (mm w) (f + 4) + 1) cap ltac:(lia)) as Hnx.
  set (nx := (ld32 (mm w) (f + 4) + 1) mod cap) in *.
  set (m1 := st32 (mm w) (f + 4) nx) in *.
  assert (Etr : ld32 m1 (f + 12) = ld32 (mm w) (f + 12)) by (unfold m1; by memsimp).
  assert (Epk : ld32 m1 (f + 8) = ld32 (mm w) (f + 8)) by (unfold m1; by memsimp).
  assert (Enx : ld32 m1 (f + 4) = nx) by (unfold m1; memsimp; u32s; done).
  set (len' := Z.of_nat (length q) + 1).
  assert (Hlen' : 0 <= len' < 2 ^ 31) by (unfold len'; lia).
  apply wp_bind. eapply wp_mono with (P := fun _ w' => exists m',
    w' = set_mm w m' /\ fifo_at m' f base vb cap (q ++ [v]) /\ ld32 m' (f + 4) = nx /\
    same_out (f + 4) 8 (mm w) m' /\ ld32 m' (f + 8) = peak_after_push (mm w) f len').
  { unfold peak_after_push. rewrite Etr.
    destruct (ld32 (mm w) (f + 12) =? 0) eqn:Et; cbn [negb].
    - apply wp_ret. exists m1. ands; try done.
      intros x Hx. unfold m1. by rewrite ld8_st_out by lia.
    - eapply wp_call; [apply (fifo_getCount_wp (w := set_mm w m1) H')|]. intros n w' [-> ->].
      replace (Z.of_nat (length (q ++ [v]))) with len'
        by (unfold len'; rewrite length_app; simpl; lia). wp_step.
      rewrite Epk. destruct (s32 (ld32 (mm w) (f + 8)) <? len') eqn:Ec.
      + wp_step. eexists. split; [done|]. split; [by apply fifo_at_peak|].
        split; [by memsimp|]. split; [|memsimp; by u32s].
        intros x Hx. unfold m1. by rewrite !ld8_st_out by lia.
      + apply wp_ret. exists m1. ands; try done.
        intros x Hx. unfold m1. by rewrite ld8_st_out by lia. }
  cbv beta. intros [] w' (m' & -> & Hq & Hw4 & Hout & Hpk). wp_go.
  rewrite (fa_isz _ _ _ _ _ _ Hq), (fa_basef _ _ _ _ _ _ Hq). u32s.
  exists m'. rewrite Hw4. ands; try done; lia.
Qed.

(** Consuming dequeues the oldest item. *)
Lemma fifo_ItemRdNext_wp x q :
  fifo_at (mm w) f base vb cap (x :: q) ->
  wp (fifo_ItemRdNext f)
    (fun a w' => exists m', w' = set_mm w m' /\
       a = (if Z.of_nat (length q) =? 0 then 0 else base + 4 * rd_slot m' f) /\
       fifo_at m' f base vb cap q /\
       ld32 m' (f + 4) = ld32 (mm w) (f + 4) /\
       same_out f 12 (mm w) m' /\
       ld32 m' (f + 8) = peak_after_pop (mm w) f (Z.of_nat (length q))) w.
Proof.
  intros H. fifo_hdr H. pose proof (fifo_at_pop _ _ _ _ _ _ _ H) as H'.
  unfold rd_slot in *. unfold fifo_ItemRdNext. wp_test. do 3 wp_step.
  rewrite (fifo_empty_test H). simpl length in *. wp_test.
  rewrite (fa_capf _ _ _ _ _ _ H), u32_small by lia. do 2 wp_step. wp_step.
  pose proof (Z.mod_pos_bound (ld32 (mm w) f + 1) cap ltac:(lia)) as Hnx.
  set (nx := (ld32 (mm w) f + 1) mod cap) in *. set (m1 := st32 (mm w) f nx) in *.
  assert (Etr : ld32 m1 (f + 12) = ld32 (mm w) (f + 12)) by (unfold m1; by memsimp).
  assert (Epk : ld32 m1 (f + 8) = ld32 (mm w) (f + 8)) by (unfold m1; by memsimp).
  assert (Ewr : ld32 m1 (f + 4) = ld32 (mm w) (f + 4)) by (unfold m1; by memsimp).
  assert (Enx : ld32 m1 f = nx) by (unfold m1; memsimp; u32s; done).
  set (len' := Z.of_nat (length q)) in *.
  apply wp_bind. eapply wp_mono with (P := fun _ w' => exists m',
    w' = set_mm w m' /\ fifo_at m' f base vb cap q /\ ld32 m' f = nx /\
    ld32 m' (f + 4) = ld32 (mm w) (f + 4) /\
    same_out f 12 (mm w) m' /\ ld32 m' (f + 8) = peak_after_pop (mm w) f len').
  { unfold peak_after_pop. rewrite Etr.
    destruct (ld32 (mm w) (f + 12) =? 0) eqn:Et.
    - eapply wp_call; [apply (fifo_getCount_wp (w := set_mm w m1) H')|]. intros n w' [-> ->].
      fold len'. wp_step.
      rewrite Epk. destruct (len' <? s32 (ld32 (mm w) (f + 8))) eqn:Ec.
      + wp_step. eexists. split; [done|]. split; [by apply fifo_at_peak|].
        split; [by memsimp|]. split; [memsimp; done|]. split; [|memsimp; u32s; done].
        intros y Hy. unfold m1. by rewrite !ld8_st_out by lia.
      + apply wp_ret. exists m1. ands; try done.
        intros y Hy. unfold m1. by rewrite ld8_st_out by lia.
    - apply wp_ret. exists m1. ands; try done.
      intros y Hy. unfold m1. by rewrite ld8_st_out by lia. }
  cbv beta. intros [] w' (m' & -> & Hq & Hr & Hw4 & Hout & Hpk).
  rewrite <- Hw4, <- Hr, Z.eqb_sym, (fifo_empty_test Hq). fold len'.
  destruct (len' =? 0) eqn:El; [wp_step; by eauto 10|]. wp_go.
  rewrite (fa_isz _ _ _ _ _ _ Hq), (fa_basef _ _ _ _ _ _ Hq), Hr. u32s.
  exists m'. ands; try done. by rewrite Hr.
Qed.
End FifoCommit.

(** ** One producer, one consumer, any interleaving *)

(** The producer runs [p = getItemWr; *p = v; requestItemWr], the consumer
    [p = getItemRd; v = *p; ItemRdNext]; the other CPU may run between any two
    of these calls.  [delta] turns a slot address of the header into one this
    memory is accessed at. *)
Inductive producer : Set := PIdle | PSlot (a : Z) | PWritten (v : Z).
Inductive consumer : Set := CIdle | CSlot (a : Z) | CRead (v : Z).

Record spsc_state := Spsc {
  ss_w : world;
  ss_p : producer;
  ss_c : consumer;
  ss_pushed : list Z;    (* every value committed, in order *)
  ss_popped : list Z;    (* every value consumed, in order *)
}.

Inductive spsc (f delta : Z) : spsc_state -> spsc_state -> Prop :=
| spsc_full w w' c pu po :
    fifo_getItemWr f w = Ret 0 w' ->
    spsc f delta (Spsc w PIdle c pu po) (Spsc w' PIdle c pu po)
| spsc_get w w' a c pu po :
    fifo_getItemWr f w = Ret a w' -> a <> 0 ->
    spsc f delta (Spsc w PIdle c pu po) (Spsc w' (PSlot a) c pu po)
| spsc_write w w' a v c pu po :
    0 <= v < 2 ^ 32 -> wr32 (a + delta) v w = Ret tt w' ->
    spsc f delta (Spsc w (PSlot a) c pu po) (Spsc w' (PWritten v) c pu po)
| spsc_commit w w' r v c pu po :
    fifo_requestItemWr f w = Ret r w' ->
    spsc f delta (Spsc w (PWritten v) c pu po) (Spsc w' PIdle c (pu ++ [v]) po)
| spsc_empty w w' p pu po :
    fifo_getItemRd f w = Ret 0 w' ->
    spsc f delta (Spsc w p CIdle pu po) (Spsc w' p CIdle pu po)
| spsc_peek w w' a p pu po :
    fifo_getItemRd f w = Ret a w' -> a <> 0 ->
    spsc f delta (Spsc w p CIdle pu po) (Spsc w' p (CSlot a) pu po)
| spsc_read w w' a v p pu po :
    rd32 (a + delta) w = Ret v w' ->
    spsc f delta (Spsc w p (CSlot a) pu po) (Spsc w' p (CRead v) pu po)
| spsc_next w w' r v p pu po :
    fifo_ItemRdNext f w = Ret r w' ->
    spsc f delta (Spsc w p (CRead v) pu po) (Spsc w' p CIdle pu (po ++ [v])).

Section Spsc.
Context (f base delta cap : Z).
Let vb := base + delta.

Definition producer_inv (m : mem) (q : list Z) (p : producer) : Prop :=
  match p with
  | PIdle => True
  | PSlot a => fifo_full cap q = false /\ a = base + 4 * wr_slot m f
  | PWritten v => fifo_full cap q = false /\ ld32 m (vb + 4 * wr_slot m f) = v
  end.

Definition consumer_inv (m : mem) (q : list Z) (c : consumer) : Prop :=
  match c with
  | CIdle => True
  | CSlot a => q <> [] /\ a = base + 4 * rd_slot m f
  | CRead v => exists q', q = v :: q'
  end.

Definition spsc_inv (s : spsc_state) : Prop := exists q,
  fifo_at (mm (ss_w s)) f base vb cap q /\ ss_pushed s = ss_popped s ++ q /\
  producer_inv (mm (ss_w s)) q (ss_p s) /\ consumer_inv (mm (ss_w s)) q (ss_c s).

Lemma fifo_full_app q v : Z.of_nat (length (q ++ [v])) < cap -> fifo_full cap q = false.
Proof. rewrite length_app. unfold fifo_full. simpl. intros. apply eqb_neq_false. lia. Qed.

(** The slot words lie outside the header. *)
Lemma slot_same m m' q i lo n :
  fifo_at m f base vb cap q -> f <= lo -> lo + n <= f + 28 -> 0 <= i < cap ->
  same_out lo n m m' -> ld32 m' (vb + 4 * i) = ld32 m (vb + 4 * i).
Proof. intros H H1 H2 Hi Hs. fifo_hdr H. apply ld_same. intros x Hx. apply Hs. lia. Qed.

Lemma producer_step_inv w w' a v c pu po :
  spsc_inv (Spsc w (PSlot a) c pu po) -> 0 <= v < 2 ^ 32 ->
  wr32 (a + delta) v w = Ret tt w' -> spsc_inv (Spsc w' (PWritten v) c pu po).
Proof.
  intros (q & H & E & [Hn ->] & Hc) Hv Hr. simpl in *. fifo_hdr H.
  eapply (wp_Ret (wr32 _ _) (fun _ w2 => w2 = set_mm w (st32 (mm w) _ v))) in Hr as ->;
    [|apply wp_wr_last; [unfold vb in *; lia | done]].
  replace (base + 4 * wr_slot (mm w) f + delta) with (vb + 4 * wr_slot (mm w) f)
    by (unfold vb; lia).
  set (m' := st32 _ _ v).
  assert (Ew : wr_slot m' f = wr_slot (mm w) f) by (apply ld_st_ne; lia).
  assert (Er : rd_slot m' f = rd_slot (mm w) f) by (apply ld_st_ne; lia).
  exists q. simpl. rewrite Ew. ands; try done.
  - by apply fifo_at_slot_write.
  - unfold m'. rewrite ld32_st32_eq. by apply u32_small.
  - destruct c; simpl in *; try done. by rewrite Er.
Qed.

Lemma commit_step_inv w w' r v c pu po :
  spsc_inv (Spsc w (PWritten v) c pu po) -> fifo_requestItemWr f w = Ret r w' ->
  spsc_inv (Spsc w' PIdle c (pu ++ [v]) po).
Proof.
  intros (q & H & E & [Hn Hv] & Hc) Hr. simpl in *.
  eapply wp_Ret in Hr; [|exact (fifo_requestItemWr_wp q v H Hn Hv)].
  destruct Hr as (m' & -> & _ & _ & H' & Hs & _). exists (q ++ [v]). simpl.
  ands; try done; [by rewrite E, app_assoc|].
  destruct c; simpl in *; try done.
  - destruct Hc as [Hq ->]. split; [by destruct q|]. unfold rd_slot.
    fifo_hdr H. f_equal. f_equal. symmetry. apply ld_same. intros. apply Hs. lia.
  - destruct Hc as [q' ->]. by exists (q' ++ [v]).
Qed.

Lemma next_step_inv w w' r v p pu po :
  spsc_inv (Spsc w p (CRead v) pu po) -> fifo_ItemRdNext f w = Ret r w' ->
  spsc_inv (Spsc w' p CIdle pu (po ++ [v])).
Proof.
  intros (q & H & E & Hp & [q' ->]) Hr. simpl in *.
  eapply wp_Ret in Hr; [|exact (fifo_ItemRdNext_wp v q' H)].
  destruct Hr as (m' & -> & _ & H' & Hw & Hs & _). exists q'. simpl.
  ands; try done; [by rewrite E, <- app_assoc|].
  assert (Hf : fifo_full cap q' = false).
  { pose proof (fa_len _ _ _ _ _ _ H). simpl length in *. apply eqb_neq_false. lia. }
  pose proof (fifo_wr_range H) as Hr. unfold wr_slot in *.
  destruct p; simpl in *; try done; unfold wr_slot in *; rewrite Hw.
  - by destruct Hp as [_ ->].
  - destruct Hp as [_ <-]. split; [done|].
    eapply (slot_same (mm w)); [done | | | done | exact Hs]; lia.
Qed.

Lemma spsc_inv_step s t : spsc_inv s -> spsc f delta s t -> spsc_inv t.
Proof.
  intros HI Hst.
  destruct Hst as [w w' c pu po Hr | w w' a c pu po Hr Ha | w w' a v c pu po Hv Hr
    | w w' r v c pu po Hr | w w' p pu po Hr | w w' a p pu po Hr Ha
    | w w' a v p pu po Hr | w w' r v p pu po Hr].
  - destruct HI as (q & H & E & Hp & Hc). simpl in *.
    eapply wp_Ret in Hr; [|exact (fifo_getItemWr_wp H)]. destruct Hr as [-> _].
    by exists q.
  - destruct HI as (q & H & E & Hp & Hc). simpl in *.
    eapply wp_Ret in Hr; [|exact (fifo_getItemWr_wp H)]. destruct Hr as [-> Ea].
    exists q. simpl. destruct (fifo_full cap q); [done|]. done.
  - by eapply producer_step_inv.
  - by eapply commit_step_inv.
  - destruct HI as (q & H & E & Hp & Hc). simpl in *.
    eapply wp_Ret in Hr; [|exact (fifo_getItemRd_wp H)]. destruct Hr as [-> _].
    by exists q.
  - destruct HI as (q & H & E & Hp & Hc). simpl in *.
    eapply wp_Ret in Hr; [|exact (fifo_getItemRd_wp H)]. destruct Hr as [-> Ea].
    exists q. simpl. destruct (Z.of_nat (length q) =? 0) eqn:El; [done|].
    ands; try done. intros ->. done.
  - destruct HI as (q & H & E & Hp & Hc). simpl in *. destruct Hc as [Hq Ea].
    fifo_hdr H. subst a.
    eapply (wp_Ret (rd32 _) (fun x w2 => w2 = w /\ x = ld32 (mm w) _)) in Hr as [-> ->];
      [|apply wp_rd_last; [unfold vb, rd_slot in *; lia | done]].
    exists q. simpl. ands; try done. destruct q as [|x q]; [done|]. exists q. f_equal.
    rewrite <- (fa_items _ _ _ _ _ _ H 0 x eq_refl). unfold rd_slot, vb.
    rewrite Z.add_0_r, Z.mod_small by lia. f_equal. lia.
  - by eapply next_step_inv.
Qed.

(** In every interleaving, what was consumed is a prefix of what was
    committed: nothing is lost, duplicated, reordered or overwritten, and at
    most [cap - 1] items are in flight. *)
Lemma spsc_fifo_order w s :
  fifo_at (mm w) f base vb cap [] ->
  star (spsc f delta) (Spsc w PIdle CIdle [] []) s ->
  exists q, ss_pushed s = ss_popped s ++ q /\ Z.of_nat (length q) < cap.
Proof.
  intros H Hs. assert (spsc_inv s) as (q & Hq & E & _).
  { eapply star_invariant; [apply spsc_inv_step | | exact Hs]. by exists []. }
  exists q. split; [done | by destruct Hq].
Qed.

(** Neither side can get stuck: in every state the invariant allows, both
    have a next step. *)
Lemma spsc_progress s :
  spsc_inv s ->
  (exists t, spsc f delta s t /\ ss_c t = ss_c s /\ ss_popped t = ss_popped s) /\
  (exists t, spsc f delta s t /\ ss_p t = ss_p s /\ ss_pushed t = ss_pushed s).
Proof.
  destruct s as [w p c pu po]. intros (q & H & E & Hp & Hc). simpl in *. fifo_hdr H. split.
  - destruct p as [|a|v]; simpl in Hp.
    + destruct (wp_run _ _ _ (fifo_getItemWr_wp H)) as (a & w' & Er & -> & Ea).
      destruct (decide (a = 0)) as [->|].
      * eexists. split; [by eapply spsc_full | done].
      * eexists. split; [by eapply spsc_get | done].
    + destruct (wp_run (wr32 (a + delta) 0) (fun _ _ => True) w) as ([] & w' & Er & _).
      { apply wp_wr_last; [unfold wr_slot, vb in *; lia | done]. }
      eexists. split; [by eapply (spsc_write _ _ _ _ _ 0) | done].
    + destruct Hp as [Hn Hv].
      destruct (wp_run _ _ _ (fifo_requestItemWr_wp q v H Hn Hv)) as (r & w' & Er & _).
      eexists. split; [by eapply spsc_commit | done].
  - destruct c as [|a|v]; simpl in Hc.
    + destruct (wp_run _ _ _ (fifo_getItemRd_wp H)) as (a & w' & Er & -> & Ea).
      destruct (decide (a = 0)) as [->|].
      * eexists. split; [by eapply spsc_empty | done].
      * eexists. split; [by eapply spsc_peek | done].
    + destruct (wp_run (rd32 (a + delta)) (fun _ _ => True) w) as (v & w' & Er & _).
      { apply wp_rd_last; [unfold rd_slot, vb in *; lia | done]. }
      eexists. split; [by eapply spsc_read | done].
    + destruct Hc as [q' ->].
      destruct (wp_run _ _ _ (fifo_ItemRdNext_wp v q' H)) as (r & w' & Er & _).
      eexists. split; [by eapply spsc_next | done].
Qed.
End Spsc.

(** ** Properties *)

(** The documented write pattern ([cpu_comm_fifo.c], "Typical write pattern"):
    get a slot, fill it, commit; and the read pattern. *)
Definition fifo_push (f delta v : Z) : M bool :=
  slot ← fifo_getItemWr f;
  if slot =? 0 then mret false else
  wr32 (slot + delta) v ;; fifo_requestItemWr f ;; mret true.

Definition fifo_pop (f delta : Z) : M (option Z) :=
  slot ← fifo_getItemRd f;
  if slot =? 0 then mret None else
  v ← rd32 (slot + delta); fifo_ItemRdNext f ;; mret (Some v).

Section FifoRefine.
Context {f base delta cap : Z} {q : list Z} {w : world}.
Context (H : fifo_at (mm w) f base (base + delta) cap q).

Lemma fifo_push_wp v :
  0 <= v < 2 ^ 32 ->
  wp (fifo_push f delta v) (fun r w' =>
    if fifo_full cap q then r = false /\ w' = w
    else r = true /\ exists m', w' = set_mm w m' /\
      fifo_at m' f base (base + delta) cap (q ++ [v]) /\
      ld32 m' (f + 8) = peak_after_push (mm w) f (Z.of_nat (length q) + 1)) w.
Proof.
  intros Hv. fifo_hdr H. unfold fifo_push.
  eapply wp_call; [apply (fifo_getItemWr_wp H)|]. intros a w' [-> ->].
  destruct (fifo_full cap q) eqn:Ef; [by wp_go|]. unfold wr_slot in *. wp_test. wp_step.
  replace (base + 4 * ld32 (mm w) (f + 4) + delta)
    with (base + delta + 4 * ld32 (mm w) (f + 4)) by lia.
  set (m1 := st32 (mm w) _ v).
  assert (E1 : forall o, 0 <= o -> o + 4 <= 28 -> ld32 m1 (f + o) = ld32 (mm w) (f + o))
    by (intros; apply ld_st_ne; lia).
  eapply wp_call.
  { apply (fifo_requestItemWr_wp (base := base) (vb := base + delta) (cap := cap)
      (w := set_mm w m1) q v); wsimp.
    - by apply (fifo_at_slot_write H).
    - done.
    - unfold wr_slot. rewrite E1 by lia. unfold m1. rewrite ld32_st32_eq. by apply u32_small. }
  intros _ w' (m' & -> & _ & _ & Hq & _ & Hp). wp_step. split; [done|]. exists m'.
  ands; try done. rewrite Hp. unfold peak_after_push. wsimp. by rewrite !E1 by lia.
Qed.

Lemma fifo_pop_wp :
  wp (fifo_pop f delta) (fun r w' =>
    match q with
    | [] => r = None /\ w' = w
    | x :: q' => r = Some x /\ exists m', w' = set_mm w m' /\
        fifo_at m' f base (base + delta) cap q' /\ same_out f 12 (mm w) m' /\
        ld32 m' (f + 8) = peak_after_pop (mm w) f (Z.of_nat (length q'))
    end) w.
Proof.
  fifo_hdr H. unfold fifo_pop. eapply wp_call; [apply (fifo_getItemRd_wp H)|].
  intros a w' [-> ->]. destruct q as [|x q'] eqn:Eq.
  - simpl. by wp_go.
  - unfold rd_slot in *. rewrite (eqb_neq_false (Z.of_nat (length (x :: q')))) by (simpl; lia).
    wp_test. wp_step.
    pose proof (fa_items _ _ _ _ _ _ H O x eq_refl) as Hx.
    rewrite Z.add_0_r, Z.mod_small in Hx by lia.
    replace (base + 4 * ld32 (mm w) f + delta) with (base + delta + 4 * ld32 (mm w) f) by lia.
    rewrite Hx. eapply wp_call; [apply (fifo_ItemRdNext_wp x q' H)|].
    intros _ w' (m' & -> & _ & Hq & _ & Hs & Hp). wp_step. split; [done|]. by exists m'.
Qed.
End FifoRefine.

(** C17: The documented write pattern implements a bounded queue: with fewer than capacity - 1 items
    queued, the value is appended at the end and nothing queued is lost or moved, also when the
    write index wraps around; with capacity - 1 items the call reports full and changes nothing.
    While tracking is on, the peak word becomes the maximum of itself and the new length. *)
Theorem fifo_push_refines f base delta cap q w v :
  fifo_at (mm w) f base (base + delta) cap q -> 0 <= v < 2 ^ 32 ->
  if fifo_full cap q then fifo_push f delta v w = Ret false w
  else exists m', fifo_push f delta v w = Ret true (set_mm w m') /\
    fifo_at m' f base (base + delta) cap (q ++ [v]) /\
    ld32 m' (f + 8) = peak_after_push (mm w) f (Z.of_nat (length q) + 1).
Proof.
  intros H Hv. destruct (wp_run _ _ _ (fifo_push_wp H v Hv)) as (r & w' & E & HQ).
  destruct (fifo_full cap q); destruct HQ as [-> HQ]; [by subst|].
  destruct HQ as (m' & -> & HQ). by exists m'.
Qed.

(** A queue of capacity 4 whose indices are about to wrap, with one item. *)
Definition ring_mem : mem :=
  foldl (fun m '(a, v) => st32 m a v) ∅
    [(0x5000, 2); (0x5004, 3); (0x500C, 1); (0x5010, 4); (0x5014, 4); (0x5018, 0x6000);
     (0x6008, 77)].
Definition ring_world : world := set_mm blank_world ring_mem.

Lemma ring_world_at : fifo_at (mm ring_world) 0x5000 0x6000 (0x6000 + 0) 4 [77].
Proof.
  split; [lia | lia | lia | lia | lia | vm_compute; split; congruence | vm_compute; reflexivity
    | simpl; lia | vm_compute; reflexivity .. | ].
  intros [|[|i]] v; simpl; intros E; try discriminate E; injection E as <-; vm_compute; reflexivity.
Qed.

Lemma fifo_push_refines_witness : exists m',
  fifo_push 0x5000 0 88 ring_world = Ret true (set_mm ring_world m') /\
  fifo_at m' 0x5000 0x6000 (0x6000 + 0) 4 [77; 88] /\ ld32 m' 0x5008 = 2.
Proof.
  pose proof (fifo_push_refines 0x5000 0x6000 0 4 [77] ring_world 88 ring_world_at ltac:(lia)) as H.
  exact H.
Defined.

(** C18: The documented read pattern removes the oldest item: on an empty queue it returns nothing
    and changes nothing, otherwise it returns the item that was pushed first and leaves the rest in
    order.  With tracking off the peak word becomes the minimum of itself and the new length. *)
Theorem fifo_pop_refines f base delta cap q w :
  fifo_at (mm w) f base (base + delta) cap q ->
  match q with
  | [] => fifo_pop f delta w = Ret None w
  | x :: q' => exists m', fifo_pop f delta w = Ret (Some x) (set_mm w m') /\
      fifo_at m' f base (base + delta) cap q' /\ same_out f 12 (mm w) m' /\
      ld32 m' (f + 8) = peak_after_pop (mm w) f (Z.of_nat (length q'))
  end.
Proof.
  intros H. destruct (wp_run _ _ _ (fifo_pop_wp H)) as (r & w' & E & HQ).
  destruct q as [|x q']; destruct HQ as [-> HQ]; [by subst|].
  destruct HQ as (m' & -> & HQ). by exists m'.
Qed.

Lemma fifo_pop_refines_witness : exists m',
  fifo_pop 0x5000 0 ring_world = Ret (Some 77) (set_mm ring_world m') /\
  fifo_at m' 0x5000 0x6000 (0x6000 + 0) 4 [].
Proof.
  destruct (fifo_pop_refines 0x5000 0x6000 0 4 [77] ring_world ring_world_at) as (m' & E & H & _).
  exists m'. split; [exact E | exact H].
Defined.

(** C1: With one producer and one consumer that interleave between any two of their calls (the
    lock-free use by the two CPUs), the values consumed are always a prefix of the values committed:
    nothing is lost, duplicated, reordered or overwritten in flight, and fewer than capacity items
    are in flight. *)
Theorem fifo_interleaved_order f base delta cap w s :
  fifo_at (mm w) f base (base + delta) cap [] ->
  star (spsc f delta) (Spsc w PIdle CIdle [] []) s ->
  exists q, ss_pushed s = ss_popped s ++ q /\ Z.of_nat (length q) < cap.
Proof. apply spsc_fifo_order. Qed.

Definition ring_empty : world := after (fifo_pop 0x5000 0) ring_world.

Lemma ring_empty_at : fifo_at (mm ring_empty) 0x5000 0x6000 (0x6000 + 0) 4 [].
Proof.
  split; [lia | lia | lia | lia | lia | vm_compute; split; congruence | vm_compute; reflexivity
    | simpl; lia | vm_compute; reflexivity .. | done].
Qed.

Definition ring_w1 : world := after (wr32 0x600C 5) ring_empty.
Definition ring_w2 : world := after (fifo_requestItemWr 0x5000) ring_w1.

(** The consumer looks while the producer is between its calls. *)
Lemma fifo_interleaved_order_witness : exists q, [5] = [] ++ q /\ Z.of_nat (length q) < 4.
Proof.
  apply (fifo_interleaved_order 0x5000 0x6000 0 4 ring_empty (Spsc ring_w2 PIdle (CSlot 0x600C) [5] [])
    ring_empty_at).
  eapply star_right; [eapply star_right; [eapply star_right; [eapply star_right;
    [eapply star_right; [apply star_refl|]|]|]|]|].
  - apply (spsc_get _ _ ring_empty ring_empty 0x600C); [vm_compute; reflexivity | discriminate].
  - apply (spsc_empty _ _ ring_empty ring_empty). vm_compute; reflexivity.
  - apply (spsc_write _ _ ring_empty ring_w1 0x600C 5); [lia | vm_compute; reflexivity].
  - apply (spsc_commit _ _ ring_w1 ring_w2 0x6000 5). vm_compute; reflexivity.
  - apply (spsc_peek _ _ ring_w2 ring_w2 0x600C); [vm_compute; reflexivity | discriminate].
Defined.

(** C19: Neither side of the queue can be stuck by the other: in every reachable interleaving both the
    producer and the consumer have a next call that returns, without dividing by zero or reading
    through a null pointer, and which leaves the other side's progress as it is. *)
Theorem fifo_interleaved_progress f base delta cap w s :
  fifo_at (mm w) f base (base + delta) cap [] ->
  star (spsc f delta) (Spsc w PIdle CIdle [] []) s ->
  (exists t, spsc f delta s t /\ ss_c t = ss_c s /\ ss_popped t = ss_popped s) /\
  (exists t, spsc f delta s t /\ ss_p t = ss_p s /\ ss_pushed t = ss_pushed s).
Proof.
  intros H Hs. apply (spsc_progress f base delta cap).
  eapply star_invariant; [apply spsc_inv_step | | exact Hs]. by exists [].
Qed.

Lemma fifo_interleaved_progress_witness :
  exists t, spsc 0x5000 0 (Spsc ring_empty PIdle CIdle [] []) t /\ ss_popped t = [].
Proof.
  destruct (fifo_interleaved_progress 0x5000 0x6000 0 4 ring_empty _ ring_empty_at (star_refl _ _))
    as [(t & H & _ & E) _]. by exists t.
Defined.
