(* ===== verification/Shm.v ===== *)
(** Where things live: the module globals of [cpu_comm_mem.c] that are fixed at
    module load, the layout of the shared region, address translation and the
    share-sequence addresses ([cpu_comm.h], [cpu_comm_mem.c], [cpu_comm_hw.c]). *)
From S2P Require Import Prelude Mem Kernel.

Definition EINVAL : Z := 22.
Definition EIO : Z := 5.
Definition EBUSY : Z := 16.
Definition ENOMEM : Z := 12.
Definition ENOENT : Z := 2.
Definition EFAULT : Z := 14.
Definition EINTR : Z := 4.

Definition CPU_COMM_MAGIC : Z := 0xDEADBEEF.
Definition CPU_ID_ARM : Z := 0.
Definition CPU_ID_MIPS : Z := 1.
Definition CPU_ID_MAX : Z := 2.

Definition SHMEM_OFF_MAGIC1 : Z := 144.
Definition SHMEM_OFF_MAX_CPU : Z := 19672.
Definition SHMEM_OFF_VA_OFFSET : Z := 19688.
Definition SHMEM_OFF_LIST_BASE : Z := 19724.
Definition SHMEM_OFF_MAGIC2 : Z := 30136.
Definition SHMEM_OFF_CALL_ENTRIES : Z := 30144.
Definition SHMEM_OFF_COMP_POOL : Z := 147656.
Definition SHMEM_OFF_MSG_POOL : Z := 180328.
Definition SHMEM_OFF_SMM_HEAP : Z := 183536.

Definition FIFO_DEFAULT_CAP : Z := 21.
Definition MAX_WAIT_ENTRIES : nat := 20.
Definition COMM_SOCKET_SIZE : Z := 4992.
Definition CALL_ENTRIES_TOTAL : nat := Z.to_nat 117504.
Definition CALL_ENTRY_SIZE : Z := 96.
Definition COMM_MSG_SIZE : Z := 104.
Definition SESSION_ID_INVALID : Z := -1.
Definition SESSION_ID_MASK : Z := 0x3FFFFFFF.

Definition MSG_TYPE_CALL : Z := 0.
Definition MSG_TYPE_RETURN : Z := 1.
Definition MSG_TYPE_CALL_ACK : Z := 2.
Definition MSG_TYPE_RETURN_ACK : Z := 3.
Definition MSG_FLAG_NOTIFY : Z := 1.
Definition MSG_FLAG_RETURN_ACK : Z := 2.
Definition MSG_FLAG_SENT : Z := 4.

(** The globals that module load fixes. *)
Class Shm := {
  ShMemAddr : Z;        (* physical base of the shared region *)
  ShMemSize : Z;
  ShMemAddrBase : Z;    (* kernel virtual base (= ShMemAddrVir) *)
  ShMemSize1 : Z;
  s_CommSockt : Z;      (* &s_CommSockt[0] *)
  hwlocks : Z;          (* &hwlocks[0] *)
  pcpu_comm_dev : Z;
}.

(** What [cpu_comm_init] establishes before anything else runs: the 5 MB
    region is mapped, and the driver's own data lie elsewhere. *)
Class ShmOk (S : Shm) : Prop := {
  shm_base : 4096 <= ShMemAddrBase;
  shm_size : ShMemSize = 0x500000;
  shm_top : ShMemAddrBase + ShMemSize < 2 ^ 32;
  shm_phys : 0 < ShMemAddr /\ ShMemAddr + ShMemSize <= 2 ^ 32;
  shm_sockt : 4096 <= s_CommSockt /\ s_CommSockt + 2 * COMM_SOCKET_SIZE <= 2 ^ 32;
  shm_hwlocks : 4096 <= hwlocks /\ hwlocks + 128 <= 2 ^ 32;
  shm_apart : s_CommSockt + 2 * COMM_SOCKET_SIZE <= ShMemAddrBase \/
              ShMemAddrBase + ShMemSize <= s_CommSockt;
  shm_hw_apart : hwlocks + 128 <= ShMemAddrBase \/ ShMemAddrBase + ShMemSize <= hwlocks;
  shm_above : 0xC0000000 <= ShMemAddrBase;     (* a kernel address *)
  shm_statics : s_CommSockt + 2 * COMM_SOCKET_SIZE <= hwlocks \/ hwlocks + 128 <= s_CommSockt;
}.

(** The addresses of one real boot, for concrete runs. *)
#[export] Instance hy310_shm : Shm := {|
  ShMemAddr := 0x4E300000;
  ShMemSize := 0x500000;
  ShMemAddrBase := 0xF1000000;
  ShMemSize1 := 0;
  s_CommSockt := 0xBF0A4000;
  hwlocks := 0xBF0A8000;
  pcpu_comm_dev := 0xC2000000;
|}.

#[export] Instance hy310_shm_ok : ShmOk hy310_shm.
Proof. constructor; simpl; unfold COMM_SOCKET_SIZE; lia. Qed.

Definition cpu_comm_is_mips_va (ptr : Z) : bool := (ptr &. 0xE0000000) =? 0x80000000.

(** Kernel addresses are never taken for addresses of the MIPS side. *)
Lemma not_mips_va x : 0xC0000000 <= x < 2 ^ 32 -> cpu_comm_is_mips_va x = false.
Proof.
  intros H. unfold cpu_comm_is_mips_va. apply Z.eqb_neq. intros E.
  assert (Hb : Z.testbit (x &. 0xE0000000) 30 = Z.testbit 0x80000000 30) by (by rewrite E).
  rewrite Z.land_spec in Hb. change (Z.testbit 0xE0000000 30) with true in Hb.
  change (Z.testbit 0x80000000 30) with false in Hb. rewrite andb_true_r in Hb.
  apply (f_equal (fun z => Z.testbit z 31)) in E. rewrite Z.land_spec in E.
  change (Z.testbit 0xE0000000 31) with true in E. change (Z.testbit 0x80000000 31) with true in E.
  rewrite Z.testbit_eqb in Hb by lia.
  assert (x / 2 ^ 30 = 3) as Eq by (symmetry; apply (Z.div_unique_pos x (2 ^ 30) 3 (x - 3 * 2 ^ 30)); lia).
  rewrite Eq in Hb. discriminate Hb.
Qed.

Definition getCurCPUID : Z := CPU_ID_ARM.
Definition CPUId2Index (cpu_id : Z) : Z := cpu_id.

(** ** Address translation *)

Definition Mid2Phy (cpu mid : Z) : Z := mid.
Definition Phy2Mid (phy : Z) : Z := phy.

Section Translate.
Context {S : Shm}.

Definition Mid2Vir (cpu mid : Z) : Z :=
  let phy := Mid2Phy cpu mid in
  if (phy =? 0) || (ShMemAddrBase =? 0) || (ShMemAddr =? 0) then 0
  else u32 (phy + u32 (ShMemAddrBase - ShMemAddr)).

Definition Vir2Mid (cpu vir : Z) : Z :=
  if (vir =? 0) || (ShMemAddrBase =? 0) || (ShMemAddr =? 0) then 0
  else Phy2Mid (u32 (vir - u32 (ShMemAddrBase - ShMemAddr))).

(** [x - ShMemAddrBase + ShMemAddr] and back, on u32 *)
Definition vir2phy (vir : Z) : Z := u32 (vir - ShMemAddrBase + ShMemAddr).
Definition phy2vir (phy : Z) : Z := u32 (phy + ShMemAddrBase - ShMemAddr).

Definition smm_phy2vir (phy : Z) : Z := if phy =? 0 then 0 else phy2vir phy.
Definition smm_vir2phy (vir : Z) : Z := if vir =? 0 then 0 else vir2phy vir.

(** *** Sequences *)

Definition getSeq (cpu_id : Z) : Z :=
  if 1 <? cpu_id then 0 else u32 (s_CommSockt + 4 * (cpu_id * (COMM_SOCKET_SIZE / 4))).

Definition getShareSeq (cpu remote dir : Z) : Z :=
  if (ShMemAddrBase =? 0) || (1 <? cpu) || (1 <? remote) || (1 <? dir) then 0
  else u32 (ShMemAddrBase + 9760 * cpu + 4880 * remote + 2440 * dir + 152).

Definition getShareSeqR (cpu dir : Z) : Z := getShareSeq getCurCPUID cpu dir.
Definition getShareSeqW (cpu dir : Z) : Z := getShareSeq cpu getCurCPUID dir.

Definition getComponentPool : Z :=
  if ShMemAddrBase =? 0 then 0 else u32 (ShMemAddrBase + SHMEM_OFF_COMP_POOL).
Definition getMsgPool : Z :=
  if ShMemAddrBase =? 0 then 0 else u32 (ShMemAddrBase + SHMEM_OFF_MSG_POOL).
End Translate.

(** Addresses in the shared region translate without wrap-around. *)
Section TranslateFacts.
Context {S : Shm} {OK : ShmOk S}.

Definition in_shm (vir : Z) : Prop := ShMemAddrBase <= vir < ShMemAddrBase + ShMemSize.

Lemma vir2phy_shm vir : in_shm vir -> vir2phy vir = vir - ShMemAddrBase + ShMemAddr.
Proof.
  intros H. unfold vir2phy. destruct OK. unfold in_shm in *. apply u32_small. lia.
Qed.

Lemma phy2vir_vir2phy vir : in_shm vir -> phy2vir (vir2phy vir) = vir.
Proof.
  intros H. rewrite vir2phy_shm by done. unfold phy2vir. destruct OK.
  unfold in_shm in *. rewrite u32_small; lia.
Qed.

Lemma vir2phy_nonzero vir : in_shm vir -> vir2phy vir <> 0.
Proof. intros H. rewrite vir2phy_shm by done. destruct OK. unfold in_shm in *. lia. Qed.

Lemma getSeq_at cpu : 0 <= cpu <= 1 -> getSeq cpu = s_CommSockt + COMM_SOCKET_SIZE * cpu.
Proof.
  intros H. unfold getSeq. destruct OK. rewrite ltb_false by lia.
  unfold COMM_SOCKET_SIZE in *. change (4992 / 4) with 1248. rewrite u32_small; lia.
Qed.

Lemma getShareSeq_at cpu remote dir :
  0 <= cpu <= 1 -> 0 <= remote <= 1 -> 0 <= dir <= 1 ->
  getShareSeq cpu remote dir = ShMemAddrBase + 9760 * cpu + 4880 * remote + 2440 * dir + 152.
Proof.
  intros Hc Hr Hd. unfold getShareSeq. destruct OK. zcmp. apply u32_small. lia.
Qed.
End TranslateFacts.

(** [shm_lia]: addresses, with the layout of the region in context. *)
Ltac shm_facts :=
  match goal with
  | OK : ShmOk ?S |- _ =>
      let H := fresh "Hshm" in pose proof (@shm_base S OK) as H;
      let H := fresh "Hshm" in pose proof (@shm_size S OK) as H;
      let H := fresh "Hshm" in pose proof (@shm_top S OK) as H;
      let H := fresh "Hshm" in pose proof (@shm_phys S OK) as H;
      let H := fresh "Hshm" in pose proof (@shm_sockt S OK) as H;
      let H := fresh "Hshm" in pose proof (@shm_hwlocks S OK) as H;
      let H := fresh "Hshm" in pose proof (@shm_apart S OK) as H;
      let H := fresh "Hshm" in pose proof (@shm_hw_apart S OK) as H
  end; unfold COMM_SOCKET_SIZE in *.
