(* ===== verification/SpinLock.v ===== *)
(** The two-level spinlocks of [cpu_comm_hw.c]: hardware locks held briefly, and
    twelve 12-byte entries at the start of the shared region that record owner,
    nesting depth and thread. *)
From S2P Require Import Prelude Mem Kernel Shm.

Definition HW_SPINLOCK_COUNT : Z := 9.
Definition HW_SPINLOCK_APP_START : Z := 5.
Definition HW_SPINLOCK_APP_END : Z := 11.
Definition SPINLOCK_FREE : Z := 2.
Definition SPINLOCK_HWID_NONE : Z := 255.
Definition SPINLOCK_MAX_ID : Z := 11.
Definition SPINLOCK_HW_OFFSET : Z := 2.
Definition SPINLOCK_ENTRY_SIZE : Z := 12.
Definition SPINLOCK_OFF_MUTEX : Z := 2.
Definition SPINLOCK_OFF_OWNER : Z := 3.

Section SpinLock.
Context {S : Shm} {K : Kernel}.

(** *** Hardware locks; [hwlocks[i]] is a 4-byte handle, the acquisition
    counters follow the nine handles *)

Definition hwlock (i : Z) : Z := hwlocks + 4 * i.

Definition getRegbySpinID (id : Z) : Z := if (id <? 0) || (13 <? id) then -1 else id + 8.

Definition spinlockhwReg (lock_id : Z) : M Z :=
  h ← rd32 (hwlock lock_id);
  if h =? 0 then mret (- EINVAL) else
  ret ← k_hwspin_lock_timeout h 100;
  if negb (ret =? 0) then mret ret else
  c ← rd32 (hwlock (lock_id + HW_SPINLOCK_COUNT));
  wr32 (hwlock (lock_id + HW_SPINLOCK_COUNT)) (c + 1) ;;
  mret 0.

Definition tryspinlockhwReg (lock_id : Z) : M Z :=
  h ← rd32 (hwlock lock_id);
  ret ← k_hwspin_trylock h;
  if ret =? 0 then
    c ← rd32 (hwlock (lock_id + HW_SPINLOCK_COUNT));
    wr32 (hwlock (lock_id + HW_SPINLOCK_COUNT)) (c + 1) ;;
    mret 1
  else mret 0.

Definition spinUnlockhwReg (lock_id : Z) : M unit :=
  h ← rd32 (hwlock lock_id);
  k_hwspin_unlock h.

(** [hwspin_lock_request_specific] and [hwspin_lock_free] are the kernel's. *)
Definition comm_InitHwSpinLock (request : Z -> world -> Z * world)
    (free : Z -> world -> world) : M Z :=
  r ← for_exit (Z.to_nat HW_SPINLOCK_COUNT) 0 (fun i =>
    h ← rd32 (hwlock i);
    if h =? 0 then
      h' ← lift_env (request (getRegbySpinID i));
      wr32 (hwlock i) h' ;;
      if h' =? 0 then
        for_ (Z.to_nat i) 0 (fun j =>
          hj ← rd32 (hwlock j);
          if negb (hj =? 0) then modify (free hj) ;; wr32 (hwlock j) 0 else mret tt) ;;
        mret (Some (- EBUSY))
      else mret None
    else mret None);
  mret (match r with Some e => e | None => 0 end).

(** *** Software locks *)

Definition getSpinLockMemArea : Z := ShMemAddrBase.
Definition spin_entry (lock_id : Z) : Z := getSpinLockMemArea + SPINLOCK_ENTRY_SIZE * lock_id.

Definition comm_InitSpinLock (request : Z -> world -> Z * world)
    (free : Z -> world -> world) : M Z :=
  if getSpinLockMemArea =? 0 then mret (-1) else
  ret ← comm_InitHwSpinLock request free;
  if negb (ret =? 0) then mret ret else
  for_ 8 1 (fun i => spinUnlockhwReg i) ;;
  for_ 12 0 (fun i =>
    wr32 (spin_entry i) 0x02000202 ;;
    wr32 (spin_entry i + 4) 0 ;;
    wr32 (spin_entry i + 8) SPINLOCK_HWID_NONE) ;;
  mret 0.

Definition enterCritical (lock_id : Z) : M unit :=
  let entry := spin_entry lock_id in
  let hw_id := lock_id + SPINLOCK_HW_OFFSET in
  h ← rd32 (hwlock hw_id);
  ret ← k_hwspin_lock_timeout h 50;
  if negb (ret =? 0) then
    wr8 (entry + SPINLOCK_OFF_OWNER) getCurCPUID
  else
    wr8 (entry + SPINLOCK_OFF_OWNER) getCurCPUID ;;
    h' ← rd32 (hwlock hw_id);
    k_hwspin_unlock h'.

Definition leaveCritical (lock_id : Z) : M unit :=
  wr8 (spin_entry lock_id + SPINLOCK_OFF_OWNER) SPINLOCK_FREE.

(** Take the entry for the running thread: thread id, depth, release. *)
Definition spinLock_body (lock_id mode retries : Z) : M (Z + Z) :=
  let entry := spin_entry lock_id in
  if 10000 <? retries + 1 then mret (inr (- EBUSY)) else
  enterCritical lock_id ;;
  let cur_cpu := getCurCPUID in
  owner ← rd8 (entry + SPINLOCK_OFF_OWNER);
  me ← gets cur_tgid;
  if owner =? cur_cpu then
    tid ← rd32 (entry + 8);
    if tid =? SPINLOCK_HWID_NONE then
      wr32 (entry + 8) me ;;
      rc ← rd32 (entry + 4);
      wr32 (entry + 4) (rc + 1) ;;
      leaveCritical lock_id ;;
      mret (inr 2)
    else
      mutex ← rd8 (entry + SPINLOCK_OFF_MUTEX);
      if (mutex =? 0) && (tid =? u32 me) then
        rc ← rd32 (entry + 4);
        wr32 (entry + 4) (rc + 1) ;;
        leaveCritical lock_id ;;
        mret (inr 1)
      else
        leaveCritical lock_id ;;
        if mode =? 0 then mret (inr 0) else
        k_schedule ;;
        mret (inl (retries + 1))
  else if owner =? SPINLOCK_FREE then
    wr8 (entry + SPINLOCK_OFF_OWNER) cur_cpu ;;
    wr32 (entry + 8) me ;;
    rc ← rd32 (entry + 4);
    wr32 (entry + 4) (rc + 1) ;;
    leaveCritical lock_id ;;
    mret (inr 2)
  else
    leaveCritical lock_id ;;
    if mode =? 0 then mret (inr 0) else
    (if 2 <=? mode then k_schedule else mret tt) ;;
    mret (inl (retries + 1)).

Definition spinLock_fuel : nat := Z.to_nat 10002.

Definition spinLock (lock_id mode : Z) : M Z :=
  if SPINLOCK_MAX_ID <? lock_id then mret (- EINVAL) else
  rc ← rd32 (spin_entry lock_id + 4);
  if s32 rc <? 0 then mret (- EIO) else
  loop spinLock_fuel (spinLock_body lock_id mode) 0.

Definition comm_SpinLock (lock_id : Z) : M unit := spinLock lock_id 2 ;; mret tt.
Definition comm_SpinLockMutex (lock_id : Z) : M unit := spinLock lock_id 1 ;; mret tt.
Definition comm_TrySpinLock (lock_id : Z) : M Z :=
  r ← spinLock lock_id 0; mret (if r =? 0 then 0 else 1).

Definition comm_SpinUnLock (lock_id : Z) : M unit :=
  let entry := spin_entry lock_id in
  if SPINLOCK_MAX_ID <? lock_id then mret tt else
  enterCritical lock_id ;;
  rc ← rd32 (entry + 4);
  if s32 rc <=? 0 then leaveCritical lock_id else
  owner ← rd8 (entry + SPINLOCK_OFF_OWNER);
  if owner =? SPINLOCK_FREE then leaveCritical lock_id else
  tid ← rd32 (entry + 8);
  if tid =? SPINLOCK_HWID_NONE then leaveCritical lock_id else
  wr32 (entry + 4) (rc - 1) ;;
  (if u32 (rc - 1) =? 0 then
     wr8 (entry + SPINLOCK_OFF_OWNER) SPINLOCK_FREE ;;
     wr32 (entry + 8) SPINLOCK_HWID_NONE
   else mret tt) ;;
  leaveCritical lock_id.

Definition comm_SpinLocksetType (lock_id type : Z) : M unit :=
  if getSpinLockMemArea =? 0 then mret tt else wr8 (spin_entry lock_id) type.

Definition comm_ReqestSpinLock : M Z :=
  spinlockhwReg 1 ;;
  if getSpinLockMemArea =? 0 then spinUnlockhwReg 1 ;; mret 255 else
  r ← for_exit 7 HW_SPINLOCK_APP_START (fun id =>
    let entry := spin_entry id in
    owner ← rd8 (entry + SPINLOCK_OFF_OWNER);
    if owner =? SPINLOCK_FREE then
      rc ← rd32 (entry + 4);
      if negb (rc =? 0) then mret None else
      ty ← rd8 entry;
      if negb (ty =? SPINLOCK_FREE) then mret None else
      tid ← rd32 (entry + 8);
      if negb (tid =? SPINLOCK_HWID_NONE) then mret None else
      wr8 (entry + SPINLOCK_OFF_MUTEX) 0 ;;
      wr8 (entry + SPINLOCK_OFF_OWNER) getCurCPUID ;;
      spinUnlockhwReg 1 ;;
      mret (Some id)
    else mret None);
  match r with
  | Some id => mret id
  | None => spinUnlockhwReg 1 ;; mret 255
  end.

Definition comm_ReleaseSpinLock (lock_id : Z) : M Z :=
  if (lock_id <? HW_SPINLOCK_APP_START) || (HW_SPINLOCK_APP_END <? lock_id)
  then mret (- EINVAL) else
  let entry := spin_entry lock_id in
  spinlockhwReg 1 ;;
  rc ← rd32 (entry + 4);
  tid ← rd32 (entry + 8);
  if negb (rc =? 0) || negb (tid =? SPINLOCK_HWID_NONE) then
    spinUnlockhwReg 1 ;; mret (-1)
  else
    wr8 (entry + SPINLOCK_OFF_OWNER) SPINLOCK_FREE ;;
    spinUnlockhwReg 1 ;;
    mret 0.

Definition comm_SpinLockCleanUpInCPUReset (cpu_id : Z) : M unit :=
  if getSpinLockMemArea =? 0 then mret tt else
  for_ 12 0 (fun i =>
    let entry := spin_entry i in
    owner ← rd8 (entry + SPINLOCK_OFF_OWNER);
    if owner =? u8 cpu_id then
      wr8 (entry + SPINLOCK_OFF_OWNER) SPINLOCK_FREE ;;
      wr32 (entry + 4) 0 ;;
      wr32 (entry + 8) SPINLOCK_HWID_NONE
    else mret tt).
End SpinLock.

(** ** The abstract lock: free, or held by a thread at a depth *)

Abbreviation lock_abs := (option (Z * Z)).

Definition abs_lock (me mode : Z) (a : lock_abs) : Z * lock_abs :=
  match a with
  | None => (2, Some (me, 1))
  | Some (t, n) =>
      if t =? me then (1, Some (t, n + 1))
      else (if mode =? 0 then 0 else - EBUSY, a)
  end.

Definition abs_unlock (a : lock_abs) : lock_abs :=
  match a with
  | None => None
  | Some (t, n) => if n =? 1 then None else Some (t, n - 1)
  end.

Definition abs_depth (a : lock_abs) : Z := match a with None => 0 | Some (_, n) => n end.

Section LockSpecs.
Context {S : Shm} {OK : ShmOk S} {K : Kernel}.

(** The entry of lock [id] in memory stands for [a]. *)
Record lock_is (m : mem) (id : Z) (a : lock_abs) : Prop := LockIs {
  li_mutex : ld8 m (spin_entry id + 2) = 0;
  li_depth : ld32 m (spin_entry id + 4) = abs_depth a;
  li_tid : match a with
           | None => ld32 m (spin_entry id + 8) = SPINLOCK_HWID_NONE
           | Some (t, n) => ld32 m (spin_entry id + 8) = t /\ t <> SPINLOCK_HWID_NONE /\ 0 < n
           end;
}.

Lemma spin_entry_at id : 0 <= id <= 11 ->
  4096 <= spin_entry id /\ spin_entry id + 12 <= ShMemAddrBase + 144 /\
  ShMemAddrBase <= spin_entry id.
Proof.
  intros H. unfold spin_entry, getSpinLockMemArea, SPINLOCK_ENTRY_SIZE. shm_facts. lia.
Qed.

Lemma enterCritical_wp {HQ : Quiet K} id w : 0 <= id <= 11 ->
  wp (enterCritical id)
     (fun _ w' => w' = set_mm w (st 1 (mm w) (spin_entry id + 3) CPU_ID_ARM)) w.
Proof.
  intros Hid. pose proof (spin_entry_at id Hid). shm_facts.
  unfold enterCritical, hwlock, SPINLOCK_HW_OFFSET, SPINLOCK_OFF_OWNER, getCurCPUID.
  wp_step. wp_step. destruct (negb (r =? 0)); wp_go; done.
Qed.

(** What taking the lock leaves unchanged: all but depth, thread and owner. *)
Definition lock_frame (m m' : mem) (id : Z) : Prop := same_out (spin_entry id + 3) 9 m m'.

(** [enterCritical] in world [w] lasts until world [w1] and claims the entry there. *)
Definition claims (id : Z) (w w1 : world) : Prop := cur_tgid w1 = cur_tgid w /\
  enterCritical id w = Ret tt (set_mm w1 (st 1 (mm w1) (spin_entry id + 3) CPU_ID_ARM)).

(** One attempt on a lock this thread can take. *)
Lemma spinLock_body_take id mode retries w w1 a :
  0 <= id <= 11 -> 0 <= retries < 10000 -> claims id w w1 ->
  lock_is (mm w1) id a -> 0 <= cur_tgid w < 2 ^ 32 -> cur_tgid w <> SPINLOCK_HWID_NONE ->
  abs_depth a < 2 ^ 31 - 1 ->
  match a with None => True | Some (t, _) => t = cur_tgid w end ->
  wp (spinLock_body id mode retries) (fun r w' => exists m', w' = set_mm w1 m' /\
    r = inr (fst (abs_lock (cur_tgid w) mode a)) /\
    lock_is m' id (snd (abs_lock (cur_tgid w) mode a)) /\
    ld 1 m' (spin_entry id + 3) = SPINLOCK_FREE /\ lock_frame (mm w1) m' id) w.
Proof.
  intros Hid Hr [<- Hent] [Hmx Hd Ht] Hme Hne Hdep Ha. pose proof (spin_entry_at id Hid).
  unfold spinLock_body, leaveCritical, SPINLOCK_OFF_OWNER, SPINLOCK_OFF_MUTEX.
  unfold getCurCPUID, CPU_ID_ARM, lock_frame, SPINLOCK_FREE, SPINLOCK_HWID_NONE in *.
  wp_test. eapply wp_eq; [exact Hent|].
  do 2 wp_step. memsimp. wp_test. wp_step. memsimp.
  destruct a as [[t n]|]; simpl in Hd, Ht, Ha, Hdep |- *.
  - destruct Ht as (Ht & Htn & Hn). rewrite Ht. subst t. wp_test. wp_step.
    rewrite ld_1 in *. memsimp. rewrite Hmx, (u32_small (cur_tgid w1)) by lia. wp_test.
    wp_go. memsimp. rewrite Hd. eexists. ands; [done | done | | by memsimp |].
    + split; simpl; memsimp; try done; [by u32s | by ands; [| | lia]].
    + same_out_tac.
  - rewrite Ht. wp_test. wp_go. memsimp. rewrite Hd. eexists.
    ands; [done | done | | by memsimp |].
    + split; simpl; memsimp; [done | done | u32s; by ands; [| | lia]].
    + same_out_tac.
Qed.

(** One attempt on a lock another thread holds. *)
Lemma spinLock_body_busy id mode retries w w1 t n :
  0 <= id <= 11 -> 0 <= retries < 10000 -> claims id w w1 ->
  lock_is (mm w1) id (Some (t, n)) -> 0 <= cur_tgid w < 2 ^ 32 -> t <> cur_tgid w ->
  wp (spinLock_body id mode retries) (fun r w' => exists m',
    w' = (if mode =? 0 then set_mm w1 m' else schedule (set_mm w1 m')) /\
    r = (if mode =? 0 then inr 0 else inl (retries + 1)) /\
    lock_is m' id (Some (t, n)) /\
    ld 1 m' (spin_entry id + 3) = SPINLOCK_FREE /\ lock_frame (mm w1) m' id) w.
Proof.
  intros Hid Hr [<- Hent] [Hmx Hd (Ht & Htn & Hn)] Hme Hne. pose proof (spin_entry_at id Hid).
  unfold spinLock_body, leaveCritical, SPINLOCK_OFF_OWNER, SPINLOCK_OFF_MUTEX.
  unfold getCurCPUID, CPU_ID_ARM, lock_frame, SPINLOCK_FREE, SPINLOCK_HWID_NONE, k_schedule in *.
  wp_test. eapply wp_eq; [exact Hent|].
  do 2 wp_step. memsimp. wp_test. wp_step. memsimp. rewrite Ht. wp_test.
  wp_step. rewrite ld_1 in *. memsimp. rewrite Hmx, u32_small by lia. wp_test. wp_step.
  destruct (mode =? 0); wp_go; eexists; (ands; [done | done | | by memsimp | same_out_tac]);
    split; simpl; memsimp; done.
Qed.
End LockSpecs.

Section QuietLocks.
Context {S : Shm} {OK : ShmOk S} {K : Kernel} {HQ : Quiet K}.

Lemma claims_quiet id w : 0 <= id <= 11 -> claims id w w.
Proof.
  intros Hid. split; [done|].
  destruct (wp_run _ _ _ (enterCritical_wp id w Hid)) as ([] & w' & E & ->). exact E.
Qed.

(** [spinLock] refines [abs_lock], and always returns: after 10000 failed
    attempts with -EBUSY. *)
Lemma spinLock_wp id mode w a :
  0 <= id <= 11 -> lock_is (mm w) id a ->
  0 <= cur_tgid w < 2 ^ 32 -> cur_tgid w <> SPINLOCK_HWID_NONE ->
  abs_depth a < 2 ^ 31 - 1 ->
  wp (spinLock id mode) (fun r w' => exists m', w' = set_mm w m' /\
    r = fst (abs_lock (cur_tgid w) mode a) /\
    lock_is m' id (snd (abs_lock (cur_tgid w) mode a)) /\
    ld 1 m' (spin_entry id + 3) = SPINLOCK_FREE /\ lock_frame (mm w) m' id) w.
Proof.
  intros Hid Ha Hme Hne Hdep. pose proof (spin_entry_at id Hid).
  unfold spinLock, SPINLOCK_MAX_ID. wp_test. wp_step.
  assert (0 <= abs_depth a).
  { destruct Ha as [_ Hd _]. rewrite <- Hd. pose proof (ld32_range (mm w) (spin_entry id + 4)). lia. }
  rewrite (li_depth _ _ _ Ha), s32_small by lia. wp_test.
  eapply (wp_loop (fun k r w' => Z.of_nat k = 10000 - r /\ 0 <= r <= 10000 /\
    exists m', w' = set_mm w m' /\ lock_is m' id a /\ lock_frame (mm w) m' id /\
      (0 < r -> ld 1 m' (spin_entry id + 3) = SPINLOCK_FREE /\
         exists t n, a = Some (t, n) /\ t <> cur_tgid w /\ mode <> 0)) _ _ _ (Z.to_nat 10000)).
  - unfold spinLock_fuel. lia.
  - ands; [rewrite Z2Nat.id by lia; lia | lia | lia |]. exists (mm w).
    ands; [by rewrite set_mm_id | done | by apply same_out_refl | lia].
  - clear - Hid Hme Hne Hdep H OK HQ.
    intros k r w' (Hk & Hr & m' & -> & Ha & Hf & Hpos).
    destruct (decide (r = 10000)) as [->|Hr'].
    + destruct (Hpos ltac:(lia)) as (Hown & t & n & -> & Ht & Hm).
      unfold spinLock_body. wp_test. wp_step. exists m'. simpl.
      rewrite (eqb_neq_false t), (eqb_neq_false mode) by done. done.
    + assert (match a with None => True | Some (t, _) => t = cur_tgid w end \/
              exists t n, a = Some (t, n) /\ t <> cur_tgid w) as [Hmine|(t & n & -> & Hno)].
      { destruct a as [[t n]|]; [|by left]. destruct (decide (t = cur_tgid w)); eauto. }
      * eapply wp_mono; [apply (spinLock_body_take id mode r _ (set_mm w m') a); try done; [lia | by apply claims_quiet]|]. simpl.
        intros ? ? (m2 & -> & -> & H1 & H2 & H3). wsimp. exists m2. ands; try done.
        by eapply same_out_trans.
      * eapply wp_mono; [apply (spinLock_body_busy id mode r _ (set_mm w m') t n); try done; [lia | by apply claims_quiet]|].
        intros ? ? (m2 & -> & -> & H1 & H2 & H3). rewrite schedule_quiet. wsimp. simpl.
        rewrite (eqb_neq_false t) by done.
        destruct (mode =? 0) eqn:Em; zbool.
        { exists m2. ands; try done. by eapply same_out_trans. }
        exists (k - 1)%nat. ands; try lia. exists m2. ands; try done.
        { by eapply same_out_trans. } intros _. split; [done|]. by exists t, n.
Qed.

(** Unlocking looks neither at the owner CPU nor at the thread. *)
Lemma comm_SpinUnLock_wp id w a :
  0 <= id <= 11 -> lock_is (mm w) id a -> abs_depth a < 2 ^ 31 ->
  wp (comm_SpinUnLock id) (fun _ w' => exists m', w' = set_mm w m' /\
    lock_is m' id (abs_unlock a) /\
    ld 1 m' (spin_entry id + 3) = SPINLOCK_FREE /\ lock_frame (mm w) m' id) w.
Proof.
  intros Hid [Hmx Hd Ht] Hdep. pose proof (spin_entry_at id Hid).
  unfold comm_SpinUnLock, leaveCritical, SPINLOCK_OFF_OWNER, SPINLOCK_MAX_ID.
  unfold getCurCPUID, CPU_ID_ARM, lock_frame, SPINLOCK_FREE, SPINLOCK_HWID_NONE in *.
  wp_test. eapply wp_call; [by apply enterCritical_wp|]. intros [] w' ->. unfold CPU_ID_ARM.
  wp_step. memsimp. rewrite Hd. destruct a as [[t n]|]; simpl in Hd, Ht, Hdep |- *.
  - destruct Ht as (Ht & Htn & Hn). rewrite s32_small by lia. wp_test. wp_step. memsimp.
    wp_test. wp_step. memsimp. rewrite Ht. wp_test. wp_step. rewrite u32_small by lia.
    destruct (n =? 1) eqn:En; zbool.
    + wp_test. wp_go. eexists. ands; [done | | by memsimp | same_out_tac].
      split; simpl; memsimp; try done. by rewrite En.
    + wp_test. wp_go. eexists. ands; [done | | by memsimp | same_out_tac].
      split; simpl; memsimp; try done; [u32s; lia | by ands; [| | lia]].
  - change (s32 0) with 0. cbn [Z.leb Z.compare]. wp_go. eexists. ands; [done | | by memsimp | same_out_tac].
    split; simpl; memsimp; done.
Qed.
End QuietLocks.

(** ** CPU reset *)

Section Cleanup.
Context {S : Shm} {OK : ShmOk S} {K : Kernel}.

(** What the sweep does to one entry. *)
Definition entry_swept (m m' : mem) (cpu id : Z) : Prop :=
  if ld 1 m (spin_entry id + 3) =? cpu then
    ld 1 m' (spin_entry id + 3) = SPINLOCK_FREE /\ ld32 m' (spin_entry id + 4) = 0 /\
    ld32 m' (spin_entry id + 8) = SPINLOCK_HWID_NONE /\ same_on (spin_entry id) 3 m m'
  else same_on (spin_entry id) 12 m m'.

Lemma spin_entry_off i : spin_entry i = ShMemAddrBase + 12 * i.
Proof. reflexivity. Qed.

Lemma entry_swept_later m m1 m2 cpu id :
  entry_swept m m1 cpu id -> same_on (spin_entry id) 12 m1 m2 -> entry_swept m m2 cpu id.
Proof.
  unfold entry_swept. intros H Hs.
  assert (E : forall k o, 0 <= o -> o + Z.of_nat k <= 12 ->
    ld k m2 (spin_entry id + o) = ld k m1 (spin_entry id + o)).
  { intros k o Ho Hk. apply ld_same. intros x Hx. apply Hs. lia. }
  destruct (_ =? cpu).
  - rewrite !E by lia. destruct H as (? & ? & ? & H). ands; try done.
    intros x Hx. rewrite Hs by lia. apply H. lia.
  - intros x Hx. rewrite Hs by lia. apply H. lia.
Qed.

Lemma cleanup_wp cpu w :
  0 <= cpu < 256 ->
  wp (comm_SpinLockCleanUpInCPUReset cpu) (fun _ w' => exists m', w' = set_mm w m' /\
    same_out ShMemAddrBase 144 (mm w) m' /\
    forall id, 0 <= id <= 11 -> entry_swept (mm w) m' cpu id) w.
Proof.
  intros Hc. unfold comm_SpinLockCleanUpInCPUReset, getSpinLockMemArea. shm_facts. wp_test.
  apply (wp_for 12 0 _ (fun j w' => exists m', w' = set_mm w m' /\
    same_out ShMemAddrBase (12 * j) (mm w) m' /\
    forall id, 0 <= id < j -> entry_swept (mm w) m' cpu id)).
  - exists (mm w). ands; [by rewrite set_mm_id | apply same_out_refl | lia].
  - intros j w1 Hj (m1 & -> & Ho & He). pose proof (spin_entry_at j ltac:(lia)).
    pose proof (spin_entry_off j). unfold SPINLOCK_OFF_OWNER, SPINLOCK_FREE, SPINLOCK_HWID_NONE.
    wp_step. assert (Eo : forall k o, 0 <= o ->
      ld k m1 (spin_entry j + o) = ld k (mm w) (spin_entry j + o)).
    { intros k o Hk. apply (ld_same_out _ _ _ _ _ _ Ho). lia. }
    rewrite Eo, u8_small by lia.
    destruct (ld 1 (mm w) (spin_entry j + 3) =? cpu) eqn:E; wp_go.
    + eexists. ands; [done | |].
      { intros x Hx. rewrite !ld8_st_out by lia. apply Ho. lia. }
      intros id Hid. destruct (decide (id = j)) as [->|].
      * unfold entry_swept. rewrite E. ands; memsimp; try done.
        intros x Hx. rewrite !ld8_st_out by lia. apply Ho. lia.
      * apply (entry_swept_later _ m1); [apply He; lia|].
        pose proof (spin_entry_off id). intros x Hx. rewrite !ld8_st_out by lia. done.
    + eexists. ands; [done | |].
      { intros x Hx. apply Ho. lia. }
      intros id Hid. destruct (decide (id = j)) as [->|]; [|apply He; lia].
      unfold entry_swept. rewrite E. intros x Hx. apply Ho. lia.
  - intros w1 (m1 & -> & Ho & He). exists m1. ands; [done | done |].
    intros id Hid. apply He. lia.
Qed.

Lemma lock_is_same m m' id a :
  0 <= id <= 11 -> same_on (spin_entry id) 12 m m' -> lock_is m id a -> lock_is m' id a.
Proof.
  intros Hid Hs [Hm Hd Ht].
  split; [by rewrite Hs by lia | by rewrite (ld_same _ m) by (intros; apply Hs; lia) |].
  by destruct a as [[t n]|]; rewrite (ld_same _ m) by (intros; apply Hs; lia).
Qed.
End Cleanup.

(** ** Critical sections *)

(** A thread whose id can be told from "no thread". *)
Definition tgid_ok (w : world) : Prop :=
  0 <= cur_tgid w < 2 ^ 32 /\ cur_tgid w <> SPINLOCK_HWID_NONE.

Section Critical.
Context {S : Shm} {OK : ShmOk S} {K : Kernel} {HQ : Quiet K} {B : Type}.

Lemma wp_SpinLock id (k : unit -> M B) (Q : B -> world -> Prop) w :
  0 <= id <= 11 -> tgid_ok w -> lock_is (mm w) id None ->
  (forall m', lock_is m' id (Some (cur_tgid w, 1)) ->
     same_out (spin_entry id) 12 (mm w) m' -> wp (k tt) Q (set_mm w m')) ->
  wp (comm_SpinLock id ≫= k) Q w.
Proof.
  intros Hid [Ht Hn] Ha H. unfold comm_SpinLock. apply wp_assoc.
  eapply wp_call; [by apply (spinLock_wp id 2 w None)|].
  intros r w' (m' & -> & _ & H1 & _ & H2). wp_step. apply H; [done|].
  eapply same_out_weaken; [exact H2 | lia | lia].
Qed.

Lemma wp_SpinUnLock id (k : unit -> M B) (Q : B -> world -> Prop) w t :
  0 <= id <= 11 -> lock_is (mm w) id (Some (t, 1)) ->
  (forall m', lock_is m' id None ->
     same_out (spin_entry id) 12 (mm w) m' -> wp (k tt) Q (set_mm w m')) ->
  wp (comm_SpinUnLock id ≫= k) Q w.
Proof.
  intros Hid Ha H. eapply wp_call; [apply (comm_SpinUnLock_wp id w _ Hid Ha); simpl; lia|].
  intros [] w' (m' & -> & H1 & _ & H2). apply H; [done|].
  eapply same_out_weaken; [exact H2 | lia | lia].
Qed.

Lemma wp_SpinUnLock_last id (Q : unit -> world -> Prop) w t :
  0 <= id <= 11 -> lock_is (mm w) id (Some (t, 1)) ->
  (forall m', lock_is m' id None ->
     same_out (spin_entry id) 12 (mm w) m' -> Q tt (set_mm w m')) ->
  wp (comm_SpinUnLock id) Q w.
Proof.
  intros Hid Ha H. eapply wp_mono; [apply (comm_SpinUnLock_wp id w _ Hid Ha); simpl; lia|].
  intros [] w' (m' & -> & H1 & _ & H2). apply H; [done|].
  eapply same_out_weaken; [exact H2 | lia | lia].
Qed.

(** The entry survives what does not touch it. *)
Lemma lock_is_out lo n m m' id a :
  0 <= id <= 11 -> spin_entry id + 12 <= lo \/ lo + n <= spin_entry id ->
  same_out lo n m m' -> lock_is m id a -> lock_is m' id a.
Proof.
  intros Hid Hd Hs. apply lock_is_same; [done|]. intros x Hx. apply Hs. lia.
Qed.
End Critical.

(** ** Properties *)

(** The lock table as [comm_InitSpinLock] leaves it. *)
Definition locks_world : world :=
  after (comm_InitSpinLock (fun _ w => (0xBF0B0000, w)) (fun _ w => w)) blank_world.

Lemma locks_world_free id : In id [0;1;2;3;4;5;6;7;8;9;10;11] ->
  lock_is (mm locks_world) id None.
Proof.
  simpl. intros H. repeat destruct H as [<-|H]; try done; split; vm_compute; reflexivity.
Qed.

(** [comm_SpinUnLock] does not look at the caller: any thread's unlock takes one level off the
    lock another thread holds, and releases it at depth 1.  Since [comm_SpinLock] drops the status
    of [spinLock], a caller whose attempt ended in -EBUSY later releases the real holder's lock. *)
Theorem unlock_ignores_owner {S : Shm} {OK : ShmOk S} {K : Kernel} {HQ : Quiet K} id w t n :
  0 <= id <= 11 -> lock_is (mm w) id (Some (t, n)) -> n < 2 ^ 31 - 1 ->
  0 <= cur_tgid w < 2 ^ 32 -> cur_tgid w <> SPINLOCK_HWID_NONE -> t <> cur_tgid w ->
  exists m', (comm_SpinLock id ;; comm_SpinUnLock id) w = Ret tt (set_mm w m') /\
    lock_is m' id (if n =? 1 then None else Some (t, n - 1)).
Proof.
  intros Hid Ha Hn Hme Hne Ht.
  assert (wp (comm_SpinLock id ;; comm_SpinUnLock id) (fun _ w' => exists m', w' = set_mm w m' /\
    lock_is m' id (if n =? 1 then None else Some (t, n - 1))) w) as Hw.
  { unfold comm_SpinLock. apply wp_assoc. eapply wp_call; [by apply (spinLock_wp id 2 w _ Hid Ha)|].
    intros r w' (m' & -> & -> & H & _). simpl in H. rewrite eqb_neq_false in H by done.
    wp_step. eapply wp_mono; [apply (comm_SpinUnLock_wp id (set_mm w m') _ Hid H); simpl; lia|].
    intros _ w' (m2 & -> & H2 & _). by exists m2. }
  destruct (wp_run _ _ _ Hw) as ([] & w' & E & m' & -> & H). by exists m'.
Qed.

Lemma unlock_ignores_owner_witness :
  lock_is (mm (after (comm_SpinLock 5) (set_tgid locks_world 7))) 5 (Some (7, 1)) /\
  exists m', lock_is m' 5 None.
Proof.
  assert (H : lock_is (mm (after (comm_SpinLock 5) (set_tgid locks_world 7))) 5 (Some (7, 1))).
  { split; vm_compute; [reflexivity | reflexivity | repeat split; congruence]. }
  split; [exact H|].
  destruct (unlock_ignores_owner 5 (set_tgid (after (comm_SpinLock 5) (set_tgid locks_world 7)) 8) 7 1)
    as (m' & _ & Hm); [lia | exact H | lia | simpl; lia | discriminate | discriminate |].
  by exists m'.
Defined.

(** The CPU-reset sweep resets exactly the entries whose owner byte names the CPU.  But every
    lock operation leaves the owner byte at "free", so a lock that a thread has taken is still
    taken after the sweep, for either CPU: the sweep does not release held locks. *)
Theorem cleanup_keeps_held_lock {S : Shm} {OK : ShmOk S} {K : Kernel} {HQ : Quiet K} id mode cpu w a :
  0 <= id <= 11 -> cpu = CPU_ID_ARM \/ cpu = CPU_ID_MIPS -> lock_is (mm w) id a ->
  0 <= cur_tgid w < 2 ^ 32 -> cur_tgid w <> SPINLOCK_HWID_NONE -> abs_depth a < 2 ^ 31 - 1 ->
  exists r m', (r ← spinLock id mode; comm_SpinLockCleanUpInCPUReset cpu ;; mret r) w
                 = Ret r (set_mm w m') /\
    lock_is m' id (snd (abs_lock (cur_tgid w) mode a)).
Proof.
  intros Hid Hcpu Ha Hme Hne Hd. unfold CPU_ID_ARM, CPU_ID_MIPS in Hcpu.
  assert (wp (r ← spinLock id mode; comm_SpinLockCleanUpInCPUReset cpu ;; mret r)
    (fun r w' => exists m', w' = set_mm w m' /\
       lock_is m' id (snd (abs_lock (cur_tgid w) mode a))) w) as Hw.
  { eapply wp_call; [by apply (spinLock_wp id mode w _ Hid Ha)|].
    intros r w' (m1 & -> & _ & H1 & Ho & _).
    eapply wp_call; [apply (cleanup_wp cpu (set_mm w m1)); lia|].
    intros _ w' (m2 & -> & _ & H2). wp_step. exists m2. split; [done|].
    specialize (H2 id Hid). unfold entry_swept in H2. rewrite mm_set_mm, Ho in H2.
    rewrite (eqb_neq_false SPINLOCK_FREE) in H2 by (unfold SPINLOCK_FREE; lia).
    by eapply lock_is_same. }
  destruct (wp_run _ _ _ Hw) as (r & w' & E & m' & -> & H). by exists r, m'.
Qed.

Lemma cleanup_keeps_held_lock_witness : exists m', lock_is m' 3 (Some (1234, 1)).
Proof.
  destruct (cleanup_keeps_held_lock 3 2 CPU_ID_ARM locks_world None) as (r & m' & _ & H);
    [lia | by left | apply locks_world_free; vm_compute; tauto | vm_compute; split; congruence
    | discriminate | reflexivity |].
  by exists m'.
Defined.
