(* ===== verification/SpinConc.v ===== *)
(** Several threads at one software spinlock.  What a call of [spinLock] does
    while other threads lock and unlock whenever it waits; mutual exclusion as
    long as the attempts to take the lock do not overlap; and the run in which
    they do overlap and two threads get the lock. *)
From S2P Require Import Prelude Mem Kernel Shm SpinLock.

(** ** A call among others

    While a call waits - for the hardware lock, or in schedule() - other threads
    run and may lock and unlock entry [id]: they leave it in any state that is a
    lock, and give the CPU back. *)

Section Waits.
Context {S : Shm} {OK : ShmOk S} {K : Kernel}.

Definition lock_here (id : Z) (w : world) : Prop :=
  exists a, lock_is (mm w) id a /\ abs_depth a < 2 ^ 31 - 1.

(** The thread [t] goes on after others ran. *)
Definition goes_on (id t : Z) (w : world) : Prop := lock_here id w /\ cur_tgid w = t.

Class Shared (id : Z) : Prop := {
  schedule_shared t w : goes_on id t w -> goes_on id t (schedule w);
  hwspin_shared t h ms w : goes_on id t w -> goes_on id t (snd (hwspin_lock_timeout h ms w));
  hwspin_unlock_shared h w : hwspin_unlock h w = w;
}.

(** The world in which an attempt that begins in [w] finds the entry. *)
Definition after_hwlock (id : Z) (w : world) : world :=
  snd (hwspin_lock_timeout (ld32 (mm w) (hwlock (id + SPINLOCK_HW_OFFSET))) 50 w).

(** What an attempt leaves of the entry's memory. *)
Definition attempt_leaves (id : Z) (w : world) (a : lock_abs) (m' : mem) : Prop :=
  lock_is m' id a /\ ld 1 m' (spin_entry id + 3) = SPINLOCK_FREE /\ lock_frame (mm w) m' id.

(** A call with [n] attempts left, status [r]: an attempt that finds the lock
    free or its own takes it, in try mode any attempt ends the call; else the
    others run and there is one attempt less; at the end the status is -EBUSY. *)
Inductive lock_call (id mode : Z) : nat -> world -> Z -> world -> Prop :=
| call_gives_up w : lock_call id mode 0 w (- EBUSY) w
| call_ends n w a m' : let w1 := after_hwlock id w in
    lock_is (mm w1) id a ->
    mode = 0 \/ match a with None => True | Some (t, _) => t = cur_tgid w end ->
    attempt_leaves id w1 (snd (abs_lock (cur_tgid w) mode a)) m' ->
    lock_call id mode (Datatypes.S n) w (fst (abs_lock (cur_tgid w) mode a)) (set_mm w1 m')
| call_waits n w t d m' r w' : let w1 := after_hwlock id w in
    lock_is (mm w1) id (Some (t, d)) -> t <> cur_tgid w -> mode <> 0 ->
    attempt_leaves id w1 (Some (t, d)) m' ->
    lock_call id mode n (schedule (set_mm w1 m')) r w' ->
    lock_call id mode (Datatypes.S n) w r w'.

Context (id : Z) {HS : Shared id}.
Hypothesis Hid : 0 <= id <= 11.

Lemma claims_shared t w : goes_on id t w -> claims id w (after_hwlock id w).
Proof.
  intros H. pose proof (hwspin_shared t (ld32 (mm w) (hwlock (id + SPINLOCK_HW_OFFSET))) 50 w H) as [_ E].
  pose proof (spin_entry_at id Hid). shm_facts. destruct H as [_ <-]. split; [done|].
  assert (W : wp (enterCritical id) (fun _ w' => w' = set_mm (after_hwlock id w)
    (st 1 (mm (after_hwlock id w)) (spin_entry id + 3) CPU_ID_ARM)) w).
  { unfold after_hwlock, enterCritical, hwlock, SPINLOCK_HW_OFFSET, SPINLOCK_OFF_OWNER, getCurCPUID.
    wp_step. apply wp_bind. unfold wp at 1, k_hwspin_lock_timeout, lift_env.
    destruct (hwspin_lock_timeout _ 50 w) as [r w1]. simpl. destruct (negb (r =? 0)); [by wp_step|].
    wp_step. wp_step. unfold k_hwspin_unlock, wp, modify. by rewrite hwspin_unlock_shared. }
  destruct (wp_run _ _ _ W) as ([] & w' & -> & ->). done.
Qed.

Lemma body_call mode retries t w : goes_on id t w -> 0 <= t < 2 ^ 32 -> t <> SPINLOCK_HWID_NONE ->
  0 <= retries < 10000 ->
  wp (spinLock_body id mode retries) (fun r w' =>
    match r with
    | inr r => forall n, lock_call id mode (Datatypes.S n) w r w'
    | inl k => k = retries + 1 /\ goes_on id t w' /\
        forall n r w2, lock_call id mode n w' r w2 -> lock_call id mode (Datatypes.S n) w r w2
    end) w.
Proof.
  intros Hg Ht Hne Hr. pose proof (claims_shared t w Hg) as Hc.
  assert (H1 : goes_on id t (after_hwlock id w)) by (by apply hwspin_shared).
  destruct Hg as [_ <-]. destruct H1 as [(a & Ha & Hd) E1].
  assert (match a with None => True | Some (u, _) => u = cur_tgid w end \/
    exists u d, a = Some (u, d) /\ u <> cur_tgid w) as [Hm|(u & d & -> & Hu)].
  { destruct a as [[u d]|]; [|by left]. destruct (decide (u = cur_tgid w)); eauto. }
  - eapply wp_mono; [apply (spinLock_body_take id mode retries w (after_hwlock id w) a); done|].
    intros r w' (m' & -> & -> & L1 & F1 & O1) n. apply (call_ends id mode n w a); [done | by right | done].
  - eapply wp_mono; [apply (spinLock_body_busy id mode retries w (after_hwlock id w) u d); done|].
    intros r w' (m' & -> & -> & L1 & F1 & O1). destruct (Z.eqb_spec mode 0) as [Hm|Hm].
    + subst mode. intros n. pose proof (call_ends id 0 n w (Some (u, d)) m' Ha (or_introl eq_refl)) as H.
      simpl in H. rewrite (eqb_neq_false u) in H by done. by apply H.
    + split; [done|]. split.
      * apply schedule_shared. split; [by exists (Some (u, d)) | done].
      * intros n r w2 H. by apply (call_waits id mode n w u d m').
Qed.

Lemma spinLock_call_wp mode w : lock_here id w -> 0 <= cur_tgid w < 2 ^ 32 -> cur_tgid w <> SPINLOCK_HWID_NONE ->
  wp (spinLock id mode) (fun r w' => lock_call id mode (Z.to_nat 10000) w r w') w.
Proof.
  intros Hl Ht Hne. pose proof (spin_entry_at id Hid). unfold spinLock, SPINLOCK_MAX_ID. wp_test. wp_step.
  pose proof Hl as (a & Ha & Hd). pose proof (ld32_range (mm w) (spin_entry id + 4)) as Hr.
  rewrite (li_depth _ _ _ Ha) in *. rewrite s32_small by lia. wp_test.
  apply (wp_loop (fun k r w' => Z.of_nat k = 10000 - r /\ 0 <= r <= 10000 /\ goes_on id (cur_tgid w) w' /\
    forall q w2, lock_call id mode k w' q w2 -> lock_call id mode (Z.to_nat 10000) w q w2) _ _ _ (Z.to_nat 10000)).
  - unfold spinLock_fuel. lia.
  - ands; [rewrite Z2Nat.id by lia; lia | lia | lia | by split | done].
  - intros k r w1 (Hk & Hr1 & Hg & Hc). destruct (decide (r = 10000)) as [->|Hr'].
    + unfold spinLock_body. wp_test. wp_step. apply Hc. assert (k = O) as -> by lia. constructor.
    + destruct k as [|k]; [lia|]. eapply wp_mono; [by apply (body_call mode r (cur_tgid w) w1); try lia|].
      intros [q|q] w2.
      * intros (-> & Hg2 & H2). exists k. ands; [lia | lia | lia | lia | done |]. intros q w3 H3. by apply Hc, H2.
      * intros H2. by apply Hc.
Qed.
End Waits.

(** ** Attempts of several threads, one after the other

    [ls_pc t] is the call thread [t] is in: its mode and the attempts it has
    made; [ls_hold t] is what it knows: how many of its calls were granted
    (status 1 or 2) and not yet undone.  A thread unlocks only what it was
    granted.  A step is one attempt, so between two attempts of a call - in
    schedule() - anything may happen; but an attempt is not interrupted. *)

Definition upd {A} (h : Z -> A) (t : Z) (n : A) : Z -> A := fun x => if x =? t then n else h x.

Record lock_state := LockState { ls_w : world; ls_pc : Z -> option (Z * Z); ls_hold : Z -> Z }.

Definition thread_ok (t n : Z) : Prop := 0 <= t < 2 ^ 32 /\ t <> SPINLOCK_HWID_NONE /\ n < 2 ^ 31 - 2.

Section Exclusion.
Context {S : Shm} {K : Kernel}.

Inductive lock_step (id : Z) : lock_state -> lock_state -> Prop :=
| ls_enter w pc h t mode : pc t = None -> thread_ok t (h t) ->
    0 <= s32 (ld32 (mm w) (spin_entry id + 4)) ->
    lock_step id (LockState w pc h) (LockState w (upd pc t (Some (mode, 0))) h)
| ls_retry w w' pc h t mode n n' : pc t = Some (mode, n) ->
    spinLock_body id mode n (set_tgid w t) = Ret (inl n') w' ->
    lock_step id (LockState w pc h) (LockState w' (upd pc t (Some (mode, n'))) h)
| ls_return w w' pc h t mode n r : pc t = Some (mode, n) ->
    spinLock_body id mode n (set_tgid w t) = Ret (inr r) w' ->
    lock_step id (LockState w pc h)
      (LockState w' (upd pc t None) (if 0 <? r then upd h t (h t + 1) else h))
| ls_unlock w w' pc h t : pc t = None -> 0 < h t -> comm_SpinUnLock id (set_tgid w t) = Ret tt w' ->
    lock_step id (LockState w pc h) (LockState w' pc (upd h t (h t - 1))).

(** The entry records exactly what the threads believe. *)
Definition agrees (a : lock_abs) (h : Z -> Z) : Prop :=
  match a with
  | None => forall t, h t = 0
  | Some (t, n) => h t = n /\ forall u, u <> t -> h u = 0
  end.

Definition lock_inv (id : Z) (s : lock_state) : Prop :=
  (exists a, lock_is (mm (ls_w s)) id a /\ abs_depth a < 2 ^ 31 - 1 /\ agrees a (ls_hold s)) /\
  forall t mode n, ls_pc s t = Some (mode, n) -> thread_ok t (ls_hold s t) /\ 0 <= n <= 10000.

Context {OK : ShmOk S} {HQ : Quiet K}.

Lemma agrees_lock a h t mode : agrees a h -> abs_depth a < 2 ^ 31 - 1 -> thread_ok t (h t) ->
  let r := fst (abs_lock t mode a) in let a' := snd (abs_lock t mode a) in
  let h' := if 0 <? r then upd h t (h t + 1) else h in
  agrees a' h' /\ abs_depth a' < 2 ^ 31 - 1.
Proof.
  intros Ha Hd (_ & _ & Ht). destruct a as [[u n]|]; simpl in *.
  - destruct Ha as [<- Hh]. destruct (Z.eqb_spec u t) as [->|Hut]; simpl.
    + unfold upd. rewrite Z.eqb_refl. ands; [done | | lia]. intros v Hv. rewrite eqb_neq_false by done. by apply Hh.
    + by destruct (mode =? 0).
  - unfold upd. rewrite Z.eqb_refl, Ha. ands; [done | | lia]. intros v Hv. by rewrite eqb_neq_false.
Qed.

Lemma agrees_unlock a h t : agrees a h -> 0 < h t -> agrees (abs_unlock a) (upd h t (h t - 1)).
Proof.
  intros Ha Ht. destruct a as [[u n]|]; simpl in *; [|rewrite Ha in Ht; lia].
  destruct Ha as [<- Hh]. destruct (decide (u = t)) as [->|Hut]; [|rewrite (Hh t) in Ht by done; lia].
  unfold upd. destruct (Z.eqb_spec (h t) 1) as [E|E]; simpl.
  - intros v. destruct (Z.eqb_spec v t); [lia | by apply Hh].
  - rewrite Z.eqb_refl. split; [done|]. intros v Hv. rewrite eqb_neq_false by done. by apply Hh.
Qed.

(** One attempt, on a lock in any state. *)
Lemma lock_attempt_wp id mode n t w a : 0 <= id <= 11 -> 0 <= n <= 10000 -> 0 <= t < 2 ^ 32 ->
  t <> SPINLOCK_HWID_NONE -> lock_is (mm w) id a -> abs_depth a < 2 ^ 31 - 1 ->
  wp (spinLock_body id mode n) (fun r w' =>
    match r with
    | inl k => lock_is (mm w') id a /\ 0 <= k <= 10000
    | inr r => (r = - EBUSY /\ lock_is (mm w') id a) \/
        r = fst (abs_lock t mode a) /\ lock_is (mm w') id (snd (abs_lock t mode a))
    end) (set_tgid w t).
Proof.
  intros Hid Hn Ht Hne Ha Hd. destruct (decide (n = 10000)) as [->|Hn'].
  { unfold spinLock_body. wp_test. wp_step. by left. }
  pose proof (claims_quiet id (set_tgid w t) Hid) as Hc.
  assert (match a with None => True | Some (u, _) => u = t end \/ exists u d, a = Some (u, d) /\ u <> t) as [Hm|(u & d & -> & Hu)].
  { destruct a as [[u d]|]; [|by left]. destruct (decide (u = t)); eauto. }
  - eapply wp_mono; [apply (spinLock_body_take id mode n _ (set_tgid w t) a); try done; lia|].
    intros r w' (m' & -> & -> & L1 & _). by right.
  - eapply wp_mono; [apply (spinLock_body_busy id mode n _ (set_tgid w t) u d); try done; lia|].
    intros r w' (m' & -> & -> & L1 & _). rewrite schedule_quiet. simpl. rewrite (eqb_neq_false u) by done.
    destruct (mode =? 0); [by right | split; [done | lia]].
Qed.

Lemma lock_inv_step id s s' : 0 <= id <= 11 -> lock_inv id s -> lock_step id s s' -> lock_inv id s'.
Proof.
  intros Hid [(a & Ha & Hd & Hh) Hpc] Hs.
  destruct Hs as [w pc h t mode E Ht _|w w' pc h t mode n n' E Hr|w w' pc h t mode n r E Hr|w w' pc h t E Hht Hr]; simpl in *.
  - split; [by exists a|]. simpl. intros u md n. unfold upd. destruct (Z.eqb_spec u t) as [->|]; [|apply Hpc].
    intros [= <- <-]. split; [done | lia].
  - destruct (Hpc _ _ _ E) as [Ht Hn]. pose proof Ht as (Ht1 & Ht2 & _).
    eapply wp_Ret in Hr; [|by apply (lock_attempt_wp id mode n t w a)]. destruct Hr as [Ha' Hk].
    split; [by exists a|]. simpl. intros u md q. unfold upd. destruct (Z.eqb_spec u t) as [->|]; [|apply Hpc].
    intros [= <- <-]. by split.
  - destruct (Hpc _ _ _ E) as [Ht Hn]. pose proof Ht as (Ht1 & Ht2 & _).
    eapply wp_Ret in Hr; [|by apply (lock_attempt_wp id mode n t w a)].
    assert (Hp : forall h' : Z -> Z, (forall u, u <> t -> h' u = h u) -> forall u md q, upd pc t None u = Some (md, q) ->
      thread_ok u (h' u) /\ 0 <= q <= 10000).
    { intros h' Hh' u md q. unfold upd. destruct (Z.eqb_spec u t) as [->|Hne]; [done|].
      intros Eu. rewrite (Hh' u Hne). by apply (Hpc u md). }
    destruct Hr as [[-> Ha']|[-> Ha']].
    + split; [by exists a|]. by apply Hp.
    + destruct (agrees_lock a h t mode Hh Hd Ht) as [Hh' Hd']. split; [by eexists|]. simpl. apply Hp.
      intros u Hu. destruct (0 <? _); [|done]. unfold upd. by rewrite eqb_neq_false.
  - eapply wp_Ret in Hr; [|apply (comm_SpinUnLock_wp id (set_tgid w t) a); [done | done | lia]].
    destruct Hr as (m' & -> & Ha' & _). split.
    + exists (abs_unlock a). simpl. ands; [done | | by apply agrees_unlock].
      destruct a as [[u d]|]; simpl in *; [|lia]. destruct (d =? 1); simpl; lia.
    + simpl. intros u md n Eu. unfold upd. destruct (Z.eqb_spec u t) as [->|]; [congruence | by apply (Hpc u md)].
Qed.
End Exclusion.

(** ** Attempts that overlap

    The other thread runs as soon as the hardware lock is given back. *)

Section Race.
Context {S : Shm} {OK : ShmOk S} (K : Kernel) {HQ : Quiet K}.

(** Thread [u] takes lock [id] by a call of its own. *)
Definition other_locks (id u : Z) (w : world) : world :=
  match spinLock id 2 (set_tgid w u) with Ret _ w' => set_tgid w' (cur_tgid w) | Stop _ => w end.

Definition preempted (other : world -> world) : Kernel := {|
  sema_init := @sema_init K; down := @down K; up := @up K; down_timeout := @down_timeout K;
  schedule := @schedule K; msleep := @msleep K; hwspin_lock_timeout := @hwspin_lock_timeout K;
  hwspin_trylock := @hwspin_trylock K; hwspin_unlock h w := other w;
|}.

Lemma enter_preempted other id w : 0 <= id <= 11 -> (forall h ms w, fst (hwspin_lock_timeout h ms w) = 0) ->
  @enterCritical S (preempted other) id w =
    Ret tt (other (set_mm w (st 1 (mm w) (spin_entry id + 3) CPU_ID_ARM))).
Proof.
  intros Hid Hg. pose proof (spin_entry_at id Hid). shm_facts.
  assert (W : wp (@enterCritical S (preempted other) id)
    (fun _ w' => w' = other (set_mm w (st 1 (mm w) (spin_entry id + 3) CPU_ID_ARM))) w).
  { unfold enterCritical, hwlock, SPINLOCK_HW_OFFSET, SPINLOCK_OFF_OWNER, getCurCPUID.
    wp_step. apply wp_bind. unfold wp at 1, k_hwspin_lock_timeout, lift_env. cbn [hwspin_lock_timeout preempted].
    match goal with |- context [hwspin_lock_timeout ?h ?ms w] =>
      pose proof (Hg h ms w) as E1; pose proof (hwspin_lock_timeout_quiet h ms w) as E2;
      destruct (hwspin_lock_timeout h ms w) as [r w2] end.
    simpl in E1, E2. subst r w2. change (negb (0 =? 0)) with false. cbn iota. wp_step. wp_step. done. }
  by destruct (wp_run _ _ _ W) as ([] & w' & E & ->).
Qed.

(** The owner byte says "free" when the thread looks at it: it takes the lock a second time. *)
Lemma claim_taken K' id mode n w m1 : 0 <= id <= 11 -> 0 <= n < 10000 -> tgid_ok w ->
  @enterCritical S K' id w = Ret tt (set_mm w m1) -> ld 1 m1 (spin_entry id + 3) = SPINLOCK_FREE ->
  ld8 m1 (spin_entry id + 2) = 0 -> ld32 m1 (spin_entry id + 4) = 1 ->
  wp (@spinLock_body S K' id mode n) (fun r w' => r = inr 2 /\ exists m2, w' = set_mm w m2 /\
    lock_is m2 id (Some (cur_tgid w, 2))) w.
Proof.
  intros Hid Hn [Ht Hne] E H3 H2 H4. pose proof (spin_entry_at id Hid).
  unfold spinLock_body, leaveCritical, SPINLOCK_OFF_OWNER, SPINLOCK_OFF_MUTEX.
  unfold getCurCPUID, CPU_ID_ARM, SPINLOCK_FREE, SPINLOCK_HWID_NONE in *.
  wp_test. eapply wp_eq; [exact E|]. do 2 wp_step. rewrite ?mm_set_mm, H3. change (2 =? 0) with false. change (2 =? 2) with true.
  cbn iota. wp_go. split; [done|]. memsimp. rewrite H4. eexists. split; [done|].
  split; simpl; memsimp; [done | done | u32s; by ands; [| | lia]].
Qed.

(** The world in which thread [u] comes in: the first thread's enterCritical has
    written the owner byte and gives the hardware lock back. *)
Definition handed_back (id u : Z) (w : world) : world :=
  set_tgid (set_mm w (st 1 (mm w) (spin_entry id + 3) CPU_ID_ARM)) u.

Lemma race_wp id mode u w : 0 <= id <= 11 -> lock_is (mm w) id None -> tgid_ok w ->
  0 <= u < 2 ^ 32 -> u <> SPINLOCK_HWID_NONE -> (forall h ms w, fst (hwspin_lock_timeout h ms w) = 0) ->
  let w0 := handed_back id u w in
  exists m1 m2, spinLock id 2 w0 = Ret 2 (set_mm w0 m1) /\ lock_is m1 id (Some (u, 1)) /\
    @spinLock S (preempted (other_locks id u)) id mode w = Ret 2 (set_mm w m2) /\
    lock_is m2 id (Some (cur_tgid w, 2)).
Proof.
  intros Hid Ha Ht Hu Hun Hg w0. pose proof (spin_entry_at id Hid). pose proof Ha as [Hmx Hd Htid]. simpl in Hd.
  assert (Ha0 : lock_is (mm w0) id None) by (split; simpl; memsimp; done).
  destruct (wp_run _ _ _ (spinLock_wp id 2 w0 None Hid Ha0 Hu Hun ltac:(simpl; lia)))
    as (r & w1 & E & m1 & -> & -> & L1 & F1 & _). simpl in E, L1.
  assert (Eo : other_locks id u (set_mm w (st 1 (mm w) (spin_entry id + 3) CPU_ID_ARM)) = set_mm w m1).
  { unfold other_locks. change (set_tgid _ u) with w0. rewrite E. by destruct w. }
  pose proof (enter_preempted (other_locks id u) id w Hid Hg) as Een. rewrite Eo in Een. pose proof L1 as [Lx Ld _].
  assert (W : wp (@spinLock S (preempted (other_locks id u)) id mode)
    (fun r w' => r = 2 /\ exists m2, w' = set_mm w m2 /\ lock_is m2 id (Some (cur_tgid w, 2))) w).
  { unfold spinLock, SPINLOCK_MAX_ID. wp_test. wp_step. rewrite Hd. change (s32 0 <? 0) with false. cbn iota.
    change spinLock_fuel with (Datatypes.S (Z.to_nat 10001)). generalize (Z.to_nat 10001). intros fuel. cbn [loop].
    eapply wp_call; [by apply (claim_taken (preempted (other_locks id u)) id mode 0 w m1)|].
    intros r w' (-> & m2 & -> & L2). wp_step. split; [done|]. by exists m2. }
  destruct (wp_run _ _ _ W) as (r & w' & E2 & -> & m2 & -> & L2). exists m1, m2. by ands.
Qed.
End Race.

(** ** Properties *)

(** C16: Taking a software spinlock, whatever the mode, while other threads lock and unlock whenever
    the call waits (for the hardware lock, or in schedule()): the call always returns, after at most
    10000 attempts.  An attempt that finds the lock free takes it (status 2), one that finds the
    caller's own lock nests it one deeper (status 1); one that finds another thread's lock leaves it
    as it is, and ends the call with status 0 in try mode; in the other modes the others run and the
    next attempt looks at what they left, and when all attempts are used up the status is -EBUSY and
    the lock is not the caller's.  An attempt changes only the entry's owner, depth and thread
    fields, leaves the owner byte "free", and is not itself interrupted. *)
Theorem spinLock_refines {S : Shm} {OK : ShmOk S} {K : Kernel} id {HS : Shared id} mode w :
  0 <= id <= 11 -> lock_here id w -> 0 <= cur_tgid w < 2 ^ 32 -> cur_tgid w <> SPINLOCK_HWID_NONE ->
  exists r w', spinLock id mode w = Ret r w' /\ lock_call id mode (Z.to_nat 10000) w r w'.
Proof.
  intros Hid Hl Ht Hn.
  destruct (wp_run _ _ _ (spinLock_call_wp id Hid mode w Hl Ht Hn)) as (r & w' & E & H). by exists r, w'.
Qed.

(** A kernel in which thread 7 unlocks entry 5 whenever somebody waits. *)
Definition release_by_7 (w : world) : world :=
  match @comm_SpinUnLock hy310_shm SimpleKernel 5 (set_tgid w 7) with
  | Ret _ w' => set_tgid w' (cur_tgid w)
  | Stop _ => w
  end.

Definition releasing : Kernel := {|
  sema_init := @sema_init SimpleKernel; down := @down SimpleKernel; up := @up SimpleKernel;
  down_timeout := @down_timeout SimpleKernel; schedule := release_by_7; msleep _ w := w;
  hwspin_lock_timeout _ _ w := (0, w); hwspin_trylock _ w := (0, w); hwspin_unlock _ w := w;
|}.

Lemma releasing_shared : @Shared hy310_shm releasing 5.
Proof.
  split; [|done..]. intros t w [(a & Ha & Hd) <-]. simpl. unfold release_by_7.
  destruct (wp_run _ _ _ (@comm_SpinUnLock_wp hy310_shm _ SimpleKernel _ 5 (set_tgid w 7) a ltac:(lia) Ha ltac:(lia)))
    as ([] & w' & -> & m' & -> & Hl & _). split; [|done]. exists (abs_unlock a). split; [exact Hl|].
  destruct a as [[u d]|]; simpl in *; [|lia]. destruct (d =? 1); simpl; lia.
Qed.

Definition held_by_7 : world := after (@spinLock hy310_shm SimpleKernel 5 2) (set_tgid locks_world 7).

Lemma held_by_7_is : lock_is (mm held_by_7) 5 (Some (7, 1)).
Proof. split; vm_compute; [reflexivity | reflexivity | repeat split; congruence]. Qed.

Lemma spinLock_refines_witness : exists w', @spinLock hy310_shm releasing 5 2 (set_tgid held_by_7 1234) = Ret 2 w' /\
  @lock_call hy310_shm releasing 5 2 (Z.to_nat 10000) (set_tgid held_by_7 1234) 2 w'.
Proof.
  destruct (@spinLock_refines hy310_shm _ releasing 5 releasing_shared 2 (set_tgid held_by_7 1234)) as (r & w' & E & H);
    [lia | exists (Some (7, 1)); split; [exact held_by_7_is | simpl; lia] | vm_compute; split; congruence
    | vm_compute; congruence |].
  exists w'. assert (r = 2) as -> by (apply (f_equal (fun o => match o with Ret r _ => r | Stop _ => 0 end)) in E;
    vm_compute in E; congruence).
  split; [exact E | exact H].
Defined.

(** Mutual exclusion as long as attempts do not overlap.  Threads call spinLock in any mode and
    unlock what they were granted; between the attempts of a waiting call any of the others may run,
    but an attempt, like an unlock, runs from its first access of the entry to its last without
    another in between.  Then at most one thread holds the lock, and the depth and thread recorded
    in shared memory are exactly what that thread was granted.  (That attempts do not overlap is the
    hardware lock's task, which it fails: theorem lock_race.) *)
Theorem spinLock_mutual_exclusion {S : Shm} {OK : ShmOk S} {K : Kernel} {HQ : Quiet K} id w s :
  0 <= id <= 11 -> lock_is (mm w) id None ->
  star (lock_step id) (LockState w (fun _ => None) (fun _ => 0)) s ->
  (forall t u, 0 < ls_hold s t -> 0 < ls_hold s u -> t = u) /\
  (forall t, 0 < ls_hold s t ->
     ld32 (mm (ls_w s)) (spin_entry id + 4) = ls_hold s t /\
     ld32 (mm (ls_w s)) (spin_entry id + 8) = t).
Proof.
  intros Hid Hl Hs. assert (lock_inv id s) as [(a & [_ Hd Ht] & _ & Hh) _].
  { eapply star_invariant; [intros ? ? ? ?; by eapply lock_inv_step | | exact Hs].
    split; [exists None; by ands | done]. }
  destruct a as [[t n]|]; simpl in Hh; [|split; intros t; rewrite Hh; lia]. destruct Hh as [Hn Hh]. split.
  - intros u v Hu Hv. destruct (decide (u = t)), (decide (v = t)); subst; try done;
      rewrite Hh in * by done; lia.
  - intros u Hu. destruct (decide (u = t)) as [->|]; [|rewrite Hh in Hu by done; lia].
    simpl in Hd. by rewrite Hd, (proj1 Ht).
Qed.

(** Threads 7 and 8 call at the same time; 7 gets the lock, 8 has to wait. *)
Definition excl_w1 : world := after (spinLock_body 5 2 0) (set_tgid locks_world 7).
Definition excl_w2 : world := after (spinLock_body 5 2 0) (set_tgid excl_w1 8).
Definition excl_pc0 : Z -> option (Z * Z) := upd (upd (fun _ => None) 7 (Some (2, 0))) 8 (Some (2, 0)).
Definition excl_state : lock_state :=
  LockState excl_w2 (upd (upd excl_pc0 7 None) 8 (Some (2, 1))) (upd (fun _ => 0) 7 1).

Lemma spinLock_mutual_exclusion_witness :
  0 < ls_hold excl_state 7 /\
  ld32 (mm (ls_w excl_state)) (spin_entry 5 + 4) = ls_hold excl_state 7 /\
  ld32 (mm (ls_w excl_state)) (spin_entry 5 + 8) = 7.
Proof.
  assert (Hp : 0 < ls_hold excl_state 7) by reflexivity. split; [exact Hp|].
  destruct (spinLock_mutual_exclusion 5 locks_world excl_state) as [_ H];
    [lia | apply locks_world_free; vm_compute; tauto | | exact (H 7 Hp)].
  assert (Hok : forall t, t = 7 \/ t = 8 -> thread_ok t 0) by (intros t [->| ->]; vm_compute; intuition congruence).
  eapply star_right; [eapply star_right; [eapply star_right; [eapply star_right; [apply star_refl|]|]|]|].
  - apply (ls_enter 5 locks_world (fun _ => None) (fun _ => 0) 7 2); [reflexivity | apply Hok; by left | vm_compute; congruence].
  - apply (ls_enter 5 locks_world (upd (fun _ => None) 7 (Some (2, 0))) (fun _ => 0) 8 2);
      [reflexivity | apply Hok; by right | vm_compute; congruence].
  - apply (ls_return 5 locks_world excl_w1 excl_pc0 (fun _ => 0) 7 2 0 2); [reflexivity | vm_compute; reflexivity].
  - apply (ls_retry 5 excl_w1 excl_w2 (upd excl_pc0 7 None) (upd (fun _ => 0) 7 1) 8 2 0 1);
      [reflexivity | vm_compute; reflexivity].
Defined.

(** C2: The lock does not exclude, even where the hardware lock is always granted. enterCritical gives
    the hardware lock back before its caller looks at the entry, and leaveCritical marks the entry
    free whoever owns it: if, on a free lock, another thread of this CPU runs a whole call between
    the two, that call gets the lock (status 2, depth 1); the interrupted one then finds the owner
    byte "free", takes the lock as well (status 2), overwrites the thread and leaves depth 2 - two
    holders, in whatever mode the first one called. *)
Theorem lock_race {S : Shm} {OK : ShmOk S} (K : Kernel) {HQ : Quiet K} id mode u w :
  0 <= id <= 11 -> lock_is (mm w) id None -> tgid_ok w ->
  0 <= u < 2 ^ 32 -> u <> SPINLOCK_HWID_NONE -> (forall h ms w, fst (hwspin_lock_timeout h ms w) = 0) ->
  let w0 := handed_back id u w in
  exists m1 m2, spinLock id 2 w0 = Ret 2 (set_mm w0 m1) /\ lock_is m1 id (Some (u, 1)) /\
    @spinLock S (preempted K (other_locks K id u)) id mode w = Ret 2 (set_mm w m2) /\
    lock_is m2 id (Some (cur_tgid w, 2)).
Proof. intros. by apply race_wp. Qed.

Lemma lock_race_witness :
  let w0 := handed_back 5 8 (set_tgid locks_world 7) in
  exists m1 m2, spinLock 5 2 w0 = Ret 2 (set_mm w0 m1) /\ lock_is m1 5 (Some (8, 1)) /\
  @spinLock _ (preempted SimpleKernel (other_locks SimpleKernel 5 8)) 5 2 (set_tgid locks_world 7) =
    Ret 2 (set_mm (set_tgid locks_world 7) m2) /\
  lock_is m2 5 (Some (7, 2)).
Proof.
  apply (lock_race SimpleKernel 5 2 8 (set_tgid locks_world 7));
    [lia | apply locks_world_free; vm_compute; tauto | split; [split|]; vm_compute; congruence
    | lia | discriminate | reflexivity].
Defined.
