(* ===== verification/Flags.v ===== *)
(** The CPU status words of the shared region ([cpu_comm_mem.c]): ready, reset,
    application ready and notice requested, one 32-bit word per CPU, changed
    under software spinlock 3. *)
From S2P Require Import Prelude Mem Kernel Shm SpinLock.

Definition CPU_FLAG_OFFSET (cpu : Z) : Z := 0x4CDC + 4 * cpu.
Definition CPU_FLAG_READY : Z := 1.
Definition CPU_FLAG_NOT_READY : Z := 2.
Definition CPU_FLAG_APP_READY : Z := 4.
Definition CPU_FLAG_RESET : Z := 8.
Definition CPU_FLAG_NOTICE_REQ : Z := 8.

Section Flags.
Context {S : Shm} {K : Kernel}.

Definition cpu_flag (cpu : Z) : Z := ShMemAddrBase + CPU_FLAG_OFFSET cpu.

(** [*flag |= bits] and [*flag &= ~bits] *)
Definition flag_or (cpu bits : Z) : M unit :=
  v ← rd32 (cpu_flag cpu); wr32 (cpu_flag cpu) (v |. bits).
Definition flag_clear (cpu bits : Z) : M unit :=
  v ← rd32 (cpu_flag cpu); wr32 (cpu_flag cpu) (bic v bits).

(** Both magic words hold the marker; the second is read only after the first. *)
Definition magic_set : M bool :=
  m1 ← rd32 (ShMemAddrBase + SHMEM_OFF_MAGIC1);
  if negb (m1 =? CPU_COMM_MAGIC) then mret false else
  m2 ← rd32 (ShMemAddrBase + SHMEM_OFF_MAGIC2);
  mret (m2 =? CPU_COMM_MAGIC).

Definition setCPUReady (cpu_id : Z) : M unit :=
  if (ShMemAddrBase =? 0) || (1 <? cpu_id) then mret tt else
  ok ← magic_set;
  if negb ok then mret tt else
  comm_SpinLock 3 ;;
  flag_or cpu_id CPU_FLAG_READY ;;
  flag_clear cpu_id CPU_FLAG_NOT_READY ;;
  flag_clear cpu_id CPU_FLAG_RESET ;;
  flag_clear cpu_id CPU_FLAG_NOTICE_REQ ;;
  comm_SpinUnLock 3.

Definition setCPUnotReady (cpu_id : Z) : M unit :=
  if (ShMemAddrBase =? 0) || (1 <? cpu_id) then mret tt else
  comm_SpinLock 3 ;;
  flag_or cpu_id CPU_FLAG_NOT_READY ;;
  flag_clear cpu_id CPU_FLAG_READY ;;
  comm_SpinUnLock 3.

Definition flag_test (cpu bits : Z) : M Z :=
  v ← rd32 (cpu_flag cpu); mret (if (v &. bits) =? 0 then 0 else 1).

Definition isCPUReady (cpu_id : Z) : M Z :=
  if (1 <? cpu_id) || (ShMemAddrBase =? 0) then mret 0 else
  ok ← magic_set;
  if negb ok then mret 0 else flag_test cpu_id CPU_FLAG_READY.

Definition IsCPUReset (cpu_id : Z) : M Z :=
  if (1 <? cpu_id) || (ShMemAddrBase =? 0) then mret 0 else
  flag_test cpu_id CPU_FLAG_RESET.

Definition IsCurCPURest : M Z := IsCPUReset getCurCPUID.

(** The wait of [setCPUAppReady]: poll the other CPU's word every 10 ms, for at
    most [timeout_ms]. *)
Definition wait_app_ready (cpu : Z) : M unit :=
  loop (Z.to_nat 202) (fun timeout_ms =>
    v ← rd32 (cpu_flag cpu);
    if ((v &. CPU_FLAG_APP_READY) =? 0) && (0 <? timeout_ms) then
      k_msleep 10 ;; mret (inl (timeout_ms - 10))
    else mret (inr tt)) 2000.

Definition setCPUAppReady (cpu_id : Z) : M unit :=
  if (ShMemAddrBase =? 0) || (1 <? cpu_id) then mret tt else
  ok ← magic_set;
  if negb ok then mret tt else
  rdy ← isCPUReady cpu_id;
  if rdy =? 0 then mret tt else
  rst ← IsCPUReset cpu_id;
  if negb (rst =? 0) then mret tt else
  comm_SpinLock 3 ;;
  flag_or cpu_id CPU_FLAG_APP_READY ;;
  comm_SpinUnLock 3 ;;
  let other := Z.lxor cpu_id 1 in
  wait_app_ready other ;;
  v ← rd32 (cpu_flag other);
  if (v &. CPU_FLAG_APP_READY) =? 0 then
    comm_SpinLock 3 ;;
    flag_or other CPU_FLAG_APP_READY ;;
    comm_SpinUnLock 3
  else mret tt.

(** One CPU's word; the recursion for cpu 2 is one level deep. *)
Definition isCPUAppReady1 (cpu_id : Z) : M Z :=
  if ShMemAddrBase =? 0 then mret 0 else
  ok ← magic_set;
  if negb ok then mret 0 else
  v ← rd32 (cpu_flag cpu_id);
  if (v &. CPU_FLAG_APP_READY) =? 0 then
    assumed ← gets mips_app_ready_assumed;
    mret (if (cpu_id =? CPU_ID_MIPS) && negb (assumed =? 0) then 1 else 0)
  else mret 1.

Definition isCPUAppReady (cpu_id : Z) : M Z :=
  if 2 <? cpu_id then mret 0 else
  if cpu_id =? 2 then
    max_cpu ← rd32 (ShMemAddrBase + SHMEM_OFF_MAX_CPU);
    r0 ← (if (max_cpu &. 1) =? 0 then mret 1 else isCPUAppReady1 CPU_ID_ARM);
    r1 ← (if (max_cpu &. 2) =? 0 then mret 1 else isCPUAppReady1 CPU_ID_MIPS);
    mret (if (r0 =? 0) || (r1 =? 0) then 0 else 1)
  else isCPUAppReady1 cpu_id.

Definition isCPUNoticeReqed (cpu_id : Z) : M Z :=
  if 1 <? cpu_id then mret 1 else
  if ShMemAddrBase =? 0 then mret 1 else
  flag_test cpu_id CPU_FLAG_NOTICE_REQ.

Definition clearCPUNoticeReqed (cpu_id : Z) : M unit :=
  if ShMemAddrBase =? 0 then mret tt else
  ok ← magic_set;
  if negb ok then mret tt else
  comm_SpinLock 3 ;;
  flag_clear getCurCPUID CPU_FLAG_NOTICE_REQ ;;
  comm_SpinUnLock 3.

Definition checkNoticeReqedJob : M unit :=
  if ShMemAddrBase =? 0 then mret tt else
  comm_SpinLock 3 ;;
  for_ (Z.to_nat CPU_ID_MAX) 0 (fun other =>
    if other =? getCurCPUID then mret tt else IsCPUReset other ;; mret tt) ;;
  comm_SpinUnLock 3 ;;
  clearCPUNoticeReqed 0.

(** Phase 0 of [setCPUReset]: mark the CPU as stopped. *)
Definition setCPUReset_phase0 (cpu_id : Z) : M unit :=
  comm_SpinLock 3 ;;
  flag_clear cpu_id CPU_FLAG_READY ;;
  flag_clear cpu_id CPU_FLAG_APP_READY ;;
  flag_or cpu_id CPU_FLAG_NOT_READY ;;
  flag_or CPU_ID_ARM CPU_FLAG_NOTICE_REQ ;;
  flag_or CPU_ID_MIPS CPU_FLAG_NOTICE_REQ ;;
  comm_SpinUnLock 3.
End Flags.

(** ** The status word as bits *)

Lemma land_bit v i : 0 <= i -> ((v &. 2 ^ i) =? 0) = negb (Z.testbit v i).
Proof.
  intros Hi. destruct (Z.testbit v i) eqn:E; simpl.
  - apply Z.eqb_neq. intros H. apply (f_equal (fun z => Z.testbit z i)) in H.
    rewrite Z.land_spec, E, Z.pow2_bits_true, Z.bits_0 in H by lia. done.
  - apply Z.eqb_eq, Z.bits_inj_0. intros j. rewrite Z.land_spec, Z.pow2_bits_eqb by lia.
    destruct (Z.eqb_spec i j) as [->|]; [by rewrite E | by rewrite andb_false_r].
Qed.

Lemma u32_lor x y : u32 (x |. y) = u32 x |. u32 y.
Proof. unfold u32. rewrite <- !Z.land_ones by lia. apply Z.land_lor_distr_l. Qed.

Lemma u32_bic x y : u32 (bic x y) = bic (u32 x) y.
Proof.
  unfold u32, bic. rewrite <- !Z.land_ones by lia. apply Z.bits_inj'. intros n Hn.
  rewrite Z.land_spec, !Z.ldiff_spec, Z.land_spec.
  destruct (Z.testbit x n), (Z.testbit y n), (Z.testbit (Z.ones 32) n); done.
Qed.

(** Bits 0 to 3 of a word, and the rest. *)
Record status := Status {
  st_ready : bool; st_stopped : bool; st_app : bool; st_notice : bool; st_other : Z;
}.

Definition status_of (v : Z) : status :=
  Status (Z.testbit v 0) (Z.testbit v 1) (Z.testbit v 2) (Z.testbit v 3) (Z.shiftr v 4).

Definition st_or (s : status) (bits : Z) : status :=
  Status (st_ready s || Z.testbit bits 0) (st_stopped s || Z.testbit bits 1)
         (st_app s || Z.testbit bits 2) (st_notice s || Z.testbit bits 3) (st_other s).
Definition st_clear (s : status) (bits : Z) : status :=
  Status (st_ready s && negb (Z.testbit bits 0)) (st_stopped s && negb (Z.testbit bits 1))
         (st_app s && negb (Z.testbit bits 2)) (st_notice s && negb (Z.testbit bits 3))
         (st_other s).

Lemma status_of_or v bits :
  0 <= bits < 16 -> status_of (v |. bits) = st_or (status_of v) bits.
Proof.
  unfold status_of, st_or. intros Hb. cbn [st_ready st_stopped st_app st_notice st_other]. rewrite !Z.lor_spec, Z.shiftr_lor.
  f_equal. replace (Z.shiftr bits 4) with 0; [apply Z.lor_0_r|].
  rewrite Z.shiftr_div_pow2 by lia. symmetry. apply Z.div_small. lia.
Qed.

Lemma status_of_bic v bits :
  0 <= bits < 16 -> status_of (bic v bits) = st_clear (status_of v) bits.
Proof.
  unfold status_of, st_clear, bic. intros Hb. cbn [st_ready st_stopped st_app st_notice st_other]. rewrite !Z.ldiff_spec, Z.shiftr_ldiff.
  f_equal. replace (Z.shiftr bits 4) with 0; [apply Z.ldiff_0_r|].
  rewrite Z.shiftr_div_pow2 by lia. symmetry. apply Z.div_small. lia.
Qed.

Section FlagSpecs.
Context {S : Shm} {OK : ShmOk S} {K : Kernel}.

Definition cpu_status (m : mem) (cpu : Z) : status := status_of (ld32 m (cpu_flag cpu)).

Definition magic_ok (m : mem) : Prop :=
  ld32 m (ShMemAddrBase + SHMEM_OFF_MAGIC1) = CPU_COMM_MAGIC /\
  ld32 m (ShMemAddrBase + SHMEM_OFF_MAGIC2) = CPU_COMM_MAGIC.

Lemma cpu_flag_at cpu : cpu_flag cpu = ShMemAddrBase + 19676 + 4 * cpu.
Proof. unfold cpu_flag, CPU_FLAG_OFFSET. lia. Qed.

Lemma cpu_status_same cpu m m' :
  same_on (cpu_flag cpu) 4 m m' -> cpu_status m' cpu = cpu_status m cpu.
Proof. intros H. unfold cpu_status. by rewrite (ld_same _ m m') by (intros; by apply H). Qed.

(** The lock table and the two words are all that the handlers change. *)
Definition flags_frame (m m' : mem) : Prop := forall x,
  ~ (ShMemAddrBase <= x < ShMemAddrBase + 144) -> ~ (cpu_flag 0 <= x < cpu_flag 0 + 8) ->
  ld8 m' x = ld8 m x.

(** Where a handler stands: lock 3 is [lk], the words are [st 0] and [st 1]. *)
Record flags_at (m0 m : mem) (lk : lock_abs) (st : Z -> status) : Prop := FlagsAt {
  fl_lock : lock_is m 3 lk;
  fl_word : forall cpu, 0 <= cpu <= 1 -> cpu_status m cpu = st cpu;
  fl_frame : flags_frame m0 m;
}.

Definition upd_st (st : Z -> status) (cpu : Z) (s : status) : Z -> status :=
  fun c => if c =? cpu then s else st c.

Lemma flags_at_start m : lock_is m 3 None -> flags_at m m None (cpu_status m).
Proof. intros H. by split. Qed.

Lemma flags_at_magic m0 m lk st : magic_ok m0 -> flags_at m0 m lk st -> magic_ok m.
Proof.
  intros [H1 H2] [_ _ Hf]. pose proof (cpu_flag_at 0).
  unfold magic_ok, SHMEM_OFF_MAGIC1, SHMEM_OFF_MAGIC2 in *. shm_facts.
  rewrite !(ld_same _ m0 m) by (intros; apply Hf; lia). done.
Qed.

Lemma flags_at_lock_write m0 m m' lk lk' st :
  flags_at m0 m lk st -> lock_is m' 3 lk' -> same_out (spin_entry 3) 12 m m' ->
  flags_at m0 m' lk' st.
Proof.
  intros [H1 H2 H3] Hl Ho. pose proof (spin_entry_at 3 ltac:(lia)).
  pose proof (cpu_flag_at 0). split; [done | |].
  - intros cpu Hc. pose proof (cpu_flag_at cpu). rewrite <- H2 by done.
    apply cpu_status_same. intros x Hx. apply Ho. lia.
  - intros x Hx1 Hx2. rewrite Ho by lia. by apply H3.
Qed.

Lemma flags_at_word_write m0 m m' lk st cpu :
  flags_at m0 m lk st -> 0 <= cpu <= 1 -> same_out (cpu_flag cpu) 4 m m' ->
  flags_at m0 m' lk (upd_st st cpu (cpu_status m' cpu)).
Proof.
  intros [H1 H2 H3] Hc Ho. pose proof (spin_entry_at 3 ltac:(lia)).
  pose proof (cpu_flag_at cpu). pose proof (cpu_flag_at 0). split.
  - eapply lock_is_out; [lia | | exact Ho | done]. lia.
  - intros c Hc'. unfold upd_st. destruct (Z.eqb_spec c cpu) as [->|]; [done|].
    pose proof (cpu_flag_at c). rewrite <- H2 by done. apply cpu_status_same.
    intros x Hx. apply Ho. lia.
  - intros x Hx1 Hx2. rewrite Ho by lia. by apply H3.
Qed.

Section Steps.
Context {B : Type} {HQ : Quiet K} (m0 : mem).

Lemma fl_SpinLock (k : unit -> M B) Q w st :
  tgid_ok w -> flags_at m0 (mm w) None st ->
  (forall m', flags_at m0 m' (Some (cur_tgid w, 1)) st -> wp (k tt) Q (set_mm w m')) ->
  wp (comm_SpinLock 3 ≫= k) Q w.
Proof.
  intros Ht H Hk. apply wp_SpinLock; [lia | done | by destruct H |].
  intros m' H1 H2. apply Hk. by eapply flags_at_lock_write.
Qed.

Lemma fl_SpinUnLock (k : unit -> M B) Q w st t :
  flags_at m0 (mm w) (Some (t, 1)) st ->
  (forall m', flags_at m0 m' None st -> wp (k tt) Q (set_mm w m')) ->
  wp (comm_SpinUnLock 3 ≫= k) Q w.
Proof.
  intros H Hk. apply (wp_SpinUnLock 3 _ _ _ t); [lia | by destruct H |].
  intros m' H1 H2. apply Hk. by eapply flags_at_lock_write.
Qed.

Lemma fl_SpinUnLock_last (Q : unit -> world -> Prop) w st t :
  flags_at m0 (mm w) (Some (t, 1)) st ->
  (forall m', flags_at m0 m' None st -> Q tt (set_mm w m')) ->
  wp (comm_SpinUnLock 3) Q w.
Proof.
  intros H Hk. apply (wp_SpinUnLock_last 3 _ _ t); [lia | by destruct H |].
  intros m' H1 H2. apply Hk. by eapply flags_at_lock_write.
Qed.

Lemma fl_or cpu bits (k : unit -> M B) Q w lk st :
  0 <= cpu <= 1 -> 0 <= bits < 16 -> flags_at m0 (mm w) lk st ->
  (forall m', flags_at m0 m' lk (upd_st st cpu (st_or (st cpu) bits)) ->
     wp (k tt) Q (set_mm w m')) ->
  wp (flag_or cpu bits ≫= k) Q w.
Proof.
  intros Hc Hb H Hk. shm_facts. pose proof (cpu_flag_at cpu). unfold flag_or. wp_go.
  apply Hk. assert (Ho : same_out (cpu_flag cpu) 4 (mm w)
    (st32 (mm w) (cpu_flag cpu) (ld32 (mm w) (cpu_flag cpu) |. bits))) by (apply same_out_st; lia).
  pose proof (flags_at_word_write m0 (mm w) _ lk st cpu H Hc Ho) as H'.
  unfold cpu_status in H'. rewrite ld32_st32_eq, u32_lor, !u32_small, status_of_or in H'
    by (first [apply ld32_range | lia]).
  by rewrite <- (fl_word _ _ _ _ H cpu Hc).
Qed.

Lemma fl_clear cpu bits (k : unit -> M B) Q w lk st :
  0 <= cpu <= 1 -> 0 <= bits < 16 -> flags_at m0 (mm w) lk st ->
  (forall m', flags_at m0 m' lk (upd_st st cpu (st_clear (st cpu) bits)) ->
     wp (k tt) Q (set_mm w m')) ->
  wp (flag_clear cpu bits ≫= k) Q w.
Proof.
  intros Hc Hb H Hk. shm_facts. pose proof (cpu_flag_at cpu). unfold flag_clear. wp_go.
  apply Hk. assert (Ho : same_out (cpu_flag cpu) 4 (mm w)
    (st32 (mm w) (cpu_flag cpu) (bic (ld32 (mm w) (cpu_flag cpu)) bits))) by (apply same_out_st; lia).
  pose proof (flags_at_word_write m0 (mm w) _ lk st cpu H Hc Ho) as H'.
  unfold cpu_status in H'. rewrite ld32_st32_eq, u32_bic, u32_small, status_of_bic in H'
    by (first [apply ld32_range | lia]).
  by rewrite <- (fl_word _ _ _ _ H cpu Hc).
Qed.

Lemma fl_magic_set (k : bool -> M B) Q w lk st :
  magic_ok m0 -> flags_at m0 (mm w) lk st -> wp (k true) Q w -> wp (magic_set ≫= k) Q w.
Proof.
  intros Hm Hf H. destruct (flags_at_magic _ _ _ _ Hm Hf) as [H1 H2]. shm_facts.
  unfold magic_set, SHMEM_OFF_MAGIC1, SHMEM_OFF_MAGIC2 in *.
  wp_step. wp_step. rewrite H1. change (CPU_COMM_MAGIC =? CPU_COMM_MAGIC) with true. cbn [negb].
  wp_step. wp_step. wp_step. by rewrite H2.
Qed.

(** Testing bit [i] of a word. *)
Lemma fl_test cpu i (k : Z -> M B) Q w :
  0 <= cpu <= 1 -> 0 <= i ->
  wp (k (if Z.testbit (ld32 (mm w) (cpu_flag cpu)) i then 1 else 0)) Q w ->
  wp (flag_test cpu (2 ^ i) ≫= k) Q w.
Proof.
  intros Hc Hi H. shm_facts. pose proof (cpu_flag_at cpu). unfold flag_test.
  wp_step. wp_step. wp_step. rewrite land_bit by done. by destruct (Z.testbit _ i).
Qed.
End Steps.
End FlagSpecs.

(** ** The handlers *)

Section Handlers.
Context {S : Shm} {OK : ShmOk S} {K : Kernel} {HQ : Quiet K}.

Lemma base_nonnull : (ShMemAddrBase =? 0) = false.
Proof. shm_facts. apply eqb_neq_false. lia. Qed.

Ltac fl_guard := rewrite ?base_nonnull; cbn [orb]; try wp_test.

Lemma setCPUReady_wp cpu w :
  0 <= cpu <= 1 -> tgid_ok w -> lock_is (mm w) 3 None -> magic_ok (mm w) ->
  let s := cpu_status (mm w) cpu in
  wp (setCPUReady cpu) (fun _ w' => exists m', w' = set_mm w m' /\
    flags_at (mm w) m' None
      (upd_st (cpu_status (mm w)) cpu (Status true false (st_app s) false (st_other s)))) w.
Proof.
  intros Hc Ht Hl Hm s. unfold setCPUReady. fl_guard.
  pose proof (flags_at_start (mm w) Hl) as H0.
  eapply fl_magic_set; [done | exact H0 |]. cbn [negb].
  eapply fl_SpinLock; [done | exact H0 |]. intros m1 H1.
  eapply fl_or; [done | unfold CPU_FLAG_READY; lia | exact H1 |]. intros m2 H2. wsimp.
  eapply fl_clear; [done | unfold CPU_FLAG_NOT_READY; lia | exact H2 |]. intros m3 H3. wsimp.
  eapply fl_clear; [done | unfold CPU_FLAG_RESET; lia | exact H3 |]. intros m4 H4. wsimp.
  eapply fl_clear; [done | unfold CPU_FLAG_NOTICE_REQ; lia | exact H4 |]. intros m5 H5. wsimp.
  eapply fl_SpinUnLock_last; [exact H5 |]. intros m6 [Ha Hb Hd]. wsimp.
  exists m6. split; [done|]. split; [done | | done].
  intros c Hc'. rewrite Hb by done. unfold upd_st. rewrite !Z.eqb_refl.
  destruct (c =? cpu); [|done]. unfold st_or, st_clear, s. cbn.
  by rewrite ?orb_true_r, ?orb_false_r, ?andb_true_r, ?andb_false_r.
Qed.

Lemma setCPUReset_phase0_wp cpu w :
  0 <= cpu <= 1 -> tgid_ok w -> lock_is (mm w) 3 None ->
  let s := cpu_status (mm w) in
  wp (setCPUReset_phase0 cpu) (fun _ w' => exists m', w' = set_mm w m' /\
    flags_at (mm w) m' None (fun c =>
      if c =? cpu then Status false true false true (st_other (s c))
      else Status (st_ready (s c)) (st_stopped (s c)) (st_app (s c)) true (st_other (s c)))) w.
Proof.
  intros Hc Ht Hl s. unfold setCPUReset_phase0.
  pose proof (flags_at_start (mm w) Hl) as H0.
  eapply fl_SpinLock; [done | exact H0 |]. intros m1 H1.
  eapply fl_clear; [done | unfold CPU_FLAG_READY; lia | exact H1 |]. intros m2 H2. wsimp.
  eapply fl_clear; [done | unfold CPU_FLAG_APP_READY; lia | exact H2 |]. intros m3 H3. wsimp.
  eapply fl_or; [done | unfold CPU_FLAG_NOT_READY; lia | exact H3 |]. intros m4 H4. wsimp.
  eapply fl_or; [unfold CPU_ID_ARM; lia | unfold CPU_FLAG_NOTICE_REQ; lia | exact H4 |].
  intros m5 H5. wsimp.
  eapply fl_or; [unfold CPU_ID_MIPS; lia | unfold CPU_FLAG_NOTICE_REQ; lia | exact H5 |].
  intros m6 H6. wsimp.
  eapply fl_SpinUnLock_last; [exact H6 |]. intros m7 [Ha Hb Hd]. wsimp.
  exists m7. split; [done|]. split; [done | | done].
  intros c Hc'. rewrite Hb by done. unfold upd_st, CPU_ID_ARM, CPU_ID_MIPS.
  assert (Hcc : c = 0 \/ c = 1) by lia. assert (Hpp : cpu = 0 \/ cpu = 1) by lia.
  unfold st_or, st_clear, s.
  destruct Hcc as [-> | ->], Hpp as [-> | ->]; cbn;
    by rewrite ?orb_true_r, ?orb_false_r, ?andb_true_r, ?andb_false_r.
Qed.

(** The wait ends whatever runs during [msleep]: at most 200 sleeps. *)
Lemma wait_app_ready_returns (K' : Kernel) cpu w :
  0 <= cpu <= 1 -> exists w', @wait_app_ready S K' cpu w = Ret tt w'.
Proof.
  intros Hc. assert (wp (@wait_app_ready S K' cpu) (fun _ _ => True) w) as H.
  { shm_facts. pose proof (cpu_flag_at cpu). unfold wait_app_ready.
    apply (wp_loop (fun k t _ => t = 10 * Z.of_nat k) _ _ _ (Z.to_nat 200)); [lia | rewrite Z2Nat.id; lia |].
    intros k t w1 Hk. wp_step.
    destruct (((ld32 (mm w1) (cpu_flag cpu) &. CPU_FLAG_APP_READY) =? 0) && (0 <? t)) eqn:E;
      [|by wp_step].
    apply andb_true_iff in E as [_ E]. zbool. unfold wp, k_msleep, modify, mbind, M_bind, mret, M_ret.
    exists (k - 1)%nat. lia. }
  apply wp_run in H as ([] & w' & E & _). by exists w'.
Qed.

Lemma wait_app_ready_wp cpu w :
  0 <= cpu <= 1 -> wp (wait_app_ready cpu) (fun _ w' => w' = w) w.
Proof.
  intros Hc. shm_facts. pose proof (cpu_flag_at cpu). unfold wait_app_ready.
  apply (wp_loop (fun k t w1 => t = 10 * Z.of_nat k /\ w1 = w) _ _ _ (Z.to_nat 200));
    [lia | rewrite Z2Nat.id; [done | lia] |].
  intros k t w1 [Hk ->]. wp_step.
  destruct (((ld32 (mm w) (cpu_flag cpu) &. CPU_FLAG_APP_READY) =? 0) && (0 <? t)) eqn:E;
    [|by wp_step].
  apply andb_true_iff in E as [_ E]. zbool. wp_go. exists (k - 1)%nat. split; [lia|].
  split; [lia | done].
Qed.

Lemma isCPUReady_run cpu w :
  0 <= cpu <= 1 -> magic_ok (mm w) ->
  isCPUReady cpu w = Ret (if st_ready (cpu_status (mm w) cpu) then 1 else 0) w.
Proof.
  intros Hc Hm. assert (wp (isCPUReady cpu) (fun r w' => w' = w /\
    r = if st_ready (cpu_status (mm w) cpu) then 1 else 0) w) as Hw.
  { unfold isCPUReady. rewrite base_nonnull. wp_test. pose proof Hm as [H1 H2]. shm_facts.
    unfold magic_set, SHMEM_OFF_MAGIC1, SHMEM_OFF_MAGIC2, CPU_COMM_MAGIC in *.
    pose proof (cpu_flag_at cpu). unfold flag_test. repeat (wp_step; rewrite ?H1, ?H2; cbn [Z.eqb Pos.eqb negb]).
    split; [done|]. rewrite (land_bit _ 0) by lia. unfold cpu_status, status_of. cbn [st_ready].
    by destruct (Z.testbit _ 0). }
  destruct (wp_run _ _ _ Hw) as (r & w' & E & -> & ->). exact E.
Qed.

Lemma IsCPUReset_run cpu w :
  0 <= cpu <= 1 ->
  IsCPUReset cpu w = Ret (if st_notice (cpu_status (mm w) cpu) then 1 else 0) w.
Proof.
  intros Hc. assert (wp (IsCPUReset cpu) (fun r w' => w' = w /\
    r = if st_notice (cpu_status (mm w) cpu) then 1 else 0) w) as Hw.
  { unfold IsCPUReset, flag_test. rewrite base_nonnull. wp_test. shm_facts.
    pose proof (cpu_flag_at cpu). wp_go.
    split; [done|]. rewrite (land_bit _ 3) by lia. unfold cpu_status, status_of. cbn [st_notice].
    by destruct (Z.testbit _ 3). }
  destruct (wp_run _ _ _ Hw) as (r & w' & E & -> & ->). exact E.
Qed.

Lemma isCPUAppReady1_run cpu w :
  0 <= cpu <= 1 -> magic_ok (mm w) ->
  isCPUAppReady1 cpu w =
    Ret (if st_app (cpu_status (mm w) cpu) ||
            ((cpu =? CPU_ID_MIPS) && negb (mips_app_ready_assumed w =? 0)) then 1 else 0) w.
Proof.
  intros Hc Hm. assert (wp (isCPUAppReady1 cpu) (fun r w' => w' = w /\
    r = if st_app (cpu_status (mm w) cpu) ||
            ((cpu =? CPU_ID_MIPS) && negb (mips_app_ready_assumed w =? 0)) then 1 else 0) w) as Hw.
  { unfold isCPUAppReady1. rewrite base_nonnull. pose proof Hm as [H1 H2]. shm_facts.
    unfold magic_set, SHMEM_OFF_MAGIC1, SHMEM_OFF_MAGIC2, CPU_COMM_MAGIC in *.
    pose proof (cpu_flag_at cpu). repeat (wp_step; rewrite ?H1, ?H2; cbn [Z.eqb Pos.eqb negb]).
    rewrite (land_bit _ 2) by lia. unfold cpu_status, status_of. cbn [st_app].
    destruct (Z.testbit _ 2); [by wp_go | by wp_go]. }
  destruct (wp_run _ _ _ Hw) as (r & w' & E & -> & ->). exact E.
Qed.

(** With the guards passed, the call ends with both application bits set. *)
Lemma setCPUAppReady_wp cpu w :
  0 <= cpu <= 1 -> tgid_ok w -> lock_is (mm w) 3 None -> magic_ok (mm w) ->
  let s := cpu_status (mm w) in
  wp (setCPUAppReady cpu) (fun _ w' => exists m', w' = set_mm w m' /\
    flags_at (mm w) m' None
      (fun c => if st_ready (s cpu) && negb (st_notice (s cpu))
                then st_or (s c) CPU_FLAG_APP_READY else s c)) w.
Proof.
  intros Hc Ht Hl Hm s. unfold setCPUAppReady. fl_guard.
  pose proof (flags_at_start (mm w) Hl) as H0.
  eapply fl_magic_set; [done | exact H0 |]. cbn [negb].
  eapply wp_eq; [by apply isCPUReady_run|]. fold s. destruct (st_ready (s cpu)); cbn [andb negb].
  2: { wp_go. exists (mm w). rewrite set_mm_id. by split. }
  wp_test. eapply wp_eq; [by apply IsCPUReset_run|]. fold s. destruct (st_notice (s cpu)); cbn [andb negb].
  { wp_go. exists (mm w). rewrite set_mm_id. by split. }
  wp_test. eapply fl_SpinLock; [done | exact H0 |]. intros m1 H1.
  eapply fl_or; [done | unfold CPU_FLAG_APP_READY; lia | exact H1 |]. intros m2 H2. wsimp.
  eapply fl_SpinUnLock; [exact H2 |]. intros m3 H3. wsimp.
  set (o := Z.lxor cpu 1). assert (Ho : 0 <= o <= 1 /\ o <> cpu).
  { unfold o. assert (Hcc : cpu = 0 \/ cpu = 1) by lia. destruct Hcc as [-> | ->];
      [change (Z.lxor 0 1) with 1 | change (Z.lxor 1 1) with 0]; lia. }
  destruct Ho as [Ho Hne].
  eapply wp_call; [by apply wait_app_ready_wp|]. intros [] w' ->.
  pose proof (cpu_flag_at o) as Eof. pose proof shm_base as Hbase. wp_step.
  change CPU_FLAG_APP_READY with (2 ^ 2) at 1. rewrite land_bit by lia.
  pose proof (fl_word _ _ _ _ H3 o Ho) as Eo. unfold upd_st in Eo.
  rewrite (eqb_neq_false o cpu) in Eo by done.
  destruct (Z.testbit (ld32 m3 (cpu_flag o)) 2) eqn:Eb; cbn [negb].
  - wp_go. exists m3. split; [done|]. destruct H3 as [Ha Hb Hd]. split; [done | | done].
    intros c Hc'. rewrite Hb by done. unfold upd_st. destruct (Z.eqb_spec c cpu) as [->|]; [done|].
    assert (c = o) as -> by lia. fold s in Eo. unfold cpu_status, status_of in Eo. rewrite Eb in Eo.
    rewrite <- Eo. unfold st_or. cbn. by rewrite ?orb_false_r.
  - eapply fl_SpinLock; [done | exact H3 |]. intros m4 H4. wsimp.
    eapply fl_or; [done | unfold CPU_FLAG_APP_READY; lia | exact H4 |]. intros m5 H5. wsimp.
    eapply fl_SpinUnLock_last; [exact H5 |]. intros m6 [Ha Hb Hd]. wsimp.
    exists m6. split; [done|]. split; [done | | done].
    intros c Hc'. rewrite Hb by done. unfold upd_st.
    destruct (Z.eqb_spec c o) as [->|]; [by rewrite (eqb_neq_false o cpu)|].
    assert (c = cpu) as -> by lia. by rewrite Z.eqb_refl.
Qed.
End Handlers.

(** ** Properties *)

(** A booted region: the lock table, both markers, ARM ready, MIPS stopped. *)
Definition booted (arm mips : Z) : world :=
  set_mm locks_world
    (st32 (st32 (st32 (st32 (mm locks_world)
      (ShMemAddrBase + SHMEM_OFF_MAGIC1) CPU_COMM_MAGIC)
      (ShMemAddrBase + SHMEM_OFF_MAGIC2) CPU_COMM_MAGIC)
      (cpu_flag 0) arm) (cpu_flag 1) mips).

Lemma booted_ok arm mips :
  0 <= arm < 16 -> 0 <= mips < 16 ->
  lock_is (mm (booted arm mips)) 3 None /\ magic_ok (mm (booted arm mips)) /\
  tgid_ok (booted arm mips) /\
  cpu_status (mm (booted arm mips)) 0 = status_of arm /\
  cpu_status (mm (booted arm mips)) 1 = status_of mips.
Proof.
  intros Ha Hm. unfold booted, magic_ok, cpu_status. rewrite !mm_set_mm.
  pose proof (cpu_flag_at 0) as E0. pose proof (cpu_flag_at 1) as E1.
  unfold SHMEM_OFF_MAGIC1, SHMEM_OFF_MAGIC2, CPU_COMM_MAGIC.
  simpl ShMemAddrBase in *. ands.
  - eapply (lock_is_out (ShMemAddrBase + 144) 40000 (mm locks_world)); [lia | | |
      apply locks_world_free; vm_compute; tauto].
    + left. vm_compute. congruence.
    + simpl ShMemAddrBase. intros x Hx. rewrite !ld8_st_out by lia. done.
  - memsimp. done.
  - memsimp. done.
  - vm_compute. split; [split|]; congruence.
  - memsimp. rewrite u32_small by lia. done.
  - memsimp. rewrite u32_small by lia. done.
Qed.

(** [setCPUReady] turns the word of the given CPU into exactly "ready, not stopped, no reset
    notice", keeps its application bit and the unused bits, leaves the other CPU's word alone, and
    leaves spinlock 3 free; [isCPUReady] then answers 1 and [IsCPUReset] 0. *)
Theorem setCPUReady_effect {S : Shm} {OK : ShmOk S} {K : Kernel} {HQ : Quiet K} cpu w :
  0 <= cpu <= 1 -> tgid_ok w -> lock_is (mm w) 3 None -> magic_ok (mm w) ->
  exists m', setCPUReady cpu w = Ret tt (set_mm w m') /\ lock_is m' 3 None /\
    cpu_status m' cpu = Status true false (st_app (cpu_status (mm w) cpu)) false
                               (st_other (cpu_status (mm w) cpu)) /\
    cpu_status m' (1 - cpu) = cpu_status (mm w) (1 - cpu) /\
    flags_frame (mm w) m' /\
    isCPUReady cpu (set_mm w m') = Ret 1 (set_mm w m') /\
    IsCPUReset cpu (set_mm w m') = Ret 0 (set_mm w m').
Proof.
  intros Hc Ht Hl Hm.
  destruct (wp_run _ _ _ (setCPUReady_wp cpu w Hc Ht Hl Hm)) as ([] & w' & E & m' & -> & Hf).
  pose proof (flags_at_magic _ _ _ _ Hm Hf) as Hm'. destruct Hf as [H1 H2 H3].
  exists m'. rewrite isCPUReady_run, IsCPUReset_run, !mm_set_mm, !H2 by (first [done | lia]).
  unfold upd_st. rewrite !Z.eqb_refl, eqb_neq_false by lia. done.
Qed.

Lemma setCPUReady_effect_witness : exists m',
  setCPUReady 1 (booted 1 14) = Ret tt (set_mm (booted 1 14) m') /\
  cpu_status m' 1 = Status true false true false 0.
Proof.
  destruct (booted_ok 1 14) as (H1 & H2 & H3 & _ & H5); [lia | lia |].
  destruct (setCPUReady_effect 1 (booted 1 14)) as (m' & E & _ & H & _);
    [lia | exact H3 | exact H1 | exact H2 |].
  exists m'. split; [exact E|]. rewrite H, H5. reflexivity.
Defined.

(** [setCPUAppReady] always returns, and on a CPU that is ready and not in reset it ends with the
    application bit set in both words: its own first, then the other CPU's, which it forces when
    the wait of two seconds ran out.  On any other CPU it changes nothing. *)
Theorem setCPUAppReady_effect {S : Shm} {OK : ShmOk S} {K : Kernel} {HQ : Quiet K} cpu w :
  0 <= cpu <= 1 -> tgid_ok w -> lock_is (mm w) 3 None -> magic_ok (mm w) ->
  let s := cpu_status (mm w) in
  exists m', setCPUAppReady cpu w = Ret tt (set_mm w m') /\ lock_is m' 3 None /\
    flags_frame (mm w) m' /\
    forall c, 0 <= c <= 1 -> cpu_status m' c =
      if st_ready (s cpu) && negb (st_notice (s cpu))
      then Status (st_ready (s c)) (st_stopped (s c)) true (st_notice (s c)) (st_other (s c))
      else s c.
Proof.
  intros Hc Ht Hl Hm s.
  destruct (wp_run _ _ _ (setCPUAppReady_wp cpu w Hc Ht Hl Hm)) as ([] & w' & E & m' & -> & [H1 H2 H3]).
  exists m'. ands; try done. intros c Hc'. rewrite H2 by done. fold s.
  destruct (st_ready (s cpu) && negb (st_notice (s cpu))); [|done].
  unfold st_or. cbn. by rewrite ?orb_false_r, ?orb_true_r.
Qed.

Lemma setCPUAppReady_effect_witness : exists m',
  setCPUAppReady 0 (booted 1 2) = Ret tt (set_mm (booted 1 2) m') /\
  cpu_status m' 1 = Status false true true false 0.
Proof.
  destruct (booted_ok 1 2) as (H1 & H2 & H3 & H4 & H5); [lia | lia |].
  destruct (setCPUAppReady_effect 0 (booted 1 2)) as (m' & E & _ & _ & H);
    [lia | exact H3 | exact H1 | exact H2 |].
  exists m'. split; [exact E|]. rewrite H, H4, H5 by lia. reflexivity.
Defined.

(** The two-second wait of [setCPUAppReady] ends after at most 200 sleeps whatever other code does
    to memory while it sleeps: the poll loop returns for every behaviour of [msleep]. *)
Theorem wait_app_ready_terminates {S : Shm} {OK : ShmOk S} (K : Kernel) cpu w :
  0 <= cpu <= 1 -> exists w', wait_app_ready cpu w = Ret tt w'.
Proof. apply wait_app_ready_returns. Qed.

Lemma wait_app_ready_terminates_witness : exists w', wait_app_ready 1 (booted 1 2) = Ret tt w'.
Proof. apply (wait_app_ready_terminates SimpleKernel 1 (booted 1 2)). lia. Defined.

(** Stopping one CPU ([setCPUReset], phase 0) makes [IsCPUReset] answer 1 for both CPUs, because
    the reset bit and the notice bit are the same bit: the CPU that keeps running is reported as
    reset too, and its own [setCPUAppReady] does nothing until the notice is cleared. *)
Theorem reset_marks_both_cpus {S : Shm} {OK : ShmOk S} {K : Kernel} {HQ : Quiet K} cpu w :
  0 <= cpu <= 1 -> tgid_ok w -> lock_is (mm w) 3 None -> magic_ok (mm w) ->
  exists m', setCPUReset_phase0 cpu w = Ret tt (set_mm w m') /\
    isCPUReady cpu (set_mm w m') = Ret 0 (set_mm w m') /\
    isCPUReady (1 - cpu) (set_mm w m') =
      Ret (if st_ready (cpu_status (mm w) (1 - cpu)) then 1 else 0) (set_mm w m') /\
    IsCPUReset cpu (set_mm w m') = Ret 1 (set_mm w m') /\
    IsCPUReset (1 - cpu) (set_mm w m') = Ret 1 (set_mm w m') /\
    exists m2, setCPUAppReady (1 - cpu) (set_mm w m') = Ret tt (set_mm w m2) /\
      cpu_status m2 (1 - cpu) = cpu_status m' (1 - cpu).
Proof.
  intros Hc Ht Hl Hm.
  destruct (wp_run _ _ _ (setCPUReset_phase0_wp cpu w Hc Ht Hl)) as ([] & w' & E & m' & -> & Hf).
  pose proof (flags_at_magic _ _ _ _ Hm Hf) as Hm'. destruct Hf as [H1 H2 H3]. exists m'.
  rewrite !isCPUReady_run, !IsCPUReset_run by (first [done | lia]). wsimp.
  rewrite !H2, !Z.eqb_refl, !(eqb_neq_false (1 - cpu) cpu) by lia. cbn [st_ready st_notice].
  ands; try done.
  destruct (wp_run _ _ _ (setCPUAppReady_wp (1 - cpu) (set_mm w m') ltac:(lia) Ht H1 Hm'))
    as ([] & w2 & E2 & m2 & -> & [_ H4 _]).
  exists m2. split; [done|]. rewrite H4 by lia. wsimp.
  rewrite !(H2 (1 - cpu)), (eqb_neq_false (1 - cpu) cpu) by lia. cbn. by rewrite andb_false_r.
Qed.

Lemma reset_marks_both_cpus_witness : exists m',
  setCPUReset_phase0 1 (booted 5 5) = Ret tt (set_mm (booted 5 5) m') /\
  IsCPUReset 0 (set_mm (booted 5 5) m') = Ret 1 (set_mm (booted 5 5) m').
Proof.
  destruct (booted_ok 5 5) as (H1 & H2 & H3 & _); [lia | lia |].
  destruct (reset_marks_both_cpus 1 (booted 5 5)) as (m' & E & _ & _ & _ & H & _);
    [lia | exact H3 | exact H1 | exact H2 |].
  exists m'. split; [exact E | exact H].
Defined.

(** Once MIPS was seen ready during init ([mips_app_ready_assumed]), [isCPUAppReady] answers 1
    for MIPS for ever: stopping MIPS clears its application bit, and the answer stays 1. *)
Theorem app_ready_survives_reset {S : Shm} {OK : ShmOk S} {K : Kernel} {HQ : Quiet K} w :
  tgid_ok w -> lock_is (mm w) 3 None -> magic_ok (mm w) -> mips_app_ready_assumed w <> 0 ->
  exists m', setCPUReset_phase0 CPU_ID_MIPS w = Ret tt (set_mm w m') /\
    st_app (cpu_status m' CPU_ID_MIPS) = false /\
    isCPUAppReady CPU_ID_MIPS (set_mm w m') = Ret 1 (set_mm w m').
Proof.
  intros Ht Hl Hm Ha. unfold CPU_ID_MIPS in *.
  destruct (wp_run _ _ _ (setCPUReset_phase0_wp 1 w ltac:(lia) Ht Hl)) as ([] & w' & E & m' & -> & Hf).
  pose proof (flags_at_magic _ _ _ _ Hm Hf) as Hm'. destruct Hf as [H1 H2 H3]. exists m'.
  ands; [done | by rewrite H2 by lia |]. unfold isCPUAppReady. simpl.
  rewrite isCPUAppReady1_run by (first [done | lia]). wsimp. rewrite H2 by lia. simpl.
  by rewrite (eqb_neq_false _ _ Ha).
Qed.

Definition assumed_world : world := set_assumed (booted 5 5) 1.

Lemma app_ready_survives_reset_witness : exists m',
  isCPUAppReady 1 (set_mm assumed_world m') = Ret 1 (set_mm assumed_world m').
Proof.
  destruct (booted_ok 5 5) as (H1 & H2 & H3 & _); [lia | lia |].
  destruct (app_ready_survives_reset assumed_world) as (m' & _ & _ & H);
    [exact H3 | exact H1 | exact H2 | discriminate |].
  by exists m'.
Defined.
