(* ===== verification/SeqMem.v ===== *)
(** The per-CPU sockets, the shared sequences and the pools, as
    [InitCommSeqMem], [InitCommShareSeqMem], [InitComponentPool] and
    [InitMessagerPool] of [cpu_comm_mem.c] set them up. *)
From S2P Require Import Prelude Mem Kernel Fifo Shm SpinLock.
From stdpp Require Import pretty.
#[local] Open Scope Z_scope.

Definition COMPONENT_COUNT : Z := 40.

Section SeqMem.
Context {S : Shm} {K : Kernel}.

Definition interSeq2Name (sock : Z) : M (list Z) :=
  id ← rd32 sock; mret (str "CPU" ++ str (pretty (Z.to_N id))).

(** [sock[i]] *)
Definition sock_at (sock i : Z) : Z := sock + 4 * i.

(** A [struct comm_fifo] of 21 four-byte slots, empty, tracking peaks. *)
Definition init_fifo_header (f base_addr : Z) : M unit :=
  wr32 f 0 ;;
  wr32 (f + 4) 0 ;;
  wr32 (f + 8) 0 ;;
  wr32 (f + 12) 1 ;;
  wr32 (f + 16) 21 ;;
  wr32 (f + 20) 4 ;;
  wr32 (f + 24) base_addr ;;
  wr32 (f + 28) 0.

(** One wait entry, and its address pushed into the FreeWait FIFO; [Some] leaves
    the loop when the FIFO is full. *)
Definition init_wait_entry (sock i : Z) : M (option unit) :=
  let entry := sock_at sock (72 + 8 * i) in
  let v11 := sock_at sock (79 + 8 * i) in
  wr32 (entry + 4) SESSION_ID_INVALID ;;
  wr32 (entry + 8) 0 ;;
  wr32 (entry + 12) 0 ;;
  wr32 (entry + 16) 0 ;;
  wr32 (v11 - 16) 0 ;;
  wr32 (v11 - 12) 0 ;;
  wr32 (v11 - 8) (v11 - 8) ;;
  wr32 (v11 - 4) (v11 - 8) ;;
  wr32 v11 v11 ;;
  wr32 (v11 + 4) v11 ;;
  item_wr ← fifo_getItemWr (sock_at sock 34);
  if item_wr =? 0 then mret (Some tt) else
  wr32 item_wr (v11 - 24) ;;
  fifo_requestItemWr (sock_at sock 34) ;;
  mret None.

Definition init_free_wait (sock : Z) : M unit :=
  init_fifo_header (sock_at sock 34) (sock_at sock 52) ;;
  strncpy (sock_at sock 42) (str "FreeWait") 32 ;;
  wr32 (sock_at sock 50) 0 ;;
  memset (sock_at sock 52) 0 (Z.to_nat (21 * 4)) ;;
  for_exit MAX_WAIT_ENTRIES 0 (init_wait_entry sock) ;;
  wr32 (sock_at sock 37) 0.

(** The staging FIFO at +32 of a read sequence, its slots in the socket. *)
Definition init_staging (seq ring : Z) (name : list Z) : M unit :=
  if seq =? 0 then mret tt else
  memset ring 0 (Z.to_nat (21 * 4)) ;;
  init_fifo_header (seq + 32) ring ;;
  strncpy (seq + 64) name 32 ;;
  wr32 (seq + 96) 0.

(** The MIPS side of the share sequences, which ARM sets up for it. *)
Definition init_mips_seq (r d : Z) : M unit :=
  let seq := u32 (ShMemAddrBase + 9760 * 1 + 4880 * r + 2440 * d + 152) in
  memset seq 0 64 ;;
  let fifo := seq + 32 in
  wr32 fifo 0 ;;
  wr32 (fifo + 4) 0 ;;
  wr32 (fifo + 8) 0 ;;
  wr32 (fifo + 12) 1 ;;
  wr32 (fifo + 16) 21 ;;
  wr32 (fifo + 20) 4 ;;
  let items_phy := u32 (seq + 276 - ShMemAddrBase + ShMemAddr) in
  let items_kseg1 := 0xA0000000 |. (items_phy &. 0x1FFFFFFF) in
  wr32 (fifo + 24) items_kseg1 ;;
  memset (seq + 276) 0 84 ;;
  wr32 (fifo + 28) 0 ;;
  memset (seq + 64) 0 40 ;;
  strncpy (seq + 64) (if d =? 0 then str "CallCmd" else str "ReturnCmd") 32 ;;
  wr32 (seq + 96) 0.

(** The socket part of [InitCommSeqMem]. *)
Definition init_socket (cpu_id sock : Z) : M unit :=
  wr32 sock cpu_id ;;
  k_sema_init (sock_at sock 2) 1 ;;
  k_sema_init (sock_at sock 6) 0 ;;
  name ← interSeq2Name sock;
  InitMsgFIFO (sock_at sock 10) name (str " SendCmdWaitList") 1 ;;
  k_sema_init (sock_at sock 30) 1 ;;
  init_free_wait sock ;;
  k_sema_init (sock_at sock 234) 1 ;;
  memset (sock_at sock 238) 0 (Z.to_nat (21 * 4)) ;;
  wr32 (sock_at sock 248) 1 ;;
  k_sema_init (sock_at sock 259) 1 ;;
  k_sema_init (sock_at sock 263) 0 ;;
  name ← interSeq2Name sock;
  InitMsgFIFO (sock_at sock 267) name (str " ReturnList") 1 ;;
  k_sema_init (sock_at sock 287) 1 ;;
  mret tt.

Definition InitCommSeqMem (cpu_id : Z) : M unit :=
  if 1 <? cpu_id then mret tt else
  let sock := s_CommSockt + 4 * (cpu_id * (COMM_SOCKET_SIZE / 4)) in
  init_socket cpu_id sock ;;
  init_staging (getShareSeqR cpu_id 0) (sock_at sock 238) (str "CallCmd") ;;
  init_staging (getShareSeqR cpu_id 1) (sock_at sock 291) (str "ReturnCmd") ;;
  if cpu_id =? 1 then
    for_ 2 0 (fun r => for_ 2 0 (fun d => init_mips_seq r d))
  else mret tt.

(** *** The FreeCall and FreeReturn pools of one CPU pair *)

(** Call entry [j], and its physical address pushed into the free FIFO. *)
Definition init_call_entry (seq j : Z) : M (option unit) :=
  let fifo := seq + 120 in
  let entry_vir := seq + 360 + j * COMM_MSG_SIZE in
  wr16 (entry_vir + 4) j ;;
  wr32 (entry_vir + 12) SESSION_ID_INVALID ;;
  wr_slot_phy ← fifo_getItemWr fifo;
  if wr_slot_phy =? 0 then mret (Some tt) else
  let wr_slot_vir := phy2vir wr_slot_phy in
  let entry_phy := if entry_vir =? 0 then 0 else vir2phy entry_vir in
  wr32 wr_slot_vir entry_phy ;;
  fifo_requestItemWr fifo ;;
  mret None.

(** One direction; [Some] is the early return on an unusable FIFO. *)
Definition init_share_seq (cpu_id direction i : Z) : M (option unit) :=
  let seq := getShareSeq cpu_id direction i in
  if seq =? 0 then mret None else
  wr8 seq cpu_id ;;
  wr8 (seq + 1) direction ;;
  wr8 (seq + 2) i ;;
  wr8 (seq + 8) 0 ;;
  wr8 (seq + 16) 20 ;;
  wr32 (seq + 20) SESSION_ID_INVALID ;;
  wr8 (seq + 104) 20 ;;
  wr8 (seq + 105) 0 ;;
  wr32 (seq + 108) SESSION_ID_INVALID ;;
  let buf_vir := u32 (seq + 192) in
  (if negb (buf_vir =? 0) then
     let buf_phy := vir2phy buf_vir in
     if negb (buf_phy =? 0) then
       let tmp_vir := phy2vir buf_phy in
       if negb (tmp_vir =? 0) then memset tmp_vir 0 (Z.to_nat (21 * 4)) else mret tt
     else mret tt
   else mret tt) ;;
  let fifo := seq + 120 in
  init_fifo_header fifo (if buf_vir =? 0 then 0 else vir2phy buf_vir) ;;
  strncpy (seq + 152) (if i =? 0 then str "FreeCall" else str "FreeReturn") 32 ;;
  wr32 (seq + 184) 0 ;;
  slot ← fifo_getItemWr fifo;
  if slot =? 0 then mret (Some tt) else
  for_exit 20 0 (init_call_entry seq) ;;
  wr32 (fifo + 12) 0 ;;
  mret None.

Definition InitCommShareSeqMem (cpu_id direction : Z) : M unit :=
  if ShMemAddrBase =? 0 then mret tt else
  if (1 <? cpu_id) || (1 <? direction) then mret tt else
  for_exit 2 0 (fun i => init_share_seq cpu_id direction i) ;;
  mret tt.

(** *** Pools *)

Definition InitComponentPool (pool : Z) : M unit :=
  if pool =? 0 then mret tt else
  memset pool 0 (Z.to_nat (COMPONENT_COUNT * 816 + 16)) ;;
  wr32 (pool + 4 * (8162 / 4)) COMPONENT_COUNT ;;
  id ← comm_ReqestSpinLock;
  wr32 pool id ;;
  if id =? 255 then mret tt else
  for_ (Z.to_nat COMPONENT_COUNT) 0 (fun i =>
    let comp := pool + 4 * (i * (816 / 4) + 4) in
    wr8 (comp + 10 - 16) i ;;
    wr32 (comp + 8) 255 ;;
    wr16 (comp + 0x1C - 16) 2 ;;
    for_ 16 0 (fun k => wr32 (comp + 4 * ((12 * k + 18) * 4 / 4)) SESSION_ID_INVALID)).

Definition InitMessagerPool (pool : Z) : M unit :=
  if pool =? 0 then mret tt else
  memset pool 0 (Z.to_nat 3208) ;;
  wr32 pool 0 ;;
  id ← comm_ReqestSpinLock;
  wr32 (pool + 4) id.
End SeqMem.

(** ** What the initialisation establishes *)

Section SeqMemSpecs.
Context {S : Shm} {OK : ShmOk S} {K : Kernel}.

Lemma init_fifo_header_wp f base vb w :
  4096 <= f -> 4096 <= vb -> 0 < base -> base + 84 <= 2 ^ 32 ->
  f + 28 <= vb \/ vb + 84 <= f ->
  wp (init_fifo_header f base) (fun _ w' => exists m', w' = set_mm w m' /\
    fifo_at m' f base vb 21 [] /\ wr_slot m' f = 0 /\ same_out f 32 (mm w) m') w.
Proof.
  intros Hf Hv Hb Hb2 Hsep. unfold init_fifo_header, wr_slot. wp_go. eexists.
  split; [done|]. split; [|split; [by memsimp | same_out_tac]].
  split; memsimp; try done; try lia. by rewrite u32_small by lia.
Qed.

(** Call entry [j] of the sequence at [seq]. *)
Definition call_entry (seq j : Z) : Z := seq + 360 + j * COMM_MSG_SIZE.
Definition free_calls (seq : Z) (n : Z) : list Z :=
  map (fun j => vir2phy (call_entry seq j)) (seqZ 0 n).
Definition free_fifo (m : mem) (seq : Z) (q : list Z) : Prop :=
  fifo_at m (seq + 120) (vir2phy (seq + 192)) (seq + 192) 21 q.

(** The bytes of a sequence that belong to its free list, those a CPU receives
    through, and those ARM sets up for MIPS. *)
Definition free_area (seq x : Z) : Prop :=
  seq <= x < seq + 32 \/ seq + 104 <= x < seq + 276 \/ seq + 360 <= x < seq + 2440.
Definition recv_area (seq x : Z) : Prop := seq + 32 <= x < seq + 100.
Definition mips_area (seq x : Z) : Prop := seq <= x < seq + 104 \/ seq + 276 <= x < seq + 360.

Definition seq_range (seq : Z) : Prop :=
  ShMemAddrBase + 152 <= seq /\ seq + 2440 <= ShMemAddrBase + SHMEM_OFF_MAX_CPU.

Lemma free_calls_S seq (j : nat) :
  free_calls seq (Z.of_nat j + 1) = free_calls seq (Z.of_nat j) ++ [vir2phy (call_entry seq (Z.of_nat j))].
Proof.
  unfold free_calls. rewrite seqZ_app, map_app by lia. f_equal.
Qed.

Lemma free_calls_length seq (j : nat) : length (free_calls seq (Z.of_nat j)) = j.
Proof. unfold free_calls. rewrite length_map, length_seqZ. lia. Qed.

(** What one call entry holds when it is free. *)
Definition entry_init (m : mem) (seq j : Z) : Prop :=
  ld16 m (call_entry seq j + 4) = j /\ ld32 m (call_entry seq j + 12) = u32 SESSION_ID_INVALID.

Lemma entry_init_out m m' seq j lo n :
  entry_init m seq j -> same_out lo n m m' ->
  call_entry seq j + 16 <= lo \/ lo + n <= call_entry seq j -> entry_init m' seq j.
Proof.
  unfold entry_init. intros [H1 H2] Ho Hd.
  by rewrite !(ld_same_out _ _ _ _ _ _ Ho) by lia.
Qed.

Lemma init_call_entry_wp seq (j : nat) w :
  seq_range seq -> (j < 20)%nat -> free_fifo (mm w) seq (free_calls seq (Z.of_nat j)) ->
  wp (init_call_entry seq (Z.of_nat j)) (fun r w' => r = None /\ exists m', w' = set_mm w m' /\
    free_fifo m' seq (free_calls seq (Z.of_nat j + 1)) /\ entry_init m' seq (Z.of_nat j) /\
    (forall x, x < seq + 120 \/ seq + 276 <= x < call_entry seq (Z.of_nat j) \/
               call_entry seq (Z.of_nat j) + 16 <= x ->
       ld8 m' x = ld8 (mm w) x)) w.
Proof.
  intros [Hs1 Hs2] Hj H. unfold SHMEM_OFF_MAX_CPU in *. shm_facts. unfold free_fifo in *.
  assert (Hin : in_shm (seq + 192) /\ in_shm (call_entry seq (Z.of_nat j))).
  { unfold in_shm, call_entry, COMM_MSG_SIZE. lia. } destruct Hin as [Hin Hin2].
  pose proof (vir2phy_shm _ Hin) as Eb. rewrite Eb in *.
  unfold init_call_entry. fold (call_entry seq (Z.of_nat j)).
  set (e := call_entry seq (Z.of_nat j)) in *.
  assert (He : seq + 360 <= e /\ e + 16 <= seq + 2440)
    by (unfold e, call_entry, COMM_MSG_SIZE; lia).
  wp_step. wp_step. set (m1 := st32 (st16 (mm w) (e + 4) _) (e + 12) _).
  assert (H1 : fifo_at m1 (seq + 120) (seq + 192 - ShMemAddrBase + ShMemAddr) (seq + 192) 21
                 (free_calls seq (Z.of_nat j))).
  { apply (fifo_at_same_out H _ (e + 4) 12); [|lia|lia].
    unfold m1. intros x Hx. by rewrite !ld8_st_out by lia. }
  pose proof (fifo_wr_range H1) as Hw.
  assert (Hfull : fifo_full 21 (free_calls seq (Z.of_nat j)) = false).
  { unfold fifo_full. rewrite free_calls_length. apply eqb_neq_false. lia. }
  eapply wp_call; [apply (fifo_getItemWr_wp (w := set_mm w m1) H1)|].
  intros a w' [-> ->]. rewrite Hfull, mm_set_mm.
  rewrite eqb_neq_false by lia. cbv zeta.
  assert (Ep : phy2vir (seq + 192 - ShMemAddrBase + ShMemAddr + 4 * wr_slot m1 (seq + 120))
               = seq + 192 + 4 * wr_slot m1 (seq + 120)).
  { unfold phy2vir. rewrite u32_small; lia. }
  rewrite Ep. rewrite (eqb_neq_false e 0) by lia. wp_step.
  pose proof (vir2phy_shm _ Hin2) as Ee. rewrite Ee.
  pose proof (fifo_at_slot_write H1 (e - ShMemAddrBase + ShMemAddr) Hfull) as H2.
  set (m2 := st32 m1 _ _) in *.
  assert (Ew : wr_slot m2 (seq + 120) = wr_slot m1 (seq + 120)) by (apply ld_st_ne; lia).
  eapply wp_call.
  { apply (fifo_requestItemWr_wp (w := set_mm w m2) _ (e - ShMemAddrBase + ShMemAddr) H2 Hfull).
    rewrite mm_set_mm, Ew. unfold m2. rewrite ld32_st32_eq. apply u32_small. lia. }
  intros _ w' (m3 & -> & _ & _ & H3 & Ho & _). wp_step. split; [done|]. exists m3.
  assert (Hout : forall x, x < seq + 120 \/ seq + 276 <= x -> ld8 m3 x = ld8 m1 x).
  { intros x Hx. rewrite Ho by lia. wsimp. unfold m2. apply ld8_st_out. lia. }
  ands; [done | | |].
  - rewrite free_calls_S. fold e. rewrite Ee. exact H3.
  - unfold entry_init. fold e. rewrite !(ld_same _ m1 m3) by (intros; apply Hout; lia).
    unfold m1. memsimp. split; [apply u16_small; lia | done].
  - intros x Hx. destruct (decide (x < seq + 120 \/ seq + 276 <= x)); [|lia].
    rewrite Hout by done. unfold m1. by rewrite !ld8_st_out by lia.
Qed.

(** One direction after its initialisation. *)
Record share_seq_init (m : mem) (cpu dir i seq : Z) : Prop := ShareSeqInit {
  si_free : free_fifo m seq (free_calls seq 20);
  si_entry : forall j, 0 <= j < 20 -> entry_init m seq j;
  si_cpu : ld8 m seq = cpu;
  si_dir : ld8 m (seq + 1) = dir;
  si_way : ld8 m (seq + 2) = i;
  si_session : ld32 m (seq + 20) = u32 SESSION_ID_INVALID;
  si_session2 : ld32 m (seq + 108) = u32 SESSION_ID_INVALID;
  si_track : ld32 m (seq + 132) = 0;
}.

Lemma share_seq_init_out m m' cpu dir i seq :
  (forall x, free_area seq x -> ld8 m' x = ld8 m x) ->
  seq_range seq -> share_seq_init m cpu dir i seq -> share_seq_init m' cpu dir i seq.
Proof.
  intros Ho [Hr1 Hr2] []. unfold SHMEM_OFF_MAX_CPU, free_area in *.
  split; rewrite ?Ho, ?(ld_same _ m m') by (intros; try apply Ho; lia); try done.
  - unfold free_fifo in *. apply (fifo_at_frame si_free0).
    + intros x Hx. apply Ho. lia.
    + intros k x Hk Hx. pose proof (Z.mod_pos_bound (ld32 m (seq + 120) + Z.of_nat k) 21 ltac:(lia)).
      apply Ho. lia.
  - intros j Hj. destruct (si_entry0 j Hj) as [E1 E2]. unfold entry_init, call_entry, COMM_MSG_SIZE in *.
    by rewrite !(ld_same _ m m') by (intros; apply Ho; lia).
Qed.

Lemma init_call_entries_wp seq w :
  seq_range seq -> free_fifo (mm w) seq [] ->
  wp (for_exit 20 0 (init_call_entry seq)) (fun _ w' => exists m', w' = set_mm w m' /\
    free_fifo m' seq (free_calls seq 20) /\ (forall j, 0 <= j < 20 -> entry_init m' seq j) /\
    (forall x, x < seq + 120 \/ seq + 276 <= x < seq + 360 \/ seq + 2440 <= x ->
       ld8 m' x = ld8 (mm w) x)) w.
Proof.
  intros Hr H. pose proof Hr as [Hr1 Hr2]. unfold SHMEM_OFF_MAX_CPU in *.
  apply (wp_for_exit 20 0 _ (fun j w' => exists m', w' = set_mm w m' /\
    free_fifo m' seq (free_calls seq j) /\ (forall k, 0 <= k < j -> entry_init m' seq k) /\
    (forall x, x < seq + 120 \/ seq + 276 <= x < seq + 360 \/ seq + 2440 <= x ->
       ld8 m' x = ld8 (mm w) x))).
  - exists (mm w). rewrite set_mm_id. ands; try done. lia.
  - intros j w1 Hj (m1 & -> & H1 & He & Ho).
    assert (Ej : Z.of_nat (Z.to_nat j) = j) by lia. rewrite <- Ej in H1 |- *.
    eapply wp_mono; [apply (init_call_entry_wp seq (Z.to_nat j) (set_mm w m1)); [done | lia | done]|].
    intros r w2 (-> & m2 & -> & H2 & He2 & Ho2). wsimp. rewrite Ej in *. exists m2.
    assert (Hce : forall k, call_entry seq k = seq + 360 + 104 * k)
      by (intros; unfold call_entry, COMM_MSG_SIZE; lia).
    ands; try done.
    + intros k Hk. destruct (decide (k = j)) as [->|]; [done|].
      destruct (He k ltac:(lia)) as [E1 E2]. unfold entry_init.
      rewrite !(ld_same _ m1 m2) by (intros; apply Ho2; rewrite !Hce in *; lia). done.
    + intros x Hx. rewrite Ho2 by (rewrite Hce; lia). by apply Ho.
  - intros w1 H1. simpl in H1. exact H1.
Qed.

Lemma init_share_seq_wp cpu dir i w :
  0 <= cpu <= 1 -> 0 <= dir <= 1 -> 0 <= i <= 1 ->
  let seq := getShareSeq cpu dir i in
  wp (init_share_seq cpu dir i) (fun r w' => r = None /\ exists m', w' = set_mm w m' /\
    share_seq_init m' cpu dir i seq /\
    (forall x, ~ free_area seq x -> ld8 m' x = ld8 (mm w) x)) w.
Proof.
  intros Hc Hd Hi seq. shm_facts.
  pose proof (getShareSeq_at cpu dir i Hc Hd Hi) as Es. fold seq in Es.
  assert (Hr : seq_range seq) by (unfold seq_range, SHMEM_OFF_MAX_CPU; lia).
  assert (Hin : in_shm (seq + 192)) by (unfold in_shm; lia).
  pose proof (phy2vir_vir2phy _ Hin) as Ep. pose proof (vir2phy_nonzero _ Hin) as En.
  pose proof (vir2phy_shm _ Hin) as Eb.
  unfold init_share_seq. fold seq. rewrite (u32_small (seq + 192)) by lia.
  rewrite (eqb_neq_false seq), (eqb_neq_false (seq + 192)), (eqb_neq_false (vir2phy _)), Ep by lia.
  rewrite (eqb_neq_false (seq + 192)) by lia. cbv zeta. cbn [negb].
  do 10 wp_step. set (m1 := fill _ _ _ _).
  eapply wp_call; [apply (init_fifo_header_wp _ _ (seq + 192)); lia|].
  intros _ w' (m2 & -> & H2 & Hs2 & Ho2). apply wp_strncpy. intros m3 Ho3 _. wsimp. wp_step.
  set (m4 := st32 m3 _ _).
  assert (H4 : free_fifo m4 seq []).
  { eapply (fifo_at_same_out H2 _ (seq + 152) 36); [|lia|lia].
    eapply same_out_trans; [|apply same_out_st; lia].
    eapply same_out_weaken; [exact Ho3 | lia | lia]. }
  assert (Hslot : fifo_full 21 [] = false) by done.
  eapply wp_call; [apply (fifo_getItemWr_wp (w := set_mm w m4) H4)|].
  intros a w' [-> ->]. rewrite Hslot. pose proof (fifo_wr_range H4) as Hwr.
  rewrite eqb_neq_false by (rewrite ?mm_set_mm; lia).
  eapply wp_call; [apply (init_call_entries_wp seq (set_mm w m4) Hr H4)|].
  intros _ w' (m5 & -> & H5 & He & Ho5). wsimp. wp_step. wp_step. split; [done|]. eexists.
  split; [done|].
  assert (Hall : forall x, x < seq + 120 \/ seq + 276 <= x < seq + 360 \/ seq + 2440 <= x ->
    ld8 m5 x = ld8 m1 x).
  { intros x Hx. rewrite Ho5 by done. wsimp. unfold m4. rewrite ld8_st_out by lia.
    rewrite Ho3 by lia. wsimp. rewrite Ho2 by lia. done. }
  split.
  - split; memsimp; try done;
      try (rewrite ?Hall, ?(ld_same _ m1 m5) by (intros; try apply Hall; lia);
           unfold m1; memsimp; try (by rewrite u8_small by lia); done).
    + apply (fifo_at_frame H5).
      * intros x Hx. apply ld8_st_out. lia.
      * intros k x Hk Hx. pose proof (Z.mod_pos_bound (ld32 m5 (seq + 120) + Z.of_nat k) 21 ltac:(lia)).
        apply ld8_st_out. lia.
    + intros j Hj. eapply entry_init_out; [by apply He | apply same_out_st; [apply Z.le_refl|] |].
      * simpl. apply Z.le_refl.
      * unfold call_entry, COMM_MSG_SIZE. lia.
    + replace (seq + 132) with (seq + 120 + 12) by lia. by rewrite ld32_st32_eq.
  - unfold free_area. intros x Hx. rewrite ld8_st_out by lia. rewrite Hall by lia. unfold m1.
    rewrite ld8_fill_out by lia. by rewrite !ld8_st_out by lia.
Qed.
End SeqMemSpecs.

(** ** The socket of one CPU *)

Section SocketSpecs.
Context {S : Shm} {OK : ShmOk S} {K : Kernel} {L : SemLaws K}.

(** Wait object [i]: its session word, in entry [i] of the socket. *)
Definition wait_obj (sock i : Z) : Z := sock + 292 + 32 * i.
Definition wait_objs (sock n : Z) : list Z := map (wait_obj sock) (seqZ 0 n).
Definition wait_fifo (m : mem) (sock : Z) (q : list Z) : Prop :=
  fifo_at m (sock + 136) (sock + 208) (sock + 208) 21 q.

(** A wait object that belongs to no call: no session, and the semaphore at +16
    is not initialised yet. *)
Definition wait_init (m : mem) (sock i : Z) : Prop :=
  ld32 m (wait_obj sock i) = u32 SESSION_ID_INVALID /\
  ld32 m (wait_obj sock i + 4) = 0.

Lemma wait_objs_S sock (j : nat) :
  wait_objs sock (Z.of_nat j + 1) = wait_objs sock (Z.of_nat j) ++ [wait_obj sock (Z.of_nat j)].
Proof. unfold wait_objs. by rewrite seqZ_app, map_app by lia. Qed.

Lemma wait_objs_length sock (j : nat) : length (wait_objs sock (Z.of_nat j)) = j.
Proof. unfold wait_objs. rewrite length_map, length_seqZ. lia. Qed.

Lemma init_wait_entry_wp sock (j : nat) w :
  4096 <= sock -> sock + 4992 <= 2 ^ 32 -> (j < 20)%nat ->
  wait_fifo (mm w) sock (wait_objs sock (Z.of_nat j)) ->
  wp (init_wait_entry sock (Z.of_nat j)) (fun r w' => r = None /\ exists m', w' = set_mm w m' /\
    wait_fifo m' sock (wait_objs sock (Z.of_nat j + 1)) /\ wait_init m' sock (Z.of_nat j) /\
    (forall x, x < sock + 136 \/ sock + 292 <= x < wait_obj sock (Z.of_nat j) \/
               wait_obj sock (Z.of_nat j) + 32 <= x -> ld8 m' x = ld8 (mm w) x)) w.
Proof.
  intros Hs1 Hs2 Hj H. unfold wait_fifo in *. set (o := wait_obj sock (Z.of_nat j)).
  assert (Ho : o = sock + 292 + 32 * Z.of_nat j) by done.
  unfold init_wait_entry, sock_at. cbv zeta.
  replace (sock + 4 * (72 + 8 * Z.of_nat j)) with (o - 4) by lia.
  replace (sock + 4 * (79 + 8 * Z.of_nat j)) with (o + 24) by lia.
  replace (sock + 4 * 34) with (sock + 136) by lia.
  do 10 wp_step. set (m1 := st32 _ (o + 24 + 4) _).
  assert (Hm1 : same_out o 32 (mm w) m1) by (intros x Hx; unfold m1; by rewrite !ld8_st_out by lia).
  assert (H1 : fifo_at m1 (sock + 136) (sock + 208) (sock + 208) 21 (wait_objs sock (Z.of_nat j)))
    by (apply (fifo_at_same_out H _ o 32); [done | lia | lia]).
  assert (Hi1 : ld32 m1 o = u32 SESSION_ID_INVALID /\ ld32 m1 (o + 4) = 0).
  { unfold m1. replace (o - 4 + 4) with o by lia. replace (o - 4 + 8) with (o + 4) by lia.
    by memsimp. }
  assert (Hfull : fifo_full 21 (wait_objs sock (Z.of_nat j)) = false).
  { unfold fifo_full. rewrite wait_objs_length. apply eqb_neq_false. lia. }
  pose proof (fifo_wr_range H1) as Hw.
  eapply wp_call; [apply (fifo_getItemWr_wp (w := set_mm w m1) H1)|].
  intros a w' [-> ->]. rewrite Hfull, mm_set_mm, eqb_neq_false by lia. wp_step.
  replace (o + 24 - 24) with o by lia.
  pose proof (fifo_at_slot_write H1 o Hfull) as H2. set (m2 := st32 m1 _ _) in *.
  assert (Ew : wr_slot m2 (sock + 136) = wr_slot m1 (sock + 136)) by (apply ld_st_ne; lia).
  eapply wp_call.
  { apply (fifo_requestItemWr_wp (w := set_mm w m2) _ o H2 Hfull).
    rewrite mm_set_mm, Ew. unfold m2. rewrite ld32_st32_eq. apply u32_small. lia. }
  intros _ w' (m3 & -> & _ & _ & H3 & Ho3 & _). wp_step. split; [done|]. exists m3.
  assert (Hout : forall x, x < sock + 136 \/ sock + 292 <= x -> ld8 m3 x = ld8 m1 x).
  { intros x Hx. rewrite Ho3 by lia. wsimp. unfold m2. apply ld8_st_out. lia. }
  ands; [done | by rewrite wait_objs_S | |].
  - unfold wait_init. fold o. by rewrite !(ld_same _ m1 m3) by (intros; apply Hout; lia).
  - intros x Hx. destruct (decide (x < sock + 136 \/ sock + 292 <= x)); [|lia].
    rewrite Hout by done. apply Hm1. lia.
Qed.

Lemma init_free_wait_wp sock w :
  4096 <= sock -> sock + 4992 <= 2 ^ 32 ->
  wp (init_free_wait sock) (fun _ w' => exists m', w' = set_mm w m' /\
    wait_fifo m' sock (wait_objs sock 20) /\ (forall i, 0 <= i < 20 -> wait_init m' sock i) /\
    same_out (sock + 136) 796 (mm w) m') w.
Proof.
  intros Hs1 Hs2. unfold init_free_wait, sock_at.
  replace (sock + 4 * 34) with (sock + 136) by lia. replace (sock + 4 * 52) with (sock + 208) by lia.
  eapply wp_call; [apply (init_fifo_header_wp _ _ (sock + 208)); lia|].
  intros _ w' (m1 & -> & H1 & _ & Ho1). apply wp_strncpy. intros m2 Ho2 _. wp_step. wp_step.
  set (m3 := fill _ _ _ _).
  assert (Ho3 : same_out (sock + 168) 124 m1 m3).
  { intros x Hx. unfold m3. rewrite ld8_fill_out, ld8_st_out by lia. rewrite Ho2 by lia. done. }
  assert (H3 : wait_fifo m3 sock []).
  { apply (fifo_at_frame H1).
    - intros x Hx. apply Ho3. lia.
    - intros i x Hi. simpl in Hi. lia. }
  eapply wp_call.
  { apply (wp_for_exit 20 0 _ (fun j w' => exists m', w' = set_mm w m' /\
      wait_fifo m' sock (wait_objs sock j) /\ (forall k, 0 <= k < j -> wait_init m' sock k) /\
      (forall x, x < sock + 136 \/ sock + 932 <= x -> ld8 m' x = ld8 m3 x))
      (fun _ w' => exists m', w' = set_mm w m' /\
        wait_fifo m' sock (wait_objs sock 20) /\ (forall k, 0 <= k < 20 -> wait_init m' sock k) /\
        (forall x, x < sock + 136 \/ sock + 932 <= x -> ld8 m' x = ld8 m3 x))).
    - exists m3. wsimp. ands; try done. lia.
    - intros j w1 Hj (m4 & -> & H4 & He & Ho). simpl in Hj.
      assert (Ej : Z.of_nat (Z.to_nat j) = j) by lia. rewrite <- Ej in H4 |- *.
      eapply wp_mono; [apply (init_wait_entry_wp sock (Z.to_nat j) (set_mm w m4)); try done; lia|].
      intros r w2 (-> & m5 & -> & H5 & He5 & Ho5). wsimp. rewrite Ej in *. exists m5.
      unfold wait_obj in *. ands; try done.
      + intros k Hk. destruct (decide (k = j)) as [->|]; [done|].
        destruct (He k ltac:(lia)) as [E1 E2]. unfold wait_init, wait_obj in *.
        rewrite !(ld_same _ m4 m5) by (intros; apply Ho5; lia). done.
      + intros x Hx. rewrite Ho5 by lia. by apply Ho.
    - intros w1 H4. exact H4. }
  intros _ w' (m4 & -> & H4 & He & Ho4). wp_step. eexists. split; [done|].
  replace (sock + 4 * 37) with (sock + 148) by lia. ands.
  - apply (fifo_at_frame H4).
    + intros x Hx. apply ld8_st_out. lia.
    + intros k x Hk Hx. pose proof (Z.mod_pos_bound (ld32 m4 (sock + 136) + Z.of_nat k) 21 ltac:(lia)).
      apply ld8_st_out. lia.
  - intros i Hi. destruct (He i Hi) as [E1 E2]. unfold wait_init, wait_obj in *.
    by rewrite !ld_st_ne by lia.
  - intros x Hx. rewrite ld8_st_out, Ho4, Ho3, Ho1 by lia. done.
Qed.

Lemma init_staging_wp seq ring name w :
  4096 <= seq -> seq + 100 <= 2 ^ 32 -> 4096 <= ring -> ring + 84 <= 2 ^ 32 ->
  seq + 100 <= ring \/ ring + 84 <= seq ->
  wp (init_staging seq ring name) (fun _ w' => exists m1 m', w' = set_mm w m' /\
    same_out ring 84 (mm w) m1 /\ same_out (seq + 32) 68 m1 m' /\
    (forall j b, ring <= b -> b + Z.of_nat j <= ring + 84 -> ld j m' b = 0) /\
    fifo_at m' (seq + 32) ring ring 21 []) w.
Proof.
  intros Hs Hs2 Hr Hr2 Hsep. unfold init_staging. wp_test.
  apply wp_memset_abs; [lia|]. intros m1 Ho1 Hz. change (Z.of_nat (Z.to_nat (21 * 4))) with 84 in *.
  eapply wp_call; [apply (init_fifo_header_wp _ _ ring); lia|].
  intros _ w' (m2 & -> & H2 & _ & Ho2). apply wp_strncpy. intros m3 Ho3 _. wsimp. wp_step.
  change (Z.of_nat 32) with 32 in *.
  exists m1. eexists. split; [done|].
  assert (Hb : forall x, x < seq + 64 \/ seq + 100 <= x -> ld8 (st32 m3 (seq + 96) 0) x = ld8 m2 x).
  { intros x Hx. rewrite ld8_st_out, Ho3 by lia. done. }
  ands; [done | | |].
  - intros x Hx. rewrite Hb, Ho2 by lia. done.
  - intros j b Hb1 Hb2. rewrite (ld_same _ m2) by (intros; apply Hb; lia).
    rewrite (ld_same_out _ _ _ _ _ _ Ho2) by lia. by apply Hz.
  - apply (fifo_at_frame H2); [intros x Hx; apply Hb; lia | intros i x Hi; simpl in Hi; lia].
Qed.

Lemma kseg1_range p : 0xA0000000 <= 0xA0000000 |. (p &. 0x1FFFFFFF) < 0xC0000000.
Proof.
  change 0x1FFFFFFF with (Z.ones 29). rewrite Z.land_ones by lia.
  pose proof (Z.mod_pos_bound p (2 ^ 29) ltac:(lia)).
  replace (0xA0000000 |. (p mod 2 ^ 29)) with (0xA0000000 + p mod 2 ^ 29); [lia|].
  rewrite Z.add_nocarry_lxor, Z.lxor_lor; try done.
  all: rewrite <- (Z.mod_small (p mod 2 ^ 29) (2 ^ 29)), <- Z.land_ones by lia.
  all: apply Z.bits_inj'; intros n Hn; rewrite !Z.land_spec, Z.bits_0, Z.testbit_ones_nonneg by lia.
  all: change 0xA0000000 with (5 * 2 ^ 29); rewrite Z.mul_pow2_bits by lia.
  all: destruct (Z.ltb_spec n 29); [rewrite Z.testbit_neg_r by lia |]; by rewrite ?andb_false_r.
Qed.

Definition mips_items (r d : Z) : Z :=
  0xA0000000 |. (vir2phy (getShareSeq 1 r d + 276) &. 0x1FFFFFFF).

Lemma init_mips_seq_wp r d w :
  0 <= r <= 1 -> 0 <= d <= 1 ->
  let seq := getShareSeq 1 r d in
  wp (init_mips_seq r d) (fun _ w' => exists m', w' = set_mm w m' /\
    (forall x, ~ mips_area seq x -> ld8 m' x = ld8 (mm w) x) /\
    fifo_at m' (seq + 32) (mips_items r d) (seq + 276) 21 []) w.
Proof.
  intros Hr Hd seq. pose proof (getShareSeq_at 1 r d ltac:(lia) Hr Hd) as Es. fold seq in Es.
  shm_facts. unfold init_mips_seq. cbv zeta.
  replace (u32 (ShMemAddrBase + 9760 * 1 + 4880 * r + 2440 * d + 152)) with seq
    by (rewrite u32_small; lia).
  change (u32 (seq + 276 - ShMemAddrBase + ShMemAddr)) with (vir2phy (seq + 276)).
  unfold mips_items. fold seq. pose proof (kseg1_range (vir2phy (seq + 276))).
  set (kb := 0xA0000000 |. _) in *.
  apply wp_memset_abs; [lia|]. intros m1 Ho1 _. change (Z.of_nat 64) with 64 in *. do 7 wp_step.
  set (m2 := st32 _ (seq + 32 + 24) kb).
  apply wp_memset_abs; [lia|]. intros m3 Ho3 _. change (Z.of_nat 84) with 84 in *. wp_step.
  apply wp_memset_abs; [lia|]. intros m4 Ho4 _. change (Z.of_nat 40) with 40 in *.
  apply wp_strncpy. intros m5 Ho5 _. change (Z.of_nat 32) with 32 in *. wsimp. wp_step.
  eexists. split; [done|]. split.
  - unfold mips_area. intros x Hx. unfold m2 in *. chase8. done.
  - assert (E : forall b, seq + 32 <= b -> b + 4 <= seq + 32 + 28 ->
      ld32 (st32 m5 (seq + 96) 0) b = ld32 m2 b).
    { intros b Hb1 Hb2. change (Z.of_nat 64) with 64 in *. chase. done. }
    assert (Ev : ld32 m2 (seq + 32) = 0 /\ ld32 m2 (seq + 32 + 4) = 0 /\
      ld32 m2 (seq + 32 + 16) = 21 /\ ld32 m2 (seq + 32 + 20) = 4 /\ ld32 m2 (seq + 32 + 24) = kb).
    { unfold m2. memsimp. rewrite u32_small by lia. done. }
    destruct Ev as (E0 & E1 & E2 & E3 & E4).
    split; rewrite ?E by lia; rewrite ?E0, ?E1, ?E2, ?E3, ?E4; try done; lia.
Qed.

Definition sock_of (cpu : Z) : Z := s_CommSockt + COMM_SOCKET_SIZE * cpu.

Record socket_init (m : mem) (cpu sock : Z) : Prop := SocketInit {
  so_id : ld32 m sock = cpu;
  so_free : wait_fifo m sock (wait_objs sock 20);
  so_wait : forall i, 0 <= i < 20 -> wait_init m sock i;
  so_local_send : sem_count m (sock + 8) = 1;
  so_local_ack : sem_count m (sock + 24) = 0;
  so_wait_sem : sem_count m (sock + 120) = 1;
  so_pipe_sem : sem_count m (sock + 936) = 1;
  so_remote_send : sem_count m (sock + 1036) = 1;
  so_remote_ack : sem_count m (sock + 1052) = 0;
  so_return_sem : sem_count m (sock + 1148) = 1;
  so_wait_list : ld32 m (sock + 96) = sock + 96 /\ ld32 m (sock + 100) = sock + 96;
  so_return_list : ld32 m (sock + 1124) = sock + 1124 /\ ld32 m (sock + 1128) = sock + 1124;
  so_wait_empty : ld32 m (sock + 92) = 0 /\ sem_count m (sock + 104) = 1;
  so_return_empty : ld32 m (sock + 1120) = 0 /\ sem_count m (sock + 1132) = 1;
}.

(** The FIFOs through which messages for this CPU arrive. *)
Definition staging_init (m : mem) (cpu : Z) : Prop :=
  fifo_at m (getShareSeq 0 cpu 0 + 32) (sock_of cpu + 952) (sock_of cpu + 952) 21 [] /\
  fifo_at m (getShareSeq 0 cpu 1 + 32) (sock_of cpu + 1164) (sock_of cpu + 1164) 21 [].

Definition mips_init (m : mem) : Prop := forall r d, 0 <= r <= 1 -> 0 <= d <= 1 ->
  fifo_at m (getShareSeq 1 r d + 32) (mips_items r d) (getShareSeq 1 r d + 276) 21 [].

Definition socket_frame (cpu : Z) (m m' : mem) : Prop := forall x,
  ~ (sock_of cpu <= x < sock_of cpu + 1248) ->
  (forall d, 0 <= d <= 1 -> ~ recv_area (getShareSeq 0 cpu d) x) ->
  (cpu = 1 -> forall r d, 0 <= r <= 1 -> 0 <= d <= 1 -> ~ mips_area (getShareSeq 1 r d) x) ->
  ld8 m' x = ld8 m x.

Lemma interSeq2Name_wp {B} sock (k : list Z -> M B) Q w :
  4096 <= sock -> 0 <= ld32 (mm w) sock <= 1 ->
  (forall n, (length n < 48)%nat -> Forall (fun b => 0 < b < 256) n -> wp (k n) Q w) ->
  wp (interSeq2Name sock ≫= k) Q w.
Proof.
  intros Hs Hv H. unfold interSeq2Name. wp_step. wp_step. wp_step. apply H.
  all: assert (E : ld32 (mm w) sock = 0 \/ ld32 (mm w) sock = 1) by lia.
  all: destruct E as [-> | ->]; vm_compute; try lia.
  all: repeat constructor.
Qed.

Lemma init_socket_wp cpu sock w :
  0 <= cpu <= 1 -> 4096 <= sock -> sock + 4992 <= 2 ^ 32 ->
  wp (init_socket cpu sock) (fun _ w' => exists m', w' = set_mm w m' /\
    socket_init m' cpu sock /\ ld32 m' (sock + 992) = 1 /\ same_out sock 1164 (mm w) m') w.
Proof.
  intros Hc Hs Hs2. unfold init_socket, sock_at.
  apply wp_wr_abs; [lia|]. intros m1 Ho1 E1. change (256 ^ Z.of_nat 4) with (2 ^ 32) in *.
  rewrite Z.mod_small in E1 by lia.
  apply wp_sema_init_abs; [lia|]. intros m2 Ho2 E2. apply wp_sema_init_abs; [lia|]. intros m3 Ho3 E3.
  apply interSeq2Name_wp; [lia | wsimp; chase; lia |]. intros n Hn Hnc.
  eapply wp_call; [apply InitMsgFIFO_wp; [lia | done | done]|].
  intros _ w' (m4 & -> & Ho4 & E4 & E4c & E4a & E4b).
  apply wp_sema_init_abs; [lia|]. intros m5 Ho5 E5.
  eapply wp_call; [apply (init_free_wait_wp sock); lia|]. intros _ w' (m6 & -> & Hf6 & Hw6 & Ho6).
  apply wp_sema_init_abs; [lia|]. intros m7 Ho7 E7.
  apply wp_memset_abs; [lia|]. intros m8 Ho8 _. change (Z.of_nat (Z.to_nat (21 * 4))) with 84 in *.
  apply wp_wr_abs; [lia|]. intros m9 Ho9 E9.
  apply wp_sema_init_abs; [lia|]. intros m10 Ho10 E10. apply wp_sema_init_abs; [lia|]. intros m11 Ho11 E11.
  apply interSeq2Name_wp; [lia | wsimp; chase; lia |]. intros n2 Hn2 Hnc2.
  eapply wp_call; [apply InitMsgFIFO_wp; [lia | done | done]|].
  intros _ w' (m12 & -> & Ho12 & E12 & E12c & E12a & E12b).
  apply wp_sema_init_abs; [lia|]. intros m13 Ho13 E13. wp_step. wsimp.
  exists m13. change (Z.of_nat 4) with 4 in *.
  replace (sock + 4 * 10 + 56) with (sock + 96) in * by lia.
  replace (sock + 4 * 10 + 60) with (sock + 100) in * by lia.
  replace (sock + 4 * 267 + 56) with (sock + 1124) in * by lia.
  replace (sock + 4 * 10 + 52) with (sock + 92) in * by lia.
  replace (sock + 4 * 267 + 52) with (sock + 1120) in * by lia.
  replace (sock + 4 * 10 + 64) with (sock + 104) in * by lia.
  replace (sock + 4 * 267 + 64) with (sock + 1132) in * by lia.
  replace (sock + 4 * 267 + 60) with (sock + 1128) in * by lia.
  replace (sock + 4 * 2) with (sock + 8) in * by lia.
  replace (sock + 4 * 6) with (sock + 24) in * by lia.
  replace (sock + 4 * 30) with (sock + 120) in * by lia.
  replace (sock + 4 * 234) with (sock + 936) in * by lia.
  replace (sock + 4 * 259) with (sock + 1036) in * by lia.
  replace (sock + 4 * 263) with (sock + 1052) in * by lia.
  replace (sock + 4 * 287) with (sock + 1148) in * by lia.
  replace (sock + 4 * 248) with (sock + 992) in * by lia.
  assert (Hfr : same_out (sock + 936) 228 m6 m13) by (intros x Hx; chase8; done).
  ands; [done | | chase; rewrite E9; reflexivity | intros x Hx; chase8; done].
  split.
  - chase. done.
  - apply (fifo_at_same_out Hf6 _ (sock + 936) 228); [done | lia | lia].
  - intros i Hi. destruct (Hw6 i Hi) as [H1 H2]. unfold wait_init, wait_obj in *.
    by rewrite !(ld_same_out _ _ _ _ _ _ Hfr) by lia.
  - clear Hfr. chase. fold (sem_count m2 (sock + 8)). by rewrite E2.
  - clear Hfr. chase. fold (sem_count m3 (sock + 24)). by rewrite E3.
  - clear Hfr. chase. fold (sem_count m5 (sock + 120)). by rewrite E5.
  - clear Hfr. chase. fold (sem_count m7 (sock + 936)). by rewrite E7.
  - clear Hfr. chase. fold (sem_count m10 (sock + 1036)). by rewrite E10.
  - clear Hfr. chase. fold (sem_count m11 (sock + 1052)). by rewrite E11.
  - by rewrite E13.
  - clear Hfr. chase. by rewrite E4a, E4b.
  - clear Hfr. chase. by rewrite E12a, E12b.
  - clear Hfr. rewrite <- E4. unfold sem_count. chase. done.
  - clear Hfr. rewrite <- E12. unfold sem_count. chase. done.
Qed.

Lemma socket_init_out m m' cpu sock lo n :
  same_out lo n m m' -> sock + 1164 <= lo \/ lo + n <= sock ->
  socket_init m cpu sock -> socket_init m' cpu sock.
Proof.
  intros Ho Hd []. split; unfold sem_count in *;
    try (rewrite !(ld_same_out _ _ _ _ _ _ Ho) by lia; done).
  - apply (fifo_at_same_out so_free0 _ lo n); [done | lia | lia].
  - intros i Hi. destruct (so_wait0 i Hi) as [H1 H2]. unfold wait_init, wait_obj in *.
    by rewrite !(ld_same_out _ _ _ _ _ _ Ho) by lia.
Qed.

(** Likewise when only the CallCmd ring at +952 is rewritten. *)
Lemma socket_init_ring m m' cpu sock :
  same_out (sock + 952) 84 m m' -> socket_init m cpu sock -> socket_init m' cpu sock.
Proof.
  intros Ho []. split; unfold sem_count in *;
    try (rewrite !(ld_same_out _ _ _ _ _ _ Ho) by lia; done).
  - apply (fifo_at_same_out so_free0 _ (sock + 952) 84); [done | lia | lia].
  - intros i Hi. destruct (so_wait0 i Hi) as [H1 H2]. unfold wait_init, wait_obj in *.
    by rewrite !(ld_same_out _ _ _ _ _ _ Ho) by lia.
Qed.

Lemma mips_fifo_out m m' r d :
  0 <= r <= 1 -> 0 <= d <= 1 ->
  (forall x, mips_area (getShareSeq 1 r d) x -> ld8 m' x = ld8 m x) ->
  fifo_at m (getShareSeq 1 r d + 32) (mips_items r d) (getShareSeq 1 r d + 276) 21 [] ->
  fifo_at m' (getShareSeq 1 r d + 32) (mips_items r d) (getShareSeq 1 r d + 276) 21 [].
Proof.
  unfold mips_area. intros Hr Hd Ho H. apply (fifo_at_frame H).
  - intros x Hx. apply Ho. lia.
  - intros i x Hi. simpl in Hi. lia.
Qed.

(** Two sequences do not overlap. *)
Lemma getShareSeq_apart c d i c' d' i' :
  0 <= c <= 1 -> 0 <= d <= 1 -> 0 <= i <= 1 -> 0 <= c' <= 1 -> 0 <= d' <= 1 -> 0 <= i' <= 1 ->
  (c = c' /\ d = d' /\ i = i') \/ getShareSeq c d i + 2440 <= getShareSeq c' d' i' \/
  getShareSeq c' d' i' + 2440 <= getShareSeq c d i.
Proof. intros. rewrite !getShareSeq_at by done. lia. Qed.

Lemma init_mips_seqs_wp w :
  wp (for_ 2 0 (fun r => for_ 2 0 (fun d => init_mips_seq r d))) (fun _ w' => exists m',
    w' = set_mm w m' /\ mips_init m' /\
    (forall x, (forall r d, 0 <= r <= 1 -> 0 <= d <= 1 -> ~ mips_area (getShareSeq 1 r d) x) ->
       ld8 m' x = ld8 (mm w) x)) w.
Proof.
  apply (wp_for 2 0 _ (fun r w' => exists m', w' = set_mm w m' /\
    (forall r' d, 0 <= r' < r -> 0 <= d <= 1 ->
       fifo_at m' (getShareSeq 1 r' d + 32) (mips_items r' d) (getShareSeq 1 r' d + 276) 21 []) /\
    (forall x, (forall r d, 0 <= r <= 1 -> 0 <= d <= 1 -> ~ mips_area (getShareSeq 1 r d) x) ->
       ld8 m' x = ld8 (mm w) x))).
  - exists (mm w). rewrite set_mm_id. ands; [done | lia | done].
  - intros r w1 Hr (m1 & -> & H1 & Ho1).
    apply (wp_for 2 0 _ (fun d w' => exists m', w' = set_mm w m' /\
      (forall r' d', (0 <= r' < r /\ 0 <= d' <= 1) \/ (r' = r /\ 0 <= d' < d) ->
         fifo_at m' (getShareSeq 1 r' d' + 32) (mips_items r' d') (getShareSeq 1 r' d' + 276) 21 []) /\
      (forall x, (forall r d, 0 <= r <= 1 -> 0 <= d <= 1 -> ~ mips_area (getShareSeq 1 r d) x) ->
         ld8 m' x = ld8 (mm w) x))).
    + exists m1. ands; [done | | done]. intros r' d' [[? ?]|[? ?]]; [by apply H1 | lia].
    + intros d w2 Hd (m2 & -> & H2 & Ho2).
      eapply wp_mono; [apply (init_mips_seq_wp r d); lia|].
      intros [] w3 (m3 & -> & Ho3 & H3). wsimp. rewrite mm_set_mm in Ho3. exists m3.
      ands; [done | |].
      * intros r' d' Hrd. destruct (decide (r' = r /\ d' = d)) as [[-> ->]|Hne]; [done|].
        apply (mips_fifo_out m2); [lia | lia | | apply H2; lia]. intros x Hx. apply Ho3.
        destruct (getShareSeq_apart 1 r' d' 1 r d) as [?|?]; try lia.
        unfold mips_area in *. lia.
      * intros x Hx. rewrite Ho3 by (apply Hx; lia). by apply Ho2.
    + intros w2 (m2 & -> & H2 & Ho2). exists m2. ands; [done | | done].
      intros r' d Hr' Hd. apply H2. lia.
  - intros w1 (m1 & -> & H1 & Ho1). exists m1. ands; [done | | done].
    intros r d Hr Hd. apply H1; lia.
Qed.

Lemma InitCommSeqMem_wp cpu w :
  0 <= cpu <= 1 ->
  wp (InitCommSeqMem cpu) (fun _ w' => exists m', w' = set_mm w m' /\
    socket_init m' cpu (sock_of cpu) /\ staging_init m' cpu /\
    ld32 m' (sock_of cpu + 992) = 0 /\ (cpu = 1 -> mips_init m') /\
    socket_frame cpu (mm w) m') w.
Proof.
  intros Hc. shm_facts. unfold InitCommSeqMem, sock_at, COMM_SOCKET_SIZE. cbv zeta. wp_test.
  change (4992 / 4) with 1248.
  replace (s_CommSockt + 4 * (cpu * 1248)) with (sock_of cpu) by (unfold sock_of, COMM_SOCKET_SIZE; lia).
  assert (Hsk : s_CommSockt <= sock_of cpu <= s_CommSockt + 4992)
    by (unfold sock_of, COMM_SOCKET_SIZE; lia).
  set (sock := sock_of cpu) in *.
  unfold getShareSeqR, getCurCPUID, CPU_ID_ARM, staging_init. fold sock.
  assert (Hq : ShMemAddrBase + 152 <= getShareSeq 0 cpu 0 /\
    getShareSeq 0 cpu 1 = getShareSeq 0 cpu 0 + 2440 /\
    getShareSeq 0 cpu 1 + 2440 <= ShMemAddrBase + 9912) by (rewrite !getShareSeq_at by lia; lia).
  assert (Hrecv : forall x, (forall d, 0 <= d <= 1 -> ~ recv_area (getShareSeq 0 cpu d) x) ->
    ~ recv_area (getShareSeq 0 cpu 0) x /\ ~ recv_area (getShareSeq 0 cpu 1) x)
    by (intros x Hx; split; apply Hx; lia).
  unfold socket_frame. fold sock. unfold recv_area in *.
  set (q0 := getShareSeq 0 cpu 0) in *. set (q1 := getShareSeq 0 cpu 1) in *. clearbody q0 q1.
  eapply wp_call; [apply (init_socket_wp cpu sock w); lia|]. intros _ w' (m1 & -> & H1 & _ & Ho1).
  eapply wp_call; [apply (init_staging_wp q0 (sock + 4 * 238)); lia|].
  intros _ w' (m2a & m2 & -> & Ho2a & Ho2 & Hz2 & Hq2).
  eapply wp_call; [apply (init_staging_wp q1 (sock + 4 * 291)); lia|].
  intros _ w' (m3a & m3 & -> & Ho3a & Ho3 & _ & Hq3). wsimp. rewrite !mm_set_mm in *.
  replace (sock + 4 * 238) with (sock + 952) in * by lia.
  replace (sock + 4 * 291) with (sock + 1164) in * by lia.
  assert (H3 : socket_init m3 cpu sock).
  { eapply socket_init_out; [exact Ho3 | lia |]. eapply socket_init_out; [exact Ho3a | lia |].
    eapply socket_init_out; [exact Ho2 | lia |]. by eapply socket_init_ring. }
  assert (Hq2' : fifo_at m3 (q0 + 32) (sock + 952) (sock + 952) 21 []).
  { assert (Hq2a : fifo_at m3a (q0 + 32) (sock + 952) (sock + 952) 21 [])
      by (apply (fifo_at_same_out Hq2 _ (sock + 1164) 84); [done | lia | lia]).
    apply (fifo_at_same_out Hq2a _ (q1 + 32) 68); [done | lia | lia]. }
  assert (Hz3 : ld32 m3 (sock + 992) = 0).
  { rewrite (ld_same_out _ _ _ _ _ _ Ho3), (ld_same_out _ _ _ _ _ _ Ho3a) by lia. apply Hz2; lia. }
  assert (Hfr : forall x, ~ (sock <= x < sock + 1248) ->
    ~ (q0 + 32 <= x < q0 + 100) /\ ~ (q1 + 32 <= x < q1 + 100) -> ld8 m3 x = ld8 (mm w) x).
  { intros x Hx1 [Hx2 Hx3]. chase8. done. }
  destruct (cpu =? 1) eqn:E1; zbool.
  2: { wp_step. exists m3. ands; try done. intros x Hx1 Hx2 _. apply Hfr; auto. }
  eapply wp_mono; [apply init_mips_seqs_wp|]. intros [] w' (m4 & -> & H4 & Ho4). wsimp.
  rewrite mm_set_mm in Ho4. exists m4.
  assert (Hlo : forall x, x < ShMemAddrBase + 9912 \/ ShMemAddrBase + 19672 <= x -> ld8 m4 x = ld8 m3 x).
  { intros x Hx. apply Ho4. intros r d Hr Hd. unfold mips_area. rewrite getShareSeq_at by lia. lia. }
  assert (Ho4' : same_out (ShMemAddrBase + 9912) 9760 m3 m4) by (intros x Hx; apply Hlo; lia).
  ands; try done.
  - eapply socket_init_out; [exact Ho4' | lia | done].
  - apply (fifo_at_same_out Hq2' _ _ _ Ho4'); lia.
  - apply (fifo_at_same_out Hq3 _ _ _ Ho4'); lia.
  - by rewrite (ld_same_out _ _ _ _ _ _ Ho4') by lia.
  - intros x Hx1 Hx2 Hx3. rewrite Ho4 by (by apply Hx3). apply Hfr; auto.
Qed.
End SocketSpecs.

(** ** Properties *)

Section ShareSeqSpec.
Context {S : Shm} {OK : ShmOk S} {K : Kernel}.

Lemma seq_range_at cpu dir i :
  0 <= cpu <= 1 -> 0 <= dir <= 1 -> 0 <= i <= 1 -> seq_range (getShareSeq cpu dir i).
Proof.
  intros. shm_facts. unfold seq_range, SHMEM_OFF_MAX_CPU. rewrite getShareSeq_at by done. lia.
Qed.

(** One CPU pair's free lists are all that its initialisation touches. *)
Definition pair_frame (cpu dir : Z) (m m' : mem) : Prop := forall x,
  (forall i, 0 <= i <= 1 -> ~ free_area (getShareSeq cpu dir i) x) -> ld8 m' x = ld8 m x.

Lemma InitCommShareSeqMem_wp cpu dir w :
  0 <= cpu <= 1 -> 0 <= dir <= 1 ->
  wp (InitCommShareSeqMem cpu dir) (fun _ w' => exists m', w' = set_mm w m' /\
    (forall i, 0 <= i <= 1 -> share_seq_init m' cpu dir i (getShareSeq cpu dir i)) /\
    pair_frame cpu dir (mm w) m') w.
Proof.
  intros Hc Hd. shm_facts. unfold InitCommShareSeqMem. wp_test.
  eapply (wp_call _ _ (fun _ w' => exists m', w' = set_mm w m' /\
    (forall i, 0 <= i <= 1 -> share_seq_init m' cpu dir i (getShareSeq cpu dir i)) /\
    pair_frame cpu dir (mm w) m')); [|intros r w' H; by wp_step].
  apply (wp_for_exit 2 0 _ (fun j w' => exists m', w' = set_mm w m' /\
    (forall i, 0 <= i < j -> share_seq_init m' cpu dir i (getShareSeq cpu dir i)) /\
    pair_frame cpu dir (mm w) m')).
  - exists (mm w). rewrite set_mm_id. ands; [done | lia | done].
  - intros j w1 Hj (m1 & -> & H1 & Ho1).
    eapply wp_mono; [apply (init_share_seq_wp cpu dir j); lia|].
    intros r w2 (-> & m2 & -> & H2 & Ho2). wsimp. rewrite mm_set_mm in Ho2. exists m2.
    ands; [done | |].
    + intros i Hi. destruct (decide (i = j)) as [->|]; [done|].
      apply (share_seq_init_out m1); [| apply seq_range_at; lia | apply H1; lia].
      intros x Hx. apply Ho2. destruct (getShareSeq_apart cpu dir i cpu dir j) as [?|?]; try lia.
      unfold free_area in *. lia.
    + intros x Hx. rewrite Ho2 by (apply Hx; lia). by apply Ho1.
  - intros w1 (m1 & -> & H1 & Ho1). exists m1. ands; [done | | done]. intros i Hi. apply H1. lia.
Qed.
End ShareSeqSpec.

(** [InitCommShareSeqMem] gives each direction of the CPU pair a free list that holds exactly
    its twenty call entries, as physical addresses and in order, with slot numbers 0 to 19 and no
    session, tracking switched off; it returns for every pair, and nothing outside the pair's two
    sequences changes, so the eight sequences never disturb each other. *)
Theorem InitCommShareSeqMem_establishes {S : Shm} {OK : ShmOk S} {K : Kernel} cpu dir w :
  0 <= cpu <= 1 -> 0 <= dir <= 1 ->
  exists m', InitCommShareSeqMem cpu dir w = Ret tt (set_mm w m') /\
    (forall i, 0 <= i <= 1 -> share_seq_init m' cpu dir i (getShareSeq cpu dir i)) /\
    (forall c d i x, 0 <= c <= 1 -> 0 <= d <= 1 -> 0 <= i <= 1 -> (c, d) <> (cpu, dir) ->
       getShareSeq c d i <= x < getShareSeq c d i + 2440 -> ld8 m' x = ld8 (mm w) x) /\
    pair_frame cpu dir (mm w) m'.
Proof.
  intros Hc Hd.
  destruct (wp_run _ _ _ (InitCommShareSeqMem_wp cpu dir w Hc Hd)) as ([] & w' & E & m' & -> & H & Ho).
  exists m'. ands; try done.
  intros c d i x H1 H2 H3 Hne Hx. apply Ho. intros i' Hi' Hf.
  destruct (getShareSeq_apart c d i cpu dir i') as [(-> & -> & _)|?]; try lia; [done|].
  unfold free_area in Hf. lia.
Qed.

Lemma InitCommShareSeqMem_establishes_witness : exists m',
  InitCommShareSeqMem 1 0 blank_world = Ret tt (set_mm blank_world m') /\
  free_fifo m' (getShareSeq 1 0 0) (free_calls (getShareSeq 1 0 0) 20).
Proof.
  destruct (InitCommShareSeqMem_establishes 1 0 blank_world) as (m' & E & H & _); [lia | lia |].
  exists m'. split; [exact E|]. destruct (H 0 ltac:(lia)) as [H1 _ _ _ _ _ _ _]. exact H1.
Defined.

(** [InitCommSeqMem] gives each CPU a socket whose free-wait list holds exactly its twenty wait
    objects in order, none with a session, whose two waiting lists are empty, and whose seven
    semaphores have the counts the send and receive paths rely on (send 1, ack 0, list locks 1);
    the incoming call and return FIFOs are empty, and for CPU 1 so are the four FIFOs set up for
    MIPS.  Nothing else changes. *)
Theorem InitCommSeqMem_establishes {S : Shm} {OK : ShmOk S} {K : Kernel} {L : SemLaws K} cpu w :
  0 <= cpu <= 1 ->
  exists m', InitCommSeqMem cpu w = Ret tt (set_mm w m') /\
    socket_init m' cpu (sock_of cpu) /\ staging_init m' cpu /\ (cpu = 1 -> mips_init m') /\
    socket_frame cpu (mm w) m'.
Proof.
  intros Hc.
  destruct (wp_run _ _ _ (InitCommSeqMem_wp cpu w Hc)) as ([] & w' & E & m' & -> & H1 & H2 & _ & H3 & H4).
  by exists m'.
Qed.

Lemma InitCommSeqMem_establishes_witness : exists m',
  InitCommSeqMem 1 blank_world = Ret tt (set_mm blank_world m') /\
  wait_fifo m' (sock_of 1) (wait_objs (sock_of 1) 20) /\ mips_init m'.
Proof.
  destruct (InitCommSeqMem_establishes 1 blank_world) as (m' & E & [_ H _ _ _ _ _ _ _ _ _ _ _ _] & _ & H2 & _); [lia|].
  exists m'. split; [exact E|]. split; [exact H | apply H2; reflexivity].
Defined.

(** The remote-send word of the MIPS view, [sock[248]], is meant to be 1 for IPC to work, and
    [InitCommSeqMem] writes 1 to it; but the CallCmd ring, which the word lies in, is cleared again
    afterwards, so the function always leaves 0 there. *)
Theorem remote_send_word_cleared {S : Shm} {OK : ShmOk S} {K : Kernel} {L : SemLaws K} cpu w :
  0 <= cpu <= 1 ->
  exists m', InitCommSeqMem cpu w = Ret tt (set_mm w m') /\
    ld32 m' (sock_at (sock_of cpu) 248) = 0.
Proof.
  intros Hc.
  destruct (wp_run _ _ _ (InitCommSeqMem_wp cpu w Hc)) as ([] & w' & E & m' & -> & _ & _ & H & _).
  exists m'. split; [done|]. unfold sock_at. by replace (4 * 248) with 992 by lia.
Qed.

Lemma remote_send_word_cleared_witness : exists m',
  InitCommSeqMem 0 blank_world = Ret tt (set_mm blank_world m') /\
  ld32 m' (sock_at (sock_of 0) 248) = 0.
Proof. apply (remote_send_word_cleared 0 blank_world). lia. Defined.
