(* ===== verification/Boot.v ===== *)
(** The state the sockets and the shared sequences are in once [InitCommMem] has
    set them up for both CPUs: the starting point of the theorems on calls,
    waits and returns. *)
From S2P Require Import Prelude Mem Kernel Fifo Shm SpinLock SeqMem.

Section Boot.
Context {S : Shm} {K : Kernel}.

(** "Initialize ALL sockets" of [InitCommMem]. *)
Definition InitCommSeqs : M unit :=
  InitCommSeqMem CPU_ID_ARM ;;
  InitCommShareSeqMem CPU_ID_ARM 0 ;;
  InitCommShareSeqMem CPU_ID_ARM 1 ;;
  InitCommSeqMem CPU_ID_MIPS ;;
  InitCommShareSeqMem CPU_ID_MIPS 0 ;;
  InitCommShareSeqMem CPU_ID_MIPS 1.
End Boot.

Section BootSpecs.
Context {S : Shm} {OK : ShmOk S} {K : Kernel} {L : SemLaws K}.

Record seqs_init (m : mem) : Prop := SeqsInit {
  sq_socket : forall cpu, 0 <= cpu <= 1 -> socket_init m cpu (sock_of cpu);
  sq_staging : forall cpu, 0 <= cpu <= 1 -> staging_init m cpu;
  sq_mips : mips_init m;
  sq_pools : forall cpu dir i, 0 <= cpu <= 1 -> 0 <= dir <= 1 -> 0 <= i <= 1 ->
    share_seq_init m cpu dir i (getShareSeq cpu dir i);
}.

(** Initialising one pair's free lists leaves everything else set up. *)
Lemma pair_frame_socket c d m m' cpu : 0 <= c <= 1 -> 0 <= d <= 1 -> 0 <= cpu <= 1 ->
  pair_frame c d m m' -> socket_init m cpu (sock_of cpu) -> socket_init m' cpu (sock_of cpu).
Proof.
  intros Hc Hd Hcpu Ho. shm_facts. apply (socket_init_out _ _ _ _ (ShMemAddrBase + 152) 19520).
  - intros x Hx. apply Ho. intros i Hi. unfold free_area. rewrite getShareSeq_at by lia. lia.
  - unfold sock_of, COMM_SOCKET_SIZE. lia.
Qed.

Lemma pair_frame_staging c d m m' cpu : 0 <= c <= 1 -> 0 <= d <= 1 -> 0 <= cpu <= 1 ->
  pair_frame c d m m' -> staging_init m cpu -> staging_init m' cpu.
Proof.
  intros Hc Hd Hcpu Ho [H1 H2].
  assert (Hq : forall i x, 0 <= i <= 1 -> recv_area (getShareSeq 0 cpu i) x -> ld8 m' x = ld8 m x).
  { intros i x Hi Hx. apply Ho. intros i' Hi'. unfold free_area, recv_area in *.
    rewrite getShareSeq_at in Hx by lia. rewrite getShareSeq_at by lia. idtac. lia. }
  split; [apply (fifo_at_frame H1) | apply (fifo_at_frame H2)].
  1: intros x Hx; apply (Hq 0); [lia | unfold recv_area; lia].
  2: intros x Hx; apply (Hq 1); [lia | unfold recv_area; lia].
  all: intros i x Hi; simpl in Hi; lia.
Qed.

Lemma pair_frame_mips c d m m' : 0 <= c <= 1 -> 0 <= d <= 1 ->
  pair_frame c d m m' -> mips_init m -> mips_init m'.
Proof.
  intros Hc Hd Ho H r k Hr Hk. apply (fifo_at_frame (H r k Hr Hk)).
  - intros x Hx. apply Ho. intros i Hi. unfold free_area. rewrite getShareSeq_at in Hx by lia.
    rewrite getShareSeq_at by lia. lia.
  - intros i x Hi. simpl in Hi. lia.
Qed.

Lemma pair_frame_pool c d m m' cpu dir i : 0 <= c <= 1 -> 0 <= d <= 1 ->
  0 <= cpu <= 1 -> 0 <= dir <= 1 -> 0 <= i <= 1 -> (c, d) <> (cpu, dir) ->
  pair_frame c d m m' -> share_seq_init m cpu dir i (getShareSeq cpu dir i) ->
  share_seq_init m' cpu dir i (getShareSeq cpu dir i).
Proof.
  intros Hc Hd H1 H2 H3 Hne Ho. apply share_seq_init_out; [|by apply seq_range_at].
  intros x Hx. apply Ho. intros i' Hi' Hf. unfold free_area in *.
  destruct (getShareSeq_apart c d i' cpu dir i) as [(-> & -> & _)|?]; try lia. done.
Qed.

(** A socket's own initialisation leaves the other CPU's receive side and the
    pools of the sequences ARM reads. *)
Lemma socket_frame_other m m' : socket_frame 1 m m' ->
  socket_init m 0 (sock_of 0) -> staging_init m 0 ->
  (forall dir i, 0 <= dir <= 1 -> 0 <= i <= 1 -> share_seq_init m 0 dir i (getShareSeq 0 dir i)) ->
  socket_init m' 0 (sock_of 0) /\ staging_init m' 0 /\
  (forall dir i, 0 <= dir <= 1 -> 0 <= i <= 1 -> share_seq_init m' 0 dir i (getShareSeq 0 dir i)).
Proof.
  intros Ho Hs [Hg1 Hg2] Hp. pose proof (getShareSeq_at 0) as E0. pose proof (getShareSeq_at 1) as E1.
  shm_facts.
  assert (Hout : forall x, ~ (sock_of 1 <= x < sock_of 1 + 1248) ->
    ~ (ShMemAddrBase + 5032 <= x < ShMemAddrBase + 9912) ->
    ~ (ShMemAddrBase + 9912 <= x < ShMemAddrBase + 19672) -> ld8 m' x = ld8 m x).
  { intros x H1 H2 H3. apply Ho; [done | |].
    - intros d Hd. unfold recv_area. rewrite E0 by lia. lia.
    - intros _ r d Hr Hd. unfold mips_area. rewrite E1 by lia. lia. }
  assert (Hs0 : sock_of 0 = s_CommSockt /\ sock_of 1 = s_CommSockt + 4992)
    by (unfold sock_of, COMM_SOCKET_SIZE; lia).
  ands.
  - destruct Hs as [? Hfree Hwait ? ? ? ? ? ? ? ? ? ? ?]. split; unfold sem_count in *;
      rewrite ?(ld_same _ m m') by (intros; apply Hout; lia); try done.
    + apply (fifo_at_frame Hfree); [intros x Hx; apply Hout; lia|].
      intros k x Hk Hx. pose proof (Z.mod_pos_bound (ld32 m (sock_of 0 + 136) + Z.of_nat k) 21 ltac:(lia)).
      apply Hout; lia.
    + intros i Hi. destruct (Hwait i Hi) as [H1 H2]. unfold wait_init, wait_obj in *.
      by rewrite !(ld_same _ m m') by (intros; apply Hout; lia).
  - split; [apply (fifo_at_frame Hg1) | apply (fifo_at_frame Hg2)].
    1,3: intros x Hx; rewrite E0 in Hx by lia; apply Hout; lia.
    all: intros i x Hi; simpl in Hi; lia.
  - intros dir i Hd Hi. apply (share_seq_init_out m); [|by apply seq_range_at; lia | by apply Hp].
    intros x Hx. unfold free_area in Hx. rewrite E0 in Hx by lia. apply Ho; [lia | |].
    + intros d Hd'. unfold recv_area. rewrite E0 by lia. lia.
    + intros _ r d Hr Hd'. unfold mips_area. rewrite E1 by lia. lia.
Qed.

Lemma InitCommSeqs_wp w :
  wp InitCommSeqs (fun _ w' => exists m', w' = set_mm w m' /\ seqs_init m') w.
Proof.
  unfold InitCommSeqs, CPU_ID_ARM, CPU_ID_MIPS.
  eapply wp_call; [apply InitCommSeqMem_wp; lia|]. intros _ w' (m1 & -> & S1 & G1 & _).
  eapply wp_call; [apply InitCommShareSeqMem_wp; lia|]. intros _ w' (m2 & -> & P2 & Ho2).
  eapply wp_call; [apply InitCommShareSeqMem_wp; lia|]. intros _ w' (m3 & -> & P3 & Ho3).
  eapply wp_call; [apply InitCommSeqMem_wp; lia|]. intros _ w' (m4 & -> & S4 & G4 & _ & M4 & Ho4).
  eapply wp_call; [apply InitCommShareSeqMem_wp; lia|]. intros _ w' (m5 & -> & P5 & Ho5).
  eapply wp_mono; [apply InitCommShareSeqMem_wp; lia|]. intros _ w' (m6 & -> & P6 & Ho6).
  wsimp. rewrite !mm_set_mm in *. exists m6. split; [done|].
  assert (A2 : socket_init m2 0 (sock_of 0) /\ staging_init m2 0)
    by (split; [apply (pair_frame_socket 0 0 m1) | apply (pair_frame_staging 0 0 m1)]; try done; lia).
  assert (A3 : socket_init m3 0 (sock_of 0) /\ staging_init m3 0)
    by (destruct A2; split; [apply (pair_frame_socket 0 1 m2) | apply (pair_frame_staging 0 1 m2)]; try done; lia).
  destruct A3 as [S3 G3]. clear A2.
  assert (Q3 : forall dir i, 0 <= dir <= 1 -> 0 <= i <= 1 -> share_seq_init m3 0 dir i (getShareSeq 0 dir i)).
  { intros dir i Hd Hi. assert (dir = 0 \/ dir = 1) as [-> | ->] by lia; [|by apply P3].
    apply (pair_frame_pool 0 1 m2); try lia; [congruence | done | by apply P2]. }
  destruct (socket_frame_other _ _ Ho4 S3 G3 Q3) as (S4' & G4' & Q4). specialize (M4 eq_refl).
  assert (Hall : forall c d m m', 0 <= c <= 1 -> 0 <= d <= 1 -> pair_frame c d m m' ->
    (forall cpu, 0 <= cpu <= 1 -> socket_init m cpu (sock_of cpu) /\ staging_init m cpu) /\ mips_init m ->
    (forall cpu, 0 <= cpu <= 1 -> socket_init m' cpu (sock_of cpu) /\ staging_init m' cpu) /\ mips_init m').
  { intros c d m m' Hc Hd Ho [H1 H2]. split; [|by apply (pair_frame_mips c d m)].
    intros cpu Hcpu. destruct (H1 cpu Hcpu).
    split; [by apply (pair_frame_socket c d m) | by apply (pair_frame_staging c d m)]. }
  destruct (Hall 1 1 m5 m6) as [H1 H2]; [lia | lia | done | |].
  { apply (Hall 1 0 m4 m5); [lia | lia | done |]. split; [|done].
    intros cpu Hcpu. assert (cpu = 0 \/ cpu = 1) as [-> | ->] by lia; done. }
  split; [apply H1 | apply H1 | done |].
  intros cpu dir i Hc Hd Hi. assert (cpu = 0 \/ cpu = 1) as [-> | ->] by lia.
  - apply (pair_frame_pool 1 1 m5); try lia; [congruence | done |].
    apply (pair_frame_pool 1 0 m4); try lia; [congruence | done | by apply Q4].
  - assert (dir = 0 \/ dir = 1) as [-> | ->] by lia; [|by apply P6].
    apply (pair_frame_pool 1 1 m5); try lia; [congruence | done | by apply P5].
Qed.
End BootSpecs.

(** A booted world, for concrete runs. *)
Definition booted : world := after InitCommSeqs blank_world.

Lemma booted_init : seqs_init (mm booted) /\ cur_tgid booted = 1234.
Proof.
  unfold booted, after. destruct (wp_run _ _ _ (InitCommSeqs_wp blank_world)) as ([] & w' & -> & m' & -> & H).
  by split.
Qed.

(** Nothing but the memory differs from the blank world. *)
Lemma booted_world : booted = set_mm blank_world (mm booted).
Proof.
  unfold booted, after. destruct (wp_run _ _ _ (InitCommSeqs_wp blank_world)) as ([] & w' & -> & m' & -> & _).
  by rewrite mm_set_mm.
Qed.
