(* ===== verification/DList.v ===== *)
(** Circular doubly-linked lists in raw memory, as the message lists of
    [cpu_comm_channel.c] keep them: a node is two words, next then prev, and the
    sentinel is a node too. *)
From S2P Require Import Prelude Mem Kernel.

(** [a] is followed by [b]. *)
Definition edge (m : mem) (a b : Z) : Prop := ld32 m a = b /\ ld32 m (b + 4) = a.

Fixpoint links (m : mem) (a : Z) (l : list Z) (z : Z) : Prop :=
  match l with
  | [] => edge m a z
  | b :: l' => edge m a b /\ links m b l' z
  end.

Lemma links_app m a l1 b l2 z :
  links m a (l1 ++ b :: l2) z <-> links m a l1 b /\ links m b l2 z.
Proof. revert a. induction l1 as [|c l1 IH]; intros a; simpl; [done|]. rewrite IH. tauto. Qed.

(** Two nodes are the same or do not overlap. *)
Definition apart (n x y : Z) : Prop := x = y \/ x + n <= y \/ y + n <= x.

Record dlist (m : mem) (h : Z) (ns : list Z) : Prop := DList {
  dl_links : links m h ns h;
  dl_nodup : NoDup (h :: ns);
  dl_apart : forall x y, x ∈ h :: ns -> y ∈ h :: ns -> apart 8 x y;
  dl_range : forall x, x ∈ h :: ns -> 4096 <= x /\ x + 8 <= 2 ^ 32;
}.

(** The words of the list are the [next] of every node and the [prev] of every
    node; a list survives when its edges do. *)
Lemma links_same m m' a l z :
  (forall x, x ∈ a :: l -> ld32 m' x = ld32 m x) ->
  (forall y, y ∈ l ++ [z] -> ld32 m' (y + 4) = ld32 m (y + 4)) ->
  links m a l z -> links m' a l z.
Proof.
  revert a. induction l as [|b l IH]; intros a H1 H2; simpl.
  - unfold edge. intros [E1 E2]. rewrite H1, H2 by set_solver. done.
  - unfold edge. intros [[E1 E2] H]. split; [rewrite H1, H2 by set_solver; done|].
    apply IH; [set_solver | set_solver | done].
Qed.

Lemma dlist_same m m' h ns :
  (forall x, x ∈ h :: ns -> ld32 m' x = ld32 m x /\ ld32 m' (x + 4) = ld32 m (x + 4)) ->
  dlist m h ns -> dlist m' h ns.
Proof.
  intros H [H1 H2 H3 H4]. split; [|done..].
  eapply links_same; [| | exact H1]; intros x Hx; apply H; set_solver.
Qed.

(** The last node of a list, the sentinel when there is none. *)
Definition last_node (h : Z) (ns : list Z) : Z := foldl (fun _ x => x) h ns.

Lemma last_node_in h ns : last_node h ns ∈ h :: ns.
Proof.
  revert h. induction ns as [|n ns IH]; intros h; simpl; [set_solver|].
  specialize (IH n). unfold last_node in *. set_solver.
Qed.

Lemma last_snoc h l x : last_node h (l ++ [x]) = x.
Proof. unfold last_node. by rewrite foldl_app. Qed.

(** The sentinel's [prev] is the last node. *)
Lemma links_last m a l z : links m a l z -> ld32 m (z + 4) = last_node a l.
Proof.
  revert a. induction l as [|b l IH]; intros a; simpl; [by intros [_ E]|].
  intros [_ H]. by rewrite (IH b H).
Qed.

Lemma dlist_tail m h ns : dlist m h ns -> ld32 m (h + 4) = last_node h ns.
Proof. intros [H _ _ _]. by apply links_last. Qed.

(** Linking [n] in before the sentinel. *)
Lemma dlist_snoc m m' h ns n :
  dlist m h ns -> n ∉ h :: ns -> (forall x, x ∈ h :: ns -> apart 8 n x) ->
  4096 <= n /\ n + 8 <= 2 ^ 32 ->
  ld32 m' n = h -> ld32 m' (n + 4) = last_node h ns ->
  ld32 m' (h + 4) = n -> ld32 m' (last_node h ns) = n ->
  (forall x, x ∈ h :: ns -> x <> last_node h ns -> ld32 m' x = ld32 m x) ->
  (forall x, x ∈ ns -> ld32 m' (x + 4) = ld32 m (x + 4)) ->
  dlist m' h (ns ++ [n]).
Proof.
  intros [Hl Hd Ha Hr] Hn Hap Hrn E1 E2 E3 E4 Hnx Hpv. split.
  - apply links_app. split; [|by split].
    destruct ns as [|z l1 _] using rev_ind; [by split|].
    rewrite last_snoc in *. apply links_app in Hl as [Hl Hz'].
    apply links_app. split; [|by split].
    {
      apply NoDup_cons in Hd as [Hd1 Hd2]. apply NoDup_app in Hd2 as (_ & Hd3 & _).
      eapply links_same; [| | exact Hl].
      * intros x Hx. apply Hnx; [set_solver|]. intros ->.
        apply elem_of_cons in Hx as [Hx|Hx]; [set_solver | apply (Hd3 z Hx); set_solver].
      * intros y Hy. apply Hpv. set_solver. }
  - rewrite app_comm_cons. apply NoDup_app. ands; [done | set_solver | apply NoDup_singleton].
  - intros x y Hx Hy. rewrite app_comm_cons in Hx, Hy.
    apply elem_of_app in Hx as [Hx|Hx], Hy as [Hy|Hy]; [by apply Ha | | |].
    + apply list_elem_of_singleton in Hy as ->. specialize (Hap x Hx). unfold apart in *. lia.
    + apply list_elem_of_singleton in Hx as ->. by apply Hap.
    + apply list_elem_of_singleton in Hx as ->, Hy as ->. by left.
  - intros x Hx. rewrite app_comm_cons in Hx. apply elem_of_app in Hx as [Hx|Hx]; [by apply Hr|].
    by apply list_elem_of_singleton in Hx as ->.
Qed.

(** Unlinking: the neighbours of a node, and the list without it. *)
Lemma dlist_split m h l1 n l2 :
  dlist m h (l1 ++ n :: l2) ->
  ld32 m (n + 4) = last_node h l1 /\ ld32 m n = hd h l2.
Proof.
  intros [Hl _ _ _]. apply links_app in Hl as [H1 H2].
  split; [by apply links_last|]. destruct l2; simpl in H2; unfold edge in H2; tauto.
Qed.

Lemma dlist_remove m m' h l1 n l2 :
  dlist m h (l1 ++ n :: l2) ->
  ld32 m' (last_node h l1) = hd h l2 -> ld32 m' (hd h l2 + 4) = last_node h l1 ->
  (forall x, x ∈ h :: l1 ++ l2 -> x <> last_node h l1 -> ld32 m' x = ld32 m x) ->
  (forall x, x ∈ h :: l1 ++ l2 -> x <> hd h l2 -> ld32 m' (x + 4) = ld32 m (x + 4)) ->
  dlist m' h (l1 ++ l2).
Proof.
  intros [Hl Hd Ha Hr] E1 E2 Hnx Hpv.
  assert (Hsub : forall x, x ∈ h :: l1 ++ l2 -> x ∈ h :: l1 ++ n :: l2) by set_solver.
  apply NoDup_cons in Hd as [Hh Hd]. apply NoDup_app in Hd as (Hd1 & Hd12 & Hd2).
  apply NoDup_cons in Hd2 as [Hn2 Hd2].
  split; [| | by eauto | by eauto].
  - apply links_app in Hl as [H1 H2].
    set (p := last_node h l1) in *. set (s := hd h l2) in *.
    (* up to the predecessor nothing changes *)
    assert (Hpre : forall t, links m h l1 t -> links m' h l1 s).
    { intros t Ht. destruct l1 as [|z l0 _] using rev_ind.
      - simpl. unfold edge. by split.
      - apply links_app in Ht as [Ht _]. apply links_app.
        assert (Hp : p = z) by apply last_snoc.
        rewrite Hp in *. split; [|by split].
        apply NoDup_app in Hd1 as (Hd0 & Hd0z & _).
        eapply links_same; [| | exact Ht].
        + intros x Hx. apply Hnx; [set_solver|]. intros ->.
          apply elem_of_cons in Hx as [Hx|Hx]; [set_solver | apply (Hd0z z Hx); set_solver].
        + intros y Hy. apply Hpv; [set_solver|]. intros ->. unfold s in *.
          destruct l2 as [|s0 l2]; simpl in *; [set_solver|].
          apply (Hd12 s0); set_solver. }
    specialize (Hpre n H1). destruct l2 as [|s0 l2]; [rewrite app_nil_r; exact Hpre|].
    simpl in s. simpl in H2. destruct H2 as [_ H2]. apply links_app. split; [exact Hpre|].
    apply NoDup_cons in Hd2 as [Hs0 Hd2].
    assert (Hps : forall x, x ∈ s0 :: l2 -> x <> p).
    { intros x Hx ->. pose proof (last_node_in h l1) as Hin. fold p in Hin.
      apply elem_of_cons in Hin as [Hin|Hin]; [rewrite Hin in Hx; set_solver|].
      apply (Hd12 p Hin). set_solver. }
    eapply links_same; [| | exact H2].
    + intros x Hx. apply Hnx; [set_solver | by apply Hps].
    + intros y Hy. apply Hpv; [set_solver|]. unfold s. intros ->.
      apply elem_of_app in Hy as [Hy|Hy]; [done|]. set_solver.
  - apply NoDup_cons. split; [set_solver|]. apply NoDup_app. split; [done|]. split; [|done].
    intros x Hx1 Hx2. apply (Hd12 x Hx1). set_solver.
Qed.
