(* ===== verification/Channel.v ===== *)
(** Channels, waiting calls, free call entries and the return list
    ([cpu_comm_channel.c]).

    The lists are anchored at a message FIFO [lb] ([struct msg_fifo]): peak at
    +48, count at +52, sentinel at +56, semaphore at +64.  [msg_list] says which
    entries such a list holds; every list operation is proved against it. *)
From S2P Require Import Prelude Mem Kernel Fifo Shm SeqMem DList.

Definition CHANNEL_SLOT_COUNT : Z := 32.
Definition CHANNEL_SLOT_DWORDS : Z := 11.

(** More steps than any list of distinct entries in use can need. *)
Definition list_fuel : nat := Z.to_nat 4096.

Section Channel.
Context {S : Shm} {K : Kernel}.

Definition cpu_comm_sem_down (a : Z) : M unit := k_down a.
Definition cpu_comm_sem_up (a : Z) : M unit := if a =? 0 then mret tt else k_up a.

Definition channel_slot (pool i : Z) : Z := pool + 4 * (9 + i * CHANNEL_SLOT_DWORDS).

Definition ChannelPoolInit (pool : Z) : M unit :=
  if pool =? 0 then mret tt else
  wr32 pool 0 ;;
  wr32 (pool + 4) 0 ;;
  wr32 (pool + 8) 1 ;;
  wr32 (pool + 12) (pool + 12) ;;
  wr32 (pool + 16) (pool + 12) ;;
  wr32 (pool + 20) 0 ;;
  wr32 (pool + 24) 1 ;;
  wr32 (pool + 28) (pool + 28) ;;
  wr32 (pool + 32) (pool + 28) ;;
  for_ (Z.to_nat CHANNEL_SLOT_COUNT) 0 (fun i =>
    wr32 (channel_slot pool i + 32) SESSION_ID_INVALID ;;
    wr32 (channel_slot pool i + 16) SESSION_ID_INVALID).

(** Returns the status and [*result]. *)
Definition Comm_QueryChannel (pool channel_id : Z) : M (Z * Z) :=
  if pool =? 0 then mret (- EINVAL, 0) else
  r ← for_exit (Z.to_nat CHANNEL_SLOT_COUNT) 0 (fun i =>
    id ← rd32 (channel_slot pool i);
    mret (if id =? channel_id then Some (channel_slot pool i) else None));
  mret (0, default 0 r).

Definition Comm_AddNewChannel (pool comp_id cpu : Z) : M Z :=
  if pool =? 0 then mret (- EINVAL) else
  let channel_id := u16 comp_id |. u32 (Z.shiftl cpu 4) in
  r ← for_exit (Z.to_nat CHANNEL_SLOT_COUNT) 0 (fun i =>
    let slot := channel_slot pool i in
    id ← rd32 slot;
    if id =? 0 then
      wr32 slot channel_id ;;
      wr32 (slot + 4) 0 ;;
      wr32 (slot + 8) cpu ;;
      wr32 (slot + 12) channel_id ;;
      k_sema_init (slot + 16) 0 ;;
      n ← rd32 pool;
      wr32 pool (n + 1) ;;
      mret (Some 0)
    else mret None);
  mret (default (- ENOMEM) r).

Definition Comm_RemoveChannel (pool comp_id cpu : Z) : M Z :=
  if pool =? 0 then mret (- EINVAL) else
  let channel_id := u16 comp_id |. u32 (Z.shiftl cpu 4) in
  r ← for_exit (Z.to_nat CHANNEL_SLOT_COUNT) 0 (fun i =>
    let slot := channel_slot pool i in
    id ← rd32 slot;
    if id =? channel_id then
      memset slot 0 (Z.to_nat (CHANNEL_SLOT_DWORDS * 4)) ;;
      n ← rd32 pool;
      wr32 pool (n - 1) ;;
      mret (Some 0)
    else mret None);
  mret (default (- ENOENT) r).

Definition Comm_Add2NewCallFifo (pool cmd_fifo call_entry : Z) : M unit :=
  wr_slot ← fifo_getItemWr cmd_fifo;
  if wr_slot =? 0 then mret tt else
  wr32 wr_slot call_entry ;;
  ok ← fifo_requestItemWr cmd_fifo;
  if ok =? 0 then mret tt else
  fl ← rd16 (call_entry + 10);
  wr16 (call_entry + 10) (fl |. 0x10) ;;
  comp_id ← rd16 (call_entry + 2);
  tid ← rd32 (call_entry + 16);
  let channel_id := (comp_id &. 0xF) |. u32 (Z.shiftl tid 4) in
  q ← Comm_QueryChannel pool channel_id;
  let channel_ptr := snd q in
  if channel_ptr =? 0 then mret tt else
  hi ← rd16 (channel_ptr + 2);
  cpus ← rd16 call_entry;
  if negb (hi =? cpus) then mret tt else
  ccpu ← rd32 (channel_ptr + 8);
  tid' ← rd32 (call_entry + 16);
  if negb (ccpu =? tid') then mret tt else
  cid ← rd32 (channel_ptr + 12);
  if negb (cid =? channel_id) then mret tt else
  cpu_comm_sem_up (channel_ptr + 16).

Definition Comm_GetCallbyChannel (pool channel_id : Z) : M (Z * Z) :=
  if pool =? 0 then mret (- EINVAL, 0) else
  q ← Comm_QueryChannel pool channel_id;
  let channel_ptr := snd q in
  if channel_ptr =? 0 then mret (0, 0) else
  let cmd_fifo := channel_ptr + 32 in
  item ← fifo_getItemRd cmd_fifo;
  if item =? 0 then mret (0, 0) else
  v ← rd32 item;
  fifo_ItemRdNext cmd_fifo ;;
  mret (0, v).

(** *** Waiting calls *)

Definition GetFreeWaitComm (fifo : Z) : M (Z * Z) :=
  item ← fifo_getItemRd fifo;
  if negb (item =? 0) then
    v ← rd32 item;
    fifo_ItemRdNext fifo ;;
    mret (0, v)
  else mret (1, 0).

Definition AddtoWaitComm (lb wait_entry : Z) : M Z :=
  if (lb =? 0) || (wait_entry =? 0) then mret (- EINVAL) else
  cpu_comm_sem_down (lb + 64) ;;
  prev ← rd32 (lb + 60);
  let new_node := u32 (wait_entry + 24) in
  wr32 (lb + 60) new_node ;;
  wr32 (wait_entry + 24) (lb + 56) ;;
  wr32 (wait_entry + 28) prev ;;
  wr32 prev new_node ;;
  c0 ← rd32 (lb + 52);
  let count := u32 (c0 + 1) in
  wr32 (lb + 52) count ;;
  peak ← rd8 (lb + 48);
  (if peak <? count then wr8 (lb + 48) count else mret tt) ;;
  cpu_comm_sem_up (lb + 64) ;;
  mret 0.

(** [list_del]: the node's neighbours point past it. *)
Definition unlink_node (node : Z) : M unit :=
  node_next ← rd32 node;
  node_prev ← rd32 (node + 4);
  wr32 node_prev node_next ;;
  wr32 (node_next + 4) node_prev.

Definition GetWaitbySessionId (lb session_id : Z) : M (Z * option Z) :=
  if lb =? 0 then mret (1, None) else
  cpu_comm_sem_down (lb + 64) ;;
  first ← rd32 (lb + 56);
  r ← loop list_fuel (fun cur_node =>
    if cur_node =? lb + 56 then mret (inr None) else
    let entry_base := cur_node - 24 in
    sid ← rd32 entry_base;
    if sid =? session_id then
      unlink_node cur_node ;;
      c ← rd32 (lb + 52);
      wr32 (lb + 52) (c - 1) ;;
      mret (inr (Some entry_base))
    else
      next ← rd32 cur_node;
      mret (inl next)) first;
  cpu_comm_sem_up (lb + 64) ;;
  mret (match r with Some e => (0, Some e) | None => (1, None) end).

Definition FindWaitBySessionId (lb session_id : Z) : M (Z * Z) :=
  if lb =? 0 then mret (1, 0) else
  cpu_comm_sem_down (lb + 64) ;;
  first ← rd32 (lb + 56);
  r ← loop list_fuel (fun cur_node =>
    if cur_node =? lb + 56 then mret (inr None) else
    let entry_base := cur_node - 24 in
    sid ← rd32 entry_base;
    if sid =? session_id then mret (inr (Some entry_base))
    else
      next ← rd32 cur_node;
      mret (inl next)) first;
  cpu_comm_sem_up (lb + 64) ;;
  mret (match r with Some e => (0, e) | None => (1, 0) end).

Definition ReleaseWaitComm (cpu_id wait_entry : Z) : M unit :=
  if 1 <? cpu_id then mret tt else
  let fifo := s_CommSockt + 4 * (1248 * cpu_id + 34) in
  let sem := s_CommSockt + 4 * (1248 * cpu_id + 30) in
  cpu_comm_sem_down sem ;;
  wr_slot ← fifo_getItemWr fifo;
  if wr_slot =? 0 then mret tt else
  wr32 wr_slot wait_entry ;;
  fifo_requestItemWr fifo ;;
  cpu_comm_sem_up sem.

Definition HasInList (list item : Z) : M Z :=
  if (list =? 0) || (item =? 0) then mret 0 else
  first ← rd32 list;
  loop list_fuel (fun cur =>
    if cur =? list then mret (inr 0) else
    if cur =? item then mret (inr 1) else
    next ← rd32 cur;
    mret (inl next)) first.

(** *** Free call entries *)

Definition Comm_GetFreeCall (share_seq : Z) : M Z :=
  if (share_seq =? 0) || (ShMemAddrBase =? 0) || (ShMemAddr =? 0) then mret 0 else
  let fifo := share_seq + 120 in
  slot_phy ← fifo_getItemRd fifo;
  if slot_phy =? 0 then mret 0 else
  entry_phy ← rd32 (phy2vir slot_phy);
  let entry_vir := if negb (entry_phy =? 0) then phy2vir entry_phy else 0 in
  if entry_vir =? 0 then mret 0 else
  idx ← rd16 (entry_vir + 4);
  if 19 <? idx then mret 0 else
  wr16 (entry_vir + 10) 0 ;;
  fifo_ItemRdNext fifo ;;
  mret entry_vir.

Definition Comm_ReleaseFreeCall (share_seq call : Z) : M unit :=
  if share_seq =? 0 then mret tt else
  local ← rd8 share_seq;
  if negb (local =? getCurCPUID) then mret tt else
  remote_cpu ← rd8 (share_seq + 1);
  if 1 <? remote_cpu then mret tt else
  let fifo := share_seq + 120 in
  let sem := s_CommSockt + 4 * (1248 * remote_cpu + 234) in
  cpu_comm_sem_down sem ;;
  wr_slot_phy ← fifo_getItemWr fifo;
  if wr_slot_phy =? 0 then mret tt else
  let wr_slot_vir := phy2vir wr_slot_phy in
  if wr_slot_vir =? 0 then mret tt else
  let shmem_end := u32 (ShMemAddrBase + ShMemSize) in
  if (wr_slot_vir <? ShMemAddrBase) || (shmem_end <=? wr_slot_vir) then cpu_comm_sem_up sem else
  if (call <? ShMemAddrBase) || (shmem_end <=? call) then cpu_comm_sem_up sem else
  wr16 (call + 10) 0 ;;
  let entry_phy := if negb (call =? 0) then vir2phy call else 0 in
  wr32 wr_slot_vir entry_phy ;;
  ok ← fifo_requestItemWr fifo;
  if ok =? 0 then mret tt else
  cpu_comm_sem_up sem.

(** *** Returns *)

Definition AddReturn2Fifo (fifo data : Z) : M Z :=
  if (fifo =? 0) || (data =? 0) then mret 0 else
  if cpu_comm_is_mips_va data then mret 0 else
  wr_slot ← fifo_getItemWr fifo;
  if wr_slot =? 0 then mret 0 else
  wr32 wr_slot data ;;
  fl ← rd16 (data + 10);
  wr16 (data + 10) (fl |. 0x10) ;;
  ok ← fifo_requestItemWr fifo;
  mret (if ok =? 0 then 0 else 1).

(** Link an entry in at the tail of the return list, and count it. *)
Definition return_insert (sock entry_vir : Z) : M unit :=
  fl ← rd16 (entry_vir + 10);
  wr16 (entry_vir + 10) (fl |. 0x20) ;;
  let new_node := u32 (entry_vir + 84) in
  prev ← rd32 (sock_at sock 282);
  let head_sentinel := sock_at sock 281 in
  wr32 new_node head_sentinel ;;
  wr32 (new_node + 4) prev ;;
  wr32 prev new_node ;;
  wr32 (sock_at sock 282) new_node ;;
  c0 ← rd32 (sock_at sock 280);
  let count := u32 (c0 + 1) in
  wr32 (sock_at sock 280) count ;;
  peak ← rd8 (sock_at sock 279);
  if peak <? count then wr8 (sock_at sock 279) count else mret tt.

(** One entry from the staging FIFO to the return list. *)
Definition returnPipeLine_body (fifo sock item_addr : Z) : M (Z + bool) :=
  if item_addr =? 0 then mret (inr true) else
  entry_vir ← rd32 item_addr;
  if cpu_comm_is_mips_va entry_vir then
    next ← fifo_ItemRdNext fifo; mret (inl next)
  else
  idx ← rd16 (entry_vir + 4);
  if 19 <? idx then mret (inr false) else
  return_insert sock entry_vir ;;
  next ← fifo_ItemRdNext fifo;
  mret (inl next).

Definition returnPipeLine (cpu : Z) : M unit :=
  if 1 <? cpu then mret tt else
  let share_seq_r := getShareSeqR cpu 1 in
  if share_seq_r =? 0 then mret tt else
  let fifo := share_seq_r + 32 in
  let sock := s_CommSockt + 4 * (1248 * cpu) in
  let sem := sock_at sock 283 in
  cpu_comm_sem_down sem ;;
  first ← fifo_getItemRd fifo;
  done ← loop list_fuel (returnPipeLine_body fifo sock) first;
  if (done : bool) then cpu_comm_sem_up sem else mret tt.

(** The walk over the return list: an entry, nothing, or an error that leaves
    the semaphore taken. *)
Inductive return_walk : Set := Found (e : Z) | NotFound | Corrupt | Underflow.

Definition GetReturnbySessionId (session_id cpu : Z) : M (Z * option Z) :=
  if 1 <? cpu then mret (0, None) else
  returnPipeLine cpu ;;
  let sock := s_CommSockt + 4 * (1248 * cpu) in
  let fifo_hdr := sock_at sock 267 in
  let sem := sock_at sock 283 in
  let sentinel := fifo_hdr + 56 in
  cpu_comm_sem_down sem ;;
  first ← rd32 (fifo_hdr + 56);
  r ← loop list_fuel (fun cur_node =>
    if cur_node =? sentinel then mret (inr NotFound) else
    if cpu_comm_is_mips_va cur_node then mret (inr Corrupt) else
    next_node ← rd32 cur_node;
    sid ← rd32 (cur_node - 72);
    if sid =? session_id then
      let entry_base := cur_node - 84 in
      unlink_node cur_node ;;
      c ← rd32 (fifo_hdr + 52);
      wr32 (fifo_hdr + 52) (c - 1) ;;
      mret (inr (if s32 (c - 1) <? 0 then Underflow else Found entry_base))
    else mret (inl next_node)) first;
  match r with
  | Found e => cpu_comm_sem_up sem ;; mret (0, Some e)
  | NotFound | Corrupt => cpu_comm_sem_up sem ;; mret (0, Some 0)
  | Underflow => mret (0, None)
  end.
End Channel.

(** ** The lists as sequences of entries *)

(** The message list at [lb] holds the entries [es], oldest first.  An entry has
    [size] bytes and its list node at [off]. *)
Record msg_list (m : mem) (lb off size : Z) (es : list Z) : Prop := MsgList {
  ml_lb : 4096 <= lb /\ lb + 80 <= 2 ^ 32;
  ml_off : 0 <= off /\ off + 8 <= size;
  ml_dl : dlist m (lb + 56) (map (fun e => e + off) es);
  ml_count : ld32 m (lb + 52) = Z.of_nat (length es);
  ml_len : Z.of_nat (length es) < 4096;
  ml_ent : forall e, e ∈ es ->
    4096 <= e /\ e + size <= 2 ^ 32 /\ (e + size <= lb + 48 \/ lb + 80 <= e);
  ml_sep : forall e e', e ∈ es -> e' ∈ es -> apart size e e';
}.

(** An entry that can be put in the list. *)
Definition fresh_entry (lb size : Z) (es : list Z) (e : Z) : Prop :=
  4096 <= e /\ e + size <= 2 ^ 32 /\ (e + size <= lb + 48 \/ lb + 80 <= e) /\
  forall e', e' ∈ es -> e + size <= e' \/ e' + size <= e.

(** What a list operation may change: the header and the nodes. *)
Definition list_frame (lb off : Z) (es : list Z) (m m' : mem) : Prop := forall x,
  ~ (lb + 48 <= x < lb + 80) -> (forall e, e ∈ es -> ~ (e + off <= x < e + off + 8)) ->
  ld8 m' x = ld8 m x.

Section MsgList.
Context {lb off size : Z}.
Implicit Types (m : mem) (es : list Z).

Lemma msg_list_head m es : msg_list m lb off size es ->
  ld32 m (lb + 56) = hd (lb + 56) (map (fun e => e + off) es).
Proof.
  intros H. destruct (ml_dl _ _ _ _ _ H) as [Hl _ _ _].
  destruct es as [|e es]; simpl in *; unfold edge in Hl; tauto.
Qed.

Lemma msg_list_next m es l1 e l2 : msg_list m lb off size es -> es = l1 ++ e :: l2 ->
  ld32 m (e + off) = hd (lb + 56) (map (fun e => e + off) l2) /\
  ld32 m (e + off + 4) = last_node (lb + 56) (map (fun e => e + off) l1).
Proof.
  intros H ->. pose proof (ml_dl _ _ _ _ _ H) as Hd. rewrite map_app in Hd. simpl in Hd.
  apply dlist_split in Hd as [H1 H2]. done.
Qed.

Lemma msg_list_node m es e : msg_list m lb off size es -> e ∈ es -> e + off <> lb + 56.
Proof.
  intros H He. destruct (ml_dl _ _ _ _ _ H) as [_ Hn _ _]. apply NoDup_cons in Hn as [Hn _].
  intros E. apply Hn. rewrite <- E. apply list_elem_of_fmap. by exists e.
Qed.

(** The tail pointer names the sentinel or the node of an entry. *)
Lemma last_node_cases h es :
  last_node h (map (fun e => e + off) es) = h \/
  exists e, e ∈ es /\ last_node h (map (fun e => e + off) es) = e + off.
Proof.
  destruct es as [|e es _] using rev_ind; [by left|]. right. exists e.
  rewrite map_app. simpl. rewrite last_snoc. set_solver.
Qed.

Lemma hd_cases h es :
  hd h (map (fun e => e + off) es) = h \/
  exists e, e ∈ es /\ hd h (map (fun e => e + off) es) = e + off.
Proof. destruct es as [|e es]; [by left|]. right. exists e. set_solver. Qed.

Lemma msg_list_out m m' es lo n : msg_list m lb off size es -> same_out lo n m m' ->
  lo + n <= lb + 52 \/ lb + 64 <= lo ->
  (forall e, e ∈ es -> e + off + 8 <= lo \/ lo + n <= e + off) ->
  msg_list m' lb off size es.
Proof.
  intros [] Ho Hd He. split; try done.
  - eapply dlist_same; [|exact ml_dl0]. intros x Hx. apply elem_of_cons in Hx as [->|Hx].
    + rewrite !(ld_same_out _ _ _ _ _ _ Ho) by lia. done.
    + apply list_elem_of_fmap in Hx as (e & -> & Hx). specialize (He e Hx).
      rewrite !(ld_same_out _ _ _ _ _ _ Ho) by lia. done.
  - rewrite (ld_same_out _ _ _ _ _ _ Ho) by lia. done.
Qed.

(** Appending, whatever the order of the four pointer writes. *)
Lemma msg_list_snoc m m' es e :
  msg_list m lb off size es -> fresh_entry lb size es e -> Z.of_nat (length es) + 1 < 4096 ->
  let prev := last_node (lb + 56) (map (fun e => e + off) es) in
  ld32 m' (e + off) = lb + 56 -> ld32 m' (e + off + 4) = prev ->
  ld32 m' (lb + 60) = e + off -> ld32 m' prev = e + off ->
  ld32 m' (lb + 52) = Z.of_nat (length es) + 1 ->
  (forall x, ~ (lb + 48 <= x < lb + 56) -> ~ (lb + 60 <= x < lb + 64) ->
     ~ (e + off <= x < e + off + 8) -> ~ (prev <= x < prev + 4) -> ld8 m' x = ld8 m x) ->
  msg_list m' lb off size (es ++ [e]).
Proof.
  intros [] (Hf1 & Hf2 & Hf3 & Hf4) Hlen prev E1 E2 E3 E4 E5 Ho.
  assert (Hmem : forall x, x ∈ map (fun e => e + off) es -> exists e', x = e' + off /\ e' ∈ es)
    by (intros x Hx; by apply list_elem_of_fmap).
  pose proof (last_node_cases (lb + 56) es) as Hprev. fold prev in Hprev.
  split; try done.
  - rewrite map_app. simpl. apply (dlist_snoc m); try done.
    + intros Hin. apply elem_of_cons in Hin as [Hin|Hin]; [lia|].
      apply Hmem in Hin as (e' & E & Hin). specialize (Hf4 e' Hin). lia.
    + intros x Hx. apply elem_of_cons in Hx as [->|Hx]; [unfold apart; lia|].
      apply Hmem in Hx as (e' & -> & Hx). specialize (Hf4 e' Hx). unfold apart. lia.
    + lia.
    + by replace (lb + 56 + 4) with (lb + 60) by lia.
    + fold prev. intros x Hx Hne. apply ld_same. intros y Hy.
      destruct (dl_apart _ _ _ ml_dl0 x prev Hx (last_node_in _ _)) as [?|Hap]; [done|].
      apply elem_of_cons in Hx as [->|Hx]; [apply Ho; lia|].
      apply Hmem in Hx as (e' & -> & Hx). specialize (Hf4 e' Hx). specialize (ml_ent0 e' Hx).
      apply Ho; lia.
    + intros x Hx. apply ld_same. intros y Hy.
      destruct (dl_apart _ _ _ ml_dl0 x prev ltac:(set_solver) (last_node_in _ _)) as [Ep|Hap].
      * apply Hmem in Hx as (e' & -> & Hx). specialize (Hf4 e' Hx). specialize (ml_ent0 e' Hx).
        apply Ho; lia.
      * apply Hmem in Hx as (e' & -> & Hx). specialize (Hf4 e' Hx). specialize (ml_ent0 e' Hx).
        apply Ho; lia.
  - rewrite E5, length_app. simpl. lia.
  - rewrite length_app. simpl. lia.
  - intros e' He'. apply elem_of_app in He' as [He'|He']; [by apply ml_ent0|].
    apply list_elem_of_singleton in He' as ->. done.
  - intros x y Hx Hy. apply elem_of_app in Hx as [Hx|Hx], Hy as [Hy|Hy].
    + by apply ml_sep0.
    + apply list_elem_of_singleton in Hy as ->. specialize (Hf4 x Hx). unfold apart. lia.
    + apply list_elem_of_singleton in Hx as ->. specialize (Hf4 y Hy). unfold apart. lia.
    + apply list_elem_of_singleton in Hx as ->, Hy as ->. by left.
Qed.

(** Removing [e]: its neighbours point past it. *)
Lemma msg_list_remove m m' l1 e l2 :
  msg_list m lb off size (l1 ++ e :: l2) ->
  let prev := last_node (lb + 56) (map (fun e => e + off) l1) in
  let next := hd (lb + 56) (map (fun e => e + off) l2) in
  ld32 m' prev = next -> ld32 m' (next + 4) = prev ->
  ld32 m' (lb + 52) = Z.of_nat (length (l1 ++ l2)) ->
  (forall x, ~ (lb + 48 <= x < lb + 56) -> ~ (prev <= x < prev + 4) ->
     ~ (next + 4 <= x < next + 8) -> ld8 m' x = ld8 m x) ->
  msg_list m' lb off size (l1 ++ l2).
Proof.
  intros [] prev next E1 E2 E3 Ho.
  assert (Hsub : forall x, x ∈ l1 ++ l2 -> x ∈ l1 ++ e :: l2) by set_solver.
  rewrite map_app in ml_dl0. simpl in ml_dl0.
  assert (Hnodes : forall x, x ∈ (lb + 56) :: map (fun e => e + off) l1 ++ map (fun e => e + off) l2 ->
    x ∈ (lb + 56) :: map (fun e => e + off) l1 ++ (e + off) :: map (fun e => e + off) l2) by set_solver.
  assert (Hp : prev ∈ (lb + 56) :: map (fun e => e + off) l1 ++ (e + off) :: map (fun e => e + off) l2).
  { pose proof (last_node_in (lb + 56) (map (fun e => e + off) l1)). fold prev in H. set_solver. }
  assert (Hn : next ∈ (lb + 56) :: map (fun e => e + off) l1 ++ (e + off) :: map (fun e => e + off) l2).
  { unfold next. destruct l2; simpl; set_solver. }
  assert (Hhdr : forall x, x ∈ (lb + 56) :: map (fun e => e + off) l1 ++ (e + off) :: map (fun e => e + off) l2 ->
    x + 8 <= lb + 48 \/ lb + 56 <= x).
  { intros x Hx. apply elem_of_cons in Hx as [->|Hx]; [lia|].
    assert (exists e', x = e' + off /\ e' ∈ l1 ++ e :: l2) as (e' & -> & He').
    { replace (map (fun e => e + off) l1 ++ (e + off) :: map (fun e => e + off) l2)
        with (map (fun e => e + off) (l1 ++ e :: l2)) in Hx by (by rewrite map_app).
      by apply list_elem_of_fmap. }
    specialize (ml_ent0 e' He'). lia. }
  split; try done.
  - rewrite map_app. apply (dlist_remove m _ _ _ (e + off)); [done | done | done | |].
    + intros x Hx Hne. specialize (Hnodes x Hx). specialize (Hhdr x Hnodes). fold prev in Hne.
      apply ld_same. intros y Hy.
      destruct (dl_apart _ _ _ ml_dl0 x prev Hnodes Hp) as [?|]; [done|].
      destruct (dl_apart _ _ _ ml_dl0 x next Hnodes Hn) as [->|]; apply Ho; lia.
    + intros x Hx Hne. specialize (Hnodes x Hx). specialize (Hhdr x Hnodes). fold next in Hne.
      apply ld_same. intros y Hy.
      destruct (dl_apart _ _ _ ml_dl0 x next Hnodes Hn) as [?|]; [done|].
      destruct (dl_apart _ _ _ ml_dl0 x prev Hnodes Hp) as [->|]; apply Ho; lia.
  - rewrite length_app in *. simpl in *. lia.
  - intros x Hx. apply ml_ent0. set_solver.
  - intros x y Hx Hy. apply ml_sep0; set_solver.
Qed.
(** The list [InitMsgFIFO] makes. *)
Lemma msg_list_empty m : 4096 <= lb -> lb + 80 <= 2 ^ 32 -> 0 <= off -> off + 8 <= size ->
  ld32 m (lb + 56) = lb + 56 -> ld32 m (lb + 60) = lb + 56 -> ld32 m (lb + 52) = 0 ->
  msg_list m lb off size [].
Proof.
  intros H1 H2 H3 H4 E1 E2 E3. split; simpl; try (intros; set_solver); try lia.
  split; simpl; [split; [done|] | apply NoDup_singleton | |].
  - by replace (lb + 56 + 4) with (lb + 60) by lia.
  - intros x y Hx Hy. left. set_solver.
  - intros x Hx. apply list_elem_of_singleton in Hx as ->. lia.
Qed.
End MsgList.

(** ** The list operations *)

Section ListOps.
Context {S : Shm} {K : Kernel} {L : SemLaws K}.

(** The list lock of [lb] is free. *)
Definition list_unlocked (m : mem) (lb : Z) : Prop := sem_count m (lb + 64) = 1.

Lemma wp_sem_down {B} a (k : unit -> M B) Q w :
  4096 <= a -> 0 < sem_count (mm w) a ->
  (forall m, same_out a 16 (mm w) m -> sem_count m a = sem_count (mm w) a - 1 ->
     wp (k tt) Q (set_mm w m)) ->
  wp (cpu_comm_sem_down a ≫= k) Q w.
Proof. apply wp_down. Qed.

Lemma wp_sem_up {B} a (k : unit -> M B) Q w :
  4096 <= a ->
  (forall m, same_out a 16 (mm w) m -> sem_count m a = u32 (sem_count (mm w) a + 1) ->
     wp (k tt) Q (set_mm w m)) ->
  wp (cpu_comm_sem_up a ≫= k) Q w.
Proof.
  intros Ha H. unfold cpu_comm_sem_up. rewrite eqb_neq_false by lia. by apply wp_up_abs.
Qed.

Lemma wp_sem_up_last a (Q : unit -> world -> Prop) w :
  4096 <= a ->
  (forall m, same_out a 16 (mm w) m -> sem_count m a = u32 (sem_count (mm w) a + 1) ->
     Q tt (set_mm w m)) ->
  wp (cpu_comm_sem_up a) Q w.
Proof.
  intros Ha H. unfold cpu_comm_sem_up, wp, k_up. rewrite eqb_neq_false, ltb_false by lia.
  apply H; [apply up_frame | apply up_count].
Qed.

Lemma sem_count_same m m' a lo n :
  same_out lo n m m' -> a + 8 <= lo \/ lo + n <= a + 4 -> sem_count m' a = sem_count m a.
Proof. intros H Hd. unfold sem_count. apply (ld_same_out _ _ _ _ _ _ H). lia. Qed.

Lemma AddtoWaitComm_wp lb e es w :
  msg_list (mm w) lb 24 32 es -> fresh_entry lb 32 es e -> Z.of_nat (length es) + 1 < 4096 ->
  list_unlocked (mm w) lb ->
  wp (AddtoWaitComm lb e) (fun r w' => r = 0 /\ exists m', w' = set_mm w m' /\
    msg_list m' lb 24 32 (es ++ [e]) /\ list_unlocked m' lb /\
    ld 1 m' (lb + 48) = u8 (Z.max (ld 1 (mm w) (lb + 48)) (Z.of_nat (length es) + 1)) /\
    list_frame lb 24 (es ++ [e]) (mm w) m') w.
Proof.
  intros H Hf Hlen Hsem. pose proof (ml_lb _ _ _ _ _ H) as Hlb.
  pose proof Hf as (Hf1 & Hf2 & Hf3 & Hf4).
  unfold AddtoWaitComm, list_unlocked in *. wp_test.
  apply wp_sem_down; [lia | lia |]. intros m1 Ho1 Es1.
  assert (H1 : msg_list m1 lb 24 32 es).
  { apply (msg_list_out _ _ _ _ _ H Ho1); [lia|]. intros e' He'.
    pose proof (ml_ent _ _ _ _ _ H e' He'). lia. }
  pose proof (dlist_tail _ _ _ (ml_dl _ _ _ _ _ H1)) as Et.
  pose proof (last_node_cases (off := 24) (lb + 56) es) as Hprev.
  remember (last_node (lb + 56) (map (fun e => e + 24) es)) as prev eqn:Eprev.
  assert (Hpr : 4096 <= prev /\ prev + 8 <= 2 ^ 32 /\ (prev + 8 <= e \/ e + 32 <= prev) /\
    (prev + 8 <= lb + 48 \/ prev = lb + 56 \/ lb + 80 <= prev)).
  { destruct Hprev as [-> | (e' & He' & ->)]; [lia|].
    pose proof (ml_ent _ _ _ _ _ H1 e' He'). specialize (Hf4 e' He'). lia. }
  wp_step. replace (lb + 56 + 4) with (lb + 60) in Et by lia. rewrite Et.
  rewrite (u32_small (e + 24)) by lia. do 5 wp_step.
  set (m2 := st32 (st32 (st32 (st32 m1 _ _) _ _) _ _) prev _).
  assert (E52 : ld32 m2 (lb + 52) = Z.of_nat (length es)).
  { unfold m2. rewrite !ld_st_ne by lia. apply (ml_count _ _ _ _ _ H1). }
  assert (E48 : ld 1 m2 (lb + 48) = ld 1 (mm w) (lb + 48)).
  { unfold m2. rewrite !ld_st_ne by lia. apply (ld_same_out _ _ _ _ _ _ Ho1). lia. }
  rewrite E52, u32_small by lia. wp_step. wp_step. rewrite ld_st_ne, E48 by lia.
  pose proof (ld1_range (mm w) (lb + 48)) as Hpk.
  assert (Hm2 : ld32 m2 (e + 24) = lb + 56 /\ ld32 m2 (e + 28) = prev /\
    ld32 m2 (lb + 60) = e + 24 /\ ld32 m2 prev = e + 24).
  { unfold m2. memsimp.
    rewrite !u32_small by lia. done. }
  destruct Hm2 as (Ea & Eb & Ec & Ed).
  assert (Ho2 : forall x, ~ (lb + 60 <= x < lb + 64) -> ~ (e + 24 <= x < e + 32) ->
    ~ (prev <= x < prev + 4) -> ld8 m2 x = ld8 m1 x).
  { intros x Hx1 Hx2 Hx3. unfold m2. rewrite !ld8_st_out by lia. done. }
  clearbody m2. apply wp_bind.
  eapply (wp_mono _ (fun _ w' => exists m3, w' = set_mm w m3 /\ same_out (lb + 48) 8 m2 m3 /\
    ld32 m3 (lb + 52) = Z.of_nat (length es) + 1 /\
    ld 1 m3 (lb + 48) = u8 (Z.max (ld 1 (mm w) (lb + 48)) (Z.of_nat (length es) + 1)))).
  { destruct (Z.ltb_spec (ld 1 (mm w) (lb + 48)) (Z.of_nat (length es) + 1)).
    - wp_step. eexists. ands; [done | same_out_tac | memsimp; by rewrite u32_small by lia |].
      rewrite ld1_st1_eq. by rewrite Z.max_r by lia.
    - wp_step. eexists. ands; [done | same_out_tac | by rewrite ld32_st32_eq, u32_small by lia |].
      rewrite ld_st_ne, E48 by lia. by rewrite Z.max_l, u8_small by lia. }
  cbv beta. intros [] w' (m3 & -> & Ho3 & E3 & E3p).
  apply wp_sem_up; [lia|]. intros m4 Ho4 Es4. wp_step. wsimp. rewrite !mm_set_mm in *.
  assert (H3 : msg_list m3 lb 24 32 (es ++ [e])).
  { apply (msg_list_snoc m1 m3 es e H1 Hf Hlen); rewrite <- ?Eprev;
      try (replace (e + 24 + 4) with (e + 28) by lia);
      rewrite ?(ld_same_out _ _ _ _ _ _ Ho3) by lia; try done.
    intros x Hx1 Hx2 Hx3 Hx4. rewrite Ho3 by lia. apply Ho2; lia. }
  split; [done|]. exists m4. ands; [done | | | |].
  - apply (msg_list_out _ _ _ _ _ H3 Ho4); [lia|]. intros e' He'.
    pose proof (ml_ent _ _ _ _ _ H3 e' He'). lia.
  - rewrite Es4, (sem_count_same _ _ _ _ _ Ho3) by lia. unfold sem_count in *.
    replace (ld32 m2 (lb + 64 + 4)) with 0; [done|]. rewrite (ld_same 4 m1 m2); [lia|].
    intros x Hx. apply Ho2; lia.
  - rewrite (ld_same_out _ _ _ _ _ _ Ho4) by lia. done.
  - intros x Hx1 Hx2. rewrite Ho4, Ho3 by lia. rewrite Ho2; [by apply Ho1; lia | lia | |].
    + specialize (Hx2 e ltac:(set_solver)). lia.
    + destruct Hprev as [-> | (e' & He' & ->)]; [lia|]. specialize (Hx2 e' ltac:(set_solver)). lia.
Qed.

(** Unlinking an entry and counting it out. *)
Lemma wp_list_remove {B} lb off size l1 e l2 (k : Z -> M B) (Q : B -> world -> Prop) w :
  msg_list (mm w) lb off size (l1 ++ e :: l2) ->
  (forall m', msg_list m' lb off size (l1 ++ l2) ->
     same_on (lb + 64) 16 (mm w) m' ->
     list_frame lb off (l1 ++ e :: l2) (mm w) m' ->
     wp (k (Z.of_nat (length (l1 ++ e :: l2)))) Q (set_mm w m')) ->
  wp (unlink_node (e + off) ;;
      c ← rd32 (lb + 52); wr32 (lb + 52) (c - 1) ;; k c) Q w.
Proof.
  intros H Hk. pose proof (ml_lb _ _ _ _ _ H) as Hlb. pose proof (ml_off _ _ _ _ _ H) as Hoff.
  pose proof (msg_list_next _ _ _ _ _ H eq_refl) as [En Ep].
  pose proof (last_node_cases (off := off) (lb + 56) l1) as Hprev.
  pose proof (hd_cases (off := off) (lb + 56) l2) as Hnext.
  remember (last_node (lb + 56) (map (fun e => e + off) l1)) as prev eqn:Eprev.
  remember (hd (lb + 56) (map (fun e => e + off) l2)) as next eqn:Enext.
  pose proof (ml_ent _ _ _ _ _ H e ltac:(set_solver)) as Hent.
  assert (Hin : forall x, x = lb + 56 \/ (exists e', e' ∈ l1 ++ e :: l2 /\ x = e' + off) ->
    4096 <= x /\ x + 8 <= 2 ^ 32 /\ (x + 8 <= lb + 48 \/ x = lb + 56 \/ lb + 80 <= x)).
  { intros x [-> | (e' & He' & ->)]; [lia|]. pose proof (ml_ent _ _ _ _ _ H e' He'). lia. }
  assert (Hp : prev = lb + 56 \/ (exists e', e' ∈ l1 ++ e :: l2 /\ prev = e' + off)).
  { destruct Hprev as [->|(e' & He' & ->)]; [by left|]. right. exists e'. set_solver. }
  assert (Hn : next = lb + 56 \/ (exists e', e' ∈ l1 ++ e :: l2 /\ next = e' + off)).
  { destruct Hnext as [->|(e' & He' & ->)]; [by left|]. right. exists e'. set_solver. }
  pose proof (Hin prev Hp) as Hp'. pose proof (Hin next Hn) as Hn'.
  assert (Hpn : apart 8 prev next).
  { apply (dl_apart _ _ _ (ml_dl _ _ _ _ _ H)); apply elem_of_cons.
    - destruct Hp as [->|(e' & He' & ->)]; [by left|]. right. apply list_elem_of_fmap. by exists e'.
    - destruct Hn as [->|(e' & He' & ->)]; [by left|]. right. apply list_elem_of_fmap. by exists e'. }
  unfold apart in Hpn.
  unfold unlink_node. wp_go. rewrite En, Ep, (ld_st_ne 4 4 _ (next + 4)) by lia.
  rewrite (ld_st_ne 4 4 _ prev) by lia. rewrite (ml_count _ _ _ _ _ H).
  pose proof (ml_len _ _ _ _ _ H) as Hlen.
  set (m' := st32 (st32 (st32 (mm w) prev next) (next + 4) prev) (lb + 52) _).
  assert (Hm' : ld32 m' prev = next /\ ld32 m' (next + 4) = prev).
  { unfold m'. memsimp. rewrite !u32_small by lia. done. }
  assert (Ho : forall x, ~ (lb + 52 <= x < lb + 56) -> ~ (prev <= x < prev + 4) ->
     ~ (next + 4 <= x < next + 8) -> ld8 m' x = ld8 (mm w) x).
  { intros x Hx1 Hx2 Hx3. unfold m'. by rewrite !ld8_st_out by lia. }
  apply Hk.
  - apply (msg_list_remove (mm w) m' l1 e l2 H); rewrite <- ?Eprev, <- ?Enext; try tauto.
    + unfold m'. rewrite ld32_st32_eq, !length_app. simpl. rewrite !length_app in Hlen. simpl in Hlen.
      rewrite u32_small by lia. lia.
    + intros x Hx1 Hx2 Hx3. apply Ho; lia.
  - intros x Hx. apply Ho; lia.
  - intros x Hx1 Hx2. apply Ho; [lia | |].
    + destruct Hp as [->|(e' & He' & ->)]; [lia|]. specialize (Hx2 e' He'). lia.
    + destruct Hn as [->|(e' & He' & ->)]; [lia|]. specialize (Hx2 e' He'). lia.
Qed.

(** [e] is the first entry of [es] whose word at [soff] is [sid]. *)
Definition first_with (m : mem) (soff sid : Z) (es l1 : list Z) (e : Z) (l2 : list Z) : Prop :=
  es = l1 ++ e :: l2 /\ Forall (fun x => ld32 m (x + soff) <> sid) l1 /\ ld32 m (e + soff) = sid.
Definition none_with (m : mem) (soff sid : Z) (es : list Z) : Prop :=
  Forall (fun x => ld32 m (x + soff) <> sid) es.

(** Where a walk over [es] stands: [l1] was passed, [cur] is the node of the rest. *)
Definition walk_at (m : mem) (lb off soff sid : Z) (es : list Z) (k : nat) (cur : Z) : Prop :=
  exists l1 l2, es = l1 ++ l2 /\ cur = hd (lb + 56) (map (fun e => e + off) l2) /\
    k = length l2 /\ none_with m soff sid l1.

(** At each step the walk is at the end, at a match, or moves on. *)
Lemma walk_cases m lb off size soff sid es k cur :
  msg_list m lb off size es -> walk_at m lb off soff sid es k cur ->
  (cur = lb + 56 /\ none_with m soff sid es) \/
  (cur <> lb + 56 /\ exists l1 e l2, cur = e + off /\ es = l1 ++ e :: l2 /\
     none_with m soff sid l1 /\ 4096 <= e /\
     (ld32 m (e + soff) <> sid ->
      (0 < k)%nat /\ walk_at m lb off soff sid es (k - 1) (ld32 m (e + off)))).
Proof.
  intros H (l1 & l2 & -> & Hcur & Hk & Hn). destruct l2 as [|e l2].
  - left. by rewrite app_nil_r.
  - simpl in Hcur. right. subst cur. split; [apply (msg_list_node _ _ _ H); set_solver|].
    exists l1, e, l2. ands; try done; [apply (ml_ent _ _ _ _ _ H e); set_solver|].
    intros Hne. simpl in Hk. split; [lia|].
    exists (l1 ++ [e]), l2. rewrite <- app_assoc. simpl. ands; [done | | lia |].
    + by destruct (msg_list_next _ _ _ _ _ H eq_refl) as [-> _].
    + apply Forall_app. by repeat constructor.
Qed.

Lemma walk_start m lb off size soff sid es :
  msg_list m lb off size es ->
  walk_at m lb off soff sid es (length es) (ld32 m (lb + 56)).
Proof.
  intros H. exists [], es. rewrite (msg_list_head _ _ H). ands; try done. by constructor.
Qed.

Lemma list_fuel_enough m lb off size es : msg_list m lb off size es -> (length es < list_fuel)%nat.
Proof. intros H. pose proof (ml_len _ _ _ _ _ H). unfold list_fuel. lia. Qed.

Lemma FindWait_loop lb sid es (Q : option Z -> world -> Prop) w :
  msg_list (mm w) lb 24 32 es ->
  (forall l1 e l2, first_with (mm w) 0 sid es l1 e l2 -> Q (Some e) w) ->
  (none_with (mm w) 0 sid es -> Q None w) ->
  wp (loop list_fuel (fun cur_node =>
    if cur_node =? lb + 56 then mret (inr None) else
    let entry_base := cur_node - 24 in
    sid' ← rd32 entry_base;
    if sid' =? sid then mret (inr (Some entry_base))
    else
      next ← rd32 cur_node;
      mret (inl next)) (ld32 (mm w) (lb + 56))) Q w.
Proof.
  intros H H1 H2.
  apply (wp_loop (fun k cur w' => w' = w /\ walk_at (mm w) lb 24 0 sid es k cur) _ _ _ (length es)).
  - by eapply list_fuel_enough.
  - split; [done | by eapply walk_start].
  - intros k cur w' [-> Hw].
    destruct (walk_cases _ _ _ _ _ _ _ _ _ H Hw) as [[-> Hn]|(Hne & l1 & e & l2 & -> & E & Hn & He & Hnx)].
    + rewrite Z.eqb_refl. wp_step. by apply H2.
    + rewrite eqb_neq_false by done. cbv zeta. replace (e + 24 - 24) with e by lia. wp_step.
      rewrite Z.add_0_r in *. destruct (Z.eqb_spec (ld32 (mm w) e) sid) as [Es|Es].
      * wp_step. apply (H1 l1 e l2). unfold first_with. by rewrite Z.add_0_r.
      * wp_go. destruct (Hnx Es) as [Hk Hw']. exists (k - 1)%nat. split; [lia|]. done.
Qed.

Lemma FindWaitBySessionId_wp lb sid es w :
  msg_list (mm w) lb 24 32 es -> list_unlocked (mm w) lb ->
  wp (FindWaitBySessionId lb sid) (fun r w' => exists m', w' = set_mm w m' /\
    msg_list m' lb 24 32 es /\ list_unlocked m' lb /\ same_out (lb + 64) 16 (mm w) m' /\
    ((exists l1 e l2, first_with (mm w) 0 sid es l1 e l2 /\ r = (0, e)) \/
     (none_with (mm w) 0 sid es /\ r = (1, 0)))) w.
Proof.
  intros H Hsem. pose proof (ml_lb _ _ _ _ _ H) as Hlb. unfold FindWaitBySessionId, list_unlocked in *.
  wp_test. apply wp_sem_down; [lia | lia |]. intros m1 Ho1 Es1.
  assert (Hout : forall m2, same_out (lb + 64) 16 (mm w) m2 -> msg_list m2 lb 24 32 es).
  { intros m2 Ho. apply (msg_list_out _ _ _ _ _ H Ho); [lia|].
    intros e He. pose proof (ml_ent _ _ _ _ _ H e He). lia. }
  assert (Hfld : forall e, e ∈ es -> ld32 m1 (e + 0) = ld32 (mm w) (e + 0)).
  { intros e He. pose proof (ml_ent _ _ _ _ _ H e He). apply (ld_same_out _ _ _ _ _ _ Ho1). lia. }
  pose proof (Hout m1 Ho1) as H1.
  assert (Hend : forall m2, same_out (lb + 64) 16 m1 m2 ->
    sem_count m2 (lb + 64) = u32 (sem_count m1 (lb + 64) + 1) ->
    msg_list m2 lb 24 32 es /\ sem_count m2 (lb + 64) = 1 /\ same_out (lb + 64) 16 (mm w) m2).
  { intros m2 Ho2 Es2. assert (same_out (lb + 64) 16 (mm w) m2) by (by eapply same_out_trans).
    ands; [by apply Hout | rewrite Es2, Es1, Hsem; done | done]. }
  wp_step. apply wp_bind. apply (FindWait_loop lb sid es _ (set_mm w m1) H1); wsimp.
  - intros l1 e l2 (E & Hl & Hm). apply wp_sem_up; [lia|]. intros m2 Ho2 Es2. wp_step. exists m2.
    destruct (Hend m2 Ho2 Es2) as (? & ? & ?). ands; try done. left. exists l1, e, l2.
    split; [|done]. split; [done|]. split; [|rewrite <- Hfld by (rewrite E; set_solver); done].
    rewrite Forall_forall in Hl |- *. intros x Hx. rewrite <- Hfld by (rewrite E; set_solver). by apply Hl.
  - intros Hn. apply wp_sem_up; [lia|]. intros m2 Ho2 Es2. wp_step. exists m2.
    destruct (Hend m2 Ho2 Es2) as (? & ? & ?). ands; try done. right. split; [|done].
    unfold none_with in *. rewrite Forall_forall in Hn |- *. intros x Hx. rewrite <- Hfld by done. by apply Hn.
Qed.

(** Searching under the list lock: facts about the entries carry over. *)
Lemma none_with_same m m' soff sid es :
  (forall e, e ∈ es -> ld32 m' (e + soff) = ld32 m (e + soff)) ->
  none_with m' soff sid es -> none_with m soff sid es.
Proof.
  unfold none_with. rewrite !Forall_forall. intros E H x Hx. rewrite <- E by done. by apply H.
Qed.

Lemma list_frame_trans lb off es m1 m2 m3 :
  list_frame lb off es m1 m2 -> list_frame lb off es m2 m3 -> list_frame lb off es m1 m3.
Proof. intros H1 H2 x Ha Hb. by rewrite H2, H1. Qed.

Lemma list_frame_sem lb off es m m' : same_out (lb + 64) 16 m m' -> list_frame lb off es m m'.
Proof. intros H x Ha Hb. apply H. lia. Qed.

(** The outcome of removing by session: the first match, if there is one. *)
Definition removed (m m' : mem) (lb off size soff sid : Z) (es : list Z) (r : option Z) : Prop :=
  (exists l1 e l2, first_with m soff sid es l1 e l2 /\ r = Some e /\
     msg_list m' lb off size (l1 ++ l2)) \/
  (none_with m soff sid es /\ r = None /\ msg_list m' lb off size es).

Lemma GetWaitbySessionId_wp lb sid es w :
  msg_list (mm w) lb 24 32 es -> list_unlocked (mm w) lb ->
  wp (GetWaitbySessionId lb sid) (fun r w' => exists m', w' = set_mm w m' /\
    list_unlocked m' lb /\ list_frame lb 24 es (mm w) m' /\
    fst r = (match snd r with Some _ => 0 | None => 1 end) /\ removed (mm w) m' lb 24 32 0 sid es (snd r)) w.
Proof.
  intros H Hsem. pose proof (ml_lb _ _ _ _ _ H) as Hlb. unfold GetWaitbySessionId, list_unlocked in *.
  wp_test. apply wp_sem_down; [lia | lia |]. intros m1 Ho1 Es1.
  assert (Hout : forall m0 m2 es, same_out (lb + 64) 16 m0 m2 ->
    msg_list m0 lb 24 32 es -> msg_list m2 lb 24 32 es).
  { intros m0 m2 es' Ho H0. apply (msg_list_out _ _ _ _ _ H0 Ho); [lia|].
    intros e He. pose proof (ml_ent _ _ _ _ _ H0 e He). lia. }
  assert (Hfld : forall e, e ∈ es -> ld32 m1 (e + 0) = ld32 (mm w) (e + 0)).
  { intros e He. pose proof (ml_ent _ _ _ _ _ H e He). apply (ld_same_out _ _ _ _ _ _ Ho1). lia. }
  pose proof (Hout _ _ _ Ho1 H) as H1.
  wp_step. apply (wp_call _ _ (fun r w' => exists m2, w' = set_mm w m2 /\
    same_on (lb + 64) 16 m1 m2 /\ list_frame lb 24 es m1 m2 /\
    removed m1 m2 lb 24 32 0 sid es r)).
  - apply (wp_loop (fun k cur w' => w' = set_mm w m1 /\ walk_at m1 lb 24 0 sid es k cur) _ _ _ (length es)).
    + by eapply list_fuel_enough.
    + split; [done | by eapply walk_start].
    + intros k cur w' [-> Hw].
      destruct (walk_cases _ _ _ _ _ _ _ _ _ H1 Hw) as [[-> Hn]|(Hne & l1 & e & l2 & -> & E & Hn & He & Hnx)].
      * rewrite Z.eqb_refl. wp_step. exists m1. ands; try done. right. done.
      * rewrite eqb_neq_false by done. cbv zeta. replace (e + 24 - 24) with e by lia. wp_step.
        rewrite Z.add_0_r in *. destruct (Z.eqb_spec (ld32 m1 e) sid) as [Es|Es].
        { rewrite E in H1. apply (wp_list_remove lb 24 32 l1 e l2); [exact H1|].
          intros m2 H2 Hs2 Hf2. wp_step. wsimp. exists m2. rewrite mm_set_mm in *. rewrite E.
          ands; try done. left. exists l1, e, l2. split; [|done]. split; [done|]. split; [done|].
          by rewrite Z.add_0_r. }
        { wp_go. destruct (Hnx Es) as [Hk Hw']. exists (k - 1)%nat. split; [lia|]. done. }
  - intros r w' (m2 & -> & Hs2 & Hf2 & Hr). apply wp_sem_up; [lia|]. intros m3 Ho3 Es3. wsimp.
    rewrite mm_set_mm in *.
    assert (Ec : sem_count m3 (lb + 64) = 1).
    { rewrite Es3. unfold sem_count in *. rewrite (ld_same 4 m1 m2) by (intros; apply Hs2; lia).
      rewrite Es1, Hsem. done. }
    assert (Hfr : list_frame lb 24 es (mm w) m3).
    { eapply list_frame_trans; [by apply list_frame_sem|].
      eapply list_frame_trans; [exact Hf2 | by apply list_frame_sem]. }
    destruct Hr as [(l1 & e & l2 & (E & Hl & Hm) & -> & H2)|(Hn & -> & H2)].
    + wp_step. exists m3. ands; try done. left. exists l1, e, l2. split; [|split; [done | by eapply Hout]].
      split; [done|]. split; [|rewrite <- Hfld by (rewrite E; set_solver); done].
      apply (none_with_same _ m1); [|done]. intros x Hx. apply Hfld. rewrite E. set_solver.
    + wp_step. exists m3. ands; try done. right. ands; [|done | by eapply Hout].
      by apply (none_with_same _ m1).
Qed.
End ListOps.

(** ** The pools of wait objects and call entries *)

Section Pools.
Context {S : Shm} {OK : ShmOk S} {K : Kernel} {L : SemLaws K}.

(** A wait object leaves the free list at its front... *)
Lemma GetFreeWaitComm_wp sock q w :
  4096 <= sock -> sock + 4992 <= 2 ^ 32 -> wait_fifo (mm w) sock q ->
  wp (GetFreeWaitComm (sock + 136)) (fun r w' =>
    match q with
    | [] => r = (1, 0) /\ w' = w
    | e :: q' => r = (0, e) /\ exists m', w' = set_mm w m' /\ wait_fifo m' sock q' /\
        same_out (sock + 136) 12 (mm w) m'
    end) w.
Proof.
  intros Hs Hs2 H. unfold wait_fifo in *. unfold GetFreeWaitComm.
  eapply wp_call; [apply (fifo_getItemRd_wp H)|]. intros a w' [-> ->]. pose proof (fa_rd _ _ _ _ _ _ H).
  destruct q as [|e q]; [by wp_go|]. unfold rd_slot.
  rewrite (eqb_neq_false (Z.of_nat _)), eqb_neq_false by (simpl; lia). cbn [negb]. wp_step.
  pose proof (fa_items _ _ _ _ _ _ H O e eq_refl) as Hx.
  rewrite Z.add_0_r, Z.mod_small in Hx by lia. rewrite Hx.
  eapply wp_call; [apply (fifo_ItemRdNext_wp e q H)|].
  intros _ w' (m' & -> & _ & H' & _ & Ho & _). wp_step. split; [done|]. by exists m'.
Qed.

Lemma sock_of_words cpu k : s_CommSockt + 4 * (1248 * cpu + k) = sock_of cpu + 4 * k.
Proof. unfold sock_of, COMM_SOCKET_SIZE. lia. Qed.

Lemma sock_of_range cpu : 0 <= cpu <= 1 -> 4096 <= sock_of cpu /\ sock_of cpu + 4992 <= 2 ^ 32.
Proof. intros H. shm_facts. unfold sock_of, COMM_SOCKET_SIZE. lia. Qed.

(** ... and returns at its back, under the pool's semaphore. *)
Lemma ReleaseWaitComm_wp cpu e q w :
  0 <= cpu <= 1 -> wait_fifo (mm w) (sock_of cpu) q -> Z.of_nat (length q) < 20 ->
  0 <= e < 2 ^ 32 -> sem_count (mm w) (sock_of cpu + 120) = 1 ->
  wp (ReleaseWaitComm cpu e) (fun _ w' => exists m', w' = set_mm w m' /\
    wait_fifo m' (sock_of cpu) (q ++ [e]) /\ sem_count m' (sock_of cpu + 120) = 1 /\
    (forall x, x < sock_of cpu + 120 \/ sock_of cpu + 292 <= x -> ld8 m' x = ld8 (mm w) x)) w.
Proof.
  intros Hc H Hq He Hsem. pose proof (sock_of_range cpu Hc) as [Hr1 Hr2].
  unfold ReleaseWaitComm. wp_test. cbv zeta. rewrite !sock_of_words.
  replace (sock_of cpu + 4 * 34) with (sock_of cpu + 136) by lia.
  replace (sock_of cpu + 4 * 30) with (sock_of cpu + 120) by lia.
  set (sock := sock_of cpu) in *. unfold wait_fifo in *.
  apply wp_sem_down; [lia | lia |]. intros m1 Ho1 Es1.
  assert (H1 : fifo_at m1 (sock + 136) (sock + 208) (sock + 208) 21 q)
    by (apply (fifo_at_same_out H _ _ _ Ho1); lia).
  assert (Hfull : fifo_full 21 q = false) by (apply eqb_neq_false; lia).
  pose proof (fifo_wr_range H1) as Hw.
  eapply wp_call; [apply (fifo_getItemWr_wp (w := set_mm w m1) H1)|].
  intros a w' [-> ->]. rewrite Hfull, mm_set_mm, eqb_neq_false by lia. wp_step.
  pose proof (fifo_at_slot_write H1 e Hfull) as H2. set (m2 := st32 m1 _ _) in *.
  assert (Ew : wr_slot m2 (sock + 136) = wr_slot m1 (sock + 136)) by (apply ld_st_ne; lia).
  eapply wp_call.
  { apply (fifo_requestItemWr_wp (w := set_mm w m2) _ e H2 Hfull).
    rewrite mm_set_mm, Ew. unfold m2. rewrite ld32_st32_eq. by apply u32_small. }
  intros _ w' (m3 & -> & _ & _ & H3 & Ho3 & _). rewrite mm_set_mm in *.
  assert (Ho2 : same_out (sock + 208) 84 m1 m2) by (apply same_out_st; lia).
  apply wp_sem_up_last; [lia|]. intros m4 Ho4 Es4. wsimp. rewrite !mm_set_mm in *. exists m4.
  ands; [done | apply (fifo_at_same_out H3 _ _ _ Ho4); lia | |].
  - rewrite Es4, (sem_count_same _ _ _ _ _ Ho3), (sem_count_same _ _ _ _ _ Ho2), Es1, Hsem by lia. done.
  - intros x Hx. rewrite Ho4, Ho3, Ho2 by lia. apply Ho1. lia.
Qed.

(** The free list of a share sequence, by entry number. *)
Definition calls (seq : Z) (js : list Z) : list Z := map (fun j => vir2phy (call_entry seq j)) js.

Record call_pool (m : mem) (seq : Z) (js : list Z) : Prop := CallPool {
  cp_range : seq_range seq;
  cp_free : free_fifo m seq (calls seq js);
  cp_idx : Forall (fun j => 0 <= j < 20) js;
  cp_slot : forall j, 0 <= j < 20 -> ld16 m (call_entry seq j + 4) = j;
}.

Lemma call_entry_at seq j : call_entry seq j = seq + 360 + 104 * j.
Proof. unfold call_entry, COMM_MSG_SIZE. lia. Qed.

(** Where an entry lies, and its two addresses. *)
Lemma call_entry_shm seq j : seq_range seq -> 0 <= j < 20 ->
  seq + 360 <= call_entry seq j /\ call_entry seq j + 104 <= seq + 2440 /\
  in_shm (call_entry seq j) /\ vir2phy (call_entry seq j) = call_entry seq j - ShMemAddrBase + ShMemAddr.
Proof.
  intros [H1 H2] Hj. pose proof (call_entry_at seq j). unfold SHMEM_OFF_MAX_CPU in *. shm_facts.
  assert (in_shm (call_entry seq j)) by (unfold in_shm; lia).
  ands; [lia | lia | done | by apply vir2phy_shm].
Qed.

(** Slot addresses of the free FIFO are physical. *)
Lemma slot_phy2vir seq k : seq_range seq -> 0 <= k < 21 ->
  vir2phy (seq + 192) + 4 * k <> 0 /\ phy2vir (vir2phy (seq + 192) + 4 * k) = seq + 192 + 4 * k.
Proof.
  intros [H1 H2] Hk. unfold SHMEM_OFF_MAX_CPU in *. shm_facts.
  rewrite vir2phy_shm by (unfold in_shm; lia). split; [lia|].
  unfold phy2vir. rewrite u32_small; lia.
Qed.

Lemma calls_lookup seq js i v : calls seq js !! i = Some v ->
  exists j, js !! i = Some j /\ v = vir2phy (call_entry seq j).
Proof. unfold calls. rewrite list_lookup_fmap_Some. intros (j & -> & H). by exists j. Qed.

Lemma Comm_GetFreeCall_wp seq js w :
  call_pool (mm w) seq js ->
  wp (Comm_GetFreeCall seq) (fun r w' =>
    match js with
    | [] => r = 0 /\ w' = w
    | j :: js' => r = call_entry seq j /\ exists m', w' = set_mm w m' /\ call_pool m' seq js' /\
        ld16 m' (r + 10) = 0 /\
        (forall x, ~ (seq + 120 <= x < seq + 132) -> ~ (r + 10 <= x < r + 12) ->
           ld8 m' x = ld8 (mm w) x)
    end) w.
Proof.
  intros [Hr H Hidx Hslot]. pose proof Hr as [Hr1 Hr2]. unfold SHMEM_OFF_MAX_CPU in *. shm_facts.
  unfold free_fifo in *. unfold Comm_GetFreeCall. wp_test.
  eapply wp_call; [apply (fifo_getItemRd_wp H)|]. intros a w' [-> ->].
  destruct js as [|j js]; [by wp_go|]. unfold rd_slot. pose proof (fa_rd _ _ _ _ _ _ H) as Hrd.
  destruct (slot_phy2vir seq (ld32 (mm w) (seq + 120)) Hr Hrd) as [Hn Ev].
  rewrite (eqb_neq_false (Z.of_nat _)) by (simpl; lia). rewrite eqb_neq_false by done.
  rewrite Ev. wp_step.
  pose proof (fa_items _ _ _ _ _ _ H O _ eq_refl) as Hx. rewrite Z.add_0_r, Z.mod_small in Hx by lia.
  rewrite Hx. apply Forall_cons in Hidx as [Hj Hidx].
  destruct (call_entry_shm seq j Hr Hj) as (He1 & He2 & Hin & Ee).
  rewrite (eqb_neq_false (vir2phy _)) by (by apply vir2phy_nonzero). cbn [negb].
  rewrite phy2vir_vir2phy by done. rewrite eqb_neq_false by lia. wp_step. rewrite Hslot by done.
  wp_test. wp_step. set (e := call_entry seq j) in *. set (m1 := st16 _ _ _).
  assert (Ho1 : same_out (e + 10) 2 (mm w) m1) by (apply same_out_st; lia).
  assert (H1 : fifo_at m1 (seq + 120) (vir2phy (seq + 192)) (seq + 192) 21 (calls seq (j :: js)))
    by (apply (fifo_at_same_out H _ _ _ Ho1); lia).
  assert (Em1 : ld16 m1 (e + 10) = 0) by (unfold m1; by rewrite ld16_st16_eq). clearbody m1.
  eapply wp_call; [apply (fifo_ItemRdNext_wp (w := set_mm w m1) _ _ H1)|].
  intros _ w' (m2 & -> & _ & H2 & _ & Ho2 & _). wp_step. split; [done|]. exists m2. wsimp.
  rewrite mm_set_mm in Ho2. ands; [done | | |].
  - split; [done | done | done |]. intros k Hk. rewrite <- Hslot by done.
    pose proof (call_entry_at seq k) as Ck. pose proof (call_entry_at seq j) as Cj. fold e in Cj.
    rewrite (ld_same_out _ _ _ _ _ _ Ho2), (ld_same_out _ _ _ _ _ _ Ho1) by lia. done.
  - rewrite (ld_same_out _ _ _ _ _ _ Ho2) by lia. done.
  - intros x Hx1 Hx2. rewrite Ho2, Ho1 by lia. done.
Qed.

Lemma Comm_ReleaseFreeCall_wp seq js j w :
  call_pool (mm w) seq js -> Z.of_nat (length js) < 20 -> 0 <= j < 20 ->
  ld8 (mm w) seq = CPU_ID_ARM -> 0 <= ld8 (mm w) (seq + 1) <= 1 ->
  sem_count (mm w) (sock_of (ld8 (mm w) (seq + 1)) + 936) = 1 ->
  wp (Comm_ReleaseFreeCall seq (call_entry seq j)) (fun _ w' => exists m', w' = set_mm w m' /\
    call_pool m' seq (js ++ [j]) /\
    sem_count m' (sock_of (ld8 (mm w) (seq + 1)) + 936) = 1 /\
    ld16 m' (call_entry seq j + 10) = 0 /\
    (forall x, ~ (seq + 120 <= x < seq + 276) -> ~ (call_entry seq j + 10 <= x < call_entry seq j + 12) ->
       ~ (sock_of (ld8 (mm w) (seq + 1)) + 936 <= x < sock_of (ld8 (mm w) (seq + 1)) + 952) ->
       ld8 m' x = ld8 (mm w) x)) w.
Proof.
  intros [Hr H Hidx Hslot] Hlen Hj Hloc Hrem Hsem. pose proof Hr as [Hr1 Hr2].
  unfold SHMEM_OFF_MAX_CPU in *. unfold free_fifo in *.
  pose proof (sock_of_range _ Hrem) as [Hk1 Hk2].
  assert (Hsk : s_CommSockt <= sock_of (ld8 (mm w) (seq + 1)) /\
    sock_of (ld8 (mm w) (seq + 1)) + 4992 <= s_CommSockt + 2 * 4992)
    by (unfold sock_of, COMM_SOCKET_SIZE; lia).
  destruct (call_entry_shm seq j Hr Hj) as (He1 & He2 & Hin & Ee). shm_facts.
  unfold Comm_ReleaseFreeCall, CPU_ID_ARM in *. wp_test. wp_step. rewrite ld_1, Hloc.
  unfold getCurCPUID, CPU_ID_ARM. cbn [Z.eqb negb]. wp_step. rewrite ld_1. wp_test. cbv zeta.
  rewrite !sock_of_words. set (sock := sock_of _) in *.
  replace (sock + 4 * 234) with (sock + 936) by lia. set (e := call_entry seq j) in *.
  apply wp_sem_down; [lia | lia |]. intros m1 Ho1 Es1.
  assert (H1 : fifo_at m1 (seq + 120) (vir2phy (seq + 192)) (seq + 192) 21 (calls seq js))
    by (apply (fifo_at_same_out H _ _ _ Ho1); lia).
  assert (Hfull : fifo_full 21 (calls seq js) = false).
  { apply eqb_neq_false. unfold calls. rewrite length_map. lia. }
  pose proof (fifo_wr_range H1) as Hw.
  eapply wp_call; [apply (fifo_getItemWr_wp (w := set_mm w m1) H1)|].
  intros a w' [-> ->]. rewrite Hfull, mm_set_mm.
  destruct (slot_phy2vir seq _ Hr Hw) as [Hn Ev]. rewrite (eqb_neq_false (_ + _)) by done.
  rewrite Ev. rewrite (u32_small (ShMemAddrBase + ShMemSize)) by (unfold in_shm in Hin; lia).
  unfold in_shm in Hin.
  rewrite (eqb_neq_false (seq + 192 + _)), !ltb_false, !leb_false by lia. cbn [orb].
  wp_step. wp_step.
  set (m2 := st16 m1 (e + 10) 0).
  assert (Ho2 : same_out (e + 10) 2 m1 m2) by (apply same_out_st; lia).
  assert (H2 : fifo_at m2 (seq + 120) (vir2phy (seq + 192)) (seq + 192) 21 (calls seq js))
    by (apply (fifo_at_same_out H1 _ _ _ Ho2); lia).
  assert (Ew2 : wr_slot m2 (seq + 120) = wr_slot m1 (seq + 120)) by (apply (ld_same_out _ _ _ _ _ _ Ho2); lia).
  assert (Em2 : ld16 m2 (e + 10) = 0) by (unfold m2; by rewrite ld16_st16_eq). clearbody m2.
  rewrite <- Ew2 in *.
  pose proof (fifo_at_slot_write H2 (vir2phy e) Hfull) as H3. set (m3 := st32 m2 _ _) in *.
  assert (Ho3 : same_out (seq + 192) 84 m2 m3) by (apply same_out_st; lia).
  assert (Ew3 : wr_slot m3 (seq + 120) = wr_slot m2 (seq + 120)) by (apply ld_st_ne; lia).
  eapply wp_call.
  { apply (fifo_requestItemWr_wp (w := set_mm w m3) _ (vir2phy e) H3 Hfull).
    rewrite mm_set_mm, Ew3. unfold m3. rewrite ld32_st32_eq. apply u32_small. lia. }
  intros ok w' (m4 & -> & _ & Hok & H4 & Ho4 & _). rewrite mm_set_mm in *.
  rewrite eqb_neq_false by done. apply wp_sem_up_last; [lia|]. intros m5 Ho5 Es5. wsimp.
  rewrite !mm_set_mm in *. clearbody m3. exists m5. ands; [done | | | |].
  - split; [done | | apply Forall_app; split; [done | by apply Forall_singleton] |].
    + unfold free_fifo, calls in *. rewrite map_app. apply (fifo_at_same_out H4 _ _ _ Ho5); lia.
    + intros k Hk. rewrite <- Hslot by done. pose proof (call_entry_at seq k) as Ck.
      pose proof (call_entry_at seq j) as Cj. fold e in Cj. chase. done.
  - rewrite Es5, (sem_count_same _ _ _ _ _ Ho4), (sem_count_same _ _ _ _ _ Ho3),
      (sem_count_same _ _ _ _ _ Ho2), Es1, Hsem by lia. done.
  - rewrite (ld_same_out _ _ _ _ _ _ Ho5), (ld_same_out _ _ _ _ _ _ Ho4),
      (ld_same_out _ _ _ _ _ _ Ho3) by lia. done.
  - intros x Hx1 Hx2 Hx3. rewrite Ho5, Ho4, Ho3, Ho2 by lia. apply Ho1. lia.
Qed.
End Pools.

