(* ===== verification/Pools.v ===== *)
(** Properties of the pools of call entries and wait objects: every object is in
    the pool or held by one user, whatever the order in which users take and
    return them. *)
From S2P Require Import Prelude Mem Kernel Fifo Shm SpinLock SeqMem Boot DList Channel.

(** ** The specification of a pool *)

(** The free objects, oldest first, and the objects in use. *)
Inductive pool_step {A} : list A * list A -> list A * list A -> Prop :=
| pool_get x free held : pool_step (x :: free, held) (free, x :: held)
| pool_put x free l1 l2 : pool_step (free, l1 ++ x :: l2) (free ++ [x], l1 ++ l2)
| pool_idle s : pool_step s s.

Lemma pool_step_perm {A} (free held free' held' : list A) :
  pool_step (free, held) (free', held') -> free' ++ held' ≡ₚ free ++ held.
Proof.
  inversion 1; subst; simpl; [by rewrite Permutation_middle | | done].
  rewrite <- app_assoc. simpl. apply Permutation_app_head. apply Permutation_middle.
Qed.

(** What a pool invariant gives its users. *)
Lemma pool_facts {A} (all free held : list A) :
  NoDup all -> free ++ held ≡ₚ all ->
  NoDup held /\ (forall x, x ∈ held -> x ∈ all) /\ (forall x, x ∈ free -> x ∉ held) /\
  (free = [] <-> length held = length all).
Proof.
  intros Hn Hp. assert (Hn' : NoDup (free ++ held)) by (by rewrite Hp).
  apply NoDup_app in Hn' as (H1 & H2 & H3). ands; [done | | done |].
  - intros x Hx. rewrite <- Hp. set_solver.
  - pose proof (Permutation_length Hp) as Hl. rewrite length_app in Hl.
    split; [intros ->; simpl in Hl; lia|]. intros E. apply length_zero_iff_nil. lia.
Qed.

Section CallPool.
Context {S : Shm} {OK : ShmOk S} {K : Kernel} {L : SemLaws K}.

Definition all_calls (seq : Z) : list Z := map (call_entry seq) (seqZ 0 20).

Lemma all_calls_NoDup seq : NoDup (all_calls seq).
Proof.
  apply NoDup_fmap_2; [|apply NoDup_seqZ]. intros i j. unfold call_entry, COMM_MSG_SIZE. lia.
Qed.

(** Users of the pool of the sequence from ARM to [dir]: they take entries,
    return entries they hold, and do anything else that keeps off the free list,
    the entries' numbers and the pool's semaphore. *)
Record call_state := CallSt { cs_w : world; cs_held : list Z }.

Definition pool_bytes (seq dir x : Z) : Prop :=
  seq <= x < seq + 2 \/ seq + 120 <= x < seq + 276 \/
  (exists j, 0 <= j < 20 /\ call_entry seq j + 4 <= x < call_entry seq j + 6) \/
  sock_of dir + 936 <= x < sock_of dir + 952.

Inductive call_step (seq dir : Z) : call_state -> call_state -> Prop :=
| call_got w r w' held :
    Comm_GetFreeCall seq w = Ret r w' -> r <> 0 ->
    call_step seq dir (CallSt w held) (CallSt w' (r :: held))
| call_none w w' held :
    Comm_GetFreeCall seq w = Ret 0 w' ->
    call_step seq dir (CallSt w held) (CallSt w' held)
| call_put w w' l1 e l2 :
    Comm_ReleaseFreeCall seq e w = Ret tt w' ->
    call_step seq dir (CallSt w (l1 ++ e :: l2)) (CallSt w' (l1 ++ l2))
| call_other w w' held :
    (forall x, pool_bytes seq dir x -> ld8 (mm w') x = ld8 (mm w) x) ->
    call_step seq dir (CallSt w held) (CallSt w' held).

Record calls_inv (seq dir : Z) (js held : list Z) (m : mem) : Prop := CallsInv {
  ci_pool : call_pool m seq js;
  ci_perm : map (call_entry seq) js ++ held ≡ₚ all_calls seq;
  ci_local : ld8 m seq = CPU_ID_ARM;
  ci_remote : ld8 m (seq + 1) = dir;
  ci_dir : 0 <= dir <= 1;
  ci_sem : sem_count m (sock_of dir + 936) = 1;
  ci_seq : exists i, 0 <= i <= 1 /\ seq = getShareSeq 0 dir i;
}.

Lemma calls_inv_apart seq dir : 0 <= dir <= 1 -> (exists i, 0 <= i <= 1 /\ seq = getShareSeq 0 dir i) ->
  sock_of dir + 4992 <= seq \/ seq + 2440 <= sock_of dir.
Proof.
  intros Hd (i & Hi & ->). rewrite getShareSeq_at by lia. shm_facts. unfold sock_of, COMM_SOCKET_SIZE. lia.
Qed.

Lemma calls_inv_bytes seq dir js held m m' :
  calls_inv seq dir js held m -> (forall x, pool_bytes seq dir x -> ld8 m' x = ld8 m x) ->
  calls_inv seq dir js held m'.
Proof.
  intros [[Hr Hf Hi Hs] Hp H1 H2 H3 H4 H5] Ho. unfold pool_bytes in Ho. split; try done.
  - split; try done.
    + apply (fifo_at_frame Hf); [intros x Hx; apply Ho; lia|]. intros k x Hk Hx.
      pose proof (Z.mod_pos_bound (ld32 m (seq + 120) + Z.of_nat k) 21 ltac:(lia)). apply Ho. lia.
    + intros j Hj. rewrite (ld_same _ m); [by apply Hs|]. intros x Hx. apply Ho.
      right. right. left. exists j. split; [done | lia].
  - rewrite Ho by lia. done.
  - rewrite Ho by lia. done.
  - unfold sem_count in *. rewrite (ld_same _ m); [done|]. intros x Hx. apply Ho. lia.
Qed.

Lemma calls_inv_get seq dir j js held m m' :
  calls_inv seq dir (j :: js) held m -> call_pool m' seq js ->
  (forall x, ~ (seq + 120 <= x < seq + 132) ->
     ~ (call_entry seq j + 10 <= x < call_entry seq j + 12) -> ld8 m' x = ld8 m x) ->
  calls_inv seq dir js (call_entry seq j :: held) m'.
Proof.
  intros [[Hr Hf Hi Hs] Hp H1 H2 H3 H4 H5] Hc Ho. pose proof (calls_inv_apart _ _ H3 H5).
  apply Forall_cons in Hi as [Hj _]. destruct (call_entry_shm seq j Hr Hj) as (? & ? & _).
  split; try done.
  - rewrite <- Hp. simpl. symmetry. apply Permutation_middle.
  - rewrite Ho by lia. done.
  - rewrite Ho by lia. done.
  - unfold sem_count in *. rewrite (ld_same _ m); [done|]. intros x Hx. apply Ho; lia.
Qed.

Lemma calls_inv_index seq dir js held m e : calls_inv seq dir js held m -> e ∈ held ->
  exists j, 0 <= j < 20 /\ e = call_entry seq j /\ Z.of_nat (length js) < 20.
Proof.
  intros H He. pose proof (ci_perm _ _ _ _ _ H) as Hp.
  assert (Hin : e ∈ all_calls seq) by (rewrite <- Hp; set_solver).
  unfold all_calls in Hin. apply list_elem_of_fmap in Hin as (j & -> & Hj).
  apply elem_of_seqZ in Hj. exists j. ands; [lia | lia | done |].
  pose proof (Permutation_length Hp) as Hl. unfold all_calls in Hl.
  rewrite length_app, !length_map, length_seqZ in Hl.
  destruct held; [set_solver | simpl in Hl; lia].
Qed.

Lemma call_step_inv seq dir s t : call_step seq dir s t ->
  forall js, calls_inv seq dir js (cs_held s) (mm (cs_w s)) ->
  exists js', calls_inv seq dir js' (cs_held t) (mm (cs_w t)).
Proof.
  destruct 1 as [w r w' held E Hr | w w' held E | w w' l1 e l2 E | w w' held Ho]; intros js H; simpl in *.
  - apply (wp_Ret _ _ _ _ _ (Comm_GetFreeCall_wp seq js w (ci_pool _ _ _ _ _ H))) in E.
    destruct js as [|j js]; [by destruct E|]. destruct E as (-> & m' & -> & Hc & _ & Ho).
    exists js. by apply (calls_inv_get _ _ _ _ _ _ _ H).
  - apply (wp_Ret _ _ _ _ _ (Comm_GetFreeCall_wp seq js w (ci_pool _ _ _ _ _ H))) in E.
    destruct js as [|j js]; [destruct E as [_ ->]; by exists []|]. destruct E as (E & _).
    destruct (ci_pool _ _ _ _ _ H) as [Hr _ Hi _]. apply Forall_cons in Hi as [Hj _].
    destruct (call_entry_shm seq j Hr Hj) as (? & _). destruct Hr. shm_facts. lia.
  - destruct (calls_inv_index _ _ _ _ _ e H) as (j & Hj & -> & Hlen); [set_solver|].
    pose proof H as [Hc Hp H1 H2 H3 H4 H5]. pose proof (calls_inv_apart _ _ H3 H5).
    destruct (call_entry_shm seq j (cp_range _ _ _ Hc) Hj) as (? & ? & _).
    assert (Hw := Comm_ReleaseFreeCall_wp seq js j w Hc Hlen Hj H1).
    rewrite H2 in Hw. specialize (Hw H3 H4).
    pose proof (wp_Ret _ _ _ _ _ Hw E) as (m' & -> & Hc' & Hs' & _ & Ho).
    exists (js ++ [j]). split; try done.
    + rewrite <- Hp, map_app, <- app_assoc. apply Permutation_app_head. simpl.
      apply (Permutation_middle l1 l2).
    + wsimp. rewrite Ho; [done | lia | lia | lia].
    + wsimp. rewrite Ho; [done | lia | lia | lia].
  - exists js. by apply (calls_inv_bytes _ _ _ _ (mm w)).
Qed.

Lemma calls_inv_start dir i m : 0 <= dir <= 1 -> 0 <= i <= 1 ->
  share_seq_init m 0 dir i (getShareSeq 0 dir i) -> sem_count m (sock_of dir + 936) = 1 ->
  calls_inv (getShareSeq 0 dir i) dir (seqZ 0 20) [] m.
Proof.
  intros Hd Hi [H1 H2 H3 H4 _ _ _ _] Hs. split; try done; [| by exists i].
  split; [by apply seq_range_at | done | |].
  - apply Forall_forall. intros x Hx. apply elem_of_seqZ in Hx. lia.
  - intros j Hj. apply (H2 j Hj).
Qed.
End CallPool.

Section WaitPool.
Context {S : Shm} {OK : ShmOk S} {K : Kernel} {L : SemLaws K}.

(** The same for the wait objects of one CPU. *)
Definition wait_bytes (sock x : Z) : Prop := sock + 120 <= x < sock + 292.

Inductive wait_step (cpu : Z) : call_state -> call_state -> Prop :=
| wait_got w e w' held :
    GetFreeWaitComm (sock_of cpu + 136) w = Ret (0, e) w' ->
    wait_step cpu (CallSt w held) (CallSt w' (e :: held))
| wait_none w v w' held :
    GetFreeWaitComm (sock_of cpu + 136) w = Ret (1, v) w' ->
    wait_step cpu (CallSt w held) (CallSt w' held)
| wait_put w w' l1 e l2 :
    ReleaseWaitComm cpu e w = Ret tt w' ->
    wait_step cpu (CallSt w (l1 ++ e :: l2)) (CallSt w' (l1 ++ l2))
| wait_other w w' held :
    (forall x, wait_bytes (sock_of cpu) x -> ld8 (mm w') x = ld8 (mm w) x) ->
    wait_step cpu (CallSt w held) (CallSt w' held).

Record waits_inv (cpu : Z) (free held : list Z) (m : mem) : Prop := WaitsInv {
  wi_cpu : 0 <= cpu <= 1;
  wi_free : wait_fifo m (sock_of cpu) free;
  wi_perm : free ++ held ≡ₚ wait_objs (sock_of cpu) 20;
  wi_sem : sem_count m (sock_of cpu + 120) = 1;
}.

Lemma wait_objs_NoDup sock : NoDup (wait_objs sock 20).
Proof. apply NoDup_fmap_2; [|apply NoDup_seqZ]. intros i j. unfold wait_obj. lia. Qed.

Lemma wait_objs_20 sock : length (wait_objs sock 20) = 20%nat.
Proof. apply (wait_objs_length sock 20). Qed.

Lemma wait_objs_range cpu e : 0 <= cpu <= 1 -> e ∈ wait_objs (sock_of cpu) 20 -> 0 <= e < 2 ^ 32.
Proof.
  intros Hc He. apply list_elem_of_fmap in He as (j & -> & Hj). apply elem_of_seqZ in Hj.
  pose proof (sock_of_range cpu Hc). unfold wait_obj. lia.
Qed.

Lemma waits_inv_bytes cpu free held m m' :
  waits_inv cpu free held m -> (forall x, wait_bytes (sock_of cpu) x -> ld8 m' x = ld8 m x) ->
  waits_inv cpu free held m'.
Proof.
  intros [Hc Hf Hp Hs] Ho. unfold wait_bytes in Ho. split; try done.
  - apply (fifo_at_frame Hf); [intros x Hx; apply Ho; lia|]. intros k x Hk Hx.
    pose proof (Z.mod_pos_bound (ld32 m (sock_of cpu + 136) + Z.of_nat k) 21 ltac:(lia)). apply Ho. lia.
  - unfold sem_count in *. rewrite (ld_same _ m); [done|]. intros x Hx. apply Ho. lia.
Qed.

Lemma wait_step_inv cpu s t : wait_step cpu s t ->
  forall free, waits_inv cpu free (cs_held s) (mm (cs_w s)) ->
  exists free', waits_inv cpu free' (cs_held t) (mm (cs_w t)).
Proof.
  destruct 1 as [w e w' held E | w v w' held E | w w' l1 e l2 E | w w' held Ho]; intros free H; simpl in *;
    pose proof H as [Hc Hf Hp Hs]; pose proof (sock_of_range cpu Hc) as [Hr1 Hr2].
  - pose proof (wp_Ret _ _ _ _ _ (GetFreeWaitComm_wp _ free w Hr1 Hr2 Hf) E) as Hq.
    destruct free as [|x free]; [by destruct Hq|]. destruct Hq as ([= ->] & m' & -> & Hf' & Ho).
    exists free. split; try done.
    + rewrite <- Hp. simpl. symmetry. apply Permutation_middle.
    + rewrite <- Hs. apply (ld_same_out _ _ _ _ _ _ Ho). lia.
  - pose proof (wp_Ret _ _ _ _ _ (GetFreeWaitComm_wp _ free w Hr1 Hr2 Hf) E) as Hq.
    destruct free as [|x free]; [|by destruct Hq]. destruct Hq as [_ ->]. by exists [].
  - assert (He : e ∈ wait_objs (sock_of cpu) 20) by (rewrite <- Hp; set_solver).
    assert (Hlen : Z.of_nat (length free) < 20).
    { pose proof (Permutation_length Hp) as Hl. rewrite !length_app, wait_objs_20 in Hl. simpl in Hl. lia. }
    pose proof (wp_Ret _ _ _ _ _ (ReleaseWaitComm_wp cpu e free w Hc Hf Hlen
      (wait_objs_range _ _ Hc He) Hs) E) as (m' & -> & Hf' & Hs' & Ho).
    exists (free ++ [e]). split; try done.
    rewrite <- Hp, <- app_assoc. apply Permutation_app_head. apply (Permutation_middle l1 l2).
  - exists free. by apply (waits_inv_bytes _ _ _ (mm w)).
Qed.
End WaitPool.

(** ** Properties *)

(** C20: Call entries are never handed out twice.  Starting from the initialised pool of the sequence
    from ARM to [dir], after any sequence of [Comm_GetFreeCall], [Comm_ReleaseFreeCall] of entries
    in use, and other activity that keeps off the free list, the entries in use are distinct entries
    of the sequence; the next [Comm_GetFreeCall] fails only when all twenty are in use, and otherwise
    hands out one that is not. *)
Theorem free_calls_never_shared {S : Shm} {OK : ShmOk S} {K : Kernel} {L : SemLaws K} dir i w w' held :
  let seq := getShareSeq 0 dir i in
  0 <= dir <= 1 -> 0 <= i <= 1 ->
  share_seq_init (mm w) 0 dir i seq -> sem_count (mm w) (sock_of dir + 936) = 1 ->
  star (call_step seq dir) (CallSt w []) (CallSt w' held) ->
  NoDup held /\ (forall e, e ∈ held -> exists j, 0 <= j < 20 /\ e = call_entry seq j) /\
  exists r w2, Comm_GetFreeCall seq w' = Ret r w2 /\
    if Z.of_nat (length held) =? 20 then r = 0
    else (exists j, 0 <= j < 20 /\ r = call_entry seq j) /\ r ∉ held.
Proof.
  intros seq Hd Hi Hinit Hsem Hst. pose proof (calls_inv_start dir i _ Hd Hi Hinit Hsem) as H0.
  assert (H : exists js, calls_inv seq dir js held (mm w')).
  { apply (star_invariant (call_step seq dir) (fun s => exists js,
      calls_inv seq dir js (cs_held s) (mm (cs_w s))) ltac:(intros s t [js Hj] Hs; by eapply call_step_inv)
      (CallSt w []) (CallSt w' held)); [by exists (seqZ 0 20) | done]. }
  destruct H as [js H]. destruct (pool_facts _ _ _ (all_calls_NoDup seq) (ci_perm _ _ _ _ _ H))
    as (Hn & Hin & Hfr & Hnil). ands; [done | |].
  { intros e He. destruct (calls_inv_index _ _ _ _ _ e H He) as (j & ? & ? & _). by exists j. }
  destruct (wp_run _ _ _ (Comm_GetFreeCall_wp seq js w' (ci_pool _ _ _ _ _ H))) as (r & w2 & E & Hr).
  exists r, w2. split; [done|]. unfold all_calls in Hnil. rewrite length_map, length_seqZ in Hnil.
  destruct js as [|j js].
  - destruct Hr as [-> _]. rewrite (proj1 Hnil) by done. done.
  - destruct Hr as (-> & _). destruct (Z.eqb_spec (Z.of_nat (length held)) 20) as [E20|].
    { assert (length held = Z.to_nat 20) as Hl by lia. apply Hnil in Hl. done. }
    pose proof (cp_idx _ _ _ (ci_pool _ _ _ _ _ H)) as Hj. apply Forall_cons in Hj as [Hj _].
    split; [by exists j | apply Hfr; set_solver].
Qed.

Lemma free_calls_never_shared_witness : exists e w1 r w2,
  Comm_GetFreeCall (getShareSeq 0 1 0) booted = Ret e w1 /\ e <> 0 /\
  Comm_GetFreeCall (getShareSeq 0 1 0) w1 = Ret r w2 /\ r ∉ [e].
Proof.
  destruct booted_init as [[Hs _ _ Hp] _].
  pose proof (free_calls_never_shared 1 0 booted booted [] ltac:(lia) ltac:(lia)
    (Hp 0 1 0 ltac:(lia) ltac:(lia) ltac:(lia)) (so_pipe_sem _ _ _ (Hs 1 ltac:(lia))) (star_refl _ _))
    as (_ & _ & e & w1 & E1 & (j & Hj & He) & _).
  assert (Hne : e <> 0).
  { rewrite He. unfold call_entry, COMM_MSG_SIZE. rewrite getShareSeq_at by lia. simpl. lia. }
  pose proof (free_calls_never_shared 1 0 booted w1 [e] ltac:(lia) ltac:(lia)
    (Hp 0 1 0 ltac:(lia) ltac:(lia) ltac:(lia)) (so_pipe_sem _ _ _ (Hs 1 ltac:(lia)))
    (star_right _ _ _ _ (star_refl _ _) (call_got _ _ _ _ _ _ E1 Hne)))
    as (_ & _ & r & w2 & E2 & _ & Hn).
  exists e, w1, r, w2. split; [exact E1|]. split; [exact Hne|]. split; [exact E2 | exact Hn].
Defined.

(** C21: Wait objects are never shared between two callers: after any sequence of [GetFreeWaitComm],
    [ReleaseWaitComm] of objects in use, and other activity outside the free list, the objects in
    use are distinct objects of the CPU's socket, and a free one is found exactly while fewer than
    twenty are in use. *)
Theorem wait_objects_never_shared {S : Shm} {OK : ShmOk S} {K : Kernel} {L : SemLaws K} cpu w w' held :
  0 <= cpu <= 1 -> socket_init (mm w) cpu (sock_of cpu) ->
  star (wait_step cpu) (CallSt w []) (CallSt w' held) ->
  NoDup held /\ (forall e, e ∈ held -> exists j, 0 <= j < 20 /\ e = wait_obj (sock_of cpu) j) /\
  exists st e w2, GetFreeWaitComm (sock_of cpu + 136) w' = Ret (st, e) w2 /\
    if Z.of_nat (length held) =? 20 then st = 1 else st = 0 /\ e ∉ held.
Proof.
  intros Hc Hs Hst.
  assert (H : exists free, waits_inv cpu free held (mm w')).
  { apply (star_invariant (wait_step cpu) (fun s => exists free,
      waits_inv cpu free (cs_held s) (mm (cs_w s))) ltac:(intros s t [js Hj] Hs'; by eapply wait_step_inv)
      (CallSt w []) (CallSt w' held)); [|done]. exists (wait_objs (sock_of cpu) 20).
    split; [done | apply (so_free _ _ _ Hs) | by rewrite app_nil_r | apply (so_wait_sem _ _ _ Hs)]. }
  destruct H as [free [_ Hf Hp Hsem]]. pose proof (sock_of_range cpu Hc) as [Hr1 Hr2].
  destruct (pool_facts _ _ _ (wait_objs_NoDup _) Hp) as (Hn & Hin & Hfr & Hnil). ands; [done | |].
  { intros e He. apply Hin in He. apply list_elem_of_fmap in He as (j & -> & Hj).
    apply elem_of_seqZ in Hj. exists j. split; [lia | done]. }
  destruct (wp_run _ _ _ (GetFreeWaitComm_wp _ free w' Hr1 Hr2 Hf)) as ([st e] & w2 & E & Hr).
  exists st, e, w2. split; [done|]. rewrite wait_objs_20 in Hnil. destruct free as [|x free].
  - destruct Hr as [[= -> _] _]. by rewrite (proj1 Hnil).
  - destruct Hr as ([= -> ->] & _). destruct (Z.eqb_spec (Z.of_nat (length held)) 20) as [E20|].
    { assert (length held = 20%nat) as Hl by lia. apply Hnil in Hl. done. }
    split; [done | apply Hfr; set_solver].
Qed.

Lemma wait_objects_never_shared_witness : exists st e w2,
  GetFreeWaitComm (sock_of 1 + 136) booted = Ret (st, e) w2 /\ st = 0.
Proof.
  destruct booted_init as [[Hs _ _ _] _].
  pose proof (wait_objects_never_shared 1 booted booted [] ltac:(lia) (Hs 1 ltac:(lia)) (star_refl _ _))
    as (_ & _ & st & e & w2 & E & H & _).
  exists st, e, w2. split; [exact E | exact H].
Defined.
