(* ===== verification/Waiting.v ===== *)
(** The list of callers waiting for an answer, as a sequence: [AddtoWaitComm]
    appends, [FindWaitBySessionId] and [GetWaitbySessionId] look for the first
    entry of a session. *)
From S2P Require Import Prelude Mem Kernel Fifo Shm SpinLock SeqMem Boot DList Channel.

(** ** The specification *)

Inductive wop : Set := WAdd (e : Z) | WGet (sid : Z) | WFind (sid : Z).

Section WaitSpec.
Context (sess : Z -> Z).     (* the session an entry belongs to *)

Fixpoint find_sid (sid : Z) (es : list Z) : option Z :=
  match es with
  | [] => None
  | e :: es' => if sess e =? sid then Some e else find_sid sid es'
  end.

Fixpoint remove_sid (sid : Z) (es : list Z) : list Z :=
  match es with
  | [] => []
  | e :: es' => if sess e =? sid then es' else e :: remove_sid sid es'
  end.

(** Status and entry an operation returns, and the list it leaves. *)
Definition abs_wop (op : wop) (es : list Z) : (Z * option Z) * list Z :=
  match op with
  | WAdd e => ((0, None), es ++ [e])
  | WGet sid => ((if find_sid sid es then 0 else 1, find_sid sid es), remove_sid sid es)
  | WFind sid => ((if find_sid sid es then 0 else 1, find_sid sid es), es)
  end.

Fixpoint abs_wops (ops : list wop) (es : list Z) : list (Z * option Z) * list Z :=
  match ops with
  | [] => ([], es)
  | op :: ops' =>
      let '(r, es1) := abs_wop op es in
      let '(rs, es2) := abs_wops ops' es1 in (r :: rs, es2)
  end.

(** Entries are added only while they are not in the list. *)
Fixpoint wops_ok (U : list Z) (ops : list wop) (es : list Z) : Prop :=
  match ops with
  | [] => True
  | op :: ops' =>
      match op with WAdd e => e ∈ U /\ e ∉ es | _ => True end /\
      wops_ok U ops' (snd (abs_wop op es))
  end.

Lemma find_sid_none sid es : Forall (fun e => sess e <> sid) es ->
  find_sid sid es = None /\ remove_sid sid es = es.
Proof.
  induction 1 as [|e es He _ [IH1 IH2]]; simpl; [done|]. rewrite eqb_neq_false by done.
  by rewrite IH1, IH2.
Qed.

Lemma find_sid_first sid l1 e l2 : Forall (fun x => sess x <> sid) l1 -> sess e = sid ->
  find_sid sid (l1 ++ e :: l2) = Some e /\ remove_sid sid (l1 ++ e :: l2) = l1 ++ l2.
Proof.
  intros H He. induction H as [|x l1 Hx _ [IH1 IH2]]; simpl.
  - by rewrite (proj2 (Z.eqb_eq _ _)).
  - rewrite eqb_neq_false by done. by rewrite IH1, IH2.
Qed.

Lemma remove_sid_sub sid es x : x ∈ remove_sid sid es -> x ∈ es.
Proof. induction es as [|e es IH]; simpl; [done|]. case_match; set_solver. Qed.
End WaitSpec.

Section Waiting.
Context {S : Shm} {K : Kernel} {L : SemLaws K}.

Definition run_wop (lb : Z) (op : wop) : M (Z * option Z) :=
  match op with
  | WAdd e => r ← AddtoWaitComm lb e; mret (r, None)
  | WGet sid => GetWaitbySessionId lb sid
  | WFind sid => r ← FindWaitBySessionId lb sid;
                 mret (fst r, if fst r =? 0 then Some (snd r) else None)
  end.

Fixpoint run_wops (lb : Z) (ops : list wop) : M (list (Z * option Z)) :=
  match ops with
  | [] => mret []
  | op :: ops' => r ← run_wop lb op; rs ← run_wops lb ops'; mret (r :: rs)
  end.

(** The wait objects in play: apart from each other and from the list header. *)
Record objects (lb : Z) (U : list Z) : Prop := Objects {
  ob_range : forall e, e ∈ U -> 4096 <= e /\ e + 32 <= 2 ^ 32 /\ (e + 32 <= lb + 48 \/ lb + 80 <= e);
  ob_apart : forall e e', e ∈ U -> e' ∈ U -> apart 32 e e';
  ob_few : Z.of_nat (length U) < 4096;
}.

Record wait_state (lb : Z) (U : list Z) (sess : Z -> Z) (es : list Z) (m : mem) : Prop := WaitState {
  wt_list : msg_list m lb 24 32 es;
  wt_lock : list_unlocked m lb;
  wt_sub : forall e, e ∈ es -> e ∈ U;
  wt_sess : forall e, e ∈ U -> ld32 m e = sess e;
}.

Lemma list_frame_sess lb U sess es m m' : objects lb U -> (forall e, e ∈ es -> e ∈ U) ->
  list_frame lb 24 es m m' -> (forall e, e ∈ U -> ld32 m e = sess e) ->
  forall e, e ∈ U -> ld32 m' e = sess e.
Proof.
  intros [Hr Ha _] Hs Hf H e He. rewrite <- H by done. apply ld_same. intros x Hx.
  destruct (Hr e He) as (_ & _ & Hh). apply Hf; [lia|]. intros e' He'.
  destruct (Ha e e' He (Hs _ He')) as [->|Hd]; lia.
Qed.

Lemma wait_state_few lb U sess es m : objects lb U -> wait_state lb U sess es m ->
  forall e, e ∈ U -> e ∉ es -> fresh_entry lb 32 es e /\ Z.of_nat (length es) + 1 < 4096.
Proof.
  intros [Hr Ha Hf] [Hl _ Hs _] e He Hn. destruct (Hr e He) as (H1 & H2 & H3). split.
  - unfold fresh_entry. ands; [done | done | lia |]. intros e' He'.
    destruct (Ha e e' He (Hs _ He')) as [->|]; [done | lia].
  - assert (Hnd : NoDup (e :: es)).
    { constructor; [done|]. pose proof (dl_nodup _ _ _ (ml_dl _ _ _ _ _ Hl)) as Hd.
      apply NoDup_cons in Hd as [_ Hd]. by apply NoDup_fmap_1 in Hd. }
    assert (Hl' : (length (e :: es) <= length U)%nat).
    { apply submseteq_length, NoDup_submseteq; [done|]. set_solver. }
    simpl in Hl'. lia.
Qed.

(** One operation does what the specification says. *)
Lemma run_wop_wp lb U sess es op w :
  objects lb U -> wait_state lb U sess es (mm w) ->
  match op with WAdd e => e ∈ U /\ e ∉ es | _ => True end ->
  wp (run_wop lb op) (fun r w' => r = fst (abs_wop sess op es) /\
    wait_state lb U sess (snd (abs_wop sess op es)) (mm w')) w.
Proof.
  intros HU H Hop. pose proof H as [Hl Hk Hs Hss]. destruct op as [e|sid|sid]; simpl.
  - destruct Hop as [He Hn]. destruct (wait_state_few _ _ _ _ _ HU H e He Hn) as [Hf Hlen].
    eapply wp_call; [by apply AddtoWaitComm_wp|].
    intros r w' (-> & m' & -> & Hl' & Hk' & _ & Ho). wp_step. split; [done|].
    assert (Hs' : forall x, x ∈ es ++ [e] -> x ∈ U) by set_solver.
    split; wsimp; [done | done | done |]. by apply (list_frame_sess _ _ _ _ _ _ HU Hs' Ho).
  - eapply wp_mono; [by apply (GetWaitbySessionId_wp lb sid es)|].
    intros [st r] w' (m' & -> & Hk' & Ho & Hst & Hrm). simpl in *.
    assert (Hss' := list_frame_sess _ _ _ _ _ _ HU Hs Ho Hss).
    assert (Hsum : r = find_sid sess sid es /\ msg_list m' lb 24 32 (remove_sid sess sid es)).
    { destruct Hrm as [(l1 & e & l2 & (-> & Hf & He) & -> & Hl')|(Hf & -> & Hl')].
      - rewrite Z.add_0_r in He. destruct (find_sid_first sess sid l1 e l2) as [-> ->]; [| | done].
        + apply Forall_forall. intros x Hx. rewrite Forall_forall in Hf. specialize (Hf x Hx).
          rewrite Z.add_0_r, Hss in Hf by set_solver. done.
        + by rewrite <- Hss by set_solver.
      - destruct (find_sid_none sess sid es) as [-> ->]; [|done].
        apply Forall_forall. intros x Hx. unfold none_with in Hf. rewrite Forall_forall in Hf.
        specialize (Hf x Hx). rewrite Z.add_0_r, Hss in Hf by auto. done. }
    destruct Hsum as [-> Hl']. split; [by subst st; destruct (find_sid sess sid es)|].
    split; wsimp; [done | done | | done]. intros x Hx. apply remove_sid_sub in Hx. auto.
  - eapply wp_call; [by apply (FindWaitBySessionId_wp lb sid es)|].
    intros [st r] w' (m' & -> & Hl' & Hk' & Ho & Hr). wp_step. simpl.
    assert (Hss' := list_frame_sess _ _ _ es _ _ HU Hs (list_frame_sem _ _ _ _ _ Ho) Hss).
    split; [|by split; wsimp]. destruct Hr as [(l1 & e & l2 & (-> & Hf & He) & [= -> ->])|(Hf & [= -> ->])].
    + rewrite Z.add_0_r in He. destruct (find_sid_first sess sid l1 e l2) as [-> _]; [| | done].
      * apply Forall_forall. intros x Hx. rewrite Forall_forall in Hf. specialize (Hf x Hx).
        rewrite Z.add_0_r, Hss in Hf by set_solver. done.
      * by rewrite <- Hss by set_solver.
    + destruct (find_sid_none sess sid es) as [-> _]; [|done].
      apply Forall_forall. intros x Hx. unfold none_with in Hf. rewrite Forall_forall in Hf.
      specialize (Hf x Hx). rewrite Z.add_0_r, Hss in Hf by auto. done.
Qed.

Lemma run_wops_wp lb U sess ops es w :
  objects lb U -> wait_state lb U sess es (mm w) -> wops_ok sess U ops es ->
  wp (run_wops lb ops) (fun rs w' => rs = fst (abs_wops sess ops es) /\
    wait_state lb U sess (snd (abs_wops sess ops es)) (mm w')) w.
Proof.
  intros HU. revert es w. induction ops as [|op ops IH]; intros es w H Hok; simpl; [by wp_step|].
  destruct Hok as [Hop Hok]. eapply wp_call; [by apply (run_wop_wp _ _ _ _ op _ HU H)|].
  intros r w' [-> H']. destruct (abs_wop sess op es) as [r es1]. simpl in *.
  eapply wp_call; [by apply IH|]. intros rs w2 [-> H2].
  destruct (abs_wops sess ops es1) as [rs es2]. simpl in *. by wp_step.
Qed.
End Waiting.

(** The lists [InitCommSeqMem] sets up are in such a state. *)
Section WaitStart.
Context {S : Shm} {OK : ShmOk S} {K : Kernel} {L : SemLaws K}.

Lemma objects_start cpu : 0 <= cpu <= 1 -> objects (sock_of cpu + 40) (wait_objs (sock_of cpu) 20).
Proof.
  intros Hc. destruct (sock_of_range cpu Hc) as [H1 H2].
  assert (Hat : forall e, e ∈ wait_objs (sock_of cpu) 20 ->
    exists j, 0 <= j < 20 /\ e = sock_of cpu + 292 + 32 * j).
  { intros e He. apply list_elem_of_fmap in He as (j & -> & Hj). apply elem_of_seqZ in Hj.
    exists j. split; [lia | done]. }
  split.
  - intros e He. destruct (Hat e He) as (j & Hj & ->). lia.
  - intros e e' He He'. destruct (Hat e He) as (j & Hj & ->). destruct (Hat e' He') as (k & Hk & ->).
    unfold apart. lia.
  - rewrite (wait_objs_length _ 20). lia.
Qed.

Lemma wait_state_start m cpu : 0 <= cpu <= 1 -> socket_init m cpu (sock_of cpu) ->
  wait_state (sock_of cpu + 40) (wait_objs (sock_of cpu) 20) (fun _ => u32 SESSION_ID_INVALID) [] m.
Proof.
  intros Hc H. destruct (sock_of_range cpu Hc) as [H1 H2].
  destruct (so_wait_list _ _ _ H) as [E1 E2]. destruct (so_wait_empty _ _ _ H) as [E3 E4].
  split; [| | set_solver |].
  - apply msg_list_empty; try lia; rewrite <- ?Z.add_assoc; done.
  - unfold list_unlocked. by replace (sock_of cpu + 40 + 64) with (sock_of cpu + 104) by lia.
  - intros e He. apply list_elem_of_fmap in He as (j & -> & Hj). apply elem_of_seqZ in Hj.
    by apply (so_wait _ _ _ H).
Qed.
End WaitStart.

(** ** Properties *)

(** C22: The list of waiting callers behaves as a sequence searched by session: any series of
    [AddtoWaitComm] (of objects not in the list), [FindWaitBySessionId] and [GetWaitbySessionId]
    returns, with exactly the results of the functional specification (append; first entry of the
    session; first entry of the session, removed), and leaves the list the specification leaves,
    its lock free and its count right. *)
Theorem waiting_list_refines {S : Shm} {K : Kernel} {L : SemLaws K} lb U sess es ops w :
  objects lb U -> wait_state lb U sess es (mm w) -> wops_ok sess U ops es ->
  exists w', run_wops lb ops w = Ret (fst (abs_wops sess ops es)) w' /\
    wait_state lb U sess (snd (abs_wops sess ops es)) (mm w').
Proof.
  intros HU H Hok. destruct (wp_run _ _ _ (run_wops_wp lb U sess ops es w HU H Hok)) as (rs & w' & E & -> & H').
  by exists w'.
Qed.

Lemma waiting_list_refines_witness : exists w',
  run_wops (sock_of 1 + 40)
    [WAdd (wait_obj (sock_of 1) 3); WAdd (wait_obj (sock_of 1) 5); WFind 7; WGet 0xFFFFFFFF] booted
  = Ret [(0, None); (0, None); (1, None); (0, Some (wait_obj (sock_of 1) 3))] w' /\
  ld32 (mm w') (sock_of 1 + 40 + 52) = 1.
Proof.
  destruct booted_init as [[Hs _ _ _] _].
  destruct (waiting_list_refines (sock_of 1 + 40) (wait_objs (sock_of 1) 20)
    (fun _ => u32 SESSION_ID_INVALID) []
    [WAdd (wait_obj (sock_of 1) 3); WAdd (wait_obj (sock_of 1) 5); WFind 7; WGet 0xFFFFFFFF] booted
    (objects_start 1 ltac:(lia)) (wait_state_start _ 1 ltac:(lia) (Hs 1 ltac:(lia)))) as (w' & E & H).
  - simpl. split; [split; [|intros Hx; inversion Hx]|split; [split|]].
    + apply list_elem_of_fmap_2, elem_of_seqZ. lia.
    + apply list_elem_of_fmap_2, elem_of_seqZ. lia.
    + apply not_elem_of_cons. split; [vm_compute; discriminate | apply not_elem_of_nil].
    + split; [exact I | split; exact I].
  - exists w'. split; [exact E | exact (ml_count _ _ _ _ _ (wt_list _ _ _ _ _ H))].
Defined.
