(* ===== verification/Returns.v ===== *)
(** Returned calls ([returnPipeLine], [GetReturnbySessionId]): the staging FIFO a
    CPU fills, and the return list it is drained into. *)
From S2P Require Import Prelude Mem Kernel Fifo Shm SpinLock SeqMem Boot DList Channel.

(** ** Returns *)

Section Returns.
Context {S : Shm} {OK : ShmOk S} {K : Kernel} {L : SemLaws K}.

(** What the staging FIFO of returns can hold: an entry of the return sequence,
    or an address of the MIPS side, which is skipped. *)
Inductive ritem : Set := Ours (k : Z) | Foreign (v : Z).

Definition ret_seq (cpu : Z) : Z := getShareSeq 0 cpu 1.
Definition ret_entry (cpu k : Z) : Z := call_entry (ret_seq cpu) k.
Definition item_addr (cpu : Z) (it : ritem) : Z :=
  match it with Ours k => ret_entry cpu k | Foreign v => v end.
Definition ours (q : list ritem) : list Z :=
  omap (fun it => match it with Ours k => Some k | Foreign _ => None end) q.
Definition item_ok (it : ritem) : Prop :=
  match it with Ours k => 0 <= k < 20 | Foreign v => cpu_comm_is_mips_va v = true end.

(** The staging FIFO and the return list of [cpu]. *)
Definition ret_fifo (m : mem) (cpu : Z) (q : list ritem) : Prop :=
  fifo_at m (ret_seq cpu + 32) (sock_of cpu + 1164) (sock_of cpu + 1164) 21
    (map (item_addr cpu) q).
Definition ret_list (m : mem) (cpu : Z) (js : list Z) : Prop :=
  msg_list m (sock_of cpu + 1068) 84 104 (map (ret_entry cpu) js).

Record returns_at (m : mem) (cpu : Z) (q : list ritem) (js : list Z) : Prop := ReturnsAt {
  rt_fifo : ret_fifo m cpu q;
  rt_list : ret_list m cpu js;
  rt_items : Forall item_ok q;
  rt_idx : Forall (fun j => 0 <= j < 20) js;
  rt_once : NoDup (js ++ ours q);
  rt_slot : forall j, 0 <= j < 20 -> ld16 m (ret_entry cpu j + 4) = j;
}.

Lemma ret_seq_at cpu : 0 <= cpu <= 1 ->
  seq_range (ret_seq cpu) /\ ret_seq cpu = ShMemAddrBase + 2592 + 4880 * cpu.
Proof.
  intros Hc. split; [apply seq_range_at; lia|]. unfold ret_seq. rewrite getShareSeq_at by lia. lia.
Qed.

Lemma ret_entry_at cpu k : ret_entry cpu k = ret_seq cpu + 360 + 104 * k.
Proof. apply call_entry_at. Qed.

(** Everything of [cpu] that returns touch, with its place in memory. *)
Lemma ret_layout cpu : 0 <= cpu <= 1 ->
  4096 <= sock_of cpu /\ sock_of cpu + 4992 <= 2 ^ 32 /\
  0xC0000000 <= ret_seq cpu /\ ret_seq cpu + 2440 < 2 ^ 32 /\
  (sock_of cpu + 4992 <= ret_seq cpu \/ ret_seq cpu + 2440 <= sock_of cpu).
Proof.
  intros Hc. destruct (ret_seq_at cpu Hc) as [[H1 H2] _]. unfold SHMEM_OFF_MAX_CPU in *.
  pose proof (sock_of_range cpu Hc). pose proof shm_above. shm_facts.
  unfold sock_of, COMM_SOCKET_SIZE in *. lia.
Qed.

Lemma ret_fresh m cpu js k : 0 <= cpu <= 1 -> 0 <= k < 20 -> Forall (fun j => 0 <= j < 20) js ->
  ret_list m cpu js -> k ∉ js ->
  fresh_entry (sock_of cpu + 1068) 104 (map (ret_entry cpu) js) (ret_entry cpu k).
Proof.
  intros Hc Hk Hjs Hl Hn. destruct (ret_layout cpu Hc) as (H1 & H2 & H3 & H4 & H5).
  pose proof (ret_entry_at cpu k). unfold fresh_entry. ands; [lia | lia | lia |].
  intros e' He'. apply list_elem_of_fmap in He' as (j & -> & Hj).
  rewrite Forall_forall in Hjs. specialize (Hjs j Hj). pose proof (ret_entry_at cpu j).
  assert (j <> k) by (intros ->; done). lia.
Qed.

(** Distinct entry numbers are few. *)
Lemma small_nodup js : NoDup js -> Forall (fun j => 0 <= j < 20) js -> (length js <= 20)%nat.
Proof.
  intros Hn Hf. apply (submseteq_length js (seqZ 0 20)), NoDup_submseteq; [done|].
  intros x Hx. rewrite Forall_forall in Hf. apply elem_of_seqZ. specialize (Hf x Hx). lia.
Qed.

(** Linking in entry [k]: the list grows at its end. *)
Lemma return_insert_wp cpu k js w :
  0 <= cpu <= 1 -> 0 <= k < 20 -> Forall (fun j => 0 <= j < 20) js -> NoDup (js ++ [k]) ->
  ret_list (mm w) cpu js ->
  wp (return_insert (sock_of cpu) (ret_entry cpu k)) (fun _ w' => exists m', w' = set_mm w m' /\
    ret_list m' cpu (js ++ [k]) /\
    ld16 m' (ret_entry cpu k + 10) = ld16 (mm w) (ret_entry cpu k + 10) |. 0x20 /\
    (forall x, ~ (sock_of cpu + 1116 <= x < sock_of cpu + 1132) ->
       (forall j, 0 <= j < 20 -> ~ (ret_entry cpu j + 84 <= x < ret_entry cpu j + 92)) ->
       ~ (ret_entry cpu k + 10 <= x < ret_entry cpu k + 12) -> ld8 m' x = ld8 (mm w) x)) w.
Proof.
  intros Hc Hit Hjs Hnd Hl. destruct (ret_layout cpu Hc) as (H1 & H2 & H3 & H4 & H5).
  assert (Hk : k ∉ js).
  { apply NoDup_app in Hnd as (_ & Hd & _). intros Hin. apply (Hd k Hin). set_solver. }
  pose proof (ret_fresh _ _ _ _ Hc Hit Hjs Hl Hk) as Hfr. pose proof Hfr as (Hf1 & Hf2 & Hf3 & Hf4).
  pose proof (ret_entry_at cpu k) as Ek. pose proof (fun j => ret_entry_at cpu j) as Eall.
  set (sock := sock_of cpu) in *. set (seq := ret_seq cpu) in *. set (e := ret_entry cpu k) in *.
  unfold return_insert. wp_step. wp_step. cbv zeta. set (m1 := st16 _ (e + 10) _).
  assert (Ho1 : same_out (e + 10) 2 (mm w) m1) by (apply same_out_st; lia).
  assert (Efl : ld16 m1 (e + 10) = ld16 (mm w) (e + 10) |. 0x20).
  { unfold m1. rewrite ld16_st16_eq. apply u16_lor_small; [apply ld16_range | lia]. }
  clearbody m1.
  assert (Hl1 : msg_list m1 (sock + 1068) 84 104 (map (ret_entry cpu) js)).
  { apply (msg_list_out _ _ _ _ _ Hl Ho1); fold sock; [lia|]. intros e' He'.
    specialize (Hf4 e' He'). pose proof (ml_ent _ _ _ _ _ Hl e' He'). lia. }
  pose proof (dlist_tail _ _ _ (ml_dl _ _ _ _ _ Hl1)) as Et.
  pose proof (last_node_cases (off := 84) (sock + 1068 + 56) (map (ret_entry cpu) js)) as Hprev.
  remember (last_node (sock + 1068 + 56) (map (fun e => e + 84) (map (ret_entry cpu) js))) as prev eqn:Eprev.
  unfold sock_at. replace (sock + 4 * 282) with (sock + 1128) by lia.
  replace (sock + 4 * 281) with (sock + 1124) by lia.
  replace (sock + 4 * 280) with (sock + 1120) by lia.
  replace (sock + 4 * 279) with (sock + 1116) by lia.
  replace (sock + 1068 + 56 + 4) with (sock + 1128) in Et by lia.
  replace (sock + 1068 + 56) with (sock + 1124) in * by lia.
  assert (Hpr : 4096 <= prev /\ prev + 8 <= 2 ^ 32 /\ (prev + 8 <= e \/ e + 104 <= prev) /\
    (prev = sock + 1124 \/ exists j, 0 <= j < 20 /\ prev = ret_entry cpu j + 84)).
  { destruct Hprev as [-> | (e' & He' & ->)]; [lia|].
    pose proof (ml_ent _ _ _ _ _ Hl1 e' He'). specialize (Hf4 e' He').
    apply list_elem_of_fmap in He' as (j & -> & Hj). rewrite Forall_forall in Hjs.
    ands; [lia | lia | lia |]. right. exists j. split; [by apply Hjs | done]. }
  assert (Hpr2 : prev = sock + 1124 \/ (seq + 444 <= prev /\ prev + 8 <= seq + 2440)).
  { destruct Hpr as (_ & _ & _ & [?|(j & Hj & ->)]); [by left|]. right. specialize (Eall j). lia. }
  wp_step. rewrite Et, (u32_small (e + 84)) by lia. do 5 wp_step.
  set (m2 := st32 (st32 (st32 (st32 m1 (e + 84) _) (e + 84 + 4) _) prev _) (sock + 1128) _).
  pose proof (ml_len _ _ _ _ _ Hl1) as Hlen. rewrite length_map in Hlen.
  assert (E52 : ld32 m2 (sock + 1120) = Z.of_nat (length js)).
  { unfold m2. rewrite !ld_st_ne by lia. rewrite <- (length_map (ret_entry cpu) js).
    rewrite <- (ml_count _ _ _ _ _ Hl1). f_equal. lia. }
  rewrite E52, u32_small by lia. wp_step. wp_step.
  assert (Hm2 : ld32 m2 (e + 84) = sock + 1124 /\ ld32 m2 (e + 84 + 4) = prev /\
    ld32 m2 (sock + 1128) = e + 84 /\ ld32 m2 prev = e + 84).
  { unfold m2. memsimp. rewrite !u32_small by lia. done. }
  destruct Hm2 as (Ea & Eb & Ec & Ed).
  assert (Ho2 : forall x, ~ (sock + 1128 <= x < sock + 1132) -> ~ (e + 84 <= x < e + 92) ->
    ~ (prev <= x < prev + 4) -> ld8 m2 x = ld8 m1 x).
  { intros x Hx1 Hx2 Hx3. unfold m2. rewrite !ld8_st_out by lia. done. }
  clearbody m2.
  eapply (wp_mono _ (fun _ w' => exists m3, w' = set_mm w m3 /\ same_out (sock + 1116) 8 m2 m3 /\
    ld32 m3 (sock + 1120) = Z.of_nat (length js) + 1)).
  { destruct (_ <? Z.of_nat (length js) + 1).
    - wp_step. eexists. ands; [done | same_out_tac | memsimp; by rewrite u32_small by lia].
    - wp_step. eexists. ands; [done | same_out_tac | by rewrite ld32_st32_eq, u32_small by lia]. }
  cbv beta. intros [] w' (m3 & -> & Ho3 & E3). exists m3.
  assert (Ho13 : forall x, ~ (sock + 1116 <= x < sock + 1124) -> ~ (sock + 1128 <= x < sock + 1132) ->
    ~ (e + 84 <= x < e + 92) -> ~ (prev <= x < prev + 4) -> ld8 m3 x = ld8 m1 x).
  { intros x Hx0 Hx1 Hx2 Hx3. rewrite Ho3 by lia. apply Ho2; lia. }
  ands; [done | | |].
  - unfold ret_list. rewrite map_app. simpl map. fold e sock.
    replace (sock + 1124) with (sock + 1068 + 56) in * by lia.
    apply (msg_list_snoc m1 m3 _ e Hl1 Hfr); rewrite <- ?Eprev, ?length_map;
      replace (sock + 1068 + 60) with (sock + 1128) by lia;
      replace (sock + 1068 + 52) with (sock + 1120) by lia;
      rewrite ?(ld_same_out _ _ _ _ _ _ Ho3) by lia; try done.
    + pose proof (small_nodup _ Hnd) as Hsm. rewrite length_app in Hsm. simpl in Hsm.
      assert (Hjk : Forall (fun j => 0 <= j < 20) (js ++ [k]))
        by (apply Forall_app; split; [done | by apply Forall_singleton]).
      specialize (Hsm Hjk). lia.
    + intros x Hx1 Hx2 Hx3 Hx4. apply Ho13; lia.
  - rewrite <- Efl. apply ld_same. intros x Hx. apply Ho13; lia.
  - intros x Hx1 Hx2 Hx3. rewrite Ho13; [apply Ho1; lia | lia | lia | apply Hx2; done |].
    destruct Hpr as (_ & _ & _ & [->|(j & Hj & ->)]); [lia|]. specialize (Hx2 j Hj). lia.
Qed.

(** The next slot of the staging FIFO, or 0 when it is empty. *)
Definition next_item (m : mem) (cpu : Z) (q : list ritem) : Z :=
  match q with [] => 0 | _ => sock_of cpu + 1164 + 4 * rd_slot m (ret_seq cpu + 32) end.

Lemma next_item_len m cpu q :
  (if Z.of_nat (length (map (item_addr cpu) q)) =? 0 then 0
   else sock_of cpu + 1164 + 4 * rd_slot m (ret_seq cpu + 32)) = next_item m cpu q.
Proof. rewrite length_map. by destruct q. Qed.

(** What draining leaves alone: of the entries all but flags and list node, and
    everything that is neither the list, the FIFO nor an entry. *)
Definition in_entry (cpu x : Z) : Prop := exists j, 0 <= j < 20 /\
  ret_entry cpu j <= x < ret_entry cpu j + 84 /\ ~ (ret_entry cpu j + 10 <= x < ret_entry cpu j + 12).
Definition out_of_returns (cpu x : Z) : Prop :=
  ~ (sock_of cpu + 1068 <= x < sock_of cpu + 1248) /\
  ~ (ret_seq cpu + 32 <= x < ret_seq cpu + 44) /\ ~ (ret_seq cpu + 360 <= x < ret_seq cpu + 2440).
Definition entries_frame (cpu : Z) (m m' : mem) : Prop := forall x,
  in_entry cpu x \/ out_of_returns cpu x -> ld8 m' x = ld8 m x.

Lemma entries_frame_trans cpu m1 m2 m3 :
  entries_frame cpu m1 m2 -> entries_frame cpu m2 m3 -> entries_frame cpu m1 m3.
Proof. intros H1 H2 x Hx. by rewrite H2, H1. Qed.

Lemma entries_frame_ld cpu m m' n j d : entries_frame cpu m m' -> 0 <= j < 20 -> 0 <= d ->
  d + Z.of_nat n <= 10 \/ (12 <= d /\ d + Z.of_nat n <= 84) ->
  ld n m' (ret_entry cpu j + d) = ld n m (ret_entry cpu j + d).
Proof. intros H Hj Hd Hn. apply ld_same. intros x Hx. apply H. left. exists j. lia. Qed.

(** Consuming the front of the FIFO touches neither list nor entries. *)
Lemma ret_consume_wp cpu e q js w :
  0 <= cpu <= 1 -> ret_list (mm w) cpu js -> Forall (fun j => 0 <= j < 20) js ->
  fifo_at (mm w) (ret_seq cpu + 32) (sock_of cpu + 1164) (sock_of cpu + 1164) 21
    (e :: map (item_addr cpu) q) ->
  wp (fifo_ItemRdNext (ret_seq cpu + 32)) (fun a w' => exists m', w' = set_mm w m' /\
    a = next_item m' cpu q /\ ret_fifo m' cpu q /\ ret_list m' cpu js /\
    same_out (ret_seq cpu + 32) 12 (mm w) m') w.
Proof.
  intros Hc Hl Hjs Hf. destruct (ret_layout cpu Hc) as (H1 & H2 & H3 & H4 & H5).
  eapply wp_mono; [apply (fifo_ItemRdNext_wp _ _ Hf)|].
  intros a w' (m2 & -> & -> & H6 & _ & Ho & _). exists m2. rewrite next_item_len.
  ands; [done | done | done | | done]. apply (msg_list_out _ _ _ _ _ Hl Ho); [lia|].
  intros e' He. apply list_elem_of_fmap in He as (j & -> & Hj). rewrite Forall_forall in Hjs.
  specialize (Hjs j Hj). pose proof (ret_entry_at cpu j). lia.
Qed.

(** Moving the front entry from the FIFO to the list. *)
Lemma returnPipeLine_body_wp cpu it q js w :
  0 <= cpu <= 1 -> returns_at (mm w) cpu (it :: q) js ->
  wp (returnPipeLine_body (ret_seq cpu + 32) (sock_of cpu) (next_item (mm w) cpu (it :: q)))
    (fun r w' => exists m', w' = set_mm w m' /\ r = inl (next_item m' cpu q) /\
       returns_at m' cpu q (js ++ ours [it]) /\ same_on (sock_of cpu + 1132) 16 (mm w) m' /\
       entries_frame cpu (mm w) m') w.
Proof.
  intros Hc [Hf Hl Hit Hjs Hon Hslot]. destruct (ret_layout cpu Hc) as (H1 & H2 & H3 & H4 & H5).
  apply Forall_cons in Hit as [Hit Hq]. unfold ret_fifo in Hf. rewrite map_cons in Hf.
  pose proof (fa_rd _ _ _ _ _ _ Hf) as Hrd. pose proof (ret_entry_at cpu) as Eall.
  pose proof (fa_items _ _ _ _ _ _ Hf O _ eq_refl) as Hx. rewrite Z.add_0_r, Z.mod_small in Hx by lia.
  unfold returnPipeLine_body, next_item, rd_slot. rewrite (eqb_neq_false (_ + _)) by lia.
  wp_step. rewrite Hx. destruct it as [k|v]; cbn [item_addr] in *; simpl in Hit.
  - pose proof (Eall k). rewrite not_mips_va by lia. wp_step. rewrite Hslot by done. wp_test.
    assert (Hon' : NoDup ((js ++ [k]) ++ ours q)) by (by rewrite <- app_assoc).
    pose proof Hon' as Hnd. apply NoDup_app in Hnd as [Hnd _].
    assert (Hjk : Forall (fun j => 0 <= j < 20) (js ++ [k]))
      by (apply Forall_app; split; [done | by apply Forall_singleton]).
    eapply wp_call; [by apply (return_insert_wp cpu k js)|].
    intros _ w' (m1 & -> & Hl1 & _ & Ho1).
    assert (Hf1 : fifo_at m1 (ret_seq cpu + 32) (sock_of cpu + 1164) (sock_of cpu + 1164) 21
      (ret_entry cpu k :: map (item_addr cpu) q)).
    { apply (fifo_at_frame Hf).
      - intros x Hx'. apply Ho1; [lia | intros j Hj; specialize (Eall j); lia | lia].
      - intros i x Hi Hx'.
        pose proof (Z.mod_pos_bound (ld32 (mm w) (ret_seq cpu + 32) + Z.of_nat i) 21 ltac:(lia)).
        apply Ho1; [lia | intros j Hj; specialize (Eall j); lia | lia]. }
    eapply wp_call; [by apply (ret_consume_wp cpu (ret_entry cpu k) q (js ++ [k]) (set_mm w m1))|].
    intros a w' (m2 & -> & -> & Hf2 & Hl2 & Ho2). wp_step. rewrite mm_set_mm in Ho2. exists m2.
    assert (Hfr : entries_frame cpu (mm w) m2).
    { intros x Hx'. assert (Hx2 : ~ (ret_seq cpu + 32 <= x < ret_seq cpu + 44)).
      { destruct Hx' as [(j & Hj & ? & _)|(? & ? & _)]; [specialize (Eall j); lia | done]. }
      rewrite Ho2 by lia. destruct Hx' as [(j & Hj & Hx' & Hn)|(? & ? & ?)]; apply Ho1.
      1,4: try (specialize (Eall j)); lia.
      - intros j' Hj'. pose proof (Eall j). specialize (Eall j'). lia.
      - pose proof (Eall j). destruct (decide (j = k)) as [->|]; lia.
      - intros j' Hj'. specialize (Eall j'). lia.
      - lia. }
    ands; [done | done | | | done].
    + split; try done. intros j Hj. rewrite <- (Hslot j Hj) at 2.
      by apply (entries_frame_ld _ _ _ 2 j 4 Hfr); lia.
    + intros x Hx'. rewrite Ho2 by lia. apply Ho1; [lia | intros j Hj; specialize (Eall j); lia | lia].
  - rewrite Hit. eapply wp_call; [by apply (ret_consume_wp cpu v q js w)|].
    intros a w' (m2 & -> & -> & Hf2 & Hl2 & Ho2). wp_step. exists m2. simpl ours. rewrite app_nil_r.
    assert (Hfr : entries_frame cpu (mm w) m2).
    { intros x [(j & Hj & Hx' & Hn)|(? & ? & ?)]; apply Ho2; try (pose proof (Eall j)); lia. }
    ands; [done | done | | intros x Hx'; apply Ho2; lia | done].
    split; try done. intros j Hj. rewrite <- (Hslot j Hj) at 2.
    by apply (entries_frame_ld _ _ _ 2 j 4 Hfr); lia.
Qed.

Lemma ours_cons it q : ours (it :: q) = ours [it] ++ ours q.
Proof. by destruct it. Qed.

Lemma returns_at_sem m m' cpu q js :
  0 <= cpu <= 1 -> same_out (sock_of cpu + 1132) 16 m m' ->
  returns_at m cpu q js -> returns_at m' cpu q js /\ entries_frame cpu m m'.
Proof.
  intros Hc Ho [Hf Hl Hit Hjs Hon Hslot]. destruct (ret_layout cpu Hc) as (H1 & H2 & H3 & H4 & H5).
  pose proof (ret_entry_at cpu) as Eall.
  assert (Hfr : entries_frame cpu m m').
  { intros x [(j & Hj & Hx & Hn)|(? & ? & ?)]; apply Ho; try (pose proof (Eall j)); lia. }
  split; [split; try done | done].
  - apply (fifo_at_same_out Hf _ _ _ Ho); lia.
  - apply (msg_list_out _ _ _ _ _ Hl Ho); [lia|]. intros e' He'.
    apply list_elem_of_fmap in He' as (j & -> & Hj). rewrite Forall_forall in Hjs.
    specialize (Hjs j Hj). pose proof (Eall j). lia.
  - intros j Hj. rewrite <- (Hslot j Hj) at 2. by apply (entries_frame_ld _ _ _ 2 j 4 Hfr); lia.
Qed.

Lemma sem_count_on m m' a : same_on a 16 m m' -> sem_count m' a = sem_count m a.
Proof. intros H. apply ld_same. intros x Hx. apply H. lia. Qed.

(** Draining empties the FIFO into the list, and always ends. *)
Lemma returnPipeLine_wp cpu q js w :
  0 <= cpu <= 1 -> returns_at (mm w) cpu q js -> sem_count (mm w) (sock_of cpu + 1132) = 1 ->
  wp (returnPipeLine cpu) (fun _ w' => exists m', w' = set_mm w m' /\
    returns_at m' cpu [] (js ++ ours q) /\ sem_count m' (sock_of cpu + 1132) = 1 /\
    entries_frame cpu (mm w) m') w.
Proof.
  intros Hc H Hsem. destruct (ret_layout cpu Hc) as (H1 & H2 & H3 & H4 & H5).
  unfold returnPipeLine. wp_test.
  change (getShareSeqR cpu 1) with (ret_seq cpu). rewrite eqb_neq_false by lia. cbv zeta.
  replace (s_CommSockt + 4 * (1248 * cpu)) with (sock_of cpu) by (unfold sock_of, COMM_SOCKET_SIZE; lia).
  unfold sock_at. replace (sock_of cpu + 4 * 283) with (sock_of cpu + 1132) by lia.
  apply wp_sem_down; [lia | lia |]. intros m1 Ho1 Es1.
  destruct (returns_at_sem _ _ _ _ _ Hc Ho1 H) as [Hr1 Hfr1].
  eapply wp_call; [apply (fifo_getItemRd_wp (w := set_mm w m1) (rt_fifo _ _ _ _ Hr1))|].
  intros a w' [-> ->]. rewrite next_item_len, mm_set_mm.
  eapply (wp_call _ _ (fun r w' => r = true /\ exists m2, w' = set_mm w m2 /\
    returns_at m2 cpu [] (js ++ ours q) /\ same_on (sock_of cpu + 1132) 16 m1 m2 /\
    entries_frame cpu m1 m2)).
  - apply (wp_loop (fun k item w' => exists q1 m2, w' = set_mm w m2 /\ k = length q1 /\
      item = next_item m2 cpu q1 /\ (exists js2, returns_at m2 cpu q1 js2 /\
        js2 ++ ours q1 = js ++ ours q) /\
      same_on (sock_of cpu + 1132) 16 m1 m2 /\ entries_frame cpu m1 m2) _ _ _ (length q)).
    + pose proof (fa_len _ _ _ _ _ _ (rt_fifo _ _ _ _ Hr1)) as Hl. rewrite length_map in Hl.
      unfold list_fuel. lia.
    + exists q, m1. ands; try done. by exists js.
    + intros k item w' (q1 & m2 & -> & -> & -> & (js2 & Hr2 & E) & Hs2 & Hf2).
      destruct q1 as [|it q1].
      * unfold returnPipeLine_body. simpl. wp_step. split; [done|]. exists m2.
        simpl in E. rewrite app_nil_r in E. subst js2. done.
      * eapply wp_mono; [by apply (returnPipeLine_body_wp cpu it q1 js2 (set_mm w m2))|].
        intros r w' (m3 & -> & -> & Hr3 & Hs3 & Hf3). rewrite !mm_set_mm in *.
        exists (length q1). split; [simpl; lia|]. exists q1, m3. ands; try done.
        { exists (js2 ++ ours [it]). split; [done|]. by rewrite <- app_assoc, <- ours_cons. }
        { intros x Hx. rewrite Hs3, Hs2 by lia. done. }
        { by eapply entries_frame_trans. }
  - intros r w' (-> & m2 & -> & Hr2 & Hs2 & Hf2). apply wp_sem_up_last; [lia|]. intros m3 Ho3 Es3.
    wsimp. rewrite !mm_set_mm in *. destruct (returns_at_sem _ _ _ _ _ Hc Ho3 Hr2) as [Hr3 Hfr3].
    exists m3. ands; try done.
    + rewrite Es3, (sem_count_on _ _ _ Hs2), Es1, Hsem. done.
    + eapply entries_frame_trans; [exact Hfr1|]. by eapply entries_frame_trans.
Qed.

Lemma none_with_map m soff sid cpu l :
  none_with m soff sid (map (ret_entry cpu) l) ->
  Forall (fun i => ld32 m (ret_entry cpu i + soff) <> sid) l.
Proof. unfold none_with. rewrite !Forall_forall. intros H x Hx. apply H. by apply list_elem_of_fmap_2. Qed.

(** Taking a returned call out of the list by its session. *)
Lemma GetReturn_loop cpu sid js w :
  0 <= cpu <= 1 -> returns_at (mm w) cpu [] js ->
  wp (loop list_fuel (fun cur_node =>
    if cur_node =? sock_of cpu + 1068 + 56 then mret (inr NotFound) else
    if cpu_comm_is_mips_va cur_node then mret (inr Corrupt) else
    next_node ← rd32 cur_node;
    sid' ← rd32 (cur_node - 72);
    if sid' =? sid then
      let entry_base := cur_node - 84 in
      unlink_node cur_node ;;
      c ← rd32 (sock_of cpu + 1068 + 52);
      wr32 (sock_of cpu + 1068 + 52) (c - 1) ;;
      mret (inr (if s32 (c - 1) <? 0 then Underflow else Found entry_base))
    else mret (inl next_node)) (ld32 (mm w) (sock_of cpu + 1068 + 56)))
  (fun r w' => exists m', w' = set_mm w m' /\ same_on (sock_of cpu + 1132) 16 (mm w) m' /\
    list_frame (sock_of cpu + 1068) 84 (map (ret_entry cpu) js) (mm w) m' /\
    ((exists l1 j l2, js = l1 ++ j :: l2 /\ r = Found (ret_entry cpu j) /\
        ld32 (mm w) (ret_entry cpu j + 12) = sid /\
        Forall (fun i => ld32 (mm w) (ret_entry cpu i + 12) <> sid) l1 /\
        ret_list m' cpu (l1 ++ l2)) \/
     (r = NotFound /\ Forall (fun i => ld32 (mm w) (ret_entry cpu i + 12) <> sid) js /\
        ret_list m' cpu js))) w.
Proof.
  intros Hc [_ Hl _ Hjs _ _]. destruct (ret_layout cpu Hc) as (H1 & H2 & H3 & H4 & H5).
  pose proof (ret_entry_at cpu) as Eall. set (lb := sock_of cpu + 1068) in *.
  assert (Hback : forall es l1 e l2, es = map (ret_entry cpu) js -> es = l1 ++ e :: l2 ->
    exists k1 j k2, js = k1 ++ j :: k2 /\ l1 = map (ret_entry cpu) k1 /\ e = ret_entry cpu j /\
      l2 = map (ret_entry cpu) k2 /\ 0 <= j < 20).
  { intros es l1 e l2 -> E. apply map_eq_app in E as (k1 & kr & -> & E1 & E2).
    apply map_eq_cons in E2 as (j & k2 & -> & E2 & E3). exists k1, j, k2.
    rewrite Forall_forall in Hjs. ands; try done; apply Hjs; set_solver. }
  apply (wp_loop (fun k cur w' => w' = w /\ walk_at (mm w) lb 84 12 sid (map (ret_entry cpu) js) k cur)
    _ _ _ (length (map (ret_entry cpu) js))).
  - by eapply list_fuel_enough.
  - split; [done | by eapply walk_start].
  - intros k cur w' [-> Hw].
    destruct (walk_cases _ _ _ _ _ _ _ _ _ Hl Hw) as [[-> Hn]|(Hne & l1 & e & l2 & -> & E & Hn & He & Hnx)].
    + rewrite Z.eqb_refl. wp_step. exists (mm w). rewrite set_mm_id. ands; try done. right.
      ands; try done. by apply none_with_map in Hn.
    + destruct (Hback _ _ _ _ eq_refl E) as (k1 & j & k2 & -> & -> & -> & -> & Hj).
      pose proof (Eall j). rewrite (eqb_neq_false (_ + 84)) by done. rewrite not_mips_va by lia.
      do 2 wp_step. replace (ret_entry cpu j + 84 - 72) with (ret_entry cpu j + 12) by lia.
      destruct (Z.eqb_spec (ld32 (mm w) (ret_entry cpu j + 12)) sid) as [Es|Es].
      * cbv zeta. replace (ret_entry cpu j + 84 - 84) with (ret_entry cpu j) by lia.
        unfold ret_list in Hl. rewrite E in Hl. pose proof (ml_len _ _ _ _ _ Hl) as Hlen.
        apply (wp_list_remove lb 84 104 (map (ret_entry cpu) k1) (ret_entry cpu j)
          (map (ret_entry cpu) k2)); [exact Hl|].
        intros m2 H6 Hs2 Hf2. wp_step. exists m2.
        rewrite s32_small, ltb_false by (rewrite length_app in *; simpl in *; lia).
        replace (lb + 64) with (sock_of cpu + 1132) in Hs2 by (unfold lb; lia).
        ands; [done | done | rewrite E; done |]. left. exists k1, j, k2. ands; try done.
        { by apply none_with_map in Hn. }
        { unfold ret_list. by rewrite map_app. }
      * wp_go. destruct (Hnx Es) as [Hk Hw']. exists (k - 1)%nat. split; [lia|]. done.
Qed.

(** What taking an answer out of the list leaves of the rest. *)
Lemma returns_at_take m m' cpu js l : 0 <= cpu <= 1 -> returns_at m cpu [] js ->
  list_frame (sock_of cpu + 1068) 84 (map (ret_entry cpu) js) m m' -> ret_list m' cpu l ->
  sublist l js -> returns_at m' cpu [] l /\ entries_frame cpu m m'.
Proof.
  intros Hc [Hf Hl Hit Hjs Hon Hslot] Ho Hl' Hsub. destruct (ret_layout cpu Hc) as (H1 & H2 & H3 & H4 & H5).
  pose proof (ret_entry_at cpu) as Eall.
  assert (Hr : forall x, (forall j, 0 <= j < 20 -> ~ (ret_entry cpu j + 84 <= x < ret_entry cpu j + 92)) ->
    ~ (sock_of cpu + 1116 <= x < sock_of cpu + 1148) -> ld8 m' x = ld8 m x).
  { intros x Hx1 Hx2. apply Ho; [lia|]. intros e He. apply list_elem_of_fmap in He as (j & -> & Hj).
    rewrite Forall_forall in Hjs. specialize (Hx1 j (Hjs j Hj)). lia. }
  assert (Hfr : entries_frame cpu m m').
  { intros x [(j & Hj & Hx & Hn)|(? & ? & ?)]; apply Hr; try (pose proof (Eall j)); try lia;
      intros j' Hj'; specialize (Eall j'); lia. }
  split; [|done]. split; try done.
  - apply (fifo_at_frame Hf); [intros x Hx; apply Hr; [intros j Hj; specialize (Eall j); lia | lia]|].
    intros i x Hi. simpl in Hi. lia.
  - rewrite Forall_forall in *. intros x Hx. apply Hjs. exact (elem_of_sublist _ _ _ Hx Hsub).
  - simpl in *. rewrite app_nil_r in *. by eapply sublist_NoDup.
  - intros j Hj. rewrite <- (Hslot j Hj) at 2. by apply (entries_frame_ld _ _ _ 2 j 4 Hfr); lia.
Qed.

Lemma GetReturnbySessionId_wp cpu sid q js w :
  0 <= cpu <= 1 -> returns_at (mm w) cpu q js -> sem_count (mm w) (sock_of cpu + 1132) = 1 ->
  let all := js ++ ours q in
  wp (GetReturnbySessionId sid cpu) (fun r w' => exists m', w' = set_mm w m' /\
    sem_count m' (sock_of cpu + 1132) = 1 /\ entries_frame cpu (mm w) m' /\
    ((exists l1 j l2, all = l1 ++ j :: l2 /\ r = (0, Some (ret_entry cpu j)) /\
        ld32 (mm w) (ret_entry cpu j + 12) = sid /\
        Forall (fun i => ld32 (mm w) (ret_entry cpu i + 12) <> sid) l1 /\
        returns_at m' cpu [] (l1 ++ l2)) \/
     (r = (0, Some 0) /\ Forall (fun i => ld32 (mm w) (ret_entry cpu i + 12) <> sid) all /\
        returns_at m' cpu [] all))) w.
Proof.
  intros Hc H Hsem all. destruct (ret_layout cpu Hc) as (H1 & H2 & H3 & H4 & H5).
  pose proof (ret_entry_at cpu) as Eall. unfold GetReturnbySessionId. wp_test.
  eapply wp_call; [by apply (returnPipeLine_wp cpu q js)|]. intros [] w' (m1 & -> & Hr1 & Es1 & Hf1).
  fold all in Hr1. cbv zeta.
  replace (s_CommSockt + 4 * (1248 * cpu)) with (sock_of cpu) by (unfold sock_of, COMM_SOCKET_SIZE; lia).
  unfold sock_at. replace (sock_of cpu + 4 * 283) with (sock_of cpu + 1132) by lia.
  replace (sock_of cpu + 4 * 267) with (sock_of cpu + 1068) by lia.
  apply wp_sem_down; [lia | rewrite mm_set_mm; lia |]. intros m2 Ho2 Es2. rewrite mm_set_mm in *.
  destruct (returns_at_sem _ _ _ _ _ Hc Ho2 Hr1) as [Hr2 Hf2].
  assert (Hses : forall l, (forall j, j ∈ l -> j ∈ all) ->
    Forall (fun i => ld32 m2 (ret_entry cpu i + 12) <> sid) l ->
    Forall (fun i => ld32 (mm w) (ret_entry cpu i + 12) <> sid) l).
  { intros l Hl. rewrite !Forall_forall. intros Hl' j Hj. pose proof (rt_idx _ _ _ _ Hr2) as Hi.
    rewrite Forall_forall in Hi. specialize (Hi j (Hl j Hj)). specialize (Hl' j Hj).
    rewrite (entries_frame_ld _ _ _ 4 j 12 Hf2), (entries_frame_ld _ _ _ 4 j 12 Hf1) in Hl' by lia. done. }
  wp_step. eapply wp_call; [by apply (GetReturn_loop cpu sid all (set_mm w m2))|].
  intros r w' (m3 & -> & Hs3 & Ho3 & Hr). rewrite !mm_set_mm in *.
  assert (Ecnt : sem_count m3 (sock_of cpu + 1132) = 0) by (rewrite (sem_count_on _ _ _ Hs3); lia).
  assert (Hend : forall m4 l, same_out (sock_of cpu + 1132) 16 m3 m4 -> sublist l all -> ret_list m3 cpu l ->
    returns_at m4 cpu [] l /\ entries_frame cpu (mm w) m4).
  { intros m4 l Ho4 Hsub Hl. destruct (returns_at_take m2 m3 cpu all l Hc Hr2 Ho3 Hl Hsub) as [Hr3 Hf3].
    destruct (returns_at_sem _ _ _ _ _ Hc Ho4 Hr3) as [Hr4 Hf4]. split; [done|].
    eapply entries_frame_trans; [exact Hf1|]. eapply entries_frame_trans; [exact Hf2|]. by eapply entries_frame_trans. }
  destruct Hr as [(l1 & j & l2 & E & -> & Ej & Hl1 & Hl)|(-> & Hn & Hl)];
    (apply wp_sem_up; [lia|]; intros m4 Ho4 Es4; rewrite mm_set_mm in *; wp_step; wsimp; exists m4).
  - destruct (Hend m4 (l1 ++ l2) Ho4) as [Hr4 Hf4]; [rewrite E; apply sublist_app; [done | by apply sublist_cons] | done |].
    ands; [done | by rewrite Es4, Ecnt | done |]. left. exists l1, j, l2.
    assert (Hj : j ∈ all) by (rewrite E; set_solver).
    assert (Hi : 0 <= j < 20).
    { pose proof (rt_idx _ _ _ _ Hr2) as Hi. rewrite Forall_forall in Hi. by apply Hi. }
    ands; [done | done | | | done].
    + rewrite <- Ej, (entries_frame_ld _ _ _ 4 j 12 Hf2), (entries_frame_ld _ _ _ 4 j 12 Hf1) by lia. done.
    + apply Hses; [rewrite E; set_solver | done].
  - destruct (Hend m4 all Ho4) as [Hr4 Hf4]; [done | done |].
    ands; [done | by rewrite Es4, Ecnt | done |]. right. ands; [done | by apply Hses | done].
Qed.

(** Queueing a finished call for its caller. *)
Lemma AddReturn2Fifo_wp cpu k q js w :
  0 <= cpu <= 1 -> returns_at (mm w) cpu q js -> 0 <= k < 20 -> k ∉ js ++ ours q ->
  Z.of_nat (length q) < 20 ->
  wp (AddReturn2Fifo (ret_seq cpu + 32) (ret_entry cpu k)) (fun r w' => r = 1 /\ exists m',
    w' = set_mm w m' /\ returns_at m' cpu (q ++ [Ours k]) js /\
    (forall x, ~ (sock_of cpu + 1164 <= x < sock_of cpu + 1248) ->
       ~ (ret_seq cpu + 32 <= x < ret_seq cpu + 44) ->
       ~ (ret_entry cpu k + 10 <= x < ret_entry cpu k + 12) -> ld8 m' x = ld8 (mm w) x)) w.
Proof.
  intros Hc [Hf Hl Hit Hjs Hon Hslot] Hk Hnk Hlen. destruct (ret_layout cpu Hc) as (H1 & H2 & H3 & H4 & H5).
  pose proof (ret_entry_at cpu) as Eall. pose proof (Eall k) as Ek. unfold AddReturn2Fifo.
  rewrite !eqb_neq_false by lia. cbn [orb]. rewrite not_mips_va by lia. cbv iota.
  eapply wp_call; [apply (fifo_getItemWr_wp Hf)|]. intros a w' [-> ->].
  assert (Hfull : fifo_full 21 (map (item_addr cpu) q) = false).
  { unfold fifo_full. rewrite length_map. apply eqb_neq_false. lia. }
  rewrite Hfull. pose proof (fifo_wr_range Hf) as Hw. rewrite eqb_neq_false by lia. wp_step.
  pose proof (fifo_at_slot_write Hf (ret_entry cpu k) Hfull) as Hf1.
  set (m1 := st32 _ _ (ret_entry cpu k)) in *. wp_step. wp_step. set (m2 := st16 m1 _ _).
  assert (Hf2 : fifo_at m2 (ret_seq cpu + 32) (sock_of cpu + 1164) (sock_of cpu + 1164) 21
                  (map (item_addr cpu) q)).
  { apply (fifo_at_same_out Hf1 _ (ret_entry cpu k + 10) 2); [apply same_out_st; simpl; lia | lia | lia]. }
  assert (Ew : wr_slot m2 (ret_seq cpu + 32) = wr_slot (mm w) (ret_seq cpu + 32))
    by (unfold wr_slot, m2, m1; rewrite !ld_st_ne by lia; done).
  eapply wp_call.
  { apply (fifo_requestItemWr_wp (w := set_mm w m2) _ (ret_entry cpu k) Hf2 Hfull).
    rewrite mm_set_mm, Ew. unfold m2, m1. rewrite ld_st_ne, ld32_st32_eq by lia. apply u32_small. lia. }
  intros a w' (m3 & -> & _ & Ha & H6 & Ho & _). rewrite eqb_neq_false by done. wp_step. split; [done|].
  exists m3. assert (Hfr : forall x, ~ (sock_of cpu + 1164 <= x < sock_of cpu + 1248) ->
       ~ (ret_seq cpu + 32 <= x < ret_seq cpu + 44) ->
       ~ (ret_entry cpu k + 10 <= x < ret_entry cpu k + 12) -> ld8 m3 x = ld8 (mm w) x).
  { intros x Hx1 Hx2 Hx3. rewrite Ho by lia. wsimp. unfold m2, m1. rewrite !ld8_st_out by lia. done. }
  ands; [done | | done]. split; try done.
  - unfold ret_fifo. rewrite map_app. exact H6.
  - assert (Hsame : forall x, sock_of cpu + 1116 <= x < sock_of cpu + 1148 \/
      (exists j, 0 <= j < 20 /\ ret_entry cpu j + 84 <= x < ret_entry cpu j + 92) -> ld8 m3 x = ld8 (mm w) x).
    { intros x [Hx|(j & Hj & Hx)]; [apply Hfr; lia|]. pose proof (Eall j). apply Hfr; lia. }
    destruct Hl as [M1 M2 M3 M4 M5 M6 M7]. split; try done.
    + eapply dlist_same; [|exact M3]. intros x Hx. apply elem_of_cons in Hx as [->|Hx].
      * rewrite !(ld_same _ (mm w) m3) by (intros; apply Hsame; lia). done.
      * apply list_elem_of_fmap in Hx as (e & -> & He). apply list_elem_of_fmap in He as (j & -> & Hj).
        rewrite Forall_forall in Hjs. specialize (Hjs j Hj).
        rewrite !(ld_same _ (mm w) m3) by (intros; apply Hsame; right; exists j; lia). done.
    + rewrite (ld_same _ (mm w)); [done|]. intros x Hx. apply Hsame. lia.
  - apply Forall_app. split; [done | by constructor].
  - unfold ours in *. rewrite omap_app. simpl. rewrite app_assoc. apply NoDup_app. ands; [done | | apply NoDup_singleton].
    intros x Hx Hx'. apply list_elem_of_singleton in Hx' as ->. done.
  - intros j Hj. rewrite (ld_same _ (mm w)); [by apply Hslot|]. intros x Hx. pose proof (Eall j). apply Hfr; lia.
Qed.

Lemma returns_start m cpu : 0 <= cpu <= 1 -> socket_init m cpu (sock_of cpu) -> staging_init m cpu ->
  share_seq_init m 0 cpu 1 (ret_seq cpu) -> returns_at m cpu [] [].
Proof.
  intros Hc Hs [_ Hg] [_ He _ _ _ _ _ _]. destruct (ret_layout cpu Hc) as (H1 & H2 & H3 & H4 & H5).
  destruct (so_return_list _ _ _ Hs) as [E1 E2]. destruct (so_return_empty _ _ _ Hs) as [E3 E4].
  split; [exact Hg | | by constructor | by constructor | apply NoDup_nil_2 |].
  - apply msg_list_empty; try lia; rewrite <- ?Z.add_assoc; done.
  - intros j Hj. apply (He j Hj).
Qed.
End Returns.

(** ** Properties *)

(** [GetReturnbySessionId] first moves every arrived answer, in order of arrival, behind those
    already listed, then hands out the earliest answer of the session and takes exactly that one
    out of the list, or reports none when no answer has the session; it always returns, with the
    list lock free. *)
Theorem GetReturnbySessionId_first {S : Shm} {OK : ShmOk S} {K : Kernel} {L : SemLaws K} cpu sid q js w :
  0 <= cpu <= 1 -> returns_at (mm w) cpu q js -> sem_count (mm w) (sock_of cpu + 1132) = 1 ->
  exists r m', GetReturnbySessionId sid cpu w = Ret (0, Some r) (set_mm w m') /\
    sem_count m' (sock_of cpu + 1132) = 1 /\
    ((exists l1 j l2, js ++ ours q = l1 ++ j :: l2 /\ r = ret_entry cpu j /\
        ld32 (mm w) (r + 12) = sid /\
        Forall (fun i => ld32 (mm w) (ret_entry cpu i + 12) <> sid) l1 /\
        ret_list m' cpu (l1 ++ l2)) \/
     (r = 0 /\ Forall (fun i => ld32 (mm w) (ret_entry cpu i + 12) <> sid) (js ++ ours q) /\
        ret_list m' cpu (js ++ ours q))).
Proof.
  intros Hc H Hs. destruct (wp_run _ _ _ (GetReturnbySessionId_wp cpu sid q js w Hc H Hs))
    as (r & w' & E & m' & -> & Hs' & _ & Hr).
  destruct Hr as [(l1 & j & l2 & H1 & -> & H2 & H3 & H4)|(-> & H2 & H3)].
  - exists (ret_entry cpu j), m'. ands; [done | done |]. left. exists l1, j, l2. ands; try done. apply (rt_list _ _ _ _ H4).
  - exists 0, m'. ands; [done | done |]. right. ands; try done. apply (rt_list _ _ _ _ H3).
Qed.

Lemma GetReturnbySessionId_first_witness : exists m',
  GetReturnbySessionId 77 1 booted = Ret (0, Some 0) (set_mm booted m') /\ ret_list m' 1 [].
Proof.
  destruct booted_init as [[Hs Hg _ Hp] _].
  pose proof (returns_start _ 1 ltac:(lia) (Hs 1 ltac:(lia)) (Hg 1 ltac:(lia))
    (Hp 0 1 1 ltac:(lia) ltac:(lia) ltac:(lia))) as H.
  destruct (GetReturnbySessionId_first 1 77 [] [] booted ltac:(lia) H
    (proj2 (so_return_empty _ _ _ (Hs 1 ltac:(lia))))) as (r & m' & E & _ & [Hr|Hr]).
  - destruct Hr as (l1 & j & l2 & H1 & _). destruct l1; discriminate H1.
  - destruct Hr as (E0 & _ & Hl). rewrite E0 in E. exists m'. split; [exact E | exact Hl].
Defined.

(** C26: An answer reaches the caller that waits for it: once [AddReturn2Fifo] queued entry [k], a
    lookup of that entry's session finds [k] and removes it, provided no earlier pending answer
    has the same session; all other pending answers stay, in order. *)
Theorem return_delivery {S : Shm} {OK : ShmOk S} {K : Kernel} {L : SemLaws K} cpu k q js w :
  0 <= cpu <= 1 -> returns_at (mm w) cpu q js -> sem_count (mm w) (sock_of cpu + 1132) = 1 ->
  0 <= k < 20 -> k ∉ js ++ ours q -> Z.of_nat (length q) < 20 ->
  (forall i, i ∈ js ++ ours q -> ld32 (mm w) (ret_entry cpu i + 12) <> ld32 (mm w) (ret_entry cpu k + 12)) ->
  exists m', (AddReturn2Fifo (ret_seq cpu + 32) (ret_entry cpu k) ;;
    GetReturnbySessionId (ld32 (mm w) (ret_entry cpu k + 12)) cpu) w
    = Ret (0, Some (ret_entry cpu k)) (set_mm w m') /\
    ret_list m' cpu (js ++ ours q).
Proof.
  intros Hc H Hs Hk Hnk Hlen Hothers. set (sid := ld32 (mm w) (ret_entry cpu k + 12)) in *.
  destruct (wp_run _ _ _ (AddReturn2Fifo_wp cpu k q js w Hc H Hk Hnk Hlen))
    as (r1 & w1 & E1 & -> & m1 & -> & H1 & Ho1).
  destruct (ret_layout cpu Hc) as (R1 & R2 & R3 & R4 & R5). pose proof (ret_entry_at cpu) as Eall.
  assert (Hs1 : sem_count m1 (sock_of cpu + 1132) = 1).
  { rewrite <- Hs. apply ld_same. intros x Hx. pose proof (Eall k). apply Ho1; lia. }
  assert (Hsid : forall i, 0 <= i < 20 -> ld32 m1 (ret_entry cpu i + 12) = ld32 (mm w) (ret_entry cpu i + 12)).
  { intros i Hi. apply ld_same. intros x Hx. pose proof (Eall i). pose proof (Eall k). apply Ho1; lia. }
  assert (Hall : js ++ ours (q ++ [Ours k]) = (js ++ ours q) ++ [k])
    by (unfold ours; rewrite omap_app; simpl; by rewrite app_assoc).
  assert (Hlt : forall i, i ∈ js ++ ours q -> 0 <= i < 20).
  { intros i Hi. apply elem_of_app in Hi as [Hi|Hi].
    - pose proof (rt_idx _ _ _ _ H) as Hf. rewrite Forall_forall in Hf. by apply Hf.
    - apply list_elem_of_omap in Hi as ([i'|v] & Hin & [= ->]).
      pose proof (rt_items _ _ _ _ H) as Hf. rewrite Forall_forall in Hf. apply (Hf _ Hin). }
  destruct (wp_run _ _ _ (GetReturnbySessionId_wp cpu sid _ _ (set_mm w m1) Hc H1 Hs1))
    as (r & w' & E & m' & -> & _ & _ & Hr). rewrite Hall, mm_set_mm in Hr.
  exists m'. unfold mbind, M_bind. rewrite E1, E.
  destruct Hr as [(l1 & j & l2 & Hsp & -> & Hj & Hl1 & Hl)|(_ & Hn & _)].
  - destruct l2 as [|y l2 _] using rev_ind.
    + apply app_inj_tail in Hsp as [<- <-]. rewrite app_nil_r in Hl. split; [done | apply (rt_list _ _ _ _ Hl)].
    + exfalso. rewrite app_comm_cons, app_assoc in Hsp. apply app_inj_tail in Hsp as [Hsp <-].
      assert (Hin : j ∈ js ++ ours q) by (rewrite Hsp; set_solver).
      apply (Hothers j Hin). rewrite <- Hsid by auto. done.
  - exfalso. rewrite Forall_forall in Hn. apply (Hn k); [set_solver|]. by apply Hsid.
Qed.

Lemma return_delivery_witness : exists m', (AddReturn2Fifo (ret_seq 1 + 32) (ret_entry 1 4) ;;
  GetReturnbySessionId (ld32 (mm booted) (ret_entry 1 4 + 12)) 1) booted
  = Ret (0, Some (ret_entry 1 4)) (set_mm booted m').
Proof.
  destruct booted_init as [[Hs Hg _ Hp] _].
  pose proof (returns_start _ 1 ltac:(lia) (Hs 1 ltac:(lia)) (Hg 1 ltac:(lia))
    (Hp 0 1 1 ltac:(lia) ltac:(lia) ltac:(lia))) as H.
  destruct (return_delivery 1 4 [] [] booted ltac:(lia) H
    (proj2 (so_return_empty _ _ _ (Hs 1 ltac:(lia)))) ltac:(lia)) as (m' & E & _).
  - apply not_elem_of_nil.
  - reflexivity.
  - intros i Hi. exfalso. exact (not_elem_of_nil _ Hi).
  - exists m'. exact E.
Defined.
