(* ===== verification/Smm.v ===== *)
(** The shared-memory allocator of [cpu_comm_mem.c] ([Trid_SMM_*]): a heap of
    4096-byte pages with a page table, and power-of-two free lists for small
    blocks.  [hword heap i] is [heap[i]]; [pte pt k] is entry [k] of the page
    table, three words: for a free run its length, next and previous; for a used
    run 0 and its length; for a split page its class and two counts.

    [__shmalloc] calls itself once, for one whole page: that call takes the
    large path, which is [shmalloc_large]. *)
From S2P Require Import Prelude Mem Kernel Fifo Shm SpinLock.

Definition hword (heap i : Z) : Z := u32 (heap + 4 * i).
Definition pte (pt k : Z) : Z := u32 (pt + 12 * k).

(** [if (x) x = x + ShMemAddrBase - ShMemAddr] is [smm_phy2vir].  The C code
    computes with [int]; the wrap-around is that of 32-bit words, and signed
    comparisons and divisions are written with [s32]. *)
Definition sdiv (x y : Z) : Z := Z.quot (s32 x) y.

(** [for (i = 1; v; ++i) v >>= 1] *)
Fixpoint class_loop (fuel : nat) (v i : Z) : Z :=
  match fuel with
  | O => i
  | S k => if v =? 0 then i else class_loop k (Z.shiftr v 1) (i + 1)
  end.
Definition size_class (size : Z) : Z := class_loop 33 (size - 1) 1.

(** More than the 1280 pages the 5 MB region has. *)
Definition smm_fuel : nat := Z.to_nat 4096.

Section Smm.
Context {S : Shm} {K : Kernel}.

Definition __shmalloc_brk (heap a2 : Z) : M Z :=
  let finish :=
    base ← rd32 (hword heap 47);
    brk ← rd32 (hword heap 45);
    let cur_break_phys := s32 (base + brk) in
    mret (if negb (cur_break_phys =? a2)
          then u32 (u32 (ShMemAddrBase - ShMemAddr) + cur_break_phys - a2) else 0) in
  if negb (a2 =? 0) then
    brk ← rd32 (hword heap 45);
    let new_break := s32 (a2 + s32 brk) in
    cap ← rd32 (hword heap 46);
    if s32 cap <? new_break then mret 0 else
    wr32 (hword heap 45) new_break ;;
    finish
  else finish.

Definition morecore (heap a2 : Z) : M Z :=
  ptr0 ← __shmalloc_brk heap a2;
  ptr ← (if negb ((ptr0 &. 0xFFF) =? 0) then
           let waste := 4096 - (ptr0 &. 0xFFF) in
           __shmalloc_brk heap waste ;;
           mret (u32 (ptr0 + waste))
         else mret ptr0);
  if ptr =? 0 then mret 0 else
  h0 ← rd32 (hword heap 0);
  let page_table_vir := smm_phy2vir h0 in
  let end_ := u32 (ptr + a2) in
  let needed_pages := sdiv (end_ - page_table_vir) 4096 + 1 in
  count ← rd32 (hword heap 2);
  if s32 count <? needed_pages then mret 0 else
  wr32 (hword heap 4) needed_pages ;;
  mret ptr.

(** Take [pages] pages off the free run at [cur]. *)
Definition take_pages (heap pt cur pages : Z) : M Z :=
  let e := pte pt cur in
  free_count ← rd32 e;
  h0 ← rd32 (hword heap 0);
  let result := u32 (smm_phy2vir h0 + (cur - 1) * 4096) in
  (if free_count <=? pages then
     next ← rd32 (e + 4); prev ← rd32 (e + 8);
     wr32 (pte pt next + 8) prev ;;
     prev ← rd32 (e + 8); next ← rd32 (e + 4);
     wr32 (pte pt prev + 4) next ;;
     next ← rd32 (e + 4);
     wr32 (hword heap 3) next ;;
     n ← rd32 (hword heap 43);
     wr32 (hword heap 43) (n - 1)
   else
     let split_page := u32 (cur + pages) in
     let s := pte pt split_page in
     wr32 s (free_count - pages) ;;
     next ← rd32 (e + 4);
     wr32 (s + 4) next ;;
     prev ← rd32 (e + 8);
     wr32 (s + 8) prev ;;
     wr32 (hword heap 3) split_page ;;
     next ← rd32 (e + 4);
     wr32 (pte pt next + 8) split_page ;;
     prev ← rd32 (e + 8);
     wr32 (pte pt prev + 4) split_page) ;;
  wr32 e 0 ;;
  wr32 (e + 4) pages ;;
  a ← rd32 (hword heap 41);
  wr32 (hword heap 41) (a + 1) ;;
  b ← rd32 (hword heap 42);
  wr32 (hword heap 42) (b + Z.shiftl pages 12) ;;
  f ← rd32 (hword heap 44);
  wr32 (hword heap 44) (f - Z.shiftl pages 12) ;;
  mret result.

(** The inner do-while: from [cur] around the list to [search_page]. *)
Definition find_run (pt pages search_page cur : Z) : M (option Z) :=
  loop smm_fuel (fun cur =>
    free_count ← rd32 (pte pt cur);
    if pages <=? free_count then mret (inr (Some cur)) else
    next ← rd32 (pte pt cur + 4);
    mret (if search_page =? next then inr None else inl next)) cur.

(** Grow the last free run when it ends at the break: the page to look at next,
    or nothing. *)
Definition extend_last (heap pt pages : Z) : M (option Z) :=
  last ← rd32 (pte pt 0 + 8);
  last_count ← rd32 (pte pt last);
  h4 ← rd32 (hword heap 4);
  if h4 =? 0 then mret None else
  if negb (h4 =? u32 (last + last_count)) then mret None else
  brk_vir ← __shmalloc_brk heap 0;
  h0 ← rd32 (hword heap 0);
  if negb (brk_vir =? u32 (smm_phy2vir h0 + (last - 1) * 4096)) then mret None else
  let extra_pages := s32 (pages - last_count) in
  let extra_bytes := s32 (Z.shiftl extra_pages 12) in
  r ← morecore heap extra_bytes;
  if r =? 0 then mret None else
  cur ← rd32 (pte pt 0 + 8);
  n ← rd32 (pte pt cur);
  wr32 (pte pt cur) (n + extra_pages) ;;
  f ← rd32 (hword heap 44);
  wr32 (hword heap 44) (f + extra_bytes) ;;
  mret (Some cur).

(** Fresh pages from the break. *)
Definition fresh_pages (heap pt pages : Z) : M Z :=
  page_alloc ← morecore heap (s32 (Z.shiftl pages 12));
  if page_alloc =? 0 then mret 0 else
  h0 ← rd32 (hword heap 0);
  let e := u32 (pt + 12 * sdiv (page_alloc - smm_phy2vir h0) 4096 + 12) in
  wr32 e 0 ;;
  wr32 (e + 4) pages ;;
  a ← rd32 (hword heap 41);
  wr32 (hword heap 41) (a + 1) ;;
  b ← rd32 (hword heap 42);
  wr32 (hword heap 42) (b + Z.shiftl pages 12) ;;
  mret page_alloc.

(** Requests above 2048 bytes. *)
Definition shmalloc_large (heap pt size : Z) : M Z :=
  let pages_needed := Z.shiftr (u32 (size + 4095)) 12 in
  search_page ← rd32 (hword heap 3);
  r ← loop smm_fuel (fun cur =>
    found ← find_run pt pages_needed search_page cur;
    match found with
    | Some c => v ← take_pages heap pt c pages_needed; mret (inr (Some v))
    | None =>
        next ← extend_last heap pt pages_needed;
        mret (match next with Some c => inl c | None => inr None end)
    end) search_page;
  match r with
  | Some v => mret v
  | None => fresh_pages heap pt pages_needed
  end.

(** *** Small blocks *)

(** [&free_list_slot[17]], the head of the free list of class [i] *)
Definition free_head (heap i : Z) : Z := hword heap (2 * i + 17).

(** [ptr <= base || ptr >= base + heap[46]], the bounds check of the free lists *)
Definition out_of_heap (base cap ptr : Z) : bool := (ptr <=? base) || (u32 (base + cap) <=? ptr).

(** Take the block at the head of the free list of class [i]; [vir] is its
    address.  0 is the early return of a failed check. *)
Definition take_block (heap pt i vir : Z) : M Z :=
  base_phy ← rd32 (hword heap 47);
  cap ← rd32 (hword heap 46);
  let base_vir := smm_phy2vir base_phy in
  if out_of_heap base_vir cap vir then mret 0 else
  if negb ((vir &. 3) =? 0) then mret 0 else
  prev_phy ← rd32 (vir + 4);
  if out_of_heap base_phy cap prev_phy then mret 0 else
  if negb ((prev_phy &. 3) =? 0) then mret 0 else
  let prev_vir := phy2vir prev_phy in
  next_phy ← rd32 vir;
  let next_vir := smm_phy2vir next_phy in
  ok ← (if negb (next_vir =? 0) then
          if out_of_heap base_vir cap next_vir || negb ((next_vir &. 3) =? 0) then mret false
          else wr32 (next_vir + 4) prev_phy ;; mret true
        else mret true);
  if negb (ok : bool) then mret 0 else
  (if negb (prev_vir =? 0) then wr32 prev_vir next_phy else mret tt) ;;
  h0 ← rd32 (hword heap 0);
  let page_idx := Z.shiftr (u32 (vir - smm_phy2vir h0 + 4095)) 12 in
  let e := u32 (pt + 12 * page_idx + 12) in
  n ← rd32 (e + 4);
  wr32 (e + 4) (n - 1) ;;
  (if u32 (n - 1) =? 0 then
     x ← rd32 vir;
     wr32 (e + 8) (Z.shiftr (x &. 0xFFF) i)
   else mret tt) ;;
  a ← rd32 (hword heap 41);
  wr32 (hword heap 41) (a + 1) ;;
  b ← rd32 (hword heap 42);
  wr32 (hword heap 42) (b + Z.shiftl 1 i) ;;
  n ← rd32 (hword heap 43);
  wr32 (hword heap 43) (n - 1) ;;
  f ← rd32 (hword heap 44);
  wr32 (hword heap 44) (f - Z.shiftl 1 i) ;;
  mret vir.

(** Block [j] of a fresh page goes to the front of the free list. *)
Definition chain_block (heap page_vir i j : Z) : M unit :=
  let head := free_head heap i in
  let block := u32 (page_vir + Z.shiftl j i) in
  old ← rd32 head;
  wr32 block old ;;
  wr32 (block + 4) (vir2phy head) ;;
  wr32 head (smm_vir2phy block) ;;
  old' ← rd32 block;
  if negb (old' =? 0) then wr32 (phy2vir old' + 4) (smm_vir2phy block) else mret tt.

(** Split a fresh page into blocks of class [i]; the first goes to the caller. *)
Definition carve_page (heap pt i : Z) : M Z :=
  page_vir ← shmalloc_large heap pt 4096;
  if page_vir =? 0 then mret 0 else
  let sub_count := Z.shiftr 4096 i in
  c ← rd32 (hword heap (i + 5));
  wr32 (hword heap (i + 5)) (c + 1) ;;
  for_ (Z.to_nat (sub_count - 1)) 1 (chain_block heap page_vir i) ;;
  h0 ← rd32 (hword heap 0);
  let e := u32 (pt + 12 * sdiv (page_vir - smm_phy2vir h0) 4096 + 12) in
  wr32 e i ;;
  wr32 (e + 4) (sub_count - 1) ;;
  wr32 (e + 8) (sub_count - 1) ;;
  let block_bytes := Z.shiftl 1 i in
  n ← rd32 (hword heap 43);
  wr32 (hword heap 43) (n - 1 + sub_count) ;;
  b ← rd32 (hword heap 42);
  wr32 (hword heap 42) (b - 4096 + block_bytes) ;;
  f ← rd32 (hword heap 44);
  wr32 (hword heap 44) (f + 4096 - block_bytes) ;;
  mret page_vir.

(** Requests of 8 to 2048 bytes. *)
Definition shmalloc_small (heap pt size : Z) : M Z :=
  let i := size_class size in
  free_head_phy ← rd32 (free_head heap i);
  let vir := if free_head_phy =? 0 then 0 else phy2vir free_head_phy in
  if negb (vir =? 0) then take_block heap pt i vir
  else carve_page heap pt i.

Definition __shmalloc (heap size : Z) : M Z :=
  if size =? 0 then mret 0 else
  h1 ← rd32 (hword heap 1);
  let pt := smm_phy2vir h1 in
  let size := if size <=? 7 then 8 else size in
  if 0x800 <? size then shmalloc_large heap pt size
  else shmalloc_small heap pt size.

(** *** The entry points *)

(** [(u64 * )(ShMemAddrBase + 72 * slot + 19696)] *)
Definition smm_slot (slot : Z) : Z := ShMemAddrBase + 72 * slot + 19696.

Definition smmMalloc (slot size attr : Z) : M Z :=
  let choice :=
    if slot <? 0 then
      if negb ((attr &. 1) =? 0) then Some 1
      else if (attr &. 4) =? 0 then None
      else if (attr &. 2) =? 0 then None
      else Some 0
    else if 1 <? slot then None else Some slot in
  match choice with
  | None => mret 0
  | Some effective_slot =>
      comm_SpinLock 1 ;;
      d ← rd64 (smm_slot effective_slot);
      result ← (if negb (d =? 0) then
        let alloc_size :=
          if (size <=? 0x800) && negb ((effective_slot &. 1) =? 0) then 2049 else size in
        let heap := phy2vir (u32 d) in
        r ← __shmalloc heap alloc_size;
        (if negb (r =? 0) then
           let cpu_id := getCurCPUID in
           let stats := ShMemAddrBase + 4 * cpu_id + 28672 in
           v ← rd32 (stats + 1432);
           wr32 (stats + 1432) (v + size) ;;
           n ← rd32 (ShMemAddrBase + 4 * cpu_id + 30112);
           wr32 (ShMemAddrBase + 4 * cpu_id + 30112) (n + 1)
         else mret tt) ;;
        mret r
      else mret 0);
      comm_SpinUnLock 1 ;;
      mret (if negb (result =? 0) then vir2phy result else result)
  end.

Definition Trid_SMM_Malloc (size : Z) : M Z := smmMalloc 0 size 0.
Definition Trid_SMM_MallocAttr (size : Z) : M Z := smmMalloc 0 size 0.
Definition Trid_SMMCleanUpInCPUReset : M unit := mret tt.

(** [(x + 4095) & ~4095] *)
Definition page_up (x : Z) : Z := bic (u32 (x + 4095)) 4095.

Definition Trid_SMM_Init (base size : Z) : M Z :=
  comm_SpinLock 1 ;;
  let heap := page_up base in
  let page_count := Z.shiftr (u32 (size + 4095)) 12 in
  memset heap 0 (Z.to_nat 4096) ;;
  let pt_vir := u32 (heap + 4096) in
  let pt_phy := vir2phy pt_vir in
  wr32 (hword heap 0) pt_phy ;;
  wr32 (hword heap 1) pt_phy ;;
  wr32 (hword heap 2) page_count ;;
  let pt_size_aligned := page_up (u32 (12 * page_count)) in
  let data_start := u32 (pt_size_aligned + 4096) in
  let heap_phy := vir2phy heap in
  wr32 (hword heap 45) data_start ;;
  wr32 (hword heap 46) size ;;
  wr32 (hword heap 47) heap_phy ;;
  wr32 (ShMemAddrBase + 0x4D00) heap_phy ;;
  wr32 (ShMemAddrBase + 0x4D04) size ;;
  comm_SpinUnLock 1 ;;
  mret 0.

(** *** Freeing *)

(** The free run of a large block: where [Trid_SMM_Free] starts to look for
    neighbours.  [None] is a null list position. *)
Definition free_search (heap pt page1 : Z) : M Z :=
  start ← rd32 (hword heap 3);
  if start <=? page1 then
    loop smm_fuel (fun cur =>
      next ← rd32 (pte pt cur + 4);
      mret (if next =? 0 then inr next else if next <? page1 then inl next else inr next)) start
  else
    cur ← loop smm_fuel (fun cur =>
      prev ← rd32 (pte pt cur + 8);
      mret (if page1 <? prev then inl prev else inr prev)) start;
    prev ← rd32 (pte pt cur + 8);
    rd32 (pte pt prev + 4).

(** Join the pages with the run before them, or link them in after it. *)
Definition free_merge_back (heap pt page1 pages cur : Z) : M Z :=
  prev_page ← rd32 (pte pt cur + 4);
  prev_count ← rd32 (pte pt prev_page);
  if page1 =? u32 (prev_page + prev_count) then
    wr32 (pte pt prev_page) (prev_count + pages) ;;
    mret prev_page
  else
    let e := pte pt page1 in
    wr32 e pages ;;
    next ← rd32 (pte pt prev_page + 4);
    wr32 (e + 4) next ;;
    wr32 (e + 8) prev_page ;;
    wr32 (pte pt prev_page + 4) page1 ;;
    other ← rd32 (pte pt prev_page + 8);
    wr32 (pte pt other + 8) page1 ;;
    n ← rd32 (hword heap 43);
    wr32 (hword heap 43) (n + 1) ;;
    mret page1.

(** Join the run with the one after it. *)
Definition free_merge_next (heap pt merged cur : Z) : M unit :=
  let mp := pte pt merged in
  n ← rd32 mp;
  if u32 (merged + n) =? cur then
    next_count ← rd32 (pte pt cur);
    n ← rd32 mp;
    wr32 mp (n + next_count) ;;
    next_page ← rd32 (pte pt cur + 4);
    wr32 (mp + 4) next_page ;;
    wr32 (pte pt next_page + 8) merged ;;
    c ← rd32 (hword heap 43);
    wr32 (hword heap 43) (c - 1)
  else mret tt.

(** Give a long run at the end of the heap back to the break. *)
Definition free_shrink (heap pt merged : Z) : M unit :=
  let mp := pte pt merged in
  n ← rd32 mp;
  h4 ← rd32 (hword heap 4);
  if (7 <? n) && (u32 (merged + n) =? h4) then
    brk_vir ← __shmalloc_brk heap 0;
    h0 ← rd32 (hword heap 0);
    n ← rd32 mp;
    if brk_vir =? u32 (smm_phy2vir h0 + (merged - 1) * 4096 + Z.shiftl n 12) then
      h4 ← rd32 (hword heap 4);
      wr32 (hword heap 4) (h4 - n) ;;
      __shmalloc_brk heap (s32 (- s32 (Z.shiftl n 12))) ;;
      prev ← rd32 (mp + 8);
      next ← rd32 (mp + 4);
      wr32 (pte pt prev + 4) next ;;
      next ← rd32 (mp + 4);
      prev ← rd32 (mp + 8);
      wr32 (pte pt next + 8) prev ;;
      c ← rd32 (hword heap 43);
      wr32 (hword heap 43) (c - 1) ;;
      n ← rd32 mp;
      f ← rd32 (hword heap 44);
      wr32 (hword heap 44) (f - Z.shiftl n 12)
    else mret tt
  else mret tt.

Definition free_pages (heap pt page_idx pages : Z) : M unit :=
  let page1 := u32 (page_idx + 1) in
  b ← rd32 (hword heap 42);
  wr32 (hword heap 42) (b - Z.shiftl pages 12) ;;
  f ← rd32 (hword heap 44);
  wr32 (hword heap 44) (f + Z.shiftl pages 12) ;;
  cur ← free_search heap pt page1;
  merged ← free_merge_back heap pt page1 pages cur;
  free_merge_next heap pt merged cur ;;
  free_shrink heap pt merged ;;
  wr32 (hword heap 3) merged.

(** Take every block of the page at [page_base] off the free list; [false] is
    the exit on a bad pointer. *)
Definition drop_page_blocks (heap cls base_vir page_base sub_count : Z) : M bool :=
  first ← rd32 (free_head heap cls);
  loop smm_fuel (fun '(i, cur_block) =>
    if negb ((i <? sub_count) && negb (cur_block =? 0)) then mret (inr true) else
    let cur_vir := phy2vir cur_block in
    cap ← rd32 (hword heap 46);
    if out_of_heap base_vir cap cur_vir || negb ((cur_vir &. 3) =? 0) then mret (inr false) else
    if bic cur_vir 0xFFF =? page_base then
      next_phy ← rd32 cur_vir;
      prev_phy ← rd32 (cur_vir + 4);
      (if negb (smm_phy2vir next_phy =? 0) then wr32 (smm_phy2vir next_phy + 4) prev_phy else mret tt) ;;
      (if negb (smm_phy2vir prev_phy =? 0) then wr32 (smm_phy2vir prev_phy) next_phy
       else wr32 (free_head heap cls) next_phy) ;;
      mret (inl (i + 1, next_phy))
    else
      next ← rd32 cur_vir;
      mret (inl (i + 1, next))) (1, first).

(** The block goes to the front of its free list. *)
Definition insert_block (heap pte_addr cls base_vir vaddr : Z) : M unit :=
  let head := free_head heap cls in
  old_head_phy ← rd32 head;
  wr32 vaddr old_head_phy ;;
  wr32 (vaddr + 4) (vir2phy head) ;;
  cap ← rd32 (hword heap 46);
  (if negb (old_head_phy =? 0) then
     let old_vir := phy2vir old_head_phy in
     if negb (out_of_heap base_vir cap old_vir) && ((old_vir &. 3) =? 0)
     then wr32 (old_vir + 4) (vir2phy vaddr) else mret tt
   else mret tt) ;;
  wr32 head (smm_vir2phy vaddr) ;;
  n ← rd32 (pte_addr + 4);
  wr32 (pte_addr + 4) (n + 1) ;;
  x ← rd32 vaddr;
  wr32 (pte_addr + 8) (Z.shiftr (x &. 0xFFF) cls).

(** A small block: back to its free list, or, when it was the last one in use
    and the class has other pages, the whole page back to the page list. *)
Definition free_block (heap pt data_base_vir pte_addr cls count vaddr : Z) : M unit :=
  base_phy ← rd32 (hword heap 47);
  cap ← rd32 (hword heap 46);
  let base_vir := smm_phy2vir base_phy in
  if out_of_heap base_vir cap vaddr || negb ((vaddr &. 3) =? 0) then mret tt else
  b ← rd32 (hword heap 42);
  wr32 (hword heap 42) (b - Z.shiftl 1 cls) ;;
  f ← rd32 (hword heap 44);
  wr32 (hword heap 44) (f + Z.shiftl 1 cls) ;;
  n ← rd32 (hword heap 43);
  wr32 (hword heap 43) (n + 1) ;;
  let sub_count := Z.shiftr 4096 cls in
  split ← (if count =? u32 (sub_count - 1) then rd32 (hword heap (2 * cls + 5)) else mret 0);
  if 1 <? split then
    wr32 (hword heap (2 * cls + 5)) (split - 1) ;;
    let page_base := bic vaddr 0xFFF in
    ok ← drop_page_blocks heap cls base_vir page_base sub_count;
    if negb (ok : bool) then mret tt else
    n ← rd32 (hword heap 43);
    wr32 (hword heap 43) (n - 1 - (sub_count - 1)) ;;
    b ← rd32 (hword heap 42);
    wr32 (hword heap 42) (b + (4096 - Z.shiftl 1 cls)) ;;
    f ← rd32 (hword heap 44);
    wr32 (hword heap 44) (f - (4096 - Z.shiftl 1 cls)) ;;
    let page_idx := u32 (page_base - data_base_vir) / 4096 in
    let e := pte pt (page_idx + 1) in
    wr32 e 0 ;;
    wr32 (e + 4) 1 ;;
    a ← rd32 (hword heap 41);
    wr32 (hword heap 41) (a + 1) ;;
    free_pages heap pt page_idx 1
  else insert_block heap pte_addr cls base_vir vaddr.

(** The heap whose descriptor covers [phy]. *)
Definition find_slot (phy : Z) : M (option Z) :=
  b0 ← rd64 (smm_slot 0);
  s0 ← rd32 (ShMemAddrBase + 19704);
  if (u32 b0 <=? phy) && (phy <? u32 (u32 b0 + s0)) then mret (Some 0) else
  b1 ← rd64 (ShMemAddrBase + 19768);
  s1 ← rd32 (ShMemAddrBase + 19776);
  if (phy <? u32 b1) || (u32 (u32 b1 + s1) <=? phy) then mret None else mret (Some 1).

Definition Trid_SMM_Free (mid_addr : Z) : M Z :=
  let phy_addr := Mid2Phy 0 mid_addr in
  if phy_addr =? 0 then mret 0 else
  slot ← find_slot phy_addr;
  match slot with
  | None => mret (- EINVAL)
  | Some slot =>
      comm_SpinLock 1 ;;
      d ← rd64 (smm_slot slot);
      (if d =? 0 then mret tt else
       let heap := phy2vir (u32 d) in
       h1 ← rd32 (hword heap 1);
       let pt := smm_phy2vir h1 in
       h0 ← rd32 (hword heap 0);
       let data_base_vir := smm_phy2vir h0 in
       let vaddr := phy2vir phy_addr in
       a ← rd32 (hword heap 41);
       wr32 (hword heap 41) (a - 1) ;;
       let page_idx := u32 (vaddr - data_base_vir) / 4096 in
       let e := pte pt (page_idx + 1) in
       cls ← rd32 e;
       count ← rd32 (e + 4);
       if cls =? 0 then free_pages heap pt page_idx count
       else free_block heap pt data_base_vir e cls count vaddr) ;;
      comm_SpinUnLock 1 ;;
      mret 0
  end.
End Smm.
