(* ===== verification/SmmHeap.v ===== *)
(** Properties of the shared-memory allocator: large blocks come from the break
    and never overlap; what requests outside its range do. *)
From S2P Require Import Prelude Mem Kernel Fifo Shm SpinLock Smm.

(** ** The specification of large requests *)

Definition pages_of (size : Z) : Z := (size + 4095) / 4096.

(** Address (0: none) and new break. *)
Definition bump (heap cap brk size : Z) : Z * Z :=
  let brk' := brk + 4096 * pages_of size in
  if brk' <=? cap then (heap + brk, brk') else (0, brk).

Fixpoint bumps (heap cap brk : Z) (sizes : list Z) : list Z * Z :=
  match sizes with
  | [] => ([], brk)
  | s :: sizes' =>
      let '(a, brk1) := bump heap cap brk s in
      let '(l, brk2) := bumps heap cap brk1 sizes' in (a :: l, brk2)
  end.

(** The whole pages of a capacity. *)
Definition whole (cap : Z) : Z := 4096 * (cap / 4096).

Lemma whole_bounds cap : whole cap <= cap < whole cap + 4096.
Proof.
  unfold whole. pose proof (Z.div_mod cap 4096 ltac:(lia)). pose proof (Z.mod_pos_bound cap 4096 ltac:(lia)). lia.
Qed.

Lemma whole_le cap x : x mod 4096 = 0 -> x <= cap <-> x <= whole cap.
Proof.
  intros H. pose proof (whole_bounds cap). pose proof (Z.div_mod x 4096 ltac:(lia)).
  unfold whole in *. split; [intros|]; lia.
Qed.

Definition large (size : Z) : Prop := 2048 < size <= 2 ^ 30.

Lemma pages_of_pos size : large size -> 1 <= pages_of size /\ size <= 4096 * pages_of size <= 2 ^ 30.
Proof.
  unfold large, pages_of. intros H. pose proof (Z.div_mod (size + 4095) 4096 ltac:(lia)).
  pose proof (Z.mod_pos_bound (size + 4095) 4096 ltac:(lia)).
  assert (size + 4095 < 4096 * 262145) by lia. nia.
Qed.

Lemma bumps_length heap cap sizes : forall brk, length (fst (bumps heap cap brk sizes)) = length sizes.
Proof.
  induction sizes as [|x sizes IH]; intros brk; simpl; [done|].
  destruct (bump heap cap brk x) as [a brk1]. specialize (IH brk1).
  destruct (bumps heap cap brk1 sizes). simpl in *. lia.
Qed.

(** The blocks the specification hands out lie above the break they started
    from, below the capacity, each after the one before. *)
Lemma bumps_sound heap cap sizes : forall brk, 0 < heap -> 0 < brk -> Forall large sizes ->
  brk <= snd (bumps heap cap brk sizes) /\
  (forall i a s, fst (bumps heap cap brk sizes) !! i = Some a -> sizes !! i = Some s -> a <> 0 ->
     heap + brk <= a /\ a + s <= heap + cap) /\
  (forall i j a b s, (i < j)%nat -> fst (bumps heap cap brk sizes) !! i = Some a ->
     fst (bumps heap cap brk sizes) !! j = Some b -> sizes !! i = Some s -> a <> 0 -> b <> 0 -> a + s <= b).
Proof.
  induction sizes as [|s0 sizes IH]; intros brk Hh Hb Hall; simpl.
  { ands; [lia | | ]; intros; done. }
  apply Forall_cons in Hall as [H0 Hall]. pose proof (pages_of_pos s0 H0) as [Hp1 Hp2].
  destruct (bump heap cap brk s0) as [a0 brk1] eqn:E0. unfold bump in E0.
  assert (Hbrk1 : brk <= brk1 /\ (a0 = 0 \/ (a0 = heap + brk /\ brk1 = brk + 4096 * pages_of s0 /\ brk1 <= cap))).
  { destruct (Z.leb_spec (brk + 4096 * pages_of s0) cap); injection E0 as <- <-; lia. }
  destruct (IH brk1 Hh ltac:(lia) Hall) as (IH1 & IH2 & IH3).
  destruct (bumps heap cap brk1 sizes) as [l brk2] eqn:E1. simpl in *. ands; [lia | |].
  - intros [|i] a s Ha Hs Hn; simpl in *.
    + injection Ha as <-. injection Hs as <-. lia.
    + specialize (IH2 i a s Ha Hs Hn). lia.
  - intros [|i] [|j] a b s Hij Ha Hb' Hs Hna Hnb; simpl in *; try lia.
    + injection Ha as <-. injection Hs as <-.
      destruct (lookup_lt_is_Some_2 sizes j) as [s' Hs'].
      { apply lookup_lt_Some in Hb'. pose proof (bumps_length heap cap sizes brk1) as Hl. rewrite E1 in Hl.
        simpl in Hl. lia. }
      specialize (IH2 j b s' Hb' Hs' Hnb). lia.
    + eapply (IH3 i j); eauto; lia.
Qed.

(** Only whole pages are ever used. *)
Lemma bumps_whole heap cap sizes : forall brk, brk mod 4096 = 0 ->
  bumps heap cap brk sizes = bumps heap (whole cap) brk sizes.
Proof.
  induction sizes as [|s sizes IH]; intros brk Hb; [done|]. cbn [bumps].
  assert (Hb' : (brk + 4096 * pages_of s) mod 4096 = 0)
    by (rewrite Z.mul_comm, Z.mod_add by lia; done).
  pose proof (whole_le cap _ Hb') as Hw. unfold bump.
  destruct (Z.leb_spec (brk + 4096 * pages_of s) cap) as [Hc|Hc];
    destruct (Z.leb_spec (brk + 4096 * pages_of s) (whole cap)) as [Hc'|Hc']; try lia;
    by rewrite IH.
Qed.

(** ** A heap from which only large blocks were taken *)

Section Heap.
Context {S : Shm} {OK : ShmOk S} {K : Kernel}.

(** Page table of [pc] entries after the header page; everything below [brk] is
    in use, and no run of pages was ever freed. *)
Record bump_heap (m : mem) (heap pc cap brk : Z) : Prop := BumpHeap {
  bh_at : ShMemAddrBase <= heap /\ heap + whole cap <= ShMemAddrBase + ShMemSize;
  bh_page : heap mod 4096 = 0;
  bh_brk : brk mod 4096 = 0 /\ 4096 + 12 * pc <= brk <= cap;
  bh_pc : 4096 * pc < cap + 4096 /\ cap <= 4096 * pc;
  bh_0 : ld32 m heap = vir2phy (heap + 4096);
  bh_1 : ld32 m (heap + 4) = vir2phy (heap + 4096);
  bh_2 : ld32 m (heap + 8) = pc;
  bh_3 : ld32 m (heap + 12) = 0;
  bh_45 : ld32 m (heap + 180) = brk;
  bh_46 : ld32 m (heap + 184) = cap;
  bh_47 : ld32 m (heap + 188) = vir2phy heap;
  bh_nil : ld32 m (heap + 4096) = 0 /\ ld32 m (heap + 4100) = 0 /\ ld32 m (heap + 4104) = 0;
}.

Lemma heap_facts m heap pc cap brk : bump_heap m heap pc cap brk ->
  4096 <= heap /\ heap + brk < 2 ^ 32 /\ 8192 <= brk /\ brk <= cap <= 0x501000 /\ 2 <= pc <= 1282 /\
  smm_phy2vir (vir2phy (heap + 4096)) = heap + 4096 /\
  vir2phy heap = heap - ShMemAddrBase + ShMemAddr.
Proof.
  intros [H1 H2 [H3 H3'] H4 _ _ _ _ _ _ _ _]. shm_facts.
  pose proof (whole_bounds cap). pose proof (proj1 (whole_le cap brk H3) ltac:(lia)).
  assert (8192 <= brk).
  { pose proof (Z.div_mod brk 4096 ltac:(lia)) as Hd. rewrite H3 in Hd.
    assert (1 <= pc) by lia. assert (1 < brk / 4096) by lia. lia. }
  assert (2 <= pc) by lia.
  assert (Hin : in_shm (heap + 4096)) by (unfold in_shm; lia).
  ands; try lia.
  - unfold smm_phy2vir. rewrite eqb_neq_false by (by apply vir2phy_nonzero). by apply phy2vir_vir2phy.
  - apply vir2phy_shm. unfold in_shm. lia.
Qed.

Lemma hword_at heap i : 4096 <= heap -> heap + 4 * i + 4 <= 2 ^ 32 -> 0 <= i -> hword heap i = heap + 4 * i.
Proof. intros. unfold hword. apply u32_small. lia. Qed.

Lemma page_aligned x : x mod 4096 = 0 -> (x &. 0xFFF) = 0.
Proof. intros H. change 0xFFF with (Z.ones 12). rewrite Z.land_ones by lia. exact H. Qed.

(** The break moves when there is room. *)
Lemma brk_move {B} heap pc cap brk n (k : Z -> M B) Q w :
  bump_heap (mm w) heap pc cap brk -> 0 < n <= 2 ^ 30 -> n mod 4096 = 0 ->
  (brk + n <= cap ->
     wp (k (heap + brk)) Q (set_mm w (st32 (mm w) (heap + 180) (brk + n)))) ->
  (cap < brk + n -> wp (k 0) Q w) ->
  wp (__shmalloc_brk heap n ≫= k) Q w.
Proof.
  intros H Hn Hm Hk1 Hk2. destruct (heap_facts _ _ _ _ _ H) as (F1 & F2 & F3 & F4 & F5 & F6 & F7).
  pose proof (bh_at _ _ _ _ _ H) as Hat. shm_facts. unfold __shmalloc_brk.
  rewrite !hword_at by lia. change (4 * 45) with 180. change (4 * 46) with 184. change (4 * 47) with 188.
  rewrite eqb_neq_false by lia. cbn [negb]. apply wp_assoc. wp_step. apply wp_assoc. wp_step.
  rewrite (bh_45 _ _ _ _ _ H), (bh_46 _ _ _ _ _ H).
  rewrite !(s32_small brk), (s32_small (n + brk)), (s32_small cap) by lia.
  destruct (Z.ltb_spec cap (n + brk)) as [Hc|Hc].
  - apply wp_mret, Hk2. lia.
  - assert (Hend : brk + n <= whole cap).
    { assert (Ha : (brk + n) mod 4096 = 0) by (rewrite Z.add_mod, Hm, (proj1 (bh_brk _ _ _ _ _ H)) by lia; done).
      apply (proj1 (whole_le cap _ Ha)). lia. }
    apply wp_assoc. wp_step. apply wp_assoc. wp_step. apply wp_assoc. wp_step.
    rewrite ld_st_ne, ld32_st32_eq, (bh_47 _ _ _ _ _ H), F7 by lia.
    rewrite (u32_small (n + brk)) by lia. rewrite eqb_neq_false.
    2: { intros E. apply (f_equal u32) in E. rewrite (u32_small n) in E by lia.
         rewrite u32_s32 in E. unfold u32 in E.
         destruct (Z.lt_ge_cases (heap - ShMemAddrBase + ShMemAddr + (n + brk)) (2 ^ 32)) as [Hl|Hl].
         - rewrite Z.mod_small in E by lia. lia.
         - replace (heap - ShMemAddrBase + ShMemAddr + (n + brk)) with (heap - ShMemAddrBase + ShMemAddr + (n + brk) - 2 ^ 32 + 1 * 2 ^ 32) in E by lia.
           rewrite Z.mod_add, Z.mod_small in E by lia. lia. }
    cbn [negb]. apply wp_mret.
    assert (Er : forall z, u32 (u32 (ShMemAddrBase - ShMemAddr) + s32 z - n)
                        = u32 (ShMemAddrBase - ShMemAddr + z - n)).
    { intros z. destruct (s32_wrap z) as [j ->].
      replace (u32 (ShMemAddrBase - ShMemAddr) + (z + j * 2 ^ 32) - n)
        with (u32 (ShMemAddrBase - ShMemAddr) + (z - n) + j * 2 ^ 32) by lia.
      rewrite u32_wrap, u32_add_l. f_equal. lia. }
    rewrite Er. rewrite u32_small by lia.
    replace (ShMemAddrBase - ShMemAddr + (heap - ShMemAddrBase + ShMemAddr + (n + brk)) - n)
      with (heap + brk) by lia. rewrite (Z.add_comm n brk). by apply Hk1; lia.
Qed.

(** What allocating changes: header words and page-table entries past the first. *)
Definition heap_frame (heap pc : Z) (m m' : mem) : Prop := forall x,
  ~ (heap + 16 <= x < heap + 20) -> ~ (heap + 164 <= x < heap + 184) ->
  ~ (heap + 4108 <= x < heap + 4096 + 12 * pc) -> ld8 m' x = ld8 m x.

Lemma bump_heap_frame m m' heap pc cap brk brk' :
  bump_heap m heap pc cap brk -> heap_frame heap pc m m' ->
  ld32 m' (heap + 180) = brk' -> brk' mod 4096 = 0 -> brk <= brk' <= cap ->
  bump_heap m' heap pc cap brk'.
Proof.
  intros H Ho E Hm Hb. destruct (heap_facts _ _ _ _ _ H) as (F1 & F2 & F3 & F4 & F5 & F6 & F7).
  destruct H as [H1 H2 [H3 H3'] H4 H5 H6 H7 H8 H9 H10 H11 (H12 & H13 & H14)]. unfold heap_frame in Ho.
  split; try done; try (split; [done | lia]);
    rewrite ?(ld_same 4 m m') by (intros; apply Ho; lia); done.
Qed.

Lemma morecore_wp heap pc cap brk n (Q : Z -> world -> Prop) w :
  bump_heap (mm w) heap pc cap brk -> 0 < n <= 2 ^ 30 -> n mod 4096 = 0 ->
  (brk + n <= cap -> forall m', heap_frame heap pc (mm w) m' -> ld32 m' (heap + 180) = brk + n ->
     ld32 m' (heap + 16) = (brk + n) / 4096 -> Q (heap + brk) (set_mm w m')) ->
  (cap < brk + n -> Q 0 w) ->
  wp (morecore heap n) Q w.
Proof.
  intros H Hn Hm Hk1 Hk2. destruct (heap_facts _ _ _ _ _ H) as (F1 & F2 & F3 & F4 & F5 & F6 & F7).
  destruct (bh_brk _ _ _ _ _ H) as [Hbm _]. pose proof (bh_page _ _ _ _ _ H) as Hhm.
  unfold morecore. apply (brk_move heap pc cap brk); [done | done | done | |].
  - intros Hc. specialize (Hk1 Hc).
    assert (Hend : brk + n <= whole cap).
    { assert (Ha : (brk + n) mod 4096 = 0) by (rewrite Z.add_mod, Hm, Hbm by lia; done).
      apply (proj1 (whole_le cap _ Ha)). lia. }
    pose proof (bh_at _ _ _ _ _ H). shm_facts. set (m1 := st32 (mm w) _ _).
    assert (Hal : (heap + brk) mod 4096 = 0) by (rewrite Z.add_mod, Hhm, Hbm by lia; done).
    rewrite page_aligned by done. cbn [negb Z.eqb]. apply wp_mret. rewrite eqb_neq_false by lia.
    rewrite !hword_at by lia. replace (heap + 4 * 0) with heap by lia.
    change (4 * 2) with 8. change (4 * 4) with 16. wp_step.
    assert (E0 : ld32 m1 heap = vir2phy (heap + 4096))
      by (unfold m1; rewrite ld_st_ne by lia; apply (bh_0 _ _ _ _ _ H)).
    assert (E2 : ld32 m1 (heap + 8) = pc)
      by (unfold m1; rewrite ld_st_ne by lia; apply (bh_2 _ _ _ _ _ H)).
    rewrite E0, F6. cbv zeta. wp_step. rewrite E2, (s32_small pc) by lia.
    assert (En : sdiv (u32 (heap + brk + n) - (heap + 4096)) 4096 + 1 = (brk + n) / 4096).
    { unfold sdiv. rewrite u32_small by lia.
      replace (heap + brk + n - (heap + 4096)) with (brk + n - 4096) by lia.
      rewrite s32_small by lia. rewrite Z.quot_div_nonneg by lia.
      replace (brk + n - 4096) with (brk + n + (-1) * 4096) by lia. rewrite Z.div_add by lia. lia. }
    rewrite En. assert (Hle : (brk + n) / 4096 <= pc).
    { pose proof (bh_pc _ _ _ _ _ H). apply Z.div_le_upper_bound; lia. }
    rewrite ltb_false by lia. wp_step. wp_step. apply Hk1.
    + intros x Hx1 Hx2 Hx3. unfold m1. rewrite !ld8_st_out by lia. done.
    + unfold m1. rewrite ld_st_ne, ld32_st32_eq by lia. apply u32_small. lia.
    + rewrite ld32_st32_eq. apply u32_small. pose proof (Z.div_pos (brk + n) 4096). lia.
  - intros Hc. change (0 &. 0xFFF) with 0. cbn [negb Z.eqb]. apply wp_mret, wp_ret. by apply Hk2.
Qed.

Lemma fresh_pages_wp heap pc cap brk size w :
  bump_heap (mm w) heap pc cap brk -> large size ->
  wp (fresh_pages heap (heap + 4096) (pages_of size)) (fun r w' => r = fst (bump heap cap brk size) /\
    exists m', w' = set_mm w m' /\ bump_heap m' heap pc cap (snd (bump heap cap brk size)) /\
    heap_frame heap pc (mm w) m') w.
Proof.
  intros H Hs. destruct (pages_of_pos size Hs) as [Hp1 Hp2].
  destruct (heap_facts _ _ _ _ _ H) as (F1 & F2 & F3 & F4 & F5 & F6 & F7).
  destruct (bh_brk _ _ _ _ _ H) as [Hbm _]. unfold fresh_pages, bump.
  rewrite Z.shiftl_mul_pow2 by lia. change (2 ^ 12) with 4096. rewrite s32_small by lia.
  set (n := pages_of size * 4096). replace (4096 * pages_of size) with n by (unfold n; lia).
  assert (Hn : 4096 <= n <= 2 ^ 30 /\ n mod 4096 = 0) by (unfold n; rewrite Z.mod_mul by lia; lia).
  eapply (wp_call _ _ (fun r w' => (brk + n <= cap /\ r = heap + brk /\ exists m', w' = set_mm w m' /\
      heap_frame heap pc (mm w) m' /\ ld32 m' (heap + 180) = brk + n) \/
    (cap < brk + n /\ r = 0 /\ w' = w))).
  { apply (morecore_wp heap pc cap brk); [done | lia | apply Hn | |].
    - intros Hc m' Ho E _. left. ands; [done | done |]. by exists m'.
    - intros Hc. by right. }
  intros r w' [(Hc & -> & m1 & -> & Ho & E)|(Hc & -> & ->)].
  2: { rewrite Z.eqb_refl, leb_false by lia. wp_step. split; [done|]. exists (mm w). by rewrite set_mm_id. }
  rewrite leb_true by lia. simpl. rewrite eqb_neq_false by lia. rewrite !hword_at by lia.
  replace (heap + 4 * 0) with heap by lia. change (4 * 41) with 164. change (4 * 42) with 168.
  wp_step. assert (E0 : ld32 m1 heap = vir2phy (heap + 4096)).
  { rewrite (ld_same 4 (mm w)) by (intros; apply Ho; lia). apply (bh_0 _ _ _ _ _ H). }
  rewrite E0, F6. cbv zeta. set (e := u32 (heap + 4096 + 12 * _ + 12)).
  assert (He : e = heap + 4096 + 12 * (brk / 4096) /\ 2 <= brk / 4096 /\ brk / 4096 + 1 <= pc).
  { pose proof (bh_pc _ _ _ _ _ H). pose proof (Z.div_mod brk 4096 ltac:(lia)) as Hd. rewrite Hbm in Hd.
    unfold e, sdiv. replace (heap + brk - (heap + 4096)) with (brk - 4096) by lia.
    rewrite s32_small by lia. rewrite Z.quot_div_nonneg by lia.
    replace (brk - 4096) with (brk + (-1) * 4096) by lia. rewrite Z.div_add by lia.
    rewrite u32_small by lia. lia. }
  destruct He as (He & He1 & He2). do 6 wp_step. wp_step. split; [done|]. eexists. split; [done|].
  match goal with |- bump_heap ?m _ _ _ _ /\ _ => set (m2 := m) end.
  assert (Ho2 : heap_frame heap pc (mm w) m2).
  { intros x Hx1 Hx2 Hx3. unfold m2. rewrite !ld8_st_out by lia. by apply Ho. }
  split; [|done]. apply (bump_heap_frame (mm w) m2 heap pc cap brk); [done | done | | |lia].
  - unfold m2. by rewrite !ld_st_ne by lia.
  - rewrite Z.add_mod, Hbm, (proj2 Hn) by lia. done.
Qed.

(** With no free run, the search ends at the sentinel... *)
Lemma find_run_nil heap pc cap brk n w : bump_heap (mm w) heap pc cap brk -> 1 <= n ->
  wp (find_run (heap + 4096) n 0 0) (fun r w' => r = None /\ w' = w) w.
Proof.
  intros H Hn. destruct (heap_facts _ _ _ _ _ H) as (F1 & F2 & F3 & F4 & F5 & _).
  destruct (bh_nil _ _ _ _ _ H) as (N0 & N1 & N2).
  apply (wp_loop (fun _ s w' => s = 0 /\ w' = w) _ _ _ 0); [unfold smm_fuel; lia | done |].
  intros k s w' [-> ->]. assert (Ep : pte (heap + 4096) 0 = heap + 4096) by (unfold pte; rewrite u32_small; lia).
  rewrite Ep. wp_step. rewrite N0, leb_false by lia. wp_step.
  replace (heap + 4096 + 4) with (heap + 4100) by lia. rewrite N1. by wp_step.
Qed.

(** ... and there is nothing to extend. *)
Lemma extend_last_nil heap pc cap brk n w : bump_heap (mm w) heap pc cap brk ->
  wp (extend_last heap (heap + 4096) n) (fun r w' => r = None /\ w' = w) w.
Proof.
  intros H. destruct (heap_facts _ _ _ _ _ H) as (F1 & F2 & F3 & F4 & F5 & _).
  destruct (bh_nil _ _ _ _ _ H) as (N0 & N1 & N2). unfold extend_last.
  assert (Ep : pte (heap + 4096) 0 = heap + 4096) by (unfold pte; rewrite u32_small; lia).
  rewrite Ep. wp_step. replace (heap + 4096 + 8) with (heap + 4104) by lia. rewrite N2, Ep.
  wp_step. rewrite N0. rewrite (hword_at heap 4) by lia. wp_step. change (u32 (0 + 0)) with 0.
  destruct (ld32 (mm w) (heap + 4 * 4) =? 0); cbn [negb]; by wp_step.
Qed.

Lemma shmalloc_large_wp heap pc cap brk size w :
  bump_heap (mm w) heap pc cap brk -> large size ->
  wp (shmalloc_large heap (heap + 4096) size) (fun r w' => r = fst (bump heap cap brk size) /\
    exists m', w' = set_mm w m' /\ bump_heap m' heap pc cap (snd (bump heap cap brk size)) /\
    heap_frame heap pc (mm w) m') w.
Proof.
  intros H Hs. destruct (pages_of_pos size Hs) as [Hp1 Hp2]. pose proof Hs as Hs'. unfold large in Hs'.
  destruct (heap_facts _ _ _ _ _ H) as (F1 & F2 & F3 & F4 & F5 & _). unfold shmalloc_large.
  rewrite u32_small by lia. rewrite Z.shiftr_div_pow2 by lia.
  change ((size + 4095) / 2 ^ 12) with (pages_of size).
  rewrite !hword_at by lia. change (4 * 3) with 12. wp_step. rewrite (bh_3 _ _ _ _ _ H).
  eapply (wp_call _ _ (fun r w' => r = None /\ w' = w)).
  2: { intros r w' [-> ->]. by apply fresh_pages_wp. }
  apply (wp_loop (fun _ s w' => s = 0 /\ w' = w) _ _ _ 0); [unfold smm_fuel; lia | done |].
  intros k s w' [-> ->]. eapply wp_call; [by eapply find_run_nil|]. intros r w' [-> ->].
  eapply wp_call; [by eapply extend_last_nil|]. intros r w' [-> ->]. by wp_step.
Qed.

Lemma shmalloc_wp heap pc cap brk size w :
  bump_heap (mm w) heap pc cap brk -> large size ->
  wp (__shmalloc heap size) (fun r w' => r = fst (bump heap cap brk size) /\
    exists m', w' = set_mm w m' /\ bump_heap m' heap pc cap (snd (bump heap cap brk size)) /\
    heap_frame heap pc (mm w) m') w.
Proof.
  intros H Hs. pose proof Hs as [Hs1 Hs2].
  destruct (heap_facts _ _ _ _ _ H) as (F1 & F2 & F3 & F4 & F5 & F6 & F7). unfold __shmalloc.
  rewrite eqb_neq_false by lia. rewrite hword_at by lia. wp_step. change (4 * 1) with 4.
  rewrite (bh_1 _ _ _ _ _ H), F6. cbv zeta. rewrite leb_false, ltb_true by lia. by apply shmalloc_large_wp.
Qed.

(** Requests, one after the other. *)
Fixpoint run_allocs (heap : Z) (sizes : list Z) : M (list Z) :=
  match sizes with
  | [] => mret []
  | s :: sizes' => a ← __shmalloc heap s; l ← run_allocs heap sizes'; mret (a :: l)
  end.

Lemma run_allocs_wp heap pc cap sizes : forall brk w,
  bump_heap (mm w) heap pc cap brk -> Forall large sizes ->
  wp (run_allocs heap sizes) (fun l w' => l = fst (bumps heap cap brk sizes) /\
    exists m', w' = set_mm w m' /\ bump_heap m' heap pc cap (snd (bumps heap cap brk sizes))) w.
Proof.
  induction sizes as [|s sizes IH]; intros brk w H Hall; simpl.
  { wp_step. split; [done|]. exists (mm w). by rewrite set_mm_id. }
  apply Forall_cons in Hall as [Hs Hall]. eapply wp_call; [by eapply shmalloc_wp|].
  intros a w' (-> & m1 & -> & H1 & _). destruct (bump heap cap brk s) as [a brk1]. simpl in *.
  eapply wp_call; [by apply (IH brk1)|]. intros l w' (-> & m2 & -> & H2). wp_step.
  destruct (bumps heap cap brk1 sizes) as [l brk2]. simpl in *. split; [done|]. by exists m2.
Qed.
End Heap.

(** *** Initialisation *)

Section HeapInit.
Context {S : Shm} {OK : ShmOk S} {K : Kernel} {HQ : Quiet K}.

Lemma page_up_small x : 0 <= x -> x + 4095 < 2 ^ 32 -> page_up x = 4096 * ((x + 4095) / 4096).
Proof.
  intros H1 H2. unfold page_up, bic. rewrite u32_small by lia.
  change 4095 with (Z.ones 12) at 2. rewrite Z.ldiff_ones_r by lia.
  rewrite Z.shiftr_div_pow2, Z.shiftl_mul_pow2 by lia. change (2 ^ 12) with 4096. lia.
Qed.

Definition heap_pages (size : Z) : Z := (size + 4095) / 4096.
Definition data_start (size : Z) : Z := 4096 * ((12 * heap_pages size + 4095) / 4096) + 4096.

(** Where a heap can be put: after the fixed structures, inside the region. *)
Record heap_room (base size : Z) : Prop := HeapRoom {
  hr_lo : ShMemAddrBase + 20480 <= base;
  hr_in : 4096 * ((base + 4095) / 4096) + whole size <= ShMemAddrBase + ShMemSize;
  hr_size : data_start size <= size;
}.

(** The table entry of no page.  [Trid_SMM_Init] clears the header page only, so a
    usable heap needs these words to be zero beforehand. *)
Definition table_clear (m : mem) (heap : Z) : Prop :=
  ld32 m (heap + 4096) = 0 /\ ld32 m (heap + 4100) = 0 /\ ld32 m (heap + 4104) = 0.

Lemma data_start_facts size : 4096 <= size <= 0x500000 ->
  data_start size mod 4096 = 0 /\ 4096 + 12 * heap_pages size <= data_start size /\
  4096 * heap_pages size < size + 4096 /\ size <= 4096 * heap_pages size.
Proof.
  intros H. unfold data_start, heap_pages.
  pose proof (Z.div_mod (size + 4095) 4096 ltac:(lia)). pose proof (Z.mod_pos_bound (size + 4095) 4096 ltac:(lia)).
  set (p := (size + 4095) / 4096) in *.
  pose proof (Z.div_mod (12 * p + 4095) 4096 ltac:(lia)). pose proof (Z.mod_pos_bound (12 * p + 4095) 4096 ltac:(lia)).
  set (q := (12 * p + 4095) / 4096) in *. ands; try lia.
  replace (4096 * q + 4096) with ((q + 1) * 4096) by lia. apply Z.mod_mul. lia.
Qed.

Lemma heap_room_facts base size : heap_room base size ->
  4096 <= size <= 0x500000 /\ base <= page_up base /\ page_up base mod 4096 = 0 /\
  page_up base + whole size <= ShMemAddrBase + ShMemSize /\ data_start size <= size.
Proof.
  intros [R1 R2 R4]. shm_facts. pose proof (whole_bounds size) as Hwb.
  pose proof (Z.div_mod (base + 4095) 4096 ltac:(lia)) as Hdm.
  pose proof (Z.mod_pos_bound (base + 4095) 4096 ltac:(lia)) as Hmb.
  assert (Hsz : 4096 <= size <= 0x500000).
  { unfold data_start, heap_pages in R4.
    pose proof (Z.div_mod (size + 4095) 4096 ltac:(lia)). pose proof (Z.mod_pos_bound (size + 4095) 4096 ltac:(lia)).
    pose proof (Z.div_mod (12 * ((size + 4095) / 4096) + 4095) 4096 ltac:(lia)).
    pose proof (Z.mod_pos_bound (12 * ((size + 4095) / 4096) + 4095) 4096 ltac:(lia)). lia. }
  rewrite page_up_small by lia. ands; try done; try lia. rewrite Z.mul_comm. apply Z.mod_mul. lia.
Qed.

Lemma Trid_SMM_Init_wp base size w :
  heap_room base size -> tgid_ok w -> lock_is (mm w) 1 None -> table_clear (mm w) (page_up base) ->
  wp (Trid_SMM_Init base size) (fun r w' => r = 0 /\ exists m', w' = set_mm w m' /\
    bump_heap m' (page_up base) (heap_pages size) size (data_start size) /\
    lock_is m' 1 None /\
    (forall x, ~ (spin_entry 1 <= x < spin_entry 1 + 12) ->
       ~ (ShMemAddrBase + 0x4D00 <= x < ShMemAddrBase + 0x4D08) ->
       ~ (page_up base <= x < page_up base + 4096) -> ld8 m' x = ld8 (mm w) x)) w.
Proof.
  intros Hr Ht Hl (C0 & C1 & C2). shm_facts. pose proof (spin_entry_at 1 ltac:(lia)) as (Q1 & Q2 & Q3).
  destruct (heap_room_facts base size Hr) as (Hsz & Hh & Hmod & Hhr & R4).
  destruct (data_start_facts size Hsz) as (D1 & D2 & D3 & D4).
  pose proof (proj1 (whole_le size _ D1) R4) as Hdw. pose proof (hr_lo _ _ Hr) as R1.
  unfold Trid_SMM_Init. set (heap := page_up base) in *. clearbody heap.
  assert (Hpc : Z.shiftr (u32 (size + 4095)) 12 = heap_pages size).
  { rewrite u32_small, Z.shiftr_div_pow2 by lia. done. }
  rewrite Hpc. set (pc := heap_pages size) in *.
  assert (Hds : u32 (page_up (u32 (12 * pc)) + 4096) = data_start size).
  { rewrite (u32_small (12 * pc)), page_up_small by lia. apply u32_small.
    change (4096 * ((12 * pc + 4095) / 4096) + 4096) with (data_start size). lia. }
  cbv zeta. rewrite Hds. rewrite !hword_at by lia. rewrite (u32_small (heap + 4096)) by lia.
  apply wp_SpinLock; [lia | done | done |]. intros m1 L1 O1. wsimp.
  apply wp_memset_abs; [lia|]. intros m2 O2 Z2. change (Z.of_nat (Z.to_nat 4096)) with 4096 in *.
  do 8 wp_step. match goal with |- wp _ _ (set_mm w ?m) => set (m3 := m) end.
  assert (O3 : forall x, ~ (heap <= x < heap + 4096) -> ~ (ShMemAddrBase + 0x4D00 <= x < ShMemAddrBase + 0x4D08) ->
    ld8 m3 x = ld8 m1 x).
  { intros x Hx1 Hx2. unfold m3. rewrite !ld8_st_out by lia. rewrite O2 by (wsimp; lia). done. }
  apply (wp_SpinUnLock 1 _ _ _ (cur_tgid w)); [lia | |].
  { wsimp. apply (lock_is_same m1); [lia | | done]. intros x Hx. apply O3; lia. }
  intros m4 L4 O4. wsimp. wp_step. split; [done|]. exists m4. rewrite mm_set_mm in O4. ands; [done | | done |].
  - assert (E4 : forall a, 0 <= a -> a + 4 <= data_start size -> ld32 m4 (heap + a) = ld32 m3 (heap + a))
      by (intros a Ha1 Ha2; apply (ld_same_out _ _ _ _ _ _ O4); lia).
    assert (Hin : in_shm (heap + 4096) /\ in_shm heap) by (unfold in_shm; lia). destruct Hin as [Hi1 Hi2].
    pose proof (vir2phy_shm _ Hi1) as V1. pose proof (vir2phy_shm _ Hi2) as V2.
    assert (W : ld32 m3 heap = vir2phy (heap + 4096) /\ ld32 m3 (heap + 4) = vir2phy (heap + 4096) /\
      ld32 m3 (heap + 8) = pc /\ ld32 m3 (heap + 12) = 0 /\ ld32 m3 (heap + 180) = data_start size /\
      ld32 m3 (heap + 184) = size /\ ld32 m3 (heap + 188) = vir2phy heap).
    { unfold m3. replace (heap + 4 * 0) with heap by lia. change (4 * 1) with 4. change (4 * 2) with 8.
      change (4 * 45) with 180. change (4 * 46) with 184. change (4 * 47) with 188.
      memsimp. rewrite !u32_small by lia. ands; try done. repeat rewrite ld_st_ne by lia. apply Z2; lia. }
    destruct W as (W0 & W1 & W2 & W3 & W45 & W46 & W47). pose proof (E4 0) as E40. rewrite Z.add_0_r in E40.
    split; try done; try lia; rewrite ?E40, ?E4 by lia; try done.
    rewrite !(ld_same 4 m1 m3) by (intros; apply O3; lia).
    rewrite !(ld_same_out _ _ _ _ _ _ O1) by lia. done.
  - intros x Hx1 Hx2 Hx3. rewrite O4, O3, O1 by lia. done.
Qed.
End HeapInit.

(** ** Requests outside the range *)

Section Odd.
Context {S : Shm} {OK : ShmOk S} {K : Kernel}.

Lemma take_sentinel_wp heap pc cap brk w : bump_heap (mm w) heap pc cap brk ->
  wp (take_pages heap (heap + 4096) 0 0) (fun r _ => r = heap) w.
Proof.
  intros H. destruct (heap_facts _ _ _ _ _ H) as (F1 & F2 & F3 & F4 & F5 & F6 & F7).
  destruct (bh_nil _ _ _ _ _ H) as (N0 & N1 & N2).
  assert (Ep : pte (heap + 4096) 0 = heap + 4096) by (unfold pte; rewrite u32_small; lia).
  unfold take_pages. rewrite Ep, !hword_at by lia. replace (heap + 4 * 0) with heap by lia. wp_step. wp_step.
  rewrite N0, (bh_0 _ _ _ _ _ H), F6. change (0 <=? 0) with true. cbv iota.
  replace (heap + 4096 + 8) with (heap + 4104) by lia. replace (heap + 4096 + 4) with (heap + 4100) by lia.
  replace (u32 (heap + 4096 + (0 - 1) * 4096)) with heap by (rewrite u32_small; lia).
  do 3 wp_step. rewrite N1. wp_step. rewrite N2, Ep. replace (heap + 4096 + 8) with (heap + 4104) by lia.
  do 4 wp_step. rewrite ld32_st32_eq. change (u32 0) with 0. rewrite Ep. by repeat wp_step.
Qed.

(** [size + 4095] wraps: no page is needed, and the entry of no page will do. *)
Lemma shmalloc_wrap_wp heap pc cap brk size w :
  bump_heap (mm w) heap pc cap brk -> 2 ^ 32 - 4095 <= size < 2 ^ 32 ->
  wp (__shmalloc heap size) (fun r _ => r = heap) w.
Proof.
  intros H Hs. destruct (heap_facts _ _ _ _ _ H) as (F1 & F2 & F3 & F4 & F5 & F6 & F7).
  destruct (bh_nil _ _ _ _ _ H) as (N0 & N1 & N2). pose proof (bh_at _ _ _ _ _ H). shm_facts.
  assert (Ep : pte (heap + 4096) 0 = heap + 4096) by (unfold pte; rewrite u32_small; lia).
  unfold __shmalloc. rewrite eqb_neq_false by lia. rewrite hword_at by lia. wp_step. change (4 * 1) with 4.
  rewrite (bh_1 _ _ _ _ _ H), F6. cbv zeta. rewrite leb_false, ltb_true by lia. unfold shmalloc_large.
  assert (Hw : Z.shiftr (u32 (size + 4095)) 12 = 0).
  { unfold u32. replace (size + 4095) with (size + 4095 - 2 ^ 32 + 1 * 2 ^ 32) by lia.
    rewrite Z.mod_add, Z.mod_small, Z.shiftr_div_pow2 by lia. apply Z.div_small. lia. }
  rewrite Hw. rewrite (hword_at heap 3) by lia. wp_step. change (4 * 3) with 12. rewrite (bh_3 _ _ _ _ _ H).
  eapply (wp_call _ _ (fun r _ => r = Some heap)); [|intros r w' ->; by wp_step].
  apply (wp_loop (fun _ s w' => s = 0 /\ w' = w) _ _ _ 0); [unfold smm_fuel; lia | done |].
  intros k s w' [-> ->]. eapply (wp_call _ _ (fun r w' => r = Some 0 /\ w' = w)).
  { apply (wp_loop (fun _ s w' => s = 0 /\ w' = w) _ _ _ 0); [unfold smm_fuel; lia | done |].
    intros k' s w' [-> ->]. rewrite Ep. wp_step. rewrite N0. change (0 <=? 0) with true. cbv iota. by wp_step. }
  intros r w' [-> ->]. eapply wp_call; [by apply (take_sentinel_wp heap pc cap brk)|].
  intros r w' ->. by wp_step.
Qed.

Lemma class_loop_log fuel v i : 0 <= v -> v < 2 ^ Z.of_nat fuel ->
  class_loop fuel v i = i + (if v =? 0 then 0 else Z.log2 v + 1).
Proof.
  revert v i. induction fuel as [|k IH]; intros v i Hv Hf; simpl.
  { assert (v = 0) as -> by (simpl in Hf; lia). simpl. lia. }
  destruct (Z.eqb_spec v 0) as [|Hn]; [lia|]. rewrite Nat2Z.inj_succ, Z.pow_succ_r in Hf by lia.
  rewrite Z.shiftr_div_pow2 by lia. change (2 ^ 1) with 2.
  rewrite IH by (first [apply Z.div_pos; lia | apply Z.div_lt_upper_bound; lia]).
  destruct (Z.eqb_spec (v / 2) 0) as [E|E].
  - assert (v = 1) as ->; [|simpl; lia]. pose proof (Z.div_mod v 2 ltac:(lia)).
    pose proof (Z.mod_pos_bound v 2 ltac:(lia)). lia.
  - assert (1 <= v / 2) by (pose proof (Z.div_pos v 2); lia).
    assert (1 <= Z.log2 v).
    { apply Z.log2_le_pow2; [lia|]. pose proof (Z.div_mod v 2 ltac:(lia)).
      pose proof (Z.mod_pos_bound v 2 ltac:(lia)). lia. }
    assert (El : Z.log2 (v / 2) = Z.log2 v - 1).
    { change 2 with (2 ^ 1) at 1. rewrite <- Z.shiftr_div_pow2, Z.log2_shiftr by lia. lia. }
    lia.
Qed.

Lemma size_class_bounds size : 8 <= size <= 2048 ->
  4 <= size_class size <= 12 /\ 2 ^ size_class size < 4 * size /\ 2 * size <= 2 ^ size_class size.
Proof.
  intros H. unfold size_class. rewrite class_loop_log by lia. rewrite eqb_neq_false by lia.
  pose proof (Z.log2_spec (size - 1) ltac:(lia)) as [H1 H2].
  assert (2 <= Z.log2 (size - 1)) by (apply Z.log2_le_pow2; lia).
  assert (Z.log2 (size - 1) <= 10) by (apply Z.lt_succ_r, Z.log2_lt_pow2; lia).
  replace (1 + (Z.log2 (size - 1) + 1)) with (Z.succ (Z.succ (Z.log2 (size - 1)))) by lia.
  rewrite Z.pow_succ_r by lia. rewrite Z.pow_succ_r in * by lia. lia.
Qed.

(** Class 12: the head of its free list is the word of the allocation counter. *)
Lemma shmalloc_2k_wp heap pc cap brk size w :
  bump_heap (mm w) heap pc cap brk -> 1024 < size <= 2048 ->
  ShMemAddr <= ShMemAddrBase -> 0 < ld32 (mm w) (hword heap 41) <= ShMemAddr ->
  wp (__shmalloc heap size) (fun r w' => r = 0 /\ w' = w) w.
Proof.
  intros H Hs Ha Hn. destruct (heap_facts _ _ _ _ _ H) as (F1 & F2 & F3 & F4 & F5 & F6 & F7).
  pose proof (bh_at _ _ _ _ _ H) as Hat. shm_facts.
  assert (Hc : size_class size = 12).
  { unfold size_class. rewrite class_loop_log by lia. rewrite eqb_neq_false by lia.
    pose proof (Z.log2_spec (size - 1) ltac:(lia)) as [H1 H2].
    assert (10 <= Z.log2 (size - 1)) by (apply Z.log2_le_pow2; lia).
    assert (Z.log2 (size - 1) < 11) by (apply Z.log2_lt_pow2; lia). lia. }
  unfold __shmalloc. rewrite eqb_neq_false by lia. rewrite (hword_at heap 1) by lia. wp_step. change (4 * 1) with 4.
  rewrite (bh_1 _ _ _ _ _ H), F6. cbv zeta. rewrite leb_false, ltb_false by lia.
  unfold shmalloc_small. rewrite Hc. unfold free_head. change (2 * 12 + 17) with 41.
  assert (4096 <= hword heap 41) by (rewrite hword_at; lia). cbv zeta. wp_step.
  set (n := ld32 (mm w) (hword heap 41)) in *. rewrite (eqb_neq_false n 0) by lia.
  assert (Ev : phy2vir n = n + ShMemAddrBase - ShMemAddr) by (unfold phy2vir; apply u32_small; lia).
  rewrite Ev, (eqb_neq_false (n + _ - _) 0) by lia. cbn [negb]. unfold take_block. rewrite !hword_at by lia.
  change (4 * 47) with 188. change (4 * 46) with 184. wp_step. wp_step.
  rewrite (bh_47 _ _ _ _ _ H), (bh_46 _ _ _ _ _ H). cbv zeta.
  assert (Eh : smm_phy2vir (vir2phy heap) = heap).
  { pose proof (proj1 (whole_le cap brk (proj1 (bh_brk _ _ _ _ _ H))) ltac:(lia)).
    assert (in_shm heap) by (unfold in_shm; lia). unfold smm_phy2vir.
    rewrite eqb_neq_false by (by apply vir2phy_nonzero). by apply phy2vir_vir2phy. }
  rewrite Eh. unfold out_of_heap. rewrite leb_true by lia. cbn [orb]. by wp_step.
Qed.
End Odd.

(** A region with the locks set up and nothing else: what a boot starts from. *)
Definition smm_base : Z := ShMemAddrBase + SHMEM_OFF_SMM_HEAP.
Definition smm_size : Z := ShMemSize - 1 - SHMEM_OFF_SMM_HEAP.

Lemma locks_world_room : heap_room smm_base smm_size /\ tgid_ok locks_world /\
  lock_is (mm locks_world) 1 None /\ table_clear (mm locks_world) (page_up smm_base).
Proof.
  ands; [split; vm_compute; congruence | vm_compute; split; [split|]; congruence | | by vm_compute].
  apply locks_world_free. simpl. tauto.
Qed.

(** ** Properties *)

(** C31: Large requests never overlap, on a heap whose page table starts out with an all-zero first
    entry.  [Trid_SMM_Init] does not clear the page table behind the header page, so this is a condition
    on the memory it is given, which the driver meets only when nothing used that memory before (the
    selective wipe of [cpu_comm_init] is compiled out).  Then, after [Trid_SMM_Init] of a heap that
    fits into the region, a sequence of [__shmalloc] requests of 2049 bytes to 1 GB returns, each with
    the block the bump specification gives it: the blocks lie between the page table and the end of
    the region, each begins after the end of every earlier one, and a request fails exactly when its
    pages no longer fit. *)
Theorem large_blocks_disjoint {S : Shm} {OK : ShmOk S} {K : Kernel} {HQ : Quiet K} base size sizes w :
  heap_room base size -> tgid_ok w -> lock_is (mm w) 1 None -> table_clear (mm w) (page_up base) ->
  Forall large sizes ->
  let heap := page_up base in
  exists l w', (Trid_SMM_Init base size ;; run_allocs heap sizes) w = Ret l w' /\
    l = fst (bumps heap size (data_start size) sizes) /\
    (forall i a s, l !! i = Some a -> sizes !! i = Some s -> a <> 0 ->
       heap + data_start size <= a /\ a + s <= heap + whole size <= ShMemAddrBase + ShMemSize) /\
    (forall i j a b s, (i < j)%nat -> l !! i = Some a -> l !! j = Some b -> sizes !! i = Some s ->
       a <> 0 -> b <> 0 -> a + s <= b).
Proof.
  intros Hr Ht Hl Hz Hall heap.
  destruct (wp_run _ _ _ (Trid_SMM_Init_wp base size w Hr Ht Hl Hz)) as (r & w1 & E1 & -> & m1 & -> & H1 & _).
  destruct (wp_run _ _ _ (run_allocs_wp _ _ _ sizes _ (set_mm w m1) H1 Hall)) as (l & w2 & E2 & -> & _).
  exists (fst (bumps heap size (data_start size) sizes)), w2. unfold mbind, M_bind. rewrite E1.
  destruct (heap_facts _ _ _ _ _ H1) as (F1 & _ & F3 & _). fold heap in F1.
  rewrite (bumps_whole heap size) in * by apply (bh_brk _ _ _ _ _ H1).
  destruct (bumps_sound heap (whole size) sizes (data_start size) ltac:(lia) ltac:(lia) Hall) as (_ & B1 & B2).
  pose proof (bh_at _ _ _ _ _ H1) as [_ Hend]. fold heap in Hend.
  ands; [exact E2 | done | | exact B2]. intros i a s Ha Hs Hn. destruct (B1 i a s Ha Hs Hn). lia.
Qed.

Lemma large_blocks_disjoint_witness : exists w',
  (Trid_SMM_Init smm_base smm_size ;; run_allocs (page_up smm_base) [4096; 0x300000; 5000; 0x300000]) locks_world
  = Ret [0xF1032000; 0xF1033000; 0xF1333000; 0] w'.
Proof.
  destruct locks_world_room as (H1 & H2 & H3 & H4).
  destruct (large_blocks_disjoint smm_base smm_size [4096; 0x300000; 5000; 0x300000] locks_world H1 H2 H3 H4)
    as (l & w' & E & -> & _).
  - repeat constructor; vm_compute; congruence.
  - exists w'. exact E.
Defined.

(** The heap that [Trid_SMM_Init] records at +0x4D00 is not where [smmMalloc] looks (+19696): when
    nothing else wrote that word, every [Trid_SMM_Malloc] after the initialisation returns 0. *)
Theorem malloc_finds_no_heap {S : Shm} {OK : ShmOk S} {K : Kernel} {HQ : Quiet K} base size n w :
  heap_room base size -> tgid_ok w -> lock_is (mm w) 1 None -> table_clear (mm w) (page_up base) ->
  ld64 (mm w) (ShMemAddrBase + 19696) = 0 ->
  exists w', (Trid_SMM_Init base size ;; Trid_SMM_Malloc n) w = Ret 0 w'.
Proof.
  intros Hr Ht Hl Hz H0. shm_facts. pose proof (spin_entry_at 1 ltac:(lia)) as (Q1 & Q2 & Q3).
  destruct (wp_run _ _ _ (Trid_SMM_Init_wp base size w Hr Ht Hl Hz)) as (r & w1 & E1 & -> & m1 & -> & H1 & L1 & O1).
  assert (Hd : ld64 m1 (ShMemAddrBase + 19696) = 0).
  { rewrite (ld_same 8 (mm w)); [done|]. intros x Hx. pose proof (bh_at _ _ _ _ _ H1).
    pose proof (hr_lo _ _ Hr). destruct (heap_room_facts base size Hr) as (_ & ? & _).
    apply O1; lia. }
  assert (Hw : wp (Trid_SMM_Malloc n) (fun r _ => r = 0) (set_mm w m1)).
  { unfold Trid_SMM_Malloc, smmMalloc, smm_slot. change (0 <? 0) with false. change (1 <? 0) with false. cbv iota.
    apply wp_SpinLock; [lia | done | done |]. intros m2 L2 O2.
    replace (ShMemAddrBase + 72 * 0 + 19696) with (ShMemAddrBase + 19696) by lia. wsimp. wp_step.
    rewrite (ld_same_out _ _ _ _ _ _ O2), mm_set_mm, Hd by lia. change (negb (0 =? 0)) with false. cbv iota. wp_step.
    apply (wp_SpinUnLock 1 _ _ _ (cur_tgid w)); [lia | done |]. intros m3 L3 O3. by wp_step. }
  destruct (wp_run _ _ _ Hw) as (r & w2 & E2 & ->). exists w2. unfold mbind, M_bind. by rewrite E1.
Qed.

Lemma malloc_finds_no_heap_witness : exists w',
  (Trid_SMM_Init smm_base smm_size ;; Trid_SMM_Malloc 4096) locks_world = Ret 0 w'.
Proof.
  destruct locks_world_room as (H1 & H2 & H3 & H4).
  apply (malloc_finds_no_heap smm_base smm_size 4096 locks_world H1 H2 H3 H4). vm_compute. reflexivity.
Defined.

(** A request within 4095 bytes of 2^32 is rounded up to zero pages and succeeds: [__shmalloc] hands
    out the address of the heap's own header. *)
Theorem wrapping_request_returns_header {S : Shm} {OK : ShmOk S} {K : Kernel} heap pc cap brk size w :
  bump_heap (mm w) heap pc cap brk -> 2 ^ 32 - 4095 <= size < 2 ^ 32 ->
  exists w', __shmalloc heap size w = Ret heap w'.
Proof.
  intros H Hs. destruct (wp_run _ _ _ (shmalloc_wrap_wp heap pc cap brk size w H Hs)) as (r & w' & E & ->).
  by exists w'.
Qed.

(** A small request of [size] bytes gets a block of at least twice and less than four times its
    size (the class is one more than the logarithm), and requests of 1025 to 2048 bytes, whose free
    list head is the word that counts allocations, all fail once anything has been allocated. *)
Theorem small_request_classes {S : Shm} {OK : ShmOk S} {K : Kernel} heap pc cap brk size w :
  bump_heap (mm w) heap pc cap brk -> 8 <= size <= 2048 ->
  (4 <= size_class size <= 12 /\ 2 * size <= 2 ^ size_class size < 4 * size) /\
  (1024 < size -> ShMemAddr <= ShMemAddrBase -> 0 < ld32 (mm w) (hword heap 41) <= ShMemAddr ->
   __shmalloc heap size w = Ret 0 w).
Proof.
  intros H Hs. destruct (size_class_bounds size Hs) as (B1 & B2 & B3). split; [lia|]. intros Hk Ha Hn.
  destruct (wp_run _ _ _ (shmalloc_2k_wp heap pc cap brk size w H ltac:(lia) Ha Hn)) as (r & w' & E & -> & ->).
  exact E.
Qed.

(** The heap of [locks_world] after its initialisation and one large allocation. *)
Definition used_world : world := after (Trid_SMM_Init smm_base smm_size ;; __shmalloc (page_up smm_base) 4096) locks_world.

Lemma used_world_heap : bump_heap (mm used_world) (page_up smm_base) (heap_pages smm_size) smm_size
    (data_start smm_size + 4096) /\ ld32 (mm used_world) (hword (page_up smm_base) 41) = 1.
Proof.
  split; [|by vm_compute]. destruct locks_world_room as (H1 & H2 & H3 & H4).
  destruct (wp_run _ _ _ (Trid_SMM_Init_wp smm_base smm_size locks_world H1 H2 H3 H4))
    as (r & w1 & E1 & -> & m1 & -> & B1 & _).
  assert (Hl : large 4096) by (split; lia).
  destruct (wp_run _ _ _ (shmalloc_wp _ _ _ _ 4096 (set_mm locks_world m1) B1 Hl))
    as (r & w2 & E2 & -> & m2 & -> & B2 & _).
  unfold used_world, after, mbind, M_bind. rewrite E1, E2. wsimp.
  replace (data_start smm_size + 4096) with (snd (bump (page_up smm_base) smm_size (data_start smm_size) 4096))
    by (by vm_compute). exact B2.
Qed.

Lemma wrapping_request_returns_header_witness : exists w',
  __shmalloc (page_up smm_base) 0xFFFFFFFF used_world = Ret (page_up smm_base) w'.
Proof.
  destruct used_world_heap as [H _].
  apply (wrapping_request_returns_header _ _ _ _ 0xFFFFFFFF used_world H). split; vm_compute; congruence.
Defined.

Lemma small_request_classes_witness :
  __shmalloc (page_up smm_base) 1500 used_world = Ret 0 used_world.
Proof.
  destruct used_world_heap as [H Hn].
  apply (proj2 (small_request_classes _ _ _ _ 1500 used_world H ltac:(lia))).
  - lia.
  - vm_compute. congruence.
  - rewrite Hn. split; vm_compute; congruence.
Defined.

(** A run with the descriptor that [smmMalloc] and [Trid_SMM_Free] read filled in: two pages of
    128-byte requests, three small blocks [a], [b], [c], [a] freed, one page requested. *)
Definition reuse_run : M (list Z) :=
  Trid_SMM_Init smm_base smm_size ;;
  wr64 (smm_slot 0) (vir2phy (page_up smm_base)) ;;
  wr32 (ShMemAddrBase + 19704) 0x400000 ;;
  for_ 17 0 (fun _ => Trid_SMM_Malloc 128 ;; mret tt) ;;
  a ← Trid_SMM_Malloc 8;
  b ← Trid_SMM_Malloc 8;
  c ← Trid_SMM_Malloc 8;
  st ← Trid_SMM_Free a;
  d ← Trid_SMM_Malloc 4096;
  mret [a; b; c; st; d].

(** A page can be handed out while blocks of it are in use.  [__shmalloc] counts a small block
    against the page after its own, so [Trid_SMM_Free] takes the first block of a page to be the last
    one in use: in this run blocks [b] and [c] are in use, and lie in the page returned last. *)
Theorem page_released_while_in_use : exists a b c d w',
  reuse_run locks_world = Ret [a; b; c; 0; d] w' /\
  d <= b /\ b + 16 <= d + 4096 /\ d <= c /\ c + 16 <= d + 4096.
Proof.
  assert (E : match reuse_run locks_world with Ret l _ => l | Stop _ => [] end
    = [0x4E334000; 0x4E334FF0; 0x4E334FE0; 0; 0x4E334000]) by (vm_compute; reflexivity).
  destruct (reuse_run locks_world) as [l w'|r]; [|discriminate E].
  exists 0x4E334000, 0x4E334FF0, 0x4E334FE0, 0x4E334000, w'. rewrite E. split; [done | lia].
Qed.
