(* ===== verification/Routine.v ===== *)
(** The routine table in shared memory ([cpu_comm_rpc.c]): 1224 entries of 96
    bytes at +30152, 1024 hash buckets and 200 overflow entries, chained by the
    word at +92 of an entry (-1 ends a chain); a version and a count before it.

    A local buffer whose address the C code passes on is an argument here
    ([find_buf]).  [FindRoutineEx] returns its status and [*result]. *)
From S2P Require Import Prelude Mem Kernel Fifo Shm SpinLock Flags SeqMem DList Channel.

Definition RT_VERSION_OFF : Z := 30144.
Definition RT_COUNT_OFF : Z := 30148.
Definition RT_TABLE_OFF : Z := 30152.
Definition RT_ENTRY_SIZE : Z := 96.
Definition RT_COMP_ID_OFF : Z := 8.
Definition RT_CPU_OFF : Z := 2.
Definition RT_NEXT_OFF : Z := 92.
Definition RT_PRIMARY_SLOTS : Z := 1024.
Definition RT_OVERFLOW_START : Z := 1024.
Definition RT_MAX_INDEX : Z := 1223.

(** No chain of distinct entries is longer than the table. *)
Definition rt_fuel : nat := Z.to_nat 1300.

Section Routine.
Context {S : Shm} {K : Kernel}.

Definition rt_entry (idx : Z) : Z := ShMemAddrBase + RT_TABLE_OFF + RT_ENTRY_SIZE * idx.
Definition rt_comp_id (idx : Z) : M Z := rd32 (rt_entry idx + RT_COMP_ID_OFF).
Definition rt_next (idx : Z) : M Z := v ← rd32 (rt_entry idx + RT_NEXT_OFF); mret (s32 v).
Definition rt_set_next (idx next : Z) : M unit := wr32 (rt_entry idx + RT_NEXT_OFF) next.
Definition rt_version_ptr : Z := ShMemAddrBase + RT_VERSION_OFF.
Definition rt_count_ptr : Z := ShMemAddrBase + RT_COUNT_OFF.

(** [( *p)++] and [( *p)--] *)
Definition incr (p : Z) : M unit := v ← rd32 p; wr32 p (v + 1).
Definition decr (p : Z) : M unit := v ← rd32 p; wr32 p (v - 1).

(** [*(int * )rt_count_ptr() > RT_MAX_INDEX] *)
Definition rt_overfull : M bool := n ← rd32 rt_count_ptr; mret (RT_MAX_INDEX <? s32 n).

(** The part of [InitCommMem] that empties the table. *)
Definition init_routine_table : M unit :=
  wr32 rt_version_ptr 0 ;;
  wr32 rt_count_ptr 0 ;;
  for_ (Z.to_nat 1224) 0 (fun ri =>
    wr32 (ShMemAddrBase + RT_TABLE_OFF + 96 * ri + 8) 0 ;;
    wr32 (ShMemAddrBase + RT_TABLE_OFF + 96 * ri + 92) (-1)).

(** What a lookup copies of an entry into the caller's buffer. *)
Definition copy_found (entry msg_buf : Z) : M unit :=
  a ← rd16 entry; wr16 msg_buf a ;;
  c ← rd32 (entry + 8); wr32 (msg_buf + 8) c ;;
  b ← rd16 (entry + 2); wr16 (msg_buf + 2) b ;;
  p ← rd64 (entry + 80); wr64 (msg_buf + 80) p ;;
  f ← rd32 (entry + 4); wr32 (msg_buf + 4) f ;;
  memcpy (msg_buf + 12) (entry + 12) 64.

Definition FindRoutineEx (comp_search msg_buf : Z) : M (Z * Z) :=
  if (ShMemAddrBase =? 0) || (msg_buf =? 0) then mret (1, 0) else
  ok ← magic_set;
  if negb ok then mret (1, 0) else
  over ← rt_overfull;
  if (over : bool) then mret (1, 0) else
  loop rt_fuel (fun cur_idx =>
    if RT_MAX_INDEX <? cur_idx then mret (inr (1, 0)) else
    let entry := rt_entry cur_idx in
    comp ← rd32 (entry + RT_COMP_ID_OFF);
    if comp =? comp_search then
      copy_found entry msg_buf ;;
      mret (inr (0, entry + 12))
    else
      next ← rt_next cur_idx;
      mret (if next <? 0 then inr (1, 0) else inl next))
    (comp_search &. (RT_PRIMARY_SLOTS - 1)).

Definition FindRoutine (comp_search msg_buf : Z) : M Z :=
  r ← FindRoutineEx comp_search msg_buf; mret (fst r).

(** *** Registration *)

(** Copy a descriptor into entry [idx], ending its chain there. *)
Definition put_entry (idx data : Z) : M unit :=
  memcpy (rt_entry idx) data (Z.to_nat RT_ENTRY_SIZE) ;;
  rt_set_next idx (-1) ;;
  incr rt_count_ptr.

(** Walk a chain to an empty entry or past its end: last entry passed and
    position; [None] is the exit on a corrupt entry. *)
Definition chain_end (hash_idx : Z) : M (option (Z * Z)) :=
  loop rt_fuel (fun '((prev_idx, cur_idx) : Z * Z) =>
    comp ← rt_comp_id cur_idx;
    if comp =? 0 then mret (inr (Some (prev_idx, cur_idx))) else
    cpu ← rd16 (rt_entry cur_idx + RT_CPU_OFF);
    if 1 <? cpu then mret (inr None) else
    next ← rt_next cur_idx;
    if next <? 0 then mret (inr (Some (cur_idx, next))) else
    if RT_MAX_INDEX <? next then mret (inr None) else
    mret (inl (cur_idx, next))) (-1, hash_idx).

(** Take the first free overflow entry and link it behind [prev_idx]: 0, the
    error of a free entry that is linked, or -2 when none is free. *)
Definition put_overflow (prev_idx data : Z) : M Z :=
  r ← for_exit 200 RT_OVERFLOW_START (fun overflow_idx =>
    comp ← rt_comp_id overflow_idx;
    if comp =? 0 then
      next ← rt_next overflow_idx;
      if negb (next =? -1) then mret (Some (- EINVAL)) else
      memcpy (rt_entry overflow_idx) data (Z.to_nat RT_ENTRY_SIZE) ;;
      rt_set_next overflow_idx (-1) ;;
      (if 0 <=? prev_idx then rt_set_next prev_idx overflow_idx else mret tt) ;;
      incr rt_count_ptr ;;
      mret (Some 0)
    else mret None);
  mret (default (-2) r).

(** The insertion, under spinlock 2: the status, and whether the version is
    advanced a second time on the way out. *)
Definition rt_insert (comp_id data : Z) : M (Z * bool) :=
  let hash_idx := comp_id &. (RT_PRIMARY_SLOTS - 1) in
  comp ← rt_comp_id hash_idx;
  free ← (if comp =? 0 then next ← rt_next hash_idx; mret (next =? -1) else mret false);
  if (free : bool) then put_entry hash_idx data ;; mret (0, true) else
  e ← chain_end hash_idx;
  match e with
  | None => mret (- EINVAL, false)
  | Some (prev_idx, cur_idx) =>
      is_free ← (if 0 <=? cur_idx then next ← rt_next cur_idx; mret (next =? -1) else mret false);
      if (is_free : bool) then put_entry cur_idx data ;; mret (0, true) else
      r ← put_overflow prev_idx data;
      mret (r, negb (r =? - EINVAL))
  end.

Definition AddInRoutine (find_buf data : Z) : M Z :=
  if (ShMemAddrBase =? 0) || (data =? 0) then mret (- EINVAL) else
  ok ← magic_set;
  if negb ok then mret (- EINVAL) else
  comp_id ← rd32 (data + RT_COMP_ID_OFF);
  over ← rt_overfull;
  if (over : bool) then mret (- EINVAL) else
  found ← FindRoutineEx comp_id find_buf;
  if fst found =? 0 then mret 0 else
  comm_SpinLock 2 ;;
  incr rt_version_ptr ;;
  r ← rt_insert comp_id data;
  (if (snd r : bool) then incr rt_version_ptr else mret tt) ;;
  comm_SpinUnLock 2 ;;
  mret (fst r).

(** *** Removal *)

(** The chain walk of [RemoveRoutine]: [Ok] the entry, or how it ends. *)
Inductive rt_walk : Set := AtEntry (idx : Z) | Absent | BadLink.

Definition chain_find (comp_id : Z) : M rt_walk :=
  loop rt_fuel (fun cur_idx =>
    comp ← rt_comp_id cur_idx;
    if comp =? comp_id then mret (inr (AtEntry cur_idx)) else
    next ← rt_next cur_idx;
    if next <? 0 then mret (inr Absent) else
    if RT_MAX_INDEX <? next then mret (inr BadLink) else
    mret (inl next)) (comp_id &. (RT_PRIMARY_SLOTS - 1)).

Definition rt_unlock (result : Z) : M Z :=
  incr rt_version_ptr ;; comm_SpinUnLock 2 ;; mret result.

(** Clear an entry; the next one of its chain moves into its place. *)
Definition rt_clear (cur_idx : Z) : M unit :=
  wr32 (rt_entry cur_idx + RT_COMP_ID_OFF) 0 ;;
  next_idx ← rt_next cur_idx;
  (if (0 <=? next_idx) && (next_idx <=? RT_MAX_INDEX) then
     memcpy (rt_entry cur_idx) (rt_entry next_idx) (Z.to_nat RT_ENTRY_SIZE) ;;
     after ← rt_next next_idx;
     rt_set_next cur_idx after ;;
     wr32 (rt_entry next_idx + RT_COMP_ID_OFF) 0 ;;
     rt_set_next next_idx (-1)
   else mret tt) ;;
  decr rt_count_ptr.

Definition RemoveRoutine (data : Z) : M Z :=
  if (ShMemAddrBase =? 0) || (data =? 0) then mret (- EINVAL) else
  ok ← magic_set;
  if negb ok then mret (- EINVAL) else
  comp_id ← rd32 (data + RT_COMP_ID_OFF);
  over ← rt_overfull;
  if (over : bool) then mret (- EINVAL) else
  comm_SpinLock 2 ;;
  incr rt_version_ptr ;;
  w ← chain_find comp_id;
  match w with
  | Absent => rt_unlock (-1)
  | BadLink => mret (- EFAULT)
  | AtEntry cur_idx =>
      let cur_entry := rt_entry cur_idx in
      cpu ← rd16 (cur_entry + RT_CPU_OFF);
      if 1 <? cpu then mret (- EFAULT) else
      rt_clear cur_idx ;;
      d0 ← rd16 data; e0 ← rd16 cur_entry;
      d4 ← rd32 (data + 4); e4 ← rd32 (cur_entry + 4);
      e2 ← rd16 (cur_entry + RT_CPU_OFF);
      rt_unlock (if (d0 =? e0) && (d4 =? e4) && (e2 =? getCurCPUID) then 0 else 1)
  end.

(** Clear every entry in use that [matches]. *)
Definition rt_sweep (matches : Z -> M bool) : M unit :=
  comm_SpinLock 2 ;;
  incr rt_version_ptr ;;
  for_ (Z.to_nat (RT_MAX_INDEX + 1)) 0 (fun i =>
    let entry := rt_entry i in
    comp ← rd32 (entry + RT_COMP_ID_OFF);
    if comp =? 0 then mret tt else
    hit ← matches entry;
    if (hit : bool) then
      wr32 (entry + RT_COMP_ID_OFF) 0 ;;
      decr rt_count_ptr
    else mret tt) ;;
  incr rt_version_ptr ;;
  comm_SpinUnLock 2.

Definition RemovePidRoutines (pid : Z) : M unit :=
  if ShMemAddrBase =? 0 then mret tt else
  rt_sweep (fun entry => p ← rd32 (entry + 28); mret (p =? u32 pid)).

Definition RoutineCleanupInCPUReset (cpu_id : Z) : M unit :=
  if ShMemAddrBase =? 0 then mret tt else
  rt_sweep (fun entry => c ← rd16 (entry + RT_CPU_OFF); mret (c =? cpu_id)).

Definition RoutineCleanupExpKernel (cpu_id : Z) : M unit := RoutineCleanupInCPUReset cpu_id.

(** *** Installing handlers *)

Definition channel_pool : Z := pcpu_comm_dev + 0x30.

Definition CPUComm_InstallRoutine (find_buf data : Z) : M Z :=
  if data =? 0 then mret (- EINVAL) else
  comp_id ← rd32 (data + 8);
  thread_id ← rd32 (data + 4);
  ret ← AddInRoutine find_buf data;
  if negb (ret =? 0) then mret (-1) else
  let channel_id := (comp_id &. 0xF) |. u32 (Z.shiftl thread_id 4) in
  q ← Comm_QueryChannel channel_pool channel_id;
  if snd q =? 0 then Comm_AddNewChannel channel_pool comp_id thread_id
  else mret ret.

Definition CPUComm_UnInstallRoutine (data : Z) : M Z :=
  if data =? 0 then mret (- EINVAL) else
  comp_id ← rd32 (data + 8);
  thread_id ← rd32 (data + 4);
  ret ← RemoveRoutine data;
  (if ret =? 0 then Comm_RemoveChannel channel_pool comp_id thread_id ;; mret tt else mret tt) ;;
  mret (if ret <? 0 then ret else 0).

(** [strncmp(a, name, 32) == 0]: equal up to the first NUL or 32 bytes. *)
Fixpoint str_same (n : nat) (m : mem) (a : Z) (name : list Z) : bool :=
  match n with
  | O => true
  | Datatypes.S k =>
      let c := hd 0 name in
      (ld8 m a =? c) && ((c =? 0) || str_same k m (a + 1) (tl name))
  end.

Definition Comm_Name2ID (name : list Z) : M Z :=
  if ShMemAddrBase =? 0 then mret (-1) else
  let pool := ShMemAddrBase + SHMEM_OFF_COMP_POOL in
  r ← for_exit (Z.to_nat 1224) 0 (fun i =>
    let entry := pool + 8 + i * 96 in
    comp_id ← rd32 (entry + 8);
    if comp_id =? 0 then mret None else
    eq ← gets (fun w => str_same 32 (mm w) (entry + 12) name);
    mret (if (eq : bool) then Some (s32 comp_id) else None));
  mret (default (-1) r).

Definition msgAddListener : M Z := mret 0.
Definition msgRemoveListener : M Z := mret 0.
Definition msgEventName2Index : M Z := mret (-1).
End Routine.
