(* ===== verification/RoutineTable.v ===== *)
(** The routine table as a map from component ids to descriptors: lookups find
    exactly what was registered. *)
From S2P Require Import Prelude Mem Kernel Fifo Shm SpinLock Flags SeqMem DList Channel Routine.

Section Table.
Context {S : Shm} {OK : ShmOk S}.

Definition comp_of (m : mem) (i : Z) : Z := ld32 m (rt_entry i + RT_COMP_ID_OFF).
Definition next_of (m : mem) (i : Z) : Z := s32 (ld32 m (rt_entry i + RT_NEXT_OFF)).
Definition cpu_of (m : mem) (i : Z) : Z := ld16 m (rt_entry i + RT_CPU_OFF).
Definition desc_of (m : mem) (i : Z) : list Z := bytes 92 m (rt_entry i).

(** A chain of entries in use. *)
Fixpoint linked (m : mem) (l : list Z) : Prop :=
  match l with
  | [] => True
  | [x] => next_of m x = -1
  | x :: (y :: _) as l' => next_of m x = y /\ linked m l'
  end.

Definition slot (i : Z) : Prop := 0 <= i <= RT_MAX_INDEX.
Definition bucket (b : Z) : Prop := 0 <= b < RT_PRIMARY_SLOTS.
Definition overflow (i : Z) : Prop := RT_OVERFLOW_START <= i <= RT_MAX_INDEX.
Definition hash (c : Z) : Z := c &. (RT_PRIMARY_SLOTS - 1).

Record entry_used (m : mem) (b i : Z) : Prop := EntryUsed {
  eu_slot : i = b \/ overflow i;
  eu_comp : comp_of m i <> 0;
  eu_hash : hash (comp_of m i) = b;
  eu_cpu : cpu_of m i <= 1;
}.

Definition entry_free (m : mem) (i : Z) : Prop := comp_of m i = 0 /\ next_of m i = -1.

(** [ch b]: the entries of bucket [b] in order; [T]: what is registered. *)
Record table (m : mem) (ch : Z -> list Z) (T : gmap Z (list Z)) : Prop := Table {
  tb_head : forall b, bucket b -> match ch b with [] => entry_free m b | x :: _ => x = b end;
  tb_used : forall b i, bucket b -> i ∈ ch b -> entry_used m b i;
  tb_linked : forall b, bucket b -> linked m (ch b);
  tb_nodup : forall b, bucket b -> NoDup (ch b);
  tb_apart : forall b b' i, bucket b -> bucket b' -> i ∈ ch b -> i ∈ ch b' -> b = b';
  tb_free : forall i, overflow i -> (forall b, bucket b -> i ∉ ch b) -> entry_free m i;
  tb_map : forall c d, T !! c = Some d <-> exists b i, bucket b /\ i ∈ ch b /\ comp_of m i = c /\ desc_of m i = d;
  tb_once : forall b b' i i', bucket b -> bucket b' -> i ∈ ch b -> i' ∈ ch b' ->
    comp_of m i = comp_of m i' -> i = i';
  tb_count : ld32 m rt_count_ptr = Z.of_nat (size T);
}.

Lemma rt_entry_at i : slot i ->
  rt_entry i = ShMemAddrBase + 30152 + 96 * i /\ ShMemAddrBase + 30152 <= rt_entry i /\
  rt_entry i + 96 <= ShMemAddrBase + 147656 /\ ShMemAddrBase + 147656 < 2 ^ 32.
Proof.
  unfold slot, RT_MAX_INDEX, rt_entry, RT_TABLE_OFF, RT_ENTRY_SIZE. shm_facts. lia.
Qed.

Lemma hash_bucket c : bucket (hash c).
Proof.
  unfold bucket, hash, RT_PRIMARY_SLOTS. change (1024 - 1) with (Z.ones 10).
  rewrite Z.land_ones by lia. pose proof (Z.mod_pos_bound c (2 ^ 10) ltac:(lia)). lia.
Qed.

Lemma used_slot m b i : bucket b -> entry_used m b i -> slot i.
Proof.
  unfold bucket, slot, RT_MAX_INDEX, RT_PRIMARY_SLOTS.
  intros Hb [[->|Ho] _ _ _]; [lia|]. unfold overflow, RT_OVERFLOW_START, RT_MAX_INDEX in Ho. lia.
Qed.

Lemma bucket_slot b : bucket b -> slot b.
Proof. unfold bucket, slot, RT_MAX_INDEX, RT_PRIMARY_SLOTS. lia. Qed.

Lemma overflow_slot i : overflow i -> slot i.
Proof. unfold overflow, slot, RT_OVERFLOW_START, RT_MAX_INDEX. lia. Qed.

(** The fields of an entry are those of its bytes. *)
Lemma entry_same m m' i : slot i ->
  (forall x, rt_entry i <= x < rt_entry i + 96 -> ld8 m' x = ld8 m x) ->
  comp_of m' i = comp_of m i /\ next_of m' i = next_of m i /\ cpu_of m' i = cpu_of m i /\
  desc_of m' i = desc_of m i.
Proof.
  intros Hi H. unfold comp_of, next_of, cpu_of, desc_of, RT_COMP_ID_OFF, RT_NEXT_OFF, RT_CPU_OFF.
  rewrite !(ld_same _ m m'), (bytes_same 92 m m') by (intros; apply H; lia). done.
Qed.

(** The table depends on the entries and the count alone. *)
Lemma table_same m m' ch T :
  (forall x, ShMemAddrBase + 30148 <= x < ShMemAddrBase + 147656 -> ld8 m' x = ld8 m x) ->
  table m ch T -> table m' ch T.
Proof.
  intros Ho H. assert (He : forall i, slot i -> comp_of m' i = comp_of m i /\ next_of m' i = next_of m i /\
    cpu_of m' i = cpu_of m i /\ desc_of m' i = desc_of m i).
  { intros i Hi. destruct (rt_entry_at i Hi) as (E & _ & E2 & _). pose proof Hi as Hi'.
    unfold slot in Hi'. apply entry_same; [done|]. intros x Hx. apply Ho. lia. }
  assert (Hsl : forall b i, bucket b -> i ∈ ch b -> slot i)
    by (intros b i Hb Hi; eapply used_slot; [exact Hb | by apply (tb_used _ _ _ H)]).
  assert (Hlk : forall l, (forall i, i ∈ l -> slot i) -> linked m l -> linked m' l).
  { induction l as [|x [|y l] IH]; intros Hs Hl; simpl in *; [done | |].
    - by rewrite (proj1 (proj2 (He x ltac:(apply Hs; set_solver)))).
    - rewrite (proj1 (proj2 (He x ltac:(apply Hs; set_solver)))). split; [apply Hl | apply IH; [|apply Hl]].
      intros i Hi. apply Hs. set_solver. }
  destruct H as [H1 H2 H3 H4 H5 H6 H7 H8 H9]. split; try done.
  - intros b Hb. specialize (H1 b Hb). destruct (ch b); [|done]. unfold entry_free in *.
    destruct (He b (bucket_slot b Hb)) as (-> & -> & _). done.
  - intros b i Hb Hi. destruct (He i (Hsl b i Hb Hi)) as (E1 & E2 & E3 & E4).
    destruct (H2 b i Hb Hi). split; congruence.
  - intros b Hb. apply Hlk; [intros i Hi; by apply (Hsl b) | by apply H3].
  - intros i Hi Hn. unfold entry_free. destruct (He i (overflow_slot i Hi)) as (-> & -> & _). by apply H6.
  - intros c d. rewrite H7. split; intros (b & i & Hb & Hi & Hc & Hd); exists b, i;
      destruct (He i (Hsl b i Hb Hi)) as (E1 & E2 & E3 & E4); ands; congruence.
  - intros b b' i i' Hb Hb' Hi Hi'. rewrite (proj1 (He i (Hsl b i Hb Hi))), (proj1 (He i' (Hsl b' i' Hb' Hi'))).
    by apply (H8 b b').
  - rewrite (ld_same 4 m m'); [done|]. intros x Hx. unfold rt_count_ptr, RT_COUNT_OFF in Hx. apply Ho. lia.
Qed.

(** A chain is shorter than the fuel. *)
Lemma chain_short m ch T b : table m ch T -> bucket b -> (length (ch b) <= 1224)%nat.
Proof.
  intros H Hb.
  transitivity (length (seqZ 0 1224)); [|rewrite length_seqZ; lia].
  apply submseteq_length, NoDup_submseteq; [by apply (tb_nodup _ _ _ H)|].
  intros i Hi. pose proof (used_slot _ _ _ Hb (tb_used _ _ _ H b i Hb Hi)) as Hs.
  unfold slot, RT_MAX_INDEX in Hs. apply elem_of_seqZ. lia.
Qed.

(** A key is found in its own bucket. *)
Lemma table_key m ch T c d : table m ch T -> T !! c = Some d ->
  exists i, i ∈ ch (hash c) /\ comp_of m i = c /\ desc_of m i = d.
Proof.
  intros H Hc. apply (tb_map _ _ _ H) in Hc as (b & i & Hb & Hi & E1 & E2). exists i.
  pose proof (eu_hash _ _ _ (tb_used _ _ _ H b i Hb Hi)) as Eh. rewrite E1 in Eh. by subst b.
Qed.

(** ** Lookup *)

(** The bytes of an entry that a lookup copies. *)
Definition copied (x : Z) : bool := (x <? 76) || ((80 <=? x) && (x <? 88)).

Lemma copy_found_wp entry buf w :
  4096 <= entry -> 4096 <= buf -> buf + 96 <= entry \/ entry + 96 <= buf ->
  wp (copy_found entry buf) (fun _ w' => exists m', w' = set_mm w m' /\
    same_out buf 96 (mm w) m' /\
    forall x, 0 <= x < 96 -> ld8 m' (buf + x) = ld8 (mm w) ((if copied x then entry else buf) + x)) w.
Proof.
  intros He Hb Hd. unfold copy_found.
  repeat (wp_step; rewrite ?(ld_st_ne 2), ?(ld_st_ne 4), ?(ld_st_ne 8) by lia).
  unfold wp, memcpy. rewrite !ltb_false by lia. cbn [orb]. wsimp.
  rewrite !st_ld. eexists. split; [done|]. split.
  { intros x Hx. memsimp. done. }
  intros x Hx. unfold copied.
  assert (Hs : 0 <= x < 2 \/ 2 <= x < 4 \/ 4 <= x < 8 \/ 8 <= x < 12 \/ 12 <= x < 76 \/
    76 <= x < 80 \/ 80 <= x < 88 \/ 88 <= x) by lia.
  repeat match goal with H : _ \/ _ |- _ => destruct H end; zcmp;
    repeat first [ rewrite ld8_wrbytes_out by (rewrite bytes_length; lia)
                 | rewrite ld8_copy by lia ]; memsimp; f_equal; lia.
Qed.


Definition head_idx (l : list Z) : Z := match l with [] => -1 | y :: _ => y end.

Lemma linked_next m l1 x l2 : linked m (l1 ++ x :: l2) -> next_of m x = head_idx l2.
Proof.
  induction l1 as [|y [|z l1] IH]; simpl.
  - by destruct l2 as [|z l2]; [|intros []].
  - intros [_ H]. by destruct l2 as [|z l2]; [|destruct H].
  - intros [_ H]. by apply IH.
Qed.

(** What a lookup needs: the region initialised, a table, and a buffer outside. *)
Record lookup_ok (w : world) (ch : Z -> list Z) (T : gmap Z (list Z)) (c buf : Z) : Prop := LookupOk {
  lo_table : table (mm w) ch T;
  lo_magic : magic_ok (mm w);
  lo_count : Z.of_nat (size T) <= RT_MAX_INDEX;
  lo_key : c <> 0;
  lo_buf : 4096 <= buf /\ (buf + 96 <= ShMemAddrBase \/ ShMemAddrBase + ShMemSize <= buf);
}.

Definition find_result (m m' : mem) (T : gmap Z (list Z)) (c buf r : Z) : Prop :=
  match T !! c with
  | Some d => r = 0 /\ same_out buf 96 m m' /\
      forall x, 0 <= x < 92 ->
        ld8 m' (buf + x) = if copied x then d !!! Z.to_nat x else ld8 m (buf + x)
  | None => r = 1 /\ m' = m
  end.

Lemma find_hit w ch T c buf i : lookup_ok w ch T c buf -> i ∈ ch (hash c) -> comp_of (mm w) i = c ->
  wp (copy_found (rt_entry i) buf ;; mret (inr (0, rt_entry i + 12)))
     (fun (r : Z + (Z * Z)) w' => exists m' p, w' = set_mm w m' /\ r = inr (0, p) /\ find_result (mm w) m' T c buf 0) w.
Proof.
  intros [H _ _ _ [Hb Hd]] Hi Hc. pose proof (hash_bucket c) as Hh.
  pose proof (tb_used _ _ _ H _ _ Hh Hi) as Hu. pose proof (used_slot _ _ _ Hh Hu) as Hs.
  destruct (rt_entry_at i Hs) as (_ & E1 & E2 & E3). shm_facts.
  eapply wp_call; [apply copy_found_wp; lia|]. intros [] w' (m' & -> & Ho & Hx). wp_step.
  exists m', (rt_entry i + 12). ands; try done. unfold find_result.
  assert (T !! c = Some (desc_of (mm w) i)) as ->.
  { apply (tb_map _ _ _ H). by exists (hash c), i. }
  ands; try done. intros x Hx'. rewrite Hx by lia. destruct (copied x); [|done].
  apply symmetry, list_lookup_total_correct. unfold desc_of. rewrite bytes_lookup by lia.
  do 2 f_equal. lia.
Qed.

Lemma not_registered m ch T c : table m ch T ->
  (forall i, i ∈ ch (hash c) -> comp_of m i <> c) -> T !! c = None.
Proof.
  intros H Hn. destruct (T !! c) as [d|] eqn:E; [|done].
  destruct (table_key _ _ _ _ _ H E) as (i & Hi & Hc & _). by destruct (Hn i Hi).
Qed.

(** An entry is read in range. *)
Lemma wp_next i {B} (k : Z -> M B) Q w : slot i ->
  wp (k (next_of (mm w) i)) Q w -> wp (rt_next i ≫= k) Q w.
Proof.
  intros Hi H. destruct (rt_entry_at i Hi) as (_ & E & _). shm_facts. unfold rt_next. wp_step.
  unfold RT_NEXT_OFF at 1. wp_go. exact H.
Qed.

Lemma wp_comp i {B} (k : Z -> M B) Q w : slot i ->
  wp (k (comp_of (mm w) i)) Q w -> wp (rt_comp_id i ≫= k) Q w.
Proof.
  intros Hi H. destruct (rt_entry_at i Hi) as (_ & E & _). shm_facts. unfold rt_comp_id.
  apply wp_rd; [unfold RT_COMP_ID_OFF; lia | exact H].
Qed.

Lemma wp_magic_set {B} (k : bool -> M B) Q w :
  magic_ok (mm w) -> wp (k true) Q w -> wp (magic_set ≫= k) Q w.
Proof.
  intros [H1 H2] H. shm_facts. unfold magic_set, SHMEM_OFF_MAGIC1, SHMEM_OFF_MAGIC2 in *.
  wp_step. wp_step. rewrite H1. change (CPU_COMM_MAGIC =? CPU_COMM_MAGIC) with true. cbn [negb].
  wp_step. wp_step. wp_step. by rewrite H2.
Qed.

Lemma wp_overfull {B} (k : bool -> M B) Q w ch T :
  table (mm w) ch T -> Z.of_nat (size T) <= RT_MAX_INDEX ->
  wp (k false) Q w -> wp (rt_overfull ≫= k) Q w.
Proof.
  intros H Hn HQ. shm_facts. unfold rt_overfull. wp_step.
  apply wp_rd; [unfold rt_count_ptr, RT_COUNT_OFF; lia|]. wp_step.
  rewrite (tb_count _ _ _ H), s32_small by (unfold RT_MAX_INDEX in *; lia).
  by rewrite ltb_false by done.
Qed.

Lemma FindRoutineEx_wp w ch T c buf : lookup_ok w ch T c buf ->
  wp (FindRoutineEx c buf)
     (fun r w' => exists m', w' = set_mm w m' /\ find_result (mm w) m' T c buf (fst r)) w.
Proof.
  intros HL. pose proof HL as [H Hm Hn Hc [Hb Hd]]. pose proof (hash_bucket c) as Hh. shm_facts.
  unfold FindRoutineEx. rewrite (eqb_neq_false ShMemAddrBase), (eqb_neq_false buf) by lia. cbn [orb].
  apply wp_magic_set; [done|]. cbn [negb]. apply (wp_overfull _ _ _ _ _ H Hn). cbn iota. fold (hash c).
  assert (Hsl : forall i, i ∈ ch (hash c) -> slot i)
    by (intros i Hi; eapply used_slot; [exact Hh | by apply (tb_used _ _ _ H)]).
  set (I := fun (k : nat) s w' => w' = w /\ ((k = 0%nat /\ ch (hash c) = [] /\ s = hash c) \/
    exists l1 l2, ch (hash c) = l1 ++ s :: l2 /\ k = length l2 /\
      forall i, i ∈ l1 -> comp_of (mm w) i <> c)).
  pose proof (chain_short _ _ _ _ H Hh) as Hsh.
  pose proof (tb_head _ _ _ H _ Hh) as Hhd.
  apply (wp_loop I _ _ rt_fuel (length (ch (hash c)) - 1) _ w).
  { unfold rt_fuel. lia. }
  { split; [done|]. destruct (ch (hash c)) as [|x l]; [left; done|]. right.
    exists [], l. subst x. ands; [done | simpl; lia | set_solver]. }
  intros k s w' [-> HI]. assert (Hs : slot s).
  { destruct HI as [(_ & _ & ->)|(l1 & l2 & E & _)]; [by apply bucket_slot | apply Hsl; rewrite E; set_solver]. }
  destruct (rt_entry_at s Hs) as (_ & E1 & _). unfold slot in Hs. rewrite ltb_false by lia.
  apply wp_rd; [unfold RT_COMP_ID_OFF; lia|]. change (ld32 (mm w) _) with (comp_of (mm w) s).
  destruct (Z.eqb_spec (comp_of (mm w) s) c) as [Ec|Ec].
  - destruct HI as [(_ & E & ->)|(l1 & l2 & E & _ & _)].
    { rewrite E in Hhd. destruct Hhd. congruence. }
    eapply wp_mono; [apply (find_hit w ch T c buf s HL); [rewrite E; set_solver | done]|].
    intros r w' (m' & p & -> & -> & HR). by exists m'.
  - apply wp_next; [done|]. wp_step. destruct HI as [(_ & E & ->)|(l1 & l2 & E & -> & Hl)].
    + rewrite E in Hhd. destruct Hhd as [_ ->]. cbn. exists (mm w). rewrite set_mm_id.
      split; [done|]. unfold find_result. rewrite (not_registered _ _ _ _ H); [done|]. rewrite E. set_solver.
    + pose proof (tb_linked _ _ _ H _ Hh) as Hlk. rewrite E in Hlk. rewrite (linked_next _ _ _ _ Hlk).
      destruct l2 as [|y l2]; simpl head_idx.
      * cbn. exists (mm w). rewrite set_mm_id. split; [done|]. unfold find_result.
        rewrite (not_registered _ _ _ _ H); [done|]. rewrite E. set_solver.
      * assert (Hy : slot y) by (apply Hsl; rewrite E; set_solver). unfold slot in Hy.
        rewrite ltb_false by lia. exists (length l2). split; [simpl; lia|]. split; [done|]. right.
        exists (l1 ++ [s]), l2. ands; [by rewrite E, <- app_assoc | done | set_solver].
Qed.


(** ** Registration *)

(** [m'] holds one more entry [i], with key [c] and descriptor [d], behind the chain [l]. *)
Record inserted (m m' : mem) (l : list Z) (i c : Z) (d : list Z) : Prop := Inserted {
  in_entry : comp_of m' i = c /\ next_of m' i = -1 /\ cpu_of m' i <= 1 /\ desc_of m' i = d;
  in_other : forall j, slot j -> j <> i -> comp_of m' j = comp_of m j /\ cpu_of m' j = cpu_of m j /\
    desc_of m' j = desc_of m j;
  in_next : forall j, slot j -> j <> i -> last l <> Some j -> next_of m' j = next_of m j;
  in_last : forall j, last l = Some j -> next_of m' j = i;
  in_count : ld32 m' rt_count_ptr = ld32 m rt_count_ptr + 1;
}.

Definition grow (ch : Z -> list Z) (b i : Z) : Z -> list Z := fun x => if x =? b then ch b ++ [i] else ch x.

Lemma elem_grow ch b i b' j : j ∈ grow ch b i b' <-> j ∈ ch b' \/ b' = b /\ j = i.
Proof.
  unfold grow. destruct (Z.eqb_spec b' b) as [->|Hne]; [|naive_solver].
  rewrite elem_of_app, list_elem_of_singleton. naive_solver.
Qed.

Lemma linked_grow m m' l i : linked m l -> NoDup l -> next_of m' i = -1 ->
  (forall j, j ∈ l -> last l <> Some j -> next_of m' j = next_of m j) ->
  (forall j, last l = Some j -> next_of m' j = i) -> linked m' (l ++ [i]).
Proof.
  intros Hl Hd Hi Hj Hlast. induction l as [|x [|y l] IH]; simpl in *; [done | |].
  - split; [by apply Hlast | done].
  - destruct Hl as [Hx Hl]. apply NoDup_cons in Hd as [Hnx Hd]. split.
    + rewrite Hj; [done | set_solver |]. intros E. apply Hnx. by apply last_Some_elem_of in E.
    + apply IH; [done | done | |done]. intros j Hj'. apply Hj. set_solver.
Qed.

Lemma linked_same m m' l : (forall j, j ∈ l -> next_of m' j = next_of m j) -> linked m l -> linked m' l.
Proof.
  intros H. induction l as [|x [|y l] IH]; simpl; [done | |].
  - by rewrite H by set_solver.
  - rewrite H by set_solver. intros [Hx Hl]. split; [done|]. apply IH; [|done]. intros j Hj. apply H. set_solver.
Qed.

Section Insert.
Variables (m m' : mem) (ch : Z -> list Z) (T : gmap Z (list Z)) (i c : Z) (d : list Z).
Let b := hash c.
Hypotheses (H : table m ch T) (Hins : inserted m m' (ch b) i c d) (Hc : c <> 0) (HT : T !! c = None).
Hypothesis (Hi : match ch b with [] => i = b | _ => overflow i end).
Hypothesis (Hnew : forall b', bucket b' -> i ∉ ch b').

Lemma ins_bucket : bucket b.
Proof. apply hash_bucket. Qed.

Lemma ins_in b' j : bucket b' -> j ∈ ch b' -> slot j /\ j <> i.
Proof.
  intros Hb' Hj. split; [|intros ->; by apply (Hnew b')].
  eapply used_slot; [exact Hb' | by apply (tb_used _ _ _ H)].
Qed.

(** A bucket other than [b] is neither the new entry nor the end of the chain. *)
Lemma ins_away b' : bucket b' -> b' <> b -> b' <> i /\ last (ch b) <> Some b'.
Proof.
  intros Hb' Hne. split.
  - intros ->. destruct (ch b); [done|]. unfold overflow, bucket, RT_OVERFLOW_START, RT_PRIMARY_SLOTS in *. lia.
  - intros E. apply last_Some_elem_of in E.
    destruct (eu_slot _ _ _ (tb_used _ _ _ H b b' ins_bucket E)) as [->|Ho]; [done|].
    unfold overflow, bucket, RT_OVERFLOW_START, RT_PRIMARY_SLOTS in *. lia.
Qed.

Lemma ins_links b' : bucket b' -> linked m' (grow ch b i b').
Proof.
  intros Hb'. destruct Hins as [(_ & E2 & _) H2 H3 H4 _]. pose proof (tb_linked _ _ _ H b' Hb') as Hl.
  unfold grow. destruct (Z.eqb_spec b' b) as [->|Hne].
  - apply (linked_grow m); [done | by apply (tb_nodup _ _ _ H) | done | | done].
    intros j Hj Hn. destruct (ins_in b j Hb' Hj). by apply H3.
  - eapply linked_same; [|exact Hl]. intros j Hj. destruct (ins_in b' j Hb' Hj). apply H3; [done..|].
    intros E. apply last_Some_elem_of in E. apply Hne. by apply (tb_apart _ _ _ H b' b j Hb' ins_bucket).
Qed.

Lemma ins_used b' j : bucket b' -> j ∈ grow ch b i b' -> entry_used m' b' j.
Proof.
  intros Hb' Hj. apply elem_grow in Hj as [Hj|[-> ->]].
  - destruct (ins_in b' j Hb' Hj) as [Hs Hne]. destruct (in_other _ _ _ _ _ _ Hins j Hs Hne) as (E1 & E2 & _).
    destruct (tb_used _ _ _ H b' j Hb' Hj). split; congruence.
  - destruct (in_entry _ _ _ _ _ _ Hins) as (E1 & _ & E3 & _). split; rewrite ?E1; try done.
    destruct (ch b); [by left | by right].
Qed.

Lemma ins_map c' d' : <[c:=d]> T !! c' = Some d' <->
  exists b' j, bucket b' /\ j ∈ grow ch b i b' /\ comp_of m' j = c' /\ desc_of m' j = d'.
Proof.
  destruct (in_entry _ _ _ _ _ _ Hins) as (E1 & _ & _ & E4). split.
  - rewrite lookup_insert_Some. intros [[<- <-]|[Hne HT']].
    + exists b, i. ands; try done; [exact ins_bucket|]. apply elem_grow. by right.
    + apply (tb_map _ _ _ H) in HT' as (b' & j & Hb' & Hj & Ec & Ed). exists b', j.
      destruct (ins_in b' j Hb' Hj) as [Hs Hn]. destruct (in_other _ _ _ _ _ _ Hins j Hs Hn) as (F1 & _ & F3).
      ands; try done; [apply elem_grow; by left | congruence | congruence].
  - intros (b' & j & Hb' & Hj & Ec & Ed). apply elem_grow in Hj as [Hj|[-> ->]].
    + destruct (ins_in b' j Hb' Hj) as [Hs Hn]. destruct (in_other _ _ _ _ _ _ Hins j Hs Hn) as (F1 & _ & F3).
      assert (T !! c' = Some d') as HT' by (apply (tb_map _ _ _ H); exists b', j; ands; congruence).
      rewrite lookup_insert_ne; [done|]. intros ->. congruence.
    + rewrite E1 in Ec. subst c'. rewrite lookup_insert_eq. congruence.
Qed.

Lemma ins_once b1 b2 j1 j2 : bucket b1 -> bucket b2 -> j1 ∈ grow ch b i b1 -> j2 ∈ grow ch b i b2 ->
  comp_of m' j1 = comp_of m' j2 -> j1 = j2.
Proof.
  assert (Hold : forall b' j, bucket b' -> j ∈ ch b' -> comp_of m' j = comp_of m j /\ comp_of m j <> c).
  { intros b' j Hb' Hj. destruct (ins_in b' j Hb' Hj) as [Hs Hn].
    destruct (in_other _ _ _ _ _ _ Hins j Hs Hn) as (F1 & _ & _). split; [done|]. intros E.
    assert (T !! c = Some (desc_of m j)) by (apply (tb_map _ _ _ H); by exists b', j). congruence. }
  destruct (in_entry _ _ _ _ _ _ Hins) as (E1 & _).
  intros Hb1 Hb2 Hj1 Hj2 E. apply elem_grow in Hj1 as [Hj1|[-> ->]], Hj2 as [Hj2|[-> ->]]; [| | |done].
  - destruct (Hold b1 j1 Hb1 Hj1) as [F1 _], (Hold b2 j2 Hb2 Hj2) as [F2 _].
    apply (tb_once _ _ _ H b1 b2); congruence.
  - destruct (Hold b1 j1 Hb1 Hj1). congruence.
  - destruct (Hold b2 j2 Hb2 Hj2). congruence.
Qed.

Lemma table_insert : table m' (grow ch b i) (<[c:=d]> T).
Proof.
  pose proof ins_bucket as Hb. split.
  - intros b' Hb'. pose proof (tb_head _ _ _ H b' Hb') as Hh. unfold grow. destruct (Z.eqb_spec b' b) as [->|Hne].
    { destruct (ch b); simpl; [done | exact Hh]. }
    destruct (ch b'); [|done]. destruct (ins_away b' Hb' Hne) as [Hn1 Hn2], Hh as [H1 H2].
    pose proof (bucket_slot b' Hb') as Hs. destruct (in_other _ _ _ _ _ _ Hins b' Hs Hn1) as (E1 & _).
    split; [congruence | rewrite (in_next _ _ _ _ _ _ Hins); done].
  - exact ins_used.
  - exact ins_links.
  - intros b' Hb'. unfold grow. destruct (Z.eqb_spec b' b) as [->|]; [|by apply (tb_nodup _ _ _ H)].
    apply NoDup_app. ands; [by apply (tb_nodup _ _ _ H) | | apply NoDup_singleton].
    intros j Hj. rewrite list_elem_of_singleton. intros ->. by apply (Hnew b).
  - intros b1 b2 j Hb1 Hb2 Hj1 Hj2. apply elem_grow in Hj1 as [Hj1|[-> ->]], Hj2 as [Hj2|[-> ?]]; subst; try done.
    + by apply (tb_apart _ _ _ H b1 b2 j).
    + by destruct (Hnew b1 Hb1).
    + by destruct (Hnew b2 Hb2).
  - intros j Hj Hn. assert (Hn' : forall b', bucket b' -> j ∉ ch b').
    { intros b' Hb' Hj'. apply (Hn b' Hb'). apply elem_grow. by left. }
    assert (j <> i) as Hne by (intros ->; apply (Hn b Hb), elem_grow; by right).
    pose proof (overflow_slot j Hj) as Hs. destruct (tb_free _ _ _ H j Hj Hn') as [E1 E2].
    destruct (in_other _ _ _ _ _ _ Hins j Hs Hne) as (F1 & _). split; [congruence|].
    rewrite (in_next _ _ _ _ _ _ Hins); [done..|]. intros E. apply last_Some_elem_of in E. by apply (Hn' b).
  - exact ins_map.
  - exact ins_once.
  - rewrite (in_count _ _ _ _ _ _ Hins), (tb_count _ _ _ H), map_size_insert_None by done. lia.
Qed.
End Insert.


(** The stores of an insertion, [p] being the entry linked to the new one. *)
Definition put_mem (m : mem) (i data : Z) (p : option Z) : mem :=
  let m1 := wrbytes m (rt_entry i) (bytes 96 m data) in
  let m2 := st32 m1 (rt_entry i + RT_NEXT_OFF) (-1) in
  let m3 := match p with Some p => st32 m2 (rt_entry p + RT_NEXT_OFF) i | None => m2 end in
  st32 m3 rt_count_ptr (ld32 m3 rt_count_ptr + 1).

Definition outside (a n : Z) : Prop :=
  4096 <= a /\ (a + n <= ShMemAddrBase \/ ShMemAddrBase + ShMemSize <= a).

Lemma entries_apart i j : i <> j -> rt_entry i + 96 <= rt_entry j \/ rt_entry j + 96 <= rt_entry i.
Proof. unfold rt_entry, RT_ENTRY_SIZE. lia. Qed.

Lemma put_mem_out m i data p : slot i -> (forall j, p = Some j -> slot j) ->
  same_out (ShMemAddrBase + 30148) 117508 m (put_mem m i data p).
Proof.
  intros Hi Hp x Hx. destruct (rt_entry_at i Hi) as (E & E1 & E2 & _).
  unfold put_mem, rt_count_ptr, RT_COUNT_OFF, RT_NEXT_OFF. destruct p as [j|]; memsimp.
  - destruct (rt_entry_at j (Hp j eq_refl)) as (F & F1 & F2 & _). memsimp. done.
  - done.
Qed.


Section PutMem.
Variables (m : mem) (i data : Z) (l : list Z).
Hypotheses (Hi : slot i) (Hd : outside data 96) (Hp : forall j, last l = Some j -> slot j /\ j <> i).
Let m' := put_mem m i data (last l).

(** Where the stores go. *)
Ltac put_facts :=
  destruct (rt_entry_at i Hi) as (_ & ? & ? & ?); pose proof Hd as [? ?];
  unfold m', put_mem, rt_count_ptr, RT_COUNT_OFF, RT_NEXT_OFF; shm_facts;
  destruct (last l) as [k|] eqn:?;
  [ destruct (Hp k eq_refl) as [? ?]; destruct (rt_entry_at k ltac:(done)) as (_ & ? & ? & _);
    pose proof (entries_apart i k ltac:(done)) | ].

Lemma put_copied x : 0 <= x < 92 -> ld8 m' (rt_entry i + x) = ld8 m (data + x).
Proof. intros Hx. put_facts; memsimp; rewrite ld8_copy by lia; f_equal; lia. Qed.

Lemma put_end : next_of m' i = -1.
Proof. unfold next_of. put_facts; memsimp; done. Qed.

Lemma put_kept j x : slot j -> j <> i -> 0 <= x < 92 -> ld8 m' (rt_entry j + x) = ld8 m (rt_entry j + x).
Proof.
  intros Hj Hne Hx. destruct (rt_entry_at j Hj) as (_ & F1 & F2 & _).
  pose proof (entries_apart i j ltac:(done)) as Ha. put_facts; [|memsimp; done].
  destruct (decide (j = k)) as [->|Hjk]; [memsimp; done|].
  pose proof (entries_apart j k Hjk). memsimp. done.
Qed.

Lemma put_links j : slot j -> j <> i ->
  next_of m' j = if decide (last l = Some j) then i else next_of m j.
Proof.
  intros Hj Hne. destruct (rt_entry_at j Hj) as (_ & F1 & F2 & _).
  pose proof (entries_apart i j ltac:(done)) as Ha. pose proof Hi as Hi'. unfold slot, RT_MAX_INDEX in Hi'.
  unfold next_of. put_facts; [|memsimp; by rewrite decide_False by done].
  destruct (decide (j = k)) as [->|Hjk].
  - rewrite decide_True by done. memsimp. change (s32 (u32 i) = i). rewrite u32_small, s32_small by lia. done.
  - rewrite decide_False by congruence. pose proof (entries_apart j k Hjk). memsimp. done.
Qed.

Lemma put_count : ld32 m rt_count_ptr < 2 ^ 31 -> ld32 m' rt_count_ptr = ld32 m rt_count_ptr + 1.
Proof.
  intros Hc. pose proof (ld32_range m rt_count_ptr) as R. unfold rt_count_ptr, RT_COUNT_OFF in *.
  put_facts; memsimp; u32s; done.
Qed.

Lemma put_mem_inserted : ld16 m (data + RT_CPU_OFF) <= 1 -> ld32 m rt_count_ptr < 2 ^ 31 ->
  inserted m m' l i (ld32 m (data + RT_COMP_ID_OFF)) (bytes 92 m data).
Proof.
  intros Hcpu Hc. assert (Hf : forall k o, 0 <= o -> o + Z.of_nat k <= 92 ->
    ld k m' (rt_entry i + o) = ld k m (data + o)).
  { intros k o Ho Hk. apply ld_move. intros x Hx. rewrite <- !Z.add_assoc. apply put_copied. lia. }
  assert (Hg : forall j k o, slot j -> j <> i -> 0 <= o -> o + Z.of_nat k <= 92 ->
    ld k m' (rt_entry j + o) = ld k m (rt_entry j + o)).
  { intros j k o Hj Hne Ho Hk. apply ld_move. intros x Hx. rewrite <- !Z.add_assoc. apply put_kept; [done..|lia]. }
  split.
  - ands; [by apply Hf | exact put_end | unfold cpu_of; by rewrite Hf | apply bytes_move; exact put_copied].
  - intros j Hj Hne. ands; [by apply Hg | by apply Hg |]. apply bytes_move. intros x Hx. by apply put_kept.
  - intros j Hj Hne Hn. by rewrite put_links, decide_False by done.
  - intros j Hj. destruct (Hp j Hj). by rewrite put_links, decide_True by done.
  - by apply put_count.
Qed.
End PutMem.


(** *** The insertion *)

Lemma wp_set_next i v {B} (k : unit -> M B) Q w : slot i ->
  wp (k tt) Q (set_mm w (st32 (mm w) (rt_entry i + RT_NEXT_OFF) v)) -> wp (rt_set_next i v ≫= k) Q w.
Proof.
  intros Hi H. destruct (rt_entry_at i Hi) as (_ & E & _). shm_facts. unfold rt_set_next.
  apply wp_wr; [unfold RT_NEXT_OFF; lia | exact H].
Qed.

Lemma wp_incr_count {B} (k : unit -> M B) Q w :
  wp (k tt) Q (set_mm w (st32 (mm w) rt_count_ptr (ld32 (mm w) rt_count_ptr + 1))) ->
  wp (incr rt_count_ptr ≫= k) Q w.
Proof.
  intros H. shm_facts. unfold incr. wp_step.
  assert (4096 <= rt_count_ptr) by (unfold rt_count_ptr, RT_COUNT_OFF; lia).
  apply wp_rd; [done|]. by apply wp_wr.
Qed.

Lemma wp_copy_entry i data {B} (k : unit -> M B) Q w : slot i -> outside data 96 ->
  wp (k tt) Q (set_mm w (wrbytes (mm w) (rt_entry i) (bytes 96 (mm w) data))) ->
  wp (memcpy (rt_entry i) data (Z.to_nat RT_ENTRY_SIZE) ≫= k) Q w.
Proof.
  intros Hi [Hd _] H. destruct (rt_entry_at i Hi) as (_ & E & _). shm_facts.
  apply wp_memcpy; [lia | lia | exact H].
Qed.

Lemma wp_put_entry i data {B} (k : unit -> M B) Q w : slot i -> outside data 96 ->
  wp (k tt) Q (set_mm w (put_mem (mm w) i data None)) -> wp (put_entry i data ≫= k) Q w.
Proof.
  intros Hi Hd H. unfold put_entry. wp_step. apply wp_copy_entry; [done..|].
  wp_step. apply wp_set_next; [done|]. apply wp_incr_count. wsimp. exact H.
Qed.

(** The walk of a chain in use ends behind its last entry. *)
Lemma chain_end_wp w ch T c x l : table (mm w) ch T -> ch (hash c) = x :: l ->
  wp (chain_end (hash c))
     (fun r w' => w' = w /\ exists p, last (ch (hash c)) = Some p /\ r = Some (p, -1)) w.
Proof.
  intros H E. pose proof (hash_bucket c) as Hh. pose proof (tb_head _ _ _ H _ Hh) as Hhd.
  rewrite E in Hhd. subst x. pose proof (chain_short _ _ _ _ H Hh) as Hsh.
  assert (Hu : forall i, i ∈ ch (hash c) -> entry_used (mm w) (hash c) i) by (intros; by apply (tb_used _ _ _ H)).
  set (I := fun (k : nat) (s : Z * Z) w' => w' = w /\ exists l1 l2, ch (hash c) = l1 ++ snd s :: l2 /\ k = length l2).
  unfold chain_end. apply (wp_loop I _ _ rt_fuel (length l) _ w).
  { rewrite E in Hsh. simpl in Hsh. unfold rt_fuel. lia. }
  { split; [done|]. by exists [], l. }
  intros k [p s] w' [-> (l1 & l2 & El & ->)]. simpl in El.
  assert (Hus : entry_used (mm w) (hash c) s) by (apply Hu; rewrite El; set_solver).
  pose proof (used_slot _ _ _ Hh Hus) as Hs. destruct (rt_entry_at s Hs) as (_ & E1 & _). shm_facts.
  apply wp_comp; [done|]. rewrite (eqb_neq_false (comp_of _ _) 0) by apply (eu_comp _ _ _ Hus).
  apply wp_rd; [unfold RT_CPU_OFF; lia|]. rewrite ltb_false by apply (eu_cpu _ _ _ Hus).
  apply wp_next; [done|]. pose proof (tb_linked _ _ _ H _ Hh) as Hlk. rewrite El in Hlk.
  rewrite (linked_next _ _ _ _ Hlk). destruct l2 as [|y l2]; simpl head_idx.
  - cbn. split; [done|]. exists s. by rewrite El, list.last_snoc.
  - assert (Hy : slot y) by (eapply used_slot; [exact Hh | apply Hu; rewrite El; set_solver]).
    unfold slot in Hy. rewrite !ltb_false by lia. apply wp_ret. exists (length l2). split; [simpl; lia|].
    split; [done|]. exists (l1 ++ [s]), l2. split; [by rewrite El, <- app_assoc | done].
Qed.

Definition overflow_full (m : mem) : Prop := forall i, overflow i -> comp_of m i <> 0.

(** An overflow entry is free exactly when no chain has it. *)
Lemma overflow_free m ch T i : table m ch T -> overflow i -> comp_of m i = 0 ->
  next_of m i = -1 /\ forall b, bucket b -> i ∉ ch b.
Proof.
  intros H Hi Hc. assert (Hn : forall b, bucket b -> i ∉ ch b).
  { intros b Hb Hin. by destruct (eu_comp _ _ _ (tb_used _ _ _ H b i Hb Hin)). }
  split; [|done]. by apply (tb_free _ _ _ H).
Qed.

Lemma put_overflow_wp w ch T p data : table (mm w) ch T -> slot p -> outside data 96 ->
  wp (put_overflow p data)
     (fun r w' => (r = -2 /\ w' = w /\ overflow_full (mm w)) \/
        exists i, r = 0 /\ overflow i /\ comp_of (mm w) i = 0 /\
          w' = set_mm w (put_mem (mm w) i data (Some p))) w.
Proof.
  intros H Hp Hd. unfold put_overflow.
  set (Q0 := fun (r : option Z) w' => (r = None /\ w' = w /\ overflow_full (mm w)) \/
    exists i, r = Some 0 /\ overflow i /\ comp_of (mm w) i = 0 /\ w' = set_mm w (put_mem (mm w) i data (Some p))).
  apply (wp_call _ _ Q0).
  2: { intros r w' [(-> & -> & Hf)|(i & -> & HR)]; apply wp_ret; [by left | right; by exists i]. }
  apply (wp_for_exit _ _ _ (fun j w' => w' = w /\ forall i, overflow i -> i < j -> comp_of (mm w) i <> 0)).
  - split; [done|]. unfold overflow. lia.
  - intros j w' Hj [-> Hn]. assert (Hov : overflow j) by (unfold overflow, RT_OVERFLOW_START, RT_MAX_INDEX in *; lia).
    pose proof (overflow_slot j Hov) as Hs. apply wp_comp; [done|]. destruct (Z.eqb_spec (comp_of (mm w) j) 0) as [E|E].
    + destruct (overflow_free _ _ _ _ H Hov E) as [En _]. apply wp_next; [done|].
      rewrite En, Z.eqb_refl. cbn [negb]. apply wp_copy_entry; [done..|]. apply wp_set_next; [done|].
      rewrite leb_true by (unfold slot in Hp; lia). apply wp_set_next; [done|]. apply wp_incr_count.
      wsimp. apply wp_ret. right. by exists j.
    + apply wp_ret. split; [done|]. intros i Hi Hlt. destruct (decide (i = j)) as [->|]; [done|]. apply Hn; [done|lia].
  - intros w' [-> Hn]. left. ands; try done. intros i Hi. apply Hn; [done|].
    unfold overflow, RT_OVERFLOW_START, RT_MAX_INDEX in *. lia.
Qed.


(** A descriptor that may be registered: outside the region, with a key and a CPU. *)
Record desc_ok (m : mem) (data c : Z) (d : list Z) : Prop := DescOk {
  do_out : outside data 96;
  do_comp : ld32 m (data + RT_COMP_ID_OFF) = c;
  do_key : c <> 0;
  do_cpu : ld16 m (data + RT_CPU_OFF) <= 1;
  do_bytes : bytes 92 m data = d;
}.

Definition table_mem (m m' : mem) : Prop := same_out (ShMemAddrBase + 30148) 117508 m m'.

Definition insert_post (w : world) (ch : Z -> list Z) (T : gmap Z (list Z)) (c : Z) (d : list Z)
    (r : Z * bool) (w' : world) : Prop := snd r = true /\ exists m' ch', w' = set_mm w m' /\
  table_mem (mm w) m' /\
  ((fst r = 0 /\ table m' ch' (<[c:=d]> T)) \/
   (fst r = -2 /\ m' = mm w /\ ch' = ch /\ overflow_full (mm w))).

Lemma put_mem_table m ch T i data c d p : table m ch T -> desc_ok m data c d -> T !! c = None ->
  Z.of_nat (size T) <= RT_MAX_INDEX ->
  p = last (ch (hash c)) -> match ch (hash c) with [] => i = hash c | _ => overflow i end ->
  (forall b, bucket b -> i ∉ ch b) ->
  table (put_mem m i data p) (grow ch (hash c) i) (<[c:=d]> T) /\ table_mem m (put_mem m i data p).
Proof.
  intros H [Ho <- Hk Hcpu <-] HT Hn -> Hi Hnew. set (c := ld32 m (data + RT_COMP_ID_OFF)) in *.
  assert (Hs : slot i).
  { destruct (ch (hash c)); [subst i; apply bucket_slot, hash_bucket | by apply overflow_slot]. }
  assert (Hp : forall j, last (ch (hash c)) = Some j -> slot j /\ j <> i).
  { intros j Hj. apply last_Some_elem_of in Hj. by apply (ins_in m ch T i H Hnew (hash c) j (hash_bucket c)). }
  split; [|apply put_mem_out; [done | intros j Hj; by apply Hp]].
  eapply table_insert; [exact H | | done..]. apply put_mem_inserted; [done..|].
  rewrite (tb_count _ _ _ H). unfold RT_MAX_INDEX in Hn. lia.
Qed.

Lemma rt_insert_wp w ch T data c d : table (mm w) ch T -> desc_ok (mm w) data c d -> T !! c = None ->
  Z.of_nat (size T) <= RT_MAX_INDEX -> wp (rt_insert c data) (insert_post w ch T c d) w.
Proof.
  intros H HD HT Hn. pose proof (hash_bucket c) as Hh. pose proof (bucket_slot _ Hh) as Hs.
  pose proof (tb_head _ _ _ H _ Hh) as Hhd. pose proof HD as [Ho _ _ _ _].
  unfold rt_insert. fold (hash c). apply wp_comp; [done|]. destruct (ch (hash c)) as [|x l] eqn:E.
  - destruct Hhd as [H1 H2]. rewrite H1, Z.eqb_refl. cbn iota. wp_step. apply wp_next; [done|]. wp_step.
    rewrite H2, Z.eqb_refl. cbn iota. apply wp_put_entry; [done..|]. wp_step. split; [done|].
    destruct (put_mem_table (mm w) ch T (hash c) data c d None) as [Ht Hm]; rewrite ?E; try done.
    { intros b Hb Hin. apply (eu_comp _ _ _ (tb_used _ _ _ H b _ Hb Hin)). exact H1. }
    eexists _, _. split; [done|]. split; [exact Hm|]. by left.
  - subst x. assert (Hu : entry_used (mm w) (hash c) (hash c)) by (apply (tb_used _ _ _ H); [done | rewrite E; set_solver]).
    rewrite (eqb_neq_false (comp_of _ _) 0) by apply (eu_comp _ _ _ Hu). cbn iota. wp_step.
    eapply wp_call; [by eapply chain_end_wp|]. intros r w' (-> & p & Hp & ->). change (0 <=? -1) with false.
    cbn iota. wp_step. pose proof (last_Some_elem_of _ _ Hp) as Hpin.
    pose proof (used_slot _ _ _ Hh (tb_used _ _ _ H _ _ Hh Hpin)) as Hps.
    eapply wp_call; [by eapply put_overflow_wp|]. intros r w' [(-> & -> & Hf)|(i & -> & Hi & Hc & ->)]; wp_step.
    + split; [done|]. exists (mm w), ch. rewrite set_mm_id. ands; [done | done | by right].
    + split; [done|]. destruct (overflow_free _ _ _ _ H Hi Hc) as [_ Hnew].
      destruct (put_mem_table (mm w) ch T i data c d (Some p)) as [Ht Hm]; rewrite ?E in *; try done.
      eexists _, _. split; [done|]. split; [exact Hm|]. by left.
Qed.


(** *** The whole operation *)

(** The table with its lock free and the region initialised. *)
Record rt_state (m : mem) (ch : Z -> list Z) (T : gmap Z (list Z)) : Prop := RtState {
  rs_table : table m ch T;
  rs_magic : magic_ok m;
  rs_lock : lock_is m 2 None;
}.

Lemma magic_same a n m m' : same_out a n m m' ->
  (forall o, o = 144 \/ o = 30136 -> ShMemAddrBase + o + 4 <= a \/ a + n <= ShMemAddrBase + o) ->
  magic_ok m -> magic_ok m'.
Proof.
  intros Hs Ho [H1 H2]. unfold SHMEM_OFF_MAGIC1, SHMEM_OFF_MAGIC2 in *.
  pose proof (Ho 144 ltac:(by left)). pose proof (Ho 30136 ltac:(by right)).
  split; by rewrite (ld_same_out 4 m m' a n).
Qed.

Lemma table_out a n m m' ch T : same_out a n m m' -> a + n <= ShMemAddrBase + 30148 ->
  table m ch T -> table m' ch T.
Proof. intros Hs Ha. apply table_same. intros x Hx. apply Hs. lia. Qed.

Lemma desc_same m m' data c d : same_out ShMemAddrBase ShMemSize m m' -> desc_ok m data c d -> desc_ok m' data c d.
Proof.
  intros Hs [[Ho1 Ho2] H1 H2 H3 H4]. unfold RT_COMP_ID_OFF, RT_CPU_OFF in *.
  split; unfold RT_COMP_ID_OFF, RT_CPU_OFF; try done.
  - rewrite (ld_same_out 4 m m' _ _ _ Hs) by lia. done.
  - rewrite (ld_same_out 2 m m' _ _ _ Hs) by lia. done.
  - rewrite (bytes_same 92 m m'); [done|]. intros x Hx. apply Hs. lia.
Qed.

Lemma wp_incr_version {B} (k : unit -> M B) Q w :
  (forall m, same_out (ShMemAddrBase + 30144) 4 (mm w) m -> wp (k tt) Q (set_mm w m)) ->
  wp (incr rt_version_ptr ≫= k) Q w.
Proof.
  intros H. shm_facts. unfold incr, rt_version_ptr, RT_VERSION_OFF. wp_step. wp_step.
  apply wp_wr_abs; [lia|]. intros m Hm _. by apply H.
Qed.

(** What a registration does to the abstract table. *)
Definition add_result (m m' : mem) (T T' : gmap Z (list Z)) (c : Z) (d : list Z) (r : Z) : Prop :=
  match T !! c with
  | Some _ => r = 0 /\ T' = T
  | None => (r = 0 /\ T' = <[c:=d]> T) \/ (r = -2 /\ T' = T /\ overflow_full m)
  end.

Lemma same_region a n m m' : ShMemAddrBase <= a -> a + n <= ShMemAddrBase + ShMemSize ->
  same_out a n m m' -> same_out ShMemAddrBase ShMemSize m m'.
Proof. intros H1 H2 H. eapply same_out_weaken; [exact H | lia | lia]. Qed.

Context {K : Kernel} {HQ : Quiet K}.

(** The part under the lock. *)
Lemma add_locked w ch T data c d : rt_state (mm w) ch T -> tgid_ok w -> desc_ok (mm w) data c d ->
  T !! c = None -> Z.of_nat (size T) <= RT_MAX_INDEX ->
  wp (comm_SpinLock 2 ;; incr rt_version_ptr ;; r ← rt_insert c data;
      (if (snd r : bool) then incr rt_version_ptr else mret tt) ;; comm_SpinUnLock 2 ;; mret (fst r))
     (fun r w' => exists m' ch' T', w' = set_mm w m' /\ rt_state m' ch' T' /\
        same_out ShMemAddrBase ShMemSize (mm w) m' /\ add_result (mm w) m' T T' c d r) w.
Proof.
  intros [H Hm Hl] Ht HD HT Hn. shm_facts. pose proof (spin_entry_off 2) as Es.
  apply wp_SpinLock; [lia | done | done |]. intros m1 L1 F1. apply wp_incr_version. intros m2 F2.
  rewrite set_mm_set_mm in *. rewrite mm_set_mm in F2.
  assert (R2 : same_out ShMemAddrBase ShMemSize (mm w) m2) by (eapply same_out_trans; eapply same_region; eauto; lia).
  assert (T2 : table m2 ch T) by (eapply table_out; [exact F2 | lia |]; eapply table_out; [exact F1 | lia | done]).
  assert (M2 : magic_ok m2) by (eapply magic_same; [exact F2 | lia |]; eapply magic_same; [exact F1 | lia | done]).
  assert (L2 : lock_is m2 2 (Some (cur_tgid w, 1))) by (eapply lock_is_out; [lia | | exact F2 | done]; lia).
  eapply wp_call; [apply (rt_insert_wp (set_mm w m2) ch T data c d); [done | by eapply desc_same | done..]|].
  intros [r sr] w' (Hsr & m3 & ch' & -> & F3 & HR). rewrite set_mm_set_mm. simpl in Hsr, HR. subst sr. simpl fst. simpl snd.
  cbn iota. change (mm (set_mm w m2)) with m2 in *.
  apply wp_incr_version. intros m4 F4. rewrite mm_set_mm in F4. rewrite set_mm_set_mm.
  assert (L4 : lock_is m4 2 (Some (cur_tgid w, 1))).
  { eapply lock_is_out; [lia | | exact F4 |]; [lia|]. eapply lock_is_out; [lia | | exact F3 | done]. lia. }
  apply (wp_SpinUnLock 2 _ _ _ (cur_tgid w)); [lia | done |]. intros m5 L5 F5. rewrite mm_set_mm in F5.
  rewrite set_mm_set_mm. apply wp_ret.
  assert (T5 : forall ch T, table m3 ch T -> table m5 ch T).
  { intros ch0 T0 H0. eapply table_out; [exact F5 | lia |]. eapply table_out; [exact F4 | lia | done]. }
  assert (M5 : magic_ok m5).
  { eapply magic_same; [exact F5 | lia |]. eapply magic_same; [exact F4 | lia |].
    eapply magic_same; [exact F3 | lia | done]. }
  assert (R5 : same_out ShMemAddrBase ShMemSize (mm w) m5).
  { eapply same_out_trans; [exact R2|]. eapply same_out_trans; [eapply same_region; [| | exact F3]; lia|].
    eapply same_out_trans; eapply same_region; eauto; lia. }
  unfold add_result. rewrite HT. destruct HR as [[-> H3]|(-> & -> & -> & Hf)].
  - exists m5, ch', (<[c:=d]> T). ands; [done | split; auto | done | by left].
  - exists m5, ch, T. ands; [done | split; auto | done |]. right. ands; try done.
    intros i Hi. specialize (Hf i Hi). unfold comp_of, RT_COMP_ID_OFF in *.
    destruct (rt_entry_at i (overflow_slot i Hi)) as (_ & E1 & E2 & _).
    rewrite (ld_same_out 4 m1 m2 _ _ _ F2), (ld_same_out 4 (mm w) m1 _ _ _ F1) in Hf by lia. done.
Qed.

Lemma AddInRoutine_wp w ch T buf data c d : rt_state (mm w) ch T -> tgid_ok w -> desc_ok (mm w) data c d ->
  outside buf 96 -> Z.of_nat (size T) <= RT_MAX_INDEX ->
  wp (AddInRoutine buf data)
     (fun r w' => exists m' ch' T', w' = set_mm w m' /\ rt_state m' ch' T' /\
        (forall x, x < ShMemAddrBase \/ ShMemAddrBase + ShMemSize <= x -> x < buf \/ buf + 96 <= x -> ld8 m' x = ld8 (mm w) x) /\
        add_result (mm w) m' T T' c d r) w.
Proof.
  intros HS Ht HD [Hb1 Hb2] Hn. pose proof HS as [H Hm Hl]. pose proof HD as [[Hd1 Hd2] Hc Hk _ _]. shm_facts.
  unfold AddInRoutine. rewrite (eqb_neq_false ShMemAddrBase), (eqb_neq_false data) by lia. cbn [orb].
  apply wp_magic_set; [done|]. cbn [negb]. apply wp_rd; [unfold RT_COMP_ID_OFF; lia|]. rewrite Hc.
  apply (wp_overfull _ _ _ _ _ H Hn). cbn iota.
  eapply wp_call; [apply (FindRoutineEx_wp w ch T c buf); by split|].
  intros [r q] w' (m' & -> & HF). simpl fst in *. unfold find_result in HF.
  destruct (T !! c) as [d0|] eqn:E.
  - destruct HF as (-> & F & _). rewrite Z.eqb_refl. apply wp_ret. exists m', ch, T.
    ands; [done | | intros x _ Hx; by apply F | unfold add_result; by rewrite E].
    destruct Hb2; split.
    + apply (table_same (mm w)); [|done]. intros x Hx. apply F. lia.
    + eapply magic_same; [exact F | lia | done].
    + pose proof (spin_entry_off 2). eapply lock_is_out; [lia | | exact F | done]. lia.
    + apply (table_same (mm w)); [|done]. intros x Hx. apply F. lia.
    + eapply magic_same; [exact F | lia | done].
    + pose proof (spin_entry_off 2). eapply lock_is_out; [lia | | exact F | done]. lia.
  - destruct HF as [-> ->]. rewrite set_mm_id. change (1 =? 0) with false. cbn iota.
    eapply wp_mono; [by apply (add_locked w ch T data c d)|].
    intros r w' (m' & ch' & T' & -> & HS' & F & HR). exists m', ch', T'. ands; try done.
    intros x Hx _. by apply F.
Qed.


(** *** The empty table *)

Lemma table_empty m : (forall i, slot i -> entry_free m i) -> ld32 m rt_count_ptr = 0 ->
  table m (fun _ => []) ∅.
Proof.
  intros H Hc. split; try done.
  - intros b Hb. by apply H, bucket_slot.
  - intros b i _ Hi. by apply not_elem_of_nil in Hi.
  - intros b _. constructor.
  - intros b b' i _ _ Hi. by apply not_elem_of_nil in Hi.
  - intros i Hi _. by apply H, overflow_slot.
  - intros c d. rewrite lookup_empty. split; [done|]. intros (b & i & _ & Hi & _). by apply not_elem_of_nil in Hi.
  - intros b b' i i' _ _ Hi. by apply not_elem_of_nil in Hi.
Qed.

Lemma init_routine_table_wp w :
  wp init_routine_table (fun _ w' => exists m', w' = set_mm w m' /\
    same_out (ShMemAddrBase + 30144) 117512 (mm w) m' /\ table m' (fun _ => []) ∅) w.
Proof.
  unfold init_routine_table, rt_version_ptr, RT_VERSION_OFF. pose proof (rt_entry_at 0 ltac:(done)) as E0.
  assert (Hc : rt_count_ptr = ShMemAddrBase + 30148) by done. shm_facts.
  apply wp_wr; [lia|]. apply wp_wr; [lia|]. wsimp.
  set (m1 := st32 _ rt_count_ptr 0).
  assert (F1 : same_out (ShMemAddrBase + 30144) 117512 (mm w) m1) by (intros x Hx; unfold m1; memsimp; done).
  assert (C1 : ld32 m1 rt_count_ptr = 0) by (unfold m1; memsimp; done).
  set (I := fun j w' => exists m', w' = set_mm w m' /\ same_out (ShMemAddrBase + 30144) 117512 (mm w) m' /\
    ld32 m' rt_count_ptr = 0 /\ forall i, slot i -> i < j -> entry_free m' i).
  apply (wp_for _ _ _ I).
  - exists m1. ands; try done. unfold slot. lia.
  - intros j w' Hj (m' & -> & F & C & He). pose proof (rt_entry_at j ltac:(unfold slot, RT_MAX_INDEX; lia)) as (E & _).
    unfold RT_TABLE_OFF. apply wp_wr; [lia|]. apply wp_wr_last; [lia|]. wsimp. eexists. split; [done|]. ands.
    + intros x Hx. memsimp. by apply F.
    + rewrite Hc in *. memsimp. done.
    + intros i Hi Hlt. pose proof (rt_entry_at i Hi) as (Ei & _). unfold slot in Hi.
      unfold entry_free, comp_of, next_of, RT_COMP_ID_OFF, RT_NEXT_OFF. rewrite Ei.
      destruct (decide (i = j)) as [->|Hne]; [memsimp; done|].
      destruct (He i Hi ltac:(lia)) as [H1 H2]. unfold comp_of, next_of, RT_COMP_ID_OFF, RT_NEXT_OFF in *.
      rewrite Ei in *. memsimp. done.
  - intros w' (m' & -> & F & C & He). exists m'. ands; try done. apply table_empty; [|done].
    intros i Hi. apply He; [done|]. unfold slot, RT_MAX_INDEX in Hi. lia.
Qed.

End Table.

(** ** Properties *)

(** The table and the calling thread as [InitCommMem] and a caller leave them: two descriptors
    outside the region, keys 0x1401 and 0x1801 of the same bucket, for CPU 1. *)
Definition put_desc (m : mem) (data c : Z) : mem := st16 (st32 (st32 m (data + 8) c) (data + 4) 3) (data + 2) 1.

Definition routine_world : world :=
  let m := mm locks_world in
  let m := st32 (st32 m (ShMemAddrBase + SHMEM_OFF_MAGIC1) CPU_COMM_MAGIC) (ShMemAddrBase + SHMEM_OFF_MAGIC2) CPU_COMM_MAGIC in
  after init_routine_table (set_mm locks_world (put_desc (put_desc m 0xC3000000 0x1401) 0xC3000100 0x1801)).

Lemma routine_world_ok : rt_state (mm routine_world) (fun _ => []) ∅ /\ tgid_ok routine_world /\
  desc_ok (mm routine_world) 0xC3000000 0x1401 (bytes 92 (mm routine_world) 0xC3000000) /\ outside 0xC3001000 96.
Proof.
  ands; [| vm_compute; intuition congruence | | split; vm_compute; [congruence | left; congruence]].
  - unfold routine_world. match goal with |- context [after init_routine_table ?w0] => set (w := w0) end.
    destruct (wp_run _ _ _ (init_routine_table_wp w)) as ([] & w' & E & m' & -> & F & HT).
    unfold after. rewrite E, mm_set_mm. split; [done | | ].
    + eapply magic_same; [exact F | intros o [-> | ->]; left; vm_compute; congruence |]. split; vm_compute; reflexivity.
    + refine (lock_is_out _ _ _ _ 2 None _ _ F _); [lia | left; vm_compute; congruence | split; vm_compute; reflexivity].
  - split; try (vm_compute; congruence). split; vm_compute; [congruence | left; congruence].
Qed.

(** Every key has an entry of its own. *)
Lemma table_size {S : Shm} m ch T : table m ch T -> Z.of_nat (size T) <= RT_MAX_INDEX + 1.
Proof.
  intros H. set (l := remove_dups (map (comp_of m) (seqZ 0 (RT_MAX_INDEX + 1)))).
  assert (Hl : (length l <= length (map (comp_of m) (seqZ 0 (RT_MAX_INDEX + 1))))%nat).
  { apply submseteq_length, NoDup_submseteq; [apply NoDup_remove_dups|]. intros x. apply elem_of_remove_dups. }
  rewrite length_map, length_seqZ in Hl.
  assert (Hs : (size (dom T) <= size (list_to_set l : gset Z))%nat).
  { apply subseteq_size. intros c [d Hd]%elem_of_dom. apply (tb_map _ _ _ H) in Hd as (b & i & Hb & Hi & <- & _).
    apply elem_of_list_to_set, elem_of_remove_dups, list_elem_of_fmap. exists i. split; [done|].
    apply elem_of_seqZ. pose proof (used_slot _ _ _ Hb (tb_used _ _ _ H b i Hb Hi)) as Hsl. unfold slot, RT_MAX_INDEX in *. lia. }
  rewrite size_dom, size_list_to_set in Hs by apply NoDup_remove_dups. unfold RT_MAX_INDEX in *. lia.
Qed.

Lemma rt_overfull_wp {S : Shm} {OK : ShmOk S} {K : Kernel} {B} (k : bool -> M B) Q w :
  ld32 (mm w) rt_count_ptr = RT_MAX_INDEX + 1 -> wp (k true) Q w -> wp (rt_overfull ≫= k) Q w.
Proof.
  intros Hc HQ. shm_facts. unfold rt_overfull. wp_step.
  apply wp_rd; [unfold rt_count_ptr, RT_COUNT_OFF; lia|]. wp_step. by rewrite Hc.
Qed.

Lemma add_overfull_wp {S : Shm} {OK : ShmOk S} {K : Kernel} w buf data :
  magic_ok (mm w) -> ld32 (mm w) rt_count_ptr = RT_MAX_INDEX + 1 -> outside data 96 ->
  wp (AddInRoutine buf data) (fun r w' => r = - EINVAL /\ w' = w) w.
Proof.
  intros Hm Hc [Hd _]. shm_facts. unfold AddInRoutine.
  rewrite (eqb_neq_false ShMemAddrBase), (eqb_neq_false data) by lia. cbn [orb].
  apply wp_magic_set; [done|]. cbn [negb]. apply wp_rd; [unfold RT_COMP_ID_OFF; lia|]. by apply rt_overfull_wp.
Qed.

(** C30: Registering a routine inserts it in the abstract table of the shared region.  For a descriptor
    outside the region with a nonzero key and CPU number 0 or 1, and up to 1223 registered routines:
    a key that is already registered leaves the table as it is and returns 0; a new key is added with
    the 92 bytes of its descriptor, or the call returns -2 with the table as it was, and then every one
    of the 200 overflow entries is in use.  With 1224 routines - there are never more - the call
    returns -EINVAL for every key, registered or not, and changes nothing.  The chains stay well
    formed, the spinlock is released, and nothing outside the region and the lookup buffer changes. *)
Theorem routine_add_refines {S : Shm} {OK : ShmOk S} {K : Kernel} {HQ : Quiet K} w ch T buf data c d :
  rt_state (mm w) ch T -> tgid_ok w -> desc_ok (mm w) data c d -> outside buf 96 ->
  exists r m' ch' T', AddInRoutine buf data w = Ret r (set_mm w m') /\ rt_state m' ch' T' /\
    (forall x, x < ShMemAddrBase \/ ShMemAddrBase + ShMemSize <= x -> x < buf \/ buf + 96 <= x ->
       ld8 m' x = ld8 (mm w) x) /\
    if Z.of_nat (size T) =? RT_MAX_INDEX + 1 then r = - EINVAL /\ m' = mm w /\ T' = T
    else match T !! c with
         | Some _ => r = 0 /\ T' = T
         | None => (r = 0 /\ T' = <[c:=d]> T) \/ (r = -2 /\ T' = T /\ overflow_full (mm w))
         end.
Proof.
  intros HS Ht HD Hb. pose proof HS as [H1 H2 _]. pose proof (table_size _ _ _ H1) as Hs.
  destruct (Z.eqb_spec (Z.of_nat (size T)) (RT_MAX_INDEX + 1)) as [Hn|Hn].
  - assert (Hc : ld32 (mm w) rt_count_ptr = RT_MAX_INDEX + 1) by (by rewrite (tb_count _ _ _ H1)).
    destruct (wp_run _ _ _ (add_overfull_wp w buf data H2 Hc (do_out _ _ _ _ HD))) as (r & w' & E & -> & ->).
    exists (- EINVAL), (mm w), ch, T. by rewrite set_mm_id.
  - destruct (wp_run _ _ _ (AddInRoutine_wp w ch T buf data c d HS Ht HD Hb ltac:(lia)))
      as (r & w' & E & m' & ch' & T' & -> & A1 & A2 & A3). by exists r, m', ch', T'.
Qed.

Lemma routine_add_refines_witness : exists r m' ch' T',
  AddInRoutine 0xC3001000 0xC3000000 routine_world = Ret r (set_mm routine_world m') /\ rt_state m' ch' T'.
Proof.
  destruct routine_world_ok as (H1 & H2 & H3 & H4).
  destruct (routine_add_refines routine_world _ _ 0xC3001000 0xC3000000 _ _ H1 H2 H3 H4)
    as (r & m' & ch' & T' & E & HS & _).
  exists r, m', ch', T'. split; [exact E | exact HS].
Defined.

(** A lookup returns status 0 exactly for the registered keys, after a bounded walk, and then the
    caller's buffer holds bytes 0-75 and 80-87 of the descriptor and keeps its own bytes 76-79 and
    88-91: the callback at +88 is never copied.  For any other key the status is 1 and nothing
    changes. *)
Theorem routine_find_refines {S : Shm} {OK : ShmOk S} w ch T c buf :
  lookup_ok w ch T c buf ->
  exists r p m', FindRoutineEx c buf w = Ret (r, p) (set_mm w m') /\
    match T !! c with
    | Some d => r = 0 /\ same_out buf 96 (mm w) m' /\
        forall x, 0 <= x < 92 ->
          ld8 m' (buf + x) = if copied x then d !!! Z.to_nat x else ld8 (mm w) (buf + x)
    | None => r = 1 /\ m' = mm w
    end.
Proof.
  intros HL. destruct (wp_run _ _ _ (FindRoutineEx_wp w ch T c buf HL)) as ([r p] & w' & E & m' & -> & H).
  by exists r, p, m'.
Qed.

Lemma routine_find_refines_witness : exists r p m',
  FindRoutineEx 0x1401 0xC3001000 routine_world = Ret (r, p) (set_mm routine_world m') /\ r = 1.
Proof.
  destruct routine_world_ok as ([H1 H2 _] & _ & _ & H4).
  destruct (routine_find_refines routine_world (fun _ => []) ∅ 0x1401 0xC3001000) as (r & p & m' & E & H).
  { split; [exact H1 | exact H2 | vm_compute; congruence | lia | exact H4]. }
  exists r, p, m'. split; [exact E | apply H].
Defined.

(** Once 1224 routines are registered - the whole table - every lookup fails with status 1 and
    every registration with -EINVAL, also for the keys that are in the table. *)
Theorem full_table_hides_routines {S : Shm} {OK : ShmOk S} w buf c data :
  magic_ok (mm w) -> ld32 (mm w) rt_count_ptr = RT_MAX_INDEX + 1 -> outside buf 96 -> outside data 96 ->
  FindRoutineEx c buf w = Ret (1, 0) w /\ AddInRoutine buf data w = Ret (- EINVAL) w.
Proof.
  intros Hm Hc [Hb _] Hd. shm_facts. split.
  - assert (H : wp (FindRoutineEx c buf) (fun r w' => r = (1, 0) /\ w' = w) w).
    { unfold FindRoutineEx. rewrite (eqb_neq_false ShMemAddrBase), (eqb_neq_false buf) by lia. cbn [orb].
      apply wp_magic_set; [done|]. cbn [negb]. by apply rt_overfull_wp. }
    destruct (wp_run _ _ _ H) as (r & w' & E & -> & ->). done.
  - destruct (wp_run _ _ _ (add_overfull_wp w buf data Hm Hc Hd)) as (r & w' & E & -> & ->). done.
Qed.

Definition full_world : world := set_mm routine_world (st32 (mm routine_world) rt_count_ptr 1224).

Lemma full_table_hides_routines_witness : FindRoutineEx 0x1401 0xC3001000 full_world = Ret (1, 0) full_world.
Proof.
  apply (full_table_hides_routines full_world 0xC3001000 0x1401 0xC3000000);
    [split; vm_compute; reflexivity | vm_compute; reflexivity | | ];
    (split; [lia | left; vm_compute; congruence]).
Defined.

(** Register (remove) the routine with key [c] of CPU 1, through a descriptor at 0xC3000000. *)
Definition add_key (c : Z) : M Z :=
  modify (fun w => set_mm w (put_desc (mm w) 0xC3000000 c)) ;; AddInRoutine 0xC3001000 0xC3000000.
Definition remove_key (c : Z) : M Z :=
  modify (fun w => set_mm w (put_desc (mm w) 0xC3000000 c)) ;; RemoveRoutine 0xC3000000.

(** Removing the last routine of a chain leaves the entry before it linked to the freed entry;
    once that entry is reused for another bucket the two chains share it, and removing a routine of
    the first bucket takes the other bucket's routine away: key 0x402 is registered, removing key
    0x001 succeeds, and key 0x402 is no longer found. *)
Theorem remove_loses_another_routine :
  returns (a ← add_key 0x001; b ← add_key 0x401; _ ← remove_key 0x401;
           c ← add_key 0x002; d ← add_key 0x402;
           f ← FindRoutineEx 0x402 0xC3001000;
           r ← remove_key 0x001;
           f' ← FindRoutineEx 0x402 0xC3001000;
           mret ([a; b; c; d], fst f, r, fst f')) routine_world = Some ([0; 0; 0; 0], 0, 1, 1).
Proof. vm_compute. reflexivity. Qed.
