(* ===== verification/Msgbox.v ===== *)
(** The mailbox and register access of [cpu_comm_hw.c]: the receive interrupt
    and its polling fallback, the two transmit paths, the register whitelist.

    The device is a parameter ([Regs], [IrqOps]): a register read gives a value
    and may change the device; a register write is an entry of [mmio].  The
    receive callback is an argument, it is [cpu_comm_msg_cb] of [Proto]. *)
From S2P Require Import Prelude Mem Kernel Shm SpinLock.

Definition ENODEV : Z := 19.

Class Regs := readl_dev : Z -> world -> Z * world.

Class IrqOps := {
  request_irq : Z -> world -> Z * world;
  free_irq : Z -> world -> world;
  ioremap : Z -> Z -> world -> Z * world;      (* physical address, size *)
  iounmap : Z -> world -> world;
  hwspin_lock_free : Z -> world -> world;
}.

Definition H713_MSGBOX_RX_FIFO : Z := 0x164.
Definition H713_MSGBOX_RX_DATA : Z := 0x174.
Definition H713_MSGBOX_RX_IRQ_EN : Z := 0x120.
Definition H713_MSGBOX_RX_IRQ_CLR : Z := 0x124.
Definition H713_MSGBOX_TX_DATA : Z := 0x874.
Definition H713_MSGBOX_RX_IRQ_BIT : Z := 4.
Definition MSGBOX_MAX_IRQS : Z := 3.
Definition H713_MSGBOX_ARISC_TX_DATA : Z := 0x47c.
Definition H713_MSGBOX_ARISC_TX_IRQ_EN : Z := 0x430.
Definition H713_MSGBOX_ARISC_TX_BIT : Z := 128.
Definition MIPS_CTRL_BASE : Z := 0x03061000.
Definition SHARE_REG_ADDR : Z := 14.
Definition SHARE_REG_SIZE : Z := 13.

Definition known_regs : list Z := [0x03061024; 0x03061028; 0x03003000; 0x03003010].

(** ** The state *)

Definition mb_irqs (l : list (Z * bool)) (b : msgbox) : msgbox :=
  Msgbox (mips_ctrl_base b) (msgbox_ctrl_base b) l (msgbox_rx_callback b) (msgbox_poll_active b)
    (msgbox_poll_initialized b) (msgbox_irq_count b) (msgbox_irq_msgs_drained b) (poll_delay b) (arisc_tx_seq b).
Definition mb_callback (c : bool) (b : msgbox) : msgbox :=
  Msgbox (mips_ctrl_base b) (msgbox_ctrl_base b) (msgbox_irqs b) c (msgbox_poll_active b)
    (msgbox_poll_initialized b) (msgbox_irq_count b) (msgbox_irq_msgs_drained b) (poll_delay b) (arisc_tx_seq b).
Definition mb_poll (active initialized : bool) (b : msgbox) : msgbox :=
  Msgbox (mips_ctrl_base b) (msgbox_ctrl_base b) (msgbox_irqs b) (msgbox_rx_callback b) active
    initialized (msgbox_irq_count b) (msgbox_irq_msgs_drained b) (poll_delay b) (arisc_tx_seq b).
Definition mb_counts (irqs drained : Z) (b : msgbox) : msgbox :=
  Msgbox (mips_ctrl_base b) (msgbox_ctrl_base b) (msgbox_irqs b) (msgbox_rx_callback b) (msgbox_poll_active b)
    (msgbox_poll_initialized b) irqs drained (poll_delay b) (arisc_tx_seq b).
Definition mb_delays (l : list Z) (b : msgbox) : msgbox :=
  Msgbox (mips_ctrl_base b) (msgbox_ctrl_base b) (msgbox_irqs b) (msgbox_rx_callback b) (msgbox_poll_active b)
    (msgbox_poll_initialized b) (msgbox_irq_count b) (msgbox_irq_msgs_drained b) l (arisc_tx_seq b).
Definition mb_seq (s : Z) (b : msgbox) : msgbox :=
  Msgbox (mips_ctrl_base b) (msgbox_ctrl_base b) (msgbox_irqs b) (msgbox_rx_callback b) (msgbox_poll_active b)
    (msgbox_poll_initialized b) (msgbox_irq_count b) (msgbox_irq_msgs_drained b) (poll_delay b) s.
Definition mb_bases (mips ctrl : Z) (b : msgbox) : msgbox :=
  Msgbox mips ctrl (msgbox_irqs b) (msgbox_rx_callback b) (msgbox_poll_active b)
    (msgbox_poll_initialized b) (msgbox_irq_count b) (msgbox_irq_msgs_drained b) (poll_delay b) (arisc_tx_seq b).

Definition mb {A} (f : msgbox -> A) : M A := gets (fun w => f (mbox w)).
Definition mb_set (f : msgbox -> msgbox) : M unit := modify (fun w => set_mbox w (f (mbox w))).
Definition schedule_delayed_work (ms : Z) : M unit := mb_set (fun b => mb_delays (poll_delay b ++ [ms]) b).

Section Msgbox.
Context {S : Shm} {R : Regs} {I : IrqOps}.

(** The only callback the driver registers. *)
Variable rx_callback : Z -> Z -> M unit.

Definition readl (a : Z) : M Z := lift_env (readl_dev a).
Definition writel (v a : Z) : M unit := modify (fun w => set_mmio w (mmio w ++ [(a, u32 v, mm w)])).

(** ** Register access *)

Definition is_known_reg (addr : Z) : bool := existsb (Z.eqb addr) known_regs.

Definition reg_to_iomem (phys_addr : Z) : M Z :=
  if (0x03061000 <=? phys_addr) && (phys_addr <? 0x03062000) then
    base ← mb mips_ctrl_base;
    mret (if base =? 0 then 0 else base + (phys_addr - 0x03061000))
  else if (0x03003000 <=? phys_addr) && (phys_addr <? 0x03004000) then
    base ← mb msgbox_ctrl_base;
    mret (if base =? 0 then 0 else base + (phys_addr - 0x03003000))
  else mret 0.

Definition comm_ReadRegWord (reg_addr : Z) : M Z :=
  if negb (is_known_reg reg_addr) then mret 0 else
  vaddr ← reg_to_iomem reg_addr;
  if vaddr =? 0 then mret 0 else readl vaddr.

Definition comm_WriteRegWord (reg_addr value : Z) : M unit :=
  if negb (is_known_reg reg_addr) then mret tt else
  vaddr ← reg_to_iomem reg_addr;
  if vaddr =? 0 then mret tt else writel value vaddr.

Definition getShareRegbyID (reg_id : Z) : Z :=
  if reg_id =? SHARE_REG_ADDR then 0x03061024
  else if reg_id =? SHARE_REG_SIZE then 0x03061028
  else 0.

Definition comm_ReadShareReg (reg_id : Z) : M Z := comm_ReadRegWord (getShareRegbyID reg_id).
Definition comm_WriteShareReg (reg_id value : Z) : M unit := comm_WriteRegWord (getShareRegbyID reg_id) value.

(** ** Receiving *)

Definition msgbox_registered_count (b : msgbox) : Z :=
  Z.of_nat (length (List.filter snd (msgbox_irqs b))).

Definition msg_type (raw : Z) : Z := raw &. 0xFFFF.
Definition msg_direction (raw : Z) : Z :=
  let direction := Z.shiftr raw 16 &. 0xFFFF in
  if direction =? 0 then 2 else direction.

(** The drain loop, which both receivers have: it stops when the FIFO is empty
    or after more than [cap] messages. *)
Definition drain (cap base : Z) : M Z :=
  loop (Z.to_nat (cap + 2)) (fun drained =>
    n ← readl (base + H713_MSGBOX_RX_FIFO);
    if (n &. 0xF) =? 0 then mret (inr drained) else
    raw ← readl (base + H713_MSGBOX_RX_DATA);
    cb ← mb msgbox_rx_callback;
    (if (cb : bool) then rx_callback (msg_type raw) (msg_direction raw) else mret tt) ;;
    mret (if cap <? drained + 1 then inr (drained + 1) else inl (drained + 1))) 0.

(** [true]: IRQ_HANDLED *)
Definition cpu_comm_msgbox_irq_handler : M bool :=
  mb_set (fun b => mb_counts (msgbox_irq_count b + 1) (msgbox_irq_msgs_drained b) b) ;;
  base ← mb msgbox_ctrl_base;
  if base =? 0 then mret false else
  en ← readl (base + H713_MSGBOX_RX_IRQ_EN);
  writel (bic en H713_MSGBOX_RX_IRQ_BIT) (base + H713_MSGBOX_RX_IRQ_EN) ;;
  drained ← drain 64 base;
  mb_set (fun b => mb_counts (msgbox_irq_count b) (msgbox_irq_msgs_drained b + drained) b) ;;
  writel H713_MSGBOX_RX_IRQ_BIT (base + H713_MSGBOX_RX_IRQ_CLR) ;;
  writel (en |. H713_MSGBOX_RX_IRQ_BIT) (base + H713_MSGBOX_RX_IRQ_EN) ;;
  mret (negb (drained =? 0)).

Definition cpu_comm_msgbox_poll_fn : M unit :=
  active ← mb msgbox_poll_active;
  base ← mb msgbox_ctrl_base;
  if negb active || (base =? 0) then mret tt else
  drain 32 base ;;
  still ← mb msgbox_poll_active;
  if (still : bool) then schedule_delayed_work 1 else mret tt.

(** Read away what is in the FIFO. *)
Definition drain_stale (base : Z) : M unit :=
  loop (Z.to_nat 1000) (fun _ : unit =>
    n ← readl (base + H713_MSGBOX_RX_FIFO);
    if (n &. 0xF) =? 0 then mret (inr tt) else
    readl (base + H713_MSGBOX_RX_DATA) ;;
    mret (inl tt)) tt.

Definition cpu_comm_msgbox_request_irq (irq : Z) : M Z :=
  irqs ← mb msgbox_irqs;
  let slot := length irqs in
  if MSGBOX_MAX_IRQS <=? Z.of_nat slot then mret (- EINVAL) else
  base ← mb msgbox_ctrl_base;
  (if Nat.eqb slot 0 then
     mb_set (mb_callback true) ;;
     mb_set (mb_counts 0 0) ;;
     drain_stale base ;;
     writel H713_MSGBOX_RX_IRQ_BIT (base + H713_MSGBOX_RX_IRQ_CLR)
   else mret tt) ;;
  mb_set (mb_irqs (irqs ++ [(irq, false)])) ;;
  ret ← lift_env (request_irq irq);
  if negb (ret =? 0) then mret ret else
  mb_set (mb_irqs (irqs ++ [(irq, true)])) ;;
  n ← mb msgbox_registered_count;
  (if n =? 1 then
     en ← readl (base + H713_MSGBOX_RX_IRQ_EN);
     writel (en |. H713_MSGBOX_RX_IRQ_BIT) (base + H713_MSGBOX_RX_IRQ_EN)
   else mret tt) ;;
  readl (base + H713_MSGBOX_RX_IRQ_EN) ;;
  mret 0.

Definition cpu_comm_msgbox_start_polling : M Z :=
  active ← mb msgbox_poll_active;
  if (active : bool) then mret 0 else
  cb ← mb msgbox_rx_callback;
  (if (cb : bool) then mret tt else mb_set (mb_callback true)) ;;
  mb_set (mb_poll true true) ;;
  schedule_delayed_work 10 ;;
  mret 0.

(** Give back every registered line. *)
Fixpoint free_lines (l : list (Z * bool)) : M unit :=
  match l with
  | [] => mret tt
  | (num, registered) :: l' =>
      (if (registered : bool) then modify (free_irq num) else mret tt) ;; free_lines l'
  end.

Definition cpu_comm_msgbox_free_irq : M unit :=
  base ← mb msgbox_ctrl_base;
  n ← mb msgbox_registered_count;
  (if negb (base =? 0) && (0 <? n) then
     en ← readl (base + H713_MSGBOX_RX_IRQ_EN);
     writel (bic en H713_MSGBOX_RX_IRQ_BIT) (base + H713_MSGBOX_RX_IRQ_EN)
   else mret tt) ;;
  irqs ← mb msgbox_irqs;
  free_lines irqs ;;
  mb_set (mb_irqs []) ;;
  active ← mb msgbox_poll_active;
  (if (active : bool) then mb_set (fun b => mb_delays [] (mb_poll false (msgbox_poll_initialized b) b))
   else mret tt) ;;
  mb_set (mb_callback false).

(** ** Sending *)

Definition sunxi_cpu_comm_send_intr_to_mips (cpu type : Z) : M unit :=
  base ← mb msgbox_ctrl_base;
  if base =? 0 then mret tt else
  writel (Z.shiftl (cpu &. 3) 16 |. (type &. 0xFFFF)) (base + H713_MSGBOX_TX_DATA).

(** The packet buffer: header, payload, zeros up to 140 bytes. *)
Definition arisc_buf (seq type length : Z) (payload : list Z) : list Z :=
  let head := [0xA5; seq; type; length; 0; 0; 0; 0] ++ payload in
  head ++ repeat 0 (140 - List.length head).

(** [words[i]] of a byte buffer *)
Definition word_at (buf : list Z) (i : nat) : Z :=
  let b k := nth (4 * i + k)%nat buf 0 in
  b 0%nat + 256 * b 1%nat + 65536 * b 2%nat + 16777216 * b 3%nat.

Fixpoint push_words (base : Z) (ws : list Z) : M unit :=
  match ws with
  | [] => mret tt
  | x :: ws' => writel x (base + H713_MSGBOX_ARISC_TX_DATA) ;; push_words base ws'
  end.

Definition cpu_comm_send_to_arisc (type length pdata : Z) : M Z :=
  base ← mb msgbox_ctrl_base;
  if base =? 0 then mret (- ENODEV) else
  if 132 <? length then mret (- EINVAL) else
  if negb (length =? 0) && (pdata =? 0) then mret (- EINVAL) else
  payload ← gets (fun w => bytes (Z.to_nat length) (mm w) pdata);
  let total := 8 + length in
  let nwords := (total + 3) / 4 in
  mb_set (fun b => mb_seq (u8 (arisc_tx_seq b + 1)) b) ;;
  seq ← mb arisc_tx_seq;
  push_words base (map (word_at (arisc_buf seq type length payload)) (List.seq 0 (Z.to_nat nwords))) ;;
  writel H713_MSGBOX_ARISC_TX_BIT (base + H713_MSGBOX_ARISC_TX_IRQ_EN) ;;
  writel 0 (base + H713_MSGBOX_ARISC_TX_IRQ_EN) ;;
  mret 0.
End Msgbox.

(** ** The receive interrupt *)

(** The receiving side of the device: [pend e] are the words in the FIFO when the
    environment is in state [e]; the count register shows how many there are (up
    to 15), a read of the data register takes the oldest. *)
Class RxFifo (R : Regs) (base : Z) (pend : list Z -> list Z) : Prop := {
  rx_count w : (length (pend (env w)) <= 15)%nat ->
    readl_dev (base + H713_MSGBOX_RX_FIFO) w = (Z.of_nat (length (pend (env w))), w);
  rx_data w x l : pend (env w) = x :: l ->
    exists e, readl_dev (base + H713_MSGBOX_RX_DATA) w = (x, set_env w e) /\ pend e = l;
  rx_enable w : exists v, readl_dev (base + H713_MSGBOX_RX_IRQ_EN) w = (v, w);
}.

Definition decode (raw : Z) : Z * Z := (msg_type raw, msg_direction raw).

Section Interrupt.
Context {R : Regs} (base : Z) (pend : list Z -> list Z) {F : RxFifo R base pend}.

(** A callback, and what is known after it was called for the messages [h]. *)
Variables (cb : Z -> Z -> M unit) (P : list (Z * Z) -> world -> Prop).
Hypothesis Hcb : forall h t d w, P h w ->
  wp (cb t d) (fun _ w' => P (h ++ [(t, d)]) w' /\ env w' = env w /\ mbox w' = mbox w) w.
Hypothesis Hstable : forall h w, P h w ->
  (forall e, P h (set_env w e)) /\ (forall l, P h (set_mmio w l)) /\ (forall b, P h (set_mbox w b)).

Lemma lift_run {A} (f : world -> A * world) w a w' : f w = (a, w') -> lift_env f w = Ret a w'.
Proof. unfold lift_env. by intros ->. Qed.

Lemma drain_wp cap h w : (length (pend (env w)) <= 15)%nat -> 15 <= cap ->
  msgbox_rx_callback (mbox w) = true -> P h w ->
  wp (drain cb cap base) (fun n w' => n = Z.of_nat (length (pend (env w))) /\ pend (env w') = [] /\
    mbox w' = mbox w /\ P (h ++ map decode (pend (env w))) w') w.
Proof.
  intros Hl Hcap Hc HP. set (l := pend (env w)) in *.
  set (I := fun (k : nat) (d : Z) w' => exists l1 l2, l = l1 ++ l2 /\ k = length l2 /\ d = Z.of_nat (length l1) /\
    pend (env w') = l2 /\ mbox w' = mbox w /\ P (h ++ map decode l1) w').
  unfold drain. apply (wp_loop I _ _ _ (length l) _ w); [lia | |].
  { exists [], l. ands; try done. by rewrite app_nil_r. }
  intros k d w' (l1 & l2 & El & -> & -> & E2 & Em & HP').
  assert (Hl12 : (length l1 + length l2 <= 15)%nat) by (rewrite <- length_app, <- El; done).
  eapply wp_eq; [apply lift_run, rx_count; rewrite E2; lia|]. rewrite E2.
  replace (Z.of_nat (length l2) &. 0xF) with (Z.of_nat (length l2)).
  2: { change 0xF with (Z.ones 4). rewrite Z.land_ones, Z.mod_small by lia. done. }
  destruct l2 as [|x l2].
  - change (Z.of_nat (length (@nil Z)) =? 0) with true. cbv iota. apply wp_ret. rewrite app_nil_r in El. subst l1.
    ands; done.
  - simpl length in *. rewrite (eqb_neq_false (Z.of_nat _)) by lia.
    destruct (rx_data w' x l2 E2) as (e & Er & Ee). eapply wp_eq; [by apply lift_run|].
    unfold mb. wp_step. change (mbox (set_env w' e)) with (mbox w'). rewrite Em, Hc.
    eapply wp_call; [apply Hcb; by apply (Hstable _ _ HP')|]. intros [] w2 (HP2 & Ee2 & Em2).
    rewrite ltb_false by lia. apply wp_ret. exists (length l2). split; [lia|].
    exists (l1 ++ [x]), l2. rewrite length_app, map_app, app_assoc. simpl length.
    ands; [by rewrite El, <- app_assoc | done | lia | by rewrite Ee2 | by rewrite Em2 | exact HP2].
Qed.

Lemma irq_handler_wp w : (length (pend (env w)) <= 15)%nat -> base <> 0 -> msgbox_ctrl_base (mbox w) = base ->
  msgbox_rx_callback (mbox w) = true -> P [] w ->
  wp (cpu_comm_msgbox_irq_handler cb)
     (fun r w' => r = negb (Nat.eqb (length (pend (env w))) 0) /\ pend (env w') = [] /\
        P (map decode (pend (env w))) w' /\
        msgbox_irq_msgs_drained (mbox w') = msgbox_irq_msgs_drained (mbox w) + Z.of_nat (length (pend (env w)))) w.
Proof.
  intros Hl Hb Ebase Hc HP. unfold cpu_comm_msgbox_irq_handler, mb_set, mb. wp_step. wp_step. simpl msgbox_ctrl_base.
  rewrite Ebase, (eqb_neq_false base) by done.
  destruct (rx_enable (set_mbox w (mb_counts (msgbox_irq_count (mbox w) + 1) (msgbox_irq_msgs_drained (mbox w)) (mbox w))))
    as (en & Een). eapply wp_eq; [by apply lift_run|]. unfold writel. wp_step.
  match goal with |- wp _ _ ?w1 => eapply (wp_call _ _ _ _ w1 (drain_wp 64 [] w1 _ _ _ _)) end.
  intros n w' (-> & E1 & E2 & E3). repeat wp_step. simpl in *. rewrite E2. simpl. ands; try done.
  - destruct (pend (env w)); done.
  - by apply Hstable, Hstable, Hstable.
  Unshelve. all: try done. by apply Hstable, Hstable.
Qed.
End Interrupt.

(** ** The packets to ARISC *)

(** The four bytes of a FIFO word, and what the receiver reads off the words. *)
Definition word_bytes (x : Z) : list Z := [x mod 256; x / 256 mod 256; x / 65536 mod 256; x / 16777216].

Definition arisc_parse (ws : list Z) : option (Z * Z * list Z) :=
  match concat (map word_bytes ws) with
  | 0xA5 :: seq :: type :: len :: _ :: _ :: _ :: _ :: rest => Some (seq, type, take (Z.to_nat len) rest)
  | _ => None
  end.

Definition byte_list (l : list Z) : Prop := Forall (fun b => 0 <= b < 256) l.

Lemma word_bytes_at buf i : byte_list buf -> (4 * i + 4 <= length buf)%nat ->
  word_bytes (word_at buf i) = take 4 (drop (4 * i) buf).
Proof.
  intros Hb Hl. assert (Hr : forall k, (k < length buf)%nat -> 0 <= nth k buf 0 < 256).
  { intros k Hk. pose proof (proj1 (List.Forall_forall _ _) Hb (nth k buf 0)) as H. apply H, nth_In, Hk. }
  assert (Hd : forall k, (4 * i + k < length buf)%nat -> drop (4 * i + k) buf = nth (4 * i + k) buf 0 :: drop (4 * i + S k) buf).
  { intros k Hk. rewrite (drop_S buf (nth (4 * i + k) buf 0)); [f_equal; f_equal; lia|].
    rewrite nth_lookup. by destruct (lookup_lt_is_Some_2 buf (4 * i + k) Hk) as [x ->]. }
  pose proof (Hd 0%nat ltac:(lia)) as E0. rewrite Nat.add_0_r in E0. rewrite E0, (Hd 1%nat), (Hd 2%nat), (Hd 3%nat) by lia.
  cbn [take]. unfold word_bytes, word_at. cbv beta zeta. rewrite Nat.add_0_r.
  pose proof (Hr (4 * i)%nat ltac:(lia)). pose proof (Hr (4 * i + 1)%nat ltac:(lia)).
  pose proof (Hr (4 * i + 2)%nat ltac:(lia)). pose proof (Hr (4 * i + 3)%nat ltac:(lia)).
  generalize dependent (nth (4 * i) buf 0). generalize dependent (nth (4 * i + 1) buf 0).
  generalize dependent (nth (4 * i + 2) buf 0). generalize dependent (nth (4 * i + 3) buf 0). intros.
  rewrite take_0. apply f_equal2; [|apply f_equal2; [|apply f_equal2; [|apply f_equal2; [|done]]]];
    Z.div_mod_to_equations; lia.
Qed.

Lemma words_bytes buf n : byte_list buf -> (4 * n <= length buf)%nat ->
  concat (map word_bytes (map (word_at buf) (List.seq 0 n))) = take (4 * n) buf.
Proof.
  intros Hb. induction n as [|n IH]; intros Hl; [by rewrite Nat.mul_0_r|].
  rewrite List.seq_S, !map_app, List.concat_app, IH by lia. cbn [map concat Nat.add].
  rewrite app_nil_r, word_bytes_at by (done || lia).
  replace (4 * S n)%nat with (4 * n + 4)%nat by lia. rewrite <- take_take_drop. done.
Qed.

Lemma word_at_range buf i : byte_list buf -> 0 <= word_at buf i < 2 ^ 32.
Proof.
  intros Hb. assert (Hr : forall k, 0 <= nth k buf 0 < 256).
  { intros k. rewrite nth_lookup. destruct (buf !! k) as [x|] eqn:E; simpl; [|lia].
    unfold byte_list in Hb. rewrite Forall_lookup in Hb. by apply (Hb k). }
  unfold word_at. cbv beta zeta.
  pose proof (Hr (4 * i + 0)%nat). pose proof (Hr (4 * i + 1)%nat).
  pose proof (Hr (4 * i + 2)%nat). pose proof (Hr (4 * i + 3)%nat). lia.
Qed.

Lemma push_words_wp {R : Regs} base ws w : Forall (fun x => 0 <= x < 2 ^ 32) ws ->
  wp (push_words base ws) (fun _ w' => w' = set_mmio w (mmio w ++ map (fun v => (base + H713_MSGBOX_ARISC_TX_DATA, v, mm w)) ws)) w.
Proof.
  intros H. revert w. induction H as [|x ws Hx Hws IH]; intros w; simpl.
  - apply wp_ret. rewrite app_nil_r. by destruct w.
  - unfold writel. wp_step. rewrite (u32_small x Hx). eapply wp_mono; [apply IH|].
    intros [] w' ->. simpl. by rewrite <- app_assoc.
Qed.

Lemma arisc_buf_bytes seq type len payload : 0 <= seq < 256 -> 0 <= type < 256 -> 0 <= len < 256 ->
  byte_list payload -> byte_list (arisc_buf seq type len payload).
Proof.
  intros. unfold arisc_buf, byte_list. apply Forall_app. split.
  - repeat (constructor; [lia|]). done.
  - apply Forall_forall. intros x Hx. apply list_elem_of_In, repeat_spec in Hx. lia.
Qed.

(** The receiver reads back what was packed. *)
Lemma arisc_parse_buf seq type len payload n : 0 <= seq < 256 -> 0 <= type < 256 ->
  byte_list payload -> len = Z.of_nat (length payload) -> len <= 132 ->
  n = Z.to_nat ((8 + len + 3) / 4) ->
  arisc_parse (map (word_at (arisc_buf seq type len payload)) (List.seq 0 n)) = Some (seq, type, payload).
Proof.
  intros Hs Ht Hp -> Hl ->. set (n := Z.to_nat _).
  assert (Hn : (8 + length payload <= 4 * n <= 140)%nat) by (unfold n; Z.div_mod_to_equations; lia).
  assert (Hlen : length (arisc_buf seq type (Z.of_nat (length payload)) payload) = 140%nat).
  { unfold arisc_buf. rewrite length_app, repeat_length, length_app. simpl List.length. lia. }
  unfold arisc_parse. rewrite words_bytes; [| by apply arisc_buf_bytes; try lia | lia].
  unfold arisc_buf. replace (4 * n)%nat with (S (S (S (S (S (S (S (S (4 * n - 8)))))))))%nat by lia.
  rewrite <- app_assoc. cbn [app take]. rewrite Nat2Z.id, take_take.
  rewrite Nat.min_l by lia. by rewrite take_app_length.
Qed.

(** ** Properties *)

(** A device whose receive FIFO is the environment: count, oldest word, rest. *)
#[export] Instance fifo_regs : Regs := fun a w =>
  if a =? 0xF0900000 + H713_MSGBOX_RX_FIFO then (Z.of_nat (length (env w)), w)
  else if a =? 0xF0900000 + H713_MSGBOX_RX_DATA then (hd 0 (env w), set_env w (tl (env w)))
  else (0, w).

Lemma fifo_regs_rx : RxFifo fifo_regs 0xF0900000 id.
Proof.
  split.
  - done.
  - intros w x l E. exists l. unfold readl_dev, fifo_regs. simpl. unfold id in E. rewrite E. done.
  - intros w. by exists 0.
Qed.

(** One receive interrupt drains the mailbox: every message waiting in the FIFO (at most 15) is
    taken out and handed to the callback exactly once, in the order the other CPU sent them, with the
    type in the low half and direction 2 when the high half is 0; the statistics count them and the
    handler claims the interrupt exactly when there was one.  [P] is any property of the messages
    handled so far that the callback establishes message by message. *)
Theorem irq_delivers_in_order {R : Regs} base pend (F : RxFifo R base pend) cb (P : list (Z * Z) -> world -> Prop) w :
  (forall h t d w, P h w -> exists w', cb t d w = Ret tt w' /\ P (h ++ [(t, d)]) w' /\ env w' = env w /\ mbox w' = mbox w) ->
  (forall h w, P h w -> (forall e, P h (set_env w e)) /\ (forall l, P h (set_mmio w l)) /\ (forall b, P h (set_mbox w b))) ->
  (length (pend (env w)) <= 15)%nat -> base <> 0 -> msgbox_ctrl_base (mbox w) = base ->
  msgbox_rx_callback (mbox w) = true -> P [] w ->
  exists w', cpu_comm_msgbox_irq_handler cb w = Ret (negb (Nat.eqb (length (pend (env w))) 0)) w' /\
    pend (env w') = [] /\ P (map decode (pend (env w))) w' /\
    msgbox_irq_msgs_drained (mbox w') = msgbox_irq_msgs_drained (mbox w) + Z.of_nat (length (pend (env w))).
Proof.
  intros Hcb Hst Hl Hb Eb Hc HP.
  assert (Hcb' : forall h t d w, P h w ->
    wp (cb t d) (fun _ w' => P (h ++ [(t, d)]) w' /\ env w' = env w /\ mbox w' = mbox w) w).
  { intros h t d w0 H0. destruct (Hcb h t d w0 H0) as (w1 & E & H1). by eapply run_wp. }
  destruct (wp_run _ _ _ (irq_handler_wp base pend cb P Hcb' Hst w Hl Hb Eb Hc HP)) as (r & w' & E & -> & H1 & H2 & H3).
  by exists w'.
Qed.

(** Two acknowledgements and a return are waiting; the callback logs what it is given. *)
Definition rx_world : world := set_env (set_mbox blank_world (mb_callback true blank_msgbox)) [2; 0x10003; 1].
Definition log_cb (t d : Z) : M unit := modify (fun w => set_works w (works w ++ [(t, d)])).

Lemma irq_delivers_in_order_witness : exists w',
  cpu_comm_msgbox_irq_handler log_cb rx_world = Ret true w' /\ works w' = [(2, 2); (3, 1); (1, 2)].
Proof.
  destruct (irq_delivers_in_order 0xF0900000 id fifo_regs_rx log_cb (fun h w => works w = h) rx_world)
    as (w' & E & _ & H & _).
  - intros h t d w <-. eexists. split; [reflexivity | done].
  - done.
  - simpl. lia.
  - done.
  - done.
  - done.
  - done.
  - exists w'. split; [exact E | exact H].
Defined.

(** A packet to ARISC survives the trip through the FIFO: [cpu_comm_send_to_arisc] pushes words
    that parse back to the next sequence number, the type and the payload bytes, then rings the
    doorbell, and the sequence number advances modulo 256. *)
Theorem arisc_packet_roundtrip {R : Regs} type length pdata w :
  msgbox_ctrl_base (mbox w) <> 0 -> 0 <= type < 256 -> 0 <= length <= 132 -> length = 0 \/ pdata <> 0 ->
  exists ws w', cpu_comm_send_to_arisc type length pdata w = Ret 0 w' /\
    (let base := msgbox_ctrl_base (mbox w) in
     mmio w' = mmio w ++ map (fun v => (base + H713_MSGBOX_ARISC_TX_DATA, v, mm w)) ws ++
       [(base + H713_MSGBOX_ARISC_TX_IRQ_EN, H713_MSGBOX_ARISC_TX_BIT, mm w);
        (base + H713_MSGBOX_ARISC_TX_IRQ_EN, 0, mm w)]) /\
    arisc_parse ws = Some (u8 (arisc_tx_seq (mbox w) + 1), type, bytes (Z.to_nat length) (mm w) pdata) /\
    arisc_tx_seq (mbox w') = u8 (arisc_tx_seq (mbox w) + 1).
Proof.
  intros Hb Ht Hl Hp. set (seq := u8 (arisc_tx_seq (mbox w) + 1)). pose proof (u8_range (arisc_tx_seq (mbox w) + 1)) as Hs.
  pose proof (bytes_range (Z.to_nat length) (mm w) pdata) as Hpb.
  pose proof (bytes_length (Z.to_nat length) (mm w) pdata) as Hpl. set (payload := bytes _ (mm w) pdata) in *.
  set (ws := map (word_at (arisc_buf seq type length payload)) (List.seq 0 (Z.to_nat ((8 + length + 3) / 4)))).
  assert (Hw : wp (cpu_comm_send_to_arisc type length pdata) (fun r w' => r = 0 /\
    mmio w' = mmio w ++ map (fun v => (msgbox_ctrl_base (mbox w) + H713_MSGBOX_ARISC_TX_DATA, v, mm w)) ws ++
      [(msgbox_ctrl_base (mbox w) + H713_MSGBOX_ARISC_TX_IRQ_EN, H713_MSGBOX_ARISC_TX_BIT, mm w);
       (msgbox_ctrl_base (mbox w) + H713_MSGBOX_ARISC_TX_IRQ_EN, 0, mm w)] /\ arisc_tx_seq (mbox w') = seq) w).
  { unfold cpu_comm_send_to_arisc, mb, mb_set, writel. wp_step. rewrite (eqb_neq_false _ 0 Hb), ltb_false by lia.
    assert (negb (length =? 0) && (pdata =? 0) = false) as ->.
    { destruct Hp as [->|Hp]; [done|]. by rewrite (eqb_neq_false pdata 0 Hp), andb_false_r. }
    repeat wp_step. eapply wp_call; [apply push_words_wp|].
    { apply Forall_forall. intros x Hx. apply list_elem_of_In, in_map_iff in Hx as (i & <- & _).
      apply word_at_range, arisc_buf_bytes; try done; lia. }
    intros [] w' ->. repeat wp_step. ands; [done | | done]. simpl. by rewrite <- !app_assoc. }
  destruct (wp_run _ _ _ Hw) as (r & w' & E & -> & H1 & H2). exists ws, w'. ands; try done.
  apply arisc_parse_buf; try done; unfold seq; lia.
Qed.

Lemma arisc_packet_roundtrip_witness : exists ws w',
  cpu_comm_send_to_arisc 7 3 0x5000 (set_mm blank_world (wrbytes ∅ 0x5000 [1; 2; 3])) = Ret 0 w' /\
  arisc_parse ws = Some (1, 7, [1; 2; 3]).
Proof.
  destruct (arisc_packet_roundtrip 7 3 0x5000 (set_mm blank_world (wrbytes ∅ 0x5000 [1; 2; 3])))
    as (ws & w' & E & _ & H & _); [discriminate | lia | lia | by right |].
  exists ws, w'. split; [exact E | exact H].
Defined.
