(* ===== verification/UserQueue.v ===== *)
(** Delivery to user space ([cpu_comm_user.c]): every open of /dev/cpu_comm has a
    bounded queue of 104-byte messages; a message goes to all of them, the oldest
    one of a full queue makes room.

    Open files are the contexts of the world, in the order of the global list; a
    file is named by the number [uc_id].  User memory ([Uaccess]), allocation
    ([Kmalloc]) and sleeping ([WaitEvent]) are parameters. *)
From S2P Require Import Prelude Mem Kernel Shm.

Definition USER_QUEUE_MAX : Z := 32.
Definition EBADF : Z := 9.
Definition EAGAIN : Z := 11.

(** [access_ok a n w]: the [n] bytes at user address [a] can be accessed;
    [fault_mem] is what a copy that faults leaves behind. *)
Class Uaccess := {
  access_ok : Z -> Z -> world -> bool;
  fault_mem : Z -> Z -> world -> mem;
}.

(** An allocation succeeds or not, and concerns nothing the code can see. *)
Class Kmalloc := kmalloc_env : Z -> world -> bool * list Z.

(** [wait_event_interruptible]: 0 or an error; others run meanwhile. *)
Class WaitEvent := wait_event : Z -> world -> Z * world.

Definition kmalloc {A : Kmalloc} (size : Z) : M bool := fun w =>
  let '(ok, e) := kmalloc_env size w in Ret ok (set_env w e).

Section Uaccess.
Context {U : Uaccess}.

(** [None] is a fault. *)
Definition get_user (n : nat) (a : Z) : M (option Z) := fun w =>
  Ret (if access_ok a (Z.of_nat n) w then Some (ld n (mm w) a) else None) w.

(** [false]: all bytes were copied. *)
Definition copy_to_user (dst : Z) (data : list Z) : M bool := fun w =>
  let n := Z.of_nat (length data) in
  if access_ok dst n w then Ret false (set_mm w (wrbytes (mm w) dst data))
  else Ret true (set_mm w (fault_mem dst n w)).

Definition copy_from_user (dst src : Z) (n : nat) : M bool := fun w =>
  if access_ok src (Z.of_nat n) w then Ret false (set_mm w (wrbytes (mm w) dst (bytes n (mm w) src)))
  else Ret true (set_mm w (fault_mem dst (Z.of_nat n) w)).
End Uaccess.

Section UserQueue.
Context {A : Kmalloc} {U : Uaccess} {E : WaitEvent}.

(** One context: take a copy, dropping the oldest of a full queue. *)
Definition enqueue (msg : list Z) (c : user_ctx) : user_ctx :=
  let '(q, n, d) :=
    if USER_QUEUE_MAX <=? uc_count c then (tl (uc_queue c), uc_count c - 1, uc_dropped c + 1)
    else (uc_queue c, uc_count c, uc_dropped c) in
  UserCtx (uc_id c) (q ++ [msg]) (n + 1) (uc_owner c) d.

Definition drop_one (c : user_ctx) : user_ctx :=
  UserCtx (uc_id c) (uc_queue c) (uc_count c) (uc_owner c) (uc_dropped c + 1).

Fixpoint deliver_to (msg : list Z) (l : list user_ctx) : M (list user_ctx) :=
  match l with
  | [] => mret []
  | c :: l' =>
      node ← kmalloc 112;
      rest ← deliver_to msg l';
      mret ((if (node : bool) then enqueue msg c else drop_one c) :: rest)
  end.

(** [msg]: the address of the message. *)
Definition cpu_comm_userspace_deliver (msg : Z) : M unit :=
  if msg =? 0 then mret tt else
  rd32 (msg + 40) ;;
  data ← gets (fun w => bytes (Z.to_nat COMM_MSG_SIZE) (mm w) msg);
  l ← gets user_ctxs;
  l' ← deliver_to data l;
  modify (fun w => set_user_ctxs w l').

Definition cpu_comm_user_open (file : Z) : M Z :=
  ok ← kmalloc 64;
  if negb ok then mret (- ENOMEM) else
  pid ← gets cur_pid;
  modify (fun w => set_user_ctxs w (user_ctxs w ++ [UserCtx file [] 0 pid 0])) ;;
  mret 0.

Definition find_ctx (file : Z) (l : list user_ctx) : option user_ctx :=
  List.find (fun c => uc_id c =? file) l.

Definition cpu_comm_user_release (file : Z) : M unit :=
  modify (fun w => set_user_ctxs w (List.filter (fun c => negb (uc_id c =? file)) (user_ctxs w))).

Definition update_ctx (c : user_ctx) (l : list user_ctx) : list user_ctx :=
  map (fun x => if uc_id x =? uc_id c then c else x) l.

(** The wait for a message: the oldest one, or the error to return. *)
Definition next_message (fuel : nat) (file : Z) (nonblock : bool) : M (list Z + Z) :=
  loop fuel (fun _ : unit =>
    l ← gets user_ctxs;
    match find_ctx file l with
    | None => mret (inr (inr (- EBADF)))
    | Some c =>
        match uc_queue c with
        | msg :: q =>
            modify (fun w => set_user_ctxs w
              (update_ctx (UserCtx (uc_id c) q (uc_count c - 1) (uc_owner c) (uc_dropped c)) l)) ;;
            mret (inr (inl msg))
        | [] =>
            if nonblock then mret (inr (inr (- EAGAIN))) else
            rc ← lift_env (wait_event file);
            mret (if negb (rc =? 0) then inr (inr rc) else inl tt)
        end
    end) tt.

Definition cpu_comm_user_read (fuel : nat) (file : Z) (nonblock : bool) (buf count : Z) : M Z :=
  l ← gets user_ctxs;
  match find_ctx file l with
  | None => mret (- EBADF)
  | Some _ =>
      if count <? COMM_MSG_SIZE then mret (- EINVAL) else
      r ← next_message fuel file nonblock;
      match r with
      | inr err => mret err
      | inl msg =>
          fault ← copy_to_user buf msg;
          mret (if (fault : bool) then - EFAULT else COMM_MSG_SIZE)
      end
  end.

Definition POLLIN : Z := 1.
Definition POLLERR : Z := 8.
Definition POLLRDNORM : Z := 64.

Definition cpu_comm_user_poll (file : Z) : M Z :=
  l ← gets user_ctxs;
  mret match find_ctx file l with
       | None => POLLERR
       | Some c => match uc_queue c with [] => 0 | _ => POLLIN |. POLLRDNORM end
       end.
End UserQueue.

(** ** The queues *)

Definition ctx_ok (c : user_ctx) : Prop :=
  uc_count c = Z.of_nat (length (uc_queue c)) /\ uc_count c <= USER_QUEUE_MAX /\
  Forall (fun m => length m = Z.to_nat COMM_MSG_SIZE) (uc_queue c).

Definition queues_ok (l : list user_ctx) : Prop := Forall ctx_ok l /\ NoDup (map uc_id l).

(** The newest [n] elements of a list. *)
Definition newest {X} (n : nat) (l : list X) : list X := drop (length l - n) l.

Lemma newest_snoc {X} (n : nat) (l : list X) x :
  newest (Datatypes.S n) (l ++ [x]) = newest n l ++ [x].
Proof.
  unfold newest. rewrite length_app. simpl.
  replace (length l + 1 - Datatypes.S n)%nat with (length l - n)%nat by lia.
  rewrite drop_app_le by lia. done.
Qed.

Lemma newest_all {X} (n : nat) (l : list X) : (length l <= n)%nat -> newest n l = l.
Proof. intros H. unfold newest. by replace (length l - n)%nat with 0%nat by lia. Qed.

Lemma newest_tl {X} (n : nat) (l : list X) : length l = Datatypes.S n -> newest n l = tl l.
Proof. intros H. unfold newest. replace (length l - n)%nat with 1%nat by lia. by destruct l. Qed.

Lemma enqueue_ok msg c : ctx_ok c -> length msg = Z.to_nat COMM_MSG_SIZE -> ctx_ok (enqueue msg c).
Proof.
  intros (H1 & H2 & H3) Hm. unfold ctx_ok, enqueue. destruct (Z.leb_spec USER_QUEUE_MAX (uc_count c)).
  - destruct (uc_queue c) as [|m q]; [unfold USER_QUEUE_MAX in *; simpl in *; lia|]. simpl in *.
    rewrite length_app. simpl. ands; [lia | lia|]. apply Forall_cons in H3 as [_ H3]. apply Forall_app. by split; [|constructor].
  - simpl. rewrite length_app. simpl. ands; [lia | lia |]. apply Forall_app. by split; [|constructor].
Qed.

(** A queue keeps the newest 32 messages. *)
Lemma enqueue_window msg c : ctx_ok c -> uc_queue (enqueue msg c) = newest 32 (uc_queue c ++ [msg]).
Proof.
  intros (H1 & H2 & H3). rewrite newest_snoc. unfold enqueue, USER_QUEUE_MAX in *.
  destruct (Z.leb_spec 32 (uc_count c)); simpl.
  - by rewrite newest_tl by lia.
  - by rewrite newest_all by lia.
Qed.

Lemma enqueue_id msg c : uc_id (enqueue msg c) = uc_id c.
Proof. unfold enqueue. by destruct (_ <=? _). Qed.

Lemma drop_one_ok c : ctx_ok c -> ctx_ok (drop_one c).
Proof. done. Qed.

Section Deliver.
Context {A : Kmalloc}.

(** What a delivery can do to one context. *)
Definition delivered (msg : list Z) (c c' : user_ctx) : Prop := c' = enqueue msg c \/ c' = drop_one c.

Lemma deliver_to_wp msg l w : wp (deliver_to msg l)
  (fun l' w' => Forall2 (delivered msg) l l' /\ exists e, w' = set_env w e) w.
Proof.
  revert w. induction l as [|c l IH]; intros w; simpl.
  - apply wp_ret. split; [constructor|]. exists (env w). by destruct w.
  - apply wp_bind. unfold kmalloc, wp at 1. destruct (kmalloc_env 112 w) as [ok e].
    eapply wp_call; [apply IH|]. intros l' w' (HF & e' & ->). apply wp_ret. split; [|by exists e'].
    constructor; [|done]. destruct ok; [by left | by right].
Qed.

Lemma delivered_ids msg l l' : Forall2 (delivered msg) l l' -> map uc_id l' = map uc_id l.
Proof.
  induction 1 as [|c c' l l' [-> | ->] _ IH]; simpl; [done | |]; by rewrite ?enqueue_id, IH.
Qed.

Lemma delivered_ok msg l l' : length msg = Z.to_nat COMM_MSG_SIZE -> Forall2 (delivered msg) l l' ->
  queues_ok l -> queues_ok l'.
Proof.
  intros Hm HF [H1 H2]. split; [|by rewrite (delivered_ids _ _ _ HF)]. clear H2.
  induction HF as [|c c' l l' [-> | ->] _ IH]; [constructor | |]; apply Forall_cons in H1 as [Hc Hl];
    constructor; auto using enqueue_ok, drop_one_ok.
Qed.

Lemma deliver_wp msg w : 4096 <= msg -> wp (cpu_comm_userspace_deliver msg)
  (fun _ w' => exists l' e, w' = set_user_ctxs (set_env w e) l' /\
     Forall2 (delivered (bytes (Z.to_nat COMM_MSG_SIZE) (mm w) msg)) (user_ctxs w) l') w.
Proof.
  intros Hm. unfold cpu_comm_userspace_deliver. rewrite eqb_neq_false by lia. repeat wp_step.
  eapply wp_call; [apply deliver_to_wp|]. intros l' w' (HF & e & ->). exists l', e. done.
Qed.
End Deliver.

(** ** Sequences of operations *)

Section Runs.
Context {A : Kmalloc} {U : Uaccess} {E : WaitEvent}.

Inductive uop : Type :=
| UOpen (file : Z)
| UDeliver (msg : Z)
| URead (file buf count : Z)      (* O_NONBLOCK *)
| UPoll (file : Z)
| URelease (file : Z).

(** Every open has a file of its own. *)
Definition run_uop (o : uop) : M unit :=
  match o with
  | UOpen f => l ← gets user_ctxs;
      match find_ctx f l with None => cpu_comm_user_open f ;; mret tt | Some _ => mret tt end
  | UDeliver msg => cpu_comm_userspace_deliver msg
  | URead f buf count => cpu_comm_user_read 1 f true buf count ;; mret tt
  | UPoll f => cpu_comm_user_poll f ;; mret tt
  | URelease f => cpu_comm_user_release f
  end.

Fixpoint run_uops (l : list uop) : M unit :=
  match l with [] => mret tt | o :: l' => run_uop o ;; run_uops l' end.

Definition uop_ok (o : uop) : Prop := match o with UDeliver msg => 4096 <= msg | _ => True end.

Lemma find_ctx_none f l : find_ctx f l = None -> f ∉ map uc_id l.
Proof.
  intros H Hin. apply list_elem_of_In, in_map_iff in Hin as (c & <- & Hc).
  pose proof (find_none _ _ H c Hc) as Hn. simpl in Hn. by rewrite Z.eqb_refl in Hn.
Qed.

Lemma find_ctx_some f l c : find_ctx f l = Some c -> c ∈ l /\ uc_id c = f.
Proof.
  intros H. destruct (find_some _ _ H) as [H1 H2]. split; [by apply list_elem_of_In | by apply Z.eqb_eq].
Qed.

Lemma update_ids c l : map uc_id (update_ctx c l) = map uc_id l.
Proof.
  unfold update_ctx. rewrite map_map. apply map_ext. intros x. by destruct (Z.eqb_spec (uc_id x) (uc_id c)).
Qed.

Lemma update_ok c l : ctx_ok c -> queues_ok l -> queues_ok (update_ctx c l).
Proof.
  intros Hc [H1 H2]. split; [|by rewrite update_ids]. unfold update_ctx. apply Forall_fmap.
  eapply Forall_impl; [exact H1|]. intros x Hx. simpl. by destruct (uc_id x =? uc_id c).
Qed.

Lemma filter_ok (p : user_ctx -> bool) l : queues_ok l -> queues_ok (List.filter p l).
Proof.
  intros [H1 H2]. split.
  - apply Forall_forall. intros c Hc. apply list_elem_of_In, filter_In in Hc as [Hc _].
    rewrite Forall_forall in H1. by apply H1, list_elem_of_In.
  - clear H1. induction l as [|c l IH]; simpl; [constructor|]. apply NoDup_cons in H2 as [Hn Hd].
    destruct (p c); [|by apply IH]. simpl. apply NoDup_cons. split; [|by apply IH].
    intros Hin. apply Hn. apply list_elem_of_In, in_map_iff in Hin as (x & <- & Hx). apply filter_In in Hx as [Hx _].
    by apply list_elem_of_In, in_map.
Qed.

Lemma pop_ok c m q : ctx_ok c -> uc_queue c = m :: q ->
  ctx_ok (UserCtx (uc_id c) q (uc_count c - 1) (uc_owner c) (uc_dropped c)).
Proof.
  intros (H1 & H2 & H3) Eq. rewrite Eq in *. apply Forall_cons in H3 as [_ H3]. unfold ctx_ok. simpl in *.
  ands; [lia | lia | done].
Qed.

(** A read that does not sleep: what it returns and what it changes. *)
Lemma read_wp f buf count w :
  wp (cpu_comm_user_read 1 f true buf count) (fun r w' =>
    match find_ctx f (user_ctxs w) with
    | None => r = - EBADF /\ w' = w
    | Some c =>
        if count <? COMM_MSG_SIZE then r = - EINVAL /\ w' = w else
        match uc_queue c with
        | [] => r = - EAGAIN /\ w' = w
        | m :: q =>
            let w1 := set_user_ctxs w (update_ctx (UserCtx (uc_id c) q (uc_count c - 1) (uc_owner c) (uc_dropped c)) (user_ctxs w)) in
            if access_ok buf (Z.of_nat (length m)) w1
            then r = COMM_MSG_SIZE /\ w' = set_mm w1 (wrbytes (mm w) buf m)
            else r = - EFAULT /\ w' = set_mm w1 (fault_mem buf (Z.of_nat (length m)) w1)
        end
    end) w.
Proof.
  unfold cpu_comm_user_read. wp_step. destruct (find_ctx f (user_ctxs w)) as [c|] eqn:Ef; [|by apply wp_ret].
  destruct (count <? COMM_MSG_SIZE); [by apply wp_ret|]. unfold next_message. simpl loop.
  wp_step. wp_step. wp_step. rewrite Ef. destruct (uc_queue c) as [|m q] eqn:Eq.
  - repeat wp_step. done.
  - repeat wp_step. unfold wp, copy_to_user, mbind, M_bind.
    match goal with |- context [access_ok buf ?n ?w1] => destruct (access_ok buf n w1) end; done.
Qed.

Lemma run_uop_wp o w : uop_ok o -> queues_ok (user_ctxs w) ->
  wp (run_uop o) (fun _ w' => queues_ok (user_ctxs w')) w.
Proof.
  intros Ho H. destruct o as [f | msg | f buf count | f | f]; simpl.
  - wp_step. destruct (find_ctx f (user_ctxs w)) as [c|] eqn:Ef; [by apply wp_ret|].
    unfold cpu_comm_user_open. wp_step. apply wp_bind. unfold kmalloc, wp at 1.
    destruct (kmalloc_env 64 w) as [ok e]. destruct ok; cbn [negb]; [|by repeat wp_step].
    repeat wp_step. destruct H as [H1 H2]. simpl. split.
    + apply Forall_app. split; [done|]. constructor; [|done]. unfold ctx_ok. simpl. ands; [done | unfold USER_QUEUE_MAX; lia | done].
    + rewrite map_app. apply NoDup_app. ands; [done | | apply NoDup_singleton]. intros x Hx. simpl.
      rewrite list_elem_of_singleton. intros ->. by apply (find_ctx_none _ _ Ef).
  - eapply wp_mono; [by apply deliver_wp|]. intros _ w' (l' & e & -> & HF). simpl.
    eapply delivered_ok; [|exact HF | done]. apply bytes_length.
  - eapply wp_call; [apply read_wp|]. intros r w' HR. apply wp_ret.
    destruct (find_ctx f (user_ctxs w)) as [c|] eqn:Ef; [|by destruct HR as [_ ->]].
    destruct (count <? COMM_MSG_SIZE); [by destruct HR as [_ ->]|].
    destruct (uc_queue c) as [|m q] eqn:Eq; [by destruct HR as [_ ->]|]. cbv zeta in HR.
    assert (Hu : queues_ok (update_ctx (UserCtx (uc_id c) q (uc_count c - 1) (uc_owner c) (uc_dropped c)) (user_ctxs w))).
    { apply update_ok; [|done]. eapply pop_ok; [|exact Eq]. destruct H as [H _]. rewrite Forall_forall in H.
      apply H. by apply (find_ctx_some f). }
    match type of HR with context [access_ok ?x ?y ?z] => destruct (access_ok x y z) end; by destruct HR as [_ ->].
  - unfold cpu_comm_user_poll. by repeat wp_step.
  - unfold cpu_comm_user_release. apply (wp_modify _ (fun _ => mret tt)). apply wp_ret. simpl. by apply filter_ok.
Qed.

Lemma run_uops_wp l w : Forall uop_ok l -> queues_ok (user_ctxs w) ->
  wp (run_uops l) (fun _ w' => queues_ok (user_ctxs w')) w.
Proof.
  intros Hl. revert w. induction Hl as [|o l Ho Hl IH]; intros w H; simpl; [by apply wp_ret|].
  eapply wp_call; [by apply run_uop_wp|]. intros [] w' H'. by apply IH.
Qed.

(** Deliver the messages at these addresses, one after the other. *)
Fixpoint deliver_all (l : list Z) : M unit :=
  match l with [] => mret tt | msg :: l' => cpu_comm_userspace_deliver msg ;; deliver_all l' end.

Definition message (m : mem) (a : Z) : list Z := bytes (Z.to_nat COMM_MSG_SIZE) m a.

Lemma newest_app {X} n (l k : list X) : newest n (newest n l ++ k) = newest n (l ++ k).
Proof.
  unfold newest. rewrite length_app, length_drop, length_app.
  destruct (decide (length l <= n)%nat) as [Hle|Hgt].
  - replace (length l - n)%nat with 0%nat by lia. simpl. f_equal. lia.
  - replace (length l + length k - n)%nat with ((length l - n) + length k)%nat by lia.
    replace (length l - (length l - n) + length k - n)%nat with (length k) by lia.
    rewrite <- drop_drop, <- (drop_app_le l k (length l - n)) by lia. done.
Qed.

Hypothesis Hok : forall n w, fst (kmalloc_env n w) = true.

Lemma deliver_to_run msg l w : exists e, deliver_to msg l w = Ret (map (enqueue msg) l) (set_env w e).
Proof.
  revert w. induction l as [|c l IH]; intros w; simpl; [exists (env w); by destruct w|].
  unfold mbind, M_bind, kmalloc. pose proof (Hok 112 w) as Ho. destruct (kmalloc_env 112 w) as [ok e]. simpl in Ho. subst ok.
  destruct (IH (set_env w e)) as (e' & ->). by exists e'.
Qed.

Lemma deliver_all_wp l w : Forall (Z.le 4096) l -> Forall ctx_ok (user_ctxs w) ->
  wp (deliver_all l) (fun _ w' => exists e cs, w' = set_user_ctxs (set_env w e) cs /\
    Forall2 (fun c c' => uc_id c' = uc_id c /\ uc_queue c' = newest 32 (uc_queue c ++ map (message (mm w)) l) /\ ctx_ok c')
      (user_ctxs w) cs) w.
Proof.
  intros Hl. revert w. induction Hl as [|a l Ha Hl IH]; intros w Hw; simpl.
  - apply wp_ret. exists (env w), (user_ctxs w). split; [by destruct w|].
    induction Hw as [|c cs Hc Hcs IHw]; constructor; [|done]. rewrite app_nil_r. pose proof Hc as (H1 & H2 & _).
    unfold USER_QUEUE_MAX in H2. rewrite newest_all by lia. done.
  - set (w1 := set_user_ctxs w (map (enqueue (message (mm w) a)) (user_ctxs w))).
    assert (Hr : wp (cpu_comm_userspace_deliver a) (fun _ w' => exists e, w' = set_env w1 e) w).
    { unfold cpu_comm_userspace_deliver. rewrite eqb_neq_false by lia. repeat wp_step.
      destruct (deliver_to_run (message (mm w) a) (user_ctxs w) w) as (e & Ee).
      eapply wp_eq; [exact Ee|]. by exists e. }
    eapply wp_call; [exact Hr|]. intros [] w0 (e & ->).
    assert (H1 : Forall ctx_ok (user_ctxs w1)).
    { unfold w1. simpl. apply Forall_fmap. eapply Forall_impl; [exact Hw|]. intros c Hc. apply enqueue_ok; [done|]. apply bytes_length. }
    eapply wp_mono; [by apply IH|]. intros [] w' (e' & cs & -> & HF). exists e', cs. split; [done|].
    simpl in HF. apply Forall2_fmap_l in HF. rewrite Forall_forall in Hw.
    apply Forall2_same_length_lookup. apply Forall2_same_length_lookup in HF as [HL HF]. split; [done|].
    intros i c c' Hc Hc'. destruct (HF i c c' Hc Hc') as (E1 & E2 & E3). simpl in *. rewrite E1, enqueue_id, E2.
    rewrite enqueue_window by (apply Hw; by eapply list_elem_of_lookup_2). rewrite newest_app, <- app_assoc. done.
Qed.
End Runs.

Lemma find_ctx_Forall2 (Q : user_ctx -> user_ctx -> Prop) f l k c :
  Forall2 (fun c c' => uc_id c' = uc_id c /\ Q c c') l k -> find_ctx f l = Some c ->
  exists c', find_ctx f k = Some c' /\ Q c c'.
Proof.
  induction 1 as [|x x' l k [Ei HQ] _ IH]; simpl; [done|]. rewrite Ei.
  destruct (uc_id x =? f); [intros [= <-]; by exists x' | exact IH].
Qed.

Lemma find_ctx_update f l c c' : find_ctx f l = Some c -> uc_id c' = f -> find_ctx f (update_ctx c' l) = Some c'.
Proof.
  intros H <-. induction l as [|x l IH]; simpl in *; [done|].
  destruct (Z.eqb_spec (uc_id x) (uc_id c')) as [Ex|Ex]; simpl.
  - by rewrite Z.eqb_refl.
  - rewrite (eqb_neq_false _ _ Ex). by apply IH.
Qed.

(** ** Properties *)

(** User memory below 0xC0000000 can be accessed, allocation succeeds, nobody wakes a reader. *)
#[export] Instance user_low : Uaccess := {|
  access_ok a n _ := (0 <? a) && (a + n <=? 0xC0000000);
  fault_mem _ _ w := mm w;
|}.
#[export] Instance kmalloc_always : Kmalloc := fun _ w => (true, env w).
#[export] Instance never_woken : WaitEvent := fun _ w => (- EINTR, w).

(** C32: Every sequence of opens, deliveries, non-blocking reads, polls and releases of /dev/cpu_comm
    returns, and keeps the queues well formed, whether or not allocations and user copies succeed:
    each context's count is the length of its queue, at most 32, each message is 104 bytes, and no
    two contexts belong to the same open file. *)
Theorem user_queues_invariant {A : Kmalloc} {U : Uaccess} {E : WaitEvent} l w :
  Forall uop_ok l -> queues_ok (user_ctxs w) ->
  exists w', run_uops l w = Ret tt w' /\ queues_ok (user_ctxs w').
Proof.
  intros Hl H. destruct (wp_run _ _ _ (run_uops_wp l w Hl H)) as ([] & w' & E1 & H1). by exists w'.
Qed.

Lemma user_queues_invariant_witness : exists w',
  run_uops [UOpen 3; UDeliver 0x5000; UOpen 4; URead 3 0x100 104; UPoll 4; URelease 3] blank_world = Ret tt w' /\
  queues_ok (user_ctxs w').
Proof.
  apply user_queues_invariant; [repeat constructor; simpl; lia | split; constructor].
Defined.

(** What a reader sees.  After any number of deliveries an open file holds the newest 32 of the
    messages it had and the messages delivered, in order.  A read gives the oldest of those: all its
    104 bytes and the count 104, or -EAGAIN when there is none; a read whose copy faults returns
    -EFAULT, and that message is gone. *)
Theorem user_read_sees_newest {A : Kmalloc} {U : Uaccess} {E : WaitEvent} l w f c buf :
  (forall n w, fst (kmalloc_env n w) = true) -> Forall (Z.le 4096) l -> Forall ctx_ok (user_ctxs w) ->
  find_ctx f (user_ctxs w) = Some c ->
  exists w1, deliver_all l w = Ret tt w1 /\
    match newest 32 (uc_queue c ++ map (message (mm w)) l) with
    | [] => cpu_comm_user_read 1 f true buf COMM_MSG_SIZE w1 = Ret (- EAGAIN) w1
    | m :: q => exists r w2 c2, cpu_comm_user_read 1 f true buf COMM_MSG_SIZE w1 = Ret r w2 /\
        (r = COMM_MSG_SIZE /\ mm w2 = wrbytes (mm w) buf m \/ r = - EFAULT) /\
        find_ctx f (user_ctxs w2) = Some c2 /\ uc_queue c2 = q
    end.
Proof.
  intros Hok Hl Hw Hf. destruct (wp_run _ _ _ (deliver_all_wp Hok l w Hl Hw)) as ([] & w1 & E1 & e & cs & -> & HF).
  destruct (find_ctx_Forall2 _ _ _ _ _ HF Hf) as (c1 & Hf1 & Eq & _).
  eexists. split; [exact E1|]. set (w1 := set_user_ctxs (set_env w e) cs) in *.
  destruct (wp_run _ _ _ (read_wp f buf COMM_MSG_SIZE w1)) as (r & w2 & E2 & HR).
  change (user_ctxs w1) with cs in HR. rewrite Hf1, Eq in HR. change (COMM_MSG_SIZE <? COMM_MSG_SIZE) with false in HR.
  cbv iota zeta in HR. destruct (newest 32 _) as [|m q]; [by destruct HR as [-> ->]|].
  destruct (find_ctx_some _ _ _ Hf1) as [_ Eid].
  set (c2 := UserCtx (uc_id c1) q (uc_count c1 - 1) (uc_owner c1) (uc_dropped c1)) in *.
  assert (Hf2 : find_ctx f (update_ctx c2 cs) = Some c2) by (by eapply find_ctx_update).
  exists r, w2, c2. split; [exact E2|].
  match type of HR with context [access_ok ?x ?y ?z] => destruct (access_ok x y z) end; destruct HR as [-> ->]; auto.
Qed.

Lemma user_read_sees_newest_witness : exists w1,
  deliver_all [0x5000] (set_user_ctxs blank_world [UserCtx 3 [] 0 1 0]) = Ret tt w1 /\
  exists r w2 c2, cpu_comm_user_read 1 3 true 0x100 COMM_MSG_SIZE w1 = Ret r w2 /\
    (r = COMM_MSG_SIZE /\ mm w2 = wrbytes ∅ 0x100 (message ∅ 0x5000) \/ r = - EFAULT) /\
    find_ctx 3 (user_ctxs w2) = Some c2 /\ uc_queue c2 = [].
Proof.
  apply (user_read_sees_newest [0x5000] (set_user_ctxs blank_world [UserCtx 3 [] 0 1 0]) 3 (UserCtx 3 [] 0 1 0) 0x100);
    [done | repeat constructor; lia | repeat constructor; simpl; unfold USER_QUEUE_MAX; lia | done].
Defined.
