(* ===== verification/Proto.v ===== *)
(** The message protocol ([cpu_comm_proto.c]): sending a call or a return and
    waiting for its acknowledgement, acting on what the other CPU sent, and the
    dispatch from the mailbox to the work queue.

    [works] of the world are the pending [s_action_work[cpu][type]]; scheduling
    one that is pending does nothing.  The trace output (which only reads the
    status words) and the memory barriers are left out.  [find_buf] is the
    96-byte buffer on the stack of [SendComm2CPUEx]. *)
From S2P Require Import Prelude Mem Kernel Fifo Shm SpinLock Flags SeqMem DList Channel Routine Msgbox UserQueue.

Definition SEND_TIMEOUT_JIFFIES : Z := 500.
Definition ERESTARTSYS : Z := 512.

Class Jiffies := msecs_to_jiffies : Z -> Z.

(** The statics of the file. *)
Class ProtoGlobals := { comm_intrsem : Z; intr_sems : Z }.

(** More polls than a wait for a free wait object is expected to take; the code
    itself has no limit. *)
Definition wait_fuel : nat := Z.to_nat 1000.

Section Proto.
Context {S : Shm} {K : Kernel} {J : Jiffies} {A : Kmalloc} {U : Uaccess} {G : ProtoGlobals}.

Definition init_intrsem : M unit :=
  memset comm_intrsem 0 64 ;;
  for_ 4 0 (fun i => k_sema_init (intr_sems + 16 * i) 0).

(** ** The work queue *)

Definition work_eqb (a b : Z * Z) : bool := (fst a =? fst b) && (snd a =? snd b).

Definition schedule_work (cpu type : Z) : M unit :=
  modify (fun w => if existsb (work_eqb (cpu, type)) (works w) then w
                   else set_works w (works w ++ [(cpu, type)])).

Definition queueAction (direction cpu : Z) : M Z :=
  if (1 <? cpu) || (3 <? direction) then mret (- EINVAL) else
  schedule_work cpu direction ;;
  mret 0.

(** ** Sending *)

(** [while (!( *p & bit)) ;] on a byte nobody else clears meanwhile *)
Definition spin_until (p bit : Z) : M unit :=
  loop wait_fuel (fun _ : unit =>
    v ← rd8 p; mret (if negb ((v &. bit) =? 0) then inr tt else inl tt)) tt.

Definition spin_while (p bit : Z) : M unit :=
  loop wait_fuel (fun _ : unit =>
    v ← rd8 p; mret (if (v &. bit) =? 0 then inr tt else inl tt)) tt.

Definition SendCommLow (seq slot type param sem_ptr : Z) : M Z :=
  if seq =? 0 then mret (- EINVAL) else
  src ← rd8 (seq + 1);
  dst ← rd8 seq;
  if negb (src =? getCurCPUID) then mret (- EINVAL) else
  dir ← rd8 (seq + 2);
  if (1 <? dir) || (FIFO_DEFAULT_CAP <=? slot) then mret (- EINVAL) else
  wr8 (seq + 16) slot ;;
  wr32 (seq + 20) param ;;
  wr64 (seq + 24) sem_ptr ;;
  c ← rd32 (seq + 4);
  wr32 (seq + 4) (c + 1) ;;
  wr8 (seq + 8) type ;;
  if dst =? src then queueAction dir getCurCPUID else
  st ← rd8 (seq + 8);
  wr8 (seq + 8) (st |. MSG_FLAG_SENT) ;;
  spin_until (seq + 8) MSG_FLAG_SENT ;;
  sunxi_cpu_comm_send_intr_to_mips 0 (if dir =? 0 then MSG_TYPE_CALL else MSG_TYPE_RETURN) ;;
  mret 0.

Definition SendAckLow (seq a2 a3 a4 a5 : Z) : M unit :=
  if seq =? 0 then mret tt else
  src ← rd8 (seq + 1);
  dst ← rd8 seq;
  if negb (src =? getCurCPUID) then mret tt else
  dir0 ← rd8 (seq + 2);
  if 1 <? dir0 then mret tt else
  sent ← rd8 (seq + 105);
  if negb ((sent &. 4) =? 0) then mret tt else
  wr8 (seq + 104) a2 ;;
  wr32 (seq + 108) a4 ;;
  wr8 (seq + 105) a3 ;;
  wr64 (seq + 112) a5 ;;
  dir ← rd8 (seq + 2);
  let ack_type := if dir =? 0 then MSG_TYPE_CALL_ACK else MSG_TYPE_RETURN_ACK in
  if dst =? src then queueAction ack_type getCurCPUID ;; mret tt else
  st ← rd8 (seq + 105);
  wr8 (seq + 105) (st |. 4) ;;
  spin_until (seq + 105) 4 ;;
  sunxi_cpu_comm_send_intr_to_mips 0 ack_type.

(** *** [SendComm2CPUEx], step by step *)

(** A field of the caller's message; [None] is a fault. *)
Definition msg_field (from_user : bool) (n : nat) (a : Z) : M (option Z) :=
  if from_user then get_user n a else v ← rd n a; mret (Some v).

(** Step 2: the destination, and whether the routine was looked up. *)
Definition resolve_dst (find_buf msg_ptr target_cpu : Z) (from_user : bool) : M (Z + Z * bool) :=
  let hint found :=
    dc ← msg_field from_user 2 (msg_ptr + 2);
    mret (match dc with None => inl (- EFAULT) | Some v => inr (v, found) end) in
  if target_cpu =? 0 then
    comp ← msg_field from_user 4 (msg_ptr + 40);
    match comp with
    | None => mret (inl (- EFAULT))
    | Some comp_id =>
        r ← FindRoutine comp_id find_buf;
        if negb (r =? 0) then mret (inl (-3)) else
        d ← rd8 (find_buf + 2);
        if 1 <? d then hint true else mret (inr (d, true))
    end
  else hint false.

(** Step 7: wait for room in the command FIFO, 100 times at most. *)
Definition wait_cmd_room (share_seq_w : Z) : M bool :=
  loop (Z.to_nat 102) (fun spins =>
    full ← fifo_isNearlyFull (share_seq_w + 32) 1;
    if full =? 0 then mret (inr true) else
    k_schedule ;;
    mret (if 100 <? spins + 1 then inr false else inl (spins + 1))) 0.

(** Step 8: a free call entry, or 0 after 101 attempts. *)
Definition get_call_slot (share_seq_w : Z) : M Z :=
  loop (Z.to_nat 102) (fun spins =>
    slot ← Comm_GetFreeCall share_seq_w;
    if negb (slot =? 0) then mret (inr slot) else
    k_schedule ;;
    mret (if 100 <? spins + 1 then inr 0 else inl (spins + 1))) 0.

(** Step 14: a wait object, however long it takes. *)
Definition get_wait_object (fifo : Z) : M Z :=
  loop wait_fuel (fun _ : unit =>
    r ← GetFreeWaitComm fifo;
    if negb (fst r =? 0) || (snd r =? 0) then k_schedule ;; mret (inl tt)
    else mret (inr (snd r))) tt.

(** Step 10: the message goes into the entry. *)
Definition copy_message (call_slot msg_ptr : Z) (from_user : bool) : M bool :=
  if from_user then copy_from_user call_slot msg_ptr (Z.to_nat COMM_MSG_SIZE)
  else memcpy call_slot msg_ptr (Z.to_nat COMM_MSG_SIZE) ;; mret false.

(** The routing fields of a looked-up routine. *)
Definition put_routing (call_slot find_buf : Z) : M unit :=
  a ← rd16 find_buf; wr16 call_slot a ;;
  b ← rd16 (find_buf + 2); wr16 (call_slot + 2) b ;;
  c ← rd32 (find_buf + 4); wr32 (call_slot + 16) c ;;
  d ← rd8 (find_buf + 2); wr32 (call_slot + 24) d.

(** Step 14, forward direction: the session and the routing of a call, *)
Definition assign_session (call_slot find_buf : Z) (found : bool) : M Z :=
  modify (fun w => set_session w ((s_CallSessionId w + 1) &. SESSION_ID_MASK)) ;;
  s ← gets s_CallSessionId;
  let session_id := s |. u32 (Z.shiftl getCurCPUID 30) in
  (if found then put_routing call_slot find_buf else mret tt) ;;
  wr32 (call_slot + 12) session_id ;;
  pid ← gets cur_pid;
  wr32 (call_slot + 28) pid ;;
  mret session_id.

(** and its wait object. *)
Definition attach_wait (call_slot dst_cpu session_id flags : Z) : M Z :=
  wait_ptr ← get_wait_object (getSeq dst_cpu + 136);
  wr32 wait_ptr session_id ;;
  pid ← gets cur_pid;
  wr32 (wait_ptr + 4) pid ;;
  AddtoWaitComm (getSeq dst_cpu + 40) wait_ptr ;;
  wr64 (call_slot + 32) wait_ptr ;;
  (if negb ((flags &. MSG_FLAG_RETURN_ACK) =? 0) then
     wr32 (call_slot + 60) session_id ;;
     wr32 (call_slot + 64) wait_ptr
   else mret tt) ;;
  mret wait_ptr.

Definition prepare_call (call_slot dst_cpu find_buf : Z) (found : bool) : M (Z * Z) :=
  session_id ← assign_session call_slot find_buf found;
  flags ← rd16 (call_slot + 6);
  if negb ((flags &. MSG_FLAG_NOTIFY) =? 0) && ((flags &. MSG_FLAG_RETURN_ACK) =? 0) then
    wr64 (call_slot + 32) 0 ;;
    mret (session_id, 0)
  else
    wait_ptr ← attach_wait call_slot dst_cpu session_id flags;
    mret (session_id, wait_ptr).

(** Step 16: tell the caller the session; [true] is a fault. *)
Definition copy_back (call_slot msg_ptr session_id dst_cpu direction : Z) (from_user : bool) : M bool :=
  if from_user then
    data ← gets (fun w => bytes (Z.to_nat COMM_MSG_SIZE) (mm w) call_slot);
    copy_to_user msg_ptr data
  else
    (if direction =? 0 then
       wr32 (msg_ptr + 12) session_id ;;
       wr16 (msg_ptr + 2) dst_cpu
     else mret tt) ;;
    mret false.

(** Steps 17 to 19: send, and wait for the acknowledgement. *)
Definition dispatch_and_wait (share_seq_w call_slot slot_idx msg_type session_id sem_ptr
    dst_cpu direction wait_ptr : Z) : M Z :=
  fl ← rd16 (call_slot + 10);
  wr16 (call_slot + 10) (fl |. MSG_FLAG_SENT) ;;
  SendCommLow share_seq_w slot_idx msg_type session_id (u32 (sem_ptr + 16)) ;;
  ret ← k_down_timeout (sem_ptr + 16) SEND_TIMEOUT_JIFFIES;
  (if negb (ret =? 0) then
     st ← rd8 (share_seq_w + 8);
     wr8 (share_seq_w + 8) (bic st MSG_FLAG_SENT) ;;
     if (direction =? 0) && negb (wait_ptr =? 0) then
       sid ← rd32 wait_ptr;
       GetWaitbySessionId (getSeq dst_cpu + 40) sid ;;
       ReleaseWaitComm dst_cpu wait_ptr
     else mret tt
   else fifo_ItemRdNext (share_seq_w + 32) ;; mret tt) ;;
  mret ret.

(** Steps 5 to 19: the status, and whether the semaphore is given back. *)
Definition send_holding (share_seq_w sem_ptr dst_cpu find_buf msg_ptr target_cpu : Z)
    (found from_user : bool) : M (Z * bool) :=
  reset ← IsCPUReset dst_cpu;
  if negb (reset =? 0) then mret (- ERESTARTSYS, true) else
  ready ← isCPUAppReady dst_cpu;
  if ready =? 0 then mret (-1, true) else
  room ← wait_cmd_room share_seq_w;
  if negb room then mret (- EBUSY, true) else
  call_slot ← get_call_slot share_seq_w;
  if call_slot =? 0 then mret (- EBUSY, true) else
  slot_idx ← rd16 (call_slot + 4);
  fault ← copy_message call_slot msg_ptr from_user;
  if (fault : bool) then mret (- EFAULT, true) else
  wr16 (call_slot + 4) slot_idx ;;
  let msg_type := if target_cpu =? 0 then 1 else 2 in
  wr16 (call_slot + 10) msg_type ;;
  if negb (call_slot =? share_seq_w + 104 * slot_idx + 360) then mret (- EINVAL, false) else
  direction ← rd8 (share_seq_w + 2);
  p ← (if direction =? 0 then prepare_call call_slot dst_cpu find_buf found
       else sid ← rd32 (call_slot + 12); mret (sid, 0));
  fault2 ← copy_back call_slot msg_ptr (fst p) dst_cpu direction from_user;
  if (fault2 : bool) then mret (- EFAULT, true) else
  ret ← dispatch_and_wait share_seq_w call_slot slot_idx msg_type (fst p) sem_ptr dst_cpu direction (snd p);
  mret (ret, true).

Definition SendComm2CPUEx (find_buf msg_ptr target_cpu : Z) (from_user : bool) : M Z :=
  if (msg_ptr =? 0) || (1 <? target_cpu) then mret (- EINVAL) else
  d ← resolve_dst find_buf msg_ptr target_cpu from_user;
  match d with
  | inl err => mret err
  | inr (dst_cpu, found) =>
      reset ← IsCPUReset dst_cpu;
      if negb (reset =? 0) then mret (- ERESTARTSYS) else
      if 1 <? dst_cpu then mret (- EINVAL) else
      let share_seq_w := getShareSeqW dst_cpu target_cpu in
      if share_seq_w =? 0 then mret (- EINVAL) else
      let seq_base := getSeq dst_cpu in
      let sem_ptr := if target_cpu =? 0 then seq_base + 8 else seq_base + 1036 in
      k_down_timeout sem_ptr (msecs_to_jiffies 100) ;;
      r ← send_holding share_seq_w sem_ptr dst_cpu find_buf msg_ptr target_cpu found from_user;
      (if (snd r : bool) then cpu_comm_sem_up sem_ptr else mret tt) ;;
      mret (fst r)
  end.

Definition SendComm2CPU (find_buf msg_ptr : Z) (from_user : bool) : M Z :=
  target ← msg_field from_user 2 (msg_ptr + 2);
  match target with
  | None => mret (- EFAULT)
  | Some t => SendComm2CPUEx find_buf msg_ptr t from_user
  end.

(** ** Receiving *)

Definition Comm_Add2Call2WQ (data : Z) : M unit :=
  if data =? 0 then mret tt else
  cmd ← rd16 data;
  if cmd <=? 4 then mret tt else
  ok ← kmalloc 20;
  if negb ok then mret tt else
  fl ← rd16 (data + 10);
  wr16 (data + 10) (fl |. 0x20) ;;
  modify (fun w => set_call_works w (call_works w ++ [data])).

(** A counter of the device structure. *)
Definition dev_count (off : Z) : M unit :=
  if pcpu_comm_dev =? 0 then mret tt else
  v ← rd32 (pcpu_comm_dev + off);
  wr32 (pcpu_comm_dev + off) (v + 1).

(** An incoming call goes to user space and to its channel or the work queue. *)
Definition take_call (share_seq_r entry_base : Z) : M unit :=
  entry_cmd ← rd16 entry_base;
  cpu_comm_userspace_deliver entry_base ;;
  (if entry_cmd <=? 4 then
     Comm_Add2NewCallFifo (pcpu_comm_dev + 48) (share_seq_r + 32) entry_base
   else Comm_Add2Call2WQ entry_base) ;;
  dev_count 4.

(** Wake the thread that waits in [wait_obj], if it is the one for this return;
    [false]: the message is dropped without an acknowledgement. *)
Definition wake_waiter (entry_base wait_obj : Z) : M bool :=
  sid ← rd32 (entry_base + 12);
  wsid ← rd32 wait_obj;
  if negb (sid =? wsid) then mret false else
  fl ← rd16 (entry_base + 10);
  wr16 (entry_base + 10) (fl |. 0x40) ;;
  cpu_comm_sem_up (wait_obj + 8) ;;
  mret true.

Definition take_return (share_seq_r remote_cpu entry_base : Z) : M bool :=
  AddReturn2Fifo (share_seq_r + 32) entry_base ;;
  (if pcpu_comm_dev =? 0 then mret tt else dev_count 0 ;; dev_count 1628) ;;
  session_id ← rd32 (entry_base + 12);
  flags ← rd16 (entry_base + 6);
  if negb ((flags &. MSG_FLAG_RETURN_ACK) =? 0) then
    r ← FindWaitBySessionId (getSeq remote_cpu + 40) session_id;
    if snd r =? 0 then mret false else wake_waiter entry_base (snd r)
  else
    wait_ptr ← rd64 (entry_base + 32);
    if wait_ptr =? 0 then mret false else
    if cpu_comm_is_mips_va (u32 wait_ptr) then mret false else
    wake_waiter entry_base (u32 wait_ptr).

Definition command_action (remote_cpu direction : Z) : M unit :=
  if 1 <? remote_cpu then mret tt else
  let share_seq_r := getShareSeqR remote_cpu direction in
  let share_seq_w := getShareSeqW remote_cpu direction in
  if (share_seq_r =? 0) || (share_seq_w =? 0) then mret tt else
  seq_idx ← rd8 (share_seq_r + 16);
  if FIFO_DEFAULT_CAP <=? seq_idx then mret tt else
  let entry_base := u32 (share_seq_r + 104 * seq_idx + 360) in
  fl ← rd16 (entry_base + 10);
  wr16 (entry_base + 10) (fl |. 8) ;;
  rd16 (entry_base + 2) ;;
  wr16 (entry_base + 2) remote_cpu ;;
  handled ← (if direction =? 0 then take_call share_seq_r entry_base ;; mret true
             else take_return share_seq_r remote_cpu entry_base);
  if negb handled then mret tt else
  wr8 (share_seq_r + 16) 20 ;;
  a2 ← rd8 (share_seq_r + 16); a3 ← rd8 (share_seq_r + 8);
  a4 ← rd32 (share_seq_r + 20); a5 ← rd32 (share_seq_r + 24);
  SendAckLow share_seq_w a2 a3 a4 a5.

Definition ack_action (cpu direction : Z) : M unit :=
  if 1 <? cpu then mret tt else
  if 1 <? direction then mret tt else
  let share_seq := getShareSeqR cpu direction in
  if share_seq =? 0 then mret tt else
  stat2 ← rd8 (share_seq + 105);
  if (stat2 &. 4) =? 0 then mret tt else
  wr8 (share_seq + 105) (bic stat2 4) ;;
  sem ← rd32 (share_seq + 112);
  cpu_comm_sem_up sem.

Definition comm_Action (type cpu : Z) : M unit :=
  if type =? MSG_TYPE_CALL then command_action cpu 0
  else if type =? MSG_TYPE_RETURN then command_action cpu 1
  else if type =? MSG_TYPE_CALL_ACK then ack_action cpu 0
  else if type =? MSG_TYPE_RETURN_ACK then ack_action cpu 1
  else mret tt.

Definition comm_WorkAction (cw : Z * Z) : M unit :=
  let '(cpu, prio) := cw in
  if 1 <? cpu then mret tt else
  if 3 <? prio then mret tt else
  comm_Action prio cpu.

(** Run the oldest pending work: the work queue takes it off first. *)
Definition run_work : M unit :=
  l ← gets works;
  match l with
  | [] => mret tt
  | cw :: l' => modify (fun w => set_works w l') ;; comm_WorkAction cw
  end.

(** ** From the mailbox *)

Definition cpu_comm_sync_mips_cache (cpu direction flag_offset : Z) : M bool :=
  let share_seq_r := getShareSeqR cpu direction in
  if share_seq_r =? 0 then mret false else
  v ← rd8 (share_seq_r + flag_offset);
  if (v &. 4) =? 0 then mret false else
  wr8 (share_seq_r + flag_offset) (bic v 4) ;;
  spin_while (share_seq_r + flag_offset) 4 ;;
  mret true.

Definition cpu_comm_handle_CPU2_call (cpu : Z) : M unit :=
  ok ← cpu_comm_sync_mips_cache cpu 0 8;
  if (ok : bool) then queueAction MSG_TYPE_CALL cpu ;; mret tt else mret tt.

Definition cpu_comm_handle_CPU2_return (cpu : Z) : M unit :=
  ok ← cpu_comm_sync_mips_cache cpu 1 8;
  if (ok : bool) then queueAction MSG_TYPE_RETURN cpu ;; mret tt else mret tt.

Definition cpu_comm_handle_CPU2_callACK (cpu : Z) : M unit :=
  queueAction MSG_TYPE_CALL_ACK cpu ;; mret tt.

Definition cpu_comm_handle_CPU2_returnACK (cpu : Z) : M unit :=
  queueAction MSG_TYPE_RETURN_ACK cpu ;; mret tt.

Definition cpu_comm_msg_cb (type direction : Z) : M unit :=
  let cpu := if direction =? 0 then 0 else if direction =? 2 then 1 else 2 in
  if type =? MSG_TYPE_CALL then cpu_comm_handle_CPU2_call cpu
  else if type =? MSG_TYPE_RETURN then cpu_comm_handle_CPU2_return cpu
  else if type =? MSG_TYPE_CALL_ACK then cpu_comm_handle_CPU2_callACK cpu
  else if type =? MSG_TYPE_RETURN_ACK then cpu_comm_handle_CPU2_returnACK cpu
  else mret tt.
End Proto.
