(* ===== verification/Acks.v ===== *)
(** Acknowledgements and the dispatch from the mailbox: [SendAckLow],
    [ack_action], [cpu_comm_msg_cb] and the receive interrupt together. *)
From S2P Require Import Prelude Mem Kernel Fifo Shm SpinLock Flags SeqMem DList Channel Routine Msgbox UserQueue Proto.

Lemma land_bic x n : bic x n &. n = 0.
Proof. unfold bic. apply Z.land_ldiff. Qed.

Lemma bic_range x n k : 0 <= n -> 0 <= x < 2 ^ n -> 0 <= k -> 0 <= bic x k < 2 ^ n.
Proof.
  intros Hn Hx Hk. unfold bic. assert (E : Z.ldiff x k = (Z.ldiff x k) mod 2 ^ n).
  { rewrite <- Z.land_ones by lia. apply Z.bits_inj'. intros i Hi. rewrite Z.land_spec, Z.ldiff_spec.
    destruct (Z.ltb_spec i n).
    - by rewrite Z.ones_spec_low, andb_true_r by lia.
    - rewrite Z.ones_spec_high, andb_false_r by lia. rewrite <- (Z.mod_small x (2 ^ n)) by lia.
      by rewrite Z.mod_pow2_bits_high by lia. }
  rewrite E. apply Z.mod_pos_bound. lia.
Qed.

(** Put a work on the queue unless it is pending. *)
Definition enq (l : list (Z * Z)) (x : Z * Z) : list (Z * Z) :=
  if existsb (work_eqb x) l then l else l ++ [x].

Lemma schedule_work_run cpu type w : schedule_work cpu type w = Ret tt (set_works w (enq (works w) (cpu, type))).
Proof.
  unfold schedule_work, modify, enq. destruct (existsb _ _); [|done]. by destruct w.
Qed.

Lemma set_works_id w : set_works w (works w) = w.
Proof. by destruct w. Qed.

Section Acks.
Context {S : Shm} {OK : ShmOk S} {K : Kernel} {A : Kmalloc}.

Lemma queueAction_run dir cpu w : 0 <= cpu <= 1 -> 0 <= dir <= 3 ->
  queueAction dir cpu w = Ret 0 (set_works w (enq (works w) (cpu, dir))).
Proof.
  intros Hc Hd. unfold queueAction. rewrite !ltb_false by lia. cbn [orb].
  unfold mbind, M_bind. rewrite schedule_work_run. done.
Qed.

Lemma share_seq_range cpu remote dir : 0 <= cpu <= 1 -> 0 <= remote <= 1 -> 0 <= dir <= 1 ->
  ShMemAddrBase + 152 <= getShareSeq cpu remote dir /\
  getShareSeq cpu remote dir + 2440 <= ShMemAddrBase + 19672 /\ 4096 <= getShareSeq cpu remote dir.
Proof. intros. rewrite getShareSeq_at by lia. shm_facts. lia. Qed.

Context {L : SemLaws K}.

(** Consuming an acknowledgement. *)
Lemma ack_action_wp cpu dir w : 0 <= cpu <= 1 -> 0 <= dir <= 1 ->
  let seq := getShareSeqR cpu dir in let sem := ld32 (mm w) (seq + 112) in
  ld 1 (mm w) (seq + 105) &. 4 <> 0 -> 4096 <= sem -> sem + 16 <= seq + 105 \/ seq + 116 <= sem ->
  wp (ack_action cpu dir) (fun _ w' => exists m', w' = set_mm w m' /\
    ld 1 m' (seq + 105) &. 4 = 0 /\ sem_count m' sem = u32 (sem_count (mm w) sem + 1) /\
    forall x, x <> seq + 105 -> ~ (sem <= x < sem + 16) -> ld8 m' x = ld8 (mm w) x) w.
Proof.
  intros Hc Hd seq sem Hb Hs Hap. unfold getShareSeqR, getCurCPUID, CPU_ID_ARM in *.
  pose proof (share_seq_range 0 cpu dir ltac:(lia) Hc Hd) as (R1 & R2 & R3). fold seq in R1, R2, R3.
  unfold ack_action. rewrite !ltb_false by lia. unfold getShareSeqR, getCurCPUID, CPU_ID_ARM. fold seq.
  rewrite (eqb_neq_false seq) by lia. wp_step. rewrite (eqb_neq_false _ 0 Hb).
  apply wp_wr; [lia|]. wp_step.
  assert (Esem : ld32 (st 1 (mm w) (seq + 105) (bic (ld 1 (mm w) (seq + 105)) 4)) (seq + 112) = sem)
    by (rewrite ld_st_ne by lia; done).
  rewrite Esem. unfold cpu_comm_sem_up. rewrite (eqb_neq_false sem) by lia.
  set (m1 := st 1 (mm w) _ _) in *. unfold wp, k_up. rewrite ltb_false by lia. rewrite mm_set_mm, set_mm_set_mm.
  pose proof (up_frame m1 sem) as Hf. pose proof (up_count m1 sem) as Hn. set (m2 := up m1 sem) in *.
  exists m2. split; [done|]. pose proof (ld1_range (mm w) (seq + 105)) as Rb. ands.
  - rewrite (ld_same_out 1 _ _ _ _ _ Hf) by lia. unfold m1. rewrite ld1_st1_eq.
    rewrite u8_small by (apply (bic_range _ 8); lia). apply land_bic.
  - rewrite Hn. f_equal. f_equal. unfold sem_count, m1. by rewrite ld_st_ne by lia.
  - intros x Hx Hx'. rewrite Hf by lia. unfold m1. rewrite ld8_st_out by lia. done.
Qed.

(** Without one, nothing happens. *)
Lemma ack_action_none cpu dir w : 0 <= cpu <= 1 -> 0 <= dir <= 1 ->
  ld 1 (mm w) (getShareSeqR cpu dir + 105) &. 4 = 0 -> ack_action cpu dir w = Ret tt w.
Proof.
  intros Hc Hd Hb. unfold getShareSeqR, getCurCPUID, CPU_ID_ARM in *.
  pose proof (share_seq_range 0 cpu dir ltac:(lia) Hc Hd) as (_ & _ & R3).
  assert (Hw : wp (ack_action cpu dir) (fun _ w' => w' = w) w).
  { unfold ack_action. rewrite !ltb_false by lia. unfold getShareSeqR, getCurCPUID, CPU_ID_ARM.
    rewrite (eqb_neq_false (getShareSeq _ _ _)) by lia. wp_step. by rewrite Hb, Z.eqb_refl. }
  destruct (wp_run _ _ _ Hw) as ([] & w' & E & ->). exact E.
Qed.

(** An acknowledgement of one's own message: it is queued, its flag is not set. *)
Lemma SendAckLow_local dir a2 a3 a4 a5 w : 0 <= dir <= 1 ->
  let seq := getShareSeq 0 0 dir in
  ld 1 (mm w) seq = 0 -> ld 1 (mm w) (seq + 1) = 0 -> ld 1 (mm w) (seq + 2) = dir ->
  ld 1 (mm w) (seq + 105) &. 4 = 0 -> 0 <= a3 < 256 ->
  wp (SendAckLow seq a2 a3 a4 a5) (fun _ w' => exists m', w' = set_works (set_mm w m') (enq (works w) (0, 2 + dir)) /\
    same_out (seq + 104) 16 (mm w) m' /\ ld 1 m' (seq + 105) = a3) w.
Proof.
  intros Hd seq H0 H1 H2 Hf Ha. pose proof (share_seq_range 0 0 dir ltac:(lia) ltac:(lia) Hd) as (R1 & R2 & R3).
  fold seq in R1, R2, R3. unfold SendAckLow. rewrite (eqb_neq_false seq) by lia. wp_step. wp_step.
  rewrite H1. change (negb (0 =? getCurCPUID)) with false. cbv iota. wp_step. rewrite H2, ltb_false by lia.
  wp_step. rewrite Hf. change (negb (0 =? 0)) with false. cbv iota. repeat wp_step.
  rewrite H0, Z.eqb_refl. rewrite !(ld_st_ne 1) by lia. rewrite H2. unfold getCurCPUID, CPU_ID_ARM.
  replace (if dir =? 0 then MSG_TYPE_CALL_ACK else MSG_TYPE_RETURN_ACK) with (2 + dir)
    by (destruct (Z.eqb_spec dir 0); unfold MSG_TYPE_CALL_ACK, MSG_TYPE_RETURN_ACK; lia).
  eapply wp_eq; [apply queueAction_run; lia|]. apply wp_ret.
  eexists. split; [reflexivity|]. split.
  - intros x Hx. memsimp. done.
  - memsimp. by rewrite u8_small.
Qed.

(** ** The callback of the mailbox *)

Definition cb_cpu (direction : Z) : Z := if direction =? 0 then 0 else if direction =? 2 then 1 else 2.

Lemma cb_ack type direction w : type = 2 \/ type = 3 ->
  cpu_comm_msg_cb type direction w =
    Ret tt (if cb_cpu direction <=? 1 then set_works w (enq (works w) (cb_cpu direction, type)) else w).
Proof.
  intros Ht. unfold cpu_comm_msg_cb. fold (cb_cpu direction).
  assert (Hc : 0 <= cb_cpu direction <= 1 \/ cb_cpu direction = 2).
  { unfold cb_cpu. destruct (direction =? 0); [lia|]. destruct (direction =? 2); lia. }
  assert (Hq : forall t, t = 2 \/ t = 3 -> (queueAction t (cb_cpu direction) ≫= fun _ => mret tt) w =
    Ret tt (if cb_cpu direction <=? 1 then set_works w (enq (works w) (cb_cpu direction, t)) else w)).
  { intros t Ht'. unfold mbind, M_bind. destruct Hc as [Hc|Hc].
    - rewrite queueAction_run by lia. by rewrite leb_true by lia.
    - rewrite Hc. done. }
  destruct Ht as [-> | ->]; simpl; by apply Hq; auto.
Qed.

Lemma cb_message type cpu w : type = 0 \/ type = 1 -> 0 <= cpu <= 1 ->
  let flag := getShareSeqR cpu type + 8 in
  cpu_comm_msg_cb type (2 * cpu) w =
    Ret tt (if (ld 1 (mm w) flag &. 4) =? 0 then w
            else set_works (set_mm w (st 1 (mm w) flag (bic (ld 1 (mm w) flag) 4))) (enq (works w) (cpu, type))).
Proof.
  intros Ht Hc flag. unfold getShareSeqR, getCurCPUID, CPU_ID_ARM in *.
  pose proof (share_seq_range 0 cpu type ltac:(lia) Hc ltac:(lia)) as (_ & _ & R3).
  assert (Hs : wp (cpu_comm_sync_mips_cache cpu type 8) (fun ok w' =>
    if (ld 1 (mm w) flag &. 4) =? 0 then ok = false /\ w' = w
    else ok = true /\ w' = set_mm w (st 1 (mm w) flag (bic (ld 1 (mm w) flag) 4))) w).
  { unfold cpu_comm_sync_mips_cache, getShareSeqR, getCurCPUID, CPU_ID_ARM.
    rewrite (eqb_neq_false (getShareSeq _ _ _)) by lia. fold flag. apply wp_rd; [unfold flag; lia|].
    destruct (Z.eqb_spec (ld 1 (mm w) flag &. 4) 0) as [E|E]; [by apply wp_ret|].
    apply wp_wr; [unfold flag; lia|]. unfold spin_while.
    eapply (wp_call _ _ (fun _ w' => w' = set_mm w (st 1 (mm w) flag (bic (ld 1 (mm w) flag) 4)))).
    - apply (wp_loop (fun k (_ : unit) w' => k = 0%nat /\ w' = set_mm w (st 1 (mm w) flag (bic (ld 1 (mm w) flag) 4))) _ _ _ 0%nat);
        [unfold wait_fuel; lia | done |]. intros k [] w' [-> ->]. apply wp_rd; [unfold flag; lia|].
      rewrite mm_set_mm, ld1_st1_eq. pose proof (ld1_range (mm w) flag).
      rewrite u8_small by (apply (bic_range _ 8); lia). rewrite land_bic, Z.eqb_refl. by apply wp_ret.
    - intros [] w' ->. by apply wp_ret. }
  assert (Hh : wp (ok ← cpu_comm_sync_mips_cache cpu type 8; if (ok : bool) then queueAction type cpu ;; mret tt else mret tt)
    (fun _ w' => w' = if (ld 1 (mm w) flag &. 4) =? 0 then w
       else set_works (set_mm w (st 1 (mm w) flag (bic (ld 1 (mm w) flag) 4))) (enq (works w) (cpu, type))) w).
  { eapply wp_call; [exact Hs|]. intros ok w'. destruct (Z.eqb (ld 1 (mm w) flag &. 4) 0); intros [-> ->]; [by apply wp_ret|].
    eapply wp_eq; [apply queueAction_run; lia|]. by apply wp_ret. }
  destruct (wp_run _ _ _ Hh) as ([] & w' & E & ->). rewrite <- E. unfold cpu_comm_msg_cb.
  assert (Ecpu : (if 2 * cpu =? 0 then 0 else if 2 * cpu =? 2 then 1 else 2) = cpu).
  { assert (cpu = 0 \/ cpu = 1) as [-> | ->] by lia; done. }
  rewrite Ecpu. by destruct Ht as [-> | ->].
Qed.

Lemma cb_stranger type direction w : direction <> 0 -> direction <> 2 -> cpu_comm_msg_cb type direction w = Ret tt w.
Proof.
  intros H0 H2. unfold cpu_comm_msg_cb. rewrite (eqb_neq_false direction 0), (eqb_neq_false direction 2) by done.
  unfold cpu_comm_handle_CPU2_call, cpu_comm_handle_CPU2_return, cpu_comm_handle_CPU2_callACK,
    cpu_comm_handle_CPU2_returnACK, cpu_comm_sync_mips_cache, getShareSeqR, getShareSeq, queueAction.
  change (1 <? 2) with true. rewrite !orb_true_r. cbn [orb].
  by destruct (type =? MSG_TYPE_CALL), (type =? MSG_TYPE_RETURN), (type =? MSG_TYPE_CALL_ACK), (type =? MSG_TYPE_RETURN_ACK).
Qed.
(** ** The receive interrupt and the work queue *)

(** What one message does to the memory and to the pending works. *)
Definition dispatch (s : mem * list (Z * Z)) (td : Z * Z) : mem * list (Z * Z) :=
  let '(m, l) := s in
  let '(t, d) := td in
  let cpu := cb_cpu d in
  if 1 <? cpu then s else
  if (t =? 2) || (t =? 3) then (m, enq l (cpu, t)) else
  if (t =? 0) || (t =? 1) then
    let flag := getShareSeqR cpu t + 8 in
    if (ld 1 m flag &. 4) =? 0 then s else (st 1 m flag (bic (ld 1 m flag) 4), enq l (cpu, t))
  else s.

Definition put_dispatch (w : world) (s : mem * list (Z * Z)) : world := set_works (set_mm w (fst s)) (snd s).

Lemma put_dispatch_id w : put_dispatch w (mm w, works w) = w.
Proof. by destruct w. Qed.

Lemma cb_dispatch t d w : cpu_comm_msg_cb t d w = Ret tt (put_dispatch w (dispatch (mm w, works w) (t, d))).
Proof.
  unfold dispatch. destruct (decide (d = 0 \/ d = 2)) as [Hd|Hd].
  2: { rewrite cb_stranger by lia. unfold cb_cpu. rewrite (eqb_neq_false d 0), (eqb_neq_false d 2) by lia.
    change (1 <? 2) with true. cbv iota. by rewrite put_dispatch_id. }
  assert (Hc : 0 <= cb_cpu d <= 1 /\ 2 * cb_cpu d = d) by (destruct Hd as [-> | ->]; unfold cb_cpu; cbn; lia).
  rewrite ltb_false by lia.
  destruct (Z.eqb_spec t 2) as [->|N2]; [by rewrite cb_ack, leb_true by lia; destruct w|].
  destruct (Z.eqb_spec t 3) as [->|N3]; [by rewrite cb_ack, leb_true by lia; destruct w|]. cbn [orb].
  destruct (decide (t = 0 \/ t = 1)) as [Ht|Ht].
  - replace ((t =? 0) || (t =? 1)) with true by (destruct Ht as [-> | ->]; done).
    destruct Hc as [Hc Ec]. rewrite <- Ec at 1. rewrite cb_message by done.
    destruct (Z.eqb _ 0); [by rewrite put_dispatch_id | done].
  - rewrite (eqb_neq_false t 0), (eqb_neq_false t 1) by lia. cbn [orb]. rewrite put_dispatch_id.
    unfold cpu_comm_msg_cb, MSG_TYPE_CALL, MSG_TYPE_RETURN, MSG_TYPE_CALL_ACK, MSG_TYPE_RETURN_ACK.
    by rewrite (eqb_neq_false t 0), (eqb_neq_false t 1), (eqb_neq_false t 2), (eqb_neq_false t 3) by lia.
Qed.

Lemma enq_NoDup l x : NoDup l -> NoDup (enq l x).
Proof.
  intros H. unfold enq. destruct (existsb _ _) eqn:E; [done|]. apply NoDup_app. split; [done|]. split.
  - intros y Hy Hyx. apply list_elem_of_singleton in Hyx as ->. apply not_true_iff_false in E. apply E, existsb_exists.
    exists x. split; [by apply list_elem_of_In|]. unfold work_eqb. by rewrite !Z.eqb_refl.
  - apply NoDup_singleton.
Qed.

Lemma dispatch_NoDup h s : NoDup (snd s) -> NoDup (snd (foldl dispatch s h)).
Proof.
  revert s. induction h as [|[t d] h IH]; intros [m l] H; [done|]. simpl foldl. apply IH. unfold dispatch.
  repeat match goal with |- context [if ?b then _ else _] => destruct b end; cbn [snd]; first [exact H | by apply enq_NoDup].
Qed.

(** C28: The receive interrupt with the driver's callback: the handler empties the FIFO, and what it
    leaves in memory and on the work queue is the fold of [dispatch] over the messages in the order
    they arrived: an acknowledgement always schedules its work, a call or a return only if its flag
    was set, which is consumed; a message from an unknown sender or of an unknown type changes
    nothing; and no work is ever pending twice. *)
Theorem irq_dispatches {R : Regs} base pend {F : RxFifo R base pend} w :
  (length (pend (env w)) <= 15)%nat -> base <> 0 -> msgbox_ctrl_base (mbox w) = base ->
  msgbox_rx_callback (mbox w) = true -> NoDup (works w) ->
  exists w', cpu_comm_msgbox_irq_handler cpu_comm_msg_cb w = Ret (negb (Nat.eqb (length (pend (env w))) 0)) w' /\
    pend (env w') = [] /\
    (mm w', works w') = foldl dispatch (mm w, works w) (map decode (pend (env w))) /\ NoDup (works w').
Proof.
  intros Hl Hb Eb Hc Hn.
  set (P := fun h w' => (mm w', works w') = foldl dispatch (mm w, works w) h).
  assert (Hcb : forall h t d w1, P h w1 -> wp (cpu_comm_msg_cb t d) (fun _ w2 =>
    P (h ++ [(t, d)]) w2 /\ env w2 = env w1 /\ mbox w2 = mbox w1) w1).
  { intros h t d w1 HP. unfold wp. rewrite cb_dispatch. unfold P in *. rewrite foldl_app, <- HP. cbn [foldl].
    by destruct (dispatch (mm w1, works w1) (t, d)) as [m l]. }
  destruct (wp_run _ _ _ (irq_handler_wp base pend cpu_comm_msg_cb P Hcb ltac:(intros h w1 HP; done) w Hl Hb Eb Hc eq_refl))
    as (r & w' & E & -> & H1 & H2 & _).
  exists w'. ands; try done. pose proof (dispatch_NoDup (map decode (pend (env w))) (mm w, works w) Hn) as H.
  unfold P in H2. by rewrite <- H2 in H.
Qed.

(** C29: An acknowledgement wakes its sender exactly once: when bit 2 of the second status byte is set,
    [ack_action] clears it and raises the semaphore the message carries by one, changing nothing
    else; a second notification for the same acknowledgement then changes nothing at all. *)
Theorem ack_consumed_once cpu dir w : 0 <= cpu <= 1 -> 0 <= dir <= 1 ->
  let seq := getShareSeqR cpu dir in let sem := ld32 (mm w) (seq + 112) in
  ld 1 (mm w) (seq + 105) &. 4 <> 0 -> 4096 <= sem -> sem + 16 <= seq + 105 \/ seq + 116 <= sem ->
  exists w', ack_action cpu dir w = Ret tt w' /\ ack_action cpu dir w' = Ret tt w' /\
    sem_count (mm w') sem = u32 (sem_count (mm w) sem + 1) /\
    forall x, x <> seq + 105 -> ~ (sem <= x < sem + 16) -> ld8 (mm w') x = ld8 (mm w) x.
Proof.
  intros Hc Hd seq sem Hb Hs Hap.
  destruct (wp_run _ _ _ (ack_action_wp cpu dir w Hc Hd Hb Hs Hap)) as ([] & w' & E & m' & -> & H1 & H2 & H3).
  exists (set_mm w m'). ands; try done. by apply ack_action_none.
Qed.

Lemma run_work_none w : works w = [] -> run_work w = Ret tt w.
Proof. intros E. unfold run_work, gets, mbind, M_bind. by rewrite E. Qed.
(** A message to one's own CPU is never acknowledged: [SendAckLow] on the local sequence queues the
    acknowledgement without setting the bit that [ack_action] asks for (the status byte it is given
    is the message's type, which has bit 2 clear), so when the work runs it returns early: only the
    acknowledgement fields of the sequence were written, no semaphore was raised, nothing is pending. *)
Theorem local_ack_lost dir a2 a3 a4 a5 w : 0 <= dir <= 1 -> works w = [] ->
  let seq := getShareSeq 0 0 dir in
  ld 1 (mm w) seq = 0 -> ld 1 (mm w) (seq + 1) = 0 -> ld 1 (mm w) (seq + 2) = dir ->
  ld 1 (mm w) (seq + 105) &. 4 = 0 -> 0 <= a3 < 256 -> a3 &. 4 = 0 ->
  exists m', (SendAckLow seq a2 a3 a4 a5 ;; run_work) w = Ret tt (set_mm w m') /\
    same_out (seq + 104) 16 (mm w) m'.
Proof.
  intros Hd Hw seq H0 H1 H2 Hf Ha Hb.
  destruct (wp_run _ _ _ (SendAckLow_local dir a2 a3 a4 a5 w Hd H0 H1 H2 Hf Ha)) as ([] & w' & E & m' & -> & Ho & E3).
  exists m'. split; [|done]. fold seq in E. unfold mbind, M_bind. rewrite E. unfold run_work, gets, modify, mbind, M_bind.
  rewrite Hw. unfold enq. cbn [existsb app]. cbn [works set_works]. unfold comm_WorkAction. rewrite !ltb_false by lia.
  assert (Ea : ack_action 0 dir (set_mm w m') = Ret tt (set_mm w m')).
  { apply ack_action_none; [lia | done |]. rewrite mm_set_mm. unfold getShareSeqR, getCurCPUID, CPU_ID_ARM.
    by rewrite E3. }
  change (set_works _ []) with (set_works (set_mm w m') []). rewrite <- Hw.
  change (set_works (set_mm w m') (works w)) with (set_works (set_mm w m') (works (set_mm w m'))). rewrite set_works_id.
  assert (dir = 0 \/ dir = 1) as [-> | ->] by lia; exact Ea.
Qed.
End Acks.

(** ** Concrete runs *)

(** The flag of a call from MIPS is set; an acknowledgement, a message from an unknown sender and the
    call wait in the mailbox. *)
Definition dispatch_world : world :=
  set_mm (set_env rx_world [2; 0x10003; 0]) (st 1 ∅ (getShareSeqR 1 0 + 8) 5).

Lemma irq_dispatches_witness : exists w',
  cpu_comm_msgbox_irq_handler cpu_comm_msg_cb dispatch_world = Ret true w' /\
  works w' = [(1, 2); (1, 0)] /\ ld 1 (mm w') (getShareSeqR 1 0 + 8) = 1.
Proof.
  destruct (irq_dispatches 0xF0900000 id (F := fifo_regs_rx) dispatch_world)
    as (w' & E & _ & Hf & _); [simpl; lia | done | done | done | apply NoDup_nil_2 |].
  exists w'. split; [exact E|].
  assert (Hd : foldl dispatch (mm dispatch_world, works dispatch_world) (map decode [2; 0x10003; 0]) =
    (st 1 (mm dispatch_world) (getShareSeqR 1 0 + 8) 1, [(1, 2); (1, 0)])) by (vm_compute; reflexivity).
  change (id (env dispatch_world)) with [2; 0x10003; 0] in Hf. rewrite Hd in Hf. injection Hf as -> ->.
  split; [reflexivity | vm_compute; reflexivity].
Defined.

(** An acknowledgement from MIPS for the semaphore at 0xC3000000. *)
Definition ack_world : world :=
  set_mm blank_world (st32 (st 1 ∅ (getShareSeqR 1 0 + 105) 4) (getShareSeqR 1 0 + 112) 0xC3000000).

Lemma ack_consumed_once_witness : exists w', ack_action 1 0 ack_world = Ret tt w' /\
  ack_action 1 0 w' = Ret tt w' /\ sem_count (mm w') 0xC3000000 = 1.
Proof.
  assert (Es : ld32 (mm ack_world) (getShareSeqR 1 0 + 112) = 0xC3000000) by (vm_compute; reflexivity).
  pose proof (ack_consumed_once 1 0 ack_world) as H. cbv zeta in H. rewrite Es in H.
  destruct H as (w' & E & E2 & Hc & _); [lia | lia | vm_compute; discriminate | lia | left; vm_compute; discriminate |].
  exists w'. split; [exact E|]. split; [exact E2|]. rewrite Hc. vm_compute. reflexivity.
Defined.

(** The local call sequence as [InitCommSeqMem] leaves it, its headers all zero. *)
Lemma local_ack_lost_witness : exists m', (SendAckLow (getShareSeq 0 0 0) 20 1 0x77 0xC3000000 ;; run_work) blank_world =
  Ret tt (set_mm blank_world m').
Proof.
  destruct (local_ack_lost 0 20 1 0x77 0xC3000000 blank_world) as (m' & E & _); try reflexivity; try lia.
  exists m'. exact E.
Defined.
