(* ===== verification/Send.v ===== *)
(** The steps of [SendComm2CPUEx]: the bounded waits, the sends that are refused,
    the header of a message entry, the bookkeeping of wait objects, and the
    notification of MIPS. *)
From S2P Require Import Prelude Mem Kernel Fifo Shm SpinLock Flags SeqMem DList Channel Waiting Pools Boot Routine RoutineTable Msgbox UserQueue Proto Acks.

(** A wait with a timeout changes the semaphore and nothing else that this CPU
    looks at: what the other side writes meanwhile lies in its own areas. *)
Class Timed (K : Kernel) : Prop :=
  down_timeout_frame a t w : exists m', snd (down_timeout a t w) = set_mm w m' /\ same_out a 16 (mm w) m'.

#[export] Instance SimpleKernel_Timed : Timed SimpleKernel.
Proof.
  intros a t w. simpl. unfold simple_down_timeout, simple_down.
  destruct (0 <? sem_count (mm w) a); simpl.
  - eexists. split; [reflexivity|]. apply same_out_st; lia.
  - exists (mm w). split; [by rewrite set_mm_id | done].
Qed.

Lemma call_pool_frame {S : Shm} {OK : ShmOk S} m m' seq js :
  (forall x, seq + 120 <= x < seq + 2440 -> ld8 m' x = ld8 m x) -> call_pool m seq js -> call_pool m' seq js.
Proof.
  intros Ho [Hr Hf Hi Hs]. split; [done | | done |].
  - unfold free_fifo in *. apply (fifo_at_frame Hf); [intros x Hx; apply Ho; lia|].
    intros i x Hi' Hx. pose proof (Z.mod_pos_bound (ld32 m (seq + 120) + Z.of_nat i) 21 ltac:(lia)).
    apply Ho. lia.
  - intros j Hj. pose proof (call_entry_at seq j). rewrite (ld_same 2 m m'); [by apply Hs|].
    intros x Hx. apply Ho. lia.
Qed.

(** An entry may be overwritten as long as it keeps its number. *)
Lemma call_pool_entry {S : Shm} {OK : ShmOk S} m m' seq js j :
  0 <= j < 20 -> (forall x, seq + 120 <= x < seq + 2440 -> ~ (call_entry seq j <= x < call_entry seq j + 104) -> ld8 m' x = ld8 m x) ->
  ld16 m' (call_entry seq j + 4) = j -> call_pool m seq js -> call_pool m' seq js.
Proof.
  intros Hj Ho Ej [Hr Hf Hi Hs]. pose proof (call_entry_at seq j) as Aj. split; [done | | done |].
  - unfold free_fifo in *. apply (fifo_at_frame Hf); [intros x Hx; apply Ho; lia|].
    intros i x Hi' Hx. pose proof (Z.mod_pos_bound (ld32 m (seq + 120) + Z.of_nat i) 21 ltac:(lia)). apply Ho; lia.
  - intros k Hk. destruct (decide (k = j)) as [->|Hn]; [done|]. pose proof (call_entry_at seq k).
    rewrite (ld_same 2 m m'); [by apply Hs|]. intros x Hx. apply Ho; lia.
Qed.

Lemma magic_frame {S : Shm} {OK : ShmOk S} m m' :
  (forall x, ShMemAddrBase <= x < ShMemAddrBase + ShMemSize -> ld8 m' x = ld8 m x) -> magic_ok m -> magic_ok m'.
Proof.
  intros Ho [H1 H2]. shm_facts. unfold magic_ok, SHMEM_OFF_MAGIC1, SHMEM_OFF_MAGIC2 in *.
  split; rewrite (ld_same _ m m'); try done; intros; apply Ho; lia.
Qed.

Section Steps.
Context {S : Shm} {OK : ShmOk S} {K : Kernel} {L : SemLaws K} {HQ : Quiet K} {HT : Timed K}.

Lemma wp_down_timeout {B} a t (k : Z -> M B) Q w :
  (forall m, snd (down_timeout a t w) = set_mm w m -> same_out a 16 (mm w) m ->
    wp (k (fst (down_timeout a t w))) Q (set_mm w m)) ->
  wp (k_down_timeout a t ≫= k) Q w.
Proof.
  intros H. apply wp_bind. unfold wp, k_down_timeout, lift_env.
  destruct (down_timeout_frame a t w) as (m & E & Ho). specialize (H m E Ho).
  destruct (down_timeout a t w) as [r w']. simpl in *. by subst w'.
Qed.

(** ** The two bounded waits *)

Lemma wait_cmd_room_wp seq base vb q w : fifo_at (mm w) (seq + 32) base vb 21 q ->
  wp (wait_cmd_room seq) (fun r w' => w' = w /\ r = (Z.of_nat (length q) <? 19)) w.
Proof.
  intros H. unfold wait_cmd_room.
  apply (wp_loop (fun k s w' => w' = w /\ 0 <= s <= 100 /\ Z.of_nat k = 100 - s) _ _ _ 100%nat);
    [lia | by ands|].
  intros k s w' (-> & Hs & Hk). eapply wp_call; [apply (fifo_isNearlyFull_wp H); lia|].
  intros r w' [-> ->]. change (21 - 1 - 1) with 19. destruct (Z.leb_spec 19 (Z.of_nat (length q))) as [Hf|Hf].
  - change (1 =? 0) with false. cbv iota. wp_step. wp_step. destruct (Z.ltb_spec 100 (s + 1)).
    + split; [done|]. by rewrite ltb_false by lia.
    + exists (k - 1)%nat. ands; [lia | done | lia | lia | lia].
  - change (0 =? 0) with true. cbv iota. wp_step. split; [done|]. by rewrite ltb_true by lia.
Qed.

Lemma get_call_slot_wp seq js w : call_pool (mm w) seq js ->
  wp (get_call_slot seq) (fun r w' => match js with
    | [] => r = 0 /\ w' = w
    | j :: js' => r = call_entry seq j /\ exists m', w' = set_mm w m' /\ call_pool m' seq js' /\
        ld16 m' (r + 10) = 0 /\
        (forall x, ~ (seq + 120 <= x < seq + 132) -> ~ (r + 10 <= x < r + 12) -> ld8 m' x = ld8 (mm w) x)
    end) w.
Proof.
  intros H. unfold get_call_slot. pose proof (cp_range _ _ _ H) as Hr. shm_facts. unfold seq_range in Hr.
  apply (wp_loop (fun k s w' => w' = w /\ 0 <= s <= 100 /\ Z.of_nat k = 100 - s) _ _ _ 100%nat); [lia | by ands|].
  intros k s w' (-> & Hs & Hk). eapply wp_call; [by apply Comm_GetFreeCall_wp|]. intros r w' Hp.
  destruct js as [|j js'].
  - destruct Hp as [-> ->]. change (negb (0 =? 0)) with false. cbv iota. wp_step. wp_step.
    destruct (Z.ltb_spec 100 (s + 1)); [done|]. exists (k - 1)%nat. ands; [lia | done | lia | lia | lia].
  - assert (Hj : 0 <= j < 20) by (pose proof (cp_idx _ _ _ H) as Hi; by apply Forall_cons in Hi as [? _]).
    pose proof (call_entry_at seq j). destruct Hp as [-> Hp]. rewrite (eqb_neq_false (call_entry seq j)) by lia.
    cbn [negb]. wp_step. by split.
Qed.
End Steps.

(** ** Sends that are refused *)

Section Refused.
Context {S : Shm} {OK : ShmOk S} {K : Kernel} {L : SemLaws K} {HQ : Quiet K} {HT : Timed K}.
Context {J : Jiffies} {A : Kmalloc} {U : Uaccess}.

Definition app_ready (w : world) (cpu : Z) : bool :=
  st_app (cpu_status (mm w) cpu) || ((cpu =? CPU_ID_MIPS) && negb (mips_app_ready_assumed w =? 0)).

(** Why a send is turned down once the semaphore was waited for. *)
Definition refusal (ready : bool) (q js : list Z) : option Z :=
  if negb ready then Some (-1)
  else if 19 <=? Z.of_nat (length q) then Some (- EBUSY)
  else match js with [] => Some (- EBUSY) | _ => None end.

Lemma app_ready_run cpu w : 0 <= cpu <= 1 -> magic_ok (mm w) ->
  isCPUAppReady cpu w = Ret (if app_ready w cpu then 1 else 0) w.
Proof.
  intros Hc Hm. unfold isCPUAppReady. rewrite ltb_false by lia. rewrite (eqb_neq_false cpu 2) by lia.
  by rewrite isCPUAppReady1_run.
Qed.

Lemma status_frame m m' cpu : 0 <= cpu <= 1 ->
  (forall x, ShMemAddrBase <= x < ShMemAddrBase + ShMemSize -> ld8 m' x = ld8 m x) ->
  cpu_status m' cpu = cpu_status m cpu.
Proof.
  intros Hc Ho. shm_facts. pose proof (cpu_flag_at cpu). apply cpu_status_same. intros x Hx. apply Ho. lia.
Qed.

Lemma send_holding_refused seq sem dst fb msg t found base vb q js err w :
  0 <= dst <= 1 -> magic_ok (mm w) -> st_notice (cpu_status (mm w) dst) = false ->
  fifo_at (mm w) (seq + 32) base vb 21 q -> call_pool (mm w) seq js ->
  refusal (app_ready w dst) q js = Some err ->
  wp (send_holding seq sem dst fb msg t found false) (fun r w' => r = (err, true) /\ w' = w) w.
Proof.
  intros Hd Hm Hn Hf Hp Hr. unfold send_holding.
  eapply wp_eq; [apply IsCPUReset_run; lia|]. rewrite Hn. cbn [Z.eqb negb].
  eapply wp_eq; [by apply app_ready_run|]. unfold refusal in Hr.
  destruct (app_ready w dst); cbn [negb] in Hr.
  2: { injection Hr as <-. change (0 =? 0) with true. cbv iota. by wp_step. }
  change (1 =? 0) with false. cbv iota.
  eapply wp_call; [by eapply wait_cmd_room_wp|]. intros r w' [-> ->].
  destruct (Z.leb_spec 19 (Z.of_nat (length q))) as [Hq|Hq].
  { injection Hr as <-. rewrite ltb_false by lia. cbn [negb]. by wp_step. }
  rewrite ltb_true by lia. cbn [negb]. destruct js as [|j js]; [|done]. injection Hr as <-.
  eapply wp_call; [by apply get_call_slot_wp|]. intros r w' [-> ->]. change (0 =? 0) with true. cbv iota. by wp_step.
Qed.

(** The semaphores a direction uses. *)
Definition send_sem (dst t : Z) : Z := sock_of dst + (if t =? 0 then 8 else 1036).

Lemma send_sem_at dst t : 0 <= dst <= 1 -> 0 <= t <= 1 ->
  (if t =? 0 then getSeq dst + 8 else getSeq dst + 1036) = send_sem dst t /\
  s_CommSockt + 8 <= send_sem dst t /\ send_sem dst t + 32 <= s_CommSockt + 2 * COMM_SOCKET_SIZE /\ 4096 <= send_sem dst t.
Proof.
  intros Hd Ht. unfold send_sem. rewrite getSeq_at by lia. shm_facts. unfold sock_of, COMM_SOCKET_SIZE.
  destruct (t =? 0); lia.
Qed.

Lemma send_refused_wp fb msg t w m0 dst found base vb q js err :
  msg <> 0 -> 0 <= t <= 1 -> 0 <= dst <= 1 ->
  resolve_dst fb msg t false w = Ret (inr (dst, found)) (set_mm w m0) ->
  let seq := getShareSeqW dst t in let sem := send_sem dst t in
  magic_ok m0 -> st_notice (cpu_status m0 dst) = false ->
  fifo_at m0 (seq + 32) base vb 21 q -> vb + 84 <= sem \/ sem + 16 <= vb -> call_pool m0 seq js ->
  refusal (app_ready (set_mm w m0) dst) q js = Some err ->
  wp (SendComm2CPUEx fb msg t false) (fun r w' => exists m1 m',
    snd (down_timeout sem (msecs_to_jiffies 100) (set_mm w m0)) = set_mm w m1 /\
    r = err /\ w' = set_mm w m' /\ same_out sem 16 m0 m' /\ sem_count m' sem = u32 (sem_count m1 sem + 1)) w.
Proof.
  intros Hmsg Ht Hd Hres seq sem Hm Hn Hf Hv Hp Hr. unfold SendComm2CPUEx.
  rewrite (eqb_neq_false msg 0), (ltb_false 1 t) by (done || lia). cbn [orb].
  eapply wp_eq; [exact Hres|]. cbv iota. eapply wp_eq; [apply IsCPUReset_run; lia|]. rewrite mm_set_mm, Hn.
  cbn [Z.eqb negb]. rewrite (ltb_false 1 dst) by lia.
  destruct (send_sem_at dst t Hd Ht) as (Es & S1 & S2 & S3). fold sem in Es, S1, S2, S3. fold seq.
  pose proof (cp_range _ _ _ Hp) as [R1 R2]. unfold SHMEM_OFF_MAX_CPU in R2. cbv zeta. rewrite Es. shm_facts.
  rewrite (eqb_neq_false seq 0) by lia. apply wp_down_timeout. intros m1 E1 Ho1. rewrite mm_set_mm in *.
  change (set_mm (set_mm w m0) m1) with (set_mm w m1) in *.
  assert (Hout : forall x, ShMemAddrBase <= x < ShMemAddrBase + ShMemSize -> ld8 m1 x = ld8 m0 x)
    by (intros x Hx; apply Ho1; lia).
  eapply wp_call.
  { eapply (send_holding_refused seq sem dst fb msg t found base vb q js err (set_mm w m1)); rewrite ?mm_set_mm; try done.
    - by apply (magic_frame m0).
    - by rewrite (status_frame m0 m1).
    - apply (fifo_at_same_out Hf _ _ _ Ho1); lia.
    - apply (call_pool_frame m0); [|done]. intros x Hx. apply Hout. lia.
    - rewrite <- Hr. unfold app_ready. rewrite !mm_set_mm. by rewrite (status_frame m0 m1). }
  intros r w' [-> ->]. cbn [fst snd]. unfold cpu_comm_sem_up. rewrite (eqb_neq_false sem) by lia.
  apply wp_up_abs; [lia|]. rewrite mm_set_mm. intros m' Ho' Es'. wp_step. exists m1, m'. ands; try done.
  intros x Hx. rewrite Ho' by lia. apply Ho1. lia.
Qed.
End Refused.

(** ** The message entry of a call *)

(** [n] little-endian bytes of a list, from [i] *)
Fixpoint le (n : nat) (d : list Z) (i : Z) : Z :=
  match n with O => 0 | S k => d !!! Z.to_nat i + 256 * le k d (i + 1) end.

Lemma ld_le n m a d i hi : (forall x, 0 <= x < hi -> ld8 m (a + x) = d !!! Z.to_nat x) ->
  0 <= i -> i + Z.of_nat n <= hi -> ld n m (a + i) = le n d i.
Proof.
  intros H. revert i. induction n as [|n IH]; intros i Hi Hn; [done|]. rewrite ld_S. cbn [le].
  rewrite H by lia. rewrite <- Z.add_assoc, IH by lia. done.
Qed.

Lemma ld_shift k m m' a b : (forall i, 0 <= i < Z.of_nat k -> ld8 m (a + i) = ld8 m' (b + i)) -> ld k m a = ld k m' b.
Proof.
  revert a b. induction k as [|k IH]; intros a b H; [done|]. rewrite !ld_S. f_equal.
  - rewrite <- (Z.add_0_r a), <- (Z.add_0_r b). apply H. lia.
  - f_equal. apply IH. intros i Hi. rewrite <- !Z.add_assoc. apply H. lia.
Qed.

(** The next session number. *)
Definition next_session (w : world) : Z := (s_CallSessionId w + 1) &. SESSION_ID_MASK.

Lemma next_session_range w : 0 <= next_session w < 2 ^ 30.
Proof.
  unfold next_session. change SESSION_ID_MASK with (Z.ones 30). rewrite Z.land_ones by lia.
  apply Z.mod_pos_bound. lia.
Qed.

(** The header of a call entry: descriptor [d] of the routine, session, caller. *)
Record call_header (m : mem) (e : Z) (d : list Z) (sid pid : Z) : Prop := CallHeader {
  ch_name : ld16 m e = le 2 d 0;
  ch_cpu : ld16 m (e + 2) = le 2 d 2;
  ch_key : ld32 m (e + 16) = le 4 d 4;
  ch_dst : ld32 m (e + 24) = le 1 d 2;
  ch_session : ld32 m (e + 12) = sid;
  ch_pid : ld32 m (e + 28) = pid;
}.

Lemma call_header_out m m' e d sid pid :
  (forall x, 0 <= x < 4 \/ 12 <= x < 20 \/ 24 <= x < 32 -> ld8 m' (e + x) = ld8 m (e + x)) ->
  call_header m e d sid pid -> call_header m' e d sid pid.
Proof.
  intros Ho [H1 H2 H3 H4 H5 H6].
  assert (Hk : forall k o, 0 <= o -> o + Z.of_nat k <= 4 \/ 12 <= o /\ o + Z.of_nat k <= 20 \/ 24 <= o /\ o + Z.of_nat k <= 32 ->
    ld k m' (e + o) = ld k m (e + o)).
  { intros k o Ho0 Hb. apply ld_same. intros x Hx. replace x with (e + (x - e)) by lia. apply Ho. lia. }
  split; [rewrite <- (Z.add_0_r e), Hk by lia; by rewrite Z.add_0_r | rewrite Hk by lia; done ..].
Qed.

Section Entry.
Context {S : Shm} {OK : ShmOk S} {K : Kernel} {L : SemLaws K} {HQ : Quiet K}.

Lemma put_routing_wp e fb d w : 4096 <= e -> 4096 <= fb -> fb + 96 <= e \/ e + 104 <= fb ->
  (forall x, 0 <= x < 76 -> ld8 (mm w) (fb + x) = d !!! Z.to_nat x) ->
  wp (put_routing e fb) (fun _ w' => exists m', w' = set_mm w m' /\ same_out e 28 (mm w) m' /\
    ld16 m' e = le 2 d 0 /\ ld16 m' (e + 2) = le 2 d 2 /\ ld32 m' (e + 16) = le 4 d 4 /\ ld32 m' (e + 24) = le 1 d 2 /\
    forall x, 4 <= x < 16 \/ 20 <= x < 24 -> ld8 m' (e + x) = ld8 (mm w) (e + x)) w.
Proof.
  intros He Hf Hd H. unfold put_routing.
  pose proof (ld_le 2 _ _ _ 0 76 H ltac:(lia) ltac:(lia)) as F0. rewrite Z.add_0_r in F0.
  pose proof (ld_le 2 _ _ _ 2 76 H ltac:(lia) ltac:(lia)) as F2.
  pose proof (ld_le 4 _ _ _ 4 76 H ltac:(lia) ltac:(lia)) as F4.
  pose proof (ld_le 1 _ _ _ 2 76 H ltac:(lia) ltac:(lia)) as F1.
  pose proof (ld_range 2 (mm w) fb). pose proof (ld_range 2 (mm w) (fb + 2)). pose proof (ld_range 4 (mm w) (fb + 4)).
  pose proof (ld_range 1 (mm w) (fb + 2)).
  repeat (wp_step; rewrite ?(ld_st_ne 1), ?(ld_st_ne 2), ?(ld_st_ne 4) by lia).
  rewrite F0, F2, F4, F1 in *. eexists. split; [reflexivity|]. ands.
  - intros x Hx. memsimp. done.
  - memsimp. apply u16_small. lia.
  - memsimp. apply u16_small. lia.
  - memsimp. apply u32_small. lia.
  - memsimp. apply u32_small. lia.
  - intros x Hx. memsimp. done.
Qed.

Lemma assign_session_wp e fb d w : 4096 <= e -> e + 104 <= 2 ^ 32 -> 4096 <= fb -> fb + 96 <= e \/ e + 104 <= fb ->
  0 <= cur_pid w < 2 ^ 32 -> (forall x, 0 <= x < 76 -> ld8 (mm w) (fb + x) = d !!! Z.to_nat x) ->
  wp (assign_session e fb true) (fun r w' => r = next_session w /\
    exists m', w' = set_mm (set_session w (next_session w)) m' /\ same_out e 32 (mm w) m' /\
      call_header m' e d (next_session w) (cur_pid w) /\
      forall x, 4 <= x < 12 \/ 20 <= x < 24 -> ld8 m' (e + x) = ld8 (mm w) (e + x)) w.
Proof.
  intros He He2 Hf Hd Hp H. pose proof (next_session_range w) as Hs. unfold assign_session. wp_step. wp_step.
  unfold getCurCPUID, CPU_ID_ARM. change (u32 (Z.shiftl 0 30)) with 0. rewrite Z.lor_0_r. simpl s_CallSessionId.
  fold (next_session w).
  eapply wp_call; [apply (put_routing_wp e fb d (set_session w (next_session w))); done|].
  intros [] w' (m1 & -> & Ho1 & E0 & E2 & E16 & E24 & Hk). change (mm (set_session w _)) with (mm w) in *.
  apply wp_wr_abs; [lia|]. intros m2 Ho2 Es. rewrite mm_set_mm in *. change (256 ^ Z.of_nat 4) with (2 ^ 32) in *.
  rewrite Z.mod_small in Es by lia. wp_step. apply wp_wr_abs; [lia|]. intros m3 Ho3 Ep. rewrite mm_set_mm in *.
  change (256 ^ Z.of_nat 4) with (2 ^ 32) in *. change (cur_pid _) with (cur_pid w) in Ep.
  rewrite Z.mod_small in Ep by lia. wp_step. split; [done|]. exists m3. ands.
  - done.
  - intros x Hx. rewrite Ho3, Ho2 by lia. apply Ho1. lia.
  - split; try done.
    all: rewrite (ld_same_out _ _ _ _ _ _ Ho3) by lia; try done; rewrite (ld_same_out _ _ _ _ _ _ Ho2) by lia; done.
  - intros x Hx. rewrite Ho3, Ho2 by lia. apply Hk. lia.
Qed.
End Entry.

(** ** Waiters: every wait object is free or belongs to one waiting call *)

Record waiters (m : mem) (sock : Z) (free es : list Z) : Prop := Waiters {
  ws_free : wait_fifo m sock free;
  ws_list : msg_list m (sock + 40) 24 32 es;
  ws_lock : list_unlocked m (sock + 40);
  ws_sem : sem_count m (sock + 120) = 1;
  ws_all : free ++ es ≡ₚ wait_objs sock 20;
}.

Lemma msg_list_same lb off size m m' es : msg_list m lb off size es ->
  (forall x, lb + 52 <= x < lb + 64 -> ld8 m' x = ld8 m x) ->
  (forall e x, e ∈ es -> e + off <= x < e + off + 8 -> ld8 m' x = ld8 m x) ->
  msg_list m' lb off size es.
Proof.
  intros [H1 H2 Hdl Hc H5 H6 H7] Hh He. split; try done.
  - eapply dlist_same; [|exact Hdl]. intros x Hx. apply elem_of_cons in Hx as [->|Hx].
    + by rewrite !(ld_same _ m m') by (intros; apply Hh; lia).
    + apply list_elem_of_fmap in Hx as (e & -> & Hx). by rewrite !(ld_same _ m m') by (intros; apply (He e _ Hx); lia).
  - by rewrite (ld_same _ m m') by (intros; apply Hh; lia).
Qed.

Lemma wait_objs_at sock o : o ∈ wait_objs sock 20 -> exists i, 0 <= i < 20 /\ o = sock + 292 + 32 * i.
Proof.
  intros Ho. apply list_elem_of_fmap in Ho as (i & -> & Hi). apply elem_of_seqZ in Hi. exists i. split; [lia | done].
Qed.

Lemma waiters_obj m sock free es o : waiters m sock free es -> o ∈ free ++ es ->
  exists i, 0 <= i < 20 /\ o = sock + 292 + 32 * i.
Proof. intros H Ho. rewrite (ws_all _ _ _ _ H) in Ho. by apply wait_objs_at. Qed.

Lemma waiting_obj m sock free es o x : waiters m sock free (es ++ [o]) -> x ∈ o :: es ->
  exists i, 0 <= i < 20 /\ x = sock + 292 + 32 * i.
Proof. intros H Hx. apply (waiters_obj _ _ _ _ x H). set_solver. Qed.

Lemma waiters_frame m m' sock free es : waiters m sock free es ->
  (forall x, sock + 88 <= x < sock + 932 -> ld8 m' x = ld8 m x) -> waiters m' sock free es.
Proof.
  intros H Ho. assert (Hat := fun o => waiters_obj m sock free es o H). destruct H as [Hf Hl Hk Hs Ha]. split; try done.
  - apply (fifo_at_frame Hf); [intros x Hx; apply Ho; lia|]. intros i x Hi Hx.
    pose proof (Z.mod_pos_bound (ld32 m (sock + 136) + Z.of_nat i) 21 ltac:(lia)). apply Ho. lia.
  - apply (msg_list_same _ _ _ m); [done | intros; apply Ho; lia|]. intros e x He Hx.
    destruct (Hat e ltac:(set_solver)) as (i & Hi & ->). apply Ho. lia.
  - unfold list_unlocked, sem_count in *. by rewrite (ld_same _ m m') by (intros; apply Ho; lia).
  - unfold sem_count in *. by rewrite (ld_same _ m m') by (intros; apply Ho; lia).
Qed.

(** Where a waiting or a free object lies. *)
Lemma waiters_head m sock o free es : waiters m sock (o :: free) es ->
  o ∉ es /\ (length es < 20)%nat /\
  (forall e, e ∈ es -> e + 32 <= o \/ o + 32 <= e) /\ exists i, 0 <= i < 20 /\ o = sock + 292 + 32 * i.
Proof.
  intros H. pose proof (ws_all _ _ _ _ H) as Hp.
  assert (Hnd : NoDup ((o :: free) ++ es)) by (rewrite Hp; apply wait_objs_NoDup).
  assert (Ho : o ∉ es) by (simpl in Hnd; apply NoDup_cons in Hnd as [Hn _]; set_solver).
  destruct (waiters_obj _ _ _ _ o H ltac:(set_solver)) as (i & Hi & Eo). ands; [done | | | by exists i].
  - apply Permutation_length in Hp. rewrite length_app, wait_objs_20 in Hp. simpl in Hp. lia.
  - intros e He. destruct (waiters_obj _ _ _ _ e H ltac:(set_solver)) as (k & Hk & Ee).
    assert (i <> k) by (intros ->; congruence). lia.
Qed.

(** Handing object [o] to a caller of session [sid]: taken from the free objects ([m1]), labelled
    ([m2], [m3]), put in the list ([m4]). *)
Section AddWaiter.
Context {sock o sid pid : Z} {free es : list Z} {m0 m1 m2 m3 : mem}.
Hypothesis H0 : waiters m0 sock (o :: free) es.
Hypothesis Hsock : 4096 <= sock.
Hypothesis Hsock2 : sock + 4992 <= 2 ^ 32.
Hypothesis Hf : wait_fifo m1 sock free.
Hypothesis Ho1 : same_out (sock + 136) 12 m0 m1.
Hypothesis Ho2 : same_out o 4 m1 m2.
Hypothesis E2 : ld32 m2 o = sid.
Hypothesis Ho3 : same_out (o + 4) 4 m2 m3.
Hypothesis E3 : ld32 m3 (o + 4) = pid.

Lemma aw_obj x : x ∈ es ++ [o] -> exists k, 0 <= k < 20 /\ x = sock + 292 + 32 * k.
Proof. intros Hx. apply (waiters_obj _ _ _ _ x H0). set_solver. Qed.

Lemma aw_apart x y : x ∈ es ++ [o] -> y ∈ es ++ [o] -> x = y \/ x + 32 <= y \/ y + 32 <= x.
Proof. intros Hx Hy. destruct (aw_obj x Hx) as (k & Hk & ->), (aw_obj y Hy) as (l & Hl & ->). lia. Qed.

Lemma aw_list : msg_list m3 (sock + 40) 24 32 es.
Proof.
  destruct (waiters_head _ _ _ _ _ H0) as (_ & _ & Hap & i & Hi & Eo).
  apply (msg_list_same _ _ _ m0); [apply (ws_list _ _ _ _ H0) | |].
  - intros x Hx. by rewrite Ho3, Ho2, Ho1 by lia.
  - intros x y Hx Hy. destruct (aw_obj x ltac:(set_solver)) as (k & Hk & ->).
    destruct (Hap _ Hx); by rewrite Ho3, Ho2, Ho1 by lia.
Qed.

Lemma aw_lock : list_unlocked m3 (sock + 40).
Proof.
  destruct (waiters_head _ _ _ _ _ H0) as (_ & _ & _ & i & Hi & Eo). pose proof (ws_lock _ _ _ _ H0) as Hk.
  unfold list_unlocked in *. by rewrite (sem_count_same _ _ _ _ _ Ho3), (sem_count_same _ _ _ _ _ Ho2), (sem_count_same _ _ _ _ _ Ho1) by lia.
Qed.

Lemma aw_fresh : fresh_entry (sock + 40) 32 es o.
Proof.
  destruct (waiters_head _ _ _ _ _ H0) as (_ & _ & Hap & i & Hi & Eo).
  unfold fresh_entry. ands; [lia | lia | lia |]. intros x Hx. destruct (Hap x Hx); lia.
Qed.

Context {m4 : mem}.
Hypothesis Hl : msg_list m4 (sock + 40) 24 32 (es ++ [o]).
Hypothesis Hk : list_unlocked m4 (sock + 40).
Hypothesis Ho4 : list_frame (sock + 40) 24 (es ++ [o]) m3 m4.

(** The fields of an object the list operation leaves alone. *)
Lemma aw_field x d : x ∈ es ++ [o] -> 0 <= d <= 4 -> ld32 m4 (x + d) = ld32 m3 (x + d).
Proof.
  intros Hx Hd. destruct (aw_obj x Hx) as (k & Hk' & Ex). apply ld_same. intros a Ha. apply Ho4; [lia|].
  intros y Hy. destruct (aw_apart x y Hx Hy); lia.
Qed.

Lemma aw_low x : x < sock + 88 \/ sock + 120 <= x < sock + 292 \/ sock + 932 <= x -> ld8 m4 x = ld8 m3 x.
Proof. intros Hx. apply Ho4; [lia|]. intros y Hy. destruct (aw_obj y Hy) as (k & Hk' & ->). lia. Qed.

Lemma add_waiter : waiters m4 sock free (es ++ [o]) /\ ld32 m4 o = sid /\ ld32 m4 (o + 4) = pid /\
  (forall x, x ∈ es -> ld32 m4 x = ld32 m0 x) /\ same_out (sock + 88) 844 m0 m4.
Proof.
  destruct (waiters_head _ _ _ _ _ H0) as (_ & _ & Hap & i & Hi & Eo). ands.
  - split; [| done | done | |].
    + apply (fifo_at_frame Hf); [intros x Hx; by rewrite aw_low, Ho3, Ho2 by lia|].
      intros k x Hk' Hx. pose proof (Z.mod_pos_bound (ld32 m1 (sock + 136) + Z.of_nat k) 21 ltac:(lia)).
      by rewrite aw_low, Ho3, Ho2 by lia.
    + rewrite <- (ws_sem _ _ _ _ H0). apply ld_same. intros x Hx. by rewrite aw_low, Ho3, Ho2, Ho1 by lia.
    + rewrite <- (ws_all _ _ _ _ H0), (Permutation_app_comm es [o]). simpl. symmetry. apply Permutation_middle.
  - rewrite <- (Z.add_0_r o), aw_field, Z.add_0_r by (set_solver || lia). by rewrite (ld_same_out _ _ _ _ _ _ Ho3) by lia.
  - by rewrite aw_field by (set_solver || lia).
  - intros x Hx. rewrite <- (Z.add_0_r x), aw_field, Z.add_0_r by (set_solver || lia).
    destruct (aw_obj x ltac:(set_solver)) as (k & Hk' & Ex). destruct (Hap x Hx);
    by rewrite (ld_same_out _ _ _ _ _ _ Ho3), (ld_same_out _ _ _ _ _ _ Ho2), (ld_same_out _ _ _ _ _ _ Ho1) by lia.
  - intros x Hx. by rewrite aw_low, Ho3, Ho2, Ho1 by lia.
Qed.
End AddWaiter.

Section Waits.
Context {S : Shm} {OK : ShmOk S} {K : Kernel} {L : SemLaws K} {HQ : Quiet K}.

Definition msg_flag_ra (flags : Z) : bool := negb ((flags &. MSG_FLAG_RETURN_ACK) =? 0).

Lemma get_wait_object_wp c o free es w : 0 <= c <= 1 -> waiters (mm w) (sock_of c) (o :: free) es ->
  wp (get_wait_object (getSeq c + 136)) (fun r w' => r = o /\ exists m', w' = set_mm w m' /\
    wait_fifo m' (sock_of c) free /\ same_out (sock_of c + 136) 12 (mm w) m') w.
Proof.
  intros Hc H. destruct (sock_of_range c Hc) as [R1 R2]. unfold get_wait_object. rewrite getSeq_at by lia. fold (sock_of c).
  destruct (waiters_head _ _ _ _ _ H) as (_ & _ & _ & i & Hi & Eo).
  apply (wp_loop (fun k (_ : unit) w' => k = 0%nat /\ w' = w) _ _ _ 0%nat); [unfold wait_fuel; lia | done |].
  intros k [] w' [-> ->]. eapply wp_call; [by apply GetFreeWaitComm_wp, (ws_free _ _ _ _ H)|].
  intros r w' [-> Hr]. cbn [fst snd]. rewrite (eqb_neq_false o) by lia. cbn [Z.eqb negb orb].
  by apply wp_ret.
Qed.

Lemma attach_wait_wp c e sid flags o free es w :
  0 <= c <= 1 -> waiters (mm w) (sock_of c) (o :: free) es ->
  ShMemAddrBase <= e -> e + 104 <= ShMemAddrBase + ShMemSize -> 0 <= sid < 2 ^ 32 -> 0 <= cur_pid w < 2 ^ 32 ->
  wp (attach_wait e c sid flags) (fun r w' => r = o /\ exists m', w' = set_mm w m' /\
    waiters m' (sock_of c) free (es ++ [o]) /\ ld32 m' o = sid /\ ld32 m' (o + 4) = cur_pid w /\
    ld 8 m' (e + 32) = o /\ (msg_flag_ra flags = true -> ld32 m' (e + 60) = sid /\ ld32 m' (e + 64) = o) /\
    (forall x, x ∈ es -> ld32 m' x = ld32 (mm w) x) /\
    forall x, ~ (sock_of c + 88 <= x < sock_of c + 932) -> ~ (e + 32 <= x < e + 40) ->
      (msg_flag_ra flags = true -> ~ (e + 60 <= x < e + 68)) -> ld8 m' x = ld8 (mm w) x) w.
Proof.
  intros Hc H He1 He2 Hsid Hpid. destruct (sock_of_range c Hc) as [R1 R2].
  destruct (waiters_head _ _ _ _ _ H) as (_ & Hlen & _ & i & Hi & Eo). shm_facts.
  assert (Hsk : s_CommSockt <= sock_of c /\ sock_of c + 4992 <= s_CommSockt + 9984) by (unfold sock_of, COMM_SOCKET_SIZE; lia).
  unfold attach_wait. eapply wp_call; [by eapply get_wait_object_wp|]. intros r w' (-> & m1 & -> & Hf1 & Ho1).
  rewrite getSeq_at by lia. fold (sock_of c). set (sock := sock_of c) in *.
  apply wp_wr_abs; [lia|]. intros m2 Ho2 Es2. wp_step. apply wp_wr_abs; [lia|]. intros m3 Ho3 Es3. wsimp.
  rewrite !mm_set_mm in *. change (cur_pid (set_mm _ _)) with (cur_pid w) in Es3.
  change (256 ^ Z.of_nat 4) with (2 ^ 32) in *. rewrite Z.mod_small in Es2, Es3 by lia.
  eapply wp_call; [apply (AddtoWaitComm_wp (sock + 40) o es (set_mm w m3));
    [eapply aw_list; eassumption | eapply aw_fresh; eassumption | lia | eapply aw_lock; eassumption]|].
  intros r w' (_ & m4 & -> & Hl4 & Hk4 & _ & Ho4). wsimp. rewrite mm_set_mm in *.
  edestruct (@add_waiter sock o sid (cur_pid w) free es (mm w) m1 m2 m3) as (Hw4 & F1 & F2 & F3 & Hfr); [eassumption..|].
  clear Ho1 Ho2 Ho3 Ho4.
  apply wp_wr_abs; [lia|]. intros m5 Ho5 Ew5. rewrite mm_set_mm in *. rewrite set_mm_set_mm.
  change (256 ^ Z.of_nat 8) with (2 ^ 64) in *. rewrite Z.mod_small in Ew5 by lia. fold (msg_flag_ra flags).
  apply (wp_call _ _ (fun _ w' => exists m6, w' = set_mm w m6 /\
    (msg_flag_ra flags = true -> ld32 m6 (e + 60) = sid /\ ld32 m6 (e + 64) = o) /\
    forall x, (msg_flag_ra flags = true -> ~ (e + 60 <= x < e + 68)) -> ld8 m6 x = ld8 m5 x)).
  { destruct (msg_flag_ra flags); [|apply wp_ret; exists m5; ands; done].
    wp_step. wp_step. eexists. split; [reflexivity|]. split.
    - intros _. split; memsimp; apply u32_small; lia.
    - intros x Hx. specialize (Hx eq_refl). memsimp. done. }
  intros [] w' (m6 & -> & Hra & Ho6). wp_step. split; [done|]. exists m6. split; [done|].
  assert (Hin : forall x, x < ShMemAddrBase \/ ShMemAddrBase + ShMemSize <= x -> ld8 m6 x = ld8 m4 x)
    by (intros x Hx; rewrite Ho6, Ho5 by lia; done).
  assert (Hfield : forall x, sock <= x -> x + 4 <= sock + 4992 -> ld32 m6 x = ld32 m4 x)
    by (intros x Hx1 Hx2; apply ld_same; intros y Hy; apply Hin; lia).
  ands.
  - apply (waiters_frame m4); [done|]. intros x Hx. apply Hin. lia.
  - by rewrite Hfield by lia.
  - by rewrite Hfield by lia.
  - by rewrite (ld_same _ m5 m6) by (intros; apply Ho6; lia).
  - done.
  - intros x Hx. rewrite <- F3 by done. destruct (waiters_obj _ _ _ _ x Hw4 ltac:(set_solver)) as (k & Hk & ->).
    apply Hfield; lia.
  - intros x Hx1 Hx2 Hx3. rewrite Ho6, Ho5 by (done || lia). apply Hfr. lia.
Qed.
(** Taking back the object of a call that got no answer. *)
Lemma drop_wait_wp c sid o free es w : 0 <= c <= 1 -> waiters (mm w) (sock_of c) free (es ++ [o]) ->
  ld32 (mm w) o = sid -> none_with (mm w) 0 sid es ->
  wp (GetWaitbySessionId (getSeq c + 40) sid ;; ReleaseWaitComm c o) (fun _ w' => exists m', w' = set_mm w m' /\
    waiters m' (sock_of c) (free ++ [o]) es /\ same_out (sock_of c + 88) 844 (mm w) m') w.
Proof.
  intros Hc H Es Hn. destruct (sock_of_range c Hc) as [R1 R2]. rewrite getSeq_at by lia. fold (sock_of c).
  set (sock := sock_of c) in *. pose proof H as [Hf Hl Hk Hs Ha].
  assert (Hat := fun x => waiters_obj (mm w) sock free (es ++ [o]) x H).
  eapply wp_call; [apply (GetWaitbySessionId_wp (sock + 40) sid (es ++ [o])); done|].
  intros r w' (m1 & -> & Hk1 & Ho1 & _ & Hrm).
  assert (Hl1 : msg_list m1 (sock + 40) 24 32 es).
  { destruct Hrm as [(l1 & e & l2 & (E & Hn1 & He) & _ & Hl1)|(Hno & _)].
    - destruct l2 as [|z l2 _] using rev_ind.
      + apply app_inj_tail in E as [-> _]. by rewrite app_nil_r in Hl1.
      + rewrite app_comm_cons, app_assoc in E. apply app_inj_tail in E as [-> _]. unfold none_with in Hn.
        rewrite Forall_forall in Hn. destruct (Hn e ltac:(set_solver)). done.
    - unfold none_with in Hno. rewrite Forall_forall in Hno. destruct (Hno o ltac:(set_solver)). by rewrite Z.add_0_r. }
  assert (Hlow : forall x, x < sock + 88 \/ sock + 120 <= x < sock + 292 \/ sock + 932 <= x -> ld8 m1 x = ld8 (mm w) x).
  { intros x Hx. apply Ho1; [lia|]. intros y Hy. destruct (Hat y ltac:(set_solver)) as (k & Hk' & ->). lia. }
  assert (Hf1 : wait_fifo m1 sock free).
  { apply (fifo_at_frame Hf); [intros x Hx; apply Hlow; lia|]. intros k x Hk' Hx.
    pose proof (Z.mod_pos_bound (ld32 (mm w) (sock + 136) + Z.of_nat k) 21 ltac:(lia)). apply Hlow. lia. }
  assert (Hlen : Z.of_nat (length free) < 20).
  { apply Permutation_length in Ha. rewrite !length_app, wait_objs_20 in Ha. simpl in Ha. lia. }
  destruct (Hat o ltac:(set_solver)) as (i & Hi & Eo).
  eapply wp_mono; [apply (ReleaseWaitComm_wp c o free (set_mm w m1)); [done | done | done | lia |]|].
  { rewrite <- Hs. apply ld_same. intros x Hx. rewrite mm_set_mm. apply Hlow. fold sock in Hx. lia. }
  fold sock. intros _ w' (m2 & -> & Hf2 & Hs2 & Ho2). rewrite mm_set_mm in Ho2. exists m2. ands; [done | |].
  - split; try done.
    + apply (msg_list_same _ _ _ m1); [done | intros; apply Ho2; lia|]. intros e x He Hx.
      destruct (Hat e ltac:(set_solver)) as (k & Hk' & ->). apply Ho2. lia.
    + unfold list_unlocked, sem_count in *. by rewrite (ld_same _ m1 m2) by (intros; apply Ho2; lia).
    + rewrite <- Ha, <- app_assoc. by rewrite (Permutation_app_comm es [o]).
  - intros x Hx. rewrite Ho2 by lia. apply Hlow. lia.
Qed.
End Waits.

(** ** The notification *)

Section Notify.
Context {S : Shm} {OK : ShmOk S} {K : Kernel} {L : SemLaws K} {HQ : Quiet K} {HT : Timed K}.

(** What [SendCommLow] leaves in the header of the sequence. *)
Record posted (m : mem) (seq slot type param sem : Z) : Prop := Posted {
  po_slot : ld 1 m (seq + 16) = slot;
  po_param : ld32 m (seq + 20) = param;
  po_sem : ld 8 m (seq + 24) = sem;
  po_status : ld 1 m (seq + 8) = type |. MSG_FLAG_SENT;
}.

Lemma lor4_range t : 0 <= t < 256 -> 0 <= t |. 4 < 256 /\ (t |. 4) &. 4 <> 0.
Proof.
  intros H. split; [apply (lor_range 8); lia|]. intros E. apply (f_equal (fun z => Z.testbit z 2)) in E.
  rewrite Z.land_spec, Z.lor_spec in E. by destruct (Z.testbit t 2).
Qed.

Lemma spin_until_wp p bit w : 4096 <= p -> ld 1 (mm w) p &. bit <> 0 ->
  wp (spin_until p bit) (fun _ w' => w' = w) w.
Proof.
  intros Hp Hb. unfold spin_until.
  apply (wp_loop (fun k (_ : unit) w' => k = 0%nat /\ w' = w) _ _ _ 0%nat); [unfold wait_fuel; lia | done |].
  intros k [] w' [-> ->]. wp_step. rewrite (eqb_neq_false _ 0 Hb). cbn [negb]. by wp_step.
Qed.

Definition doorbell (w : world) (m : mem) (type : Z) : world :=
  set_mmio (set_mm w m) (mmio w ++ [(msgbox_ctrl_base (mbox w) + H713_MSGBOX_TX_DATA, type, m)]).

Lemma send_intr_wp type m w : msgbox_ctrl_base (mbox w) <> 0 -> 0 <= type <= 3 ->
  wp (sunxi_cpu_comm_send_intr_to_mips 0 type) (fun _ w' => w' = doorbell w m type) (set_mm w m).
Proof.
  intros Hb Ht. unfold sunxi_cpu_comm_send_intr_to_mips, mb, writel. wp_step.
  change (mbox (set_mm w m)) with (mbox w). rewrite (eqb_neq_false _ 0 Hb). unfold wp, modify, doorbell. simpl.
  do 2 f_equal. assert (type = 0 \/ type = 1 \/ type = 2 \/ type = 3) as [->|[->|[->| ->]]] by lia; done.
Qed.

Lemma SendCommLow_wp seq slot type param sem dir w :
  4096 <= seq -> seq + 40 <= 2 ^ 32 -> ld 1 (mm w) seq <> 0 -> ld 1 (mm w) (seq + 1) = 0 -> ld 1 (mm w) (seq + 2) = dir ->
  0 <= dir <= 1 -> 0 <= slot < 21 -> 0 <= type < 256 -> 0 <= param < 2 ^ 32 -> 0 <= sem < 2 ^ 32 ->
  msgbox_ctrl_base (mbox w) <> 0 ->
  wp (SendCommLow seq slot type param sem) (fun r w' => r = 0 /\ exists m', w' = doorbell w m' dir /\
    posted m' seq slot type param sem /\
    forall x, ~ (seq + 4 <= x < seq + 9) -> ~ (seq + 16 <= x < seq + 32) -> ld8 m' x = ld8 (mm w) x) w.
Proof.
  intros Hs Hs2 H0 H1 H2 Hd Hsl Ht Hp Hsem Hb. unfold SendCommLow. rewrite (eqb_neq_false seq) by lia.
  wp_step. wp_step. rewrite H1. change (negb (0 =? getCurCPUID)) with false. cbv iota. wp_step.
  rewrite H2. unfold FIFO_DEFAULT_CAP. rewrite ltb_false, leb_false by lia. cbn [orb]. repeat wp_step.
  rewrite (eqb_neq_false _ 0 H0). wp_step. wp_step. rewrite ld1_st1_eq, u8_small by lia.
  destruct (lor4_range type Ht) as [Hr Hb4]. set (m1 := st 1 _ (seq + 8) (type |. MSG_FLAG_SENT)).
  assert (E8 : ld 1 m1 (seq + 8) = type |. MSG_FLAG_SENT).
  { unfold m1. rewrite ld1_st1_eq. apply u8_small. exact Hr. }
  eapply wp_call; [apply (spin_until_wp (seq + 8) MSG_FLAG_SENT (set_mm w m1)); [lia|]|].
  { rewrite mm_set_mm, E8. exact Hb4. }
  intros [] w' ->. replace (if dir =? 0 then MSG_TYPE_CALL else MSG_TYPE_RETURN) with dir
    by (destruct (Z.eqb_spec dir 0); unfold MSG_TYPE_CALL, MSG_TYPE_RETURN; lia).
  eapply wp_call; [apply (send_intr_wp dir m1 w); [done | lia]|]. intros [] w' ->. wp_step. split; [done|].
  exists m1. split; [done|]. split; [|intros x Hx1 Hx2; unfold m1; memsimp; done].
  split; [| | | exact E8]; unfold m1; memsimp.
  - apply u8_small. lia.
  - apply u32_small. lia.
  - rewrite ld_st_eq. apply Z.mod_small. lia.
Qed.
End Notify.

