(* ===== verification/Call.v ===== *)
(** A call to MIPS from end to end: [SendComm2CPUEx] from the lookup of the
    routine to the wait for the acknowledgement, composed from the
    specifications of the routine table, the status words, the FIFOs, the pools
    and the waiting list, and run on a booted world. *)
From S2P Require Import Prelude Mem Kernel Fifo Shm SpinLock Flags SeqMem DList Channel Waiting Pools Boot Routine RoutineTable Msgbox UserQueue Proto Acks Send.

(** ** One call, from the free entry to the acknowledgement *)

Section Call.
Context {S : Shm} {OK : ShmOk S} {K : Kernel} {L : SemLaws K} {HQ : Quiet K} {HT : Timed K}.
Context {J : Jiffies} {A : Kmalloc} {U : Uaccess}.

(** A message nobody waits for. *)
Definition notify_only (flags : Z) : bool :=
  negb ((flags &. MSG_FLAG_NOTIFY) =? 0) && ((flags &. MSG_FLAG_RETURN_ACK) =? 0).

(** A buffer of the caller: neither in the shared region nor in the sockets. *)
Definition private (a n : Z) : Prop := 4096 <= a /\
  (a + n <= ShMemAddrBase \/ ShMemAddrBase + ShMemSize <= a) /\
  (a + n <= s_CommSockt \/ s_CommSockt + 2 * COMM_SOCKET_SIZE <= a).

(** The bytes of an entry that stay those of the message. *)
Definition payload (x : Z) : Prop := 6 <= x < 10 \/ 20 <= x < 24 \/ 40 <= x < 60 \/ 68 <= x < 104.

(** Free and waiting objects while the call is out. *)
Definition waiting (notify : bool) (m : mem) (o : Z) (free es : list Z) : Prop :=
  if notify then waiters m (sock_of 1) (o :: free) es else waiters m (sock_of 1) free (es ++ [o]).

Lemma waiting_frame n m m' o free es : waiting n m o free es ->
  (forall x, sock_of 1 + 88 <= x < sock_of 1 + 932 -> ld8 m' x = ld8 m x) -> waiting n m' o free es.
Proof. unfold waiting. destruct n; intros H Ho; by apply (waiters_frame m). Qed.

Lemma prepare_call_wp e fb d o free es w :
  ShMemAddrBase <= e -> e + 104 <= ShMemAddrBase + ShMemSize -> private fb 96 -> 0 <= cur_pid w < 2 ^ 32 ->
  (forall x, 0 <= x < 76 -> ld8 (mm w) (fb + x) = d !!! Z.to_nat x) ->
  waiters (mm w) (sock_of 1) (o :: free) es ->
  let sid := next_session w in let n := notify_only (ld16 (mm w) (e + 6)) in
  wp (prepare_call e 1 fb true) (fun r w' => r = (sid, if n then 0 else o) /\ exists m',
    w' = set_mm (set_session w sid) m' /\ call_header m' e d sid (cur_pid w) /\
    ld 8 m' (e + 32) = (if n then 0 else o) /\ waiting n m' o free es /\
    (n = false -> ld32 m' o = sid /\ ld32 m' (o + 4) = cur_pid w /\ forall x, x ∈ es -> ld32 m' x = ld32 (mm w) x) /\
    (forall x, 4 <= x < 12 \/ payload x -> ld8 m' (e + x) = ld8 (mm w) (e + x)) /\
    forall x, ~ (e <= x < e + 104) -> ~ (sock_of 1 + 88 <= x < sock_of 1 + 932) -> ld8 m' x = ld8 (mm w) x) w.
Proof.
  intros He1 He2 (Hf1 & Hf2 & Hf3) Hp Hd Hw sid n. pose proof (next_session_range w) as Hs. fold sid in Hs. shm_facts.
  assert (Hsk : sock_of 1 = s_CommSockt + 4992) by (unfold sock_of, COMM_SOCKET_SIZE; lia).
  unfold prepare_call, COMM_SOCKET_SIZE in *. eapply wp_call; [apply (assign_session_wp e fb d w); (done || lia)|].
  intros r w' (-> & m1 & -> & Ho1 & Hh1 & Hk1). fold sid in Hh1 |- *. wp_step.
  assert (E6 : ld16 m1 (e + 6) = ld16 (mm w) (e + 6)).
  { apply ld_same. intros x Hx. replace x with (e + (x - e)) by lia. apply Hk1. lia. }
  rewrite E6. fold (notify_only (ld16 (mm w) (e + 6))). fold n.
  assert (Hw1 : waiters m1 (sock_of 1) (o :: free) es) by (apply (waiters_frame (mm w)); [done | intros x Hx; apply Ho1; lia]).
  destruct n.
  - apply wp_wr_abs; [lia|]. intros m2 Ho2 E2. wp_step. split; [done|]. exists m2. wsimp. rewrite mm_set_mm in *.
    assert (Hin : forall x, x < e + 32 \/ e + 40 <= x -> ld8 m2 x = ld8 m1 x) by (intros x Hx; apply Ho2; lia).
    ands; try done.
    + apply (call_header_out m1); [intros x Hx; apply Hin; lia | done].
    + apply (waiters_frame m1); [done | intros x Hx; apply Hin; lia].
    + intros x Hx. unfold payload in Hx. rewrite Hin by lia.
      assert (4 <= x < 12 \/ 20 <= x < 24 \/ 32 <= x) as [Hx'|[Hx'|Hx']] by lia; [apply Hk1; lia | apply Hk1; lia | apply Ho1; lia].
    + intros x Hx _. rewrite Hin by lia. apply Ho1. lia.
  - set (w1 := set_mm (set_session w sid) m1) in *.
    eapply wp_call; [apply (attach_wait_wp 1 e sid (ld16 (mm w) (e + 6)) o free es w1); (done || lia)|].
    intros r w' (-> & m2 & -> & Hw2 & F1 & F2 & F3 & _ & F4 & Ho2). wp_step. split; [done|]. exists m2.
    change (mm w1) with m1 in *. change (cur_pid w1) with (cur_pid w) in *.
    assert (Hin : forall x, 0 <= x < 104 -> ~ (32 <= x < 40) -> ~ (60 <= x < 68) -> ld8 m2 (e + x) = ld8 m1 (e + x))
      by (intros x Hx H1 H2; apply Ho2; lia).
    ands; try done.
    + apply (call_header_out m1); [intros x Hx; apply Hin; lia | done].
    + intros _. ands; try done. intros x Hx. rewrite F4 by done. apply (ld_same_out _ _ _ _ _ _ Ho1).
      destruct (waiters_obj _ _ _ _ x Hw ltac:(set_solver)) as (k & Hk & ->). lia.
    + intros x Hx. unfold payload in Hx. rewrite Hin by lia.
      assert (4 <= x < 12 \/ 20 <= x < 24 \/ 32 <= x) as [Hx'|[Hx'|Hx']] by lia; [apply Hk1; lia | apply Hk1; lia | apply Ho1; lia].
    + intros x Hx Hx2. rewrite Ho2 by lia. apply Ho1. lia.
Qed.

Lemma fifo_drop_wp f base vb cap q w : fifo_at (mm w) f base vb cap q ->
  wp (fifo_ItemRdNext f) (fun _ w' => exists m', w' = set_mm w m' /\ fifo_at m' f base vb cap (tl q) /\
    same_out f 12 (mm w) m') w.
Proof.
  intros H. destruct q as [|x q].
  - pose proof (fifo_empty_test H) as E. pose proof (fa_hdr _ _ _ _ _ _ H). unfold fifo_ItemRdNext. rewrite (eqb_neq_false f) by lia.
    do 3 wp_step. rewrite E. change (Z.of_nat (length (@nil Z)) =? 0) with true. cbv iota. wp_step.
    exists (mm w). rewrite set_mm_id. done.
  - eapply wp_mono; [exact (fifo_ItemRdNext_wp x q H)|]. intros r w' (m' & -> & _ & Hq & _ & Ho & _). by exists m'.
Qed.

(** The world the sender waits in: the message is complete, the doorbell rung. *)
Record call_sent (w w1 : world) (m1 : mem) (seq e j sid sem : Z) : Prop := CallSent {
  ct_world : w1 = doorbell w m1 0;
  ct_flags2 : ld16 m1 (e + 10) = 1 |. MSG_FLAG_SENT;
  ct_posted : posted m1 seq j 1 sid (sem + 16);
  ct_frame : forall x, ~ (seq + 4 <= x < seq + 9) -> ~ (seq + 16 <= x < seq + 32) -> ~ (e + 10 <= x < e + 12) ->
    ld8 m1 x = ld8 (mm w) x;
}.

(** The sequence calls to MIPS go through, and its semaphores. *)
Definition call_seq : Z := getShareSeqW 1 0.
Definition call_sem : Z := send_sem 1 0.

Lemma call_layout : call_seq = ShMemAddrBase + 9912 /\ call_sem = s_CommSockt + 5000 /\
  sock_of 1 = s_CommSockt + 4992 /\ seq_range call_seq.
Proof.
  unfold call_seq, call_sem, send_sem, getShareSeqW, getCurCPUID, CPU_ID_ARM, sock_of, COMM_SOCKET_SIZE, seq_range, SHMEM_OFF_MAX_CPU.
  rewrite getShareSeq_at by lia. change (0 =? 0) with true. cbv iota. lia.
Qed.

(** What the sender has after the wait, by its status [r]. *)
Definition call_done (r : Z) (n : bool) (m1 m' : mem) (o : Z) (free es : list Z) (base : Z) (q : list Z) : Prop :=
  (if n then waiters m' (sock_of 1) (o :: free) es
   else if r =? 0 then waiters m' (sock_of 1) free (es ++ [o]) else waiters m' (sock_of 1) (free ++ [o]) es) /\
  fifo_at m' (call_seq + 32) base (call_seq + 276) 21 (if r =? 0 then tl q else q) /\
  (r <> 0 -> ld 1 m' (call_seq + 8) &. MSG_FLAG_SENT = 0) /\
  forall x, ~ (call_seq + 8 <= x < call_seq + 44) -> ~ (call_sem <= x < call_sem + 32) ->
    ~ (sock_of 1 + 88 <= x < sock_of 1 + 932) -> ld8 m' x = ld8 m1 x.

(** The part after the wait. *)
Lemma after_wait_wp n o free es base q r w : msgbox_ctrl_base (mbox w) <> 0 ->
  waiting n (mm w) o free es -> (n = false -> none_with (mm w) 0 (ld32 (mm w) o) es) ->
  fifo_at (mm w) (call_seq + 32) base (call_seq + 276) 21 q ->
  wp (if negb (r =? 0) then
        st ← rd8 (call_seq + 8);
        wr8 (call_seq + 8) (bic st MSG_FLAG_SENT) ;;
        if (0 =? 0) && negb ((if n then 0 else o) =? 0) then
          sid ← rd32 (if n then 0 else o);
          GetWaitbySessionId (getSeq 1 + 40) sid ;;
          ReleaseWaitComm 1 (if n then 0 else o)
        else mret tt
      else fifo_ItemRdNext (call_seq + 32) ;; mret tt)
     (fun _ w' => exists m', w' = set_mm w m' /\ call_done r n (mm w) m' o free es base q) w.
Proof.
  intros Hb Hw Hs Hq. destruct call_layout as (Eq & Esem & Esk & Hr). shm_facts. unfold call_done.
  destruct (Z.eqb_spec r 0) as [->|Hr0]; cbn [negb].
  - eapply wp_call; [by apply fifo_drop_wp|]. intros r w' (m' & -> & Hq' & Ho). wp_step. exists m'. ands; [done | | done | done |].
    + apply (waiting_frame n (mm w)); [done | intros x Hx; apply Ho; lia].
    + intros x Hx _ _. apply Ho. lia.
  - wp_step. apply wp_wr_abs; [lia|]. intros m1 Ho1 E1. pose proof (ld1_range (mm w) (call_seq + 8)) as Hb8.
    change (256 ^ Z.of_nat 1) with (2 ^ 8) in E1. rewrite Z.mod_small in E1 by (apply bic_range; unfold MSG_FLAG_SENT; lia).
    assert (Hq1 : fifo_at m1 (call_seq + 32) base (call_seq + 276) 21 q) by (apply (fifo_at_same_out Hq _ _ _ Ho1); lia).
    assert (Hw1 : waiting n m1 o free es) by (apply (waiting_frame n (mm w)); [done | intros x Hx; apply Ho1; lia]).
    change (0 =? 0) with true. cbn [andb]. destruct n.
    + change (0 =? 0) with true. cbn [negb]. wp_step. exists m1. ands; [done | done | done | |].
      * intros _. rewrite E1. apply land_bic.
      * intros x Hx _ _. apply Ho1. lia.
    + destruct (waiters_obj _ _ _ _ o Hw1 ltac:(set_solver)) as (i & Hi & Eo). rewrite (eqb_neq_false o) by lia.
      cbn [negb]. wp_step. rewrite (ld_same_out _ _ _ _ _ _ Ho1) by lia.
      eapply wp_mono; [apply (drop_wait_wp 1 _ o free es (set_mm w m1)); [lia | done | |]|].
      * rewrite mm_set_mm. apply (ld_same_out _ _ _ _ _ _ Ho1). lia.
      * specialize (Hs eq_refl). unfold none_with in *. rewrite Forall_forall in *. intros x Hx.
        destruct (waiters_obj _ _ _ _ x Hw1 ltac:(set_solver)) as (k & Hk & Ek).
        rewrite mm_set_mm, (ld_same_out _ _ _ _ _ _ Ho1) by lia. by apply Hs.
      * intros [] w' (m2 & -> & Hw2 & Ho2). rewrite mm_set_mm in Ho2. exists m2. ands; [done | done | | |].
        -- apply (fifo_at_same_out Hq1 _ _ _ Ho2); lia.
        -- intros _. rewrite (ld_same_out _ _ _ _ _ _ Ho2), E1 by lia. apply land_bic.
        -- intros x Hx _ Hx2. rewrite Ho2, Ho1 by lia. done.
Qed.

Lemma dispatch_and_wait_wp j sid n o free es base q w : let e := call_entry call_seq j in
  0 <= sid < 2 ^ 32 -> 0 <= j < 20 -> ld 1 (mm w) call_seq <> 0 -> ld 1 (mm w) (call_seq + 1) = 0 -> ld 1 (mm w) (call_seq + 2) = 0 ->
  msgbox_ctrl_base (mbox w) <> 0 -> ld16 (mm w) (e + 10) = 1 ->
  waiting n (mm w) o free es -> (n = false -> ld32 (mm w) o = sid /\ none_with (mm w) 0 sid es) ->
  fifo_at (mm w) (call_seq + 32) base (call_seq + 276) 21 q ->
  wp (dispatch_and_wait call_seq e j 1 sid call_sem 1 0 (if n then 0 else o)) (fun r w' => exists w1 m1 m',
    call_sent w w1 m1 call_seq e j sid call_sem /\
    r = fst (down_timeout (call_sem + 16) SEND_TIMEOUT_JIFFIES w1) /\
    w' = set_mm w1 m' /\ call_done r n m1 m' o free es base q) w.
Proof.
  intros e Hsr Hj H0 H1 H2 Hb Hf2 Hw Hs Hq. destruct call_layout as (Eq & Esem & Esk & Hr).
  destruct (call_entry_shm _ _ Hr Hj) as (He1 & He2 & _). fold e in He1, He2. shm_facts. unfold dispatch_and_wait. wp_step. rewrite Hf2. apply wp_wr_abs; [lia|].
  intros m1 Ho1 E1. change (256 ^ Z.of_nat 2) with (2 ^ 16) in E1. change ((1 |. MSG_FLAG_SENT) mod 2 ^ 16) with (1 |. MSG_FLAG_SENT) in E1.
  rewrite (u32_small (call_sem + 16)) by lia.
  eapply wp_call.
  { apply (SendCommLow_wp call_seq j 1 sid (call_sem + 16) 0 (set_mm w m1)); rewrite ?mm_set_mm;
      rewrite ?(ld_same_out _ _ _ _ _ _ Ho1) by lia; (done || lia). }
  intros r0 w' (_ & m2 & -> & Hpo & Ho2). rewrite mm_set_mm in Ho2.
  change (doorbell (set_mm w m1) m2 0) with (doorbell w m2 0).
  assert (Hin : forall x, ~ (call_seq <= x < call_seq + 32) -> ~ (e + 10 <= x < e + 12) -> ld8 m2 x = ld8 (mm w) x)
    by (intros x Hx1 Hx2; rewrite Ho2, Ho1 by lia; done).
  assert (Hq2 : fifo_at m2 (call_seq + 32) base (call_seq + 276) 21 q).
  { apply (fifo_at_frame Hq); [intros x Hx; apply Hin; lia|]. intros i x Hi Hx.
    pose proof (Z.mod_pos_bound (ld32 (mm w) (call_seq + 32) + Z.of_nat i) 21 ltac:(lia)). apply Hin; lia. }
  assert (Hw2 : waiting n m2 o free es) by (apply (waiting_frame n (mm w)); [done | intros x Hx; apply Hin; lia]).
  assert (Hct : call_sent w (doorbell w m2 0) m2 call_seq e j sid call_sem).
  { split; [done | | done |].
    - rewrite (ld_same _ m1 m2) by (intros x Hx; apply Ho2; lia). done.
    - intros x Hx1 Hx2 Hx3. rewrite Ho2, Ho1 by lia. done. }
  apply wp_down_timeout. set (r := fst (down_timeout _ _ _)). intros m3 E3 Ho3. change (mm (doorbell w m2 0)) with m2 in Ho3.
  eapply wp_call; [apply (after_wait_wp n o free es base q r (set_mm (doorbell w m2 0) m3)); rewrite ?mm_set_mm|].
  - done.
  - apply (waiting_frame n m2); [done | intros x Hx; apply Ho3; lia].
  - intros Hn. destruct (Hs Hn) as [Es Hno]. unfold waiting in Hw. rewrite Hn in Hw.
    assert (Hobj : forall x, x ∈ o :: es -> ld32 m3 x = ld32 (mm w) x).
    { intros x Hx. destruct (waiters_obj _ _ _ _ x Hw ltac:(set_solver)) as (k & Hk & Ek).
      rewrite (ld_same_out _ _ _ _ _ _ Ho3) by lia. apply ld_same. intros y Hy. apply Hin; lia. }
    rewrite Hobj, Es by set_solver. unfold none_with in *. rewrite Forall_forall in *. intros x Hx.
    rewrite Z.add_0_r, Hobj by set_solver. specialize (Hno x Hx). by rewrite Z.add_0_r in Hno.
  - apply (fifo_at_same_out Hq2 _ _ _ Ho3); lia.
  - intros [] w' (m' & -> & Hd). wp_step. rewrite mm_set_mm in Hd. exists (doorbell w m2 0), m2, m'. ands; try done.
    destruct Hd as (D1 & D2 & D3 & D4). split; [done|]. split; [done|]. split; [done|].
    intros x Hx1 Hx2 Hx3. rewrite D4 by done. apply Ho3. lia.
Qed.

(** *** Everything a call to MIPS needs *)

Record call_ready (w : world) (fb msg j : Z) (js : list Z) (o : Z) (free es : list Z) (base : Z) (q : list Z) : Prop := CallReady {
  cr_magic : magic_ok (mm w);
  cr_up : st_notice (cpu_status (mm w) 1) = false;
  cr_app : app_ready w 1 = true;
  cr_cmd : fifo_at (mm w) (call_seq + 32) base (call_seq + 276) 21 q;
  cr_room : Z.of_nat (length q) < 19;
  cr_pool : call_pool (mm w) call_seq (j :: js);
  cr_hdr : ld 1 (mm w) call_seq <> 0 /\ ld 1 (mm w) (call_seq + 1) = 0 /\ ld 1 (mm w) (call_seq + 2) = 0;
  cr_bell : msgbox_ctrl_base (mbox w) <> 0;
  cr_pid : 0 <= cur_pid w < 2 ^ 32;
  cr_wait : waiters (mm w) (sock_of 1) (o :: free) es;
  cr_fresh : none_with (mm w) 0 (next_session w) es;
  cr_fb : private fb 96;
  cr_msg : private msg 104;
  cr_apart : fb + 96 <= msg \/ msg + 104 <= fb;
}.

(** The caller's buffers and the semaphores are nothing it depends on. *)
Lemma call_ready_frame w m fb msg j js o free es base q : call_ready w fb msg j js o free es base q ->
  (forall x, ShMemAddrBase <= x < ShMemAddrBase + ShMemSize \/ sock_of 1 + 88 <= x < sock_of 1 + 932 -> ld8 m x = ld8 (mm w) x) ->
  call_ready (set_mm w m) fb msg j js o free es base q.
Proof.
  intros H Ho. pose proof H as [H1 H2 H3 H4 H5 H6 (H7a & H7b & H7c) H8 H9 H10 H11 H12 H13 H14].
  destruct call_layout as (Eq & Esem & Esk & Hr). shm_facts.
  assert (Hsh : forall x, ShMemAddrBase <= x < ShMemAddrBase + ShMemSize -> ld8 m x = ld8 (mm w) x) by (intros x Hx; apply Ho; lia).
  split; rewrite ?mm_set_mm; try done.
  - by apply (magic_frame (mm w)).
  - by rewrite (status_frame (mm w) m).
  - unfold app_ready in *. rewrite mm_set_mm. by rewrite (status_frame (mm w) m).
  - apply (fifo_at_frame H4); [intros x Hx; apply Hsh; lia|]. intros i x Hi Hx.
    pose proof (Z.mod_pos_bound (ld32 (mm w) (call_seq + 32) + Z.of_nat i) 21 ltac:(lia)). apply Hsh; lia.
  - apply (call_pool_frame (mm w)); [intros x Hx; apply Hsh; lia | done].
  - rewrite !(ld_same 1 (mm w) m) by (intros x Hx; apply Hsh; lia). done.
  - apply (waiters_frame (mm w)); [done | intros x Hx; apply Ho; lia].
  - unfold none_with in *. rewrite Forall_forall in *. intros x Hx. specialize (H11 x Hx).
    destruct (waiters_obj _ _ _ _ x H10 ltac:(set_solver)) as (k & Hk & Ek). rewrite (ld_same 4 (mm w) m); [done|].
    intros y Hy. apply Ho. lia.
Qed.

(** The entry of a call, complete: [m0] is the memory the message was read from. *)
Record call_image (m0 m1 : mem) (msg e j : Z) (d : list Z) (sid pid wo : Z) : Prop := CallImage {
  ci_header : call_header m1 e d sid pid;
  ci_slot : ld16 m1 (e + 4) = j;
  ci_flags2 : ld16 m1 (e + 10) = 1 |. MSG_FLAG_SENT;
  ci_wait : ld 8 m1 (e + 32) = wo;
  ci_payload : forall x, payload x -> ld8 m1 (e + x) = ld8 m0 (msg + x);
  ci_back : ld32 m1 (msg + 12) = sid /\ ld16 m1 (msg + 2) = 1;
}.

(** What a call of [w] has done when it returns [r] in [w']. *)
Record call_outcome (w : world) (msg j : Z) (d js : list Z) (o : Z) (free es : list Z) (base : Z) (q : list Z)
    (r : Z) (w' : world) (n : bool) (w1 : world) (m1 m' : mem) : Prop := CallOutcome {
  co_session : w1 = doorbell (set_session w (next_session w)) m1 0;
  co_image : call_image (mm w) m1 msg (call_entry call_seq j) j d (next_session w) (cur_pid w) (if n then 0 else o);
  co_posted : posted m1 call_seq j 1 (next_session w) (call_sem + 16);
  co_status : r = fst (down_timeout (call_sem + 16) SEND_TIMEOUT_JIFFIES w1);
  co_world : w' = set_mm w1 m';
  co_done : call_done r n m1 m' o free es base q;
  co_pool : call_pool m' call_seq js;
}.
(** The message in the entry, with the entry's number and the type put back. *)
Lemma entry_copied m e msg j : 0 <= j < 20 -> e + 104 <= msg \/ msg + 104 <= e ->
  let m' := st16 (st16 (wrbytes m e (bytes (Z.to_nat COMM_MSG_SIZE) m msg)) (e + 4) j) (e + 10) 1 in
  ld16 m' (e + 4) = j /\ ld16 m' (e + 10) = 1 /\ ld16 m' (e + 6) = ld16 m (msg + 6) /\
  (forall x, payload x -> ld8 m' (e + x) = ld8 m (msg + x)) /\ same_out e 104 m m'.
Proof.
  intros Hj Hd m'. unfold COMM_MSG_SIZE in m'. change (Z.to_nat 104) with 104%nat in m'.
  assert (Hin : forall x, 0 <= x < 104 -> ~ (4 <= x < 6) -> ~ (10 <= x < 12) -> ld8 m' (e + x) = ld8 m (msg + x)).
  { intros x Hx H1 H2. unfold m'. rewrite !ld8_st_out by lia.
    rewrite <- (Z2Nat.id x) at 1 by lia. apply ld8_wrbytes_in; [|apply ld8_range].
    rewrite bytes_lookup by lia. do 2 f_equal. lia. }
  ands.
  - unfold m'. rewrite ld_st_ne, ld16_st16_eq by lia. apply u16_small. lia.
  - unfold m'. by rewrite ld16_st16_eq.
  - apply ld_shift. intros i Hi. rewrite <- !Z.add_assoc. apply Hin; lia.
  - intros x Hx. unfold payload in Hx. apply Hin; lia.
  - intros x Hx. unfold m'. rewrite !ld8_st_out by lia. apply ld8_wrbytes_out. rewrite bytes_length. lia.
Qed.
(** What is known once the message is in its entry: [m] is the memory then, [w] the world before. *)
Record in_entry (w : world) (m : mem) (msg j : Z) (js : list Z) : Prop := InEntry {
  ie_slot : ld16 m (call_entry call_seq j + 4) = j;
  ie_type : ld16 m (call_entry call_seq j + 10) = 1;
  ie_flags : ld16 m (call_entry call_seq j + 6) = ld16 (mm w) (msg + 6);
  ie_payload : forall x, payload x -> ld8 m (call_entry call_seq j + x) = ld8 (mm w) (msg + x);
  ie_pool : call_pool m call_seq js;
  ie_frame : forall x, ~ (call_entry call_seq j <= x < call_entry call_seq j + 104) ->
    ~ (call_seq + 120 <= x < call_seq + 132) -> ld8 m x = ld8 (mm w) x;
}.

(** Session, wait object, the answer to the caller, and the dispatch. *)
Lemma call_tail_wp w m fb msg d j js o free es base q : call_ready w fb msg j js o free es base q ->
  0 <= j < 20 -> in_entry w m msg j js -> (forall x, 0 <= x < 76 -> ld8 (mm w) (fb + x) = d !!! Z.to_nat x) ->
  let e := call_entry call_seq j in let n := notify_only (ld16 (mm w) (msg + 6)) in
  wp (p ← prepare_call e 1 fb true;
      fault2 ← copy_back e msg (fst p) 1 0 false;
      if (fault2 : bool) then mret (- EFAULT, true) else
      ret ← dispatch_and_wait call_seq e j 1 (fst p) call_sem 1 0 (snd p);
      mret (ret, true))
     (fun r w' => snd r = true /\ exists w1 m1 m', call_outcome w msg j d js o free es base q (fst r) w' n w1 m1 m')
     (set_mm w m).
Proof.
  intros H Hj [I1 I2 I3 I4 I5 I6] Hd e n. pose proof H as [H1 H2 H3 H4 H5 H6 (H7a & H7b & H7c) H8 H9 H10 H11 H12 H13 H14].
  destruct call_layout as (Eq & Esem & Esk & Hr). destruct (call_entry_shm _ _ Hr Hj) as (He1 & He2 & _). fold e in He1, He2, I1, I2, I3, I4, I6.
  destruct H12 as (P1 & P2 & P3), H13 as (Q1 & Q2 & Q3). pose proof (next_session_range w) as Hs. shm_facts.
  eapply wp_call.
  { apply (prepare_call_wp e fb d o free es (set_mm w m)); rewrite ?mm_set_mm; try (done || lia).
    - intros x Hx. rewrite I6 by lia. by apply Hd.
    - apply (waiters_frame (mm w)); [done | intros x Hx; apply I6; lia]. }
  rewrite !mm_set_mm, I3. fold n. change (next_session (set_mm w m)) with (next_session w).
  change (cur_pid (set_mm w m)) with (cur_pid w). set (sid := next_session w) in *.
  intros r w' (-> & m2 & -> & Hh2 & Ew2 & Hw2 & Hs2 & Hp2 & Ho2). cbn [fst snd].
  change (set_mm (set_session (set_mm w m) sid) m2) with (set_mm (set_session w sid) m2). unfold copy_back.
  change (0 =? 0) with true. cbv iota. apply wp_assoc, wp_assoc. apply wp_wr_abs; [lia|]. intros m3 Ho3 E3.
  apply wp_wr_abs; [lia|]. intros m4 Ho4 E4. wsimp. rewrite !mm_set_mm in *.
  assert (Hmsg : forall x, ~ (msg <= x < msg + 104) -> ld8 m4 x = ld8 m2 x) by (intros x Hx; rewrite Ho4, Ho3 by lia; done).
  assert (Hrest : forall x, ~ (e <= x < e + 104) -> ~ (call_seq + 120 <= x < call_seq + 132) ->
    ~ (sock_of 1 + 88 <= x < sock_of 1 + 932) -> ~ (msg <= x < msg + 104) -> ld8 m4 x = ld8 (mm w) x)
    by (intros x X1 X2 X3 X4; rewrite Hmsg, Ho2, I6 by done; done).
  wp_step. eapply wp_call.
  { apply (dispatch_and_wait_wp j sid n o free es base q (set_mm (set_session w sid) m4)); rewrite ?mm_set_mm; fold e; try (done || lia).
    - rewrite (ld_same 1 (mm w) m4); [done | intros x Hx; apply Hrest; lia].
    - rewrite (ld_same 1 (mm w) m4); [done | intros x Hx; apply Hrest; lia].
    - rewrite (ld_same 1 (mm w) m4); [done | intros x Hx; apply Hrest; lia].
    - rewrite <- I2. apply ld_shift. intros x Hx. rewrite Hmsg by lia. rewrite <- Z.add_assoc. apply Hp2. lia.
    - apply (waiting_frame n m2); [done | intros x Hx; apply Hmsg; lia].
    - intros En. destruct (Hs2 En) as (F1 & _ & F2). unfold waiting in Hw2. rewrite En in Hw2.
      assert (Hobj : forall x, x ∈ o :: es -> ld32 m4 x = ld32 m2 x).
      { intros x Hx. destruct (waiting_obj _ _ _ _ _ x Hw2 ltac:(by (exact Hx || by right))) as (k & Hk & Ek).
        apply ld_same. intros y Hy. apply Hmsg. lia. }
      rewrite Hobj by (by left). split; [done|]. unfold none_with in *. rewrite Forall_forall in *. intros x Hx.
      rewrite Z.add_0_r, Hobj, F2 by (done || by right). specialize (H11 x Hx). rewrite Z.add_0_r in H11.
      destruct (waiting_obj _ _ _ _ _ x Hw2 ltac:(by (exact Hx || by right))) as (k & Hk & Ek).
      rewrite (ld_same 4 (mm w) m); [done|]. intros y Hy. apply I6; lia.
    - apply (fifo_at_frame H4); [intros x Hx; apply Hrest; lia|]. intros i x Hi Hx.
      pose proof (Z.mod_pos_bound (ld32 (mm w) (call_seq + 32) + Z.of_nat i) 21 ltac:(lia)). apply Hrest; lia. }
  intros r w' (w1 & m1 & m' & [C1 C2 C3 C4] & -> & -> & Hdn). rewrite mm_set_mm in C4. fold e in C2, C4. wp_step. split; [done|].
  exists w1, m1, m'. pose proof Hdn as (_ & _ & _ & D4).
  assert (E4' : forall x, 0 <= x < 104 -> ~ (10 <= x < 12) -> ld8 m1 (e + x) = ld8 m2 (e + x))
    by (intros x X1 X2; rewrite C4, Hmsg by lia; done).
  assert (Eslot : ld16 m1 (e + 4) = j).
  { rewrite <- I1. apply ld_shift. intros x Hx. rewrite <- Z.add_assoc, E4' by lia. apply Hp2. lia. }
  split; try done.
  - fold e. split; try done.
    + apply (call_header_out m2); [intros x Hx; apply E4'; lia | done].
    + rewrite <- Ew2. apply ld_shift. intros x Hx. rewrite <- Z.add_assoc. apply E4'; lia.
    + intros x Hx. unfold payload in *. rewrite E4', Hp2 by lia. by apply I4.
    + split.
      * rewrite (ld_same 4 m4 m1) by (intros x Hx; apply C4; lia). rewrite (ld_same_out _ _ _ _ _ _ Ho4) by lia.
        rewrite E3. apply Z.mod_small. change (256 ^ Z.of_nat 4) with (2 ^ 32). lia.
      * rewrite (ld_same 2 m4 m1) by (intros x Hx; apply C4; lia). by rewrite E4.
  - apply (call_pool_entry m _ _ _ j); [done | | | done]; fold e.
    + intros x X1 X2. rewrite D4, C4, Hmsg, Ho2 by lia. done.
    + rewrite <- Eslot. apply ld_same. intros x Hx. apply D4; lia.
Qed.
Lemma send_holding_wp w fb msg d j js o free es base q : call_ready w fb msg j js o free es base q ->
  (forall x, 0 <= x < 76 -> ld8 (mm w) (fb + x) = d !!! Z.to_nat x) ->
  let n := notify_only (ld16 (mm w) (msg + 6)) in
  wp (send_holding call_seq call_sem 1 fb msg 0 true false)
     (fun r w' => snd r = true /\ exists w1 m1 m', call_outcome w msg j d js o free es base q (fst r) w' n w1 m1 m') w.
Proof.
  intros H Hd n. pose proof H as [H1 H2 H3 H4 H5 H6 (H7a & H7b & H7c) _ _ _ _ _ H13 _].
  destruct call_layout as (Eq & Esem & Esk & Hr). destruct H13 as (Q1 & Q2 & _).
  assert (Hj : 0 <= j < 20) by (pose proof (cp_idx _ _ _ H6) as Hi; by apply Forall_cons in Hi as [? _]).
  destruct (call_entry_shm _ _ Hr Hj) as (He1 & He2 & _). shm_facts. unfold send_holding.
  eapply wp_eq; [apply IsCPUReset_run; lia|]. rewrite H2. cbn [Z.eqb negb].
  eapply wp_eq; [apply app_ready_run; [lia | done]|]. rewrite H3. change (1 =? 0) with false. cbv iota.
  eapply wp_call; [by eapply wait_cmd_room_wp|]. intros r w' [-> ->]. rewrite ltb_true by done. cbn [negb].
  eapply wp_call; [by apply get_call_slot_wp|]. intros r w' (-> & m1 & -> & Hp1 & _ & Ho1).
  set (e := call_entry call_seq j) in *. rewrite (eqb_neq_false e) by lia. wp_step.
  pose proof (cp_slot _ _ _ Hp1 j Hj) as Ej. fold e in Ej. rewrite Ej. unfold copy_message. wp_step. wp_step. wp_step. wp_step. wp_step.
  assert (Hdis : e + 104 <= msg \/ msg + 104 <= e) by lia.
  destruct (entry_copied m1 e msg j Hj Hdis) as (F1 & F2 & F3 & F4 & F5). set (m2 := st16 _ (e + 10) 1) in *.
  change (if 0 =? 0 then 1 else 2) with 1. cbv zeta. fold m2. pose proof (call_entry_at call_seq j) as Ea. fold e in Ea.
  rewrite (proj2 (Z.eqb_eq e (call_seq + 104 * j + 360))) by lia. cbn [negb]. wp_step.
  assert (Hm1 : forall x, x < ShMemAddrBase \/ ShMemAddrBase + ShMemSize <= x -> ld8 m1 x = ld8 (mm w) x)
    by (intros x Hx; apply Ho1; lia).
  replace (ld 1 m2 (call_seq + 2)) with 0.
  2: { rewrite <- H7c. apply ld_same. intros x Hx. rewrite F5, Ho1 by lia. done. }
  change (0 =? 0) with true. cbv iota. apply (call_tail_wp w m2 fb msg d j js o free es base q H Hj); [|done].
  split; fold e; try done.
  - rewrite F3. apply ld_same. intros x Hx. apply Hm1. lia.
  - intros x Hx. rewrite F4 by done. apply Hm1. unfold payload in Hx. lia.
  - apply (call_pool_entry m1 _ _ _ j); [done | | done | done]. intros x X1 X2. fold e in X2. apply F5. lia.
  - intros x X1 X2. rewrite F5, Ho1 by lia. done.
Qed.

(** *** The whole function *)

Lemma resolve_found_wp w ch T fb msg d : lookup_ok w ch T (ld32 (mm w) (msg + 40)) fb ->
  4096 <= msg -> T !! ld32 (mm w) (msg + 40) = Some d -> d !!! 2%nat = 1 ->
  wp (resolve_dst fb msg 0 false) (fun r w' => r = inr (1, true) /\ exists m', w' = set_mm w m' /\
    same_out fb 96 (mm w) m' /\ forall x, 0 <= x < 76 -> ld8 m' (fb + x) = d !!! Z.to_nat x) w.
Proof.
  intros HL Hm Hc Hd. unfold resolve_dst, msg_field.
  change (0 =? 0) with true. cbv iota. apply wp_assoc. wp_step. wp_step. unfold FindRoutine. apply wp_assoc.
  eapply wp_call; [by apply (FindRoutineEx_wp w ch T _ fb)|].
  intros [r p] w' (m' & -> & Hf). cbn [fst] in *. unfold find_result in Hf. rewrite Hc in Hf. destruct Hf as (-> & Ho & Hx).
  wp_step. change (negb (0 =? 0)) with false. cbv iota. pose proof (lo_buf _ _ _ _ _ HL). apply wp_rd; [lia|]. rewrite mm_set_mm, ld_1.
  assert (E2 : forall x, 0 <= x < 76 -> ld8 m' (fb + x) = d !!! Z.to_nat x).
  { intros x X. rewrite Hx by lia. unfold copied. by rewrite ltb_true by lia. }
  rewrite E2 by lia. change (Z.to_nat 2) with 2%nat. rewrite Hd. change (1 <? 1) with false. cbv iota. wp_step.
  split; [done|]. by exists m'.
Qed.
(** Giving the semaphore back changes nothing of the outcome. *)
Lemma call_done_up r n m1 m' m'' o free es base q : same_out call_sem 16 m' m'' ->
  call_done r n m1 m' o free es base q -> call_done r n m1 m'' o free es base q.
Proof.
  intros Ho (D1 & D2 & D3 & D4). destruct call_layout as (Eq & Esem & Esk & Hr). shm_facts.
  assert (Hw : forall f l, waiters m' (sock_of 1) f l -> waiters m'' (sock_of 1) f l)
    by (intros f l Hw; apply (waiters_frame m'); [done | intros x Hx; apply Ho; lia]).
  split; [destruct n, (r =? 0); by apply Hw|]. split; [|split].
  - apply (fifo_at_same_out D2 _ _ _ Ho); lia.
  - intros Hr0. rewrite (ld_same_out _ _ _ _ _ _ Ho) by lia. by apply D3.
  - intros x Hx1 Hx2 Hx3. rewrite Ho by lia. by apply D4.
Qed.

Lemma send_call_wp w ch T fb msg d j js o free es base q : call_ready w fb msg j js o free es base q ->
  lookup_ok w ch T (ld32 (mm w) (msg + 40)) fb -> T !! ld32 (mm w) (msg + 40) = Some d -> d !!! 2%nat = 1 ->
  let n := notify_only (ld16 (mm w) (msg + 6)) in let sid := next_session w in
  wp (SendComm2CPUEx fb msg 0 false) (fun r w' => exists w1 m1 m',
    r = fst (down_timeout (call_sem + 16) SEND_TIMEOUT_JIFFIES w1) /\ w' = set_mm w1 m' /\
    w1 = doorbell (set_session w sid) m1 0 /\
    call_image (mm w) m1 msg (call_entry call_seq j) j d sid (cur_pid w) (if n then 0 else o) /\
    posted m1 call_seq j 1 sid (call_sem + 16) /\
    call_done r n m1 m' o free es base q /\ call_pool m' call_seq js) w.
Proof.
  intros H HL Hc Hd2 n sid. pose proof (cr_msg _ _ _ _ _ _ _ _ _ _ H) as (Q1 & Q2 & Q3).
  pose proof (cr_fb _ _ _ _ _ _ _ _ _ _ H) as (P1 & P2 & P3). pose proof (cr_apart _ _ _ _ _ _ _ _ _ _ H) as Hap.
  destruct call_layout as (Eq & Esem & Esk & Hr). shm_facts. unfold SendComm2CPUEx.
  rewrite (eqb_neq_false msg 0) by lia. change (1 <? 0) with false. cbn [orb].
  eapply wp_call; [by apply (resolve_found_wp w ch T fb msg d)|]. intros r w' (-> & m1 & -> & Ho1 & Hfb). cbv iota.
  assert (Hsh1 : forall x, ShMemAddrBase <= x < ShMemAddrBase + ShMemSize -> ld8 m1 x = ld8 (mm w) x) by (intros x Hx; apply Ho1; lia).
  eapply wp_eq; [apply IsCPUReset_run; lia|]. rewrite mm_set_mm, (status_frame (mm w) m1) by (lia || done).
  rewrite (cr_up _ _ _ _ _ _ _ _ _ _ H). cbn [Z.eqb negb]. change (1 <? 1) with false. cbv iota zeta.
  fold call_seq. rewrite (eqb_neq_false call_seq) by lia. destruct (send_sem_at 1 0) as (Es & _); [lia | lia |].
  change (getSeq 1 + 8 = call_sem) in Es. rewrite Es. apply wp_down_timeout. intros m2 _ Ho2. rewrite mm_set_mm in Ho2. rewrite set_mm_set_mm.
  assert (Hall : forall x, ~ (fb <= x < fb + 96) -> ~ (call_sem <= x < call_sem + 16) -> ld8 m2 x = ld8 (mm w) x)
    by (intros x X1 X2; rewrite Ho2, Ho1 by lia; done).
  eapply wp_call.
  { apply (send_holding_wp (set_mm w m2) fb msg d j js o free es base q).
    - apply (call_ready_frame w m2); [done|]. intros x Hx. apply Hall; lia.
    - intros x Hx. rewrite mm_set_mm, Ho2 by lia. by apply Hfb. }
  assert (E6 : ld16 m2 (msg + 6) = ld16 (mm w) (msg + 6)) by (apply ld_same; intros x Hx; apply Hall; lia).
  rewrite mm_set_mm, E6. fold n. intros [r b] w' (Eb & w1 & m3 & m4 & [C1 C2 C3 C4 -> C6 C7]). cbn [fst snd] in *. subst b.
  unfold cpu_comm_sem_up. rewrite (eqb_neq_false call_sem) by lia. apply wp_up_abs; [lia|]. rewrite mm_set_mm.
  intros m5 Ho5 _. wp_step. exists w1, m3, m5. ands; [done | done | exact C1 | | done | | ].
  - destruct C2 as [I1 I2 I3 I4 I5 I6]. split; try done. intros x Hx. rewrite I5, mm_set_mm by done. apply Hall; unfold payload in Hx; lia.
  - by apply (call_done_up r n m3 m4).
  - apply (call_pool_frame m4); [intros x Hx; apply Ho5; lia | done].
Qed.
End Call.

(** ** A world in which a call can be made *)

(** The booted sockets and sequences, the MIPS side up, one routine (0x1401, for CPU 1) registered,
    its descriptor at 0xC3000000 and a message for it at 0xC3002000. *)
Definition send_mem (flags : Z) : mem :=
  let m := mm booted in
  let m := st32 (st32 m (ShMemAddrBase + SHMEM_OFF_MAGIC1) CPU_COMM_MAGIC) (ShMemAddrBase + SHMEM_OFF_MAGIC2) CPU_COMM_MAGIC in
  let m := st32 m (cpu_flag 1) 5 in
  st16 (st32 (put_desc m 0xC3000000 0x1401) 0xC3002028 0x1401) 0xC3002006 flags.

Definition table_world (flags : Z) : world := after init_routine_table (set_mm booted (send_mem flags)).

Definition send_world (flags : Z) : world :=
  set_mm booted (put_mem (mm (table_world flags)) (hash 0x1401) 0xC3000000 None).

Definition send_desc (flags : Z) : list Z := bytes 92 (mm (table_world flags)) 0xC3000000.

Lemma table_world_ok flags : exists m, table_world flags = set_mm booted m /\
  same_out (ShMemAddrBase + 30144) 117512 (send_mem flags) m /\ table m (fun _ => []) ∅.
Proof.
  unfold table_world, after. generalize (send_mem flags) as m0, booted as b. intros m0 b.
  destruct (wp_run _ _ _ (init_routine_table_wp (set_mm b m0))) as ([] & w' & -> & m' & -> & F & T).
  rewrite mm_set_mm in F. exists m'. split; [reflexivity | split; [exact F | exact T]].
Qed.

Lemma send_world_frame flags x : ~ (ShMemAddrBase + 30148 <= x < ShMemAddrBase + 147656) ->
  ~ (ShMemAddrBase + 30144 <= x < ShMemAddrBase + 147656) -> ld8 (mm (send_world flags)) x = ld8 (send_mem flags) x.
Proof.
  intros H1 H2. destruct (table_world_ok flags) as (m & E & F & _). unfold send_world. rewrite mm_set_mm, E, mm_set_mm.
  rewrite (put_mem_out m (hash 0x1401) 0xC3000000 None); [apply F; lia | apply bucket_slot, hash_bucket | done | lia].
Qed.

Lemma send_table flags : table (mm (send_world flags)) (grow (fun _ => []) (hash 0x1401) (hash 0x1401)) (<[0x1401:=send_desc flags]> ∅).
Proof.
  destruct (table_world_ok flags) as (m & E & F & HT). unfold send_world, send_desc. rewrite mm_set_mm, E, mm_set_mm.
  assert (Hld : forall n a v, 0xC3000000 <= a -> a + Z.of_nat n <= 0xC3000100 -> ld n (send_mem flags) a = v -> ld n m a = v).
  { intros n a v H1 H2 <-. apply (ld_same_out _ _ _ _ _ _ F). left. change ShMemAddrBase with 0xF1000000. lia. }
  refine (proj1 (put_mem_table m (fun _ => []) ∅ (hash 0x1401) 0xC3000000 0x1401 (bytes 92 m 0xC3000000) None
    HT _ (lookup_empty _) _ eq_refl eq_refl _)).
  - split.
    + split; [lia | left; change ShMemAddrBase with 0xF1000000; lia].
    + apply Hld; [unfold RT_COMP_ID_OFF; lia | unfold RT_COMP_ID_OFF; lia |]. unfold send_mem, put_desc, RT_COMP_ID_OFF. memsimp. reflexivity.
    + discriminate.
    + rewrite (Hld 2%nat _ 1); [lia | unfold RT_CPU_OFF; lia | unfold RT_CPU_OFF; lia |]. unfold send_mem, put_desc, RT_CPU_OFF. memsimp. reflexivity.
    + reflexivity.
  - rewrite map_size_empty. unfold RT_MAX_INDEX. lia.
  - intros b _ Hb. by apply not_elem_of_nil in Hb.
Qed.

Lemma send_mem_out flags x : ~ (0xC3000000 <= x < 0xC3003000) -> ~ (ShMemAddrBase + 144 <= x < ShMemAddrBase + 148) ->
  ~ (ShMemAddrBase + 30136 <= x < ShMemAddrBase + 30140) -> ~ (cpu_flag 1 <= x < cpu_flag 1 + 4) ->
  ld8 (send_mem flags) x = ld8 (mm booted) x.
Proof.
  unfold send_mem, put_desc, SHMEM_OFF_MAGIC1, SHMEM_OFF_MAGIC2. generalize (mm booted) as m, (cpu_flag 1) as f, ShMemAddrBase as b.
  intros b f m H1 H2 H3 H4. memsimp. done.
Qed.

(** Sockets and sequences are as they were booted. *)
Lemma send_world_booted flags x :
  ShMemAddrBase + 152 <= x < ShMemAddrBase + 19672 \/ s_CommSockt <= x < s_CommSockt + 9984 ->
  ld8 (mm (send_world flags)) x = ld8 (mm booted) x.
Proof.
  intros Hx. pose proof (cpu_flag_at 1) as Ef. assert (Eb : ShMemAddrBase = 0xF1000000) by done.
  assert (Es : s_CommSockt = 0xBF0A4000) by done. rewrite send_world_frame by lia. apply send_mem_out; lia.
Qed.

Lemma send_world_ld n flags a : ShMemAddrBase + 152 <= a /\ a + Z.of_nat n <= ShMemAddrBase + 19672 \/
  s_CommSockt <= a /\ a + Z.of_nat n <= s_CommSockt + 9984 -> ld n (mm (send_world flags)) a = ld n (mm booted) a.
Proof. intros Ha. apply ld_same. intros x Hx. apply send_world_booted. lia. Qed.

(** What it takes from the boot. *)
Lemma send_world_pools flags dir : 0 <= dir <= 1 -> let seq := getShareSeqW 1 dir in
  call_pool (mm (send_world flags)) seq (seqZ 0 20) /\
  fifo_at (mm (send_world flags)) (seq + 32) (mips_items 0 dir) (seq + 276) 21 [] /\
  ld 1 (mm (send_world flags)) seq = 1 /\ ld 1 (mm (send_world flags)) (seq + 1) = 0 /\
  ld 1 (mm (send_world flags)) (seq + 2) = dir.
Proof.
  intros Hd seq. destruct booted_init as [[_ _ Hm Hp] _]. destruct (Hp 1 0 dir ltac:(lia) ltac:(lia) Hd) as [H1 H2 H3 H4 H5 _ _ _].
  specialize (Hm 0 dir ltac:(lia) Hd). pose proof (getShareSeq_at 1 0 dir ltac:(lia) ltac:(lia) Hd) as Eq.
  pose proof (seq_range_at 1 0 dir ltac:(lia) ltac:(lia) Hd) as Hr. change (getShareSeq 1 0 dir) with seq in *. ands.
  - apply (call_pool_frame (mm booted)); [intros x Hx; apply send_world_booted; lia|]. split; [done | done | |].
    + apply Forall_forall. intros x Hx. apply elem_of_seqZ in Hx. lia.
    + intros j Hj. apply (H2 j Hj).
  - apply (fifo_at_frame Hm); [intros x Hx; apply send_world_booted; lia | intros i x Hi; simpl in Hi; lia].
  - rewrite ld_1, send_world_booted by lia. exact H3.
  - rewrite ld_1, send_world_booted by lia. exact H4.
  - rewrite ld_1, send_world_booted by lia. exact H5.
Qed.

Lemma send_world_waiters flags : waiters (mm (send_world flags)) (sock_of 1) (wait_objs (sock_of 1) 20) [].
Proof.
  destruct booted_init as [[Hs _ _ _] _]. specialize (Hs 1 ltac:(lia)). destruct call_layout as (_ & _ & Esk & _).
  apply (waiters_frame (mm booted)).
  - destruct (wait_state_start (mm booted) 1 ltac:(lia) Hs) as [W1 W2 _ _]. split; [apply (so_free _ _ _ Hs) | exact W1 | exact W2 | apply (so_wait_sem _ _ _ Hs) | by rewrite app_nil_r].
  - intros x Hx. apply send_world_booted. lia.
Qed.

Lemma send_world_words flags : magic_ok (mm (send_world flags)) /\ ld32 (mm (send_world flags)) (cpu_flag 1) = 5.
Proof.
  assert (Hl : forall a, 0xF1000000 <= a /\ a + 4 <= 0xF1000000 + 30144 -> ld32 (mm (send_world flags)) a = ld32 (send_mem flags) a).
  { intros a Ha. apply ld_same. intros x Hx. apply send_world_frame; change ShMemAddrBase with 0xF1000000; lia. }
  unfold magic_ok. change (ShMemAddrBase + SHMEM_OFF_MAGIC1) with 0xF1000090.
  change (ShMemAddrBase + SHMEM_OFF_MAGIC2) with 0xF10075B8. change (cpu_flag 1) with 0xF1004CE0.
  rewrite (Hl 0xF1000090), (Hl 0xF10075B8), (Hl 0xF1004CE0) by lia. clear Hl. unfold send_mem, put_desc.
  change (ShMemAddrBase + SHMEM_OFF_MAGIC1) with 0xF1000090.
  change (ShMemAddrBase + SHMEM_OFF_MAGIC2) with 0xF10075B8. change (cpu_flag 1) with 0xF1004CE0.
  generalize (mm booted) as m. intros m. ands; memsimp; reflexivity.
Qed.

Lemma send_world_message n flags a : 0xC3000000 <= a -> a + Z.of_nat n <= 0xC3003000 ->
  ld n (mm (send_world flags)) a = ld n (send_mem flags) a.
Proof.
  intros H1 H2. assert (Eb : ShMemAddrBase = 0xF1000000) by done. apply ld_same. intros x Hx. apply send_world_frame; lia.
Qed.

Lemma send_world_comp flags : ld32 (mm (send_world flags)) (0xC3002000 + 40) = 0x1401 /\
  ld16 (mm (send_world flags)) (0xC3002000 + 6) = u16 flags.
Proof.
  rewrite !send_world_message by lia. unfold send_mem. generalize (st32 (st32 (st32 (mm booted) (ShMemAddrBase + SHMEM_OFF_MAGIC1) CPU_COMM_MAGIC)
    (ShMemAddrBase + SHMEM_OFF_MAGIC2) CPU_COMM_MAGIC) (cpu_flag 1) 5) as m. intros m.
  split; memsimp; reflexivity.
Qed.

Lemma send_desc_dst flags : send_desc flags !!! 2%nat = 1.
Proof.
  destruct (table_world_ok flags) as (m & E & F & _). unfold send_desc. rewrite E, mm_set_mm. clear E.
  apply list_lookup_total_correct. rewrite bytes_lookup by lia. f_equal.
  change (0xC3000000 + Z.of_nat 2) with 0xC3000002.
  rewrite (F 0xC3000002 (or_introl eq_refl)). clear F m. unfold send_mem, put_desc.
  generalize (st32 (st32 (st32 (mm booted) (ShMemAddrBase + SHMEM_OFF_MAGIC1) CPU_COMM_MAGIC)
    (ShMemAddrBase + SHMEM_OFF_MAGIC2) CPU_COMM_MAGIC) (cpu_flag 1) 5) as m0. intros m0.
  rewrite ld8_st_out, ld8_st_out by lia. change (0xC3000000 + 2) with 0xC3000002.
  rewrite (st_S 1), ld8_st_out by lia. apply ld8_st8_eq.
Qed.

Lemma send_world_ready flags :
  call_ready (send_world flags) 0xC3001000 0xC3002000 0 (seqZ 1 19) (wait_obj (sock_of 1) 0)
    (map (wait_obj (sock_of 1)) (seqZ 1 19)) [] (mips_items 0 0) [] /\
  lookup_ok (send_world flags) (grow (fun _ => []) (hash 0x1401) (hash 0x1401)) (<[0x1401:=send_desc flags]> ∅) 0x1401 0xC3001000.
Proof.
  destruct (send_world_pools flags 0 ltac:(lia)) as (P1 & P2 & P3 & P4 & P5).
  change (getShareSeqW 1 0) with call_seq in P1, P2, P3, P4, P5. destruct (send_world_words flags) as (W1 & W2).
  assert (Eb : ShMemAddrBase = 0xF1000000) by done. assert (Es : s_CommSockt = 0xBF0A4000) by done.
  assert (Ez : ShMemSize = 0x500000) by done.
  split; [split | split].
  - exact W1.
  - unfold cpu_status. rewrite W2. reflexivity.
  - unfold app_ready, cpu_status. rewrite W2. reflexivity.
  - exact P2.
  - simpl. lia.
  - exact P1.
  - rewrite P3, P4, P5. split; [discriminate | split; reflexivity].
  - unfold send_world. rewrite booted_world, set_mm_set_mm. discriminate.
  - unfold send_world. rewrite booted_world, set_mm_set_mm. change (0 <= 1234 < 2 ^ 32). lia.
  - pose proof (send_world_waiters flags) as Hw. unfold wait_objs in Hw.
    change (seqZ 0 20) with (0 :: seqZ 1 19) in Hw. exact Hw.
  - apply Forall_nil_2.
  - unfold private, COMM_SOCKET_SIZE. lia.
  - unfold private, COMM_SOCKET_SIZE. lia.
  - lia.
  - apply send_table.
  - exact W1.
  - rewrite map_size_insert_None by apply lookup_empty. rewrite map_size_empty. unfold RT_MAX_INDEX. lia.
  - discriminate.
  - lia.
Qed.

(** HZ is 250 in the board's kernel configuration. *)
#[export] Instance hz250 : Jiffies := fun ms => (ms + 3) / 4.

(** ** Properties *)

(** C11: A call that is sent is complete before anybody is told. For a call that can be sent (the
    routine is registered at MIPS; both CPUs are up, the command FIFO has room, a call entry and a
    wait object are free: [call_ready], [lookup_ok]) under a kernel whose scheduling and timed waits
    touch nothing but the semaphore ([Quiet], [Timed]): exactly one register is written during the
    whole call, the doorbell of MIPS, with the type CALL; and in the memory of that very moment the
    entry holds the descriptor's routing, a fresh 30-bit session number, the caller's pid, its own
    slot number, the flags word 1|SENT, the wait object (none for a notification) and the caller's
    payload byte for byte, the sequence header names that slot, the session and the semaphore to
    raise, and the caller's buffer was told the session and the destination. The status returned is
    that of the wait that follows. *)
Theorem send_call_message {S : Shm} {OK : ShmOk S} {K : Kernel} {L : SemLaws K} {HQ : Quiet K} {HT : Timed K}
    {J : Jiffies} {A : Kmalloc} {U : Uaccess} w ch T fb msg d j js o free es base q :
  call_ready w fb msg j js o free es base q ->
  lookup_ok w ch T (ld32 (mm w) (msg + 40)) fb -> T !! ld32 (mm w) (msg + 40) = Some d -> d !!! 2%nat = 1 ->
  let n := notify_only (ld16 (mm w) (msg + 6)) in let sid := next_session w in
  0 <= sid < 2 ^ 30 /\ exists at_bell w1 m',
    mmio w1 = mmio w ++ [(msgbox_ctrl_base (mbox w) + H713_MSGBOX_TX_DATA, MSG_TYPE_CALL, at_bell)] /\
    call_image (mm w) at_bell msg (call_entry call_seq j) j d sid (cur_pid w) (if n then 0 else o) /\
    posted at_bell call_seq j 1 sid (call_sem + 16) /\
    mm w1 = at_bell /\ s_CallSessionId w1 = sid /\
    SendComm2CPUEx fb msg 0 false w = Ret (fst (down_timeout (call_sem + 16) SEND_TIMEOUT_JIFFIES w1)) (set_mm w1 m').
Proof.
  intros H HL Hc Hd n sid. split; [apply next_session_range|].
  destruct (wp_run _ _ _ (send_call_wp w ch T fb msg d j js o free es base q H HL Hc Hd))
    as (r & w' & E & w1 & m1 & m' & -> & -> & H1 & H2 & H3 & _).
  subst w1. exists m1, (doorbell (set_session w sid) m1 0), m'. by ands.
Qed.

Lemma send_call_message_witness : exists at_bell w1 m',
  mmio w1 = mmio (send_world 0) ++
    [(msgbox_ctrl_base (mbox (send_world 0)) + H713_MSGBOX_TX_DATA, MSG_TYPE_CALL, at_bell)] /\
  ld32 at_bell (call_entry call_seq 0 + 12) = next_session (send_world 0) /\
  SendComm2CPUEx 0xC3001000 0xC3002000 0 false (send_world 0) =
    Ret (fst (down_timeout (call_sem + 16) SEND_TIMEOUT_JIFFIES w1)) (set_mm w1 m').
Proof.
  destruct (send_world_ready 0) as [H1 H2]. destruct (send_world_comp 0) as [Hc _].
  destruct (send_call_message (send_world 0) (grow (fun _ => []) (hash 0x1401) (hash 0x1401)) (<[0x1401:=send_desc 0]> ∅)
    0xC3001000 0xC3002000 (send_desc 0) 0 (seqZ 1 19) (wait_obj (sock_of 1) 0)
    (map (wait_obj (sock_of 1)) (seqZ 1 19)) [] (mips_items 0 0) []) as (_ & m1 & w1 & m' & Eb & [Hh _ _ _ _ _] & _ & _ & _ & E).
  - exact H1.
  - rewrite Hc. exact H2.
  - rewrite Hc. apply lookup_insert_eq.
  - apply send_desc_dst.
  - exists m1, w1, m'. split; [exact Eb | split; [exact (ch_session _ _ _ _ _ Hh) | exact E]].
Defined.

(** C12: The sender accounts for its wait objects and for the command FIFO, whatever the timed wait
    returned: for a call that can be sent ([call_ready], [lookup_ok]) under a kernel whose scheduling
    and timed waits touch nothing but the semaphore ([Quiet], [Timed]), every one of the twenty wait
    objects is again either free or in the list of waiting callers - after a success the caller's
    object waits for its return, after a timeout it is back in the pool and the list is as before, a
    notification takes none - and the command FIFO gave up its oldest item exactly on success; a
    timeout clears the sent flag, so that the next call may be posted. The call entry is not given
    back by the sender in either case: it stays out until the receiver returns it, also after a
    timeout; the other free entries are untouched. *)
Theorem send_call_resources {S : Shm} {OK : ShmOk S} {K : Kernel} {L : SemLaws K} {HQ : Quiet K} {HT : Timed K}
    {J : Jiffies} {A : Kmalloc} {U : Uaccess} w ch T fb msg d j js o free es base q :
  call_ready w fb msg j js o free es base q ->
  lookup_ok w ch T (ld32 (mm w) (msg + 40)) fb -> T !! ld32 (mm w) (msg + 40) = Some d -> d !!! 2%nat = 1 ->
  exists r w', SendComm2CPUEx fb msg 0 false w = Ret r w' /\ call_pool (mm w') call_seq js /\
    (if notify_only (ld16 (mm w) (msg + 6)) then waiters (mm w') (sock_of 1) (o :: free) es
     else if r =? 0 then waiters (mm w') (sock_of 1) free (es ++ [o])
     else waiters (mm w') (sock_of 1) (free ++ [o]) es) /\
    fifo_at (mm w') (call_seq + 32) base (call_seq + 276) 21 (if r =? 0 then tl q else q) /\
    (r <> 0 -> ld 1 (mm w') (call_seq + 8) &. MSG_FLAG_SENT = 0).
Proof.
  intros H HL Hc Hd.
  destruct (wp_run _ _ _ (send_call_wp w ch T fb msg d j js o free es base q H HL Hc Hd))
    as (r & w' & E & w1 & m1 & m' & _ & -> & _ & _ & _ & (D1 & D2 & D3 & _) & D5).
  exists r, (set_mm w1 m'). rewrite mm_set_mm. done.
Qed.

Lemma send_call_resources_witness : exists r w',
  SendComm2CPUEx 0xC3001000 0xC3002000 0 false (send_world 1) = Ret r w' /\
  waiters (mm w') (sock_of 1) (wait_objs (sock_of 1) 20) [].
Proof.
  destruct (send_world_ready 1) as [H1 H2]. destruct (send_world_comp 1) as [Hc Hf].
  destruct (send_call_resources (send_world 1) (grow (fun _ => []) (hash 0x1401) (hash 0x1401)) (<[0x1401:=send_desc 1]> ∅)
    0xC3001000 0xC3002000 (send_desc 1) 0 (seqZ 1 19) (wait_obj (sock_of 1) 0)
    (map (wait_obj (sock_of 1)) (seqZ 1 19)) [] (mips_items 0 0) []) as (r & w' & E & _ & Hw & _).
  - exact H1.
  - rewrite Hc. exact H2.
  - rewrite Hc. apply lookup_insert_eq.
  - apply send_desc_dst.
  - rewrite Hf in Hw. exists r, w'. split; [exact E | exact Hw].
Defined.

(** A send that is turned down leaves nothing behind: when the application on the other CPU is not
    ready the status is -1, when the command FIFO has 19 items or no call entry is free it is -EBUSY
    after a bounded number of attempts, and the memory is as the lookup of the routine left it except
    for the send semaphore.  That is always raised at the end, even if the wait for it timed out: its
    count then ends one above what it was, and two callers can be inside at once. *)
Theorem send_refused {S : Shm} {OK : ShmOk S} {K : Kernel} {L : SemLaws K} {HQ : Quiet K} {HT : Timed K}
    {J : Jiffies} {A : Kmalloc} {U : Uaccess} fb msg t w m0 dst found base vb q js err :
  msg <> 0 -> 0 <= t <= 1 -> 0 <= dst <= 1 ->
  resolve_dst fb msg t false w = Ret (inr (dst, found)) (set_mm w m0) ->
  let seq := getShareSeqW dst t in let sem := send_sem dst t in
  magic_ok m0 -> st_notice (cpu_status m0 dst) = false ->
  fifo_at m0 (seq + 32) base vb 21 q -> vb + 84 <= sem \/ sem + 16 <= vb -> call_pool m0 seq js ->
  refusal (app_ready (set_mm w m0) dst) q js = Some err ->
  exists m1 m', snd (down_timeout sem (msecs_to_jiffies 100) (set_mm w m0)) = set_mm w m1 /\
    SendComm2CPUEx fb msg t false w = Ret err (set_mm w m') /\ same_out sem 16 m0 m' /\
    sem_count m' sem = u32 (sem_count m1 sem + 1).
Proof.
  intros Hmsg Ht Hd Hres seq sem Hm Hn Hf Hv Hp Hr.
  destruct (wp_run _ _ _ (send_refused_wp fb msg t w m0 dst found base vb q js err Hmsg Ht Hd Hres Hm Hn Hf Hv Hp Hr))
    as (r & w' & E & m1 & m' & E1 & -> & -> & H1 & H2).
  by exists m1, m'.
Qed.

(** The pieces of the run that do not depend on the memory. *)
Lemma resolve_plain {S : Shm} {U : Uaccess} fb msg v w m : 4096 <= msg + 2 -> ld16 m (msg + 2) = v ->
  resolve_dst fb msg 1 false (set_mm w m) = Ret (inr (v, false)) (set_mm (set_mm w m) m).
Proof.
  intros Hm <-. unfold resolve_dst, msg_field, mbind, M_bind, rd. change (1 =? 0) with false. cbv iota.
  by rewrite ltb_false by done.
Qed.

Lemma simple_times_out a t w m m1 : sem_count m a = 0 ->
  snd (down_timeout a t (set_mm w m)) = set_mm w m1 -> m1 = m.
Proof.
  intros E. simpl. unfold simple_down_timeout, simple_down. rewrite mm_set_mm, E. change (0 <? 0) with false. simpl.
  intros H. apply (f_equal mm) in H. by rewrite !mm_set_mm in H.
Qed.

(** The return of a handler whose MIPS side is up but whose application is not; another caller is
    inside, so the wait for the semaphore times out. *)
Definition refused_mem : mem :=
  st16 (st32 (st32 (mm (send_world 0)) 0xF1004CE0 1) (send_sem 1 1 + 4) 0) 0xC3002002 1.
Definition refused_world : world := set_mm blank_world refused_mem.

Lemma refused_mem_out x : ~ (0xF1004CE0 <= x < 0xF1004CE4) -> ~ (0xBF0A5790 <= x < 0xBF0A5794) ->
  ~ (0xC3002002 <= x < 0xC3002004) -> ld8 refused_mem x = ld8 (mm (send_world 0)) x.
Proof.
  unfold refused_mem. change (send_sem 1 1 + 4) with 0xBF0A5790. generalize (mm (send_world 0)). intros m H1 H2 H3.
  memsimp. done.
Qed.

Lemma refused_mem_words : ld32 refused_mem 0xF1004CE0 = 1 /\ ld32 refused_mem 0xBF0A5790 = 0 /\ ld16 refused_mem 0xC3002002 = 1.
Proof.
  unfold refused_mem. change (send_sem 1 1 + 4) with 0xBF0A5790. generalize (mm (send_world 0)). intros m.
  ands; memsimp; reflexivity.
Qed.

Lemma send_refused_witness : exists m',
  SendComm2CPUEx 0xC3001000 0xC3002000 1 false refused_world = Ret (-1) (set_mm refused_world m') /\
  sem_count refused_mem (send_sem 1 1) = 0 /\ sem_count m' (send_sem 1 1) = 1.
Proof.
  destruct refused_mem_words as (W1 & W2 & W3). destruct (send_world_pools 0 1 ltac:(lia)) as (P1 & P2 & _).
  destruct (send_world_words 0) as [M _]. assert (Eb : ShMemAddrBase = 0xF1000000) by reflexivity.
  assert (Ez : ShMemSize = 0x500000) by reflexivity. assert (Eq : getShareSeqW 1 1 = 0xF1003040) by reflexivity.
  assert (Es : sem_count refused_mem (send_sem 1 1) = 0) by exact W2.
  destruct (send_refused 0xC3001000 0xC3002000 1 refused_world refused_mem 1 false (mips_items 0 1) (getShareSeqW 1 1 + 276) []
    (seqZ 0 20) (-1)) as (m1 & m' & E1 & E & _ & Hc).
  - discriminate.
  - lia.
  - lia.
  - exact (resolve_plain 0xC3001000 0xC3002000 1 blank_world refused_mem ltac:(lia) W3).
  - destruct M as [M1 M2]. split.
    + rewrite <- M1. apply ld_same. intros x Hx. unfold SHMEM_OFF_MAGIC1 in Hx. apply refused_mem_out; lia.
    + rewrite <- M2. apply ld_same. intros x Hx. unfold SHMEM_OFF_MAGIC2 in Hx. apply refused_mem_out; lia.
  - unfold cpu_status. change (cpu_flag 1) with 0xF1004CE0. rewrite W1. reflexivity.
  - apply (fifo_at_frame P2); [intros x Hx; apply refused_mem_out; lia | intros i x Hi; simpl in Hi; lia].
  - right. rewrite Eq. vm_compute. discriminate.
  - apply (call_pool_frame (mm (send_world 0))); [intros x Hx; apply refused_mem_out; lia | exact P1].
  - unfold app_ready, cpu_status, refused_world. rewrite mm_set_mm. change (cpu_flag 1) with 0xF1004CE0. rewrite W1. reflexivity.
  - exists m'. split; [exact E|]. split; [exact Es|]. rewrite Hc.
    rewrite (simple_times_out _ _ refused_world refused_mem m1 Es E1), Es. reflexivity.
Defined.
