(* ===== verification/Rpc.v ===== *)
(** Remote procedure calls ([cpu_comm_rpc.c]): the synchronous call, the
    notification, and the work item that runs a handler for a call from MIPS.

    Buffers on the stack of a function whose address is passed on are arguments:
    [find_buf] (the 96-byte lookup buffer), [local_msg] (104 bytes), and
    [params] and [result] (eleven words each) of the handler call.  The handler
    itself, a function pointer of the routine's entry, is a parameter. *)
From S2P Require Import Prelude Mem Kernel Fifo Shm SpinLock Flags SeqMem DList Channel Waiting Pools Boot Returns Routine Msgbox UserQueue Proto Acks Send Call.

(** ** Formatting a component name *)

Definition hex_digit (d : Z) : Z := if d <? 10 then 48 + d else 87 + d.

Fixpoint hex_digits (fuel : nat) (v : Z) : list Z :=
  match fuel with
  | O => []
  | S k => if v =? 0 then [] else hex_digits k (v / 16) ++ [hex_digit (v mod 16)]
  end.

(** [%.<prec>lx] of a 32-bit value *)
Definition fmt_hex (prec : nat) (v : Z) : list Z :=
  let ds := hex_digits 8 v in
  repeat 48 (prec - length ds) ++ ds.

(** A C string, up to [n] bytes of it. *)
Fixpoint cstr (n : nat) (m : mem) (a : Z) : list Z :=
  match n with
  | O => []
  | S k => if ld8 m a =? 0 then [] else ld8 m a :: cstr k m (a + 1)
  end.

(** [snprintf(comp_name, 64, "%s_%1lx_%3.3lx", name, hint, sub & 0xFFF)] *)
Definition comp_name (m : mem) (name hint sub : Z) : list Z :=
  take 63 (cstr 64 m name ++ [95] ++ fmt_hex 1 hint ++ [95] ++ fmt_hex 3 (sub &. 0xFFF)).

Section Rpc.
Context {S : Shm} {K : Kernel} {J : Jiffies} {A : Kmalloc} {U : Uaccess}.

(** ** Calling *)

(** The parameters go to the payload, from +44 on. *)
Definition put_params (local_msg params param_count : Z) : M unit :=
  for_ (Z.to_nat param_count) 0 (fun i =>
    v ← rd32 (params + 4 * (i + 1));
    wr32 (local_msg + 44 + 4 * i) v).

(** The message of a synchronous call. *)
Definition build_call (local_msg comp_id params param_count : Z) : M unit :=
  memset local_msg 0 (Z.to_nat COMM_MSG_SIZE) ;;
  wr32 (local_msg + 40) comp_id ;;
  tgid ← gets cur_tgid;
  wr32 (local_msg + 52) tgid ;;
  wr16 (local_msg + 8) param_count ;;
  wr16 (local_msg + 2) 1 ;;
  put_params local_msg params param_count ;;
  fl ← rd16 (local_msg + 6);
  wr16 (local_msg + 6) (bic fl MSG_FLAG_NOTIFY).

(** The values of a return go to the caller, *)
Definition put_result (return_entry result : Z) : M unit :=
  count ← rd16 (return_entry + 8);
  if negb (count =? 15) && (count <=? 10) then
    wr32 result count ;;
    for_ (Z.to_nat count) 0 (fun i =>
      v ← rd32 (return_entry + 44 + 4 * i);
      wr32 (result + 4 * (i + 1)) v)
  else mret tt.

(** and its entry back to the pool. *)
Definition take_result (return_entry result : Z) : M unit :=
  (if pcpu_comm_dev =? 0 then mret tt else dev_count 1632) ;;
  fl ← rd16 (return_entry + 10);
  wr16 (return_entry + 10) (fl |. 0x80) ;;
  put_result return_entry result ;;
  src ← rd16 (return_entry + 2);
  Comm_ReleaseFreeCall (getShareSeqR src 1) return_entry.

(** Until the return was signalled, or half a second. *)
Definition wait_signal (dst_cpu session_ptr : Z) : M unit :=
  f ← FindWaitBySessionId (getSeq dst_cpu + 40) session_ptr;
  if (fst f =? 0) && negb (snd f =? 0) then
    k_down_timeout (snd f + 8) (msecs_to_jiffies 500) ;; mret tt
  else mret tt.

Definition release_waiter (dst_cpu session_ptr : Z) : M unit :=
  g ← GetWaitbySessionId (getSeq dst_cpu + 40) session_ptr;
  match g with
  | (0, Some e) => ReleaseWaitComm dst_cpu e
  | _ => mret tt
  end.

(** After the send: wait for the return, fetch it, give the wait object back. *)
Definition await_return (local_msg result : Z) : M Z :=
  session_ptr ← rd32 (local_msg + 12);
  dst_cpu ← rd16 (local_msg + 2);
  wait_signal dst_cpu session_ptr ;;
  r ← GetReturnbySessionId session_ptr dst_cpu;
  if negb (fst r =? 0) then mret (- EFAULT) else
  let return_entry := default 0 (snd r) in
  (if negb (return_entry =? 0) then take_result return_entry result
   else IsCPUReset dst_cpu ;; mret tt) ;;
  release_waiter dst_cpu session_ptr ;;
  mret (fst r).

Definition CPUComm_CallEx (find_buf local_msg comp_id params result : Z) : M Z :=
  if params =? 0 then mret (- EINVAL) else
  if result =? 0 then mret (- EINTR) else
  n ← rd32 params;
  let param_count := s32 n in
  if 10 <? param_count then mret (- EINVAL) else
  build_call local_msg comp_id params param_count ;;
  ret ← SendComm2CPUEx find_buf local_msg 0 false;
  if negb (ret =? 0) then mret ret else
  await_return local_msg result.

Definition CPUComm_Call (find_buf local_msg msg_buf params result : Z) : M Z :=
  if msg_buf =? 0 then mret (- EINVAL) else
  comp_id ← rd32 (msg_buf + 40);
  CPUComm_CallEx find_buf local_msg comp_id params result.

Definition CPUComm_Call_Ex (find_buf local_msg msg_buf params result : Z) : M Z :=
  CPUComm_Call find_buf local_msg msg_buf params result.

Definition CPUComm_Notify (find_buf local_msg name params : Z) : M Z :=
  if params =? 0 then mret (- EINVAL) else
  n ← rd32 params;
  let param_count := s32 n in
  if 10 <? param_count then mret (- EINVAL) else
  hint ← rd32 (params + 44);
  sub ← rd32 (params + 48);
  s ← gets (fun w => comp_name (mm w) name hint sub);
  comp_id ← Comm_Name2ID s;
  memset local_msg 0 (Z.to_nat COMM_MSG_SIZE) ;;
  wr32 (local_msg + 40) comp_id ;;
  tgid ← gets cur_tgid;
  wr32 (local_msg + 32) tgid ;;
  wr16 (local_msg + 8) param_count ;;
  wr16 (local_msg + 6) 0 ;;
  put_params local_msg params param_count ;;
  fl ← rd16 (local_msg + 6);
  wr16 (local_msg + 6) (fl |. MSG_FLAG_NOTIFY) ;;
  SendComm2CPUEx find_buf local_msg 0 false.

Definition CPUComm_Notify_Ex (find_buf local_msg name params : Z) : M Z :=
  CPUComm_Notify find_buf local_msg name params.

(** ** Running a handler *)

Context (handler : Z -> Z -> Z -> M unit).   (* the function at an address: params, result *)

(** [!(flags & NOTIFY) || (flags & RETURN_ACK)] on the low flags byte *)
Definition wants_response (flags : Z) : bool :=
  ((flags &. 1) =? 0) || negb ((flags &. 2) =? 0).

Definition respond (find_buf local_msg : Z) : M unit :=
  SendComm2CPUEx find_buf local_msg 1 false ;; mret tt.

(** What the handler gets: [params], eleven words, and an empty [result]. *)
Definition handler_args (local_msg params result : Z) : M unit :=
  memcpy params (local_msg + 44) 40 ;;
  slot ← rd16 (local_msg + 4);
  wr32 params slot ;;
  memset result 0 44 ;;
  wr32 result 15.

(** Its values go to the response. *)
Definition put_response (local_msg result : Z) : M unit :=
  count ← rd32 result;
  wr16 (local_msg + 4) count ;;
  if negb (count =? 15) then
    for_ (Z.to_nat (Z.min (s32 count) 10)) 0 (fun i =>
      v ← rd32 (result + 4 * (i + 1));
      wr32 (local_msg + 44 + 4 * i) v)
  else mret tt.

Definition run_handler (callback find_buf local_msg params result : Z) : M unit :=
  handler_args local_msg params result ;;
  handler callback params result ;;
  fl ← rd8 (local_msg + 6);
  if negb (wants_response fl) then mret tt else
  put_response local_msg result ;;
  respond find_buf local_msg.

(** The work item of call entry [call_entry]; the routine is looked up into
    [routine_info]. *)
Definition comm_CallWorkAction (routine_info find_buf local_msg params result call_entry : Z) : M unit :=
  if call_entry =? 0 then mret tt else
  cmd ← rd16 call_entry;
  if cmd <=? 4 then mret tt else
  src ← rd16 (call_entry + 2);
  if 1 <? src then mret tt else
  memcpy local_msg call_entry (Z.to_nat COMM_MSG_SIZE) ;;
  Comm_ReleaseFreeCall (getShareSeqR src 0) call_entry ;;
  comp ← rd32 (local_msg + 40);
  r ← FindRoutine comp routine_info;
  if negb (r =? 0) then mret tt else
  dst_cpu ← rd16 (routine_info + 2);
  if negb (dst_cpu =? getCurCPUID) then mret tt else
  cpu_comm_userspace_deliver local_msg ;;
  callback ← rd32 (routine_info + 88);
  if negb (callback =? 0) then run_handler callback find_buf local_msg params result
  else
    fl ← rd8 (local_msg + 6);
    if wants_response fl then respond find_buf local_msg else mret tt.

(** The oldest scheduled work item. *)
Definition run_call_work (routine_info find_buf local_msg params result : Z) : M unit :=
  l ← gets call_works;
  match l with
  | [] => mret tt
  | e :: l' =>
      modify (fun w => set_call_works w l') ;;
      comm_CallWorkAction routine_info find_buf local_msg params result e
  end.
End Rpc.

Example fmt_hex_runs : fmt_hex 1 0 = [48] /\ fmt_hex 3 0x1a = [48; 49; 97] /\ fmt_hex 1 0xC0DE = [99; 48; 100; 101].
Proof. vm_compute. done. Qed.

(** ** Copying words *)

Lemma copy_words_wp s d f g n w : (forall i, f i = s + 4 * i) -> (forall i, g i = d + 4 * i) ->
  4096 <= s -> 4096 <= d -> d + 4 * Z.of_nat n <= s \/ s + 4 * Z.of_nat n <= d ->
  wp (for_ n 0 (fun i => v ← rd32 (f i); wr32 (g i) v)) (fun _ w' => exists m', w' = set_mm w m' /\
    same_out d (4 * Z.of_nat n) (mm w) m' /\
    forall i, 0 <= i < Z.of_nat n -> ld32 m' (d + 4 * i) = ld32 (mm w) (s + 4 * i)) w.
Proof.
  intros Hf Hg Hs Hd Ha.
  apply (wp_for _ _ _ (fun i w' => exists m', w' = set_mm w m' /\ same_out d (4 * Z.of_nat n) (mm w) m' /\
    forall j, 0 <= j < i -> ld32 m' (d + 4 * j) = ld32 (mm w) (s + 4 * j))).
  - exists (mm w). rewrite set_mm_id. ands; [done | done | lia].
  - intros i w1 Hi (m & -> & Ho & Hc). wp_step; [rewrite Hf; lia|]. wp_step; [rewrite Hg; lia|]. rewrite Hf, Hg.
    eexists. split; [reflexivity|]. split.
    + intros x Hx. rewrite ld8_st_out by lia. by apply Ho.
    + intros j Hj. destruct (decide (j = i)) as [->|].
      * rewrite ld32_st32_eq, (ld_same_out _ _ _ _ _ _ Ho) by lia. apply u32_small, ld32_range.
      * rewrite ld_st_ne by lia. apply Hc. lia.
  - intros w1 (m & -> & Ho & Hc). exists m. ands; [done | done |]. intros i Hi. apply Hc. lia.
Qed.

(** ** Building the call *)

Section Build.
Context {S : Shm} {K : Kernel}.

Lemma build_call_wp msg comp params n w :
  4096 <= params -> 4096 <= msg -> msg + 104 <= params \/ params + 44 <= msg ->
  0 <= comp < 2 ^ 32 -> 0 <= cur_tgid w < 2 ^ 32 -> 0 <= n <= 10 ->
  wp (build_call msg comp params n) (fun _ w' => exists m', w' = set_mm w m' /\ same_out msg 104 (mm w) m' /\
    ld32 m' (msg + 40) = comp /\ ld16 m' (msg + 8) = n /\ ld16 m' (msg + 2) = 1 /\ ld16 m' (msg + 6) = 0 /\
    (forall i, 0 <= i < n -> ld32 m' (msg + 44 + 4 * i) = ld32 (mm w) (params + 4 * (i + 1))) /\
    (n <= 2 -> ld32 m' (msg + 52) = cur_tgid w) /\
    forall i, Z.max n 3 <= i < 15 -> ld32 m' (msg + 44 + 4 * i) = 0) w.
Proof.
  intros Hp Hm Ha Hc Ht Hn. unfold build_call, COMM_MSG_SIZE. apply wp_memset_abs; [lia|]. intros m0 Ho0 Hz.
  change (Z.of_nat (Z.to_nat 104)) with 104 in *.
  do 5 wp_step. set (m1 := st16 (st16 (st32 (st32 m0 _ _) _ _) _ _) _ _).
  assert (Ho1 : same_out msg 104 (mm w) m1).
  { intros x Hx. unfold m1. rewrite !ld8_st_out by lia. by apply Ho0. }
  assert (F : ld32 m1 (msg + 40) = comp /\ ld16 m1 (msg + 8) = n /\ ld16 m1 (msg + 2) = 1 /\ ld16 m1 (msg + 6) = 0 /\
    ld32 m1 (msg + 52) = cur_tgid w).
  { unfold m1. ands; memsimp; try (apply u32_small || apply u16_small); try lia; try done. apply Hz; lia. }
  assert (Z1 : forall i, 3 <= i < 15 -> ld32 m1 (msg + 44 + 4 * i) = 0).
  { intros i Hi. unfold m1. rewrite !ld_st_ne by lia. apply Hz; lia. }
  clearbody m1. destruct F as (F1 & F2 & F3 & F4 & F5).
  eapply wp_call.
  { unfold put_params. apply (copy_words_wp (params + 4) (msg + 44)); [intros; lia | intros; lia | lia | lia | lia]. }
  rewrite Z2Nat.id by lia. intros [] w' (m2 & -> & Ho2 & Hcp). rewrite !mm_set_mm in *.
  wp_step. rewrite (ld_same_out _ _ _ _ _ _ Ho2), F4 by lia. wp_step. change (bic 0 MSG_FLAG_NOTIFY) with 0.
  eexists. split; [reflexivity|]. ands.
  - intros x Hx. rewrite ld8_st_out, Ho2 by lia. by apply Ho1.
  - rewrite ld_st_ne, (ld_same_out _ _ _ _ _ _ Ho2) by lia. done.
  - rewrite ld_st_ne, (ld_same_out _ _ _ _ _ _ Ho2) by lia. done.
  - rewrite ld_st_ne, (ld_same_out _ _ _ _ _ _ Ho2) by lia. done.
  - by rewrite ld16_st16_eq.
  - intros i Hi. rewrite ld_st_ne by lia. rewrite Hcp by lia. replace (params + 4 * (i + 1)) with (params + 4 + 4 * i) by lia.
    apply (ld_same_out _ _ _ _ _ _ Ho1). lia.
  - intros Hn2. rewrite ld_st_ne, (ld_same_out _ _ _ _ _ _ Ho2) by lia. done.
  - intros i Hi. rewrite ld_st_ne, (ld_same_out _ _ _ _ _ _ Ho2) by lia. apply Z1. lia.
Qed.
End Build.

(** ** The handler and its response *)

Section Handler.
Context {S : Shm} {K : Kernel} {J : Jiffies} {A : Kmalloc} {U : Uaccess}.

(** The buffers of [comm_CallWorkAction]: apart, and not at the start of memory. *)
Definition handler_buffers (msg params result : Z) : Prop :=
  (4096 <= msg /\ 4096 <= params /\ 4096 <= result) /\ (msg + 104 <= params \/ params + 44 <= msg) /\
  (msg + 104 <= result \/ result + 44 <= msg) /\ (params + 44 <= result \/ result + 44 <= params).

(** What the handler finds. *)
Record handler_sees (m0 m : mem) (msg params result : Z) : Prop := HandlerSees {
  hs_slot : ld32 m params = ld16 m0 (msg + 4);
  hs_args : forall i, 1 <= i < 10 -> ld32 m (params + 4 * i) = ld32 m0 (msg + 44 + 4 * i);
  hs_count : ld32 m result = 15;
  hs_empty : forall i, 1 <= i <= 10 -> ld32 m (result + 4 * i) = 0;
  hs_frame : forall x, ~ (params <= x < params + 40) -> ~ (result <= x < result + 44) -> ld8 m x = ld8 m0 x;
}.

Lemma handler_args_wp msg params result w : handler_buffers msg params result ->
  wp (handler_args msg params result) (fun _ w' => exists m', w' = set_mm w m' /\
    handler_sees (mm w) m' msg params result) w.
Proof.
  intros ((H1 & H2 & H3) & H4 & H5 & H6). unfold handler_args.
  wp_step. set (m1 := wrbytes _ _ _).
  assert (F1 : forall x, x < params \/ params + 40 <= x -> ld8 m1 x = ld8 (mm w) x).
  { intros x Hx. unfold m1. apply ld8_wrbytes_out. rewrite bytes_length. lia. }
  assert (F2 : forall i, 0 <= i < 10 -> ld32 m1 (params + 4 * i) = ld32 (mm w) (msg + 44 + 4 * i)).
  { intros i Hi. unfold m1. rewrite ld_copy by lia. f_equal. }
  clearbody m1. wp_step. rewrite (ld_same 2 (mm w) m1) by (intros x Hx; apply F1; lia). wp_step.
  set (m2 := st32 m1 params _).
  assert (E2 : ld32 m2 params = ld16 (mm w) (msg + 4)).
  { unfold m2. rewrite ld32_st32_eq. apply u32_small. pose proof (ld16_range (mm w) (msg + 4)). lia. }
  assert (Ho2 : same_out params 4 m1 m2) by (apply same_out_st; lia). clearbody m2.
  apply wp_memset_abs; [lia|]. intros m3 Ho3 Hz. rewrite mm_set_mm in Ho3. change (Z.of_nat 44) with 44 in *. wsimp. wp_step.
  eexists. split; [reflexivity|]. split.
  - rewrite ld_st_ne, (ld_same_out _ _ _ _ _ _ Ho3) by lia. done.
  - intros i Hi. rewrite ld_st_ne, (ld_same_out _ _ _ _ _ _ Ho3), (ld_same_out _ _ _ _ _ _ Ho2) by lia. apply F2. lia.
  - by rewrite ld32_st32_eq.
  - intros i Hi. rewrite ld_st_ne by lia. apply Hz; lia.
  - intros x X1 X2. rewrite ld8_st_out, Ho3, Ho2 by lia. apply F1. lia.
Qed.

Lemma put_response_wp msg result w : 4096 <= msg -> 4096 <= result -> msg + 104 <= result \/ result + 44 <= msg ->
  let c := ld32 (mm w) result in
  wp (put_response msg result) (fun _ w' => exists m', w' = set_mm w m' /\ ld16 m' (msg + 4) = u16 c /\
    (forall i, 0 <= i < (if c =? 15 then 0 else Z.min (s32 c) 10) -> ld32 m' (msg + 44 + 4 * i) = ld32 (mm w) (result + 4 * (i + 1))) /\
    forall x, ~ (msg + 4 <= x < msg + 6) -> ~ (msg + 44 <= x < msg + 84) -> ld8 m' x = ld8 (mm w) x) w.
Proof.
  intros Hm Hr Ha c. unfold put_response. wp_step. fold c. wp_step. set (m1 := st16 _ (msg + 4) c).
  assert (Ho1 : same_out (msg + 4) 2 (mm w) m1) by (apply same_out_st; lia).
  assert (E1 : ld16 m1 (msg + 4) = u16 c) by apply ld16_st16_eq. clearbody m1.
  destruct (Z.eqb_spec c 15) as [Hc|Hc]; cbn [negb].
  - wp_step. exists m1. ands; [done | done | lia |]. intros x Hx _. apply Ho1. lia.
  - eapply wp_mono; [apply (copy_words_wp (result + 4) (msg + 44)); [intros; lia | intros; lia | lia | lia | lia]|].
    intros [] w' (m2 & -> & Ho2 & Hcp). rewrite !mm_set_mm in *. exists m2. ands; [done | | |].
    + by rewrite (ld_same_out _ _ _ _ _ _ Ho2) by lia.
    + intros i Hi. rewrite Hcp by lia. replace (result + 4 * (i + 1)) with (result + 4 + 4 * i) by lia.
      apply (ld_same_out _ _ _ _ _ _ Ho1). lia.
    + intros x X1 X2. rewrite Ho2 by lia. apply Ho1. lia.
Qed.
End Handler.

(** ** Properties *)

(** The message of a synchronous call carries the component, the number of parameters and the
    parameters themselves (four bytes each, from offset 44), asks for an answer, and touches nothing
    else; the caller's thread group is stored at offset 52 first, which is where the third parameter
    goes: with three parameters or more MIPS does not learn who called. *)
Theorem call_parameters {S : Shm} {K : Kernel} msg comp params n w :
  4096 <= params -> 4096 <= msg -> msg + 104 <= params \/ params + 44 <= msg ->
  0 <= comp < 2 ^ 32 -> 0 <= cur_tgid w < 2 ^ 32 -> 0 <= n <= 10 ->
  exists m', build_call msg comp params n w = Ret tt (set_mm w m') /\ same_out msg 104 (mm w) m' /\
    ld32 m' (msg + 40) = comp /\ ld16 m' (msg + 8) = n /\ ld16 m' (msg + 2) = 1 /\ notify_only (ld16 m' (msg + 6)) = false /\
    (forall i, 0 <= i < n -> ld32 m' (msg + 44 + 4 * i) = ld32 (mm w) (params + 4 * (i + 1))) /\
    ld32 m' (msg + 52) = (if n <? 3 then cur_tgid w else ld32 (mm w) (params + 12)).
Proof.
  intros Hp Hm Ha Hc Ht Hn.
  destruct (wp_run _ _ _ (build_call_wp msg comp params n w Hp Hm Ha Hc Ht Hn))
    as ([] & w' & E & m' & -> & H1 & H2 & H3 & H4 & H5 & H6 & H7 & _).
  exists m'. ands; try done; [by rewrite H5|]. destruct (Z.ltb_spec n 3); [apply H7; lia|].
  replace (msg + 52) with (msg + 44 + 4 * 2) by lia. by rewrite H6 by lia.
Qed.

Lemma call_parameters_witness :
  let w := set_mm blank_world (st32 (st32 (st32 ∅ 0x5004 7) 0x5008 8) 0x500C 9) in
  exists m', build_call 0x6000 0x1401 0x5000 3 w = Ret tt (set_mm w m') /\ ld32 m' 0x602C = 7 /\ ld32 m' 0x6034 = 9.
Proof.
  intros w. destruct (call_parameters 0x6000 0x1401 0x5000 3 w) as (m' & E & _ & _ & _ & _ & _ & H1 & H2).
  - lia.
  - lia.
  - lia.
  - lia.
  - change (0 <= 1234 < 2 ^ 32). lia.
  - lia.
  - exists m'. split; [exact E|]. split.
    + change 0x602C with (0x6000 + 44 + 4 * 0). rewrite (H1 0 ltac:(lia)). vm_compute. reflexivity.
    + change 0x6034 with (0x6000 + 52). rewrite H2. vm_compute. reflexivity.
Defined.

(** A handler gets the parameters of the call shifted out of place: its second to tenth word are the
    call's second to tenth parameter, but the first word is the number of the slot, so the call's first
    parameter never reaches it; its result starts out as the count 15 and ten zeros. If the call wants
    no response nothing follows; otherwise the message gets the values - as many as the count says, ten
    at most, none for 15 - at offset 44, with every other byte but the count's as the caller sent it,
    and is sent back. *)
Theorem handler_response {S : Shm} {K : Kernel} {J : Jiffies} {A : Kmalloc} {U : Uaccess}
    (h : Z -> Z -> Z -> M unit) cb fb msg params result w :
  handler_buffers msg params result ->
  (forall m, handler_sees (mm w) m msg params result ->
     exists m2, h cb params result (set_mm w m) = Ret tt (set_mm w m2) /\ same_out result 44 m m2) ->
  exists m1 m2, handler_sees (mm w) m1 msg params result /\ h cb params result (set_mm w m1) = Ret tt (set_mm w m2) /\
    if wants_response (ld8 (mm w) (msg + 6)) then
      exists m3, run_handler h cb fb msg params result w = respond fb msg (set_mm w m3) /\
        let c := ld32 m2 result in ld16 m3 (msg + 4) = u16 c /\
        (forall i, 0 <= i < (if c =? 15 then 0 else Z.min (s32 c) 10) ->
           ld32 m3 (msg + 44 + 4 * i) = ld32 m2 (result + 4 * (i + 1))) /\
        forall x, msg <= x < msg + 104 -> ~ (msg + 4 <= x < msg + 6) -> ~ (msg + 44 <= x < msg + 84) -> ld8 m3 x = ld8 (mm w) x
    else run_handler h cb fb msg params result w = Ret tt (set_mm w m2).
Proof.
  intros Hb Hh. destruct (wp_run _ _ _ (handler_args_wp msg params result w Hb)) as ([] & w' & E1 & m1 & -> & Hs).
  destruct (Hh m1 Hs) as (m2 & E2 & Ho2). exists m1, m2. split; [done|]. split; [done|].
  destruct Hb as ((B1 & B2 & B3) & B4 & B5 & B6).
  assert (Hmsg : forall x, msg <= x < msg + 104 -> ld8 m2 x = ld8 (mm w) x).
  { intros x Hx. rewrite Ho2 by lia. apply (hs_frame _ _ _ _ _ Hs); lia. }
  assert (E6 : rd8 (msg + 6) (set_mm w m2) = Ret (ld8 (mm w) (msg + 6)) (set_mm w m2)).
  { unfold rd. rewrite ltb_false, mm_set_mm, ld_1 by lia. by rewrite Hmsg by lia. }
  assert (E : run_handler h cb fb msg params result w = (if negb (wants_response (ld8 (mm w) (msg + 6))) then mret tt else
    put_response msg result ;; respond fb msg) (set_mm w m2)).
  { unfold run_handler, mbind, M_bind. rewrite E1, E2, E6. done. }
  rewrite E. destruct (wants_response _); cbn [negb]; [|done].
  destruct (wp_run _ _ _ (put_response_wp msg result (set_mm w m2) B1 B3 B5)) as ([] & w' & E3 & m3 & -> & H1 & H2 & H3).
  rewrite mm_set_mm in *. exists m3. ands; [| done | done |].
  - unfold mbind, M_bind. by rewrite E3.
  - intros x X1 X2 X3. rewrite H3 by done. by apply Hmsg.
Qed.

(** A handler that answers one value, the sum of its second and third word. *)
Definition sum_handler (cb params result : Z) : M unit :=
  a ← rd32 (params + 4); b ← rd32 (params + 8);
  wr32 result 1 ;; wr32 (result + 4) (a + b).

Lemma handler_response_witness :
  let w := set_mm blank_world (st32 (st32 (st16 ∅ 0x6004 5) 0x6030 20) 0x6034 22) in
  exists m3, run_handler sum_handler 0 0x9000 0x6000 0x7000 0x8000 w = respond 0x9000 0x6000 (set_mm w m3) /\
    ld32 m3 0x602C = 42.
Proof.
  intros w. destruct (handler_response sum_handler 0 0x9000 0x6000 0x7000 0x8000 w) as (m1 & m2 & Hs & E & H).
  - unfold handler_buffers. lia.
  - intros m _. eexists. split; [reflexivity|]. rewrite !mm_set_mm. intros x Hx. rewrite !ld8_st_out by (simpl; lia). reflexivity.
  - assert (A1 : ld32 m1 0x7004 = 20) by exact (hs_args _ _ _ _ _ Hs 1 ltac:(lia)).
    assert (A2 : ld32 m1 0x7008 = 22) by exact (hs_args _ _ _ _ _ Hs 2 ltac:(lia)).
    change (wants_response (ld8 (mm w) (0x6000 + 6))) with true in H. cbv iota in H.
    destruct H as (m3 & E3 & _ & Hv & _). exists m3. split; [exact E3|].
    assert (Em : m2 = st32 (st32 m1 0x8000 1) 0x8004 42).
    { change (sum_handler 0 0x7000 0x8000 (set_mm w m1)) with
        (Ret tt (set_mm w (st32 (st32 m1 0x8000 1) 0x8004 (ld32 m1 0x7004 + ld32 m1 0x7008)))) in E.
      rewrite A1, A2 in E. apply (f_equal (fun o => match o with Ret _ v => mm v | Stop _ => m1 end)) in E. symmetry. exact E. }
    assert (Ec : ld32 m2 0x8000 = 1) by (rewrite Em; memsimp; reflexivity).
    rewrite Ec in Hv. specialize (Hv 0 ltac:(vm_compute; split; congruence)). change (0x6000 + 44 + 4 * 0) with 0x602C in Hv.
    rewrite Hv, Em. change (0x8000 + 4 * (0 + 1)) with 0x8004. rewrite ld32_st32_eq. reflexivity.
Defined.

(** The number of values a handler returned does not survive the way back: the response keeps it in
    the field that [SendComm2CPUEx] overwrites with the number of the entry it sends it in, and the
    field the receiver takes it from still holds the number of parameters of the call; the values
    themselves arrive. *)
Theorem response_count_replaced {U : Uaccess} msg result slot idx w :
  4096 <= msg -> 4096 <= result -> 4096 <= slot -> 0 <= idx < 20 ->
  msg + 104 <= result \/ result + 44 <= msg -> slot + 104 <= msg \/ msg + 104 <= slot ->
  let c := ld32 (mm w) result in
  exists m', (put_response msg result ;; copy_message slot msg false ;; wr16 (slot + 4) idx) w = Ret tt (set_mm w m') /\
    ld16 m' (slot + 4) = idx /\ ld16 m' (slot + 8) = ld16 (mm w) (msg + 8) /\
    forall i, 0 <= i < (if c =? 15 then 0 else Z.min (s32 c) 10) -> ld32 m' (slot + 44 + 4 * i) = ld32 (mm w) (result + 4 * (i + 1)).
Proof.
  intros H1 H2 H3 H4 H5 H6 c.
  assert (H : wp (put_response msg result ;; copy_message slot msg false ;; wr16 (slot + 4) idx) (fun _ w' => exists m', w' = set_mm w m' /\
    ld16 m' (slot + 4) = idx /\ ld16 m' (slot + 8) = ld16 (mm w) (msg + 8) /\
    forall i, 0 <= i < (if c =? 15 then 0 else Z.min (s32 c) 10) -> ld32 m' (slot + 44 + 4 * i) = ld32 (mm w) (result + 4 * (i + 1))) w).
  { eapply wp_call; [by apply put_response_wp|]. fold c. intros [] w' (m1 & -> & _ & Hv & Ho). unfold copy_message.
    wp_step. wp_step. wp_step. wp_step. eexists. split; [reflexivity|].
    assert (Hc : forall n d, 0 <= d -> d + Z.of_nat n <= 104 -> ld n (wrbytes m1 slot (bytes (Z.to_nat COMM_MSG_SIZE) m1 msg)) (slot + d) = ld n m1 (msg + d)).
    { intros n d Hd Hn. apply ld_copy; [done|]. change (Z.of_nat (Z.to_nat COMM_MSG_SIZE)) with 104. done. }
    ands.
    - rewrite ld16_st16_eq. apply u16_small. lia.
    - rewrite ld_st_ne, Hc by lia. apply ld_same. intros x Hx. apply Ho; lia.
    - intros i Hi. assert (0 <= i < 10) by (destruct (c =? 15); lia). rewrite ld_st_ne by lia.
      rewrite <- Z.add_assoc, Hc, Z.add_assoc by lia. by apply Hv. }
  destruct (wp_run _ _ _ H) as ([] & w' & E & m' & -> & Hp). by exists m'.
Qed.

Lemma response_count_replaced_witness :
  let w := set_mm blank_world (st32 (st32 (st16 ∅ 0x6008 5) 0x8000 1) 0x8004 42) in
  exists m', (put_response 0x6000 0x8000 ;; copy_message 0x7000 0x6000 false ;; wr16 0x7004 3) w = Ret tt (set_mm w m') /\
    ld16 m' 0x7008 = 5 /\ ld32 m' 0x702C = 42.
Proof.
  intros w. destruct (response_count_replaced 0x6000 0x8000 0x7000 3 w) as (m' & E & _ & H1 & H2); try lia.
  exists m'. split; [exact E|]. split; [change 0x7008 with (0x7000 + 8); rewrite H1; vm_compute; reflexivity|].
  change 0x702C with (0x7000 + 44 + 4 * 0). rewrite (H2 0 ltac:(vm_compute; split; congruence)). vm_compute. reflexivity.
Defined.
