(* ===== verification/Answer.v ===== *)
(** The second half of a synchronous call ([CPUComm_CallEx] after the send):
    waiting for the return, taking its values, and giving everything back - with
    an answer and without one. *)
From S2P Require Import Prelude Mem Kernel Fifo Shm SpinLock Flags SeqMem DList Channel Waiting Pools Boot Returns Routine Msgbox UserQueue Proto Acks Send Call Rpc.

Lemma first_split {X} (P : X -> Prop) l1 x l2 k1 y k2 : l1 ++ x :: l2 = k1 ++ y :: k2 ->
  Forall (fun a => ~ P a) l1 -> P x -> Forall (fun a => ~ P a) k1 -> P y -> l1 = k1 /\ x = y /\ l2 = k2.
Proof.
  intros E Hl Hx Hk Hy. revert k1 E Hk. induction l1 as [|a l1 IH]; intros [|b k1] E Hk; simpl in E; injection E as -> E.
  - done.
  - apply Forall_cons in Hk as [Hb _]. done.
  - apply Forall_cons in Hl as [Ha _]. done.
  - apply Forall_cons in Hl as [_ Hl]. apply Forall_cons in Hk as [_ Hk]. destruct (IH Hl k1 E Hk) as (-> & -> & ->). done.
Qed.

Lemma first_unique m soff sid es l1 x l2 k1 y k2 :
  first_with m soff sid es l1 x l2 -> first_with m soff sid es k1 y k2 -> l1 = k1 /\ x = y /\ l2 = k2.
Proof.
  intros (-> & Hl & Hx) (E & Hk & Hy). by apply (first_split (fun e => ld32 m (e + soff) = sid)).
Qed.

Section Answer.
Context {S : Shm} {OK : ShmOk S} {K : Kernel} {L : SemLaws K} {HQ : Quiet K} {HT : Timed K}.
Context {J : Jiffies} {A : Kmalloc} {U : Uaccess}.

(** The object of the caller among those that wait. *)
Record my_wait (m : mem) (c sid o : Z) (free es1 es2 : list Z) : Prop := MyWait {
  mw_cpu : 0 <= c <= 1;
  mw_all : waiters m (sock_of c) free (es1 ++ o :: es2);
  mw_sid : ld32 m o = sid;
  mw_first : none_with m 0 sid es1;
}.

Lemma my_wait_first m c sid o free es1 es2 : my_wait m c sid o free es1 es2 ->
  first_with m 0 sid (es1 ++ o :: es2) es1 o es2.
Proof. intros [_ _ H1 H2]. split; [done|]. split; [done|]. by rewrite Z.add_0_r. Qed.

Lemma my_wait_obj m c sid o free es1 es2 x : my_wait m c sid o free es1 es2 -> x ∈ es1 ++ o :: es2 ->
  exists k, 0 <= k < 20 /\ x = sock_of c + 292 + 32 * k.
Proof. intros H Hx. apply (waiters_obj _ _ _ _ x (mw_all _ _ _ _ _ _ _ H)). apply elem_of_app. by right. Qed.

Lemma my_wait_frame m m' c sid o free es1 es2 : my_wait m c sid o free es1 es2 ->
  (forall x, sock_of c + 88 <= x < sock_of c + 932 -> ld8 m' x = ld8 m x) -> my_wait m' c sid o free es1 es2.
Proof.
  intros H Ho. pose proof (fun x => my_wait_obj _ _ _ _ _ _ _ x H) as Hat. destruct H as [Hc H1 H2 H3]. split; [done | | |].
  - by apply (waiters_frame m).
  - destruct (Hat o ltac:(set_solver)) as (k & Hk & ->). rewrite <- H2. apply ld_same. intros x Hx. apply Ho. lia.
  - apply (none_with_same _ m); [|done]. intros x Hx. destruct (Hat x ltac:(set_solver)) as (k & Hk & ->).
    symmetry. apply ld_same. intros y Hy. apply Ho. lia.
Qed.

Lemma wait_signal_wp c sid o free es1 es2 w : my_wait (mm w) c sid o free es1 es2 ->
  wp (wait_signal c sid) (fun _ w' => exists m', w' = set_mm w m' /\ my_wait m' c sid o free es1 es2 /\
    same_out (sock_of c + 88) 844 (mm w) m') w.
Proof.
  intros H. pose proof (my_wait_first _ _ _ _ _ _ _ H) as Hf. pose proof (fun x => my_wait_obj _ _ _ _ _ _ _ x H) as Hat.
  destruct H as [Hc [Hw1 Hw2 Hw3 Hw4 Hw5] H2 H3]. destruct (sock_of_range c Hc) as [R1 R2]. unfold wait_signal.
  rewrite getSeq_at by lia. fold (sock_of c).
  eapply wp_call; [by apply (FindWaitBySessionId_wp (sock_of c + 40) sid (es1 ++ o :: es2))|].
  intros r w' (m1 & -> & Hl1 & Hk1 & Ho1 & [(l1 & e & l2 & Hf' & ->)|(Hn & _)]).
  2: { exfalso. apply Forall_app in Hn as [_ Hn]. apply Forall_cons in Hn as [Hn _]. by rewrite Z.add_0_r in Hn. }
  destruct (first_unique _ _ _ _ _ _ _ _ _ _ Hf' Hf) as (_ & -> & _). destruct (Hat o ltac:(set_solver)) as (i & Hi & Eo).
  cbn [fst snd]. rewrite (eqb_neq_false o) by lia. change (0 =? 0) with true. cbn [negb andb].
  apply wp_down_timeout. intros m2 _ Ho2. rewrite mm_set_mm in Ho2. wp_step. exists m2. ands; [done | |].
  - split; [done | | |].
    + split; [| | | | done].
      * apply (fifo_at_frame Hw1); [intros x Hx; rewrite Ho2, Ho1 by lia; done|]. intros k x Hk Hx.
        pose proof (Z.mod_pos_bound (ld32 (mm w) (sock_of c + 136) + Z.of_nat k) 21 ltac:(lia)). rewrite Ho2, Ho1 by lia. done.
      * apply (msg_list_same _ _ _ m1); [done | intros x Hx; apply Ho2; lia|]. intros e x He Hx.
        destruct (Hat e He) as (k & Hk & ->). apply Ho2. lia.
      * unfold list_unlocked in *. by rewrite (sem_count_same _ _ _ _ _ Ho2) by lia.
      * by rewrite (sem_count_same _ _ _ _ _ Ho2), (sem_count_same _ _ _ _ _ Ho1) by lia.
    + by rewrite (ld_same_out _ _ _ _ _ _ Ho2), (ld_same_out _ _ _ _ _ _ Ho1) by lia.
    + apply (none_with_same _ (mm w)); [|done]. intros x Hx. destruct (Hat x ltac:(set_solver)) as (k & Hk & ->).
      by rewrite (ld_same_out _ _ _ _ _ _ Ho2), (ld_same_out _ _ _ _ _ _ Ho1) by lia.
  - intros x Hx. rewrite Ho2, Ho1 by lia. done.
Qed.

Lemma release_waiter_wp c sid o free es1 es2 w : my_wait (mm w) c sid o free es1 es2 ->
  wp (release_waiter c sid) (fun _ w' => exists m', w' = set_mm w m' /\
    waiters m' (sock_of c) (free ++ [o]) (es1 ++ es2) /\ same_out (sock_of c + 88) 844 (mm w) m') w.
Proof.
  intros H. pose proof (my_wait_first _ _ _ _ _ _ _ H) as Hf. pose proof (fun x => my_wait_obj _ _ _ _ _ _ _ x H) as Hat.
  destruct H as [Hc [Hw1 Hw2 Hw3 Hw4 Hw5] H2 H3]. destruct (sock_of_range c Hc) as [R1 R2]. unfold release_waiter.
  rewrite getSeq_at by lia. fold (sock_of c). set (sock := sock_of c) in *.
  eapply wp_call; [apply (GetWaitbySessionId_wp (sock + 40) sid (es1 ++ o :: es2)); done|].
  intros [st r] w' (m1 & -> & Hk1 & Ho1 & Est & Hrm). cbn [fst snd] in *.
  assert (Hr : r = Some o /\ msg_list m1 (sock + 40) 24 32 (es1 ++ es2)).
  { destruct Hrm as [(l1 & e & l2 & Hf' & -> & Hl1)|(Hn & _)].
    - destruct (first_unique _ _ _ _ _ _ _ _ _ _ Hf' Hf) as (-> & -> & ->). done.
    - exfalso. apply Forall_app in Hn as [_ Hn]. apply Forall_cons in Hn as [Hn _]. by rewrite Z.add_0_r in Hn. }
  destruct Hr as [-> Hl1]. subst st.
  assert (Hlow : forall x, x < sock + 88 \/ sock + 120 <= x < sock + 292 \/ sock + 932 <= x -> ld8 m1 x = ld8 (mm w) x).
  { intros x Hx. apply Ho1; [lia|]. intros y Hy. destruct (Hat y Hy) as (k & Hk' & ->). lia. }
  assert (Hf1 : wait_fifo m1 sock free).
  { apply (fifo_at_frame Hw1); [intros x Hx; apply Hlow; lia|]. intros k x Hk' Hx.
    pose proof (Z.mod_pos_bound (ld32 (mm w) (sock + 136) + Z.of_nat k) 21 ltac:(lia)). apply Hlow. lia. }
  assert (Hlen : Z.of_nat (length free) < 20).
  { pose proof (Permutation_length Hw5) as Hp. rewrite !length_app, wait_objs_20 in Hp. simpl in Hp. lia. }
  destruct (Hat o ltac:(set_solver)) as (i & Hi & Eo).
  eapply wp_mono; [apply (ReleaseWaitComm_wp c o free (set_mm w m1)); [done | done | done | lia |]|].
  { rewrite <- Hw4. apply ld_same. intros x Hx. rewrite mm_set_mm. apply Hlow. fold sock in Hx. lia. }
  fold sock. intros _ w' (m2 & -> & Hf2 & Hs2 & Ho2). rewrite mm_set_mm in Ho2. exists m2. ands; [done | |].
  - split; try done.
    + apply (msg_list_same _ _ _ m1); [done | intros; apply Ho2; lia|]. intros e x He Hx.
      destruct (Hat e ltac:(set_solver)) as (k & Hk & ->). apply Ho2. lia.
    + unfold list_unlocked, sem_count in *. by rewrite (ld_same _ m1 m2) by (intros; apply Ho2; lia).
    + rewrite <- Hw5, <- app_assoc. apply Permutation_app_head. simpl. apply Permutation_middle.
  - intros x Hx. rewrite Ho2 by lia. apply Hlow. lia.
Qed.
(** *** The values of an answer *)

(** The device structure is absent, or lies apart from all the rest. *)
Definition dev_apart (result : Z) : Prop :=
  pcpu_comm_dev = 0 \/ (private (pcpu_comm_dev + 1632) 4 /\
    (pcpu_comm_dev + 1636 <= result \/ result + 44 <= pcpu_comm_dev + 1632)).

Definition in_dev (x : Z) : Prop := pcpu_comm_dev <> 0 /\ pcpu_comm_dev + 1632 <= x < pcpu_comm_dev + 1636.

(** What the caller gets of the answer in entry [e]: up to ten values and their number. *)
Definition result_of (m0 m : mem) (e result : Z) : Prop :=
  let c := ld16 m0 (e + 8) in
  if c <=? 10 then ld32 m result = c /\ forall i, 0 <= i < c -> ld32 m (result + 4 * (i + 1)) = ld32 m0 (e + 44 + 4 * i)
  else forall x, result <= x < result + 44 -> ld8 m x = ld8 m0 x.

(** The entries returns come in: [ps] are free. *)
Definition ret_pool (m : mem) (ps : list Z) : Prop :=
  call_pool m (ret_seq 1) ps /\ ld8 m (ret_seq 1) = CPU_ID_ARM /\ ld8 m (ret_seq 1 + 1) = 1 /\
  sem_count m (sock_of 1 + 936) = 1.

Lemma ret_pool_frame m m' ps : ret_pool m ps ->
  (forall x, ret_seq 1 <= x < ret_seq 1 + 2 \/ ret_seq 1 + 120 <= x < ret_seq 1 + 360 \/ sock_of 1 + 936 <= x < sock_of 1 + 952 ->
     ld8 m' x = ld8 m x) ->
  (forall j x, 0 <= j < 20 -> ret_entry 1 j + 4 <= x < ret_entry 1 j + 6 -> ld8 m' x = ld8 m x) -> ret_pool m' ps.
Proof.
  intros ([Hr Hf Hi Hs] & H1 & H2 & H3) Ho He. unfold ret_pool. ands.
  - split; try done.
    + apply (fifo_at_frame Hf); [intros x Hx; apply Ho; lia|]. intros k x Hk Hx.
      pose proof (Z.mod_pos_bound (ld32 m (ret_seq 1 + 120) + Z.of_nat k) 21 ltac:(lia)). apply Ho. lia.
    + intros j Hj. rewrite (ld_same 2 m m'); [by apply Hs|]. intros x Hx. apply (He j); [done|]. unfold ret_entry. lia.
  - rewrite Ho by lia. done.
  - rewrite Ho by lia. done.
  - unfold sem_count in *. rewrite (ld_same 4 m m'); [done|]. intros x Hx. apply Ho. lia.
Qed.

Lemma count_dev_wp w : pcpu_comm_dev = 0 \/ 4096 <= pcpu_comm_dev + 1632 ->
  wp (if pcpu_comm_dev =? 0 then mret tt else dev_count 1632)
    (fun _ w' => exists m', w' = set_mm w m' /\ forall x, ~ in_dev x -> ld8 m' x = ld8 (mm w) x) w.
Proof.
  intros Hd. unfold dev_count, in_dev. destruct (Z.eqb_spec pcpu_comm_dev 0) as [E|E].
  - wp_step. exists (mm w). by rewrite set_mm_id.
  - destruct Hd as [Hd|Hd]; [lia|]. wp_step. wp_step. eexists. split; [reflexivity|]. intros x Hx. rewrite ld8_st_out by lia. done.
Qed.

Lemma put_result_wp e result w : 4096 <= e -> 4096 <= result -> result + 44 <= e \/ e + 104 <= result ->
  wp (put_result e result)
    (fun _ w' => exists m', w' = set_mm w m' /\ result_of (mm w) m' e result /\ same_out result 44 (mm w) m') w.
Proof.
  intros He Hr Ha. unfold put_result. wp_step. unfold result_of. pose proof (ld16_range (mm w) (e + 8)) as Hc0.
  set (c := ld16 (mm w) (e + 8)) in *.
  assert (Eb : negb (c =? 15) && (c <=? 10) = (c <=? 10)).
  { destruct (Z.leb_spec c 10); [rewrite (eqb_neq_false c 15) by lia|]; by rewrite ?andb_false_r. }
  rewrite Eb. destruct (Z.leb_spec c 10) as [Hc|Hc].
  - wp_step. set (m1 := st32 _ result c).
    assert (Ho1 : same_out result 4 (mm w) m1) by (apply same_out_st; lia).
    assert (E1 : ld32 m1 result = c) by (unfold m1; rewrite ld32_st32_eq; apply u32_small; lia). clearbody m1.
    eapply wp_mono; [apply (copy_words_wp (e + 44) (result + 4)); [intros; lia | intros; lia | lia | lia | lia]|].
    rewrite Z2Nat.id by lia. intros [] w' (m2 & -> & Ho2 & Hcp). rewrite !mm_set_mm in *. exists m2. ands; [done | | |].
    + by rewrite (ld_same_out _ _ _ _ _ _ Ho2) by lia.
    + intros i Hi. replace (result + 4 * (i + 1)) with (result + 4 + 4 * i) by lia. rewrite Hcp by lia.
      apply (ld_same_out _ _ _ _ _ _ Ho1). lia.
    + intros x Hx. rewrite Ho2, Ho1 by lia. done.
  - wp_step. exists (mm w). rewrite set_mm_id. ands; [done | done | apply same_out_refl].
Qed.

Lemma take_result_wp j ps result w : 0 <= j < 20 -> dev_apart result -> private result 44 ->
  ld16 (mm w) (ret_entry 1 j + 2) = 1 -> ret_pool (mm w) ps -> Z.of_nat (length ps) < 20 ->
  wp (take_result (ret_entry 1 j) result) (fun _ w' => exists m', w' = set_mm w m' /\
    call_pool m' (ret_seq 1) (ps ++ [j]) /\ result_of (mm w) m' (ret_entry 1 j) result /\
    forall x, ~ in_dev x -> ~ (result <= x < result + 44) -> ~ (ret_seq 1 + 120 <= x < ret_seq 1 + 276) ->
      ~ (ret_entry 1 j + 10 <= x < ret_entry 1 j + 12) -> ~ (sock_of 1 + 936 <= x < sock_of 1 + 952) ->
      ld8 m' x = ld8 (mm w) x) w.
Proof.
  intros Hj Hd (P1 & P2 & P3) Esrc Hp Hlen. destruct (ret_layout 1 ltac:(lia)) as (R1 & R2 & R3 & R4 & R5).
  destruct (ret_seq_at 1 ltac:(lia)) as [Hr Eseq]. pose proof (ret_entry_at 1) as Eall. pose proof (Eall j) as Ee. shm_facts.
  assert (Hdev : forall x, in_dev x -> ~ (ShMemAddrBase <= x < ShMemAddrBase + ShMemSize) /\
    ~ (s_CommSockt <= x < s_CommSockt + 2 * COMM_SOCKET_SIZE) /\ ~ (result <= x < result + 44)).
  { intros x [Hx0 Hx]. destruct Hd as [Hd|((D1 & D2 & D3) & D4)]; [lia|]. lia. }
  assert (Hsk : s_CommSockt <= sock_of 1 /\ sock_of 1 + 4992 <= s_CommSockt + 2 * COMM_SOCKET_SIZE) by (unfold sock_of, COMM_SOCKET_SIZE; lia).
  unfold COMM_SOCKET_SIZE in *. set (e := ret_entry 1 j) in *. unfold take_result.
  eapply wp_call; [apply count_dev_wp; destruct Hd as [Hd|((D1 & _) & _)]; [by left | right; lia]|].
  intros [] w' (m1 & -> & Ho1). wp_step. apply wp_wr_abs; [lia|]. rewrite mm_set_mm. intros m2 Ho2 _. rewrite set_mm_set_mm.
  assert (H2 : forall x, ~ in_dev x -> ~ (e + 10 <= x < e + 12) -> ld8 m2 x = ld8 (mm w) x)
    by (intros x X1 X2; rewrite Ho2 by lia; by apply Ho1).
  eapply wp_call; [apply (put_result_wp e result); [lia | lia | lia]|]. rewrite !mm_set_mm. intros [] w' (m3 & -> & Hres & Ho3).
  wp_step. assert (H3 : forall x, ~ in_dev x -> ~ (e + 10 <= x < e + 12) -> ~ (result <= x < result + 44) -> ld8 m3 x = ld8 (mm w) x)
    by (intros x X1 X2 X3; rewrite Ho3 by lia; by apply H2).
  assert (Hsh : forall x, ShMemAddrBase <= x < ShMemAddrBase + ShMemSize -> ~ (e + 10 <= x < e + 12) -> ld8 m3 x = ld8 (mm w) x).
  { intros x X1 X2. apply H3; [intros X; destruct (Hdev x X); lia | done | lia]. }
  assert (Hp3 : ret_pool m3 ps).
  { apply (ret_pool_frame (mm w)); [done | |].
    - intros x Hx. apply H3; [intros X; destruct (Hdev x X) as (? & ? & ?); lia | lia | lia].
    - intros i x Hi Hx. pose proof (Eall i). apply Hsh; lia. }
  rewrite (ld_same 2 (mm w) m3), Esrc by (intros x Hx; apply Hsh; lia). change (getShareSeqR 1 1) with (ret_seq 1).
  destruct Hp3 as (Hc3 & Hz3 & Hr3 & Hs3).
  eapply wp_mono; [apply (Comm_ReleaseFreeCall_wp (ret_seq 1) ps j (set_mm w m3)); rewrite ?mm_set_mm, ?Hr3; try done; lia|].
  rewrite mm_set_mm, Hr3. change (call_entry (ret_seq 1) j) with e.
  intros [] w' (m4 & -> & Hc4 & _ & _ & Ho4). exists m4. ands; [done | done | |].
  - assert (Efix : forall n d, 0 <= d -> d + Z.of_nat n <= 10 \/ (12 <= d /\ d + Z.of_nat n <= 84) ->
      ld n m2 (e + d) = ld n (mm w) (e + d)).
    { intros n d Hd0 Hn. apply ld_same. intros x Hx. apply H2; [intros X; destruct (Hdev x X) as (? & ? & ?); lia | lia]. }
    unfold result_of in *. rewrite Efix in Hres by lia. destruct (Z.leb_spec (ld16 (mm w) (e + 8)) 10) as [Hc|Hc].
    + destruct Hres as [E1 E2]. split.
      * rewrite <- E1. apply ld_same. intros x Hx. apply Ho4; lia.
      * intros i Hi. specialize (E2 i Hi). rewrite <- !Z.add_assoc in E2. rewrite Efix in E2 by lia. rewrite !Z.add_assoc in E2.
        rewrite <- E2. apply ld_same. intros x Hx. apply Ho4; lia.
    + intros x Hx. rewrite Ho4, Hres by lia. apply H2; [intros X; destruct (Hdev x X) as (? & ? & ?); lia | lia].
  - intros x X1 X2 X3 X4 X5. rewrite Ho4 by done. by apply H3.
Qed.

Lemma returns_at_frame m m' q js : returns_at m 1 q js ->
  (forall x, sock_of 1 + 1116 <= x < sock_of 1 + 1132 \/ sock_of 1 + 1164 <= x < sock_of 1 + 1248 \/
     ret_seq 1 + 32 <= x < ret_seq 1 + 120 -> ld8 m' x = ld8 m x) ->
  (forall j x, 0 <= j < 20 -> ret_entry 1 j <= x < ret_entry 1 j + 104 -> ~ (ret_entry 1 j + 10 <= x < ret_entry 1 j + 12) ->
     ld8 m' x = ld8 m x) -> returns_at m' 1 q js.
Proof.
  intros [Hf Hl Hit Hjs Hon Hslot] Ho He. split; try done.
  - apply (fifo_at_frame Hf); [intros x Hx; apply Ho; lia|]. intros k x Hk Hx.
    pose proof (Z.mod_pos_bound (ld32 m (ret_seq 1 + 32) + Z.of_nat k) 21 ltac:(lia)). apply Ho. lia.
  - apply (msg_list_same _ _ _ m); [done | intros x Hx; apply Ho; lia|]. intros e x He' Hx.
    apply list_elem_of_fmap in He' as (j & -> & Hj). rewrite Forall_forall in Hjs. apply (He j); [by apply Hjs | lia | lia].
  - intros j Hj. rewrite <- (Hslot j Hj) at 2. apply ld_same. intros x Hx. apply (He j); lia.
Qed.

(** *** Waiting for the answer *)

(** A call of session [sid] is out: what its caller finds when the send has returned. *)
Record pending (w : world) (msg result sid o : Z) (free es1 es2 : list Z) (q : list ritem) (js ps : list Z) : Prop := Pending {
  pe_msg : 4096 <= msg;
  pe_sid : ld32 (mm w) (msg + 12) = sid;
  pe_dst : ld16 (mm w) (msg + 2) = 1;
  pe_wait : my_wait (mm w) 1 sid o free es1 es2;
  pe_returns : returns_at (mm w) 1 q js;
  pe_lock : sem_count (mm w) (sock_of 1 + 1132) = 1;
  pe_pool : ret_pool (mm w) ps;
  pe_result : private result 44;
  pe_dev : dev_apart result;
}.

(** The common part: the answers that arrived are listed, and the first of the session is taken. *)
Lemma fetch_wp w msg result sid o free es1 es2 q js ps : pending w msg result sid o free es1 es2 q js ps ->
  wp (wait_signal 1 sid ;; GetReturnbySessionId sid 1) (fun r w' => exists m', w' = set_mm w m' /\
    my_wait m' 1 sid o free es1 es2 /\ ret_pool m' ps /\
    (forall j n d, 0 <= j < 20 -> 0 <= d -> d + Z.of_nat n <= 10 \/ (12 <= d /\ d + Z.of_nat n <= 84) ->
       ld n m' (ret_entry 1 j + d) = ld n (mm w) (ret_entry 1 j + d)) /\
    (forall x, result <= x < result + 44 -> ld8 m' x = ld8 (mm w) x) /\
    ((exists l1 j l2, js ++ ours q = l1 ++ j :: l2 /\ r = (0, Some (ret_entry 1 j)) /\ 0 <= j < 20 /\
        ld32 (mm w) (ret_entry 1 j + 12) = sid /\ Forall (fun i => ld32 (mm w) (ret_entry 1 i + 12) <> sid) l1 /\
        returns_at m' 1 [] (l1 ++ l2)) \/
     (r = (0, Some 0) /\ Forall (fun i => ld32 (mm w) (ret_entry 1 i + 12) <> sid) (js ++ ours q) /\
        returns_at m' 1 [] (js ++ ours q)))) w.
Proof.
  intros [H1 H2 H3 H4 H5 H6 H7 (P1 & P2 & P3) H9]. destruct (ret_layout 1 ltac:(lia)) as (R1 & R2 & R3 & R4 & R5).
  destruct (ret_seq_at 1 ltac:(lia)) as [Hr Eseq]. pose proof (ret_entry_at 1) as Eall. shm_facts.
  assert (Hsk : s_CommSockt <= sock_of 1 /\ sock_of 1 + 4992 <= s_CommSockt + 2 * COMM_SOCKET_SIZE) by (unfold sock_of, COMM_SOCKET_SIZE; lia).
  unfold COMM_SOCKET_SIZE in *.
  eapply wp_call; [by apply (wait_signal_wp 1 sid o free es1 es2)|]. intros [] w' (m1 & -> & Hw1 & Ho1).
  assert (Hr1 : returns_at m1 1 q js).
  { apply (returns_at_frame (mm w)); [done | intros x Hx; apply Ho1; lia|]. intros j x Hj Hx _. pose proof (Eall j). apply Ho1. lia. }
  assert (Hp1 : ret_pool m1 ps).
  { apply (ret_pool_frame (mm w)); [done | intros x Hx; apply Ho1; lia|]. intros j x Hj Hx. pose proof (Eall j). apply Ho1. lia. }
  assert (E1 : forall n j d, 0 <= j < 20 -> 0 <= d -> d + Z.of_nat n <= 104 -> ld n m1 (ret_entry 1 j + d) = ld n (mm w) (ret_entry 1 j + d)).
  { intros n j d Hj Hd Hn. pose proof (Eall j). apply (ld_same_out _ _ _ _ _ _ Ho1). lia. }
  eapply wp_mono; [apply (GetReturnbySessionId_wp 1 sid q js (set_mm w m1)); [lia | done |]|].
  { rewrite mm_set_mm, (sem_count_same _ _ _ _ _ Ho1) by lia. done. }
  rewrite mm_set_mm. intros r w' (m2 & -> & _ & Hf2 & Hr2). exists m2. rewrite set_mm_set_mm.
  assert (Hout : forall x, out_of_returns 1 x -> ld8 m2 x = ld8 m1 x) by (intros x Hx; apply Hf2; by right).
  assert (Hall : forall l, (forall j, j ∈ l -> 0 <= j < 20) -> Forall (fun i => ld32 m1 (ret_entry 1 i + 12) <> sid) l ->
    Forall (fun i => ld32 (mm w) (ret_entry 1 i + 12) <> sid) l).
  { intros l Hl. rewrite !Forall_forall. intros Hn x Hx. specialize (Hl x Hx). rewrite <- (E1 4%nat) by lia. by apply Hn. }
  assert (Hidx : forall j, j ∈ js ++ ours q -> 0 <= j < 20).
  { intros j Hj. apply elem_of_app in Hj as [Hj|Hj].
    - pose proof (rt_idx _ _ _ _ H5) as Hi. rewrite Forall_forall in Hi. by apply Hi.
    - apply list_elem_of_omap in Hj as ([k|v] & Hin & [= ->]). pose proof (rt_items _ _ _ _ H5) as Hi. rewrite Forall_forall in Hi.
      apply (Hi _ Hin). }
  ands; [done | | | | |].
  - apply (my_wait_frame m1); [done|]. intros x Hx. apply Hout. unfold out_of_returns. lia.
  - apply (ret_pool_frame m1); [done | intros x Hx; apply Hout; unfold out_of_returns; lia|].
    intros j x Hj Hx. apply Hf2. left. exists j. lia.
  - intros j n d Hj Hd Hn. rewrite <- E1 by lia. by apply (entries_frame_ld 1).
  - intros x Hx. rewrite Hout by (unfold out_of_returns; lia). apply Ho1. lia.
  - destruct Hr2 as [(l1 & j & l2 & E & -> & Ej & Hl1 & Hr3)|(-> & Hn & Hr3)].
    + left. exists l1, j, l2. assert (Hj : 0 <= j < 20) by (apply Hidx; rewrite E; set_solver).
      ands; [done | done | lia | lia | by rewrite <- (E1 4%nat) by lia | | done]. apply Hall; [|done].
      intros i Hi. apply Hidx. rewrite E. set_solver.
    + right. ands; [done | by apply Hall | done].
Qed.

(** What the caller is given depends on the entry only through its fields. *)
Lemma result_of_frame m1 m0 m2 m3 e result : result_of m1 m2 e result ->
  (forall n d, 0 <= d -> d + Z.of_nat n <= 10 \/ (12 <= d /\ d + Z.of_nat n <= 84) -> ld n m1 (e + d) = ld n m0 (e + d)) ->
  (forall x, result <= x < result + 44 -> ld8 m1 x = ld8 m0 x) ->
  (forall x, result <= x < result + 44 -> ld8 m3 x = ld8 m2 x) -> result_of m0 m3 e result.
Proof.
  intros H E Hr Ho. unfold result_of in *. rewrite (E 2%nat 8) in H by lia. destruct (Z.leb_spec (ld16 m0 (e + 8)) 10).
  - destruct H as [H1 H2]. pose proof (ld16_range m0 (e + 8)). split.
    + rewrite <- H1. apply ld_same. intros x Hx. apply Ho. lia.
    + intros i Hi. rewrite <- (Z.add_assoc e), <- E, Z.add_assoc, <- H2 by lia. apply ld_same. intros x Hx. apply Ho. lia.
  - intros x Hx. by rewrite Ho, H, Hr by lia.
Qed.

(** The two calls before the answer is used, as one. *)
Lemma await_fetch {B} c sid (k : Z * option Z -> M B) Q w :
  wp (wait_signal c sid ;; GetReturnbySessionId sid c) (fun r w' => wp (k r) Q w') w ->
  wp (wait_signal c sid ;; (GetReturnbySessionId sid c ≫= k)) Q w.
Proof. unfold wp, mbind, M_bind. destruct (wait_signal c sid w) as [? w'|]; [|done]. by destruct (GetReturnbySessionId sid c w'). Qed.

Lemma await_answer_wp w msg result sid o free es1 es2 q js ps l1 j l2 : pending w msg result sid o free es1 es2 q js ps ->
  js ++ ours q = l1 ++ j :: l2 -> ld32 (mm w) (ret_entry 1 j + 12) = sid ->
  Forall (fun i => ld32 (mm w) (ret_entry 1 i + 12) <> sid) l1 ->
  ld16 (mm w) (ret_entry 1 j + 2) = 1 -> Z.of_nat (length ps) < 20 ->
  wp (await_return msg result) (fun r w' => r = 0 /\ exists m', w' = set_mm w m' /\
    result_of (mm w) m' (ret_entry 1 j) result /\ returns_at m' 1 [] (l1 ++ l2) /\
    call_pool m' (ret_seq 1) (ps ++ [j]) /\ waiters m' (sock_of 1) (free ++ [o]) (es1 ++ es2)) w.
Proof.
  intros H E Es Hl1 Esrc Hps. pose proof H as [H1 H2 H3 _ _ _ _ (P1 & P2 & P3) H9].
  unfold await_return. wp_step. wp_step. rewrite H2, H3. apply await_fetch.
  eapply wp_mono; [by eapply fetch_wp|]. intros r w' (m1 & -> & Hw1 & Hp1 & E1 & Hres1 & Hr).
  destruct Hr as [(k1 & i & k2 & E' & -> & Hi & Ei & Hk1 & Hr1)|(_ & Hn & _)].
  2: { exfalso. rewrite Forall_forall in Hn. apply (Hn j); [rewrite E; set_solver | done]. }
  rewrite E in E'. destruct (first_split (fun i => ld32 (mm w) (ret_entry 1 i + 12) = sid) _ _ _ _ _ _ E') as (-> & -> & ->); try done.
  cbn [fst snd from_option id]. change (negb (0 =? 0)) with false. cbv iota zeta.
  destruct (ret_layout 1 ltac:(lia)) as (R1 & R2 & R3 & R4 & R5). destruct (ret_seq_at 1 ltac:(lia)) as [Hr Eseq]. 
  pose proof (ret_entry_at 1) as Eall. pose proof (Eall i) as Ee. shm_facts.
  rewrite (eqb_neq_false (ret_entry 1 i)) by lia. cbn [negb].
  eapply wp_call; [apply (take_result_wp i ps result (set_mm w m1)); rewrite ?mm_set_mm; try done; by rewrite E1 by lia|].
  rewrite mm_set_mm. intros [] w' (m2 & -> & Hc2 & Hres2 & Ho2). rewrite set_mm_set_mm.
  assert (Hdev : forall x, in_dev x -> ~ (ShMemAddrBase <= x < ShMemAddrBase + ShMemSize) /\
    ~ (s_CommSockt <= x < s_CommSockt + 2 * 4992)).
  { intros x [Hx0 Hx]. destruct H9 as [Hd|((D1 & D2 & D3) & D4)]; [lia|]. unfold COMM_SOCKET_SIZE in *. lia. }
  assert (Hsk : s_CommSockt <= sock_of 1 /\ sock_of 1 + 4992 <= s_CommSockt + 2 * 4992) by (unfold sock_of, COMM_SOCKET_SIZE; lia).
  assert (Hin : forall x, (ShMemAddrBase <= x < ShMemAddrBase + ShMemSize \/ s_CommSockt <= x < s_CommSockt + 2 * 4992) ->
    ~ (ret_seq 1 + 120 <= x < ret_seq 1 + 276) -> ~ (ret_entry 1 i + 10 <= x < ret_entry 1 i + 12) ->
    ~ (sock_of 1 + 936 <= x < sock_of 1 + 952) -> ld8 m2 x = ld8 m1 x).
  { intros x X1 X2 X3 X4. apply Ho2; try done; [intros X; destruct (Hdev x X) as [? ?]; lia | lia]. }
  eapply wp_call; [apply (release_waiter_wp 1 sid o free es1 es2 (set_mm w m2))|].
  { apply (my_wait_frame m1); [done|]. intros x Hx. apply Hin; lia. }
  rewrite mm_set_mm. intros [] w' (m3 & -> & Hw3 & Ho3). wp_step. split; [done|]. exists m3. ands; [done | | | | done].
  - apply (result_of_frame m1 (mm w) m2 m3); [done | intros n d Hd Hn; by apply E1 | done | intros x Hx; apply Ho3; lia].
  - apply (returns_at_frame m1); [done | |].
    + intros x Hx. rewrite Ho3 by lia. apply Hin; lia.
    + intros k x Hk Hx Hnf. pose proof (Eall k). rewrite Ho3 by lia. apply Hin; lia.
  - apply (call_pool_frame m2); [|done]. intros x Hx. apply Ho3. lia.
Qed.

Lemma await_nothing_wp w msg result sid o free es1 es2 q js ps : pending w msg result sid o free es1 es2 q js ps ->
  Forall (fun i => ld32 (mm w) (ret_entry 1 i + 12) <> sid) (js ++ ours q) ->
  wp (await_return msg result) (fun r w' => r = 0 /\ exists m', w' = set_mm w m' /\
    (forall x, result <= x < result + 44 -> ld8 m' x = ld8 (mm w) x) /\ returns_at m' 1 [] (js ++ ours q) /\
    ret_pool m' ps /\ waiters m' (sock_of 1) (free ++ [o]) (es1 ++ es2)) w.
Proof.
  intros H Hn. pose proof H as [H1 H2 H3 _ _ _ _ (P1 & P2 & P3) H9].
  unfold await_return. wp_step. wp_step. rewrite H2, H3. apply await_fetch.
  eapply wp_mono; [by eapply fetch_wp|]. intros r w' (m1 & -> & Hw1 & Hp1 & E1 & Hres1 & Hr).
  destruct Hr as [(k1 & i & k2 & E' & _ & Hi & Ei & _)|(-> & _ & Hr1)].
  { exfalso. rewrite Forall_forall in Hn. apply (Hn i); [rewrite E'; set_solver | done]. }
  cbn [fst snd from_option id]. change (negb (0 =? 0)) with false. cbv iota zeta. apply wp_assoc.
  destruct (ret_layout 1 ltac:(lia)) as (R1 & R2 & R3 & R4 & R5). destruct (ret_seq_at 1 ltac:(lia)) as [Hr Eseq].
  pose proof (ret_entry_at 1) as Eall. shm_facts.
  assert (Hsk : s_CommSockt <= sock_of 1 /\ sock_of 1 + 4992 <= s_CommSockt + 2 * 4992) by (unfold sock_of, COMM_SOCKET_SIZE; lia).
  eapply wp_eq; [apply IsCPUReset_run; lia|]. wp_step.
  eapply wp_call; [by apply (release_waiter_wp 1 sid o free es1 es2 (set_mm w m1))|].
  rewrite mm_set_mm. intros [] w' (m3 & -> & Hw3 & Ho3). wp_step. split; [done|]. exists m3. ands; [done | | | | done].
  - intros x Hx. rewrite Ho3 by lia. by apply Hres1.
  - apply (returns_at_frame m1); [done | intros x Hx; apply Ho3; lia|]. intros k x Hk Hx _. pose proof (Eall k). apply Ho3. lia.
  - apply (ret_pool_frame m1); [done | intros x Hx; apply Ho3; lia|]. intros k x Hk Hx. pose proof (Eall k). apply Ho3. lia.
Qed.
End Answer.

(** ** A world with a call out *)

(** MIPS took the first free return entry and filled it for session 77 with two values; the caller
    of session 77 takes the first wait object; then the answer is queued ([ans]) or not. *)
Definition fill_answer : M Z :=
  e ← Comm_GetFreeCall (ret_seq 1);
  wr16 (e + 2) 1 ;; wr16 (e + 8) 2 ;; wr32 (e + 12) 77 ;; wr32 (e + 44) 11 ;; wr32 (e + 48) 22 ;;
  wr32 0xC300200C 77 ;; wr16 0xC3002002 1 ;; mret e.

Definition answer_prog (ans : bool) : M unit :=
  e ← fill_answer;
  attach_wait (call_entry call_seq 0) 1 77 0 ;;
  if ans then AddReturn2Fifo (ret_seq 1 + 32) e ;; mret tt else mret tt.

Definition answer_world (ans : bool) : world := after (answer_prog ans) booted.

Lemma booted_waiters : waiters (mm booted) (sock_of 1) (wait_objs (sock_of 1) 20) [].
Proof.
  destruct booted_init as [[Hs _ _ _] _]. specialize (Hs 1 ltac:(lia)).
  destruct (wait_state_start (mm booted) 1 ltac:(lia) Hs) as [W1 W2 _ _].
  split; [apply (so_free _ _ _ Hs) | exact W1 | exact W2 | apply (so_wait_sem _ _ _ Hs) | by rewrite app_nil_r].
Qed.

Lemma booted_returns : returns_at (mm booted) 1 [] [] /\ ret_pool (mm booted) (seqZ 0 20) /\
  sem_count (mm booted) (sock_of 1 + 1132) = 1.
Proof.
  destruct booted_init as [[Hs Hg _ Hp] _]. specialize (Hp 0 1 1 ltac:(lia) ltac:(lia) ltac:(lia)). change (getShareSeq 0 1 1) with (ret_seq 1) in Hp.
  specialize (Hs 1 ltac:(lia)). specialize (Hg 1 ltac:(lia)). ands.
  - apply (returns_start _ 1); [lia | exact Hs | exact Hg | exact Hp].
  - pose proof (calls_inv_start 1 1 (mm booted) ltac:(lia) ltac:(lia) Hp (so_pipe_sem _ _ _ Hs)) as [H1 _ H2 H3 _ H4 _].
    split; [exact H1 | split; [exact H2 | split; [exact H3 | exact H4]]].
  - apply (so_return_empty _ _ _ Hs).
Qed.

Definition answer_fields (m : mem) (e : Z) : Prop :=
  ld16 m (e + 2) = 1 /\ ld16 m (e + 8) = 2 /\ ld32 m (e + 12) = 77 /\ ld32 m (e + 44) = 11 /\ ld32 m (e + 48) = 22.

Lemma answer_fields_frame m m' e : answer_fields m e ->
  (forall x, e <= x < e + 10 \/ e + 12 <= x < e + 52 -> ld8 m' x = ld8 m x) -> answer_fields m' e.
Proof.
  intros (H1 & H2 & H3 & H4 & H5) Ho. unfold answer_fields.
  rewrite !(ld_same _ m m') by (intros x Hx; apply Ho; lia). done.
Qed.

(** The entry is taken and filled. *)
Lemma answer_filled : exists m, fill_answer booted = Ret (ret_entry 1 0) (set_mm booted m) /\
  answer_fields m (ret_entry 1 0) /\ ld32 m 0xC300200C = 77 /\ ld16 m 0xC3002002 = 1 /\
  waiters m (sock_of 1) (wait_objs (sock_of 1) 20) [] /\ returns_at m 1 [] [] /\ ret_pool m (seqZ 1 19) /\
  sem_count m (sock_of 1 + 1132) = 1.
Proof.
  destruct booted_returns as (R & P & E). pose proof booted_waiters as W.
  assert (Ee : ret_entry 1 0 = 0xF1001E98) by reflexivity. assert (Es : sock_of 1 = 0xBF0A5380) by reflexivity.
  assert (Eq : ret_seq 1 = 0xF1001D30) by reflexivity. pose proof (ret_entry_at 1) as Eall.
  assert (H : wp fill_answer (fun r w' => r = ret_entry 1 0 /\ exists m, w' = set_mm booted m /\
      answer_fields m (ret_entry 1 0) /\ ld32 m 0xC300200C = 77 /\ ld16 m 0xC3002002 = 1 /\
      call_pool m (ret_seq 1) (seqZ 1 19) /\
      forall x, ~ (ret_seq 1 + 120 <= x < ret_seq 1 + 132) -> ~ (ret_entry 1 0 <= x < ret_entry 1 0 + 4) ->
        ~ (ret_entry 1 0 + 8 <= x < ret_entry 1 0 + 104) -> ~ (0xC3002000 <= x < 0xC3002068) -> ld8 m x = ld8 (mm booted) x) booted).
  { unfold fill_answer. eapply wp_call; [by apply (Comm_GetFreeCall_wp (ret_seq 1) (seqZ 0 20)), P|].
    change (seqZ 0 20) with (0 :: seqZ 1 19). intros r w' (-> & m1 & -> & Hp1 & _ & Ho1). change (call_entry (ret_seq 1) 0) with (ret_entry 1 0) in *.
    generalize dependent (mm booted). intros m0 R P E W Ho1.
    do 8 wp_step. split; [done|]. eexists. split; [reflexivity|]. unfold answer_fields.
    ands; try (memsimp; reflexivity).
    - apply (call_pool_entry m1 _ _ _ 0); [lia | | | done].
      + change (call_entry (ret_seq 1) 0) with (ret_entry 1 0). intros x X1 X2. rewrite !ld8_st_out by lia. done.
      + change (call_entry (ret_seq 1) 0) with (ret_entry 1 0). rewrite !ld_st_ne by lia. apply (cp_slot _ _ _ Hp1 0). lia.
    - intros x X1 X2 X3 X4. rewrite !ld8_st_out by lia. apply Ho1; lia. }
  destruct (wp_run _ _ _ H) as (r & w' & Er & -> & m & -> & F1 & F2 & F3 & F4 & F5). exists m.
  split; [exact Er|]. split; [exact F1|]. split; [exact F2|]. split; [exact F3|]. ands.
  - apply (waiters_frame (mm booted)); [exact W | intros x Hx; apply F5; lia].
  - destruct R as [Hf Hl Hit Hjs Hon Hslot]. split; [| | exact Hit | exact Hjs | exact Hon |]; unfold ret_fifo, ret_list in *.
    + apply (fifo_at_frame Hf); [intros x Hx; apply F5; lia | intros i x Hi; simpl in Hi; lia].
    + apply (msg_list_same _ _ _ (mm booted)); [exact Hl | intros x Hx; apply F5; lia | intros e x He; exfalso; exact (not_elem_of_nil e He)].
    + intros j Hj. apply (cp_slot _ _ _ F4 j Hj).
  - destruct P as (_ & P2 & P3 & P4). unfold ret_pool. split; [exact F4|]. split; [rewrite F5 by lia; exact P2|]. split; [rewrite F5 by lia; exact P3|].
    rewrite <- P4. apply ld_same. intros x Hx. apply F5; lia.
  - rewrite <- E. apply ld_same. intros x Hx. apply F5; lia.
Qed.

(** The answer in entry 0 arrives. *)
Lemma answer_arrives m1 o free ps : ret_entry 1 0 = 0xF1001E98 -> sock_of 1 = 0xBF0A5380 -> ret_seq 1 = 0xF1001D30 ->
  pending (set_mm booted m1) 0xC3002000 0xC3004000 77 o free [] [] [] [] ps -> answer_fields m1 (ret_entry 1 0) ->
  wp (AddReturn2Fifo (ret_seq 1 + 32) (ret_entry 1 0) ;; mret tt) (fun _ w' =>
    pending w' 0xC3002000 0xC3004000 77 o free [] [] [Ours 0] [] ps /\ answer_fields (mm w') (ret_entry 1 0)) (set_mm booted m1).
Proof.
  intros Ee Es Eq [H1 H2 H3 H4 H5 H6 H7 H8 H9] F. rewrite mm_set_mm in *. pose proof (ret_entry_at 1) as Eall.
  eapply wp_call.
  { apply (AddReturn2Fifo_wp 1 0 [] [] (set_mm booted m1)); [lia | exact H5 | lia | apply not_elem_of_nil | simpl; lia]. }
  rewrite mm_set_mm. intros r w' (_ & m2 & -> & R2 & Ho). wp_step. rewrite ?mm_set_mm. split.
  - split; rewrite ?mm_set_mm; [lia | | | | exact R2 | | | exact H8 | exact H9].
    + rewrite <- H2. apply ld_same. intros x Hx. apply Ho; lia.
    + rewrite <- H3. apply ld_same. intros x Hx. apply Ho; lia.
    + apply (my_wait_frame m1); [exact H4 | intros x Hx; apply Ho; lia].
    + etransitivity; [|exact H6]. apply ld_same. intros x Hx. apply Ho; lia.
    + apply (ret_pool_frame m1); [exact H7 | intros x Hx; apply Ho; lia | intros j x Hj Hx; specialize (Eall j); apply Ho; lia].
  - apply (answer_fields_frame m1); [exact F | intros x Hx; apply Ho; lia].
Qed.

Lemma answer_world_pending ans :
  pending (answer_world ans) 0xC3002000 0xC3004000 77 (wait_obj (sock_of 1) 0) (map (wait_obj (sock_of 1)) (seqZ 1 19)) [] []
    (if ans then [Ours 0] else []) [] (seqZ 1 19) /\ answer_fields (mm (answer_world ans)) (ret_entry 1 0).
Proof.
  destruct answer_filled as (m & E & F & F1 & F2 & W & R & P & Lk).
  assert (Ee : ret_entry 1 0 = 0xF1001E98) by reflexivity. assert (Es : sock_of 1 = 0xBF0A5380) by reflexivity.
  assert (Eq : ret_seq 1 = 0xF1001D30) by reflexivity. assert (Ec : call_entry call_seq 0 = 0xF1002820) by reflexivity.
  pose proof (ret_entry_at 1) as Eall. pose proof (cur_pid booted) as _.
  assert (H : wp (answer_prog ans) (fun _ w' => pending w' 0xC3002000 0xC3004000 77 (wait_obj (sock_of 1) 0)
    (map (wait_obj (sock_of 1)) (seqZ 1 19)) [] [] (if ans then [Ours 0] else []) [] (seqZ 1 19) /\
    answer_fields (mm w') (ret_entry 1 0)) booted).
  { unfold answer_prog. eapply wp_eq; [exact E|]. unfold wait_objs in W. change (seqZ 0 20) with (0 :: seqZ 1 19) in W.
    eapply wp_call; [apply (attach_wait_wp 1 (call_entry call_seq 0) 77 0 _ _ _ (set_mm booted m) ltac:(lia) W)|].
    { rewrite Ec. change ShMemAddrBase with 0xF1000000. lia. }
    { rewrite Ec. change ShMemAddrBase with 0xF1000000. change ShMemSize with 0x500000. lia. }
    { lia. }
    { rewrite booted_world. change (0 <= 1234 < 2 ^ 32). lia. }
    rewrite mm_set_mm. intros r w' (-> & m1 & -> & W1 & S1 & _ & _ & _ & _ & Ho1). rewrite set_mm_set_mm.
    assert (Ho : forall x, ~ (sock_of 1 + 88 <= x < sock_of 1 + 932) -> ~ (0xF1002820 <= x < 0xF1002888) -> ld8 m1 x = ld8 m x).
    { intros x X1 X2. apply Ho1; [exact X1 | lia | intros _; lia]. }
    pose proof (answer_fields_frame m m1 _ F ltac:(intros x Hx; apply Ho; lia)) as Fm.
    assert (Hpe : pending (set_mm booted m1) 0xC3002000 0xC3004000 77 (wait_obj (sock_of 1) 0)
      (map (wait_obj (sock_of 1)) (seqZ 1 19)) [] [] [] [] (seqZ 1 19)).
    { split; rewrite ?mm_set_mm.
      - lia.
      - rewrite <- F1. apply ld_same. intros x Hx. apply Ho; lia.
      - rewrite <- F2. apply ld_same. intros x Hx. apply Ho; lia.
      - split; [lia | exact W1 | exact S1 | apply Forall_nil_2].
      - apply (returns_at_frame m); [exact R | intros x Hx; apply Ho; lia | intros j x Hj Hx _; specialize (Eall j); apply Ho; lia].
      - etransitivity; [|exact Lk]. apply ld_same. intros x Hx. apply Ho; lia.
      - apply (ret_pool_frame m); [exact P | intros x Hx; apply Ho; lia | intros j x Hj Hx; specialize (Eall j); apply Ho; lia].
      - unfold private. change ShMemAddrBase with 0xF1000000. change s_CommSockt with 0xBF0A4000. unfold COMM_SOCKET_SIZE. lia.
      - right. unfold private. change ShMemAddrBase with 0xF1000000. change s_CommSockt with 0xBF0A4000.
        change pcpu_comm_dev with 0xC2000000. unfold COMM_SOCKET_SIZE. lia. }
    destruct ans; [|wp_step; split; [exact Hpe | exact Fm]].
    by apply answer_arrives. }
  unfold answer_world, after. destruct (wp_run _ _ _ H) as (r & w' & -> & Hp). exact Hp.
Qed.

(** ** Properties *)

(** C15: A synchronous call gets its answer: when a return of the caller's session has arrived - wherever
    it stands among those listed and those still queued - [CPUComm_CallEx] after the send returns 0, the
    caller's buffer holds the number of values (at most ten) and the values of the first such return,
    all other returns stay for their callers in order of arrival, the entry of the return is free again
    and the caller's wait object is back in the pool while every other waiting caller stays listed. *)
Theorem call_returns_answer {S : Shm} {OK : ShmOk S} {K : Kernel} {L : SemLaws K} {HQ : Quiet K} {HT : Timed K} {J : Jiffies}
    w msg result sid o free es1 es2 q js ps l1 j l2 :
  pending w msg result sid o free es1 es2 q js ps ->
  js ++ ours q = l1 ++ j :: l2 -> ld32 (mm w) (ret_entry 1 j + 12) = sid ->
  Forall (fun i => ld32 (mm w) (ret_entry 1 i + 12) <> sid) l1 ->
  ld16 (mm w) (ret_entry 1 j + 2) = 1 -> Z.of_nat (length ps) < 20 ->
  exists m', await_return msg result w = Ret 0 (set_mm w m') /\
    result_of (mm w) m' (ret_entry 1 j) result /\ returns_at m' 1 [] (l1 ++ l2) /\
    call_pool m' (ret_seq 1) (ps ++ [j]) /\ waiters m' (sock_of 1) (free ++ [o]) (es1 ++ es2).
Proof.
  intros H E Es Hl1 Esrc Hps.
  destruct (wp_run _ _ _ (await_answer_wp w msg result sid o free es1 es2 q js ps l1 j l2 H E Es Hl1 Esrc Hps))
    as (r & w' & Er & -> & m' & -> & H1).
  exists m'. split; [exact Er | exact H1].
Qed.

Lemma result_of_two m0 m e r a b : result_of m0 m e r -> ld16 m0 (e + 8) = 2 -> ld32 m0 (e + 44) = a -> ld32 m0 (e + 48) = b ->
  ld32 m r = 2 /\ ld32 m (r + 4) = a /\ ld32 m (r + 8) = b.
Proof.
  unfold result_of. intros H E <- <-. rewrite E in H. change (2 <=? 10) with true in H. cbv iota in H. destruct H as [H0 H].
  split; [done|]. replace (e + 48) with (e + 44 + 4 * 1) by lia. rewrite <- (Z.add_0_r (e + 44)) at 1.
  split; [apply (H 0); lia | apply (H 1); lia].
Qed.

Lemma call_returns_answer_witness : exists m',
  await_return 0xC3002000 0xC3004000 (answer_world true) = Ret 0 (set_mm (answer_world true) m') /\
  ld32 m' 0xC3004000 = 2 /\ ld32 m' 0xC3004004 = 11 /\ ld32 m' 0xC3004008 = 22.
Proof.
  destruct (answer_world_pending true) as [Hp (F1 & F2 & F3 & F4 & F5)].
  destruct (call_returns_answer (answer_world true) 0xC3002000 0xC3004000 77 (wait_obj (sock_of 1) 0)
    (map (wait_obj (sock_of 1)) (seqZ 1 19)) [] [] [Ours 0] [] (seqZ 1 19) [] 0 []) as (m' & E & Hr & _).
  - exact Hp.
  - reflexivity.
  - exact F3.
  - apply Forall_nil_2.
  - exact F1.
  - rewrite length_seqZ. lia.
  - exists m'. split; [exact E | exact (result_of_two _ _ _ _ _ _ Hr F2 F4 F5)].
Defined.

(** C33: A call whose answer never comes reports success: when no return of the caller's session arrived
    by the end of the half-second wait, [CPUComm_CallEx] after the send returns 0 all the same and leaves
    the caller's result buffer exactly as it was; the wait object goes back to the pool, the returns of
    other sessions stay. *)
Theorem call_without_answer {S : Shm} {OK : ShmOk S} {K : Kernel} {L : SemLaws K} {HQ : Quiet K} {HT : Timed K} {J : Jiffies}
    w msg result sid o free es1 es2 q js ps :
  pending w msg result sid o free es1 es2 q js ps ->
  Forall (fun i => ld32 (mm w) (ret_entry 1 i + 12) <> sid) (js ++ ours q) ->
  exists m', await_return msg result w = Ret 0 (set_mm w m') /\
    (forall x, result <= x < result + 44 -> ld8 m' x = ld8 (mm w) x) /\ returns_at m' 1 [] (js ++ ours q) /\
    waiters m' (sock_of 1) (free ++ [o]) (es1 ++ es2).
Proof.
  intros H Hn. destruct (wp_run _ _ _ (await_nothing_wp w msg result sid o free es1 es2 q js ps H Hn))
    as (r & w' & Er & -> & m' & -> & H1 & H2 & _ & H3).
  exists m'. split; [exact Er|]. split; [exact H1|]. split; [exact H2 | exact H3].
Qed.

Lemma call_without_answer_witness : exists m',
  await_return 0xC3002000 0xC3004000 (answer_world false) = Ret 0 (set_mm (answer_world false) m') /\
  (forall x, 0xC3004000 <= x < 0xC300402C -> ld8 m' x = ld8 (mm (answer_world false)) x).
Proof.
  destruct (answer_world_pending false) as [Hp _].
  destruct (call_without_answer (answer_world false) 0xC3002000 0xC3004000 77 (wait_obj (sock_of 1) 0)
    (map (wait_obj (sock_of 1)) (seqZ 1 19)) [] [] [] [] (seqZ 1 19)) as (m' & E & Hr & _).
  - exact Hp.
  - apply Forall_nil_2.
  - exists m'. split; [exact E|]. intros x Hx. apply Hr. lia.
Defined.
