(* ===== verification/FdPool.v ===== *)
(** The component pool behind /dev/cpu_comm_fd: [comm_fd_ioctl] of
    [cpu_comm_dev.c], one definition per command and sub-command.

    The pool lies in the shared region: a header word with the pool's spinlock,
    forty 816-byte slots, and a trailer with the number of free slots and the
    one shared buffer.  [buf] is the address of the handler's local buffer,
    [arg] the user's; [clock k] is what the [k]-th reading of jiffies gives. *)
From S2P Require Import Prelude Mem Kernel Fifo Shm SpinLock SeqMem Smm Routine Msgbox UserQueue Proto.

Definition EEXIST : Z := 17.
Definition ENOTTY : Z := 25.
Definition ENOSPC : Z := 28.

Definition IOCTL_FD_COMPONENT : Z := 0xC0047F40.
Definition IOCTL_FD_LOCK : Z := 0xC0047F41.
Definition IOCTL_FD_MID2VIR : Z := 0xC0047F42.
Definition IOCTL_FD_ADDLISTENER : Z := 0xC0047F43.
Definition IOCTL_FD_REMOVELISTENER : Z := 0xC0047F44.
Definition IOCTL_FD_SHMEM_BUF : Z := 0xC0047F45.
Definition IOCTL_FD_EVENT : Z := 0xC0047F46.
Definition IOCTL_FD_MSGADDLISTENER : Z := 0xC0047F47.
Definition IOCTL_FD_MSGRMLISTENER : Z := 0xC0087F48.

Definition COMP_POOL_ENTRY_SIZE : Z := 816.
Definition COMP_POOL_MAX_SLOTS : Z := 40.
Definition COMP_POOL_MAX_LISTENERS : Z := 16.

(** A C string: the bytes before the first NUL. *)
Fixpoint c_text (l : list Z) : list Z :=
  match l with
  | [] => []
  | c :: l' => if c =? 0 then [] else c :: c_text l'
  end.

(** [time_before(a, b)] on 32-bit jiffies. *)
Definition time_before (a b : Z) : bool := s32 (a - b) <? 0.

Section FdPool.
Context {S : Shm} {K : Kernel} {U : Uaccess} {J : Jiffies}.

Definition comp_entry (i : Z) : Z := getComponentPool + COMP_POOL_ENTRY_SIZE * i.
Definition free_slots : Z := getComponentPool + 4 * 8162.
Definition shmem_mid : Z := getComponentPool + 4 * 8164.
Definition shmem_size : Z := getComponentPool + 4 * 8166.

(** The scans of the forty slots. *)
Definition find_registered (name : list Z) : M (option Z) :=
  for_exit (Z.to_nat COMP_POOL_MAX_SLOTS) 0 (fun i =>
    let entry := comp_entry i in
    reg ← rd8 (entry + 9);
    if reg =? 0 then mret None else
    eq ← gets (fun w => str_same 15 (mm w) (entry + 11) name);
    mret (if (eq : bool) then Some i else None)).

Definition find_free_slot : M (option Z) :=
  for_exit (Z.to_nat COMP_POOL_MAX_SLOTS) 0 (fun i =>
    let entry := comp_entry i in
    count ← rd8 (entry + 8);
    if negb (count =? 0) then mret None else
    reg ← rd8 (entry + 9);
    mret (if reg =? 0 then Some i else None)).

Definition fill_slot (slot comp_flags : Z) (name : list Z) : M unit :=
  let entry := comp_entry slot in
  strncpy (entry + 11) (c_text name) 15 ;;
  wr8 (entry + 8) 1 ;;
  wr8 (entry + 9) 1 ;;
  wr8 (entry + 10) slot ;;
  wr16 (entry + 28) getCurCPUID ;;
  index ← rd8 (entry + 10);
  wr32 (entry + 44) index ;;
  wr32 (entry + 40) comp_flags ;;
  lock ← rd32 (entry + 32);
  (if lock =? 255 then id ← comm_ReqestSpinLock; wr32 (entry + 32) id else mret tt) ;;
  n ← rd32 free_slots;
  wr32 free_slots (n - 1).

Definition fd_create (buf : Z) (name : list Z) : M unit :=
  pool_spin ← rd32 getComponentPool;
  comp_flags ← rd32 (buf + 24);
  comm_SpinLockMutex pool_spin ;;
  dup ← find_registered name;
  match dup with
  | Some _ => comm_SpinUnLock pool_spin ;; wr32 (buf + 20) (-1)
  | None =>
      slot ← find_free_slot;
      match slot with
      | None => comm_SpinUnLock pool_spin ;; wr32 (buf + 20) (-1)
      | Some slot =>
          fill_slot slot comp_flags name ;;
          wr32 (buf + 20) slot ;;
          comm_SpinUnLock pool_spin
      end
  end.

(** One round of the wait; [k] counts the readings of the clock. *)
Definition attach_round (clock : nat -> Z) (timeout_ms timeout_j : Z) (name : list Z) (k : nat) : M (nat + Z) :=
  pool_spin ← rd32 getComponentPool;
  comm_SpinLockMutex pool_spin ;;
  found ← find_registered name;
  match found with
  | Some i =>
      let base := comp_entry i in
      comp_spin ← rd32 (base + 32);
      comm_SpinLockMutex comp_spin ;;
      c ← rd8 (base + 8);
      wr8 (base + 8) (c + 1) ;;
      comm_SpinUnLock comp_spin ;;
      pool_spin' ← rd32 getComponentPool;
      comm_SpinUnLock pool_spin' ;;
      mret (inr i)
  | None =>
      pool_spin' ← rd32 getComponentPool;
      comm_SpinUnLock pool_spin' ;;
      k_msleep 2 ;;
      mret (if (timeout_ms =? 0) || time_before (clock k) timeout_j
            then inl (Datatypes.S k) else inr (-1))
  end.

Definition fd_attach (clock : nat -> Z) (buf : Z) (name : list Z) : M unit :=
  timeout_ms ← rd32 (buf + 28);
  let timeout_j := u32 (clock 0%nat + msecs_to_jiffies timeout_ms) in
  found ← loop wait_fuel (attach_round clock timeout_ms timeout_j name) 1%nat;
  wr32 (buf + 20) found.

(** The slot of a component that nobody holds and nobody listens to. *)
Definition clear_slot (base : Z) : M unit :=
  wr16 (base + 28) 2 ;;
  wr8 (base + 11) 0 ;;
  wr8 (base + 9) 0 ;;
  wr64 (base + 40) 0 ;;
  n ← rd32 free_slots;
  wr32 free_slots (n + 1) ;;
  n' ← rd32 free_slots;
  if n' =? COMP_POOL_MAX_SLOTS then
    mid ← rd64 shmem_mid;
    size ← rd32 shmem_size;
    if negb (mid =? 0) && negb (size =? 0) then
      Trid_SMM_Free (u32 mid) ;;
      wr64 shmem_mid 0 ;;
      wr32 shmem_size 0
    else mret tt
  else mret tt.

Definition fd_detach (buf : Z) : M (option Z) :=
  comp_idx ← rd32 (buf + 20);
  if COMP_POOL_MAX_SLOTS <=? comp_idx then mret (Some (- EINVAL)) else
  let base := comp_entry comp_idx in
  c ← rd8 (base + 8);
  if c =? 0 then mret (Some (- EINVAL)) else
  comp_spin ← rd32 (base + 32);
  if comp_spin =? 255 then mret (Some (- EINVAL)) else
  pool_spin ← rd32 getComponentPool;
  comm_SpinLockMutex pool_spin ;;
  comm_SpinLockMutex comp_spin ;;
  c ← rd8 (base + 8);
  wr8 (base + 8) (c - 1) ;;
  ret ← (if u8 (c - 1) =? 0 then
    listeners ← rd32 (base + 48);
    (if listeners =? 0 then clear_slot base else mret tt) ;;
    mret 1
  else mret 0);
  comm_SpinUnLock comp_spin ;;
  pool_spin' ← rd32 getComponentPool;
  comm_SpinUnLock pool_spin' ;;
  wr32 (buf + 24) ret ;;
  mret None.

(** A handler's end: copy the buffer out. *)
Definition copy_out (arg buf : Z) (n : nat) : M Z :=
  data ← gets (fun w => bytes n (mm w) buf);
  fault ← copy_to_user arg data;
  mret (if (fault : bool) then - EFAULT else 0).

(** [Some e]: the handler returns [e] before it copies anything out. *)
Definition finish (arg buf : Z) (n : nat) (e : option Z) : M Z :=
  match e with Some err => mret err | None => copy_out arg buf n end.

(** Its beginning: copy the buffer in. *)
Definition with_buf (arg buf : Z) (n : nat) (k : M Z) : M Z :=
  fault ← copy_from_user buf arg n;
  if (fault : bool) then mret (- EFAULT) else k.

Definition fd_component (clock : nat -> Z) (arg buf : Z) : M Z :=
  with_buf arg buf 36 (
    sub_cmd ← rd32 (buf + 16);
    name ← gets (fun w => bytes 15 (mm w) buf ++ [0]);
    if sub_cmd =? 0 then fd_create buf name ;; copy_out arg buf 36
    else if sub_cmd =? 1 then fd_attach clock buf name ;; copy_out arg buf 36
    else if sub_cmd =? 2 then
      e ← fd_detach buf;
      finish arg buf 36 e
    else mret (- EINVAL)).

(** The spinlock a request names, or an error. *)
Definition fd_spinlock_id (pool_type index : Z) : M (Z + Z) :=
  if pool_type =? 0 then
    if COMP_POOL_MAX_SLOTS <=? index then mret (inr (- EINVAL)) else
    id ← rd32 (comp_entry index + 32);
    mret (if 11 <? id then inr (- EINVAL) else inl id)
  else if pool_type =? 1 then id ← rd32 (getMsgPool + 4); mret (inl id)
  else mret (inr (- EINVAL)).

Definition fd_lock (arg buf : Z) : M Z :=
  with_buf arg buf 12 (
    pool_type ← rd32 buf;
    index ← rd32 (buf + 4);
    r ← fd_spinlock_id pool_type index;
    match r with
    | inr err => mret err
    | inl spinlock_id =>
        op ← rd32 (buf + 8);
        (if negb (op =? 0) then comm_SpinLockMutex spinlock_id else comm_SpinUnLock spinlock_id) ;;
        mret 0
    end).

Definition fd_mid2vir (arg buf : Z) : M Z :=
  with_buf arg buf 12 (
    pool_type ← rd32 buf;
    index ← rd32 (buf + 4);
    if (pool_type =? 0) && (COMP_POOL_MAX_SLOTS <=? index) then mret (- EINVAL) else
    if negb ((pool_type =? 0) || (pool_type =? 1)) then mret (- EINVAL) else
    let ptr := if pool_type =? 0 then comp_entry index + 8 else getMsgPool in
    wr32 (buf + 8) (Mid2Vir getCurCPUID ptr) ;;
    copy_out arg buf 12).

(** *** Listeners: sixteen 48-byte entries at +56 of a slot *)

Definition listener_at (base i : Z) : Z := base + 56 + 48 * i.

(** The entry of the calling process with this callback and event mask. *)
Definition find_listener (base callback event_mask : Z) : M (option Z) :=
  tgid ← gets cur_tgid;
  for_exit (Z.to_nat COMP_POOL_MAX_LISTENERS) 0 (fun i =>
    let l := listener_at base i in
    cb ← rd64 (l + 8);
    if negb (cb =? callback) then mret None else
    mask ← rd32 (l + 16);
    if negb (mask =? event_mask) then mret None else
    owner ← rd32 (l + 40);
    mret (if owner =? u32 tgid then Some l else None)).

Definition find_free_listener (base : Z) : M (option Z) :=
  for_exit (Z.to_nat COMP_POOL_MAX_LISTENERS) 0 (fun i =>
    let l := listener_at base i in
    cb ← rd64 (l + 8);
    mret (if cb =? 0 then Some l else None)).

Definition fill_listener (l buf : Z) : M unit :=
  v ← rd32 (buf + 4); wr32 l v ;;
  v ← rd32 buf; wr32 (l + 4) v ;;
  v ← rd64 (buf + 8); wr64 (l + 8) v ;;
  v ← rd32 (buf + 16); wr32 (l + 16) v ;;
  v ← rd64 (buf + 24); wr64 (l + 24) v ;;
  v ← rd64 (buf + 32); wr64 (l + 32) v ;;
  tgid ← gets cur_tgid;
  wr32 (l + 40) tgid.

Definition add_listener_locked (base buf : Z) : M Z :=
  callback ← rd64 (buf + 8);
  mask ← rd32 (buf + 16);
  dup ← find_listener base callback mask;
  match dup with
  | Some _ => mret (- EEXIST)
  | None =>
      slot ← find_free_listener base;
      match slot with
      | None => mret (- ENOSPC)
      | Some l =>
          fill_listener l buf ;;
          n ← rd32 (base + 48); wr32 (base + 48) (n + 1) ;;
          v ← rd32 (base + 52); wr32 (base + 52) (v + 1) ;;
          mret 0
      end
  end.

Definition add_listener (buf : Z) : M (option Z) :=
  comp_idx ← rd32 buf;
  if COMP_POOL_MAX_SLOTS <=? comp_idx then mret (Some (- EINVAL)) else
  let base := comp_entry comp_idx in
  comp_spin ← rd32 (base + 32);
  n ← rd32 (base + 48);
  ret ← (if COMP_POOL_MAX_LISTENERS <=? n then mret (- ENOSPC)
         else
           comm_SpinLockMutex comp_spin ;;
           ret ← add_listener_locked base buf;
           comm_SpinUnLock comp_spin ;;
           mret ret);
  wr32 (buf + 60) ret ;;
  mret None.

Definition fd_addlistener (arg buf : Z) : M Z :=
  with_buf arg buf 64 (e ← add_listener buf; finish arg buf 64 e).

Definition clear_listener (base l : Z) : M unit :=
  v ← rd32 (base + 52); wr32 (base + 52) (v + 1) ;;
  wr32 l 0 ;;
  wr64 (l + 8) 0 ;;
  wr32 (l + 16) 0 ;;
  wr64 (l + 24) 0 ;;
  wr64 (l + 32) 0 ;;
  wr32 (l + 40) 0 ;;
  n ← rd32 (base + 48); wr32 (base + 48) (n - 1) ;;
  v ← rd32 (base + 52); wr32 (base + 52) (v + 1).

Definition remove_listener (buf : Z) : M (option Z) :=
  comp_idx ← rd32 buf;
  if COMP_POOL_MAX_SLOTS <=? comp_idx then mret (Some (- EINVAL)) else
  let base := comp_entry comp_idx in
  comp_spin ← rd32 (base + 32);
  comm_SpinLockMutex comp_spin ;;
  callback ← rd64 (buf + 4);
  mask ← rd32 (buf + 8);
  found ← find_listener base callback mask;
  (match found with Some l => clear_listener base l | None => mret tt end) ;;
  comm_SpinUnLock comp_spin ;;
  wr32 (buf + 12) (match found with Some _ => 0 | None => - ENOENT end) ;;
  mret None.

Definition fd_removelistener (arg buf : Z) : M Z :=
  with_buf arg buf 16 (e ← remove_listener buf; finish arg buf 16 e).

(** *** The shared buffer *)

Definition shmem_alloc (buf : Z) : M unit :=
  existing_mid ← rd64 shmem_mid;
  (if negb (existing_mid =? 0) then
     size ← rd32 shmem_size;
     want ← rd32 (buf + 4);
     if want <=? size then wr32 buf (u32 existing_mid)
     else
       Trid_SMM_Free (u32 existing_mid) ;;
       wr64 shmem_mid 0 ;;
       wr32 shmem_size 0
   else mret tt) ;;
  mid ← rd64 shmem_mid;
  if mid =? 0 then
    want ← rd32 (buf + 4);
    mid ← Trid_SMM_Malloc want;
    wr64 shmem_mid (u32 mid) ;;
    wr32 shmem_size (if u32 mid =? 0 then 0 else want) ;;
    wr32 buf mid
  else mret tt.

Definition shmem_free : M unit :=
  mid ← rd64 shmem_mid;
  (if negb (mid =? 0) then Trid_SMM_Free (u32 mid) ;; mret tt else mret tt) ;;
  wr64 shmem_mid 0 ;;
  wr32 shmem_size 0.

Definition fd_shmem_buf (arg buf : Z) : M Z :=
  with_buf arg buf 12 (
    pool_spin ← rd32 getComponentPool;
    comm_SpinLockMutex pool_spin ;;
    op ← rd32 (buf + 8);
    (if negb (op =? 0) then shmem_alloc buf else shmem_free) ;;
    pool_spin' ← rd32 getComponentPool;
    comm_SpinUnLock pool_spin' ;;
    copy_out arg buf 12).

(** *** Events: 32 names and 32 flags of the message pool *)

Definition event_flag (i : Z) : Z := getMsgPool + 4 * (i + 258).
Definition event_name (i : Z) : Z := getMsgPool + 8 + 32 * i.

Definition msg_add_event (buf : Z) : M Z :=
  incr getMsgPool ;;
  known ← msgEventName2Index;
  ret ← (if 0 <=? known then mret (-1) else
    name ← gets (fun w => bytes 32 (mm w) buf);
    r ← for_exit 32 0 (fun idx =>
      f ← rd32 (event_flag idx);
      if f =? 0 then
        wr32 (event_flag idx) 1 ;;
        strncpy (event_name idx) (c_text name) 32 ;;
        mret (Some idx)
      else mret None);
    mret (default (-1) r));
  incr getMsgPool ;;
  mret ret.

Definition msg_remove_event (event_idx : Z) : M Z :=
  if event_idx <? 32 then
    f ← rd32 (event_flag event_idx);
    if negb (f =? 0) then
      wr32 (event_flag event_idx) 0 ;;
      incr getMsgPool ;;
      mret 0
    else mret (-1)
  else mret (-1).

Definition fd_event (arg buf : Z) : M Z :=
  with_buf arg buf 40 (
    sub_cmd ← rd32 (buf + 32);
    msg_spin ← rd32 (getMsgPool + 4);
    if sub_cmd =? 0 then
      comm_SpinLockMutex msg_spin ;;
      ret ← msg_add_event buf;
      comm_SpinUnLock msg_spin ;;
      wr32 (buf + 36) ret ;;
      copy_out arg buf 40
    else if sub_cmd =? 1 then
      event_idx ← rd32 (buf + 36);
      comm_SpinLockMutex msg_spin ;;
      ret ← msg_remove_event event_idx;
      comm_SpinUnLock msg_spin ;;
      wr32 (buf + 36) ret ;;
      copy_out arg buf 40
    else if sub_cmd =? 2 then
      ret ← msgEventName2Index;
      wr32 (buf + 36) ret ;;
      copy_out arg buf 40
    else mret (- EINVAL)).

Definition fd_msgaddlistener (arg buf : Z) : M Z :=
  with_buf arg buf 24 (
    result ← msgAddListener;
    wr16 buf result ;;
    copy_out arg buf 24).

(** [put_user(x, p)] of four bytes *)
Definition put_user32 (v p : Z) : M bool :=
  copy_to_user p (bytes 4 (st32 ∅ 0 v) 0).

Definition fd_msgrmlistener (arg : Z) : M Z :=
  val ← get_user 4 arg;
  match val with
  | None => mret (- EFAULT)
  | Some _ =>
      ret ← msgRemoveListener;
      fault ← put_user32 ret arg;
      mret (if (fault : bool) then - EFAULT else 0)
  end.

Definition comm_fd_ioctl (clock : nat -> Z) (cmd arg buf : Z) : M Z :=
  if ShMemAddrBase =? 0 then mret (- ENODEV) else
  if getComponentPool =? 0 then mret (- ENODEV) else
  if cmd =? IOCTL_FD_COMPONENT then fd_component clock arg buf
  else if cmd =? IOCTL_FD_LOCK then fd_lock arg buf
  else if cmd =? IOCTL_FD_MID2VIR then fd_mid2vir arg buf
  else if cmd =? IOCTL_FD_ADDLISTENER then fd_addlistener arg buf
  else if cmd =? IOCTL_FD_REMOVELISTENER then fd_removelistener arg buf
  else if cmd =? IOCTL_FD_SHMEM_BUF then fd_shmem_buf arg buf
  else if cmd =? IOCTL_FD_EVENT then fd_event arg buf
  else if cmd =? IOCTL_FD_MSGADDLISTENER then fd_msgaddlistener arg buf
  else if cmd =? IOCTL_FD_MSGRMLISTENER then fd_msgrmlistener arg
  else mret (- ENOTTY).
End FdPool.
