(* ===== verification/FdSpec.v ===== *)
(** What the component pool means: forty slots, each with the component that is
    registered in it (name and count), its spinlock and its listeners.
    [pool_rel] ties the bytes of the pool to such a state; the requests are
    functions on states, and each part of the handlers is proved against them. *)
From S2P Require Import Prelude Mem Kernel Fifo Shm SpinLock SeqMem Smm Routine Msgbox UserQueue Proto FdPool.

(** ** Finite families: how many members are there *)

Definition fset {A} (f : Z -> A) (i : Z) (v : A) : Z -> A := fun j => if j =? i then v else f j.

Lemma fset_eq {A} (f : Z -> A) i v : fset f i v i = v.
Proof. unfold fset. by rewrite Z.eqb_refl. Qed.

Lemma fset_ne {A} (f : Z -> A) i v j : j <> i -> fset f i v j = f j.
Proof. intros H. unfold fset. by rewrite eqb_neq_false. Qed.

Definition b2z (b : bool) : Z := if b then 1 else 0.

Fixpoint tally (p : Z -> bool) (n : nat) (i : Z) : Z :=
  match n with O => 0 | Datatypes.S k => b2z (p i) + tally p k (i + 1) end.

Lemma tally_range p n i : 0 <= tally p n i <= Z.of_nat n.
Proof.
  revert i. induction n as [|n IH]; intros i; simpl tally; [lia|].
  pose proof (IH (i + 1)). unfold b2z. destruct (p i); lia.
Qed.

Lemma tally_ext p q n i :
  (forall j, i <= j < i + Z.of_nat n -> p j = q j) -> tally p n i = tally q n i.
Proof.
  revert i. induction n as [|n IH]; intros i H; simpl; [done|].
  rewrite H by lia. f_equal. apply IH. intros. apply H. lia.
Qed.

(** Two families that differ at one place. *)
Lemma tally_change p q n i k : i <= k < i + Z.of_nat n ->
  (forall j, i <= j < i + Z.of_nat n -> j <> k -> p j = q j) ->
  tally q n i = tally p n i - b2z (p k) + b2z (q k).
Proof.
  revert i. induction n as [|n IH]; intros i Hk H; [lia|]. simpl.
  destruct (Z.eq_dec i k) as [->|Hne].
  - rewrite (tally_ext q p n (k + 1)); [lia|]. intros j Hj. symmetry. apply H; lia.
  - rewrite (IH (i + 1)); [rewrite (H i) by lia; lia | lia | intros; apply H; lia].
Qed.

Lemma tally_pos p n i k : i <= k < i + Z.of_nat n -> p k = true -> 0 < tally p n i.
Proof.
  revert i. induction n as [|n IH]; intros i Hk H; [lia|]. simpl. unfold b2z.
  pose proof (tally_range p n (i + 1)).
  destruct (Z.eq_dec i k) as [->|Hne]; [rewrite H; lia|].
  pose proof (IH (i + 1) ltac:(lia) H). destruct (p i); lia.
Qed.

Lemma tally_all p n i k : tally p n i = Z.of_nat n -> i <= k < i + Z.of_nat n -> p k = true.
Proof.
  revert i. induction n as [|n IH]; intros i Ht Hk; [lia|]. simpl in Ht. unfold b2z in Ht.
  pose proof (tally_range p n (i + 1)).
  destruct (p i) eqn:E; [|lia]. destruct (Z.eq_dec i k) as [->|]; [done|].
  apply (IH (i + 1)); lia.
Qed.

(** The first index with a property. *)
Fixpoint first (p : Z -> bool) (n : nat) (i : Z) : option Z :=
  match n with
  | O => None
  | Datatypes.S k => if p i then Some i else first p k (i + 1)
  end.

Lemma first_some p n i k : first p n i = Some k ->
  i <= k < i + Z.of_nat n /\ p k = true /\ forall j, i <= j < k -> p j = false.
Proof.
  revert i. induction n as [|n IH]; intros i H; simpl in H; [done|].
  destruct (p i) eqn:E.
  - injection H as <-. ands; [lia | lia | done | intros; lia].
  - destruct (IH _ H) as (H1 & H2 & H3). ands; [lia | lia | done |].
    intros j Hj. destruct (Z.eq_dec j i) as [->|]; [done | apply H3; lia].
Qed.

Lemma first_none p n i k : first p n i = None -> i <= k < i + Z.of_nat n -> p k = false.
Proof.
  revert i. induction n as [|n IH]; intros i H Hk; simpl in H; [lia|].
  destruct (p i) eqn:E; [done|]. destruct (Z.eq_dec k i) as [->|]; [done|]. apply (IH (i + 1)); [done | lia].
Qed.

Lemma first_ext p q n i :
  (forall j, i <= j < i + Z.of_nat n -> p j = q j) -> first p n i = first q n i.
Proof.
  revert i. induction n as [|n IH]; intros i H; simpl; [done|].
  rewrite H by lia. destruct (q i); [done|]. apply IH. intros. apply H. lia.
Qed.

(** A scan whose body only looks. *)
Lemma for_exit_first {R} (n : nat) i (body : Z -> M (option R)) (p : Z -> bool) (g : Z -> R) w :
  (forall j, i <= j < i + Z.of_nat n -> body j w = Ret (if p j then Some (g j) else None) w) ->
  for_exit n i body w = Ret (g <$> first p n i) w.
Proof.
  revert i. induction n as [|n IH]; intros i H; simpl; [done|].
  unfold mbind, M_bind. rewrite H by lia. destruct (p i); [done|].
  apply IH. intros. apply H. lia.
Qed.

(** ** The abstract pool *)

Record listener := Listener {
  l_flags : Z; l_type : Z; l_callback : Z; l_mask : Z; l_extra1 : Z; l_extra2 : Z; l_owner : Z;
}.

Record slot := Slot {
  s_comp : option (list Z * Z);       (* the registered component: name, attach count *)
  s_lock : Z;                         (* its spinlock, 255 for none *)
  s_listeners : Z -> option listener; (* sixteen places *)
}.

Definition is_some {A} (o : option A) : bool := match o with Some _ => true | None => false end.
Definition taken (a : Z -> slot) (i : Z) : bool := is_some (s_comp (a i)).
Definition listening (s : slot) (j : Z) : bool := is_some (s_listeners s j).
Definition n_listeners (s : slot) : Z := tally (listening s) 16 0.
Definition n_taken (a : Z -> slot) : Z := tally (taken a) 40 0.

Definition list_eqb (l k : list Z) : bool := bool_decide (l = k).
Lemma list_eqb_true l k : list_eqb l k = true <-> l = k.
Proof. unfold list_eqb. by rewrite bool_decide_eq_true. Qed.

Lemma bool_iff (b c : bool) : (b = true <-> c = true) -> b = c.
Proof. destruct b, c; intuition congruence. Qed.

Definition named (name : list Z) (s : slot) : bool :=
  match s_comp s with Some (n, _) => list_eqb n name | None => false end.

Definition a_find (name : list Z) (a : Z -> slot) : option Z := first (fun i => named name (a i)) 40 0.
Definition a_free (a : Z -> slot) : option Z := first (fun i => negb (taken a i)) 40 0.

(** Creating a component; [lk] is what a slot without a spinlock gets. *)
Definition a_create (name : list Z) (lk : Z) (a : Z -> slot) : Z * (Z -> slot) :=
  match a_find name a, a_free a with
  | Some _, _ => (-1, a)
  | None, None => (-1, a)
  | None, Some i =>
      (i, fset a i (Slot (Some (name, 1)) (if s_lock (a i) =? 255 then lk else s_lock (a i))
                         (s_listeners (a i))))
  end.

Definition a_attach (name : list Z) (a : Z -> slot) : Z * (Z -> slot) :=
  match a_find name a with
  | None => (-1, a)
  | Some i =>
      (i, match s_comp (a i) with
          | Some (n, c) => fset a i (Slot (Some (n, u8 (c + 1))) (s_lock (a i)) (s_listeners (a i)))
          | None => a
          end)
  end.

(** [None]: refused. *)
Definition a_detach (i : Z) (a : Z -> slot) : option (Z * (Z -> slot)) :=
  if 40 <=? i then None else
  match s_comp (a i) with
  | None => None
  | Some (n, c) =>
      if (c =? 0) || (s_lock (a i) =? 255) then None else
      let s c := Slot c (s_lock (a i)) (s_listeners (a i)) in
      if c =? 1
      then Some (1, fset a i (s (if n_listeners (a i) =? 0 then None else Some (n, 0))))
      else Some (0, fset a i (s (Some (n, c - 1))))
  end.

(** Listeners: the entry of process [t] with this callback and mask. *)
Definition is_listener (t callback mask : Z) (o : option listener) : bool :=
  match o with
  | Some l => (l_callback l =? callback) && (l_mask l =? mask) && (l_owner l =? t)
  | None => false
  end.
Definition a_listener (t callback mask : Z) (s : slot) : option Z :=
  first (fun j => is_listener t callback mask (s_listeners s j)) 16 0.
Definition a_free_place (s : slot) : option Z := first (fun j => negb (listening s j)) 16 0.

Definition set_listener (a : Z -> slot) (i j : Z) (o : option listener) : Z -> slot :=
  fset a i (Slot (s_comp (a i)) (s_lock (a i)) (fset (s_listeners (a i)) j o)).

Definition a_add (i : Z) (l : listener) (a : Z -> slot) : Z * (Z -> slot) :=
  if 16 <=? n_listeners (a i) then (- ENOSPC, a) else
  match a_listener (l_owner l) (l_callback l) (l_mask l) (a i), a_free_place (a i) with
  | Some _, _ => (- EEXIST, a)
  | None, None => (- ENOSPC, a)
  | None, Some j => (0, set_listener a i j (Some l))
  end.

Definition a_remove (t i callback mask : Z) (a : Z -> slot) : Z * (Z -> slot) :=
  match a_listener t callback mask (a i) with
  | Some j => (0, set_listener a i j None)
  | None => (- ENOENT, a)
  end.

(** ** The bytes of the pool *)

Section FdSpec.
Context {S : Shm} {OK : ShmOk S} {K : Kernel} {HQ : Quiet K}.

Definition lock_ok (p id : Z) : Prop := id = 255 \/ (0 <= id <= 11 /\ id <> p).

Definition listener_rel (m : mem) (l : Z) (o : option listener) : Prop :=
  match o with
  | None => ld64 m (l + 8) = 0
  | Some x => l_callback x <> 0 /\
      x = Listener (ld32 m l) (ld32 m (l + 4)) (ld64 m (l + 8)) (ld32 m (l + 16))
                   (ld64 m (l + 24)) (ld64 m (l + 32)) (ld32 m (l + 40))
  end.

Record slot_rel (m : mem) (p e : Z) (s : slot) : Prop := SlotRel {
  sr_count : ld 1 m (e + 8) = match s_comp s with Some (_, c) => c | None => 0 end;
  sr_reg : (ld 1 m (e + 9) =? 0) = negb (is_some (s_comp s));
  sr_name : match s_comp s with Some (n, _) => n = c_text (bytes 15 m (e + 11)) | None => True end;
  sr_lock : ld32 m (e + 32) = s_lock s /\ lock_ok p (s_lock s);
  sr_number : ld32 m (e + 48) = n_listeners s;
  sr_listeners : forall j, 0 <= j < 16 -> listener_rel m (listener_at e j) (s_listeners s j);
}.

(** The word that counts free slots starts at 0 ([InitComponentPool] writes 40
    elsewhere), so it holds the negated number of slots in use; [shared] is what
    the words of the shared buffer hold. *)
Context {shared : Z * Z}.

Record pool_rel (m : mem) (p : Z) (a : Z -> slot) : Prop := PoolRel {
  pr_lock : ld32 m getComponentPool = p /\ 5 <= p <= 11;
  pr_slots : forall i, 0 <= i < 40 -> slot_rel m p (comp_entry i) (a i);
  pr_free : ld32 m free_slots = u32 (- n_taken a);
  pr_buffer : ld64 m shmem_mid = fst shared /\ ld32 m shmem_size = snd shared;
}.

Definition locks (m : mem) (h : Z -> lock_abs) : Prop := forall id, 0 <= id <= 11 -> lock_is m id (h id).
Definition nobody : Z -> lock_abs := fun _ => None.

(** Memory that is neither shared nor the handles of the hardware locks. *)
Definition elsewhere (a n : Z) : Prop := 4096 <= a /\ a + n <= 2 ^ 32 /\
  (a + n <= ShMemAddrBase \/ ShMemAddrBase + ShMemSize <= a) /\
  (a + n <= hwlocks \/ hwlocks + 128 <= a).

Definition in_locks (x : Z) : Prop :=
  ShMemAddrBase <= x < ShMemAddrBase + 144 \/ hwlocks <= x < hwlocks + 128.
Definition in_pool (x : Z) : Prop := getComponentPool <= x < getComponentPool + 32672.

(** What lock operations leave alone, what writes to a slot leave alone. *)
Definition lock_frame_ (m m' : mem) : Prop := forall x, ~ in_locks x -> ld8 m' x = ld8 m x.

Lemma pool_at : getComponentPool = ShMemAddrBase + 147656.
Proof.
  unfold getComponentPool, SHMEM_OFF_COMP_POOL. shm_facts. rewrite eqb_neq_false by lia.
  rewrite u32_small; lia.
Qed.

Lemma entry_at i : comp_entry i = ShMemAddrBase + 147656 + 816 * i.
Proof. unfold comp_entry, COMP_POOL_ENTRY_SIZE. by rewrite pool_at. Qed.

Lemma lock_frame_trans m1 m2 m3 : lock_frame_ m1 m2 -> lock_frame_ m2 m3 -> lock_frame_ m1 m3.
Proof. intros H1 H2 x Hx. by rewrite H2, H1. Qed.

(** A value that lies outside the locks. *)
Lemma lock_frame_ld n m m' b : lock_frame_ m m' ->
  (forall x, b <= x < b + Z.of_nat n -> ~ in_locks x) -> ld n m' b = ld n m b.
Proof. intros H Hb. apply ld_same. intros x Hx. apply H, Hb, Hx. Qed.

Lemma pool_not_locks x : in_pool x -> ~ in_locks x.
Proof. unfold in_pool, in_locks. rewrite pool_at. shm_facts. lia. Qed.

Lemma elsewhere_not_locks a n x : elsewhere a n -> a <= x < a + n -> ~ in_locks x.
Proof. unfold elsewhere, in_locks. shm_facts. lia. Qed.

Lemma slot_rel_same m m' p e s :
  (forall x, e + 8 <= x < e + 824 -> ld8 m' x = ld8 m x) -> slot_rel m p e s -> slot_rel m' p e s.
Proof.
  intros Hs [H1 H2 H3 H4 H5 H6].
  assert (Hn : forall n b, e + 8 <= b -> b + Z.of_nat n <= e + 824 -> ld n m' b = ld n m b).
  { intros n b Hb1 Hb2. apply ld_same. intros x Hx. apply Hs. lia. }
  split; rewrite ?Hn by lia; [done | done | | done | done |].
  - destruct (s_comp s) as [[n c]|]; [|done]. rewrite H3. f_equal. symmetry. apply bytes_same.
    intros x Hx. apply Hs. lia.
  - intros j Hj. specialize (H6 j Hj). unfold listener_rel, listener_at in *.
    rewrite !Hn by lia. done.
Qed.

Lemma pool_rel_same m m' p a :
  (forall x, in_pool x -> ld8 m' x = ld8 m x) -> pool_rel m p a -> pool_rel m' p a.
Proof.
  intros Hs [H1 H2 H3 H4]. unfold in_pool in Hs. unfold free_slots, shmem_mid, shmem_size in *.
  split.
  - by rewrite (ld_same 4 m) by (intros; apply Hs; lia).
  - intros i Hi. eapply slot_rel_same; [|by apply H2]. intros x Hx. apply Hs.
    unfold comp_entry, COMP_POOL_ENTRY_SIZE in Hx. lia.
  - unfold free_slots. by rewrite (ld_same 4 m) by (intros; apply Hs; lia).
  - unfold shmem_mid, shmem_size.
    by rewrite (ld_same 8 m), (ld_same 4 m) by (intros; apply Hs; lia).
Qed.

(** A write that stays in slot [k] and the count of free slots. *)
Lemma pool_rel_set m m' p a k s : pool_rel m p a -> 0 <= k < 40 ->
  (forall x, in_pool x -> x < comp_entry k + 8 \/ comp_entry k + 824 <= x ->
     x < free_slots \/ free_slots + 4 <= x -> ld8 m' x = ld8 m x) ->
  slot_rel m' p (comp_entry k) s -> ld32 m' free_slots = u32 (- n_taken (fset a k s)) ->
  pool_rel m' p (fset a k s).
Proof.
  intros [H1 H2 H3 H4] Hk Hs Hr Hf. unfold in_pool, comp_entry, COMP_POOL_ENTRY_SIZE in *.
  unfold free_slots, shmem_mid, shmem_size in *.
  split; [| |done|].
  - by rewrite (ld_same 4 m) by (intros; apply Hs; lia).
  - intros i Hi. destruct (Z.eq_dec i k) as [->|Hne]; [by rewrite fset_eq|].
    rewrite fset_ne by done. eapply slot_rel_same; [|by apply H2].
    intros x Hx. unfold comp_entry, COMP_POOL_ENTRY_SIZE in Hx. apply Hs; lia.
  - unfold shmem_mid, shmem_size.
    by rewrite (ld_same 8 m), (ld_same 4 m) by (intros; apply Hs; lia).
Qed.

Lemma n_taken_set a k s : 0 <= k < 40 ->
  n_taken (fset a k s) = n_taken a - b2z (taken a k) + b2z (is_some (s_comp s)).
Proof.
  intros Hk. unfold n_taken. rewrite (tally_change (taken a) (taken (fset a k s)) 40 0 k); [| lia |].
  - unfold taken. by rewrite fset_eq.
  - intros j Hj Hne. unfold taken. by rewrite fset_ne.
Qed.

End FdSpec.

(** ** Locks *)

Section FdLocks.
Context {S : Shm} {OK : ShmOk S} {K : Kernel} {HQ : Quiet K}.

Lemma lock_is_frame m m' id a :
  0 <= id <= 11 -> same_on (spin_entry id) 12 m m' -> lock_is m id a -> lock_is m' id a.
Proof. apply lock_is_same. Qed.

Lemma locks_set m m' h id v : locks m h -> 0 <= id <= 11 ->
  same_out (spin_entry id) 12 m m' -> lock_is m' id v -> locks m' (fset h id v).
Proof.
  intros H Hid Ho Hv i Hi. destruct (Z.eq_dec i id) as [->|Hne]; [by rewrite fset_eq|].
  rewrite fset_ne by done. eapply lock_is_same; [done | | by apply H].
  intros x Hx. apply Ho. rewrite !spin_entry_off in *. lia.
Qed.

Lemma locks_same m m' h : (forall x, in_locks x -> ld8 m' x = ld8 m x) -> locks m h -> locks m' h.
Proof.
  intros Hs H i Hi. eapply lock_is_same; [done | | by apply H]. intros x Hx. apply Hs.
  pose proof (spin_entry_at i Hi). unfold in_locks. lia.
Qed.

Lemma locks_ext m h g : (forall i, h i = g i) -> locks m h -> locks m g.
Proof. intros E H i Hi. rewrite <- E. by apply H. Qed.

Lemma spin_frame id m m' : 0 <= id <= 11 -> same_out (spin_entry id) 12 m m' -> lock_frame_ m m'.
Proof.
  intros Hid H x Hx. apply H. pose proof (spin_entry_at id Hid). unfold in_locks in Hx. lia.
Qed.

Section Steps.
Context {B : Type}.

Lemma wp_lock id h (k : unit -> M B) Q w :
  0 <= id <= 11 -> tgid_ok w -> locks (mm w) h -> h id = None ->
  (forall m', locks m' (fset h id (Some (cur_tgid w, 1))) -> lock_frame_ (mm w) m' ->
     wp (k tt) Q (set_mm w m')) ->
  wp (comm_SpinLockMutex id ≫= k) Q w.
Proof.
  intros Hid [Ht Hn] Hl Hh H. unfold comm_SpinLockMutex. apply wp_assoc.
  pose proof (Hl id Hid) as Ha. rewrite Hh in Ha.
  eapply wp_call; [by apply (spinLock_wp id 1 w None)|].
  intros r w' (m' & -> & _ & H1 & _ & H2). wp_step.
  assert (Ho : same_out (spin_entry id) 12 (mm w) m').
  { eapply same_out_weaken; [exact H2 | lia | lia]. }
  apply H; [by eapply locks_set | by eapply spin_frame].
Qed.

Lemma wp_unlock id h (k : unit -> M B) Q w t :
  0 <= id <= 11 -> locks (mm w) h -> h id = Some (t, 1) ->
  (forall m', locks m' (fset h id None) -> lock_frame_ (mm w) m' -> wp (k tt) Q (set_mm w m')) ->
  wp (comm_SpinUnLock id ≫= k) Q w.
Proof.
  intros Hid Hl Hh H. pose proof (Hl id Hid) as Ha. rewrite Hh in Ha.
  eapply wp_SpinUnLock; [done | exact Ha |]. intros m' H1 Ho.
  apply H; [by eapply locks_set | by eapply spin_frame].
Qed.

(** A last call as one more step. *)
Lemma wp_ret_r {A} (m : M A) Q w : wp (m ≫= mret) Q w -> wp m Q w.
Proof. unfold wp, mbind, M_bind. by destruct (m w). Qed.

(** A component without a spinlock is not locked at all. *)
Definition hold (t id : Z) (h : Z -> lock_abs) : Z -> lock_abs :=
  if id =? 255 then h else fset h id (Some (t, 1)).
Definition lockable (h : Z -> lock_abs) (id : Z) : Prop := id = 255 \/ (0 <= id <= 11 /\ h id = None).

Lemma wp_lock_ok id h (k : unit -> M B) Q w :
  lockable h id -> tgid_ok w -> locks (mm w) h ->
  (forall m', locks m' (hold (cur_tgid w) id h) -> lock_frame_ (mm w) m' -> wp (k tt) Q (set_mm w m')) ->
  wp (comm_SpinLockMutex id ≫= k) Q w.
Proof.
  intros [->|[Hid Hn]] Ht Hl H; unfold hold in H.
  - specialize (H (mm w)). rewrite set_mm_id in H. apply H; done.
  - rewrite eqb_neq_false in H by lia. by eapply wp_lock.
Qed.

Lemma wp_unlock_ok id h t (k : unit -> M B) Q w :
  lockable h id -> locks (mm w) (hold t id h) ->
  (forall m', locks m' h -> lock_frame_ (mm w) m' -> wp (k tt) Q (set_mm w m')) ->
  wp (comm_SpinUnLock id ≫= k) Q w.
Proof.
  intros [->|[Hid Hn]] Hl H; unfold hold in Hl.
  - specialize (H (mm w)). rewrite set_mm_id in H. apply H; done.
  - rewrite eqb_neq_false in Hl by lia. eapply wp_unlock; [lia | exact Hl | apply fset_eq |].
    intros m' Hl' Hf. apply H; [|done]. eapply locks_ext; [|exact Hl'].
    intros i. unfold fset. by destruct (Z.eqb_spec i id) as [->|].
Qed.
End Steps.

(** ** Asking for a spinlock *)

Lemma spinlockhwReg_wp i w : 0 <= i <= 8 ->
  wp (spinlockhwReg i) (fun _ w' => exists m', w' = set_mm w m' /\
    same_out (hwlocks + 36) 36 (mm w) m') w.
Proof.
  intros Hi. shm_facts. unfold spinlockhwReg, hwlock, HW_SPINLOCK_COUNT. wp_step.
  destruct (_ =? 0).
  { wp_step. exists (mm w). rewrite set_mm_id. split; [done | apply same_out_refl]. }
  wp_step. destruct (negb (r =? 0)); wp_go.
  { exists (mm w). rewrite set_mm_id. split; [done | apply same_out_refl]. }
  eexists. split; [done|]. same_out_tac.
Qed.

Lemma hw_frame m m' : same_out (hwlocks + 36) 36 m m' -> lock_frame_ m m'.
Proof. intros H x Hx. apply H. unfold in_locks in Hx. lia. Qed.

Lemma hw_locks m m' h : same_out (hwlocks + 36) 36 m m' -> locks m h -> locks m' h.
Proof.
  intros H Hl i Hi. eapply lock_is_same; [done | | by apply Hl]. intros x Hx. apply H.
  pose proof (spin_entry_at i Hi). shm_facts. lia.
Qed.

(** The entry a request reserves: only its mutex and owner bytes are written. *)
Lemma reserve_locks m h id : locks m h -> 5 <= id <= 11 -> ld32 m (spin_entry id + 4) = 0 ->
  ld32 m (spin_entry id + 8) = 255 ->
  h id = None /\
  let m' := st 1 (st 1 m (spin_entry id + 2) 0) (spin_entry id + 3) 0 in
  locks m' h /\ lock_frame_ m m'.
Proof.
  intros Hl Hid Hc Ht. pose proof (Hl id ltac:(lia)) as [Hm Hd Hx].
  assert (Hn : h id = None).
  { destruct (h id) as [[t n]|]; [|done]. simpl in Hd, Hx. rewrite Hd in Hc. lia. }
  split; [done|]. simpl. split.
  - apply (locks_ext _ (fset h id None)).
    { intros i. unfold fset. destruct (Z.eqb_spec i id) as [->|]; done. }
    eapply locks_set; [exact Hl | lia | same_out_tac |].
    split; simpl; rewrite <- ?ld_1; memsimp; done.
  - apply (spin_frame id); [lia|]. same_out_tac.
Qed.

(** An entry that a request takes. *)
Definition spin_free (m : mem) (id : Z) : Prop :=
  ld 1 m (spin_entry id + 3) = 2 /\ ld32 m (spin_entry id + 4) = 0 /\ ld 1 m (spin_entry id) = 2 /\
  ld32 m (spin_entry id + 8) = 255.

Lemma spin_free_same m m' id : 0 <= id <= 11 -> (forall x, ShMemAddrBase <= x < ShMemAddrBase + 144 ->
  ld8 m' x = ld8 m x) -> spin_free m id -> spin_free m' id.
Proof.
  intros Hid H. pose proof (spin_entry_at id Hid). unfold spin_free.
  by rewrite !(ld_same _ m m') by (intros; apply H; lia).
Qed.

Lemma comm_ReqestSpinLock_wp h w : locks (mm w) h ->
  wp comm_ReqestSpinLock (fun id w' => exists m', w' = set_mm w m' /\ locks m' h /\
    lock_frame_ (mm w) m' /\ (id = 255 \/ (5 <= id <= 11 /\ h id = None)) /\
    (spin_free (mm w) 5 -> id = 5)) w.
Proof.
  intros Hl. shm_facts. unfold comm_ReqestSpinLock.
  eapply wp_call; [apply spinlockhwReg_wp; lia|]. intros _ w' (m1 & -> & Ho).
  pose proof (hw_locks _ _ _ Ho Hl) as Hl1. pose proof (hw_frame _ _ Ho) as Hf1.
  assert (H5 : spin_free (mm w) 5 -> spin_free m1 5).
  { apply spin_free_same; [lia|]. intros x Hx. apply Ho. lia. }
  unfold getSpinLockMemArea, HW_SPINLOCK_APP_START. rewrite eqb_neq_false by lia. apply wp_bind.
  eapply (wp_for_exit 7 5 _ (fun j w2 => w2 = set_mm w m1 /\ (5 < j -> ~ spin_free m1 5))); [split; [done | lia] | |].
  - intros j w2 Hj [-> Hnf]. pose proof (spin_entry_at j ltac:(lia)).
    assert (Hskip : ~ spin_free m1 j -> set_mm w m1 = set_mm w m1 /\ (5 < j + 1 -> ~ spin_free m1 5)).
    { intros Hs. split; [done|]. intros _. destruct (Z.eq_dec j 5) as [->|]; [done | apply Hnf; lia]. }
    unfold spin_free in Hskip. unfold SPINLOCK_FREE, SPINLOCK_OFF_OWNER, SPINLOCK_OFF_MUTEX, getCurCPUID, CPU_ID_ARM.
    wp_step. destruct (Z.eqb_spec (ld 1 m1 (spin_entry j + 3)) 2) as [Ho2|]; [|wp_step; apply Hskip; tauto].
    wp_step. destruct (Z.eqb_spec (ld32 m1 (spin_entry j + 4)) 0) as [Hc|]; cbn [negb]; [|wp_step; apply Hskip; tauto].
    wp_step. destruct (Z.eqb_spec (ld 1 m1 (spin_entry j)) 2) as [Hty|]; cbn [negb]; [|wp_step; apply Hskip; tauto].
    wp_step. unfold SPINLOCK_HWID_NONE.
    destruct (Z.eqb_spec (ld32 m1 (spin_entry j + 8)) 255) as [Ht|]; cbn [negb]; [|wp_step; apply Hskip; tauto].
    do 2 wp_step. unfold spinUnlockhwReg, hwlock. wp_go.
    destruct (reserve_locks m1 h j Hl1 ltac:(lia) Hc Ht) as (Hn & Hl2 & Hf2).
    eexists. ands; [done | exact Hl2 | by eapply lock_frame_trans | right; split; [lia | done] |].
    intros Hs. destruct (Z.eq_dec j 5) as [|]; [done|]. destruct (Hnf ltac:(lia)). by apply H5.
  - intros w2 [-> Hnf]. unfold spinUnlockhwReg, hwlock. wp_go.
    exists m1. ands; [done | done | done | by left|]. intros Hs. destruct (Hnf ltac:(lia)). by apply H5.
Qed.

(** ** Strings *)

Lemma c_text_take_pad s n : Forall (fun b => 0 < b < 256) s -> (length s <= n)%nat ->
  c_text (map u8 (take n s ++ replicate (n - length s) 0)) = s.
Proof.
  intros Hs Hn. rewrite take_ge by lia. rewrite map_app. revert n Hn.
  induction Hs as [|b s Hb Hs IH]; intros n Hn; simpl in *.
  - destruct (n - 0)%nat; simpl; done.
  - rewrite u8_small by lia. rewrite eqb_neq_false by lia. f_equal.
    destruct n as [|n]; [lia|]. apply IH. lia.
Qed.

Lemma c_text_range l : Forall (fun b => 0 <= b < 256) l -> Forall (fun b => 0 < b < 256) (c_text l).
Proof.
  induction 1 as [|b l Hb Hl IH]; simpl; [constructor|].
  destruct (Z.eqb_spec b 0); [constructor | constructor; [lia | done]].
Qed.

Lemma c_text_length l : (length (c_text l) <= length l)%nat.
Proof. induction l as [|b l IH]; simpl; [lia|]. destruct (b =? 0); simpl; lia. Qed.

(** [strncmp(a, name, n) == 0] compares the strings. *)
Lemma str_same_text n m a name : (n <= length name)%nat ->
  str_same n m a name = true <-> c_text (bytes n m a) = c_text (take n name).
Proof.
  revert a name. induction n as [|n IH]; intros a name Hl; [done|].
  destruct name as [|c name]; [simpl in Hl; lia|]. simpl in *.
  rewrite andb_true_iff, orb_true_iff, (IH (a + 1) name) by lia.
  rewrite !Z.eqb_eq. destruct (Z.eqb_spec c 0) as [->|Hc].
  - destruct (Z.eqb_spec (ld8 m a) 0) as [E|E]; [rewrite E; tauto|]. split; [|done].
    intros [E' _]. done.
  - destruct (Z.eqb_spec (ld8 m a) 0) as [E|E].
    + rewrite E. split; [intros [E' _]; lia | done].
    + split; [intros [-> [?|H]]; [lia | by rewrite H] |]. intros H. injection H as H1 H2.
      split; [done | by right].
Qed.

End FdLocks.

(** ** The scans *)

Section FdScans.
Context {S : Shm} {OK : ShmOk S} {K : Kernel} {HQ : Quiet K} {shared : Z * Z}.
Local Abbreviation pool_rel := (@pool_rel S shared).

Definition good_name (name : list Z) : Prop := length name = 16%nat.
Definition the_name (name : list Z) : list Z := c_text (take 15 name).

Lemma find_registered_eq name w p a : pool_rel (mm w) p a -> good_name name ->
  find_registered name w = Ret (a_find (the_name name) a) w.
Proof.
  intros [_ Hs _ _] Hn. unfold find_registered, a_find.
  rewrite (for_exit_first 40 0 _ (fun i => named (the_name name) (a i)) (fun i => i)).
  { by destruct (first _ 40 0). }
  intros j Hj. simpl in Hj. pose proof (entry_at j) as Ej. shm_facts.
  destruct (Hs j Hj) as [_ Hr Hnm _ _ _].
  unfold rd, mbind, M_bind. rewrite ltb_false by lia. rewrite Hr. unfold named.
  destruct (s_comp (a j)) as [[n c]|]; cbn [is_some negb]; [|done]. rewrite Hnm. unfold gets.
  pose proof (str_same_text 15 (mm w) (comp_entry j + 11) name ltac:(rewrite Hn; lia)) as E.
  rewrite <- list_eqb_true in E. fold (the_name name) in E.
  rewrite (bool_iff _ _ E). by destruct (list_eqb _ _).
Qed.

Lemma find_free_slot_eq w p a : pool_rel (mm w) p a -> find_free_slot w = Ret (a_free a) w.
Proof.
  intros [_ Hs _ _]. unfold find_free_slot, a_free.
  rewrite (for_exit_first 40 0 _ (fun i => negb (taken a i)) (fun i => i)).
  { by destruct (first _ 40 0). }
  intros j Hj. simpl in Hj. pose proof (entry_at j) as Ej. shm_facts.
  destruct (Hs j Hj) as [Hc Hr _ _ _ _].
  unfold rd, mbind, M_bind. rewrite ltb_false by lia. unfold taken.
  destruct (s_comp (a j)) as [[n c]|]; simpl in *.
  - destruct (negb (_ =? 0)); [done|]. rewrite ltb_false by lia. by rewrite Hr.
  - rewrite Hc. simpl. rewrite ltb_false by lia. by rewrite Hr.
Qed.
End FdScans.
