(* ===== verification/FdOps.v ===== *)
(** The handlers of the component pool, proved against the abstract pool of
    [FdSpec]: creating, attaching, detaching, adding and removing listeners. *)
From S2P Require Import Prelude Mem Kernel Fifo Shm SpinLock SeqMem Smm Routine Msgbox UserQueue Proto FdPool FdSpec.

Section FdOps.
Context {S : Shm} {OK : ShmOk S} {K : Kernel} {HQ : Quiet K}.
Context {shared : Z * Z}.
Local Abbreviation pool_rel := (@pool_rel S shared).

(** ** Creating *)

(** What only the pool and the locks may differ in. *)
Definition pool_frame (m m' : mem) : Prop := forall x, ~ in_pool x -> ~ in_locks x -> ld8 m' x = ld8 m x.

Lemma lock_ok_range p id : 5 <= p <= 11 -> lock_ok p id -> 0 <= id < 2 ^ 32.
Proof. unfold lock_ok. lia. Qed.

Lemma slot_lock_wp p h e l w : 0 <= e -> 5 <= p <= 11 -> h p <> None -> locks (mm w) h ->
  4096 <= e -> ld32 (mm w) (e + 32) = l -> (forall x, e <= x < e + 824 -> ~ in_locks x) ->
  wp (if l =? 255 then id ← comm_ReqestSpinLock; wr32 (e + 32) id else mret tt)
     (fun _ w' => exists m' lk, w' = set_mm w m' /\ lock_ok p lk /\ locks m' h /\
        ld32 m' (e + 32) = (if l =? 255 then lk else l) /\
        (forall x, ~ in_locks x -> x < e + 32 \/ e + 36 <= x -> ld8 m' x = ld8 (mm w) x)) w.
Proof.
  intros He Hp Hh Hl He2 Hv Hd. destruct (l =? 255).
  - eapply wp_call; [by apply comm_ReqestSpinLock_wp|]. intros id w' (m1 & -> & Hl1 & Hf & Hid & _).
    wp_step.
    assert (Hok : lock_ok p id).
    { destruct Hid as [->|[Hr Hn]]; [by left|]. right. split; [lia|]. intros ->. done. }
    eexists _, id. ands; [done | done | | |].
    + eapply locks_same; [|exact Hl1]. intros x Hx. apply ld8_st_out.
      destruct (decide (e <= x < e + 824)) as [Hin|]; [by destruct (Hd x Hin) | lia].
    + pose proof (lock_ok_range p id Hp Hok). memsimp. by u32s.
    + intros x Hx Ho. rewrite ld8_st_out by lia. by apply Hf.
  - wp_step. exists (mm w), 255. rewrite set_mm_id. ands; [done | by left | done | done | done].
Qed.

Lemma free_at : free_slots = ShMemAddrBase + 147656 + 32648.
Proof. unfold free_slots. by rewrite pool_at. Qed.

Lemma slot_not_locks i x : 0 <= i < 40 -> comp_entry i <= x < comp_entry i + 824 -> ~ in_locks x.
Proof. intros Hi Hx. rewrite entry_at in Hx. unfold in_locks. shm_facts. lia. Qed.

Lemma c_text_name name : Forall (fun b => 0 <= b < 256) name -> good_name name ->
  take 15 (c_text name) ++ replicate (15 - length (c_text name)) 0 =
  take 15 (the_name name) ++ replicate (15 - length (the_name name)) 0.
Proof.
  intros Hr Hn. unfold the_name.
  assert (E : forall n (l : list Z), take n (c_text l) ++ replicate (n - length (c_text l)) 0 =
    take n (c_text (take n l)) ++ replicate (n - length (c_text (take n l))) 0); [|apply E].
  induction n as [|n IH]; intros [|c l]; simpl; try done.
  destruct (c =? 0); simpl; [done|]. f_equal. apply IH.
Qed.

Lemma the_name_ok name : Forall (fun b => 0 <= b < 256) name ->
  Forall (fun b => 0 < b < 256) (the_name name) /\ (length (the_name name) <= 15)%nat.
Proof.
  intros H. split.
  - apply c_text_range. by apply Forall_take.
  - unfold the_name. pose proof (c_text_length (take 15 name)). rewrite length_take in *. lia.
Qed.

Lemma fill_slot_wp p a h i flags name w :
  pool_rel (mm w) p a -> locks (mm w) h -> h p <> None -> 0 <= i < 40 -> s_comp (a i) = None ->
  good_name name -> Forall (fun b => 0 <= b < 256) name ->
  wp (fill_slot i flags name) (fun _ w' => exists m' lk, w' = set_mm w m' /\ lock_ok p lk /\
    pool_rel m' p (fset a i (Slot (Some (the_name name, 1))
      (if s_lock (a i) =? 255 then lk else s_lock (a i)) (s_listeners (a i)))) /\
    locks m' h /\ pool_frame (mm w) m') w.
Proof.
  intros Hr Hl Hh Hi Hc Hn Hb. pose proof Hr as [[Hp Hpr] Hs Hf _].
  pose proof (entry_at i) as Ei. pose proof free_at as Ef. shm_facts.
  destruct (Hs i Hi) as [_ _ _ [Hlk Hlo] Hnum Hls]. destruct (the_name_ok name Hb) as [Hc1 Hc2].
  unfold fill_slot. set (e := comp_entry i) in *. apply wp_strncpy. intros m1 Ho1 Hb1. wsimp.
  rewrite c_text_name in Hb1 by done. unfold getCurCPUID, CPU_ID_ARM. wp_go.
  set (m2 := st32 _ (e + 40) flags).
  assert (Hm2 : forall x, x < e + 8 \/ e + 26 <= x < e + 28 \/ e + 30 <= x < e + 40 \/ e + 48 <= x ->
    ld8 m2 x = ld8 (mm w) x).
  { intros x Hx. unfold m2. rewrite !ld8_st_out by lia. apply Ho1. simpl. lia. }
  assert (Hl2 : locks m2 h).
  { eapply locks_same; [|exact Hl]. intros x Hx. apply Hm2. unfold in_locks in Hx. lia. }
  assert (Hv2 : ld32 m2 (e + 32) = s_lock (a i)).
  { rewrite <- Hlk. apply ld_same. intros x Hx. apply Hm2. lia. }
  rewrite Hv2. eapply wp_call.
  { apply (slot_lock_wp p h e _ (set_mm w m2)); try done; [lia | lia |].
    intros x Hx. eapply slot_not_locks; [exact Hi | exact Hx]. }
  intros _ w' (m3 & lk & -> & Hlk3 & Hl3 & Hv3 & Hm3). wsimp. wp_go.
  assert (Hf3 : ld32 m3 free_slots = u32 (- n_taken a)).
  { rewrite <- Hf. apply ld_same. intros x Hx. rewrite Hm3, Hm2; [done | lia | | lia].
    unfold in_locks. lia. }
  rewrite Hf3. eexists _, lk. ands; [done | done | | |].
  - assert (Hsame : forall x, x < free_slots \/ free_slots + 4 <= x -> ~ in_locks x ->
      x < e + 32 \/ e + 36 <= x ->
      ld8 (st32 m3 free_slots (u32 (- n_taken a) - 1)) x = ld8 m2 x).
    { intros x H1 H2 H3. rewrite ld8_st_out by lia. by apply Hm3. }
    assert (Hin : forall n b, e + 8 <= b -> b + Z.of_nat n <= e + 824 ->
      b + Z.of_nat n <= e + 32 \/ e + 36 <= b ->
      ld n (st32 m3 free_slots (u32 (- n_taken a) - 1)) b = ld n m2 b).
    { intros n b H1 H2 H3. apply ld_same. intros x Hx. apply Hsame; [lia | | lia].
      eapply slot_not_locks; [exact Hi|]. fold e. lia. }
    eapply pool_rel_set; [exact Hr | done | | |].
    + fold e. intros x Hx H1 H2. unfold in_pool in Hx. rewrite Hsame, Hm2; [done | lia | lia | | lia].
      apply pool_not_locks. exact Hx.
    + fold e. split; cbn [s_comp s_lock s_listeners is_some negb]; rewrite ?Hin by lia.
      * unfold m2. by memsimp.
      * unfold m2. by memsimp.
      * rewrite (bytes_same 15 m1).
        2: { intros x Hx. simpl in Hx. rewrite Hsame; [|lia | | lia].
             - unfold m2. by rewrite !ld8_st_out by lia.
             - eapply slot_not_locks; [exact Hi|]. fold e. lia. }
        rewrite Hb1. symmetry. apply c_text_take_pad; [done | lia].
      * memsimp. rewrite Hv3. split; [done|]. by destruct (_ =? 255).
      * unfold m2. memsimp. rewrite (ld_same_out _ _ _ _ _ _ Ho1) by (simpl; lia). done.
      * intros j Hj. specialize (Hls j Hj). unfold listener_rel, listener_at in *.
        rewrite !Hin by (simpl; lia).
        assert (Hm : forall n b, e + 48 <= b -> ld n m2 b = ld n (mm w) b).
        { intros n b H. apply ld_same. intros x Hx. apply Hm2. lia. }
        rewrite !Hm by lia. done.
    + rewrite n_taken_set by done. unfold taken at 1. rewrite Hc. cbn [s_comp is_some b2z].
      rewrite ld32_st32_eq, u32_sub_l. f_equal. lia.
  - eapply locks_same; [|exact Hl3]. intros x Hx. apply ld8_st_out. unfold in_locks in Hx. lia.
  - intros x H1 H2. unfold in_pool in H1. rewrite pool_at in H1. rewrite ld8_st_out by lia.
    rewrite Hm3 by (try done; lia). apply Hm2. lia.
Qed.

Definition name_ok (name : list Z) : Prop := good_name name /\ Forall (fun b => 0 <= b < 256) name.

Lemma elsewhere_not_pool b n x : elsewhere b n -> b <= x < b + n -> ~ in_pool x.
Proof. unfold elsewhere, in_pool. rewrite pool_at. shm_facts. lia. Qed.

(** A store into a buffer elsewhere. *)
Lemma elsewhere_store n m b v p a h c k : elsewhere b k -> b <= c -> c + Z.of_nat n <= b + k ->
  pool_rel m p a -> locks m h -> pool_rel (st n m c v) p a /\ locks (st n m c v) h.
Proof.
  intros He H1 H2 Hr Hl. split.
  - eapply pool_rel_same; [|exact Hr]. intros x Hx. apply ld8_st_out.
    destruct (decide (b <= x < b + k)) as [Hin|]; [by destruct (elsewhere_not_pool _ _ _ He Hin) | lia].
  - eapply locks_same; [|exact Hl]. intros x Hx. apply ld8_st_out.
    destruct (decide (b <= x < b + k)) as [Hin|]; [by destruct (elsewhere_not_locks _ _ _ He Hin) | lia].
Qed.

Lemma pool_rel_locks m m' p a : lock_frame_ m m' -> pool_rel m p a -> pool_rel m' p a.
Proof. intros Hf. apply pool_rel_same. intros x Hx. apply Hf. by apply pool_not_locks. Qed.

Lemma pool_lockable p : 5 <= p <= 11 -> lockable nobody p.
Proof. intros. right. split; [lia | done]. Qed.

Lemma hold_held t id h : id <> 255 -> hold t id h id <> None.
Proof. intros H. unfold hold. rewrite eqb_neq_false by done. by rewrite fset_eq. Qed.

Lemma fd_create_wp p a buf name w :
  pool_rel (mm w) p a -> locks (mm w) nobody -> tgid_ok w -> elsewhere buf 36 -> name_ok name ->
  wp (fd_create buf name) (fun _ w' => exists m' lk, w' = set_mm w m' /\ lock_ok p lk /\
    pool_rel m' p (snd (a_create (the_name name) lk a)) /\ locks m' nobody /\
    ld32 m' (buf + 20) = u32 (fst (a_create (the_name name) lk a))) w.
Proof.
  intros Hr Hl Ht He [Hn Hb]. pose proof Hr as [[Hp Hpr] Hs _ _].
  pose proof pool_at as Ep. shm_facts. pose proof He as (He1 & He2 & _).
  unfold fd_create, a_create. wp_step. wp_step. rewrite Hp.
  eapply wp_lock_ok; [by apply pool_lockable | done | exact Hl |]. intros m1 Hl1 Hf1.
  pose proof (pool_rel_locks _ _ _ _ Hf1 Hr) as Hr1.
  assert (Hfail : forall m2, pool_rel m2 p a -> locks m2 (hold (cur_tgid w) p nobody) ->
    wp (comm_SpinUnLock p ;; wr32 (buf + 20) (-1)) (fun _ w' => exists m' lk, w' = set_mm w m' /\
      lock_ok p lk /\ pool_rel m' p a /\ locks m' nobody /\ ld32 m' (buf + 20) = u32 (-1)) (set_mm w m2)).
  { intros m2 Hr2 Hl2. eapply wp_unlock_ok; [by apply pool_lockable | exact Hl2 |]. intros m3 Hl3 Hf3. wp_step.
    destruct (elsewhere_store 4 m3 buf (-1) p a nobody (buf + 20) 36) as [H1 H2];
      [done | lia | lia | by eapply pool_rel_locks | done |].
    exists (st32 m3 (buf + 20) (-1)), 255. ands; [done | by left | done | done | by memsimp]. }
  eapply wp_eq; [by eapply find_registered_eq|].
  destruct (a_find (the_name name) a) as [i|] eqn:Ef; cbn match; [by apply Hfail|].
  eapply wp_eq; [by eapply find_free_slot_eq|].
  destruct (a_free a) as [i|] eqn:Eg; cbn match; [|by apply Hfail].
  destruct (first_some _ _ _ _ Eg) as (Hi & Hu & _). simpl in Hi.
  assert (Hu' : s_comp (a i) = None).
  { unfold taken in Hu. by destruct (s_comp (a i)). }
  eapply wp_call.
  { eapply (fill_slot_wp p a _ i _ name (set_mm w m1)); [exact Hr1 | exact Hl1 | apply hold_held; lia | lia | done..]. }
  intros _ w' (m2 & lk & -> & Hlk & Hr2 & Hl2 & Hf2). wsimp. wp_step.
  destruct (elsewhere_store 4 m2 buf i p _ _ (buf + 20) 36 He ltac:(lia) ltac:(lia) Hr2 Hl2) as [Hr3 Hl3].
  set (m3 := st32 m2 (buf + 20) i) in *.
  apply wp_ret_r. eapply wp_unlock_ok; [by apply pool_lockable | exact Hl3 |]. intros m4 Hl4 Hf4. wp_step. exists m4, lk. cbn [fst snd].
  ands; [done | done | exact (pool_rel_locks _ _ _ _ Hf4 Hr3) | done |].
  rewrite (lock_frame_ld 4 _ _ _ Hf4); [unfold m3; apply ld32_st32_eq|].
  intros x Hx. apply (elsewhere_not_locks _ _ _ He). lia.
Qed.

(** ** Attaching *)

(** A slot's spinlock can be taken while the pool's is held. *)
Lemma slot_lockable p t id : 5 <= p <= 11 -> lock_ok p id -> lockable (hold t p nobody) id.
Proof.
  intros Hp [->|[Hid Hne]]; [by left|]. right. split; [lia|].
  unfold hold. rewrite eqb_neq_false by lia. by rewrite fset_ne.
Qed.

(** A slot whose attach count byte is rewritten. *)
Lemma slot_rel_count m p i s n c v : 0 <= i < 40 -> slot_rel m p (comp_entry i) s ->
  s_comp s = Some (n, c) ->
  slot_rel (st 1 m (comp_entry i + 8) v) p (comp_entry i) (Slot (Some (n, u8 v)) (s_lock s) (s_listeners s)).
Proof.
  intros Hi [H1 H2 H3 H4 H5 H6] Hc. rewrite Hc in *. set (e := comp_entry i) in *.
  split; cbn [s_comp s_lock s_listeners is_some negb] in *.
  - apply ld1_st1_eq.
  - rewrite ld_st_ne by lia. exact H2.
  - rewrite (bytes_same 15 m) by (intros; apply ld8_st_out; lia). done.
  - rewrite ld_st_ne by lia. exact H4.
  - rewrite ld_st_ne by lia. exact H5.
  - intros j Hj. specialize (H6 j Hj). unfold listener_rel, listener_at in *.
    rewrite !ld_st_ne by lia. done.
Qed.

Lemma pool_rel_count m p a i n c v : pool_rel m p a -> 0 <= i < 40 -> s_comp (a i) = Some (n, c) ->
  pool_rel (st 1 m (comp_entry i + 8) v) p
    (fset a i (Slot (Some (n, u8 v)) (s_lock (a i)) (s_listeners (a i)))).
Proof.
  intros Hr Hi Hc. pose proof Hr as [_ Hs Hf _]. pose proof (entry_at i). pose proof free_at.
  eapply pool_rel_set; [exact Hr | done | | |].
  - intros x _ H1 _. apply ld8_st_out. lia.
  - by eapply slot_rel_count; [| apply Hs |].
  - rewrite n_taken_set by done. unfold taken. rewrite Hc. cbn [s_comp is_some].
    rewrite ld_st_ne, Hf by lia. f_equal. unfold b2z. lia.
Qed.

Lemma pool_store_locks m h i n off v : 0 <= i < 40 -> 8 <= off -> off + Z.of_nat n <= 824 ->
  locks m h -> locks (st n m (comp_entry i + off) v) h.
Proof.
  intros Hi H1 H2. apply locks_same. intros x Hx. apply ld8_st_out.
  destruct (decide (comp_entry i <= x < comp_entry i + 824)) as [Hin|]; [|lia].
  by destruct (slot_not_locks i x Hi Hin).
Qed.

Lemma attach_round_wp p a clock tms tj name k w :
  pool_rel (mm w) p a -> locks (mm w) nobody -> tgid_ok w -> name_ok name ->
  wp (attach_round clock tms tj name k) (fun r w' => exists m', w' = set_mm w m' /\ locks m' nobody /\
    pool_rel m' p (snd (a_attach (the_name name) a)) /\
    r = match a_find (the_name name) a with
        | Some i => inr i
        | None => if (tms =? 0) || time_before (clock k) tj then inl (Datatypes.S k) else inr (-1)
        end) w.
Proof.
  intros Hr Hl Ht [Hn Hb]. pose proof Hr as [[Hp Hpr] Hs _ _]. pose proof pool_at as Ep. shm_facts.
  unfold attach_round, a_attach. wp_step. rewrite Hp.
  eapply wp_lock_ok; [by apply pool_lockable | done | exact Hl |]. intros m1 Hl1 Hf1.
  pose proof (pool_rel_locks _ _ _ _ Hf1 Hr) as Hr1.
  eapply wp_eq; [by eapply find_registered_eq|].
  destruct (a_find (the_name name) a) as [i|] eqn:Ef; cbn match.
  - destruct (first_some _ _ _ _ Ef) as (Hi & Hu & _). simpl in Hi. unfold named in Hu.
    destruct (s_comp (a i)) as [[n c]|] eqn:Ec; [|done].
    destruct Hr1 as [[Hp1 _] Hs1 Hf Hsb]. destruct (Hs1 i ltac:(lia)) as [Hcnt _ _ [Hlk Hlo] _ _].
    pose proof (entry_at i). wp_step. rewrite Hlk.
    eapply wp_lock_ok; [by apply slot_lockable | done | exact Hl1 |]. wsimp. intros m2 Hl2 Hf2.
    pose proof (pool_rel_locks _ _ _ _ Hf2 (PoolRel _ _ _ (conj Hp1 Hpr) Hs1 Hf Hsb)) as Hr2.
    destruct (pr_slots _ _ _ Hr2 i ltac:(lia)) as [Hcnt2 _ _ _ _ _]. rewrite Ec in Hcnt2.
    do 2 wp_step. rewrite Hcnt2.
    pose proof (pool_rel_count m2 p a i n c (c + 1) Hr2 ltac:(lia) Ec) as Hr3.
    pose proof (pool_store_locks m2 _ i 1 8 (c + 1) ltac:(lia) ltac:(lia) ltac:(lia) Hl2) as Hl3.
    eapply wp_unlock_ok; [by apply slot_lockable | exact Hl3 |]. wsimp. intros m4 Hl4 Hf4.
    pose proof (pool_rel_locks _ _ _ _ Hf4 Hr3) as Hr4. wp_step. rewrite (proj1 (pr_lock _ _ _ Hr4)).
    eapply wp_unlock_ok; [by apply pool_lockable | exact Hl4 |]. wsimp. intros m5 Hl5 Hf5. wp_step.
    exists m5. ands; [done | done | exact (pool_rel_locks _ _ _ _ Hf5 Hr4) | done].
  - wp_step. rewrite (proj1 (pr_lock _ _ _ Hr1)).
    eapply wp_unlock_ok; [by apply pool_lockable | exact Hl1 |]. wsimp. intros m2 Hl2 Hf2.
    do 2 wp_step. exists m2. ands; [done | done | exact (pool_rel_locks _ _ _ _ Hf2 Hr1) | done].
Qed.

(** The wait ends: the name is there, or the deadline passes. *)
Definition attach_ends (clock : nat -> Z) (tms tj : Z) : Prop :=
  tms <> 0 /\ exists n, (1 <= n < wait_fuel)%nat /\ time_before (clock n) tj = false.

Context {J : Jiffies}.

Lemma a_attach_none name a : a_find name a = None -> a_attach name a = (-1, a).
Proof. unfold a_attach. by intros ->. Qed.

Lemma fd_attach_wp p a clock buf name w :
  pool_rel (mm w) p a -> locks (mm w) nobody -> tgid_ok w -> elsewhere buf 36 -> name_ok name ->
  let tms := ld32 (mm w) (buf + 28) in
  (a_find (the_name name) a = None ->
     attach_ends clock tms (u32 (clock 0%nat + msecs_to_jiffies tms))) ->
  wp (fd_attach clock buf name) (fun _ w' => exists m', w' = set_mm w m' /\ locks m' nobody /\
    pool_rel m' p (snd (a_attach (the_name name) a)) /\
    ld32 m' (buf + 20) = u32 (fst (a_attach (the_name name) a))) w.
Proof.
  intros Hr Hl Ht He Hn tms Hend. pose proof He as (He1 & He2 & _).
  unfold fd_attach. wp_step. fold tms. set (tj := u32 (clock 0%nat + _)) in *.
  apply wp_bind. set (Q := fun (r : Z) w' => exists m', w' = set_mm w m' /\ locks m' nobody /\
    pool_rel m' p (snd (a_attach (the_name name) a)) /\ r = fst (a_attach (the_name name) a)).
  eapply (wp_mono _ Q).
  2: { intros r w' (m' & -> & Hl' & Hr' & ->). wp_step.
    destruct (elsewhere_store 4 m' buf (fst (a_attach (the_name name) a)) p _ _ (buf + 20) 36
      He ltac:(lia) ltac:(lia) Hr' Hl') as [H1 H2].
    eexists. ands; [done | exact H2 | exact H1 | apply ld32_st32_eq]. }
  assert (Hm : exists n, (1 <= n < wait_fuel)%nat /\ (a_find (the_name name) a = None ->
    tms <> 0 /\ time_before (clock n) tj = false)).
  { destruct (a_find (the_name name) a); [exists 1%nat; split; [unfold wait_fuel; lia | done]|].
    destruct (Hend eq_refl) as (H1 & n & H2 & H3). by exists n. }
  destruct Hm as (n & Hn1 & Hn2).
  apply (wp_loop (fun j k w' => (j = n - k)%nat /\ (1 <= k <= n)%nat /\ exists m', w' = set_mm w m' /\
    pool_rel m' p a /\ locks m' nobody) _ Q wait_fuel (n - 1)%nat); [lia | |].
  { ands; [done | lia | lia |]. exists (mm w). by rewrite set_mm_id. }
  intros j k w' (-> & Hk & m' & -> & Hr' & Hl').
  eapply wp_mono; [eapply (attach_round_wp p a _ _ _ _ _ (set_mm w m')); done|].
  intros r w'' (m2 & -> & Hl2 & Hr2 & ->). wsimp.
  destruct (a_find (the_name name) a) as [i|] eqn:Ef.
  { unfold Q, a_attach in *. rewrite Ef in *. by exists m2. }
  destruct (Hn2 eq_refl) as [Hz Htb]. rewrite (eqb_neq_false _ _ Hz). simpl orb.
  unfold Q. rewrite (a_attach_none _ _ Ef) in *. cbn [fst snd] in *.
  destruct (Nat.eq_dec k n) as [->|Hne]; [rewrite Htb; by exists m2|].
  destruct (time_before (clock k) tj); [|by exists m2].
  exists (n - Datatypes.S k)%nat. ands; [lia | done | lia | lia | by exists m2].
Qed.

(** A timeout of 0 is no timeout: while nobody creates the component, the request
    goes round and round, however long. *)
Lemma attach_waits_forever p a clock tj name fuel k w :
  pool_rel (mm w) p a -> locks (mm w) nobody -> tgid_ok w -> name_ok name ->
  a_find (the_name name) a = None ->
  loop fuel (attach_round clock 0 tj name) k w = Stop NoFuel.
Proof.
  intros Hr Hl Ht Hn Hf. revert k w Hr Hl Ht. induction fuel as [|fuel IH]; intros k w Hr Hl Ht; [done|].
  cbn [loop]. destruct (wp_run _ _ _ (attach_round_wp p a clock 0 tj name k w Hr Hl Ht Hn))
    as (r & w' & E & m & -> & Hl' & Hr' & ->).
  unfold mbind, M_bind. rewrite E, Hf. rewrite (a_attach_none _ _ Hf) in Hr'. by apply IH.
Qed.

(** ** Detaching *)

Lemma clear_slot_wp p a h i n c w : pool_rel (mm w) p a -> locks (mm w) h -> 0 <= i < 40 ->
  s_comp (a i) = Some (n, c) -> n_listeners (a i) = 0 -> ld 1 (mm w) (comp_entry i + 8) = 0 ->
  wp (clear_slot (comp_entry i)) (fun _ w' => exists m', w' = set_mm w m' /\ locks m' h /\
    pool_rel m' p (fset a i (Slot None (s_lock (a i)) (s_listeners (a i))))) w.
Proof.
  intros Hr Hl Hi Hc Hn0 Hz. pose proof Hr as [[Hp Hpr] Hs Hf Hb].
  destruct (Hs i Hi) as [_ _ _ Hlk Hnum Hls]. pose proof (entry_at i) as Ei. pose proof free_at as Ef.
  assert (Em : shmem_mid = ShMemAddrBase + 147656 + 32656) by (unfold shmem_mid; by rewrite pool_at).
  assert (Es : shmem_size = ShMemAddrBase + 147656 + 32664) by (unfold shmem_size; by rewrite pool_at).
  shm_facts. unfold clear_slot, COMP_POOL_MAX_SLOTS. set (e := comp_entry i) in *. wp_go.
  set (a' := fset a i _). set (m4 := st64 _ (e + 40) 0).
  assert (Hf4 : ld32 m4 free_slots = u32 (- n_taken a)) by (unfold m4; rewrite !ld_st_ne by lia; done).
  rewrite Hf4.
  assert (Ht : n_taken a' = n_taken a - 1).
  { unfold a'. rewrite n_taken_set by done. unfold taken. rewrite Hc. simpl. lia. }
  pose proof (tally_range (taken a) 40 0) as R1. pose proof (tally_range (taken a') 40 0) as R2.
  fold (n_taken a) in R1. fold (n_taken a') in R2.
  set (m' := st32 m4 free_slots _).
  assert (Hn : ld32 m' free_slots = u32 (- n_taken a')).
  { unfold m'. rewrite ld32_st32_eq, u32_add_l. f_equal. lia. }
  eapply (wp_mono _ (fun _ w' => w' = set_mm w m')).
  { rewrite Hn. destruct (Z.eqb_spec (u32 (- n_taken a')) 40) as [E|]; cbn match; [|by wp_step].
    exfalso. revert E. destruct (Z.eq_dec (n_taken a') 0) as [->|]; [done|].
    replace (- n_taken a') with (2 ^ 32 - n_taken a' + (-1) * 2 ^ 32) by lia.
    rewrite u32_wrap, u32_small by lia. lia. }
  intros _ _ ->. exists m'. ands; [done | |].
  { eapply locks_same; [|exact Hl]. intros x Hx. unfold m', m4, in_locks in *. rewrite !ld8_st_out by lia. done. }
  assert (Hne : forall k b, e + 48 <= b -> b + Z.of_nat k <= e + 824 -> ld k m' b = ld k (mm w) b).
  { intros k b H1 H2. unfold m', m4. rewrite !ld_st_ne by lia. done. }
  eapply pool_rel_set; [exact Hr | done | | |].
  - fold e. intros x _ H1 H2. unfold m', m4. rewrite !ld8_st_out by lia. done.
  - fold e. split; cbn [s_comp s_lock s_listeners is_some negb] in *.
    + unfold m', m4. rewrite !ld_st_ne by lia. done.
    + unfold m', m4. by memsimp.
    + done.
    + unfold m', m4. rewrite !ld_st_ne by lia. done.
    + rewrite Hne by lia. done.
    + intros j Hj. specialize (Hls j Hj). unfold listener_rel, listener_at in *. by rewrite !Hne by lia.
  - exact Hn.
Qed.

Lemma pool_rel_ext m p a b : (forall i, a i = b i) -> pool_rel m p a -> pool_rel m p b.
Proof.
  intros E [H1 H2 H3 H4]. split; [done | | | done].
  - intros i Hi. rewrite <- E. by apply H2.
  - rewrite H3. do 2 f_equal. apply tally_ext. intros. unfold taken. by rewrite E.
Qed.

Lemma fset_fset {A} (f : Z -> A) i u v j : fset (fset f i u) i v j = fset f i v j.
Proof. unfold fset. by destruct (j =? i). Qed.

(** The last step of a detach, with both locks held. *)
Lemma drop_count_wp p a h i n c w : pool_rel (mm w) p a -> locks (mm w) h -> 0 <= i < 40 ->
  s_comp (a i) = Some (n, c) -> 0 < c ->
  let s o := Slot o (s_lock (a i)) (s_listeners (a i)) in
  let ret := if c =? 1 then 1 else 0 in
  wp (if u8 (c - 1) =? 0 then
        listeners ← rd32 (comp_entry i + 48);
        (if listeners =? 0 then clear_slot (comp_entry i) else mret tt) ;; mret 1
      else mret 0)
    (fun r w' => exists m', w' = set_mm w m' /\ r = ret /\ locks m' h /\
      pool_rel m' p (fset a i (s (if c =? 1 then (if n_listeners (a i) =? 0 then None else Some (n, 0))
                                  else Some (n, c - 1)))))
    (set_mm w (st 1 (mm w) (comp_entry i + 8) (c - 1))).
Proof.
  intros Hr Hl Hi Hc Hpos s ret. pose proof (entry_at i) as Ei. shm_facts.
  pose proof (sr_count _ _ _ _ (pr_slots _ _ _ Hr i Hi)) as Hcnt. rewrite Hc in Hcnt.
  pose proof (ld1_range (mm w) (comp_entry i + 8)) as Rc. rewrite Hcnt in Rc.
  pose proof (pool_rel_count (mm w) p a i n c (c - 1) Hr Hi Hc) as Hr1.
  pose proof (pool_store_locks (mm w) h i 1 8 (c - 1) Hi ltac:(lia) ltac:(lia) Hl) as Hl1.
  rewrite (u8_small (c - 1)) in * by lia. set (m1 := st 1 _ _ _) in *. unfold ret.
  destruct (Z.eqb_spec c 1) as [->|Hne].
  - simpl (_ =? 0). change (1 - 1) with 0 in *. cbn match. wp_step.
    pose proof (pr_slots _ _ _ Hr1 i Hi) as Hs1. rewrite fset_eq in Hs1.
    rewrite (sr_number _ _ _ _ Hs1). change (n_listeners (Slot _ _ _)) with (n_listeners (a i)).
    destruct (Z.eqb_spec (n_listeners (a i)) 0) as [Hz|Hz].
    + eapply wp_call.
      { eapply (clear_slot_wp p _ h i n 0 (set_mm w m1)); [exact Hr1 | exact Hl1 | done | | |].
        - by rewrite fset_eq.
        - by rewrite fset_eq.
        - apply ld1_st1_eq. }
      intros _ w' (m2 & -> & Hl2 & Hr2). wp_step. exists m2. ands; [done | done | done |].
      eapply pool_rel_ext; [|exact Hr2]. intros j. rewrite fset_fset, fset_eq. done.
    + do 2 wp_step. by exists m1.
  - rewrite eqb_neq_false by lia. wp_step. by exists m1.
Qed.

Lemma fd_detach_wp p a buf w :
  pool_rel (mm w) p a -> locks (mm w) nobody -> tgid_ok w -> elsewhere buf 36 ->
  wp (fd_detach buf) (fun r w' =>
    match a_detach (ld32 (mm w) (buf + 20)) a with
    | None => r = Some (- EINVAL) /\ w' = w
    | Some (ret, a') => r = None /\ exists m', w' = set_mm w m' /\ locks m' nobody /\
        pool_rel m' p a' /\ ld32 m' (buf + 24) = ret
    end) w.
Proof.
  intros Hr Hl Ht He. pose proof Hr as [[Hp Hpr] Hs _ _]. pose proof He as (He1 & He2 & _).
  pose proof (ld32_range (mm w) (buf + 20)) as Ri. pose proof pool_at as Ep. shm_facts.
  unfold fd_detach, a_detach, COMP_POOL_MAX_SLOTS. wp_step.
  set (i := ld32 (mm w) (buf + 20)) in *.
  destruct (Z.leb_spec 40 i) as [|Hi]; cbn match; [by wp_step|]. pose proof (entry_at i) as Ei.
  destruct (Hs i ltac:(lia)) as [Hcnt _ _ [Hlk Hlo] _ _].
  wp_step. rewrite Hcnt. destruct (s_comp (a i)) as [[n c]|] eqn:Hc; [|by wp_go].
  pose proof (ld1_range (mm w) (comp_entry i + 8)) as Rc. rewrite Hcnt in Rc.
  destruct (Z.eqb_spec c 0) as [|Hc0]; cbn match; [by wp_step|]. wp_step. rewrite Hlk. simpl orb.
  destruct (Z.eqb_spec (s_lock (a i)) 255) as [|Hl0]; cbn match; [by wp_step|]. wp_step. rewrite Hp.
  eapply wp_lock_ok; [by apply pool_lockable | done | exact Hl |]. intros m1 Hl1 Hf1.
  pose proof (pool_rel_locks _ _ _ _ Hf1 Hr) as Hr1.
  eapply wp_lock_ok; [by apply slot_lockable | done | exact Hl1 |]. wsimp. intros m2 Hl2 Hf2.
  pose proof (pool_rel_locks _ _ _ _ Hf2 Hr1) as Hr2.
  pose proof (sr_count _ _ _ _ (pr_slots _ _ _ Hr2 i ltac:(lia))) as Hcnt2. rewrite Hc in Hcnt2.
  do 2 wp_step. rewrite Hcnt2.
  eapply wp_call; [apply (drop_count_wp p a _ i n c (set_mm w m2) Hr2 Hl2); [lia | done | lia]|].
  intros r w' (m3 & -> & -> & Hl3 & Hr3). wsimp.
  eapply wp_unlock_ok; [by apply slot_lockable | exact Hl3 |]. wsimp. intros m4 Hl4 Hf4.
  pose proof (pool_rel_locks _ _ _ _ Hf4 Hr3) as Hr4. wp_step. rewrite (proj1 (pr_lock _ _ _ Hr4)).
  eapply wp_unlock_ok; [by apply pool_lockable | exact Hl4 |]. wsimp. intros m5 Hl5 Hf5.
  pose proof (pool_rel_locks _ _ _ _ Hf5 Hr4) as Hr5. do 2 wp_step.
  set (ret := if c =? 1 then 1 else 0) in *.
  destruct (elsewhere_store 4 m5 buf ret p _ _ (buf + 24) 36 He ltac:(lia) ltac:(lia) Hr5 Hl5) as [H1 H2].
  unfold ret in *. destruct (c =? 1); (split; [done|]; eexists; ands; [done | exact H2 | exact H1 | by memsimp]).
Qed.

(** ** Listeners *)

Lemma n_listeners_set s j o : 0 <= j < 16 ->
  n_listeners (Slot (s_comp s) (s_lock s) (fset (s_listeners s) j o)) =
  n_listeners s - b2z (listening s j) + b2z (is_some o).
Proof.
  intros Hj. unfold n_listeners. set (s' := Slot _ _ _).
  rewrite (tally_change (listening s) (listening s') 16 0 j); [| lia |].
  - unfold listening, s'. simpl. by rewrite fset_eq.
  - intros k Hk Hne. unfold listening, s'. simpl. by rewrite fset_ne.
Qed.

Lemma listener_rel_same m m' l o :
  (forall x, l <= x < l + 44 -> ld8 m' x = ld8 m x) -> listener_rel m l o -> listener_rel m' l o.
Proof.
  intros H. unfold listener_rel.
  assert (Hn : forall k b, l <= b -> b + Z.of_nat k <= l + 44 -> ld k m' b = ld k m b).
  { intros k b H1 H2. apply ld_same. intros x Hx. apply H. lia. }
  by rewrite !Hn by lia.
Qed.

(** One place of the table, and the two counters, are rewritten. *)
Lemma slot_rel_listener m m' p e s j o : slot_rel m p e s -> 0 <= j < 16 ->
  (forall x, x < e + 48 \/ e + 56 <= x < listener_at e j \/ listener_at e j + 48 <= x -> ld8 m' x = ld8 m x) ->
  listener_rel m' (listener_at e j) o ->
  ld32 m' (e + 48) = n_listeners s - b2z (listening s j) + b2z (is_some o) ->
  slot_rel m' p e (Slot (s_comp s) (s_lock s) (fset (s_listeners s) j o)).
Proof.
  intros [H1 H2 H3 H4 H5 H6] Hj Hs Ho Hn.
  assert (Hl : forall k b, b + Z.of_nat k <= e + 48 -> ld k m' b = ld k m b).
  { intros k b Hb. apply ld_same. intros x Hx. apply Hs. lia. }
  split; cbn [s_comp s_lock s_listeners is_some negb] in *; rewrite ?Hl by lia; try done.
  - destruct (s_comp s) as [[n c]|]; [|done]. rewrite H3. f_equal. symmetry.
    apply bytes_same. intros x Hx. apply Hs. lia.
  - by rewrite n_listeners_set.
  - intros k Hk. destruct (Z.eq_dec k j) as [->|Hne]; [by rewrite fset_eq|].
    rewrite fset_ne by done. eapply listener_rel_same; [|by apply H6].
    intros x Hx. apply Hs. unfold listener_at in *. lia.
Qed.

Lemma pool_rel_listener m m' p a i j o : pool_rel m p a -> 0 <= i < 40 -> 0 <= j < 16 ->
  (forall x, x < comp_entry i + 48 \/ comp_entry i + 56 <= x < listener_at (comp_entry i) j \/
     listener_at (comp_entry i) j + 48 <= x -> ld8 m' x = ld8 m x) ->
  listener_rel m' (listener_at (comp_entry i) j) o ->
  ld32 m' (comp_entry i + 48) = n_listeners (a i) - b2z (listening (a i) j) + b2z (is_some o) ->
  pool_rel m' p (set_listener a i j o).
Proof.
  intros Hr Hi Hj Hs Ho Hn. pose proof Hr as [_ Hsl Hf _]. pose proof (entry_at i). pose proof free_at.
  unfold listener_at in *. eapply pool_rel_set; [exact Hr | done | | |].
  - intros x _ H1 _. apply Hs. lia.
  - eapply slot_rel_listener; [by apply Hsl | done | exact Hs | done | done].
  - rewrite n_taken_set by done. cbn [s_comp]. unfold taken.
    rewrite (ld_same 4 m), Hf by (intros; apply Hs; lia). f_equal. lia.
Qed.

Lemma find_listener_eq w p a i callback mask : pool_rel (mm w) p a -> 0 <= i < 40 -> callback <> 0 ->
  0 <= cur_tgid w < 2 ^ 32 ->
  find_listener (comp_entry i) callback mask w =
  Ret (listener_at (comp_entry i) <$> a_listener (cur_tgid w) callback mask (a i)) w.
Proof.
  intros [_ Hs _ _] Hi Ht Hr. unfold find_listener, gets, a_listener. unfold mbind at 1, M_bind at 1.
  apply for_exit_first. intros j Hj. simpl in Hj. pose proof (entry_at i) as Ei. shm_facts.
  pose proof (sr_listeners _ _ _ _ (Hs i Hi) j ltac:(lia)) as Hl. unfold listener_rel in Hl.
  unfold rd, mbind, M_bind. unfold listener_at in *. rewrite !ltb_false by lia. rewrite (u32_small (cur_tgid w)) by done.
  destruct (s_listeners (a i) j) as [x|]; simpl is_listener.
  - destruct Hl as [_ ->]. cbn [l_callback l_mask l_owner].
    destruct (ld64 _ _ =? callback); [|done]. cbn [negb andb]. rewrite ?ltb_false by lia.
    destruct (ld32 _ _ =? mask); [|done]. cbn [negb andb]. rewrite ?ltb_false by lia.
    by destruct (_ =? cur_tgid w).
  - rewrite Hl. by rewrite eqb_neq_false by lia.
Qed.

Lemma find_free_listener_eq w p a i : pool_rel (mm w) p a -> 0 <= i < 40 ->
  find_free_listener (comp_entry i) w = Ret (listener_at (comp_entry i) <$> a_free_place (a i)) w.
Proof.
  intros [_ Hs _ _] Hi. unfold find_free_listener, a_free_place.
  apply for_exit_first. intros j Hj. simpl in Hj. pose proof (entry_at i) as Ei. shm_facts.
  pose proof (sr_listeners _ _ _ _ (Hs i Hi) j ltac:(lia)) as Hl. unfold listener_rel in Hl.
  unfold rd, mbind, M_bind. unfold listener_at in *. rewrite !ltb_false by lia. unfold listening.
  destruct (s_listeners (a i) j) as [x|]; simpl.
  - destruct Hl as [Hne ->]. simpl in Hne. by rewrite eqb_neq_false.
  - by rewrite Hl.
Qed.

(** The listener a request describes. *)
Definition requested (m : mem) (buf t : Z) : listener :=
  Listener (ld32 m (buf + 4)) (ld32 m buf) (ld64 m (buf + 8)) (ld32 m (buf + 16))
    (ld64 m (buf + 24)) (ld64 m (buf + 32)) t.

Lemma fill_listener_wp l buf w : 4096 <= l -> 4096 <= buf -> buf + 64 <= l \/ l + 48 <= buf ->
  0 <= cur_tgid w < 2 ^ 32 -> ld64 (mm w) (buf + 8) <> 0 ->
  wp (fill_listener l buf) (fun _ w' => exists m', w' = set_mm w m' /\ same_out l 48 (mm w) m' /\
    listener_rel m' l (Some (requested (mm w) buf (cur_tgid w)))) w.
Proof.
  intros Hl Hb Hd Ht Hc. pose proof (fun n b => ld_range n (mm w) b) as R.
  unfold fill_listener, requested. wp_go. eexists. split; [done|]. split; [same_out_tac|].
  unfold listener_rel. split; [done|]. cbn [l_callback]. f_equal.
  all: repeat first [ rewrite ld_st_ne by lia | rewrite ld_st_eq ].
  all: rewrite ?Z.mod_small by first [apply R | lia]; done.
Qed.

Lemma incr_at b w : 4096 <= b ->
  wp (incr b) (fun _ w' => w' = set_mm w (st32 (mm w) b (ld32 (mm w) b + 1))) w.
Proof. intros H. unfold incr. by wp_go. Qed.

Lemma n_listeners_range s : 0 <= n_listeners s <= 16.
Proof. apply (tally_range (listening s) 16 0). Qed.

Lemma add_listener_locked_wp p a h i buf w :
  pool_rel (mm w) p a -> locks (mm w) h -> 0 <= i < 40 -> elsewhere buf 64 ->
  0 <= cur_tgid w < 2 ^ 32 -> ld64 (mm w) (buf + 8) <> 0 -> n_listeners (a i) < 16 ->
  let r := a_add i (requested (mm w) buf (cur_tgid w)) a in
  wp (add_listener_locked (comp_entry i) buf) (fun ret w' => ret = fst r /\ exists m', w' = set_mm w m' /\
    locks m' h /\ pool_rel m' p (snd r)) w.
Proof.
  intros Hr Hl Hi He Ht Hc Hn r. pose proof He as (He1 & He2 & He3 & _). pose proof (entry_at i) as Ei. shm_facts.
  unfold add_listener_locked, r, a_add. rewrite (leb_false 16) by lia. cbn [requested l_owner l_callback l_mask].
  do 2 wp_step. eapply wp_eq; [by apply (find_listener_eq _ p a)|].
  destruct (a_listener _ _ _ _); cbn [fmap option_fmap option_map]; cbn match.
  { wp_step. split; [done|]. exists (mm w). by rewrite set_mm_id. }
  eapply wp_eq; [by apply (find_free_listener_eq _ p a)|].
  destruct (a_free_place (a i)) as [j|] eqn:Ej; cbn [fmap option_fmap option_map]; cbn match.
  2: { wp_step. split; [done|]. exists (mm w). by rewrite set_mm_id. }
  destruct (first_some _ _ _ _ Ej) as (Hj & Hu & _). simpl in Hj.
  set (l := listener_at (comp_entry i) j). assert (El : l = comp_entry i + 56 + 48 * j) by done.
  eapply wp_call; [apply fill_listener_wp; [lia | lia | lia | done | done]|].
  intros _ w' (m1 & -> & Ho & Hlr). wsimp.
  pose proof (sr_number _ _ _ _ (pr_slots _ _ _ Hr i Hi)) as Hnum.
  assert (Hn1 : ld32 m1 (comp_entry i + 48) = n_listeners (a i)).
  { rewrite <- Hnum. apply (ld_same_out 4 _ _ _ _ _ Ho). lia. }
  wp_go. rewrite Hn1. split; [done|]. eexists. split; [done|].
  pose proof (n_listeners_range (a i)).
  split.
  - eapply locks_same; [|exact Hl]. intros x Hx. rewrite !ld8_st_out by (unfold in_locks in Hx; lia).
    apply Ho. unfold in_locks in Hx. lia.
  - eapply pool_rel_listener; [exact Hr | done | lia | | |].
    + fold l. intros x Hx. rewrite !ld8_st_out by lia. apply Ho. lia.
    + fold l. eapply listener_rel_same; [|exact Hlr]. intros x Hx. rewrite !ld8_st_out by lia. done.
    + rewrite ld_st_ne by lia. rewrite ld32_st32_eq, u32_small by lia.
      apply negb_true_iff in Hu. rewrite Hu. simpl. lia.
Qed.

Lemma add_listener_wp p a buf w :
  pool_rel (mm w) p a -> locks (mm w) nobody -> tgid_ok w -> elsewhere buf 64 ->
  ld64 (mm w) (buf + 8) <> 0 ->
  let i := ld32 (mm w) buf in
  let r := a_add i (requested (mm w) buf (cur_tgid w)) a in
  wp (add_listener buf) (fun e w' =>
    if 40 <=? i then e = Some (- EINVAL) /\ w' = w
    else e = None /\ exists m', w' = set_mm w m' /\ locks m' nobody /\ pool_rel m' p (snd r) /\
         ld32 m' (buf + 60) = u32 (fst r)) w.
Proof.
  intros Hr Hl Ht He Hc i r. pose proof Hr as [[Hp Hpr] Hs _ _]. pose proof He as (He1 & He2 & _).
  pose proof (ld32_range (mm w) buf) as Ri. fold i in Ri. shm_facts.
  unfold add_listener, COMP_POOL_MAX_SLOTS, COMP_POOL_MAX_LISTENERS. wp_step. fold i.
  destruct (Z.leb_spec 40 i) as [|Hi]; cbn match; [by wp_step|]. pose proof (entry_at i) as Ei.
  destruct (Hs i ltac:(lia)) as [_ _ _ [Hlk Hlo] Hnum _]. do 2 wp_step. rewrite Hlk, Hnum.
  apply wp_bind.
  eapply (wp_mono _ (fun ret w' => ret = fst r /\ exists m', w' = set_mm w m' /\ locks m' nobody /\
    pool_rel m' p (snd r))).
  2: { intros ret w' (-> & m' & -> & Hl' & Hr'). do 2 wp_step. split; [done|].
    destruct (elsewhere_store 4 m' buf (fst r) p _ _ (buf + 60) 64 He ltac:(lia) ltac:(lia) Hr' Hl') as [H1 H2].
    eexists. ands; [done | exact H2 | exact H1 | apply ld32_st32_eq]. }
  destruct (Z.leb_spec 16 (n_listeners (a i))) as [Hfull|Hfull]; cbn match.
  { wp_step. unfold r, a_add. rewrite leb_true by done. split; [done|]. exists (mm w). by rewrite set_mm_id. }
  assert (Hlo2 : lockable nobody (s_lock (a i))).
  { destruct Hlo as [->|[H1 H2]]; [by left | right; split; [lia | done]]. }
  eapply wp_lock_ok; [exact Hlo2 | done | exact Hl |]. intros m1 Hl1 Hf1.
  pose proof (pool_rel_locks _ _ _ _ Hf1 Hr) as Hr1.
  assert (Hb : forall n b, buf <= b -> b + Z.of_nat n <= buf + 64 -> ld n m1 b = ld n (mm w) b).
  { intros n b H1 H2. apply (lock_frame_ld _ _ _ _ Hf1). intros x Hx. apply (elsewhere_not_locks _ _ _ He). lia. }
  assert (Er : requested m1 buf (cur_tgid w) = requested (mm w) buf (cur_tgid w)).
  { unfold requested. by rewrite !Hb by lia. }
  eapply wp_call.
  { apply (add_listener_locked_wp p a _ i buf (set_mm w m1) Hr1 Hl1); try done; [lia | apply Ht |].
    simpl. by rewrite Hb by lia. }
  intros ret w' (-> & m2 & -> & Hl2 & Hr2).
  rewrite mm_set_mm, cur_tgid_set_mm, Er in *. fold r in Hr2 |- *. wsimp.
  eapply wp_unlock_ok; [exact Hlo2 | exact Hl2 |]. wsimp. intros m3 Hl3 Hf3. wp_step.
  split; [done|]. exists m3. ands; [done | done | exact (pool_rel_locks _ _ _ _ Hf3 Hr2)].
Qed.

Lemma clear_listener_wp p a h i j w :
  pool_rel (mm w) p a -> locks (mm w) h -> 0 <= i < 40 -> 0 <= j < 16 -> listening (a i) j = true ->
  wp (clear_listener (comp_entry i) (listener_at (comp_entry i) j)) (fun _ w' => exists m',
    w' = set_mm w m' /\ locks m' h /\ pool_rel m' p (set_listener a i j None)) w.
Proof.
  intros Hr Hl Hi Hj Hu. pose proof (entry_at i) as Ei. shm_facts.
  set (l := listener_at (comp_entry i) j). assert (El : l = comp_entry i + 56 + 48 * j) by done.
  pose proof (sr_number _ _ _ _ (pr_slots _ _ _ Hr i Hi)) as Hnum.
  pose proof (n_listeners_range (a i)) as Rn.
  pose proof (tally_pos (listening (a i)) 16 0 j ltac:(lia) Hu) as Hpos. fold (n_listeners (a i)) in Hpos.
  unfold clear_listener. wp_go. rewrite !(ld_st_ne 4 _ _ _ _ (comp_entry i + 48)) by lia. rewrite Hnum.
  eexists. split; [done|]. split.
  - eapply locks_same; [|exact Hl]. intros x Hx. rewrite !ld8_st_out by (unfold in_locks in Hx; lia). done.
  - eapply pool_rel_listener; [exact Hr | done | done | | |].
    + fold l. intros x Hx. rewrite !ld8_st_out by lia. done.
    + fold l. unfold listener_rel. repeat (rewrite ld_st_ne by lia). apply ld_st_eq.
    + rewrite ld_st_ne by lia. rewrite ld32_st32_eq, u32_small by lia. rewrite Hu. simpl. lia.
Qed.

Lemma a_listener_at t c k s j : a_listener t c k s = Some j -> 0 <= j < 16 /\ listening s j = true.
Proof.
  intros H. destruct (first_some _ _ _ _ H) as (H1 & H2 & _). split; [lia|].
  unfold is_listener, listening in *. by destruct (s_listeners s j).
Qed.

Lemma remove_listener_wp p a buf w :
  pool_rel (mm w) p a -> locks (mm w) nobody -> tgid_ok w -> elsewhere buf 16 ->
  ld64 (mm w) (buf + 4) <> 0 ->
  let i := ld32 (mm w) buf in
  let r := a_remove (cur_tgid w) i (ld64 (mm w) (buf + 4)) (ld32 (mm w) (buf + 8)) a in
  wp (remove_listener buf) (fun e w' =>
    if 40 <=? i then e = Some (- EINVAL) /\ w' = w
    else e = None /\ exists m', w' = set_mm w m' /\ locks m' nobody /\ pool_rel m' p (snd r) /\
         ld32 m' (buf + 12) = u32 (fst r)) w.
Proof.
  intros Hr Hl Ht He Hc i r. pose proof Hr as [[Hp Hpr] Hs _ _]. pose proof He as (He1 & He2 & _).
  pose proof (ld32_range (mm w) buf) as Ri. fold i in Ri. shm_facts.
  unfold remove_listener, COMP_POOL_MAX_SLOTS. wp_step. fold i.
  destruct (Z.leb_spec 40 i) as [|Hi]; cbn match; [by wp_step|]. pose proof (entry_at i) as Ei.
  destruct (Hs i ltac:(lia)) as [_ _ _ [Hlk Hlo] _ _]. wp_step. rewrite Hlk.
  assert (Hlo2 : lockable nobody (s_lock (a i))).
  { destruct Hlo as [->|[H1 H2]]; [by left | right; split; [lia | done]]. }
  eapply wp_lock_ok; [exact Hlo2 | done | exact Hl |]. intros m1 Hl1 Hf1.
  pose proof (pool_rel_locks _ _ _ _ Hf1 Hr) as Hr1.
  assert (Hb : forall n b, buf <= b -> b + Z.of_nat n <= buf + 16 -> ld n m1 b = ld n (mm w) b).
  { intros n b H1 H2. apply (lock_frame_ld _ _ _ _ Hf1). intros x Hx. apply (elsewhere_not_locks _ _ _ He). lia. }
  do 2 wp_step. rewrite !Hb by lia.
  eapply wp_eq; [apply (find_listener_eq _ p a); [done | lia | done | apply Ht]|].
  rewrite cur_tgid_set_mm. unfold r, a_remove.
  destruct (a_listener _ _ _ _) as [j|] eqn:Ej; cbn [fmap option_fmap option_map]; cbn match.
  - destruct (a_listener_at _ _ _ _ _ Ej) as [Hj Hu].
    eapply wp_call; [by apply (clear_listener_wp p a _ i j (set_mm w m1) Hr1 Hl1 ltac:(lia) Hj Hu)|].
    intros _ w' (m2 & -> & Hl2 & Hr2). wsimp.
    eapply wp_unlock_ok; [exact Hlo2 | exact Hl2 |]. wsimp. intros m3 Hl3 Hf3. do 2 wp_step. split; [done|].
    destruct (elsewhere_store 4 m3 buf 0 p _ _ (buf + 12) 16 He ltac:(lia) ltac:(lia)
      (pool_rel_locks _ _ _ _ Hf3 Hr2) Hl3) as [H1 H2].
    eexists. ands; [done | exact H2 | exact H1 | apply ld32_st32_eq].
  - wp_step. eapply wp_unlock_ok; [exact Hlo2 | exact Hl1 |]. wsimp. intros m3 Hl3 Hf3. do 2 wp_step.
    split; [done|].
    destruct (elsewhere_store 4 m3 buf (- ENOENT) p _ _ (buf + 12) 16 He ltac:(lia) ltac:(lia)
      (pool_rel_locks _ _ _ _ Hf3 Hr1) Hl3) as [H1 H2].
    eexists. ands; [done | exact H2 | exact H1 | apply ld32_st32_eq].
Qed.
End FdOps.
