(* ===== verification/FdInit.v ===== *)
(** What [InitComponentPool] makes of the pool: empty slots that all share
    spinlock 0, a count of free slots that starts at 0, and the words of the
    shared buffer as they were. *)
From S2P Require Import Prelude Mem Kernel Fifo Shm SpinLock SeqMem Smm Routine Msgbox UserQueue Proto FdPool FdSpec FdOps.

Definition empty_pool : Z -> slot := fun _ => Slot None 0 (fun _ => None).

Section FdInit.
Context {S : Shm} {OK : ShmOk S} {K : Kernel} {HQ : Quiet K}.

(** The bytes of a slot that the handlers take as zero in a free slot. *)
Definition slot_key (i x : Z) : Prop :=
  let e := comp_entry i in
  e + 8 <= x < e + 10 \/ e + 32 <= x < e + 36 \/ e + 48 <= x < e + 52 \/
  exists j, 0 <= j < 16 /\ e + 64 + 48 * j <= x < e + 72 + 48 * j.

Definition key (x : Z) : Prop :=
  in_locks x \/ getComponentPool <= x < getComponentPool + 4 \/ free_slots <= x < free_slots + 4 \/
  shmem_mid <= x < shmem_mid + 12 \/ exists i, 0 <= i < 40 /\ slot_key i x.

Definition keeps (m m' : mem) : Prop := forall x, key x -> ld8 m' x = ld8 m x.

Lemma keeps_store m m' n a v : keeps m m' -> (forall x, a <= x < a + Z.of_nat n -> ~ key x) ->
  keeps m (st n m' a v).
Proof.
  intros H Ha x Hx. rewrite ld8_st_out; [by apply H|].
  destruct (decide (a <= x < a + Z.of_nat n)) as [Hin|]; [by destruct (Ha x Hin) | lia].
Qed.

Lemma not_key i off n x : 0 <= i < 40 ->
  (off = 10 /\ n = 1) \/ (off = 24 /\ n = 4) \/ (off = 28 /\ n = 2) \/
  (exists k, 0 <= k < 16 /\ off = 88 + 48 * k /\ n = 4) \/ (i = 9 /\ off = 816 /\ n = 4) ->
  comp_entry i + off <= x < comp_entry i + off + n -> ~ key x.
Proof.
  intros Hi Hoff Hx. assert (Hr : 10 <= off /\ off + n <= 824).
  { destruct Hoff as [?|[?|[?|[(k & Hk & ? & ?)|?]]]]; lia. }
  assert (Hs : slot_key i x -> False).
  { unfold slot_key. intros [H|[H|[H|(j & Hj & H)]]];
      (destruct Hoff as [?|[?|[?|[(k & Hk & ? & ?)|?]]]]; lia). }
  rewrite entry_at in Hx. pose proof free_at as Ef. pose proof pool_at as Ep. shm_facts.
  intros [H|[H|[H|[H|(i' & Hi' & H)]]]].
  - unfold in_locks in H. lia.
  - lia.
  - lia.
  - unfold shmem_mid in H. rewrite Ep in H. lia.
  - destruct (Z.eq_dec i' i) as [->|Hne]; [by apply Hs|]. unfold slot_key in H. rewrite entry_at in H.
    destruct H as [H|[H|[H|(j & Hj & H)]]]; lia.
Qed.

(** One slot of the loop. *)
Lemma init_slot_wp m0 m i w : 0 <= i < 40 -> mm w = m -> keeps m0 m ->
  let comp := getComponentPool + 4 * (i * (816 / 4) + 4) in
  wp (wr8 (comp + 10 - 16) i ;;
      wr32 (comp + 8) 255 ;;
      wr16 (comp + 0x1C - 16) 2 ;;
      for_ 16 0 (fun k => wr32 (comp + 4 * ((12 * k + 18) * 4 / 4)) SESSION_ID_INVALID))
     (fun _ w' => exists m', w' = set_mm w m' /\ keeps m0 m') w.
Proof.
  intros Hi Em Hk comp. pose proof pool_at as Ep. pose proof (entry_at i) as Ei. shm_facts.
  change (816 / 4) with 204 in comp. assert (Ec : comp = comp_entry i + 16) by (unfold comp; lia).
  rewrite Ec. do 3 wp_step. rewrite Em.
  assert (H3 : keeps m0 (st16 (st32 (st 1 m (comp_entry i + 16 + 10 - 16) i) (comp_entry i + 16 + 8) 255)
    (comp_entry i + 16 + 28 - 16) 2)).
  { apply keeps_store; [apply keeps_store; [apply keeps_store; [done|]|]|]; intros x Hx; simpl Z.of_nat in Hx.
    - apply (not_key i 10 1 x Hi); lia.
    - apply (not_key i 24 4 x Hi); lia.
    - apply (not_key i 28 2 x Hi); lia. }
  apply (wp_for 16 0 _ (fun k w' => exists m', w' = set_mm w m' /\ keeps m0 m')).
  - eexists. split; [done | exact H3].
  - intros k w' Hkr (m' & -> & Hk'). simpl in Hkr. rewrite Z.div_mul by lia. wp_step. eexists. split; [done|].
    apply keeps_store; [done|]. intros x Hx. simpl Z.of_nat in Hx.
    apply (not_key i (88 + 48 * k) 4 x Hi); [|lia]. right; right; right; left. exists k. lia.
  - done.
Qed.

(** A pool whose key bytes are zero is empty. *)
Lemma empty_pool_rel m p : 5 <= p <= 11 -> ld32 m getComponentPool = p -> ld32 m free_slots = 0 ->
  (forall i x, 0 <= i < 40 -> slot_key i x -> ld8 m x = 0) ->
  @pool_rel S (ld64 m shmem_mid, ld32 m shmem_size) m p empty_pool.
Proof.
  intros Hp Hw Hf Hz.
  assert (H0 : forall i n b, 0 <= i < 40 -> (forall x, b <= x < b + Z.of_nat n -> slot_key i x) -> ld n m b = 0).
  { intros i n b Hi H. rewrite <- (ld_fill0_in n n m b b) by lia. symmetry. apply ld_same.
    intros x Hx. rewrite ld8_fill_in by lia. symmetry. by apply (Hz i), H. }
  split; [done | | exact Hf | done].
  intros i Hi. split; cbn [empty_pool s_comp s_lock s_listeners is_some negb].
  - apply (H0 i); [done|]. intros x Hx. unfold slot_key. lia.
  - rewrite (H0 i 1%nat); [done | done |]. intros x Hx. unfold slot_key. lia.
  - done.
  - split; [|right; lia]. apply (H0 i); [done|]. intros x Hx. unfold slot_key. lia.
  - apply (H0 i); [done|]. intros x Hx. unfold slot_key. lia.
  - intros j Hj. apply (H0 i); [done|]. intros x Hx. unfold slot_key, listener_at in *.
    right; right; right. exists j. lia.
Qed.

Lemma InitComponentPool_wp w : locks (mm w) nobody ->
  wp (InitComponentPool getComponentPool) (fun _ w' => exists m', w' = set_mm w m' /\ locks m' nobody /\
    (spin_free (mm w) 5 -> ld32 m' getComponentPool = 5) /\
    (ld32 m' getComponentPool = 255 \/ exists p,
       @pool_rel S (ld64 (mm w) shmem_mid, ld32 (mm w) shmem_size) m' p empty_pool)) w.
Proof.
  intros Hl. pose proof pool_at as Ep. pose proof free_at as Ef. shm_facts.
  assert (Em : shmem_mid = ShMemAddrBase + 147656 + 32656) by (unfold shmem_mid; by rewrite Ep).
  assert (Es : shmem_size = ShMemAddrBase + 147656 + 32664) by (unfold shmem_size; by rewrite Ep).
  unfold InitComponentPool, COMPONENT_COUNT. rewrite eqb_neq_false by lia.
  change (8162 / 4) with 2040. generalize (Z.to_nat (40 * 816 + 16)), (Z2Nat.id (40 * 816 + 16) ltac:(lia)).
  intros size Hsize. wp_step. wp_step. change (4 * 2040) with 8160.
  set (m1 := st32 _ (getComponentPool + 8160) 40).
  assert (Ho1 : forall x, x < getComponentPool \/ getComponentPool + 32656 <= x -> ld8 m1 x = ld8 (mm w) x).
  { intros x Hx. unfold m1. rewrite ld8_st_out by lia. apply ld8_fill_out. lia. }
  assert (Hz1 : forall x, getComponentPool <= x < getComponentPool + 32656 ->
    x < getComponentPool + 8160 \/ getComponentPool + 8164 <= x -> ld8 m1 x = 0).
  { intros x Hx H. unfold m1. rewrite ld8_st_out by lia. rewrite ld8_fill_in by lia. done. }
  assert (Hl1 : locks m1 nobody).
  { eapply locks_same; [|exact Hl]. intros x Hx. apply Ho1. unfold in_locks in Hx. lia. }
  eapply wp_call; [by apply comm_ReqestSpinLock_wp|]. intros id w' (m2 & -> & Hl2 & Hf2 & Hid & H5). wsimp.
  wp_step. set (m3 := st32 m2 getComponentPool id).
  assert (H3 : forall x, ~ in_locks x -> getComponentPool + 4 <= x -> ld8 m3 x = ld8 m1 x).
  { intros x Hx H. unfold m3. rewrite ld8_st_out by lia. by apply Hf2. }
  assert (Hl3 : locks m3 nobody).
  { eapply locks_same; [|exact Hl2]. intros x Hx. unfold m3, in_locks in *. apply ld8_st_out. lia. }
  assert (Hp3 : ld32 m3 getComponentPool = id) by (unfold m3; rewrite ld32_st32_eq; by u32s).
  assert (Hs5 : spin_free (mm w) 5 -> id = 5).
  { intros Hs. apply H5. eapply spin_free_same; [lia | | exact Hs]. intros x Hx. apply Ho1. lia. }
  destruct (Z.eqb_spec id 255) as [->|Hne]; cbn match.
  { wp_step. exists m3. ands; [done | done | | by left]. intros Hs. by rewrite Hp3, Hs5. }
  apply (wp_for 40 0 _ (fun k w' => exists m', w' = set_mm w m' /\ keeps m3 m')).
  - exists m3. done.
  - intros i w' Hi (m' & -> & Hk). simpl in Hi.
    eapply wp_mono; [eapply (init_slot_wp m3 m' i (set_mm w m')); [lia | done | done]|].
    intros _ w' (m4 & -> & Hk4). exists m4. wsimp. done.
  - intros w' (m' & -> & Hk). exists m'.
    assert (Hke : forall n b, (forall x, b <= x < b + Z.of_nat n -> key x) -> ld n m' b = ld n m3 b).
    { intros n b H. apply ld_same. intros x Hx. apply Hk, H, Hx. }
    assert (Hb : forall n b, shmem_mid <= b -> b + Z.of_nat n <= shmem_mid + 12 -> ld n (mm w) b = ld n m' b).
    { intros n b H1 H2. symmetry. rewrite Hke by (intros x Hx; unfold key; lia). apply ld_same. intros x Hx.
      rewrite H3, Ho1; [done | lia | | lia]. unfold in_locks. lia. }
    split; [done|]. split; [eapply locks_same; [|exact Hl3]; intros x Hx; apply Hk; by left|].
    assert (Hp' : ld32 m' getComponentPool = id).
    { rewrite Hke; [done|]. intros x Hx. right. left. simpl in Hx. lia. }
    split; [by rewrite Hp'|]. right. exists id. rewrite (Hb 8%nat), (Hb 4%nat) by lia. apply empty_pool_rel.
    + destruct Hid; [done | lia].
    + exact Hp'.
    + rewrite Hke by (intros x Hx; unfold key; lia).
      rewrite <- (ld_fill0_in 4 4 ∅ free_slots free_slots) by lia. apply ld_same. intros x Hx.
      rewrite ld8_fill_in by lia. rewrite H3, Hz1; [done | lia | lia | | lia]. unfold in_locks. lia.
    + intros i x Hi Hx. rewrite Hk by (unfold key; eauto 10).
      assert (Hr : comp_entry i + 8 <= x < comp_entry i + 824 /\ ~ (i = 9 /\ comp_entry i + 816 <= x < comp_entry i + 820)).
      { unfold slot_key in Hx. destruct Hx as [H|[H|[H|(j & Hj & H)]]]; lia. }
      rewrite entry_at in Hr. rewrite H3, Hz1; [done | | | | lia]; [| |unfold in_locks; lia].
      * destruct (Z.eq_dec i 39) as [->|]; [|lia].
        assert (x < comp_entry 39 + 816 \/ comp_entry 39 + 816 <= x) as [|Hbad] by lia; [rewrite entry_at in *; lia|].
        exfalso. unfold slot_key in Hx. destruct Hx as [H|[H|[H|(j & Hj & H)]]]; lia.
      * lia.
Qed.
End FdInit.
