(* ===== verification/FdSafe.v ===== *)
(** System calls on /dev/cpu_comm_fd: a process fills a block of its memory,
    makes the ioctl and reads the answer.  Sequences of such calls refine the
    abstract pool of [FdSpec]; what the handlers get wrong follows from it. *)
From S2P Require Import Prelude Mem Kernel Fifo Shm SpinLock SeqMem Smm Routine Msgbox UserQueue Proto FdPool FdSpec FdOps FdInit.
From stdpp Require Import pretty.
#[local] Open Scope Z_scope.

(** ** Calls *)

Record fd_call := FdCall {
  c_tgid : Z;                (* the calling process *)
  c_cmd : Z;
  c_block : list Z;          (* what it puts into its block *)
  c_clock : nat -> Z;        (* the readings of jiffies during the call *)
}.

(** The value of [n] bytes of a block. *)
Definition view (block : list Z) (n : nat) (off : Z) : Z := ld n (wrbytes ∅ 0 block) off.

Definition block_size (cmd : Z) : nat :=
  if cmd =? IOCTL_FD_COMPONENT then 36%nat
  else if cmd =? IOCTL_FD_ADDLISTENER then 64%nat else 16%nat.

(** Where the handler leaves its result. *)
Definition out_offset (c : fd_call) : Z :=
  if c_cmd c =? IOCTL_FD_COMPONENT then (if view (c_block c) 4 16 =? 2 then 24 else 20)
  else if c_cmd c =? IOCTL_FD_ADDLISTENER then 60 else 12.

Definition block_name (block : list Z) : list Z := c_text (take 15 block).
Definition block_listener (t : Z) (block : list Z) : listener :=
  Listener (view block 4 4) (view block 4 0) (view block 8 8) (view block 4 16)
    (view block 8 24) (view block 8 32) t.

(** What a call returns and answers, and the pool after it; [lk] is the
    spinlock a new component gets. *)
Definition a_call (lk : Z) (c : fd_call) (a : Z -> slot) : (Z * option Z) * (Z -> slot) :=
  let v := view (c_block c) in
  let ok r := ((0, Some (u32 (fst r))), snd r) in
  let invalid := ((- EINVAL, None), a) in
  if c_cmd c =? IOCTL_FD_COMPONENT then
    if v 4%nat 16 =? 0 then ok (a_create (block_name (c_block c)) lk a)
    else if v 4%nat 16 =? 1 then ok (a_attach (block_name (c_block c)) a)
    else if v 4%nat 16 =? 2 then
      match a_detach (v 4%nat 20) a with Some (r, a') => ((0, Some r), a') | None => invalid end
    else invalid
  else if 40 <=? v 4%nat 0 then invalid
  else if c_cmd c =? IOCTL_FD_ADDLISTENER
  then ok (a_add (v 4%nat 0) (block_listener (c_tgid c) (c_block c)) a)
  else ok (a_remove (c_tgid c) (v 4%nat 0) (v 8%nat 4) (v 4%nat 8) a).

(** One call after another. *)
Inductive a_calls (p : Z) : (Z -> slot) -> list fd_call -> list (Z * option Z) -> (Z -> slot) -> Prop :=
| calls_nil a : a_calls p a [] [] a
| calls_cons a c cs lk r a1 rs a2 : lock_ok p lk -> a_call lk c a = (r, a1) ->
    a_calls p a1 cs rs a2 -> a_calls p a (c :: cs) (r :: rs) a2.

Section FdSafe.
Context {S : Shm} {K : Kernel} {U : Uaccess} {J : Jiffies}.
Variables (arg buf : Z).      (* the process's block, the handler's buffer *)

Definition run_fd_call (c : fd_call) : M (Z * option Z) :=
  modify (fun w => set_mm (set_tgid w (c_tgid c)) (wrbytes (mm w) arg (c_block c))) ;;
  ret ← comm_fd_ioctl (c_clock c) (c_cmd c) arg buf;
  if ret =? 0 then out ← gets (fun w => ld32 (mm w) (arg + out_offset c)); mret (0, Some out)
  else mret (ret, None).

Fixpoint run_fd_calls (l : list fd_call) : M (list (Z * option Z)) :=
  match l with
  | [] => mret []
  | c :: l' => r ← run_fd_call c; rs ← run_fd_calls l'; mret (r :: rs)
  end.

(** A process can be told from "no thread"; the timeout of an attach is not 0
    and comes to its end; the callback of a listener is not 0. *)
Definition call_ok (c : fd_call) : Prop :=
  0 < c_tgid c < 2 ^ 32 /\ c_tgid c <> SPINLOCK_HWID_NONE /\
  (c_cmd c = IOCTL_FD_COMPONENT \/ c_cmd c = IOCTL_FD_ADDLISTENER \/ c_cmd c = IOCTL_FD_REMOVELISTENER) /\
  length (c_block c) = block_size (c_cmd c) /\ Forall (fun b => 0 <= b < 256) (c_block c) /\
  (c_cmd c = IOCTL_FD_COMPONENT -> view (c_block c) 4 16 = 1 ->
     attach_ends (c_clock c) (view (c_block c) 4 28)
       (u32 (c_clock c 0%nat + msecs_to_jiffies (view (c_block c) 4 28)))) /\
  (c_cmd c = IOCTL_FD_ADDLISTENER -> view (c_block c) 8 8 <> 0) /\
  (c_cmd c = IOCTL_FD_REMOVELISTENER -> view (c_block c) 8 4 <> 0).

Context {OK : ShmOk S} {HQ : Quiet K}.
Hypothesis Harg : elsewhere arg 64.
Hypothesis Hbuf : elsewhere buf 64.
Hypothesis Hacc : forall n w, access_ok arg n w = true.
Context {shared : Z * Z}.
Local Abbreviation pool_rel := (@pool_rel S shared).

(** ** Blocks *)

Lemma ld8_block m a l x : 0 <= x < Z.of_nat (length l) -> Forall (fun b => 0 <= b < 256) l ->
  ld8 (wrbytes m a l) (a + x) = ld8 (wrbytes ∅ 0 l) x.
Proof.
  intros Hx Hl. destruct (lookup_lt_is_Some_2 l (Z.to_nat x)) as [b Hb]; [lia|].
  pose proof (proj1 (Forall_lookup _ l) Hl _ _ Hb) as Rb.
  pose proof (ld8_wrbytes_in l m a _ b Hb Rb) as E1. pose proof (ld8_wrbytes_in l ∅ 0 _ b Hb Rb) as E2.
  rewrite Z2Nat.id in E1, E2 by lia. rewrite E1. rewrite Z.add_0_l in E2. by rewrite E2.
Qed.

Lemma block_view m a l n off : 0 <= off -> off + Z.of_nat n <= Z.of_nat (length l) ->
  Forall (fun b => 0 <= b < 256) l -> ld n (wrbytes m a l) (a + off) = view l n off.
Proof.
  intros H1 H2 Hl. unfold view. apply ld_move. intros x Hx.
  rewrite <- Z.add_assoc. rewrite ld8_block by (done || lia). done.
Qed.

Lemma block_bytes m a l n : (n <= length l)%nat -> Forall (fun b => 0 <= b < 256) l ->
  bytes n (wrbytes m a l) a = take n l.
Proof.
  intros Hn Hl. rewrite <- (take_drop n l) at 1.
  assert (E : forall l1 l2 m a, Forall (fun b => 0 <= b < 256) l1 ->
    bytes (length l1) (wrbytes m a (l1 ++ l2)) a = l1).
  { clear. induction l1 as [|b l1 IH]; intros l2 m a H; [done|]. inversion H; subst. simpl.
    rewrite IH by done. f_equal. rewrite ld8_wrbytes_out by lia. rewrite ld8_st8_eq. apply u8_small. lia. }
  pose proof (E (take n l) (drop n l) m a ltac:(by apply Forall_take)) as E1.
  rewrite length_take_le in E1 by done. done.
Qed.

Lemma elsewhere_write m a l b n p x : elsewhere b n -> a = b -> Z.of_nat (length l) <= n ->
  pool_rel m p x -> locks m nobody -> pool_rel (wrbytes m a l) p x /\ locks (wrbytes m a l) nobody.
Proof.
  intros He -> Hn Hr Hl. split.
  - eapply pool_rel_same; [|exact Hr]. intros y Hy. apply ld8_wrbytes_out.
    destruct (decide (b <= y < b + n)) as [Hin|]; [by destruct (elsewhere_not_pool _ _ _ He Hin) | lia].
  - eapply locks_same; [|exact Hl]. intros y Hy. apply ld8_wrbytes_out.
    destruct (decide (b <= y < b + n)) as [Hin|]; [by destruct (elsewhere_not_locks _ _ _ He Hin) | lia].
Qed.

(** The handler starts with a copy of the block. *)
Lemma with_buf_wp n (l : list Z) (k : M Z) Q w m0 : length l = n -> Forall (fun b => 0 <= b < 256) l ->
  mm w = wrbytes m0 arg l ->
  (forall m, (forall i off, 0 <= off -> off + Z.of_nat i <= Z.of_nat n -> ld i m (buf + off) = view l i off) ->
     (forall i, (i <= n)%nat -> bytes i m buf = take i l) ->
     m = wrbytes (mm w) buf l -> wp k Q (set_mm w m)) ->
  wp (with_buf arg buf n k) Q w.
Proof.
  intros Hn Hl Hm H. unfold with_buf, copy_from_user. unfold mbind, M_bind. unfold wp at 1. rewrite Hacc.
  fold (wp k Q (set_mm w (wrbytes (mm w) buf (bytes n (mm w) arg)))).
  assert (E : bytes n (mm w) arg = l).
  { rewrite Hm, block_bytes by (done || lia). by rewrite <- Hn, firstn_all. }
  rewrite E. apply H; [| |done].
  - intros i off H1 H2. apply block_view; [done | lia | done].
  - intros i Hi. apply block_bytes; [lia | done].
Qed.

(** It ends with a copy of the buffer. *)
Lemma copy_out_wp n p a off w : Z.of_nat n <= 64 -> 0 <= off -> off + 4 <= Z.of_nat n ->
  pool_rel (mm w) p a -> locks (mm w) nobody ->
  wp (copy_out arg buf n) (fun r w' => r = 0 /\ exists m', w' = set_mm w m' /\ pool_rel m' p a /\
    locks m' nobody /\ ld32 m' (arg + off) = ld32 (mm w) (buf + off)) w.
Proof.
  intros Hn H1 H2 Hr Hl. unfold copy_out. wp_step. unfold wp, mbind, M_bind, copy_to_user. rewrite Hacc.
  split; [done|]. eexists. split; [done|].
  destruct (elsewhere_write (mm w) arg (bytes n (mm w) buf) arg 64 p a Harg eq_refl) as [H3 H4];
    [by rewrite bytes_length | done | done |].
  ands; [done | done |]. apply (ld_copy 4); lia.
Qed.

Lemma elsewhere_prefix b n k : elsewhere b n -> k <= n -> elsewhere b k.
Proof. unfold elsewhere. lia. Qed.

(** What a handler promises about call [c] in pool [a]. *)
Definition answered (p : Z) (a : Z -> slot) (c : fd_call) (w : world) (r : Z) (w' : world) : Prop :=
  exists lk m', lock_ok p lk /\ w' = set_mm w m' /\ pool_rel m' p (snd (a_call lk c a)) /\ locks m' nobody /\
    r = fst (fst (a_call lk c a)) /\
    match snd (fst (a_call lk c a)) with
    | Some v => r = 0 /\ ld32 m' (arg + out_offset c) = v
    | None => r <> 0
    end.

(** The end of a call whose answer lies in the buffer. *)
Lemma answer_out p a c w m lk v n : lock_ok p lk -> Z.of_nat n <= 64 ->
  0 <= out_offset c -> out_offset c + 4 <= Z.of_nat n ->
  fst (a_call lk c a) = (0, Some v) -> pool_rel m p (snd (a_call lk c a)) -> locks m nobody ->
  ld32 m (buf + out_offset c) = v ->
  wp (copy_out arg buf n) (answered p a c w) (set_mm w m).
Proof.
  intros Hlk Hn Ho1 Ho2 Hc Hr Hl Hv.
  eapply wp_mono; [by eapply (copy_out_wp n p _ (out_offset c) (set_mm w m))|].
  intros r w' (-> & m' & -> & Hr' & Hl' & Hv'). wsimp. exists lk, m'. rewrite Hc.
  cbn [fst snd]. ands; [done | done | done | done | done | done |]. by rewrite Hv', mm_set_mm.
Qed.

Lemma answer_invalid p a c w m lk : lock_ok p lk -> fst (a_call lk c a) = (- EINVAL, None) ->
  pool_rel m p (snd (a_call lk c a)) -> locks m nobody ->
  wp (mret (- EINVAL)) (answered p a c w) (set_mm w m).
Proof.
  intros Hlk Hc Hr Hl. wp_step. exists lk, m. rewrite Hc. by ands.
Qed.

Lemma block_name_of l : length l = 36%nat -> the_name (take 15 l ++ [0]) = block_name l.
Proof.
  intros H. unfold the_name, block_name. f_equal. rewrite take_app_le by (rewrite length_take; lia).
  by rewrite take_take.
Qed.

Lemma a_call_component lk c a : c_cmd c = IOCTL_FD_COMPONENT ->
  let v := view (c_block c) in
  let ok r := ((0, Some (u32 (fst r))), snd r) in
  a_call lk c a =
    if v 4%nat 16 =? 0 then ok (a_create (block_name (c_block c)) lk a)
    else if v 4%nat 16 =? 1 then ok (a_attach (block_name (c_block c)) a)
    else if v 4%nat 16 =? 2 then
      match a_detach (v 4%nat 20) a with Some (r, a') => ((0, Some r), a') | None => ((- EINVAL, None), a) end
    else ((- EINVAL, None), a).
Proof. intros H. unfold a_call. by rewrite H. Qed.

Lemma fd_component_wp p a c w m0 : pool_rel (mm w) p a -> locks (mm w) nobody -> tgid_ok w ->
  call_ok c -> c_cmd c = IOCTL_FD_COMPONENT -> mm w = wrbytes m0 arg (c_block c) ->
  wp (fd_component (c_clock c) arg buf) (answered p a c w) w.
Proof.
  intros Hr Hl Ht (_ & _ & _ & Hlen & Hrng & Hend & _ & _) Hcmd Hm. rewrite Hcmd in Hlen. change (block_size IOCTL_FD_COMPONENT) with 36%nat in Hlen.
  specialize (Hend Hcmd). unfold fd_component. eapply with_buf_wp; [exact Hlen | done | exact Hm |].
  intros m Hv Hb ->. set (m := wrbytes (mm w) buf (c_block c)) in *.
  destruct (elsewhere_write (mm w) buf (c_block c) buf 64 p a Hbuf eq_refl) as [Hr1 Hl1];
    [lia | done | done |]. fold m in Hr1, Hl1. pose proof Hbuf as (Hb1 & Hb2 & _).
  pose proof (elsewhere_prefix _ _ 36 Hbuf ltac:(lia)) as Hb36.
  wp_step. wp_step. rewrite Hv by lia. rewrite Hb by lia.
  set (name := take 15 (c_block c) ++ [0]).
  assert (Hn : name_ok name).
  { split; [unfold good_name, name; rewrite length_app, length_take, Hlen; done|].
    apply Forall_app. split; [by apply Forall_take | repeat constructor; lia]. }
  assert (En : the_name name = block_name (c_block c)) by (by apply block_name_of).
  pose proof (fun lk => a_call_component lk c a Hcmd) as Ea. cbv zeta in Ea.
  assert (Eo : out_offset c = if view (c_block c) 4 16 =? 2 then 24 else 20).
  { unfold out_offset. by rewrite Hcmd. }
  destruct (Z.eqb_spec (view (c_block c) 4 16) 0) as [E0|E0]; cbn match.
  { rewrite E0 in Eo. simpl in Eo. eapply wp_call; [by apply (fd_create_wp (shared := shared) p a buf name (set_mm w m))|].
    intros _ w' (m2 & lk & -> & Hlk & Hr2 & Hl2 & Hv2). wsimp. rewrite En in *.
    eapply (answer_out _ _ _ _ _ lk); rewrite ?Ea, ?Eo; [done | lia | lia | lia | done | done | done | done]. }
  destruct (Z.eqb_spec (view (c_block c) 4 16) 1) as [E1|E1]; cbn match.
  { rewrite E1 in Eo. simpl in Eo. eapply wp_call.
    { eapply (fd_attach_wp (shared := shared) p a _ buf name (set_mm w m)); try done. wsimp. rewrite Hv by lia. intros _.
      by apply Hend. }
    intros _ w' (m2 & -> & Hl2 & Hr2 & Hv2). wsimp. rewrite En in *.
    eapply (answer_out _ _ _ _ _ 255); rewrite ?Ea, ?Eo; [by left | lia | lia | lia | done | done | done | done]. }
  destruct (Z.eqb_spec (view (c_block c) 4 16) 2) as [E2|E2]; cbn match.
  {  eapply wp_call; [by apply (fd_detach_wp (shared := shared) p a buf (set_mm w m))|].
    intros e w'. wsimp. rewrite Hv by lia.
    destruct (a_detach (view (c_block c) 4 20) a) as [[ret a']|].
    - intros (-> & m2 & -> & Hl2 & Hr2 & Hv2). wsimp. simpl finish.
      eapply (answer_out _ _ _ _ _ 255); rewrite ?Ea, ?Eo; [by left | lia | lia | lia | done | done | done | done].
    - intros [-> ->]. simpl finish. eapply (answer_invalid _ _ _ _ _ 255); rewrite ?Ea; [by left | done..]. }
  eapply (answer_invalid _ _ _ _ _ 255); rewrite ?Ea; [by left | done..].
Qed.

Lemma requested_view m l t : length l = 64%nat -> Forall (fun b => 0 <= b < 256) l ->
  (forall i off, 0 <= off -> off + Z.of_nat i <= 64 -> ld i m (buf + off) = view l i off) ->
  requested m buf t = block_listener t l.
Proof.
  intros Hl Hr Hv. unfold requested, block_listener. rewrite <- !Hv by lia.
  by rewrite Z.add_0_r.
Qed.

Lemma fd_addlistener_wp p a c w m0 : pool_rel (mm w) p a -> locks (mm w) nobody -> tgid_ok w ->
  call_ok c -> c_cmd c = IOCTL_FD_ADDLISTENER -> mm w = wrbytes m0 arg (c_block c) -> cur_tgid w = c_tgid c ->
  wp (fd_addlistener arg buf) (answered p a c w) w.
Proof.
  intros Hr Hl Ht (_ & _ & _ & Hlen & Hrng & _ & Hc & _) Hcmd Hm Hme. rewrite Hcmd in Hlen.
  change (block_size IOCTL_FD_ADDLISTENER) with 64%nat in Hlen. specialize (Hc Hcmd).
  unfold fd_addlistener. eapply with_buf_wp; [exact Hlen | done | exact Hm |].
  intros m Hv _ ->. set (m := wrbytes (mm w) buf (c_block c)) in *.
  destruct (elsewhere_write (mm w) buf (c_block c) buf 64 p a Hbuf eq_refl) as [Hr1 Hl1];
    [lia | done | done |]. fold m in Hr1, Hl1.
  assert (Ea : forall lk, a_call lk c a = if 40 <=? view (c_block c) 4 0 then ((- EINVAL, None), a) else
    let r := a_add (view (c_block c) 4 0) (block_listener (c_tgid c) (c_block c)) a in ((0, Some (u32 (fst r))), snd r)).
  { intros lk. unfold a_call. by rewrite Hcmd. }
  assert (Eo : out_offset c = 60) by (unfold out_offset; by rewrite Hcmd).
  pose proof (Hv 4%nat 0 ltac:(lia) ltac:(lia)) as Hv0. rewrite Z.add_0_r in Hv0.
  eapply wp_call.
  { apply (add_listener_wp (shared := shared) p a buf (set_mm w m)); try done. wsimp. by rewrite Hv by lia. }
  intros e w'. wsimp. rewrite Hv0, (requested_view m (c_block c) (cur_tgid w) Hlen Hrng Hv), Hme.
  destruct (40 <=? view (c_block c) 4 0) eqn:E.
  - intros [-> ->]. simpl finish. eapply (answer_invalid _ _ _ _ _ 255); rewrite ?Ea; [by left | done..].
  - intros (-> & m2 & -> & Hl2 & Hr2 & Hv2). wsimp. simpl finish. cbv zeta in Ea.
    eapply (answer_out _ _ _ _ _ 255); rewrite ?Ea, ?Eo; [by left | lia | lia | lia | done | done | done | done].
Qed.

Lemma fd_removelistener_wp p a c w m0 : pool_rel (mm w) p a -> locks (mm w) nobody -> tgid_ok w ->
  call_ok c -> c_cmd c = IOCTL_FD_REMOVELISTENER -> mm w = wrbytes m0 arg (c_block c) -> cur_tgid w = c_tgid c ->
  wp (fd_removelistener arg buf) (answered p a c w) w.
Proof.
  intros Hr Hl Ht (_ & _ & _ & Hlen & Hrng & _ & _ & Hc) Hcmd Hm Hme. rewrite Hcmd in Hlen.
  change (block_size IOCTL_FD_REMOVELISTENER) with 16%nat in Hlen. specialize (Hc Hcmd).
  unfold fd_removelistener. eapply with_buf_wp; [exact Hlen | done | exact Hm |].
  intros m Hv _ ->. set (m := wrbytes (mm w) buf (c_block c)) in *.
  destruct (elsewhere_write (mm w) buf (c_block c) buf 64 p a Hbuf eq_refl) as [Hr1 Hl1];
    [lia | done | done |]. fold m in Hr1, Hl1.
  assert (Ea : forall lk, a_call lk c a = if 40 <=? view (c_block c) 4 0 then ((- EINVAL, None), a) else
    let r := a_remove (c_tgid c) (view (c_block c) 4 0) (view (c_block c) 8 4) (view (c_block c) 4 8) a in
    ((0, Some (u32 (fst r))), snd r)).
  { intros lk. unfold a_call. by rewrite Hcmd. }
  assert (Eo : out_offset c = 12) by (unfold out_offset; by rewrite Hcmd).
  pose proof (Hv 4%nat 0 ltac:(lia) ltac:(lia)) as Hv0. rewrite Z.add_0_r in Hv0.
  pose proof (elsewhere_prefix _ _ 16 Hbuf ltac:(lia)) as Hb16.
  eapply wp_call.
  { apply (remove_listener_wp (shared := shared) p a buf (set_mm w m)); try done. wsimp. by rewrite Hv by lia. }
  intros e w'. wsimp. rewrite Hv0, !Hv, Hme by lia.
  destruct (40 <=? view (c_block c) 4 0) eqn:E.
  - intros [-> ->]. simpl finish. eapply (answer_invalid _ _ _ _ _ 255); rewrite ?Ea; [by left | done..].
  - intros (-> & m2 & -> & Hl2 & Hr2 & Hv2). wsimp. simpl finish. cbv zeta in Ea.
    eapply (answer_out _ _ _ _ _ 255); rewrite ?Ea, ?Eo; [by left | lia | lia | lia | done | done | done | done].
Qed.

(** ** One call, and sequences of calls *)

Lemma run_fd_call_wp p a c w : pool_rel (mm w) p a -> locks (mm w) nobody -> call_ok c ->
  wp (run_fd_call c) (fun r w' => exists lk, lock_ok p lk /\ r = fst (a_call lk c a) /\
    pool_rel (mm w') p (snd (a_call lk c a)) /\ locks (mm w') nobody) w.
Proof.
  intros Hr Hl Hok. pose proof Hok as (Ht & Hne & Hcmd & Hlen & _).
  unfold run_fd_call. wp_step. set (w1 := set_mm _ _).
  assert (Hsz : Z.of_nat (length (c_block c)) <= 64).
  { rewrite Hlen. unfold block_size. destruct (_ =? _); [lia|]. destruct (_ =? _); lia. }
  destruct (elsewhere_write (mm w) arg (c_block c) arg 64 p a Harg eq_refl Hsz Hr Hl) as [Hr1 Hl1].
  assert (Htg : tgid_ok w1) by (split; [simpl; lia | done]).
  eapply (wp_call _ _ (answered p a c w1)).
  { unfold comm_fd_ioctl. pose proof pool_at. shm_facts. rewrite !eqb_neq_false by lia.
    destruct Hcmd as [E|[E|E]]; rewrite E; cbv [Z.eqb Pos.eqb IOCTL_FD_COMPONENT IOCTL_FD_LOCK
      IOCTL_FD_MID2VIR IOCTL_FD_ADDLISTENER IOCTL_FD_REMOVELISTENER IOCTL_FD_SHMEM_BUF].
    - by eapply (fd_component_wp p a c w1 (mm w)).
    - by eapply (fd_addlistener_wp p a c w1 (mm w)).
    - by eapply (fd_removelistener_wp p a c w1 (mm w)). }
  intros r w' (lk & m' & Hlk & -> & Hr' & Hl' & -> & Hout).
  destruct (fst (a_call lk c a)) as [ret [v|]] eqn:E; cbn [fst snd] in *.
  - destruct Hout as [-> Hv]. change (0 =? 0) with true. cbn match. do 2 wp_step. exists lk. rewrite E. wsimp. rewrite Hv. by ands.
  - rewrite eqb_neq_false by done. wp_step. exists lk. rewrite E. wsimp. by ands.
Qed.

Lemma run_fd_calls_wp p cs a w : pool_rel (mm w) p a -> locks (mm w) nobody -> Forall call_ok cs ->
  wp (run_fd_calls cs) (fun rs w' => exists a', a_calls p a cs rs a' /\
    pool_rel (mm w') p a' /\ locks (mm w') nobody) w.
Proof.
  intros Hr Hl Hc. revert a w Hr Hl. induction Hc as [|c cs H1 Hc IH]; intros a w Hr Hl; simpl.
  - wp_step. exists a. ands; [constructor | done | done].
  - eapply wp_call; [by apply (run_fd_call_wp p a)|]. intros r w' (lk & Hlk & -> & Hr' & Hl').
    eapply wp_call; [by apply (IH _ _ Hr' Hl')|]. intros rs w2 (a' & Ha & Hr2 & Hl2).
    wp_step. exists a'. ands; [|done | done]. econstructor; [exact Hlk | | exact Ha].
    by destruct (a_call lk c a).
Qed.
End FdSafe.

(** ** The abstract pool over time *)

(** No two slots hold components of the same name. *)
Definition distinct (a : Z -> slot) : Prop := forall i j n c d,
  0 <= i < 40 -> 0 <= j < 40 -> s_comp (a i) = Some (n, c) -> s_comp (a j) = Some (n, d) -> i = j.

Lemma a_find_none name a i n c : a_find name a = None -> 0 <= i < 40 -> s_comp (a i) = Some (n, c) -> n <> name.
Proof.
  intros H Hi Hc ->. pose proof (first_none _ _ _ i H ltac:(lia)) as E. unfold named in E. rewrite Hc in E.
  by rewrite (proj2 (list_eqb_true name name) eq_refl) in E.
Qed.

Lemma a_find_some name a i : a_find name a = Some i ->
  0 <= i < 40 /\ exists c, s_comp (a i) = Some (name, c).
Proof.
  intros H. destruct (first_some _ _ _ _ H) as (Hi & Hn & _). split; [lia|]. unfold named in Hn.
  destruct (s_comp (a i)) as [[n c]|]; [|done]. apply list_eqb_true in Hn as ->. by exists c.
Qed.

(** What can become of a slot in a call that creates nothing. *)
Inductive slot_keep : slot -> slot -> Prop :=
| keep_same s : slot_keep s s
| keep_count s n c c' : s_comp s = Some (n, c) -> slot_keep s (Slot (Some (n, c')) (s_lock s) (s_listeners s))
| keep_free s n c : s_comp s = Some (n, c) -> n_listeners s = 0 ->
    slot_keep s (Slot None (s_lock s) (s_listeners s))
| keep_add s j l : s_listeners s j = None ->
    slot_keep s (Slot (s_comp s) (s_lock s) (fset (s_listeners s) j (Some l)))
| keep_remove s t cb j : is_listener t cb (cb / 2 ^ 32) (s_listeners s j) = true ->
    slot_keep s (Slot (s_comp s) (s_lock s) (fset (s_listeners s) j None)).

(** Any call. *)
Definition slot_step (s s' : slot) : Prop := slot_keep s s' \/
  (s_comp s = None /\ exists n lk, s' = Slot (Some (n, 1)) lk (s_listeners s)).

Lemma ld64_split m a : ld64 m a = ld32 m a + 2 ^ 32 * ld32 m (a + 4).
Proof.
  assert (L0 : forall a, ld 0 m a = 0) by done. rewrite !ld_S, !L0, <- !Z.add_assoc.
  change (1 + 1) with 2. change (1 + 2) with 3. change (1 + 3) with 4. change (1 + 4) with 5.
  change (1 + 5) with 6. change (1 + 6) with 7. change (4 + 1) with 5. change (4 + 2) with 6.
  change (4 + 3) with 7. lia.
Qed.

Lemma view_high block : view block 4 8 = view block 8 4 / 2 ^ 32.
Proof.
  unfold view. set (m := wrbytes ∅ 0 block).
  rewrite (ld64_split m 4). change (4 + 4) with 8. pose proof (ld32_range m 4). apply Z.div_unique with (ld32 m 4); lia.
Qed.

Lemma a_create_step name lk a i : slot_step (a i) (snd (a_create name lk a) i).
Proof.
  unfold a_create. destruct (a_find name a); [left; constructor|].
  destruct (a_free a) as [k|] eqn:E; [|left; constructor]. simpl. unfold fset.
  destruct (Z.eqb_spec i k) as [->|]; [|left; constructor]. right.
  destruct (first_some _ _ _ _ E) as (_ & H & _). unfold taken in H.
  split; [by destruct (s_comp (a k)) | eauto].
Qed.

Lemma a_attach_keep name a i : slot_keep (a i) (snd (a_attach name a) i).
Proof.
  unfold a_attach. destruct (a_find name a) as [k|]; [|constructor]. simpl.
  destruct (s_comp (a k)) as [[n c]|] eqn:E; [|constructor]. unfold fset.
  destruct (Z.eqb_spec i k) as [->|]; [|constructor]. by apply keep_count with c.
Qed.

Lemma a_detach_keep k a r a' i : a_detach k a = Some (r, a') -> slot_keep (a i) (a' i).
Proof.
  unfold a_detach. destruct (40 <=? k); [done|]. destruct (s_comp (a k)) as [[n c]|] eqn:E; [|done].
  destruct (_ || _); [done|]. unfold fset.
  destruct (c =? 1); intros [= <- <-]; (destruct (Z.eqb_spec i k) as [->|]; [|constructor]).
  - destruct (Z.eqb_spec (n_listeners (a k)) 0); [by apply keep_free with n c | by apply keep_count with c].
  - by apply keep_count with c.
Qed.

Lemma a_add_keep k l a i : slot_keep (a i) (snd (a_add k l a) i).
Proof.
  unfold a_add. destruct (16 <=? _); [constructor|]. destruct (a_listener _ _ _ _); [constructor|].
  destruct (a_free_place (a k)) as [j|] eqn:E; [|constructor]. simpl. unfold set_listener, fset.
  destruct (Z.eqb_spec i k) as [->|]; [|constructor]. apply keep_add.
  destruct (first_some _ _ _ _ E) as (_ & H & _). unfold listening in H. by destruct (s_listeners (a k) j).
Qed.

Lemma a_remove_keep t k block a i :
  slot_keep (a i) (snd (a_remove t k (view block 8 4) (view block 4 8) a) i).
Proof.
  unfold a_remove. rewrite view_high. destruct (a_listener _ _ _ _) as [j|] eqn:E; [|constructor]. simpl.
  unfold set_listener, fset. destruct (Z.eqb_spec i k) as [->|]; [|constructor].
  destruct (first_some _ _ _ _ E) as (_ & H & _). by apply (keep_remove _ t (view block 8 4)).
Qed.

(** A call creates, or keeps what there is. *)
Lemma a_call_cases lk c a : (exists name, snd (a_call lk c a) = snd (a_create name lk a)) \/
  (forall i, slot_keep (a i) (snd (a_call lk c a) i)).
Proof.
  unfold a_call. destruct (c_cmd c =? _).
  - destruct (_ =? 0); [left; eauto|]. right. intros i. destruct (_ =? 1); [apply a_attach_keep|].
    destruct (_ =? 2); [|constructor]. destruct (a_detach _ a) as [[r a']|] eqn:E; [|constructor].
    by eapply a_detach_keep.
  - right. intros i. destruct (40 <=? _); [constructor|].
    destruct (c_cmd c =? _); [apply a_add_keep | apply a_remove_keep].
Qed.

Lemma a_call_step lk c a i : slot_step (a i) (snd (a_call lk c a) i).
Proof. destruct (a_call_cases lk c a) as [[name ->]|H]; [apply a_create_step | left; apply H]. Qed.

Lemma keep_name s s' n c : slot_keep s s' -> s_comp s' = Some (n, c) -> exists d, s_comp s = Some (n, d).
Proof. intros H E. destruct H; simpl in E; simplify_eq; eauto. Qed.

Lemma a_create_distinct name lk a : distinct a -> distinct (snd (a_create name lk a)).
Proof.
  intros H. unfold a_create. destruct (a_find name a) eqn:Ef; [done|]. destruct (a_free a) as [k|]; [|done].
  simpl. intros i j n c d Hi Hj. unfold fset.
  destruct (Z.eqb_spec i k) as [->|]; destruct (Z.eqb_spec j k) as [->|]; simpl; intros E1 E2; try done.
  - injection E1 as <- _. by destruct (a_find_none _ _ _ _ _ Ef Hj E2).
  - injection E2 as <- _. by destruct (a_find_none _ _ _ _ _ Ef Hi E1).
  - by apply (H i j n c d).
Qed.

Lemma a_call_distinct lk c a : distinct a -> distinct (snd (a_call lk c a)).
Proof.
  intros H. destruct (a_call_cases lk c a) as [[name ->]|Hk]; [by apply a_create_distinct|].
  intros i j n e d Hi Hj E1 E2.
  destruct (keep_name _ _ _ _ (Hk i) E1) as [c1 E3]. destruct (keep_name _ _ _ _ (Hk j) E2) as [c2 E4].
  by apply (H i j n c1 c2).
Qed.

Lemma a_calls_keep (P : (Z -> slot) -> Prop) p a cs rs a' :
  (forall lk c a, P a -> P (snd (a_call lk c a))) -> a_calls p a cs rs a' -> P a -> P a'.
Proof. intros HP. induction 1 as [|a c cs lk r a1 rs a2 _ E _ IH]; [done|]. intros H. apply IH.
  replace a1 with (snd (a_call lk c a)) by by rewrite E. by apply HP.
Qed.

(** A listener whose mask is not the upper half of its callback. *)
Definition unremovable (l : listener) : Prop := l_mask l <> l_callback l / 2 ^ 32.

Definition pinned (i j : Z) (l : listener) (n : option (list Z)) (a : Z -> slot) : Prop :=
  s_listeners (a i) j = Some l /\ match n with Some n => exists c, s_comp (a i) = Some (n, c) | None => True end.

Lemma listening_counts s j l : 0 <= j < 16 -> s_listeners s j = Some l -> n_listeners s <> 0.
Proof.
  intros Hj H. pose proof (tally_pos (listening s) 16 0 j ltac:(lia)) as E. unfold listening in E at 1.
  rewrite H in E. specialize (E eq_refl). fold (n_listeners s) in E. lia.
Qed.

Lemma a_call_pinned lk c i j l n a : 0 <= j < 16 -> unremovable l ->
  pinned i j l n a -> pinned i j l n (snd (a_call lk c a)).
Proof.
  intros Hj Hu [Hl Hn]. unfold pinned.
  destruct (a_call_step lk c a i) as [Hk|(Hc & n' & lk' & ->)].
  - pose proof (listening_counts _ _ _ Hj Hl) as Hz.
    inversion Hk as [s E1 E2|s m e e' E1 E2 E3|s m e E1 E2 E3 E4|s k l' E1 E2 E3|s t cb k E1 E2 E3];
      subst; simpl; rewrite <- ?E2 in *; try done.
    + split; [done|]. destruct n as [n|]; [|done]. destruct Hn as [d Hd]. simplify_eq. eauto.
    + split; [|done]. rewrite fset_ne; [done | congruence].
    + split; [|done]. rewrite fset_ne; [done|]. intros ->. rewrite Hl in E1. unfold is_listener in E1.
      apply Hu. destruct (Z.eqb_spec (l_callback l) cb) as [->|]; [|done]. simpl in E1.
      by destruct (Z.eqb_spec (l_mask l) (cb / 2 ^ 32)).
  - simpl. split; [done|]. destruct n as [n|]; [|done]. destruct Hn as [d Hd]. congruence.
Qed.

(** ** Properties *)

(** The pool, the locks and the two buffers before a call. *)
Record fd_ready {S : Shm} {U : Uaccess} (arg buf : Z) (shared : Z * Z) (w : world) (p : Z) (a : Z -> slot) : Prop := {
  fr_arg : elsewhere arg 64;
  fr_buf : elsewhere buf 64;
  fr_access : forall n w, access_ok arg n w = true;
  fr_pool : @pool_rel S shared (mm w) p a;
  fr_locks : locks (mm w) nobody;
}.

(** *** A concrete pool, for the witnesses *)

#[local] Instance fd_uaccess : Uaccess := {| access_ok _ _ _ := true; fault_mem _ _ w := mm w |}.
#[local] Instance fd_jiffies : Jiffies := fun ms => (ms + 3) / 4.

(** The locks of a booted system, and the pool the initialisation leaves. *)
Definition fd_world : world := after (InitComponentPool getComponentPool) locks_world.

Lemma locks_world_nobody : locks (mm locks_world) nobody.
Proof.
  intros i Hi. apply locks_world_free. simpl.
  assert (i = 0 \/ i = 1 \/ i = 2 \/ i = 3 \/ i = 4 \/ i = 5 \/ i = 6 \/ i = 7 \/ i = 8 \/ i = 9 \/
    i = 10 \/ i = 11) by lia. intuition.
Qed.

Definition fd_arg : Z := 0x20000.
Definition fd_buf : Z := 0xC1000000.

Lemma fd_world_ready : fd_ready fd_arg fd_buf (0, 0) fd_world 5 empty_pool.
Proof.
  destruct (wp_run _ _ _ (InitComponentPool_wp locks_world locks_world_nobody)) as ([] & w' & E & m' & -> & Hl & H5 & H).
  assert (Ew : fd_world = set_mm locks_world m') by (unfold fd_world, after; by rewrite E).
  assert (E5 : ld32 m' getComponentPool = 5).
  { apply H5. unfold spin_free. ands; vm_compute; reflexivity. }
  rewrite Ew. destruct H as [H|[p H]]; [rewrite E5 in H; discriminate H|].
  assert (p = 5) as -> by (destruct (pr_lock _ _ _ H) as [<- _]; done).
  split; [| |done|exact H|exact Hl]; unfold elsewhere, fd_arg, fd_buf; simpl; lia.
Qed.

(** Blocks as a process fills them. *)
Fixpoint le (n : nat) (v : Z) : list Z :=
  match n with O => [] | Datatypes.S k => v mod 256 :: le k (v / 256) end.
Definition fd_name (s : String.string) : list Z := str s ++ replicate (16 - length (str s)) 0.
Definition ten_ticks (k : nat) : Z := 10 * Z.of_nat k.
Definition creating (t : Z) (s : String.string) : fd_call :=
  FdCall t IOCTL_FD_COMPONENT (fd_name s ++ le 20 0) ten_ticks.
Definition attaching (t : Z) (s : String.string) : fd_call :=
  FdCall t IOCTL_FD_COMPONENT (fd_name s ++ le 4 1 ++ le 8 0 ++ le 8 8) ten_ticks.
Definition detaching (t i : Z) : fd_call :=
  FdCall t IOCTL_FD_COMPONENT (le 16 0 ++ le 4 2 ++ le 4 i ++ le 12 0) ten_ticks.
Definition listening_on (t i callback mask : Z) : fd_call :=
  FdCall t IOCTL_FD_ADDLISTENER (le 8 i ++ le 8 callback ++ le 4 mask ++ le 44 0) ten_ticks.
Definition unlistening (t i callback : Z) : fd_call :=
  FdCall t IOCTL_FD_REMOVELISTENER (le 4 i ++ le 8 callback ++ le 4 0) ten_ticks.

(** Every condition of a concrete call computes. *)
Ltac call_ok_tac :=
  unfold call_ok; ands; [vm_compute; reflexivity | vm_compute; reflexivity | vm_compute; congruence
    | first [by left | by right; left | by right; right] | vm_compute; reflexivity
    | apply (bool_decide_unpack _); vm_compute; exact I
    | intros _ E; vm_compute in E; first [discriminate E | split;
      [vm_compute; congruence | exists 1%nat; split; [unfold wait_fuel; lia | vm_compute; reflexivity]]]
    | intros E; vm_compute in E; first [discriminate E | vm_compute; congruence]
    | intros E; vm_compute in E; first [discriminate E | vm_compute; congruence]].

Definition a_session : list fd_call :=
  [creating 100 "tvtop"; attaching 200 "tvtop"; listening_on 200 0 0x700000001 7; unlistening 200 0 0x700000001;
   detaching 100 0; detaching 200 0].

Ltac calls_ok := repeat (apply Forall_cons_2; [call_ok_tac|]); apply Forall_nil_2.

Lemma a_session_ok : Forall call_ok a_session.
Proof. unfold a_session. calls_ok. Qed.

(** C9: The component pool is a registry. Whatever create, attach, detach, addListener and
    removeListener requests processes make, one after the other, with any names, slot numbers, masks
    and sub-commands - except that an attach has a timeout that is not 0 and a clock that reaches its
    end (with 0 it goes round for ever while the name is absent, [attach_waits_forever]), that a
    listener's callback is not 0 (such a listener is counted, but its place stays free), and that the
    kernel can read and write the block of the request ([call_ok], [fd_ready]) - every ioctl returns,
    and its answers and the pool it leaves are those of the abstract registry: a new name gets the
    first free slot and a count of one; attaching finds a name, and counts; a slot is freed when its
    last holder leaves and nobody listens; listeners are found by callback, mask and process. All
    spinlocks are free again, and the words of the shared buffer are untouched. *)
Theorem fd_refines {S : Shm} {OK : ShmOk S} {K : Kernel} {HQ : Quiet K} {U : Uaccess} {J : Jiffies}
    arg buf shared p a cs w :
  fd_ready arg buf shared w p a -> Forall call_ok cs ->
  exists rs w' a', run_fd_calls arg buf cs w = Ret rs w' /\ a_calls p a cs rs a' /\
    fd_ready arg buf shared w' p a'.
Proof.
  intros [H1 H2 H3 H4 H5] Hc.
  destruct (wp_run _ _ _ (run_fd_calls_wp arg buf H1 H2 H3 p cs a w H4 H5 Hc))
    as (rs & w' & E & a' & Ha & Hr & Hl). by exists rs, w', a'.
Qed.

Lemma fd_refines_witness : exists rs w' a', run_fd_calls fd_arg fd_buf a_session fd_world = Ret rs w' /\
  a_calls 5 empty_pool a_session rs a' /\ fd_ready fd_arg fd_buf (0, 0) w' 5 a'.
Proof. exact (fd_refines _ _ _ _ _ _ _ fd_world_ready a_session_ok). Defined.

(** The names of the slots in memory that are registered. *)
Definition registered {S : Shm} (m : mem) (i : Z) (name : list Z) : Prop :=
  ld 1 m (comp_entry i + 9) <> 0 /\ c_text (bytes 15 m (comp_entry i + 11)) = name.

Lemma registered_slot {S : Shm} {shared} m p a i name : @pool_rel S shared m p a -> 0 <= i < 40 ->
  registered m i name <-> exists c, s_comp (a i) = Some (name, c).
Proof.
  intros Hr Hi. destruct (pr_slots _ _ _ Hr i Hi) as [_ H2 H3 _ _ _]. unfold registered.
  destruct (s_comp (a i)) as [[n c]|]; simpl in H2.
  - apply Z.eqb_neq in H2. subst n. split; [intros [_ <-]; eauto | intros [d [= <- _]]; done].
  - apply Z.eqb_eq in H2. split; [intros [H _]; lia | intros [d [=]]].
Qed.

(** C10: Names are unique. However many processes create, attach, detach and listen, one request after
    the other, each attach with a timeout that is not 0 and comes to its end, each listener with a
    callback that is not 0 and each block accessible ([call_ok], [fd_ready]): starting from a pool
    whose names differ, the calls return and no two registered slots of the pool in memory ever hold
    the same name (as C strings of at most fifteen characters). *)
Theorem names_unique {S : Shm} {OK : ShmOk S} {K : Kernel} {HQ : Quiet K} {U : Uaccess} {J : Jiffies}
    arg buf shared p a cs w :
  fd_ready arg buf shared w p a -> Forall call_ok cs -> distinct a ->
  exists rs w', run_fd_calls arg buf cs w = Ret rs w' /\ forall i j name,
    0 <= i < 40 -> 0 <= j < 40 -> registered (mm w') i name -> registered (mm w') j name -> i = j.
Proof.
  intros [H1 H2 H3 H4 H5] Hc Hd.
  destruct (wp_run _ _ _ (run_fd_calls_wp arg buf H1 H2 H3 p cs a w H4 H5 Hc))
    as (rs & w' & E & a' & Ha & Hr & Hl). exists rs, w'. split; [done|].
  pose proof (a_calls_keep distinct _ _ _ _ _ a_call_distinct Ha Hd) as Hd'.
  intros i j name Hi Hj [c Ei]%(registered_slot _ _ _ _ _ Hr Hi) [d Ej]%(registered_slot _ _ _ _ _ Hr Hj).
  by apply (Hd' i j name c d).
Qed.

Lemma names_unique_witness : exists rs w',
  run_fd_calls fd_arg fd_buf (a_session ++ a_session) fd_world = Ret rs w' /\ forall i j name,
    0 <= i < 40 -> 0 <= j < 40 -> registered (mm w') i name -> registered (mm w') j name -> i = j.
Proof.
  apply (names_unique _ _ _ _ _ _ _ fd_world_ready).
  - apply Forall_app. split; exact a_session_ok.
  - intros i j n c d _ _ H. discriminate H.
Defined.

(** C35: A listener can be stuck. removeListener takes the event mask it compares from the upper half
    of the callback it compares, so a listener whose mask differs from the upper half of its callback
    - every listener with a 32-bit callback and a mask - is removed by no request of any process:
    after any calls it is still in its place, and the component it listens to is still registered,
    however often it is detached. *)
Theorem listener_never_removed {S : Shm} {OK : ShmOk S} {K : Kernel} {HQ : Quiet K} {U : Uaccess} {J : Jiffies}
    arg buf shared p a cs w i j l name :
  fd_ready arg buf shared w p a -> Forall call_ok cs -> 0 <= i < 40 -> 0 <= j < 16 ->
  s_listeners (a i) j = Some l -> unremovable l -> registered (mm w) i name ->
  exists rs w', run_fd_calls arg buf cs w = Ret rs w' /\
    listener_rel (mm w') (listener_at (comp_entry i) j) (Some l) /\ registered (mm w') i name.
Proof.
  intros [H1 H2 H3 H4 H5] Hc Hi Hj Hl Hu Hn.
  destruct (wp_run _ _ _ (run_fd_calls_wp arg buf H1 H2 H3 p cs a w H4 H5 Hc))
    as (rs & w' & E & a' & Ha & Hr & Hl'). exists rs, w'. split; [done|].
  apply (registered_slot _ _ _ _ _ H4 Hi) in Hn.
  destruct (a_calls_keep (pinned i j l (Some name)) _ _ _ _ _
    (fun lk c a => a_call_pinned lk c i j l (Some name) a Hj Hu) Ha (conj Hl Hn)) as [Hl2 Hn2].
  split; [|by apply (registered_slot _ _ _ _ _ Hr Hi)].
  rewrite <- Hl2. by apply (sr_listeners _ _ _ _ (pr_slots _ _ _ Hr i Hi)).
Qed.

(** A process listens with a 32-bit callback, tries to stop, and leaves. *)
Definition stuck_world : world :=
  after (run_fd_calls fd_arg fd_buf [creating 100 "decd"; listening_on 100 0 0x8000 3]) fd_world.

Definition stuck_listener : listener := Listener 0 0 0x8000 3 0 0 100.

Lemma stuck_world_ready : exists a, fd_ready fd_arg fd_buf (0, 0) stuck_world 5 a /\
  s_listeners (a 0) 0 = Some stuck_listener /\ exists c, s_comp (a 0) = Some (str "decd", c).
Proof.
  destruct (fd_refines _ _ _ _ _ [creating 100 "decd"; listening_on 100 0 0x8000 3] _ fd_world_ready)
    as (rs & w' & a' & E & Ha & Hr).
  { calls_ok. }
  exists a'. unfold stuck_world, after. rewrite E. split; [done|].
  inversion Ha as [|? ? ? lk r a1 rs1 ? _ E1 Ha1]; subst. inversion Ha1 as [|? ? ? lk2 r2 a2 rs2 ? _ E2 Ha2]; subst.
  inversion Ha2; subst. vm_compute in E1. injection E1 as <- <-. vm_compute in E2. injection E2 as <- <-.
  split; [reflexivity | by eexists].
Qed.

Lemma listener_never_removed_witness : exists rs w',
  run_fd_calls fd_arg fd_buf [unlistening 100 0 0x8000; detaching 100 0] stuck_world = Ret rs w' /\
  listener_rel (mm w') (listener_at (comp_entry 0) 0) (Some stuck_listener) /\ registered (mm w') 0 (str "decd").
Proof.
  destruct stuck_world_ready as (a & Hr & Hl & Hn).
  apply (listener_never_removed _ _ _ _ _ _ _ 0 0 stuck_listener (str "decd") Hr); [| lia | lia | done | |].
  - calls_ok.
  - unfold unremovable. vm_compute. congruence.
  - apply (registered_slot _ _ _ _ _ (fr_pool _ _ _ _ _ _ Hr)); [lia | done].
Defined.

(** C36: What [InitComponentPool] gets wrong. It returns with the locks free and forty empty slots,
    but the count of free slots, which it means to set to 40, is 0 (40 is written to a word of slot
    9 instead); every slot names spinlock 0, which the handlers take for an assigned one, instead of
    255, so components never get a spinlock of their own; and the words of the shared buffer hold
    what was in memory before. *)
Theorem pool_after_init {S : Shm} {OK : ShmOk S} {K : Kernel} {HQ : Quiet K} w :
  locks (mm w) nobody ->
  exists w', InitComponentPool getComponentPool w = Ret tt w' /\ locks (mm w') nobody /\
    (ld32 (mm w') getComponentPool = 255 \/
     (exists p, @pool_rel S (ld64 (mm w) shmem_mid, ld32 (mm w) shmem_size) (mm w') p empty_pool) /\
     ld32 (mm w') free_slots = 0 /\ (forall i, 0 <= i < 40 -> ld32 (mm w') (comp_entry i + 32) = 0) /\
     ld64 (mm w') shmem_mid = ld64 (mm w) shmem_mid /\ ld32 (mm w') shmem_size = ld32 (mm w) shmem_size).
Proof.
  intros Hl. destruct (wp_run _ _ _ (InitComponentPool_wp w Hl)) as ([] & w' & E & m' & -> & Hl' & _ & H).
  exists (set_mm w m'). ands; [done | done |]. destruct H as [H|[p Hr]]; [by left | right]. wsimp.
  ands; [by exists p | exact (pr_free _ _ _ Hr) | | apply (pr_buffer _ _ _ Hr)..].
  intros i Hi. apply (proj1 (sr_lock _ _ _ _ (pr_slots _ _ _ Hr i Hi))).
Qed.

Lemma pool_after_init_witness : exists w', InitComponentPool getComponentPool locks_world = Ret tt w' /\
  ld32 (mm w') free_slots = 0.
Proof.
  destruct (pool_after_init locks_world locks_world_nobody) as (w' & E & _ & H).
  exists w'. split; [exact E|]. destruct H as [H|(_ & H & _)]; [|exact H].
  assert (Ew : w' = fd_world) by (unfold fd_world, after; by rewrite E).
  rewrite Ew, (proj1 (pr_lock _ _ _ (fr_pool _ _ _ _ _ _ fd_world_ready))) in H. discriminate H.
Defined.

(** An attach count is a byte: the 255th attach on top of a create wraps it to 0. The caller gets the
    slot, but from then on the slot's holders cannot detach: the detach of any process is refused. *)
Theorem attach_wraps {S : Shm} {OK : ShmOk S} {K : Kernel} {HQ : Quiet K} {U : Uaccess} {J : Jiffies}
    arg buf shared p a w c1 c2 i n :
  fd_ready arg buf shared w p a -> call_ok c1 -> call_ok c2 ->
  c_cmd c1 = IOCTL_FD_COMPONENT -> view (c_block c1) 4 16 = 1 ->
  c_cmd c2 = IOCTL_FD_COMPONENT -> view (c_block c2) 4 16 = 2 -> view (c_block c2) 4 20 = i ->
  a_find (block_name (c_block c1)) a = Some i -> s_comp (a i) = Some (n, 255) ->
  exists w', run_fd_calls arg buf [c1; c2] w = Ret [(0, Some i); (- EINVAL, None)] w' /\
    registered (mm w') i n.
Proof.
  intros [H1 H2 H3 H4 H5] Ho1 Ho2 Hc1 Hv1 Hc2 Hv2 Hi Hf Hs.
  destruct (wp_run _ _ _ (run_fd_calls_wp arg buf H1 H2 H3 p [c1; c2] a w H4 H5
    (Forall_cons_2 _ _ _ Ho1 (Forall_cons_2 _ _ _ Ho2 (Forall_nil_2 _))))) as (rs & w' & E & a' & Ha & Hr & Hl').
  exists w'. destruct (a_find_some _ _ _ Hf) as [Hri _].
  inversion Ha as [|? ? ? lk r a1 rs1 ? _ E1 Ha1]; subst. inversion Ha1 as [|? ? ? lk2 r2 a2 rs2 ? _ E2 Ha2]; subst.
  inversion Ha2; subst. unfold a_call in E1, E2. rewrite Hc1, Hv1 in E1. rewrite Hc2, Hv2 in E2.
  simpl in E1, E2. unfold a_attach in E1. rewrite Hf, Hs in E1. simpl in E1.
  injection E1 as <- <-. unfold a_detach in E2. rewrite leb_false in E2 by lia. rewrite fset_eq in E2.
  simpl in E2. injection E2 as <- <-. rewrite u32_small in E by lia. split; [done|].
  apply (registered_slot _ _ _ _ _ Hr Hri). rewrite fset_eq. by eexists.
Qed.

(** What the uninitialised words of the shared buffer can do: an allocation that is not larger than
    the size they happen to hold is answered with the address they happen to hold. *)
Lemma stale_buffer_reused {S : Shm} {OK : ShmOk S} {K : Kernel} buf w :
  ld64 (mm w) shmem_mid <> 0 -> ld32 (mm w) (buf + 4) <= ld32 (mm w) shmem_size -> elsewhere buf 12 ->
  shmem_alloc buf w = Ret tt (set_mm w (st32 (mm w) buf (u32 (ld64 (mm w) shmem_mid)))).
Proof.
  intros Hm Hs He. pose proof He as (H1 & _ & H2 & _). pose proof pool_at as Ep. shm_facts.
  assert (Em : shmem_mid = ShMemAddrBase + 147656 + 32656) by (unfold shmem_mid; by rewrite Ep).
  assert (Ez : shmem_size = ShMemAddrBase + 147656 + 32664) by (unfold shmem_size; by rewrite Ep).
  assert (W : wp (shmem_alloc buf) (fun _ w' => w' = set_mm w (st32 (mm w) buf (u32 (ld64 (mm w) shmem_mid)))) w).
  { unfold shmem_alloc. wp_step. rewrite (eqb_neq_false _ 0) by done. cbn [negb]. cbn match.
    do 3 wp_step. wp_step. rewrite leb_true by done. cbn match. do 2 wp_step. rewrite ld_st_ne by lia.
    rewrite eqb_neq_false by done. by wp_step. }
  destruct (wp_run _ _ _ W) as ([] & w' & E & ->). exact E.
Qed.
