(* ===== verification/InitMem.v ===== *)
(** [InitCommMem] and [setCPUReset] of [cpu_comm_mem.c]: the shared region is
    set up part by part, and what a reset of a CPU does to it.

    ARM is the CPU this kernel runs on ([getCurCPUID] is constant), so the branch
    of [InitCommMem] that waits for another CPU to initialise the region is never
    taken and left out. *)
From S2P Require Import Prelude Mem Kernel Shm SpinLock Flags SeqMem Boot Smm Routine.

Section InitMem.
Context {S : Shm} {K : Kernel}.
Context (request : Z -> world -> Z * world) (free : Z -> world -> world).

(** Not in mode 2: clear the call entries and mark each of them unused. *)
Definition clear_call_entries (mode : Z) : M unit :=
  if mode =? 2 then mret tt else
  memset (ShMemAddrBase + SHMEM_OFF_CALL_ENTRIES) 0 CALL_ENTRIES_TOTAL ;;
  for_ (Z.to_nat (Z.of_nat CALL_ENTRIES_TOTAL / CALL_ENTRY_SIZE)) 0 (fun k =>
    wr32 (ShMemAddrBase + SHMEM_OFF_CALL_ENTRIES + CALL_ENTRY_SIZE * k + 100) SESSION_ID_INVALID).

(** Twenty list heads, each pointing at itself. *)
Definition init_lists : M unit :=
  for_ 20 0 (fun k =>
    let head := ShMemAddrBase + SHMEM_OFF_LIST_BASE + 8 * k in
    wr32 head head ;;
    wr32 (head + 4) head).

(** The second memory region, on boards that have one. *)
Definition init_second_heap : M unit :=
  if ShMemSize1 =? 0 then mret tt else
  addr ← gets ShMemAddr1;
  (if addr =? 0 then modify (fun w => set_ShMemAddr1 w (u32 (ShMemAddr + ShMemSize))) else mret tt) ;;
  addr ← gets ShMemAddr1;
  if addr =? 0 then mret tt else
  Trid_SMM_Init (u32 (addr + ShMemAddrBase - ShMemAddr)) ShMemSize1 ;;
  mret tt.

(** The locks: hardware handles, then the entries of the shared region. *)
Definition init_locks : M Z :=
  hwret ← comm_InitHwSpinLock request free;
  if negb (hwret =? 0) then mret hwret else
  wr32 (ShMemAddrBase + SHMEM_OFF_MAGIC1) CPU_COMM_MAGIC ;;
  tryspinlockhwReg 0 ;;
  comm_InitSpinLock request free ;;
  mret 0.

(** Between clearing the first magic word and setting both: everything the two
    CPUs share but the heap. *)
Definition init_structures (mode : Z) : M unit :=
  clear_call_entries mode ;;
  memset (ShMemAddrBase + SHMEM_OFF_MAGIC1) 0 4 ;;
  wr32 (ShMemAddrBase + SHMEM_OFF_MAX_CPU) 3 ;;
  InitCommSeqs ;;
  wr64 (ShMemAddrBase + SHMEM_OFF_SMM_HEAP) 0 ;;
  InitComponentPool (u32 (ShMemAddrBase + SHMEM_OFF_COMP_POOL)) ;;
  InitMessagerPool (u32 (ShMemAddrBase + SHMEM_OFF_MSG_POOL)) ;;
  wr32 (ShMemAddrBase + SHMEM_OFF_VA_OFFSET) (ShMemAddrBase - ShMemAddr) ;;
  wr32 (ShMemAddrBase + SHMEM_OFF_VA_OFFSET + 4) 0 ;;
  init_lists ;;
  init_routine_table ;;
  wr32 (ShMemAddrBase + SHMEM_OFF_MAGIC1) CPU_COMM_MAGIC ;;
  wr32 (ShMemAddrBase + SHMEM_OFF_MAGIC2) CPU_COMM_MAGIC.

(** The two status words: ARM is ready, MIPS is not. *)
Definition init_flags : M unit :=
  wr32 (cpu_flag CPU_ID_ARM) (CPU_FLAG_READY |. CPU_FLAG_APP_READY) ;;
  wr32 (cpu_flag CPU_ID_MIPS) 0.

(** At most two seconds, 10 ms at a time, until no CPU asks for a notice. *)
Definition wait_notice : M unit :=
  loop (Z.to_nat 202) (fun wait_ms =>
    arm ← isCPUNoticeReqed 0;
    req ← (if arm =? 0 then isCPUNoticeReqed 1 else mret arm);
    if req =? 0 then mret (inr tt)
    else if 2000 <=? wait_ms then mret (inr tt)
    else k_msleep 10 ;; mret (inl (wait_ms + 10))) 0.

Definition InitCommMem (mode : Z) : M Z :=
  if ShMemAddrBase =? 0 then mret (- EINVAL) else
  hwret ← init_locks;
  if negb (hwret =? 0) then mret hwret else
  init_structures mode ;;
  Trid_SMM_Init (u32 (ShMemAddrBase + SHMEM_OFF_SMM_HEAP)) (u32 (ShMemSize - 1 - SHMEM_OFF_SMM_HEAP)) ;;
  init_second_heap ;;
  setCPUReady CPU_ID_ARM ;;
  init_flags ;;
  spinUnlockhwReg 0 ;;
  wait_notice ;;
  mret 0.

(** *** Reset of a CPU *)

(** [cleanupFDCPUReset] of [cpu_comm_dev.c] only logs. *)
Definition cleanupFDCPUReset (cpu_id : Z) : M unit := mret tt.

Definition setCPUReset_phase1 (cpu_id : Z) : M unit :=
  checkNoticeReqedJob ;;
  comm_SpinLockCleanUpInCPUReset cpu_id ;;
  Trid_SMMCleanUpInCPUReset ;;
  RoutineCleanupInCPUReset cpu_id ;;
  cleanupFDCPUReset cpu_id ;;
  InitCommShareSeqMem CPU_ID_ARM cpu_id ;;
  InitCommShareSeqMem cpu_id CPU_ID_ARM ;;
  InitCommShareSeqMem CPU_ID_MIPS cpu_id ;;
  InitCommShareSeqMem cpu_id CPU_ID_MIPS.

Definition setCPUReset (cpu_id phase : Z) : M unit :=
  if (ShMemAddrBase =? 0) || (1 <? cpu_id) then mret tt else
  ok ← magic_set;
  if negb ok then mret tt else
  if phase =? 0 then setCPUReset_phase0 cpu_id
  else if phase =? 1 then setCPUReset_phase1 cpu_id
  else mret tt.
End InitMem.
