(* ===== verification/InitSpec.v ===== *)
(** What [InitCommMem] establishes, part by part: every step comes with the
    bytes it may change, so what an earlier step set up is still there at the
    end. *)
From S2P Require Import Prelude Mem Kernel Fifo Shm SpinLock Flags SeqMem Boot Smm SmmHeap Routine RoutineTable FdPool FdSpec FdOps FdInit InitMem.

(** [touches P m m']: nothing but bytes in [P] differs. *)
Definition touches (P : Z -> Prop) (m m' : mem) : Prop := forall x, ~ P x -> ld8 m' x = ld8 m x.

Lemma touches_refl P m : touches P m m.
Proof. done. Qed.

Lemma touches_trans P m1 m2 m3 : touches P m1 m2 -> touches P m2 m3 -> touches P m1 m3.
Proof. intros H1 H2 x Hx. by rewrite H2, H1. Qed.

Lemma touches_weaken (P Q : Z -> Prop) m m' : (forall x, P x -> Q x) -> touches P m m' -> touches Q m m'.
Proof. intros H Ht x Hx. apply Ht. naive_solver. Qed.

Lemma touches_ld n P m m' a : touches P m m' -> (forall x, a <= x < a + Z.of_nat n -> ~ P x) -> ld n m' a = ld n m a.
Proof. intros H Ha. apply ld_same. intros x Hx. by apply H, Ha. Qed.

Lemma touches_st P n m a v : (forall x, a <= x < a + Z.of_nat n -> P x) -> touches P m (st n m a v).
Proof.
  intros H x Hx. apply ld8_st_out. destruct (decide (a <= x < a + Z.of_nat n)); [naive_solver | lia].
Qed.

Lemma touches_fill P n m a v : (forall x, a <= x < a + Z.of_nat n -> P x) -> touches P m (fill n m a v).
Proof.
  intros H x Hx. apply ld8_fill_out. destruct (decide (a <= x < a + Z.of_nat n)); [naive_solver | lia].
Qed.

(** Two specifications of one run. *)
Lemma wp_both {A} (m : M A) (P Q : A -> world -> Prop) w :
  wp m P w -> wp m Q w -> wp m (fun a w' => P a w' /\ Q a w') w.
Proof. unfold wp. by destruct (m w). Qed.

Lemma set_mm_inj w m m' : set_mm w m = set_mm w m' -> m = m'.
Proof. intros H. by apply (f_equal mm) in H. Qed.

Section InitSpec.
Context {S : Shm} {OK : ShmOk S} {K : Kernel} {HQ : Quiet K} {L : SemLaws K}.

(** Offsets in the shared region. *)
Definition region (lo hi x : Z) : Prop := ShMemAddrBase + lo <= x < ShMemAddrBase + hi.
Definition in_hw (x : Z) : Prop := hwlocks <= x < hwlocks + 128.
Definition in_sockets (x : Z) : Prop := s_CommSockt <= x < s_CommSockt + 2 * COMM_SOCKET_SIZE.

(** *** Locks *)

Section Locks.
Context (request : Z -> world -> Z * world) (free : Z -> world -> world).

(** Every hardware spinlock can be had, and asking changes nothing else. *)
Definition grants : Prop := forall h w, exists v, request h w = (v, w) /\ 0 < v < 2 ^ 32.

Lemma InitHwSpinLock_wp w : grants ->
  wp (comm_InitHwSpinLock request free)
     (fun r w' => r = 0 /\ exists m', w' = set_mm w m' /\ touches in_hw (mm w) m') w.
Proof.
  intros Hg. shm_facts. unfold comm_InitHwSpinLock, HW_SPINLOCK_COUNT.
  eapply (wp_call _ _ (fun r w' => r = None /\ exists m', w' = set_mm w m' /\ touches in_hw (mm w) m')).
  2: { intros r w' (-> & H). wp_step. done. }
  apply (wp_for_exit (Z.to_nat 9) 0 _ (fun _ w' => exists m', w' = set_mm w m' /\ touches in_hw (mm w) m')).
  - exists (mm w). by rewrite set_mm_id.
  - intros j w' Hj (m' & -> & Ht). unfold hwlock. wp_step.
    destruct (Z.eqb_spec (ld32 m' (hwlocks + 4 * j)) 0); [|wp_step; by exists m'].
    destruct (Hg (getRegbySpinID j) (set_mm w m')) as (v & E & Hv).
    eapply wp_eq; [unfold lift_env; by rewrite E|]. wp_step. rewrite eqb_neq_false by lia. wp_step.
    eexists. split; [done|]. eapply touches_trans; [exact Ht|]. apply touches_st. unfold in_hw. intros x Hx. lia.
  - intros w' H. done.
Qed.

(** A spinlock entry as [comm_InitSpinLock] writes it. *)
Lemma entry_free_word m id : 0 <= id <= 11 -> ld32 m (spin_entry id) = 0x02000202 ->
  ld32 m (spin_entry id + 4) = 0 -> ld32 m (spin_entry id + 8) = 255 ->
  lock_is m id None /\ spin_free m id.
Proof.
  intros Hid H0 H4 H8. unfold spin_free. rewrite !ld_1. revert H0. rewrite !ld_S.
  replace (spin_entry id + 1 + 1) with (spin_entry id + 2) by lia.
  replace (spin_entry id + 2 + 1) with (spin_entry id + 3) by lia. unfold ld at 1. intros H0.
  pose proof (ld8_range m (spin_entry id)). pose proof (ld8_range m (spin_entry id + 1)).
  pose proof (ld8_range m (spin_entry id + 2)). pose proof (ld8_range m (spin_entry id + 3)).
  split; [split; simpl; [lia | done | done]|]. ands; [lia | done | lia | done].
Qed.

Definition in_lock_area (x : Z) : Prop := in_hw x \/ region 0 148 x.

Lemma spinUnlockhwReg_wp i {B} (k : unit -> M B) Q w : 0 <= i <= 8 ->
  wp (k tt) Q w -> wp (spinUnlockhwReg i ≫= k) Q w.
Proof. intros Hi H. shm_facts. unfold spinUnlockhwReg, hwlock. by wp_go. Qed.

Lemma InitSpinLock_wp w : grants ->
  wp (comm_InitSpinLock request free) (fun r w' => r = 0 /\ exists m', w' = set_mm w m' /\
    locks m' nobody /\ spin_free m' 5 /\ touches in_lock_area (mm w) m') w.
Proof.
  intros Hg. shm_facts. unfold comm_InitSpinLock, getSpinLockMemArea. rewrite eqb_neq_false by lia.
  eapply wp_call; [by apply InitHwSpinLock_wp|]. intros r w' (-> & m1 & -> & T1).
  rewrite Z.eqb_refl. cbn [negb]. cbn iota.
  eapply (wp_call _ _ (fun _ w' => w' = set_mm w m1)).
  { apply (wp_for 8 1 _ (fun _ w' => w' = set_mm w m1)); [done | | done].
    intros j w' Hj ->. simpl in Hj. apply wp_ret_r. apply spinUnlockhwReg_wp; [lia|]. by wp_step. }
  intros _ w' ->.
  eapply (wp_call _ _ (fun _ w' => exists m', w' = set_mm w m' /\
    (forall i, 0 <= i <= 11 -> lock_is m' i None /\ spin_free m' i) /\ touches in_lock_area (mm w) m')).
  2: { intros _ w' (m' & -> & Hl & Ht). wp_step. split; [done|]. exists m'. ands; [done | | apply Hl; lia | done].
       intros i Hi. by apply Hl. }
  apply (wp_for 12 0 _ (fun j w' => exists m', w' = set_mm w m' /\
    (forall i, 0 <= i < j -> ld32 m' (spin_entry i) = 0x02000202 /\ ld32 m' (spin_entry i + 4) = 0 /\
       ld32 m' (spin_entry i + 8) = 255) /\ touches in_lock_area (mm w) m')).
  - exists m1. ands; [done | lia |]. eapply touches_weaken; [|exact T1]. by left.
  - intros j w' Hj (m' & -> & Hi & Ht). simpl in Hj. pose proof (spin_entry_at j ltac:(lia)) as (Q1 & Q2 & Q3).
    do 3 wp_step. eexists. split; [done|]. split.
    + intros i Hlt. rewrite !spin_entry_off in *. unfold SPINLOCK_HWID_NONE.
      destruct (Z.eq_dec i j) as [->|Hne]; [memsimp; done|].
      destruct (Hi i ltac:(lia)) as (E0 & E4 & E8). rewrite !ld_st_ne by lia. rewrite spin_entry_off in *. done.
    + eapply touches_trans; [exact Ht|]. rewrite !spin_entry_off in *.
      intros x Hx. unfold in_lock_area, region in Hx. rewrite !ld8_st_out by lia. done.
  - intros w' (m' & -> & Hi & Ht). exists m'. ands; [done | | done].
    intros i Hr. destruct (Hi i ltac:(lia)) as (E0 & E4 & E8). by apply entry_free_word.
Qed.

Lemma tryspinlockhwReg_wp w :
  wp (tryspinlockhwReg 0) (fun _ w' => exists m', w' = set_mm w m' /\ touches in_hw (mm w) m') w.
Proof.
  shm_facts. unfold tryspinlockhwReg, hwlock, HW_SPINLOCK_COUNT. wp_step. wp_step.
  destruct (r =? 0); wp_go; [|exists (mm w); by rewrite set_mm_id].
  eexists. split; [done|]. apply touches_st. unfold in_hw. intros x Hx. lia.
Qed.

Lemma init_locks_wp w : grants ->
  wp (init_locks request free) (fun r w' => r = 0 /\ exists m', w' = set_mm w m' /\
    locks m' nobody /\ spin_free m' 5 /\ touches in_lock_area (mm w) m') w.
Proof.
  intros Hg. shm_facts. unfold init_locks, SHMEM_OFF_MAGIC1.
  eapply wp_call; [by apply InitHwSpinLock_wp|]. intros r w' (-> & m1 & -> & T1).
  rewrite Z.eqb_refl. cbn [negb]. cbn iota. wp_step.
  eapply wp_call; [apply tryspinlockhwReg_wp|]. intros _ w' (m2 & -> & T2). wsimp. rewrite mm_set_mm in T2.
  eapply wp_call; [by apply InitSpinLock_wp|]. intros _ w' (_ & m3 & -> & Hl & Hs & T3). wsimp. rewrite mm_set_mm in T3.
  wp_step. split; [done|]. exists m3. ands; [done | done | done |].
  eapply touches_trans; [|exact T3]. eapply touches_trans; [|eapply touches_weaken; [|exact T2]; by left].
  eapply touches_trans; [eapply touches_weaken; [|exact T1]; by left|].
  apply touches_st. intros x Hx. right. unfold region. lia.
Qed.
End Locks.

(** *** Sockets and sequences *)

Definition in_seqs (x : Z) : Prop := in_sockets x \/ region 152 19672 x.

Lemma socket_touches cpu m m' : 0 <= cpu <= 1 -> socket_frame cpu m m' -> touches in_seqs m m'.
Proof.
  intros Hc Hf x Hx. unfold in_seqs, in_sockets, region in Hx. apply Hf.
  - unfold sock_of, COMM_SOCKET_SIZE in *. lia.
  - intros d Hd. unfold recv_area. rewrite getShareSeq_at by lia. lia.
  - intros -> r d Hr Hd. unfold mips_area. rewrite getShareSeq_at by lia. lia.
Qed.

Lemma pair_touches c d m m' : 0 <= c <= 1 -> 0 <= d <= 1 -> pair_frame c d m m' -> touches in_seqs m m'.
Proof.
  intros Hc Hd Hf x Hx. apply Hf. intros i Hi. unfold in_seqs, region, free_area in *.
  rewrite getShareSeq_at by lia. lia.
Qed.

Lemma InitCommSeqs_touches w :
  wp InitCommSeqs (fun _ w' => exists m', w' = set_mm w m' /\ touches in_seqs (mm w) m') w.
Proof.
  unfold InitCommSeqs, CPU_ID_ARM, CPU_ID_MIPS.
  eapply wp_call; [apply InitCommSeqMem_wp; lia|]. intros _ w' (m1 & -> & _ & _ & _ & _ & T1).
  eapply wp_call; [apply InitCommShareSeqMem_wp; lia|]. intros _ w' (m2 & -> & _ & T2).
  eapply wp_call; [apply InitCommShareSeqMem_wp; lia|]. intros _ w' (m3 & -> & _ & T3).
  eapply wp_call; [apply InitCommSeqMem_wp; lia|]. intros _ w' (m4 & -> & _ & _ & _ & _ & T4).
  eapply wp_call; [apply InitCommShareSeqMem_wp; lia|]. intros _ w' (m5 & -> & _ & T5).
  eapply wp_mono; [apply InitCommShareSeqMem_wp; lia|]. intros _ w' (m6 & -> & _ & T6).
  wsimp. rewrite !mm_set_mm in *. exists m6. split; [done|].
  apply socket_touches in T1, T4; try lia. apply pair_touches in T2, T3, T5, T6; try lia.
  repeat (eapply touches_trans; [eassumption|]). apply touches_refl.
Qed.

Lemma seqs_init_same m m' : (forall x, in_seqs x -> ld8 m' x = ld8 m x) -> seqs_init m -> seqs_init m'.
Proof.
  intros Ho [H1 H2 H3 H4]. unfold in_seqs, in_sockets, region, COMM_SOCKET_SIZE in Ho. shm_facts.
  assert (Hk : forall cpu, 0 <= cpu <= 1 -> s_CommSockt <= sock_of cpu /\ sock_of cpu + 4992 <= s_CommSockt + 9984)
    by (intros cpu Hc; unfold sock_of, COMM_SOCKET_SIZE; lia).
  split.
  - intros cpu Hc. specialize (Hk cpu Hc). destruct (H1 cpu Hc) as [? Hfree Hwait ? ? ? ? ? ? ? ? ? ? ?].
    split; unfold sem_count in *; rewrite ?(ld_same _ m m') by (intros; apply Ho; lia); try done.
    + apply (fifo_at_frame Hfree); [intros x Hx; apply Ho; lia|].
      intros k x Hk' Hx. pose proof (Z.mod_pos_bound (ld32 m (sock_of cpu + 136) + Z.of_nat k) 21 ltac:(lia)).
      apply Ho; lia.
    + intros i Hi. destruct (Hwait i Hi) as [W1 W2]. unfold wait_init, wait_obj in *.
      by rewrite !(ld_same _ m m') by (intros; apply Ho; lia).
  - intros cpu Hc. destruct (H2 cpu Hc) as [G1 G2].
    split; [apply (fifo_at_frame G1) | apply (fifo_at_frame G2)];
      try (intros i x Hi; simpl in Hi; lia); intros x Hx; rewrite getShareSeq_at in Hx by lia; apply Ho; lia.
  - intros r d Hr Hd. apply (mips_fifo_out m); [done | done | | by apply H3].
    intros x Hx. unfold mips_area in Hx. rewrite getShareSeq_at in Hx by lia. apply Ho. lia.
  - intros cpu dir i Hc Hd Hi. apply (share_seq_init_out m); [| by apply seq_range_at | by apply H4].
    intros x Hx. unfold free_area in Hx. rewrite getShareSeq_at in Hx by lia. apply Ho. lia.
Qed.

(** *** Pools *)

Lemma InitComponentPool_touches w : locks (mm w) nobody ->
  wp (InitComponentPool getComponentPool) (fun _ w' => exists m', w' = set_mm w m' /\
    touches (fun x => in_locks x \/ region 147656 180312 x) (mm w) m') w.
Proof.
  intros Hl. pose proof pool_at as Ep. shm_facts.
  unfold InitComponentPool, COMPONENT_COUNT. rewrite eqb_neq_false by lia.
  change (8162 / 4) with 2040. generalize (Z.to_nat (40 * 816 + 16)), (Z2Nat.id (40 * 816 + 16) ltac:(lia)).
  intros size Hsize. wp_step. wp_step. set (m1 := st32 _ (getComponentPool + 4 * 2040) 40).
  set (P := fun x => in_locks x \/ region 147656 180312 x).
  assert (Hst : forall m n a v, touches P (mm w) m -> 0 <= a - getComponentPool -> a - getComponentPool + Z.of_nat n <= 32656 ->
    touches P (mm w) (st n m a v)).
  { intros m n a v Ht H1 H2. eapply touches_trans; [exact Ht|]. apply touches_st. intros x Hx. right. unfold region. lia. }
  assert (T1 : touches P (mm w) m1).
  { apply Hst; [|lia | simpl Z.of_nat; lia]. apply touches_fill. intros x Hx. right. unfold region. lia. }
  eapply wp_call; [apply (comm_ReqestSpinLock_wp nobody)|].
  { eapply locks_same; [|exact Hl]. intros x Hx. wsimp. unfold m1. by rewrite ld8_st_out, ld8_fill_out by (unfold in_locks in Hx; lia). }
  intros id w' (m2 & -> & _ & F2 & _). wsimp. wp_step. set (m3 := st32 m2 getComponentPool id).
  assert (T3 : touches P (mm w) m3).
  { apply Hst; [|lia | simpl Z.of_nat; lia]. eapply touches_trans; [exact T1|]. intros x Hx. apply F2. unfold P in Hx. tauto. }
  destruct (id =? 255); [wp_step; by exists m3|].
  apply (wp_for 40 0 _ (fun k w' => exists m', w' = set_mm w m' /\ touches P (mm w) m')); [by exists m3 | | done].
  intros i w' Hi (m' & -> & Ht). simpl in Hi. change (816 / 4) with 204. do 3 wp_step.
  apply (wp_for 16 0 _ (fun k w' => exists m', w' = set_mm w m' /\ touches P (mm w) m')).
  - eexists. split; [done|]. repeat (apply Hst; [| lia | simpl Z.of_nat; lia]). done.
  - intros k w' Hk (m4 & -> & Ht4). simpl in Hk. rewrite Z.div_mul by lia. wp_step. eexists. split; [done|].
    apply Hst; [done | lia | simpl Z.of_nat; lia].
  - done.
Qed.

Lemma msg_pool_at : getMsgPool = ShMemAddrBase + 180328.
Proof.
  unfold getMsgPool, SHMEM_OFF_MSG_POOL. shm_facts. rewrite eqb_neq_false by lia. rewrite u32_small; lia.
Qed.

(** No event is registered, and the pool's spinlock is one that can be taken, or none. *)
Definition no_events (m : mem) : Prop :=
  (forall i, 0 <= i < 32 -> ld32 m (event_flag i) = 0) /\
  (ld32 m (getMsgPool + 4) = 255 \/ 5 <= ld32 m (getMsgPool + 4) <= 11).

Lemma InitMessagerPool_wp w : locks (mm w) nobody ->
  wp (InitMessagerPool getMsgPool) (fun _ w' => exists m', w' = set_mm w m' /\ locks m' nobody /\
    no_events m' /\ touches (fun x => in_locks x \/ region 180328 183536 x) (mm w) m') w.
Proof.
  intros Hl. pose proof msg_pool_at as Ep. shm_facts. unfold InitMessagerPool. rewrite eqb_neq_false by lia.
  generalize (Z.to_nat 3208), (Z2Nat.id 3208 ltac:(lia)). intros size Hsize. wp_step. wp_step.
  set (m1 := st32 _ getMsgPool 0).
  assert (Ho1 : forall x, ~ region 180328 183536 x -> ld8 m1 x = ld8 (mm w) x).
  { intros x Hx. unfold region in Hx. unfold m1. by rewrite ld8_st_out, ld8_fill_out by lia. }
  eapply wp_call; [apply (comm_ReqestSpinLock_wp nobody)|].
  { eapply locks_same; [|exact Hl]. intros x Hx. wsimp. apply Ho1. unfold in_locks in Hx. unfold region. lia. }
  intros id w' (m2 & -> & Hl2 & F2 & Hid & _). wsimp. rewrite mm_set_mm in F2. wp_step. eexists. split; [done|].
  assert (Hlk : forall x, region 180328 183536 x -> ~ in_locks x) by (unfold region, in_locks; intros x Hx; lia).
  ands.
  - eapply locks_same; [|exact Hl2]. intros x Hx. apply ld8_st_out. unfold in_locks in Hx. lia.
  - split; [intros i Hi; unfold event_flag; rewrite ld_st_ne by lia|].
    { rewrite (lock_frame_ld _ _ _ _ F2) by (intros x Hx; apply Hlk; unfold region; lia).
      unfold m1. rewrite ld_st_ne by lia. apply ld_fill0_in; lia. }
    rewrite ld32_st32_eq. destruct Hid as [-> | [H _]]; [by left | right]. rewrite u32_small; lia.
  - intros x Hx. rewrite ld8_st_out by (unfold region in Hx; lia). rewrite F2 by tauto. apply Ho1. tauto.
Qed.
End InitSpec.
