(* ===== verification/InitSafe.v ===== *)
(** [InitCommMem] as a whole: it returns with everything set up that the
    theorems on the parts ask for, and what the parts do from there on. *)
From S2P Require Import Prelude Mem Kernel Fifo Shm SpinLock Flags SeqMem Boot Smm SmmHeap Routine RoutineTable Msgbox UserQueue FdPool FdSpec FdOps FdInit FdSafe InitMem InitSpec.

Section InitSafe.
Context {S : Shm} {OK : ShmOk S} {K : Kernel} {HQ : Quiet K} {L : SemLaws K}.

Definition list_head (k : Z) : Z := ShMemAddrBase + SHMEM_OFF_LIST_BASE + 8 * k.

(** The region between the locks and the heap; [m0] is the memory before. *)
Record structures (m0 m : mem) : Prop := Structures {
  st_magic : magic_ok m;
  st_locks : locks m nobody;
  st_cpus : ld32 m (ShMemAddrBase + SHMEM_OFF_MAX_CPU) = 3;
  st_seqs : seqs_init m;
  st_pool : @pool_rel S (ld64 m0 shmem_mid, ld32 m0 shmem_size) m 5 empty_pool;
  st_events : no_events m;
  st_offset : ld32 m (ShMemAddrBase + SHMEM_OFF_VA_OFFSET) = u32 (ShMemAddrBase - ShMemAddr);
  st_lists : forall k, 0 <= k < 20 -> ld32 m (list_head k) = list_head k /\ ld32 m (list_head k + 4) = list_head k;
  st_table : table m (fun _ => []) ∅;
}.

(** The bytes those facts are about, the locks aside. *)
Definition kept (x : Z) : Prop :=
  in_sockets x \/ (region 144 183536 x /\ ~ region 19676 19688 x /\ ~ region 19696 19724 x).

Lemma kept_not_locks x : kept x -> ~ in_locks x \/ in_sockets x.
Proof. unfold kept, in_locks, region. shm_facts. intros [H|H]; [by right | left; lia]. Qed.

Lemma structures_same m0 m m' : locks m' nobody -> (forall x, kept x -> ld8 m' x = ld8 m x) ->
  structures m0 m -> structures m0 m'.
Proof.
  intros Hl Ho [[M1 M2] _ Hc Hs Hp [E1 E2] Hv Hh Ht].
  pose proof pool_at as Ep. pose proof msg_pool_at as Em. shm_facts.
  assert (Hr : forall n a, ShMemAddrBase + 144 <= a -> a + Z.of_nat n <= ShMemAddrBase + 183536 ->
    a + Z.of_nat n <= ShMemAddrBase + 19676 \/ ShMemAddrBase + 19688 <= a ->
    a + Z.of_nat n <= ShMemAddrBase + 19696 \/ ShMemAddrBase + 19724 <= a -> ld n m' a = ld n m a).
  { intros n a H1 H2 H3 H4. apply ld_same. intros x Hx. apply Ho. right. unfold region. lia. }
  split.
  - split; unfold SHMEM_OFF_MAGIC1, SHMEM_OFF_MAGIC2 in *; rewrite Hr by lia; done.
  - done.
  - unfold SHMEM_OFF_MAX_CPU in *. rewrite Hr by lia. done.
  - eapply seqs_init_same; [|exact Hs]. intros x [Hx|Hx]; apply Ho; [by left | right]. unfold region in *. lia.
  - eapply pool_rel_same; [|exact Hp]. intros x Hx. apply Ho. right. unfold in_pool, region in *. lia.
  - split; [intros i Hi; specialize (E1 i Hi); unfold event_flag in * | ]; by rewrite Hr by lia.
  - unfold SHMEM_OFF_VA_OFFSET in *. rewrite Hr by lia. done.
  - intros k Hk. unfold list_head, SHMEM_OFF_LIST_BASE in *. destruct (Hh k Hk). split; rewrite Hr by lia; done.
  - eapply table_same; [|exact Ht]. intros x Hx. apply Ho. right. unfold region. lia.
Qed.

Lemma clear_call_entries_wp mode {B} (k : unit -> M B) Q w :
  (forall m', touches (region 30144 147656) (mm w) m' -> wp (k tt) Q (set_mm w m')) ->
  wp (clear_call_entries mode ≫= k) Q w.
Proof.
  intros H. shm_facts. unfold clear_call_entries, SHMEM_OFF_CALL_ENTRIES, CALL_ENTRY_SIZE.
  destruct (mode =? 2).
  { wp_step. specialize (H (mm w)). rewrite set_mm_id in H. by apply H. }
  eapply (wp_call _ _ (fun _ w' => exists m', w' = set_mm w m' /\ touches (region 30144 147656) (mm w) m')).
  2: { intros [] w' (m' & -> & T). by apply H. }
  assert (Hn : Z.of_nat CALL_ENTRIES_TOTAL = 117504) by done. rewrite Hn. change (117504 / 96) with 1224.
  generalize dependent CALL_ENTRIES_TOTAL. intros total Hn. generalize (Z.to_nat 1224), (Z2Nat.id 1224 ltac:(lia)).
  intros n Hn2. wp_step.
  apply (wp_for n 0 _ (fun _ w' => exists m', w' = set_mm w m' /\ touches (region 30144 147656) (mm w) m')).
  - eexists. split; [done|]. apply touches_fill. unfold region. intros x Hx. lia.
  - intros j w' Hj (m' & -> & T). wp_step. eexists. split; [done|]. eapply touches_trans; [exact T|].
    apply touches_st. unfold region. simpl. intros x Hx. lia.
  - done.
Qed.

Lemma init_lists_wp {B} (k : unit -> M B) Q w :
  (forall m', touches (region 19724 19884) (mm w) m' ->
     (forall k, 0 <= k < 20 -> ld32 m' (list_head k) = list_head k /\ ld32 m' (list_head k + 4) = list_head k) ->
     wp (k tt) Q (set_mm w m')) ->
  wp (init_lists ≫= k) Q w.
Proof.
  intros H. shm_facts. unfold init_lists, SHMEM_OFF_LIST_BASE.
  eapply (wp_call _ _ (fun _ w' => exists m', w' = set_mm w m' /\ touches (region 19724 19884) (mm w) m' /\
    forall k, 0 <= k < 20 -> ld32 m' (list_head k) = list_head k /\ ld32 m' (list_head k + 4) = list_head k)).
  2: { intros [] w' (m' & -> & T & Hk). by apply H. }
  apply (wp_for 20 0 _ (fun j w' => exists m', w' = set_mm w m' /\ touches (region 19724 19884) (mm w) m' /\
    forall k, 0 <= k < j -> ld32 m' (list_head k) = list_head k /\ ld32 m' (list_head k + 4) = list_head k)).
  - exists (mm w). rewrite set_mm_id. ands; [done | done | lia].
  - intros j w' Hj (m' & -> & T & Hk). simpl in Hj. fold (list_head j). do 2 wp_step. eexists. split; [done|].
    unfold list_head, SHMEM_OFF_LIST_BASE in *. split.
    + eapply touches_trans; [exact T|]. intros x Hx. unfold region in Hx. by rewrite !ld8_st_out by lia.
    + intros i Hi. destruct (Z.eq_dec i j) as [->|Hne]; [memsimp; rewrite u32_small by lia; done|].
      destruct (Hk i ltac:(lia)). by rewrite !ld_st_ne by lia.
  - intros w' (m' & -> & T & Hk). exists m'. done.
Qed.

(** Where [init_structures] writes. *)
Definition in_structs (x : Z) : Prop :=
  in_locks x \/ in_sockets x \/ region 144 19696 x \/ region 19704 183544 x.

Ltac back := repeat match goal with
  | T : touches ?P ?m ?m' |- context [ld8 ?m' ?x] =>
      rewrite (T x) by (unfold in_seqs, in_structs, in_sockets, in_locks, region, COMM_SOCKET_SIZE in *; lia)
  end.

Lemma init_structures_wp mode w : locks (mm w) nobody -> spin_free (mm w) 5 ->
  wp (init_structures mode) (fun _ w' => exists m', w' = set_mm w m' /\ structures (mm w) m' /\
    touches in_structs (mm w) m') w.
Proof.
  intros Hl Hf. pose proof pool_at as Ep. pose proof msg_pool_at as Em. pose proof shm_statics as Hst. shm_facts.
  unfold init_structures.
  assert (Ep' : u32 (ShMemAddrBase + SHMEM_OFF_COMP_POOL) = getComponentPool)
    by (unfold getComponentPool; by rewrite eqb_neq_false by lia).
  assert (Em' : u32 (ShMemAddrBase + SHMEM_OFF_MSG_POOL) = getMsgPool)
    by (unfold getMsgPool; by rewrite eqb_neq_false by lia).
  rewrite Ep', Em'. unfold SHMEM_OFF_MAGIC1, SHMEM_OFF_SMM_HEAP, SHMEM_OFF_VA_OFFSET, SHMEM_OFF_MAGIC2, SHMEM_OFF_MAX_CPU.
  apply clear_call_entries_wp. intros m1 T1. change (Z.to_nat 4) with 4%nat.
  apply wp_memset_abs; [lia|]. intros m2 O2 _. wsimp. rewrite mm_set_mm in O2.
  assert (T2 : touches (region 144 148) m1 m2) by (intros x Hx; apply O2; unfold region in Hx; lia). clear O2.
  wp_step. set (m3 := st32 m2 _ 3).
  assert (T3 : touches (region 19672 19676) m2 m3) by (apply touches_st; unfold region; intros; lia).
  assert (Hc3 : ld32 m3 (ShMemAddrBase + 19672) = 3) by (unfold m3; memsimp; done).
  eapply wp_call; [apply wp_both; [apply InitCommSeqs_wp | apply InitCommSeqs_touches]|].
  intros _ w' ((m4 & -> & Hs4) & m4' & E & T4). apply set_mm_inj in E. subst m4'. wsimp. rewrite mm_set_mm in T4.
  wp_step. set (m5 := st64 m4 _ 0).
  assert (T5 : touches (region 183536 183544) m4 m5) by (apply touches_st; unfold region; intros; lia).
  assert (Ho5 : forall x, in_locks x -> ld8 m5 x = ld8 (mm w) x).
  { intros x Hx. back. done. }
  assert (Hl5 : locks m5 nobody) by (eapply locks_same; [exact Ho5 | exact Hl]).
  assert (Hf5 : spin_free m5 5).
  { eapply spin_free_same; [lia | | exact Hf]. intros x Hx. apply Ho5. unfold in_locks. lia. }
  assert (Hb5 : ld64 m5 shmem_mid = ld64 (mm w) shmem_mid /\ ld32 m5 shmem_size = ld32 (mm w) shmem_size).
  { unfold shmem_mid, shmem_size. split; apply ld_same; intros x Hx; back; done. }
  clearbody m3 m5. clear Hl Hf Ho5.
  eapply wp_call; [apply wp_both; [apply (InitComponentPool_wp (set_mm w m5)); exact Hl5
                                 | apply (InitComponentPool_touches (set_mm w m5)); exact Hl5]|].
  intros _ w' ((m6 & -> & Hl6 & Hp6 & Hpool) & m6' & E & T6). apply set_mm_inj in E. subst m6'. wsimp. rewrite !mm_set_mm in *.
  specialize (Hp6 Hf5). destruct Hpool as [Hpool|[p Hpool]]; [rewrite Hp6 in Hpool; discriminate Hpool|].
  assert (p = 5) as -> by (destruct (pr_lock _ _ _ Hpool) as [<- _]; done).
  destruct Hb5 as [Hb1 Hb2]. rewrite Hb1, Hb2 in Hpool.
  eapply wp_call; [apply (InitMessagerPool_wp (set_mm w m6)); exact Hl6|].
  intros _ w' (m7 & -> & Hl7 & He7 & T7). wsimp. rewrite mm_set_mm in T7.
  do 2 wp_step. set (m8 := st32 (st32 m7 _ _) _ 0).
  assert (T8 : touches (region 19688 19696) m7 m8).
  { eapply touches_trans; apply touches_st; unfold region; intros; lia. }
  assert (Hv8 : ld32 m8 (ShMemAddrBase + 19688) = u32 (ShMemAddrBase - ShMemAddr)) by (unfold m8; memsimp; done).
  clearbody m8. apply init_lists_wp. intros m9 T9 Hh9. wsimp. rewrite mm_set_mm in T9.
  eapply wp_call; [apply init_routine_table_wp|]. intros _ w' (m10 & -> & O10 & Ht10). wsimp. rewrite mm_set_mm in O10.
  assert (T10 : touches (region 30144 147656) m9 m10) by (intros x Hx; apply O10; unfold region in Hx; lia). clear O10.
  do 2 wp_step. set (m11 := st32 (st32 m10 _ _) _ _).
  assert (T11 : touches (fun x => region 144 148 x \/ region 30136 30140 x) m10 m11).
  { eapply touches_trans; apply touches_st; unfold region; intros; lia. }
  exists m11. ands; [done | | ].
  2: { intros x Hx. back. done. }
  split.
  - unfold magic_ok, SHMEM_OFF_MAGIC1, SHMEM_OFF_MAGIC2, m11. split; memsimp; done.
  - eapply locks_same; [|exact Hl7]. intros x Hx. back. done.
  - unfold SHMEM_OFF_MAX_CPU. rewrite <- Hc3. apply ld_same. intros x Hx. back. done.
  - eapply seqs_init_same; [|exact Hs4]. intros x Hx. unfold in_seqs in Hx. back. done.
  - eapply pool_rel_same; [|exact Hpool]. intros x Hx. unfold in_pool in Hx. back. done.
  - destruct He7 as [E1 E2]. split; [intros i Hi; rewrite <- (E1 i Hi); unfold event_flag|].
    + apply ld_same. intros x Hx. back. done.
    + assert (ld32 m11 (getMsgPool + 4) = ld32 m7 (getMsgPool + 4)) as ->; [|done].
      apply ld_same. intros x Hx. back. done.
  - unfold SHMEM_OFF_VA_OFFSET. rewrite <- Hv8. apply ld_same. intros x Hx. back. done.
  - intros k Hk. destruct (Hh9 k Hk) as [H1 H2]. unfold list_head, SHMEM_OFF_LIST_BASE in *.
    split; [rewrite <- H1 at 2 | rewrite <- H2 at 2]; apply ld_same; intros x Hx; back; done.
  - eapply table_same; [|exact Ht10]. intros x Hx. back. done.
Qed.

(** *** After the structures *)

Definition in_flags (x : Z) : Prop := in_locks x \/ region 19676 19684 x.

Lemma wp_flag_or cpu bits {B} (k : unit -> M B) Q w : 0 <= cpu <= 1 ->
  (forall m', touches in_flags (mm w) m' -> touches (region 19676 19684) (mm w) m' -> wp (k tt) Q (set_mm w m')) ->
  wp (flag_or cpu bits ≫= k) Q w.
Proof.
  intros Hc H. pose proof (cpu_flag_at cpu). shm_facts. unfold flag_or. do 3 wp_step.
  apply H; apply touches_st; unfold in_flags, region; simpl; intros; lia.
Qed.

Lemma wp_flag_clear cpu bits {B} (k : unit -> M B) Q w : 0 <= cpu <= 1 ->
  (forall m', touches in_flags (mm w) m' -> touches (region 19676 19684) (mm w) m' -> wp (k tt) Q (set_mm w m')) ->
  wp (flag_clear cpu bits ≫= k) Q w.
Proof.
  intros Hc H. pose proof (cpu_flag_at cpu). shm_facts. unfold flag_clear. do 3 wp_step.
  apply H; apply touches_st; unfold in_flags, region; simpl; intros; lia.
Qed.

Lemma entry_locks id v m m' h : 0 <= id <= 11 -> locks m h -> same_out (spin_entry id) 12 m m' ->
  lock_is m' id v -> locks m' (fset h id v) /\ touches in_flags m m'.
Proof.
  intros Hid Hl Ho Hv. split; [by eapply locks_set|]. pose proof (spin_entry_at id Hid).
  intros x Hx. apply Ho. unfold in_flags, in_locks in Hx. lia.
Qed.

Lemma setCPUReady_locks w : tgid_ok w -> magic_ok (mm w) -> locks (mm w) nobody ->
  wp (setCPUReady 0) (fun _ w' => exists m', w' = set_mm w m' /\ locks m' nobody /\ touches in_flags (mm w) m') w.
Proof.
  intros Ht Hm Hl. shm_facts. unfold setCPUReady. rewrite base_nonnull, ltb_false by lia. cbn [orb]. cbn iota.
  apply wp_magic_set; [done|]. cbn [negb]. cbn iota.
  apply wp_SpinLock; [lia | done | by apply Hl; lia |]. intros m1 L1 O1. wsimp.
  destruct (entry_locks 3 _ _ _ _ ltac:(lia) Hl O1 L1) as [Hl1 T1].
  apply wp_flag_or; [lia|]. intros m2 T2 F2. apply wp_flag_clear; [lia|]. intros m3 T3 F3.
  apply wp_flag_clear; [lia|]. intros m4 T4 F4. apply wp_flag_clear; [lia|]. intros m5 T5 F5.
  wsimp. rewrite mm_set_mm in *.
  assert (Hl5 : locks m5 (fset nobody 3 (Some (cur_tgid w, 1)))).
  { eapply locks_same; [|exact Hl1]. intros x Hx. unfold in_locks in Hx. back. done. }
  pose proof (Hl5 3 ltac:(lia)) as H5. rewrite fset_eq in H5.
  apply (wp_SpinUnLock_last 3 _ _ (cur_tgid w)); [lia | exact H5 |]. intros m6 L6 O6. wsimp. rewrite mm_set_mm in O6.
  destruct (entry_locks 3 _ _ _ _ ltac:(lia) Hl5 O6 L6) as [Hl6 T6]. exists m6. ands; [done | |].
  - eapply locks_ext; [|exact Hl6]. intros i. unfold fset, nobody. by destruct (i =? 3).
  - repeat (eapply touches_trans; [eassumption|]). apply touches_refl.
Qed.

(** Neither CPU asks for a notice: the wait is over at once. *)
Lemma wait_notice_wp {B} (k : unit -> M B) Q w : ld32 (mm w) (cpu_flag 0) = 5 -> ld32 (mm w) (cpu_flag 1) = 0 ->
  wp (k tt) Q w -> wp (wait_notice ≫= k) Q w.
Proof.
  intros H0 H1 H. unfold wait_notice. change (Z.to_nat 202) with (Datatypes.S (Z.to_nat 201)).
  generalize (Z.to_nat 201). intros n. cbn [loop]. unfold isCPUNoticeReqed. rewrite !ltb_false by lia.
  rewrite base_nonnull. cbn iota. change CPU_FLAG_NOTICE_REQ with (2 ^ 3).
  repeat wp_step. apply (fl_test 0 3); [lia | lia |]. rewrite H0. change (Z.testbit 5 3) with false. cbn iota.
  rewrite Z.eqb_refl. cbn iota. repeat wp_step.
  apply (fl_test 1 3); [lia | lia |]. rewrite H1. change (Z.testbit 0 3) with false. cbn iota.
  rewrite Z.eqb_refl. cbn iota. do 2 wp_step. exact H.
Qed.

Definition heap_base : Z := ShMemAddrBase + SHMEM_OFF_SMM_HEAP.
Definition heap_size : Z := ShMemSize - 1 - SHMEM_OFF_SMM_HEAP.

Lemma smm_room : ShMemAddrBase mod 4096 = 0 -> heap_room heap_base heap_size /\ page_up heap_base = ShMemAddrBase + 184320.
Proof.
  intros Hp. shm_facts. unfold heap_base, heap_size, SHMEM_OFF_SMM_HEAP.
  pose proof (Z.div_mod ShMemAddrBase 4096 ltac:(lia)) as Hd. rewrite Hp in Hd.
  assert (Hq : (ShMemAddrBase + 183536 + 4095) / 4096 = ShMemAddrBase / 4096 + 45).
  { symmetry. apply (Z.div_unique_pos _ 4096 _ 3311); lia. }
  split; [|rewrite page_up_small by lia; rewrite Hq; lia].
  split; [lia | | rewrite Hshm0; vm_compute; congruence].
  rewrite Hq, Hshm0. change (whole (0x500000 - 1 - 183536)) with 5058560. lia.
Qed.

(** *** The whole *)

(** What [InitCommMem] leaves; [m0] is the memory it started with. *)
Record initialised (m0 m : mem) : Prop := Initialised {
  in_struct : structures m0 m;
  in_words : ld32 m (cpu_flag 0) = 5 /\ ld32 m (cpu_flag 1) = 0;
  in_heap : bump_heap m (page_up heap_base) (heap_pages heap_size) heap_size (data_start heap_size);
  in_slot0 : ld64 m (ShMemAddrBase + 19696) = ld64 m0 (ShMemAddrBase + 19696);
  in_frame : touches (fun x => in_locks x \/ in_sockets x \/ region 144 188416 x) m0 m;
}.

Lemma Trid_SMM_Init_locks w : ShMemAddrBase mod 4096 = 0 -> tgid_ok w -> locks (mm w) nobody ->
  table_clear (mm w) (page_up heap_base) ->
  wp (Trid_SMM_Init heap_base heap_size) (fun _ w' => exists m', w' = set_mm w m' /\ locks m' nobody /\
    bump_heap m' (page_up heap_base) (heap_pages heap_size) heap_size (data_start heap_size) /\
    touches (fun x => in_locks x \/ region 19712 19720 x \/ region 184320 188416 x) (mm w) m') w.
Proof.
  intros Hp Ht Hl Hz. destruct (smm_room Hp) as [Hr E]. pose proof (spin_entry_at 1 ltac:(lia)) as (Q1 & Q2 & Q3).
  eapply wp_mono; [apply Trid_SMM_Init_wp; [done | done | by apply Hl; lia | done]|].
  intros _ w' (_ & m' & -> & Hb & Hl1 & Ho). exists m'. ands; [done | | done |].
  - intros i Hi. destruct (Z.eq_dec i 1) as [->|Hne]; [done|]. eapply lock_is_same; [done | | by apply Hl].
    pose proof (spin_entry_at i Hi). rewrite !spin_entry_off in *. shm_facts. intros x Hx. apply Ho; lia.
  - intros x Hx. unfold in_locks, region in Hx. shm_facts. apply Ho; lia.
Qed.

Lemma bump_heap_same m m' : ShMemAddrBase mod 4096 = 0 ->
  (forall x, region 184320 188432 x -> ld8 m' x = ld8 m x) ->
  bump_heap m (page_up heap_base) (heap_pages heap_size) heap_size (data_start heap_size) ->
  bump_heap m' (page_up heap_base) (heap_pages heap_size) heap_size (data_start heap_size).
Proof.
  intros Hp Ho H. destruct (smm_room Hp) as [_ E]. revert H. rewrite E. unfold region in Ho.
  intros [H1 H2 H3 H4 H5 H6 H7 H8 H9 H10 H11 H12].
  split; try done; rewrite ?(ld_same 4 m m') by (intros; apply Ho; lia); done.
Qed.

Lemma InitCommMem_wp request free mode w : grants request -> ShMemAddrBase mod 4096 = 0 -> ShMemSize1 = 0 ->
  tgid_ok w -> table_clear (mm w) (page_up heap_base) ->
  wp (InitCommMem request free mode) (fun r w' => r = 0 /\ exists m', w' = set_mm w m' /\ initialised (mm w) m') w.
Proof.
  intros Hg Hp H1 Ht Hz. destruct (smm_room Hp) as [_ E]. pose proof (cpu_flag_at 0) as F0. pose proof (cpu_flag_at 1) as F1.
  pose proof shm_statics as Hst. shm_facts. unfold InitCommMem. rewrite base_nonnull.
  eapply wp_call; [by apply init_locks_wp|]. intros r w' (-> & m1 & -> & Hl1 & Hf1 & T1).
  rewrite Z.eqb_refl. cbn [negb]. cbn iota.
  eapply wp_call; [apply (init_structures_wp mode (set_mm w m1)); [exact Hl1 | exact Hf1]|].
  intros _ w' (m2 & -> & Hs2 & T2). wsimp. rewrite mm_set_mm in *.
  assert (Eb : u32 (ShMemAddrBase + SHMEM_OFF_SMM_HEAP) = heap_base)
    by (unfold heap_base, SHMEM_OFF_SMM_HEAP; apply u32_small; lia).
  assert (Es : u32 (ShMemSize - 1 - SHMEM_OFF_SMM_HEAP) = heap_size)
    by (unfold heap_size, SHMEM_OFF_SMM_HEAP; apply u32_small; lia).
  rewrite Eb, Es.
  eapply wp_call; [apply (Trid_SMM_Init_locks (set_mm w m2)); [done | done | by destruct Hs2 |]|].
  { rewrite E in *. destruct Hz as (Z0 & Z1 & Z2). unfold table_clear. rewrite mm_set_mm.
    unfold in_lock_area, in_hw in T1.
    ands; [rewrite <- Z0 | rewrite <- Z1 | rewrite <- Z2]; apply ld_same; intros x Hx; back; done. }
  intros _ w' (m3 & -> & Hl3 & Hb3 & T3). wsimp. rewrite mm_set_mm in *.
  unfold init_second_heap. rewrite H1, Z.eqb_refl. wp_step.
  assert (Hs3 : structures (mm w) m3).
  { apply (structures_same _ m2); [done | |].
    - intros x Hx. unfold kept in Hx. back. done.
    - destruct Hs2 as [A1 A2 A3 A4 A5 A6 A7 A8 A9]. split; try done.
      revert A5. unfold shmem_mid, shmem_size. rewrite pool_at. unfold in_lock_area, in_hw in T1.
      rewrite (ld_same 8 (mm w) m1), (ld_same 4 (mm w) m1) by (intros x Hx; back; done). done. }
  eapply wp_call; [apply (setCPUReady_locks (set_mm w m3)); [done | by destruct Hs3 | done]|].
  intros _ w' (m4 & -> & Hl4 & T4). wsimp. rewrite mm_set_mm in *. unfold in_flags in T4.
  unfold init_flags. change (CPU_FLAG_READY |. CPU_FLAG_APP_READY) with 5. unfold CPU_ID_ARM, CPU_ID_MIPS.
  do 3 wp_step. set (m5 := st32 (st32 m4 _ 5) _ 0).
  assert (T5 : touches (region 19676 19684) m4 m5).
  { eapply touches_trans; apply touches_st; unfold region; simpl; intros; lia. }
  assert (W5 : ld32 m5 (cpu_flag 0) = 5 /\ ld32 m5 (cpu_flag 1) = 0) by (unfold m5; rewrite F0, F1; split; [rewrite ld_st_ne by lia|]; by rewrite ld32_st32_eq).
  clearbody m5. apply spinUnlockhwReg_wp; [lia|]. apply wait_notice_wp; [apply W5 | apply W5 |].
  wp_step. split; [done|]. exists m5. split; [done|]. unfold in_lock_area, in_hw in T1. split.
  - apply (structures_same _ m3); [| | exact Hs3].
    + eapply locks_same; [|exact Hl4]. intros x Hx. back. done.
    + intros x Hx. unfold kept in Hx. back. done.
  - exact W5.
  - eapply bump_heap_same; [done | | exact Hb3]. intros x Hx. back. done.
  - apply ld_same. intros x Hx. back. done.
  - intros x Hx. back. done.
Qed.
End InitSafe.

(** ** Properties *)

(** [InitCommMem], in either mode, returns 0 with everything in place that the theorems on the
    parts start from: both magic words; all twelve spinlocks free; sockets, staging FIFOs and the
    free lists of the eight sequences; the component pool empty under spinlock 5; no event; an empty
    routine table; the heap in the pages behind it, none in use; ARM ready and MIPS not.  Outside
    the start of the region, the sockets and the lock handles no byte changes. *)
Theorem init_establishes {S : Shm} {OK : ShmOk S} {K : Kernel} {HQ : Quiet K} {L : SemLaws K} request free mode w :
  grants request -> ShMemAddrBase mod 4096 = 0 -> ShMemSize1 = 0 -> tgid_ok w ->
  table_clear (mm w) (page_up heap_base) ->
  exists m', InitCommMem request free mode w = Ret 0 (set_mm w m') /\ initialised (mm w) m'.
Proof.
  intros Hg Hp H1 Ht Hz.
  destruct (wp_run _ _ _ (InitCommMem_wp request free mode w Hg Hp H1 Ht Hz)) as (r & w' & E & -> & m' & -> & H).
  by exists m'.
Qed.

Definition give_lock (h : Z) (w : world) : Z * world := (0xBF0B0000, w).
Definition keep_lock (h : Z) (w : world) : world := w.

Lemma give_lock_grants : grants give_lock.
Proof. intros h w. by exists 0xBF0B0000. Qed.

Lemma init_establishes_witness : exists m',
  InitCommMem give_lock keep_lock 0 blank_world = Ret 0 (set_mm blank_world m') /\ initialised ∅ m'.
Proof.
  apply (init_establishes give_lock keep_lock 0 blank_world give_lock_grants);
    [reflexivity | reflexivity | split; [vm_compute; intuition congruence | vm_compute; congruence] | by vm_compute].
Defined.
