(* ===== verification/Dev.v ===== *)
(** /dev/cpu_comm ([cpu_comm_dev.c]): open, release, mmap, the ioctls with the
    counter that suspends them.

    The counter [cpu_comm_suspend_flag] is passed in and out; [buf], [find_buf]
    and [local_msg] are the stack buffers whose addresses the handlers pass on. *)
From S2P Require Import Prelude Mem Kernel Fifo Shm SpinLock Flags SeqMem Channel Smm Routine Msgbox UserQueue Proto Rpc FdPool InitMem.

Definition IOCTL_SEND_KERN : Z := 0xBFFE7F01.
Definition IOCTL_SEND_USER : Z := 0x40087F02.
Definition IOCTL_CALL : Z := 0xC0087F26.
Definition IOCTL_NOTIFY : Z := 0xC0087F27.
Definition IOCTL_SET_RESET : Z := 0x40047F22.
Definition IOCTL_SHOW : Z := 0x7F05.
Definition IOCTL_STOP_DISP : Z := 0x7F39.
Definition IOCTL_MALLOC : Z := 0xC0087F10.
Definition IOCTL_FREE : Z := 0x40047F11.
Definition IOCTL_RESUME : Z := 0xBFFE7F30.
Definition IOCTL_SUSPEND : Z := 0xBFFE7F19.
Definition IOCTL_GET_CPUID : Z := 0x80087F34.
Definition IOCTL_INSTALL_RT : Z := 0xC0087F30.
Definition IOCTL_UNINSTALL_RT : Z := 0xC0087F31.
Definition IOCTL_NOTICE_CHECK : Z := 0x7F25.

Definition CPU_COMM_DEV_SIZE : Z := 119648.
Definition PAGE_SHIFT : Z := 12.

(** [cpu_comm_suspend_flag++], and back while it is positive. *)
Definition cpu_comm_suspend (flag : Z) : Z := s32 (flag + 1).
Definition cpu_comm_resume (flag : Z) : Z := if 0 <? flag then flag - 1 else flag.

Section Dev.
Context {S : Shm} {K : Kernel} {J : Jiffies} {A : Kmalloc} {U : Uaccess} {R : Regs}.

Definition cpu_comm_open (file : Z) : M Z := cpu_comm_user_open file.

Definition cpu_comm_release (file : Z) : M Z :=
  cpu_comm_user_release file ;;
  pid ← gets cur_pid;
  RemovePidRoutines pid ;;
  mret 0.

(** [remap start pfn size] is the kernel's [remap_pfn_range]. *)
Definition cpu_comm_mmap (remap : Z -> Z -> Z -> world -> Z * world) (vm_start vm_end : Z) : M Z :=
  let size := u32 (vm_end - vm_start) in
  if (ShMemAddr =? 0) || (ShMemSize =? 0) then mret (- ENODEV) else
  if ShMemSize <? size then mret (- EINVAL) else
  let pfn := Z.shiftr ShMemAddr PAGE_SHIFT in
  err ← lift_env (remap vm_start pfn size);
  mret (if err =? 0 then 0 else - EAGAIN).

(** *** The ioctls *)

Definition ioctl_call (arg buf find_buf local_msg : Z) : M Z :=
  with_buf arg buf 168 (
    ret ← CPUComm_Call find_buf local_msg buf (buf + 64) (buf + 120);
    if negb (ret =? 0) then mret (- EFAULT) else copy_out arg buf 168).

Definition ioctl_notify (arg buf find_buf local_msg : Z) : M Z :=
  with_buf arg buf 124 (
    ret ← CPUComm_Notify find_buf local_msg buf (buf + 64);
    mret (if negb (ret =? 0) then - EFAULT else 0)).

Definition ioctl_set_reset (arg buf : Z) : M Z :=
  with_buf arg buf 4 (
    val ← rd32 buf;
    setCPUReset (val &. 0xFFFF) (Z.shiftr val 16) ;;
    mret 0).

Definition ioctl_get_cpuid (arg buf : Z) : M Z :=
  wr32 buf getCurCPUID ;;
  copy_out arg buf 4.

Definition ioctl_malloc (arg buf : Z) : M Z :=
  with_buf arg buf 8 (
    size ← rd32 (buf + 4);
    mid ← Trid_SMM_MallocAttr size;
    wr32 buf (Mid2Vir getCurCPUID (u32 mid)) ;;
    copy_out arg buf 8).

Definition ioctl_free (arg : Z) : M Z :=
  Trid_SMM_Free (Vir2Mid getCurCPUID (u32 arg)) ;;
  mret 0.

(** The channel for calls to the routine's component. *)
Definition install_channel (buf : Z) : M unit :=
  b0 ← rd32 buf;
  b1 ← rd32 (buf + 4);
  let channel_id := (b0 &. 0xF) |. u32 (16 * b1) in
  q ← Comm_QueryChannel channel_pool channel_id;
  if (fst q =? 0) && (snd q =? 0) then
    Comm_AddNewChannel channel_pool (u16 b0) b1 ;;
    wr32 (buf + 88) channel_id
  else mret tt.

(** The channel for calls that come from MIPS. *)
Definition install_mips_channel (buf : Z) : M unit :=
  b0 ← rd32 buf;
  if (Z.shiftr b0 16 &. 0xFFFF) =? 0 then
    let mips_cpu := 1 in
    pid ← gets cur_pid;
    let mips_channel := mips_cpu |. u32 (Z.shiftl (u32 pid) 4) in
    q ← Comm_QueryChannel channel_pool mips_channel;
    if (fst q =? 0) && (snd q =? 0) then
      Comm_AddNewChannel channel_pool (u16 mips_cpu) (u32 pid) ;; mret tt
    else mret tt
  else mret tt.

Definition ioctl_install_rt (arg buf find_buf : Z) : M Z :=
  with_buf arg buf 96 (
    ret ← AddInRoutine find_buf buf;
    if negb (ret =? 0) then mret (- EFAULT) else
    install_channel buf ;;
    install_mips_channel buf ;;
    copy_out arg buf 96).

Definition ioctl_uninstall_rt (arg buf : Z) : M Z :=
  with_buf arg buf 96 (
    ret ← RemoveRoutine buf;
    mret (if ret <? 0 then - EFAULT else ret)).

Definition ioctl_stop_disp : M Z :=
  reg ← comm_ReadRegWord 0x03061024;
  comm_WriteRegWord 0x03061024 (bic reg 2) ;;
  mret 0.

(** The commands of an open device that is not suspended. *)
Definition ioctl_switch (cmd arg buf find_buf local_msg : Z) : M Z :=
  if cmd =? IOCTL_SEND_KERN then SendComm2CPU find_buf arg false
  else if cmd =? IOCTL_SEND_USER then SendComm2CPU find_buf arg true
  else if cmd =? IOCTL_CALL then ioctl_call arg buf find_buf local_msg
  else if cmd =? IOCTL_NOTIFY then ioctl_notify arg buf find_buf local_msg
  else if cmd =? IOCTL_SET_RESET then ioctl_set_reset arg buf
  else if cmd =? IOCTL_GET_CPUID then ioctl_get_cpuid arg buf
  else if cmd =? IOCTL_MALLOC then ioctl_malloc arg buf
  else if cmd =? IOCTL_FREE then ioctl_free arg
  else if cmd =? IOCTL_INSTALL_RT then ioctl_install_rt arg buf find_buf
  else if cmd =? IOCTL_UNINSTALL_RT then ioctl_uninstall_rt arg buf
  else if cmd =? IOCTL_STOP_DISP then ioctl_stop_disp
  else if cmd =? IOCTL_NOTICE_CHECK then checkNoticeReqedJob ;; mret 0
  else if cmd =? IOCTL_SHOW then isCPUReady CPU_ID_ARM ;; isCPUReady CPU_ID_MIPS ;; mret 0
  else mret (- ENOTTY).

Definition cpu_comm_ioctl (flag cmd arg buf find_buf local_msg : Z) : M (Z * Z) :=
  if cmd =? IOCTL_RESUME then mret (cpu_comm_resume flag, 0) else
  if 0 <? flag then mret (flag, - EFAULT) else
  if cmd =? IOCTL_SUSPEND then mret (cpu_comm_suspend flag, 0) else
  ret ← ioctl_switch cmd arg buf find_buf local_msg;
  mret (flag, ret).

(** *** The device's own state, as [cpu_comm_init] sets it up after allocating it *)

Definition init_dev_state : M unit :=
  let d i := pcpu_comm_dev + 4 * i in
  memset pcpu_comm_dev 0 (Z.to_nat CPU_COMM_DEV_SIZE) ;;
  wr32 (d 6) (d 6) ;; wr32 (d 7) (d 6) ;;
  wr32 (d 10) (d 10) ;; wr32 (d 11) (d 10) ;;
  wr32 (d 5) 1 ;; wr32 (d 9) 1 ;; wr32 (d 507) 1 ;;
  wr32 (d 508) (d 508) ;; wr32 (d 509) (d 508) ;;
  wr32 (d 510) (-1) ;; wr32 (d 506) 0 ;;
  ChannelPoolInit channel_pool.

(** The sixteen channels for calls of the MIPS side's own components. *)
Definition register_vp_channels : M unit :=
  for_ 16 0 (fun j => Comm_AddNewChannel channel_pool (u16 j) 0x14 ;; mret tt).
(** [mips_app_ready_assumed] is set when the READY bit of MIPS is seen. *)
Definition assume_mips_app_ready : M unit :=
  modify (fun w => World (mm w) (s_CallSessionId w) 1 (ShMemAddr1 w) (cur_tgid w) (cur_pid w)
    (mmio w) (works w) (call_works w) (user_ctxs w) (mbox w) (env w)).

Definition mips_ready_seen : M bool :=
  f ← rd32 (cpu_flag CPU_ID_MIPS); mret (negb ((f &. 1) =? 0)).

(** ARM announces itself, then waits up to five seconds for MIPS. *)
Definition mips_handshake : M unit :=
  comm_SpinLock 3 ;;
  wr32 (cpu_flag CPU_ID_ARM) 5 ;;
  comm_SpinUnLock 3 ;;
  ready ← mips_ready_seen;
  (if ready : bool then assume_mips_app_ready else mret tt) ;;
  loop (Z.to_nat 502) (fun waited =>
    ready ← mips_ready_seen;
    if negb ready && (waited <? 5000) then k_msleep 10 ;; mret (inl (waited + 10))
    else mret (inr tt)) 0 ;;
  ready ← mips_ready_seen;
  if ready : bool then assume_mips_app_ready else mret tt.

(** The part of [cpu_comm_init] behind the allocation of the device's state, without the
    reads of the firmware's log control and the request of the interrupt lines:
    [request] and [free] are the hardware spinlocks' own. *)
Definition init_state {G : ProtoGlobals} (request : Z -> world -> Z * world) (free : Z -> world -> world) (mode : Z) : M Z :=
  init_dev_state ;;
  init_intrsem ;;
  ret ← InitCommMem request free mode;
  if negb (ret =? 0) then mret ret else
  mips_handshake ;;
  register_vp_channels ;;
  mret 0.
End Dev.
