(* ===== verification/DevSafe.v ===== *)
(** What the ioctls of /dev/cpu_comm do to the routine table and to the
    channels, and how the counter of suspensions gates them. *)
From S2P Require Import Prelude Mem Kernel Fifo Shm SpinLock Flags SeqMem Channel Smm SmmHeap Routine RoutineTable Msgbox UserQueue Proto Rpc FdPool FdSpec FdOps FdInit FdSafe InitMem InitSpec InitSafe Dev.

(** ** Channels as a table of 32 ids, 0 for a free place *)

Definition a_query (ids : Z -> Z) (id : Z) : option Z := first (fun i => ids i =? id) 32 0.

Definition chan_add (ids : Z -> Z) (id : Z) : Z -> Z :=
  match a_query ids 0 with Some i => fset ids i id | None => ids end.

(** What INSTALL_RT does for a descriptor with first words [b0] and [b1], and for process [pid]. *)
Definition a_install (b0 b1 : Z) (ids : Z -> Z) : Z -> Z :=
  match a_query ids ((b0 &. 0xF) |. u32 (16 * b1)) with
  | Some _ => ids
  | None => chan_add ids (u16 b0 |. u32 (16 * b1))
  end.

Definition mips_id (pid : Z) : Z := 1 |. u32 (16 * u32 pid).

Definition a_install_mips (b0 pid : Z) (ids : Z -> Z) : Z -> Z :=
  if (Z.shiftr b0 16 &. 0xFFFF) =? 0 then
    match a_query ids (mips_id pid) with Some _ => ids | None => chan_add ids (mips_id pid) end
  else ids.

Definition full (ids : Z -> Z) : Prop := forall i, 0 <= i < 32 -> ids i <> 0.

Lemma full_query ids : full ids -> a_query ids 0 = None.
Proof.
  intros H. unfold a_query. destruct (first _ 32 0) as [i|] eqn:E; [|done].
  apply first_some in E as (H1 & H2 & _). apply Z.eqb_eq in H2. by destruct (H i ltac:(lia) H2).
Qed.

Lemma full_chan_add ids id : full ids -> chan_add ids id = ids.
Proof. intros H. unfold chan_add. by rewrite full_query. Qed.

Lemma query_free ids j : 0 <= j < 32 -> ids j = 0 -> (forall i, 0 <= i < j -> ids i <> 0) -> a_query ids 0 = Some j.
Proof.
  intros Hj E Hn. unfold a_query. destruct (first _ 32 0) as [k|] eqn:Ek.
  - apply first_some in Ek as (H1 & H2 & H3). apply Z.eqb_eq in H2.
    destruct (Z.lt_trichotomy k j) as [Hlt|[->|Hlt]]; [by destruct (Hn k ltac:(lia) H2) | done |].
    specialize (H3 j ltac:(lia)). simpl in H3. by rewrite E in H3.
  - pose proof (first_none _ _ _ j Ek ltac:(lia)) as H2. simpl in H2. by rewrite E in H2.
Qed.

Section Channels.
Context {S : Shm} {K : Kernel} {L : SemLaws K}.

(** The pool lies at [pool], 1444 bytes long. *)
Definition chans (m : mem) (pool : Z) (ids : Z -> Z) : Prop :=
  forall i, 0 <= i < 32 -> ld32 m (channel_slot pool i) = ids i.

Lemma channel_slot_at pool i : channel_slot pool i = pool + 36 + 44 * i.
Proof. unfold channel_slot, CHANNEL_SLOT_DWORDS. lia. Qed.

Lemma chans_same m m' pool ids :
  (forall x, pool <= x < pool + 1444 -> ld8 m' x = ld8 m x) -> chans m pool ids -> chans m' pool ids.
Proof.
  intros Ho H i Hi. rewrite <- (H i Hi). apply ld_same. intros x Hx. apply Ho. rewrite channel_slot_at in Hx. lia.
Qed.

Lemma Comm_QueryChannel_run pool ids id w : 4096 <= pool -> chans (mm w) pool ids ->
  Comm_QueryChannel pool id w = Ret (0, default 0 (channel_slot pool <$> a_query ids id)) w.
Proof.
  intros Hp H. unfold Comm_QueryChannel. rewrite eqb_neq_false by lia.
  unfold mbind at 1, M_bind at 1.
  rewrite (for_exit_first _ 0 _ (fun i => ids i =? id) (channel_slot pool)); [done|].
  intros j Hj. change (Z.of_nat (Z.to_nat CHANNEL_SLOT_COUNT)) with 32 in Hj.
  unfold mbind, M_bind, rd. rewrite ltb_false by (rewrite channel_slot_at; lia). rewrite H by lia.
  by destruct (ids j =? id).
Qed.

(** A slot is filled, the count goes up; nothing outside the pool changes. *)
Lemma Comm_AddNewChannel_wp pool comp cpu ids w : 4096 <= pool -> chans (mm w) pool ids ->
  let id := u16 comp |. u32 (Z.shiftl cpu 4) in
  wp (Comm_AddNewChannel pool comp cpu) (fun r w' =>
    r = (if is_some (a_query ids 0) then 0 else - ENOMEM) /\
    exists m', w' = set_mm w m' /\ chans m' pool (chan_add ids id) /\ same_out pool 1444 (mm w) m') w.
Proof.
  intros Hp H id. assert (Hid : 0 <= id < 2 ^ 32).
  { unfold id. apply lor_range; [lia | | apply u32_range]. pose proof (u16_range comp). lia. }
  unfold Comm_AddNewChannel. rewrite eqb_neq_false by lia. cbv zeta. fold id.
  eapply (wp_call _ _ (fun r w' => r = ((fun _ => 0) <$> a_query ids 0) /\
    exists m', w' = set_mm w m' /\ chans m' pool (chan_add ids id) /\ same_out pool 1444 (mm w) m')).
  2: { intros r w' (-> & Hm). wp_step. split; [|done]. by destruct (a_query ids 0). }
  unfold CHANNEL_SLOT_COUNT. change (Z.to_nat 32) with 32%nat.
  apply (wp_for_exit 32 0 _ (fun j w' => w' = w /\ forall i, 0 <= i < j -> ids i <> 0)).
  - split; [done | lia].
  - intros j w' Hj [-> Hn]. simpl in Hj. rewrite channel_slot_at. wp_step. rewrite <- channel_slot_at, H by lia.
    destruct (Z.eqb_spec (ids j) 0) as [E|E].
    2: { wp_step. split; [done|]. intros i Hi. destruct (Z.eq_dec i j) as [->|]; [done | apply Hn; lia]. }
    assert (Hq : a_query ids 0 = Some j) by (apply query_free; [lia | done..]).
    rewrite channel_slot_at. do 4 wp_step. apply wp_sema_init_abs; [lia|]. intros m1 O1 _. wsimp.
    do 3 wp_step. split; [by rewrite Hq|]. eexists. split; [done|]. rewrite mm_set_mm in O1. split.
    + unfold chan_add. rewrite Hq. intros i Hi. rewrite channel_slot_at, ld_st_ne by lia.
      rewrite (ld_same_out _ _ _ _ _ _ O1) by lia. rewrite !(ld_st_ne 4 4) by lia.
      destruct (Z.eq_dec i j) as [->|Hne]; [rewrite fset_eq, ld32_st32_eq; apply u32_small; lia|].
      rewrite ld_st_ne, fset_ne by lia. rewrite <- channel_slot_at. by apply H.
    + intros x Hx. rewrite ld8_st_out by (simpl; lia). rewrite O1 by lia. by rewrite !ld8_st_out by (simpl; lia).
  - intros w' [-> Hn]. rewrite full_query, full_chan_add by (intros i Hi; apply Hn; simpl; lia).
    split; [done|]. exists (mm w). by rewrite set_mm_id.
Qed.
End Channels.

(** ** Installing a routine *)

Definition separate (a n b k : Z) : Prop := a + n <= b \/ b + k <= a.

Section Install.
Context {S : Shm} {OK : ShmOk S} {K : Kernel} {HQ : Quiet K} {L : SemLaws K} {U : Uaccess}.
Context (arg buf find : Z).

(** The user's block, the two stack buffers and the channel pool are different objects outside the
    shared region, and the user's block can be accessed. *)
Record install_places : Prop := InstallPlaces {
  ip_arg : outside arg 96;
  ip_buf : outside buf 104;
  ip_find : outside find 96;
  ip_pool : outside channel_pool 1444;
  ip_buf_find : separate buf 104 find 96;
  ip_buf_pool : separate buf 104 channel_pool 1444;
  ip_find_pool : separate find 96 channel_pool 1444;
  ip_arg_pool : separate arg 96 channel_pool 1444;
  ip_access : forall n w, access_ok arg n w = true;
}.

(** The routine table holds [T], the channels are [ids]. *)
Record dev_state (w : world) (ch : Z -> list Z) (T : gmap Z (list Z)) (ids : Z -> Z) : Prop := DevState {
  ds_table : rt_state (mm w) ch T;
  ds_chans : chans (mm w) channel_pool ids;
  ds_tgid : tgid_ok w;
}.

Lemma rt_state_same m m' ch T :
  (forall x, ShMemAddrBase <= x < ShMemAddrBase + ShMemSize -> ld8 m' x = ld8 m x) -> rt_state m ch T -> rt_state m' ch T.
Proof.
  intros Ho [H1 [M1 M2] H3]. shm_facts. split.
  - eapply table_same; [|exact H1]. intros x Hx. apply Ho. lia.
  - split; unfold SHMEM_OFF_MAGIC1, SHMEM_OFF_MAGIC2 in *; rewrite (ld_same 4 m) by (intros; apply Ho; lia); done.
  - pose proof (spin_entry_at 2 ltac:(lia)). eapply lock_is_same; [lia | | exact H3]. intros x Hx. apply Ho. lia.
Qed.

Lemma overflow_full_same m m' :
  (forall x, ShMemAddrBase <= x < ShMemAddrBase + ShMemSize -> ld8 m' x = ld8 m x) -> overflow_full m -> overflow_full m'.
Proof.
  intros Ho H i Hi. specialize (H i Hi). destruct (rt_entry_at i (overflow_slot i Hi)) as (_ & E1 & E2 & _). shm_facts.
  unfold comp_of, RT_COMP_ID_OFF in *. by rewrite (ld_same 4 m) by (intros; apply Ho; lia).
Qed.

(** All overflow entries in use: at least 200 routines. *)
Lemma overflow_full_size m ch T : table m ch T -> overflow_full m -> (200 <= size T)%nat.
Proof.
  intros H Hf. set (l := map (comp_of m) (seqZ RT_OVERFLOW_START 200)).
  assert (Hov : forall i, i ∈ seqZ RT_OVERFLOW_START 200 -> overflow i).
  { intros i Hi. apply elem_of_seqZ in Hi. unfold overflow, RT_OVERFLOW_START, RT_MAX_INDEX in *. lia. }
  assert (Hin : forall i, overflow i -> exists b, bucket b /\ i ∈ ch b).
  { intros i Hi. destruct (decide (Exists (fun b => i ∈ ch b) (seqZ 0 RT_PRIMARY_SLOTS))) as [He|Hn].
    - apply Exists_exists in He as (b & Hb & Hc). apply elem_of_seqZ in Hb. exists b. split; [unfold bucket; lia | done].
    - destruct (Hf i Hi). apply (tb_free _ _ _ H i Hi). intros b Hb Hc. apply Hn, Exists_exists. exists b.
      split; [apply elem_of_seqZ; unfold bucket in Hb; lia | done]. }
  assert (Hnd : NoDup l).
  { apply NoDup_fmap_2_strong; [|apply NoDup_seqZ]. intros i j Hi Hj E.
    destruct (Hin i (Hov i Hi)) as (b & Hb & Hc), (Hin j (Hov j Hj)) as (b' & Hb' & Hc').
    by apply (tb_once _ _ _ H b b'). }
  assert (Hlen : length l = 200%nat) by (unfold l; rewrite length_map, length_seqZ; done).
  rewrite <- Hlen, <- (size_list_to_set (C := gset Z)), <- (size_dom (D := gset Z)) by done.
  apply subseteq_size. intros c Hc. apply elem_of_list_to_set, list_elem_of_fmap in Hc as (i & -> & Hi).
  destruct (Hin i (Hov i Hi)) as (b & Hb & Hci). apply elem_of_dom. exists (desc_of m i).
  apply (tb_map _ _ _ H). by exists b, i.
Qed.

(** A query and, if it finds nothing, a new channel. *)
Lemma query_add_wp (id comp cpu : Z) ids (k1 : Z -> M unit) k2 (Q : unit -> world -> Prop) w :
  4096 <= channel_pool -> chans (mm w) channel_pool ids ->
  (forall r m', chans m' channel_pool (chan_add ids (u16 comp |. u32 (Z.shiftl cpu 4))) ->
     same_out channel_pool 1444 (mm w) m' -> a_query ids id = None -> wp (k1 r) Q (set_mm w m')) ->
  (forall i, a_query ids id = Some i -> wp k2 Q w) ->
  wp (q ← Comm_QueryChannel channel_pool id;
      if (fst q =? 0) && (snd q =? 0) then Comm_AddNewChannel channel_pool comp cpu ≫= k1 else k2) Q w.
Proof.
  intros Hp H H1 H2. eapply wp_eq; [by apply Comm_QueryChannel_run|]. simpl fst. simpl snd. rewrite Z.eqb_refl. cbn [andb].
  destruct (a_query ids id) as [i|] eqn:E; simpl.
  - unfold a_query in E. apply first_some in E as (Hi & _). rewrite eqb_neq_false by (rewrite channel_slot_at; lia).
    by eapply H2.
  - eapply wp_call; [by apply Comm_AddNewChannel_wp|]. intros r w' (_ & m' & -> & Hc & Ho). by apply H1.
Qed.

Lemma same_chans a n m m' ids : separate a n channel_pool 1444 -> same_out a n m m' ->
  chans m channel_pool ids -> chans m' channel_pool ids.
Proof. intros Ha Ho. apply chans_same. intros x Hx. apply Ho. unfold separate in Ha. lia. Qed.

Lemma install_channel_wp ids w (P : install_places) : chans (mm w) channel_pool ids ->
  let b0 := ld32 (mm w) buf in let b1 := ld32 (mm w) (buf + 4) in
  wp (install_channel buf) (fun _ w' => exists m', w' = set_mm w m' /\ chans m' channel_pool (a_install b0 b1 ids) /\
    ld32 m' buf = b0 /\
    forall x, x < channel_pool \/ channel_pool + 1444 <= x -> x < buf \/ buf + 104 <= x -> ld8 m' x = ld8 (mm w) x) w.
Proof.
  intros H b0 b1. destruct P as [_ [B1 B2] _ [P1 P2] _ Hbp _ _ _]. unfold separate in Hbp.
  unfold install_channel. do 2 wp_step. fold b0 b1. cbv zeta. unfold a_install.
  apply (query_add_wp _ _ _ ids); [done | done | |].
  - intros r m' Hc Ho ->. wp_step. eexists. split; [done|]. ands.
    + apply (same_chans buf 104 m'); [by unfold separate | same_out_tac |].
      rewrite (u16_small (u16 b0)) in Hc by apply u16_range. rewrite Z.shiftl_mul_pow2 in Hc by lia.
      by rewrite Z.mul_comm in Hc.
    + rewrite ld_st_ne by lia. rewrite (ld_same_out _ _ _ _ _ _ Ho) by lia. done.
    + intros x Hx1 Hx2. rewrite ld8_st_out by (simpl; lia). by apply Ho.
  - intros i ->. wp_step. exists (mm w). by rewrite set_mm_id.
Qed.

Lemma install_mips_wp ids w (P : install_places) : chans (mm w) channel_pool ids ->
  wp (install_mips_channel buf) (fun _ w' => exists m', w' = set_mm w m' /\
    chans m' channel_pool (a_install_mips (ld32 (mm w) buf) (cur_pid w) ids) /\
    same_out channel_pool 1444 (mm w) m') w.
Proof.
  destruct P as [_ [B1 B2] _ [P1 P2] _ Hbp _ _ _]. intros H. unfold install_mips_channel. wp_step.
  unfold a_install_mips. destruct (_ =? 0); [|wp_step; exists (mm w); by rewrite set_mm_id].
  cbv zeta. wp_step. assert (E : 1 |. u32 (Z.shiftl (u32 (cur_pid w)) 4) = mips_id (cur_pid w)).
  { unfold mips_id. rewrite Z.shiftl_mul_pow2 by lia. by rewrite Z.mul_comm. }
  rewrite E. apply (query_add_wp _ _ _ ids); [done | done | |].
  - intros r m' Hc Ho ->. wp_step. exists m'. ands; [done | | done].
    change (u16 (u16 1)) with 1 in Hc. by rewrite E in Hc.
  - intros i ->. wp_step. exists (mm w). by rewrite set_mm_id.
Qed.

Definition installed (m : mem) (pid : Z) (T : gmap Z (list Z)) (ids : Z -> Z) (r : Z)
    (T' : gmap Z (list Z)) (ids' : Z -> Z) : Prop :=
  let c := ld32 m (arg + 8) in
  (r = 0 /\ T' = match T !! c with Some _ => T | None => <[c := bytes 92 m arg]> T end /\
   ids' = a_install_mips (ld32 m arg) pid (a_install (ld32 m arg) (ld32 m (arg + 4)) ids)) \/
  (r = - EFAULT /\ T' = T /\ ids' = ids /\ T !! c = None /\ overflow_full m).

Lemma ioctl_install_wp ch T ids w (P : install_places) : dev_state w ch T ids ->
  ld32 (mm w) (arg + 8) <> 0 -> ld16 (mm w) (arg + 2) <= 1 -> Z.of_nat (size T) <= RT_MAX_INDEX ->
  wp (ioctl_install_rt arg buf find) (fun r w' => exists m' ch' T' ids', w' = set_mm w m' /\
    dev_state w' ch' T' ids' /\ installed (mm w) (cur_pid w) T ids r T' ids') w.
Proof.
  intros [Hs Hc Ht] Hk Hcpu Hn. pose proof P as [[A1 A2] [B1 B2] [F1 F2] [P1 P2] Hbf Hbp Hfp Hap Hacc]. unfold separate in *.
  unfold ioctl_install_rt, with_buf. unfold copy_from_user at 1. eapply wp_eq; [by rewrite Hacc|]. cbn iota.
  set (m1 := wrbytes (mm w) buf (bytes 96 (mm w) arg)).
  assert (O1 : same_out buf 104 (mm w) m1).
  { intros x Hx. unfold m1. rewrite ld8_wrbytes_out; [done|]. rewrite bytes_length. lia. }
  assert (Hm : forall n off, 0 <= off -> off + Z.of_nat n <= 96 -> ld n m1 (buf + off) = ld n (mm w) (arg + off)).
  { intros n off H1 H2. unfold m1. apply ld_copy; lia. }
  assert (Hb : bytes 92 m1 buf = bytes 92 (mm w) arg).
  { apply bytes_move. intros x Hx. unfold m1. rewrite ld8_copy by lia. f_equal. lia. }
  eapply wp_call.
  { apply (AddInRoutine_wp (set_mm w m1) ch T find buf (ld32 (mm w) (arg + 8)) (bytes 92 (mm w) arg)).
    - eapply rt_state_same; [|exact Hs]. intros x Hx. apply O1. lia.
    - done.
    - split; [split; lia | unfold RT_COMP_ID_OFF; by rewrite mm_set_mm, Hm by lia | done | | by rewrite mm_set_mm].
      unfold RT_CPU_OFF. by rewrite mm_set_mm, Hm by lia.
    - by split.
    - done. }
  intros r w' (m2 & ch2 & T2 & -> & Hs2 & O2 & HR). rewrite mm_set_mm in O2, HR. wsimp.
  assert (Hc2 : chans m2 channel_pool ids).
  { eapply chans_same; [|exact Hc]. intros x Hx. rewrite O2, O1 by lia. done. }
  assert (Hb2 : forall n off, 0 <= off -> off + Z.of_nat n <= 96 -> ld n m2 (buf + off) = ld n (mm w) (arg + off)).
  { intros n off H1 H2. rewrite <- Hm by lia. apply ld_same. intros x Hx. apply O2; lia. }
  unfold add_result in HR. destruct (Z.eqb_spec r 0) as [->|Hr]; cbn [negb]; cbn iota.
  2: { wp_step. exists m2, ch2, T2, ids. ands; [done | by split |]. right.
       destruct (T !! _) eqn:E; [destruct HR; congruence | destruct HR as [[? _]|(_ & -> & Hf)]; [congruence |]]. ands; try done.
       eapply (overflow_full_same m1); [|exact Hf]. intros x Hx. symmetry. apply O1. lia. }
  assert (HT : T2 = match T !! ld32 (mm w) (arg + 8) with Some _ => T
                    | None => <[ld32 (mm w) (arg + 8) := bytes 92 (mm w) arg]> T end).
  { destruct (T !! _); [tauto | destruct HR as [[_ H]|[H _]]; [done | discriminate H]]. }
  eapply wp_call; [by apply (install_channel_wp ids (set_mm w m2) P)|].
  intros _ w' (m3 & -> & Hc3 & E3 & O3). wsimp. rewrite mm_set_mm in *.
  eapply wp_call; [eapply (install_mips_wp _ (set_mm w m3) P); exact Hc3|].
  intros _ w' (m4 & -> & Hc4 & O4). wsimp. rewrite mm_set_mm in *. unfold copy_out. wp_step.
  unfold copy_to_user at 1. rewrite bytes_length. eapply wp_eq; [by rewrite Hacc|]. wp_step.
  set (m5 := wrbytes m4 arg _).
  assert (O5 : same_out arg 96 m4 m5).
  { intros x Hx. unfold m5. rewrite ld8_wrbytes_out; [done|]. rewrite bytes_length. lia. }
  eexists m5, ch2, T2, _. ands; [done | split | left; ands; [done | exact HT | reflexivity]].
  - eapply rt_state_same; [|exact Hs2]. intros x Hx. rewrite mm_set_mm, O5, O4, O3 by lia. done.
  - rewrite mm_set_mm. eapply same_chans; [exact Hap | exact O5 |].
    pose proof (Hb2 4%nat 0 ltac:(lia) ltac:(lia)) as Z0. pose proof (Hb2 4%nat 4 ltac:(lia) ltac:(lia)) as Z4.
    rewrite !Z.add_0_r in Z0. rewrite E3, Z0, Z4 in Hc4. exact Hc4.
  - done.
Qed.
End Install.

(** ** Processes, one after the other *)

(** How many places are taken. *)
Definition n_used (ids : Z -> Z) : Z := tally (fun i => negb (ids i =? 0)) 32 0.

(** No channel of process [pid]: ids are 16 times the process plus a component or CPU. *)
Definition fresh (pid : Z) (ids : Z -> Z) : Prop := forall i, 0 <= i < 32 -> ids i <> 0 -> ids i / 16 <> pid.

Lemma a_query_none ids id : (forall i, 0 <= i < 32 -> ids i <> id) -> a_query ids id = None.
Proof.
  intros H. unfold a_query. destruct (first _ 32 0) as [i|] eqn:E; [|done].
  apply first_some in E as (H1 & H2 & _). apply Z.eqb_eq in H2. by destruct (H i ltac:(lia)).
Qed.

Lemma chan_add_cases ids id : (exists i, 0 <= i < 32 /\ ids i = 0 /\ chan_add ids id = fset ids i id) \/
  (full ids /\ chan_add ids id = ids).
Proof.
  unfold chan_add. destruct (a_query ids 0) as [i|] eqn:E.
  - left. unfold a_query in E. apply first_some in E as (H1 & H2 & _). apply Z.eqb_eq in H2. exists i. ands; [lia | lia | done | done].
  - right. split; [|done]. intros i Hi H. unfold a_query in E.
    pose proof (first_none _ _ _ i E ltac:(simpl; lia)) as H2. simpl in H2. by rewrite H in H2.
Qed.

Lemma used_full ids : full ids -> n_used ids = 32.
Proof.
  intros H. unfold n_used. rewrite (tally_ext _ (fun _ => true)); [done|].
  intros j Hj. by rewrite eqb_neq_false by (apply H; simpl in Hj; lia).
Qed.

Lemma full_used ids : 32 <= n_used ids -> full ids.
Proof.
  intros H i Hi E. pose proof (tally_range (fun i => negb (ids i =? 0)) 32 0). unfold n_used in H.
  pose proof (tally_all (fun i => negb (ids i =? 0)) 32 0 i ltac:(lia) ltac:(lia)) as H2. simpl in H2. by rewrite E in H2.
Qed.

Lemma used_add ids id : id <> 0 -> n_used (chan_add ids id) = Z.min 32 (n_used ids + 1).
Proof.
  intros Hid. pose proof (tally_range (fun i => negb (ids i =? 0)) 32 0) as Hr.
  destruct (chan_add_cases ids id) as [(i & Hi & H0 & ->)|[Hf ->]].
  2: { rewrite used_full by done. done. }
  pose proof (tally_range (fun j => negb (fset ids i id j =? 0)) 32 0) as Hr2.
  unfold n_used in *. rewrite (tally_change (fun i => negb (ids i =? 0)) _ 32 0 i) in * by
    (first [simpl; lia | intros j Hj Hne; by rewrite fset_ne]).
  rewrite fset_eq, H0, (eqb_neq_false id) in * by done. cbn [negb b2z Z.eqb] in *. unfold b2z in *. simpl Z.of_nat in *. lia.
Qed.

Lemma fresh_add pid ids id : id / 16 <> pid -> fresh pid ids -> fresh pid (chan_add ids id).
Proof.
  intros Hid H. destruct (chan_add_cases ids id) as [(i & Hi & H0 & ->)|[_ ->]]; [|done].
  intros j Hj Hn. unfold fset in *. destruct (j =? i); [done | by apply H].
Qed.

(** The ids of process [pid], for component [lo] and for MIPS. *)
Lemma lor_id lo pid : 0 <= lo < 16 -> 0 <= pid < 2 ^ 28 -> lo |. u32 (16 * u32 pid) = lo + 16 * pid.
Proof.
  intros H1 H2. rewrite (u32_small pid), u32_small by lia.
  assert (E : lo &. (16 * pid) = 0).
  { apply Z.bits_inj_0. intros n. rewrite Z.land_spec. change 16 with (2 ^ 4). rewrite Z.mul_comm, <- Z.shiftl_mul_pow2 by lia.
    destruct (Z.ltb_spec n 4); [rewrite Z.shiftl_spec_low by lia; apply andb_false_r|].
    rewrite (Z.bits_above_log2 lo) ; [done | lia |]. destruct (Z.eq_dec lo 0) as [->|]; [simpl; lia|].
    apply Z.log2_lt_pow2; [lia|]. pose proof (Z.pow_le_mono_r 2 4 n ltac:(lia) ltac:(lia)). lia. }
  symmetry. by apply Z.add_nocarry_lor.
Qed.

(** A fresh process takes two places, as long as there are any. *)
Lemma install_fresh lo pid ids : 0 <= lo < 16 -> lo <> 1 -> 0 < pid < 2 ^ 28 -> fresh pid ids ->
  let ids' := a_install_mips lo pid (a_install lo pid ids) in
  n_used ids' = Z.min 32 (n_used ids + 2) /\ (forall q, q <> pid -> fresh q ids -> fresh q ids') /\
  (full ids -> a_query ids' (mips_id pid) = None).
Proof.
  intros Hlo H1 Hp Hf.
  assert (Hq : forall l ids, 0 <= l < 16 -> (forall i, 0 <= i < 32 -> ids i <> l + 16 * pid) ->
    a_query ids (l + 16 * pid) = None) by (intros; by apply a_query_none).
  assert (Hne : forall l i, 0 <= l < 16 -> 0 <= i < 32 -> ids i <> l + 16 * pid).
  { intros l i Hl Hi E. apply (Hf i Hi); [lia|]. rewrite E. rewrite Z.mul_comm, Z.div_add, Z.div_small by lia. lia. }
  assert (Eid : forall l, 0 <= l < 16 -> (l + 16 * pid) / 16 = pid).
  { intros l Hl. rewrite Z.mul_comm, Z.div_add, Z.div_small by lia. lia. }
  pose proof (lor_id lo pid Hlo ltac:(lia)) as El. pose proof (lor_id 1 pid ltac:(lia) ltac:(lia)) as E1.
  rewrite (u32_small pid) in El by lia. unfold a_install, a_install_mips, mips_id. rewrite E1.
  assert (Elo : lo &. 15 = lo) by (change 15 with (Z.ones 4); rewrite Z.land_ones by lia; apply Z.mod_small; lia).
  rewrite Elo, El, (u16_small lo), El by lia. rewrite (Hq lo ids) by (try apply Hne; try lia; intros; by apply Hne).
  assert (Esh : Z.shiftr lo 16 = 0) by (rewrite Z.shiftr_div_pow2 by lia; apply Z.div_small; lia).
  rewrite Esh. change (0 &. 65535 =? 0) with true. cbn iota.
  assert (Hn2 : a_query (chan_add ids (lo + 16 * pid)) (1 + 16 * pid) = None).
  { apply Hq; [lia|]. intros i Hi. destruct (chan_add_cases ids (lo + 16 * pid)) as [(k & _ & _ & ->)|[_ ->]]; [|apply Hne; lia].
    unfold fset. destruct (i =? k); [lia | apply Hne; lia]. }
  rewrite Hn2. split; [|split].
  - rewrite !used_add by lia. pose proof (tally_range (fun i => negb (ids i =? 0)) 32 0). unfold n_used. lia.
  - intros q Hne2 Hfq. apply fresh_add; [rewrite Eid by lia; congruence|]. apply fresh_add; [rewrite Eid by lia; congruence | done].
  - intros Hfull. rewrite (full_chan_add ids), full_chan_add by done. apply Hq; [lia|]. intros i Hi. apply Hne; lia.
Qed.

(** *** The device's state after its allocation *)

Definition vp_ids (i : Z) : Z := if i <? 16 then i |. 0x140 else 0.

Section DevInit.
Context {S : Shm} {K : Kernel} {L : SemLaws K}.

Lemma init_dev_state_wp w : 4096 <= pcpu_comm_dev ->
  wp init_dev_state (fun _ w' => exists m', w' = set_mm w m' /\ chans m' channel_pool (fun _ => 0) /\
    same_out pcpu_comm_dev CPU_COMM_DEV_SIZE (mm w) m') w.
Proof.
  intros Hp. unfold init_dev_state, ChannelPoolInit, channel_pool. rewrite (eqb_neq_false (pcpu_comm_dev + 48)) by lia.
  generalize (Z.to_nat CPU_COMM_DEV_SIZE), (Z2Nat.id CPU_COMM_DEV_SIZE ltac:(done)). intros n Hn.
  unfold CPU_COMM_DEV_SIZE in *. do 21 wp_step.
  match goal with |- wp _ _ (set_mm w ?m) => set (m1 := m) end.
  assert (H1 : forall x, pcpu_comm_dev + 84 <= x < pcpu_comm_dev + 1500 -> ld8 m1 x = 0).
  { intros x Hx. unfold m1. rewrite !ld8_st_out by (simpl; lia). apply ld8_fill_in. lia. }
  assert (O1 : same_out pcpu_comm_dev 119648 (mm w) m1).
  { intros x Hx. unfold m1. rewrite !ld8_st_out by (simpl; lia). apply ld8_fill_out. lia. }
  clearbody m1. unfold CHANNEL_SLOT_COUNT. change (Z.to_nat 32) with 32%nat.
  apply (wp_for 32 0 _ (fun j w' => exists m', w' = set_mm w m' /\ same_out pcpu_comm_dev 119648 (mm w) m' /\
    forall i x, 0 <= i < 32 -> pcpu_comm_dev + 48 + 36 + 44 * i <= x < pcpu_comm_dev + 48 + 36 + 44 * i + 4 -> ld8 m' x = 0)).
  - exists m1. ands; [done | done |]. intros i x Hi Hx. apply H1. lia.
  - intros j w' Hj (m' & -> & O & Hz). simpl in Hj. rewrite channel_slot_at. do 2 wp_step. eexists. split; [done|]. split.
    + eapply same_out_trans; [exact O|]. intros x Hx. by rewrite !ld8_st_out by (simpl; lia).
    + intros i x Hi Hx. rewrite !ld8_st_out by (simpl; lia). by apply (Hz i).
  - intros w' (m' & -> & O & Hz). exists m'. ands; [done | | done]. intros i Hi. rewrite channel_slot_at.
    rewrite <- (ld_fill0_in 4 4 ∅ 0 0) by lia. apply ld_move. intros x Hx. rewrite ld8_fill_in by lia.
    apply (Hz i); lia.
Qed.

Lemma register_vp_channels_wp w : 4096 <= channel_pool -> chans (mm w) channel_pool (fun _ => 0) ->
  wp register_vp_channels (fun _ w' => exists m', w' = set_mm w m' /\ chans m' channel_pool vp_ids /\
    same_out channel_pool 1444 (mm w) m') w.
Proof.
  intros Hp H. unfold register_vp_channels.
  set (ids := fun j i => if i <? j then i |. 0x140 else 0).
  apply (wp_for 16 0 _ (fun j w' => exists m', w' = set_mm w m' /\ chans m' channel_pool (ids j) /\
    same_out channel_pool 1444 (mm w) m')).
  - exists (mm w). rewrite set_mm_id. ands; [done | | apply same_out_refl]. intros i Hi. rewrite H by lia.
    unfold ids. by rewrite ltb_false by lia.
  - intros j w' Hj (m' & -> & Hc & Ho). simpl in Hj.
    eapply wp_call; [by apply Comm_AddNewChannel_wp|]. intros r w' (_ & m2 & -> & Hc2 & Ho2). wsimp. wp_step.
    exists m2. ands; [done | | by eapply same_out_trans].
    rewrite (u16_small (u16 j)), (u16_small j) in Hc2 by (try apply u16_range; lia).
    change (u32 (Z.shiftl 20 4)) with 320 in Hc2.
    assert (Hpos : forall i, 0 <= i -> i |. 320 <> 0).
    { intros i Hi E. apply (f_equal (fun z => Z.testbit z 6)) in E. rewrite Z.lor_spec in E.
      change (Z.testbit 320 6) with true in E. rewrite orb_true_r in E. discriminate E. }
    assert (E : a_query (ids j) 0 = Some j).
    { apply query_free; [lia | unfold ids; by rewrite ltb_false by lia |].
      intros i Hi. unfold ids. rewrite ltb_true by lia. apply Hpos. lia. }
    unfold chan_add in Hc2. rewrite E in Hc2. intros i Hi. rewrite (Hc2 i Hi). unfold fset, ids.
    destruct (Z.eqb_spec i j) as [->|Hne]; [by rewrite ltb_true by lia|].
    destruct (Z.ltb_spec i j); [by rewrite ltb_true by lia | by rewrite ltb_false by lia].
  - intros w' (m' & -> & Hc & Ho). exists m'. done.
Qed.

Lemma vp_used : n_used vp_ids = 16.
Proof. vm_compute. reflexivity. Qed.

Lemma vp_fresh pid : pid <> 20 -> fresh pid vp_ids.
Proof.
  intros Hp i Hi Hn E. unfold vp_ids in *. destruct (Z.ltb_spec i 16); [|done].
  change 0x140 with (16 * u32 20) in E. pose proof (lor_id i 20 ltac:(lia) ltac:(lia)) as El.
  change (u32 (16 * u32 20)) with (16 * u32 20) in El. rewrite El, Z.mul_comm, Z.div_add, Z.div_small in E by lia. lia.
Qed.
End DevInit.

(** *** Processes that install a routine *)

Definition set_pid (w : world) (p : Z) : world :=
  World (mm w) (s_CallSessionId w) (mips_app_ready_assumed w) (ShMemAddr1 w)
        p p (mmio w) (works w) (call_works w) (user_ctxs w) (mbox w) (env w).

(** Process [q_pid], with the descriptor it hands to INSTALL_RT. *)
Record install_call := InstallCall { q_pid : Z; q_block : list Z }.

Definition q_key (q : install_call) : Z := view (q_block q) 4 8.

(** The descriptor of a component below 16 other than 1, for the process itself, on ARM. *)
Record install_ok (q : install_call) : Prop := InstallOk {
  qo_length : length (q_block q) = 96%nat;
  qo_bytes : Forall (fun b => 0 <= b < 256) (q_block q);
  qo_pid : 0 < q_pid q < 2 ^ 28 /\ q_pid q <> SPINLOCK_HWID_NONE;
  qo_comp : 0 <= view (q_block q) 4 0 < 16 /\ view (q_block q) 4 0 <> 1;
  qo_cpu : view (q_block q) 2 2 <= 1;
  qo_thread : view (q_block q) 4 4 = q_pid q;
  qo_key : q_key q <> 0;
}.

Section Runs.
Context {S : Shm} {K : Kernel} {J : Jiffies} {A : Kmalloc} {U : Uaccess} {R : Regs}.
Context (arg buf find local_msg : Z).

Definition run_install (q : install_call) : M Z :=
  modify (fun w => set_mm (set_pid w (q_pid q)) (wrbytes (mm w) arg (q_block q))) ;;
  r ← cpu_comm_ioctl 0 IOCTL_INSTALL_RT arg buf find local_msg;
  mret (snd r).

Fixpoint run_installs (l : list install_call) : M (list Z) :=
  match l with
  | [] => mret []
  | q :: l' => r ← run_install q; rs ← run_installs l'; mret (r :: rs)
  end.

Context {OK : ShmOk S} {HQ : Quiet K} {L : SemLaws K}.
Hypothesis P : install_places arg buf find.

Lemma run_install_wp ch T ids q w : dev_state w ch T ids -> install_ok q -> Z.of_nat (size T) <= RT_MAX_INDEX ->
  wp (run_install q) (fun r w' => exists ch' T', dev_state w' ch' T'
      (if r =? 0 then let lo := view (q_block q) 4 0 in a_install_mips lo (q_pid q) (a_install lo (q_pid q) ids) else ids) /\
    cur_pid w' = q_pid q /\
    ((r = 0 /\ T' = match T !! q_key q with Some _ => T | None => <[q_key q := take 92 (q_block q)]> T end) \/
     (r = - EFAULT /\ T' = T /\ T !! q_key q = None /\ overflow_full (mm w)))) w.
Proof.
  intros [Hs Hc Ht] [Hn Hb [Hp Hp2] Hlo Hcpu Hth Hk] HT. pose proof P as [[A1 A2] _ _ [P1 P2] _ _ _ Hap _].
  unfold run_install. wp_step. set (m0 := wrbytes (mm w) arg (q_block q)). set (w0 := set_mm (set_pid w (q_pid q)) m0).
  unfold cpu_comm_ioctl, ioctl_switch.
  change (IOCTL_INSTALL_RT =? IOCTL_RESUME) with false. change (0 <? 0) with false.
  change (IOCTL_INSTALL_RT =? IOCTL_SUSPEND) with false. change (IOCTL_INSTALL_RT =? IOCTL_SEND_KERN) with false.
  change (IOCTL_INSTALL_RT =? IOCTL_SEND_USER) with false. change (IOCTL_INSTALL_RT =? IOCTL_CALL) with false.
  change (IOCTL_INSTALL_RT =? IOCTL_NOTIFY) with false. change (IOCTL_INSTALL_RT =? IOCTL_SET_RESET) with false.
  change (IOCTL_INSTALL_RT =? IOCTL_GET_CPUID) with false. change (IOCTL_INSTALL_RT =? IOCTL_MALLOC) with false.
  change (IOCTL_INSTALL_RT =? IOCTL_FREE) with false. rewrite Z.eqb_refl. cbn iota. wp_step.
  assert (O0 : same_out arg 96 (mm w) m0).
  { intros x Hx. unfold m0. rewrite ld8_wrbytes_out; [done|]. rewrite Hn. lia. }
  assert (Hv : forall n off, 0 <= off -> off + Z.of_nat n <= 96 -> ld n m0 (arg + off) = view (q_block q) n off).
  { intros n off H1 H2. apply block_view; [done | by rewrite Hn | done]. }
  assert (Hv0 : ld32 m0 arg = view (q_block q) 4 0) by (rewrite <- Hv by lia; f_equal; lia).
  assert (Hb92 : bytes 92 m0 arg = take 92 (q_block q)) by (apply block_bytes; [rewrite Hn; lia | done]).
  assert (Hst : dev_state w0 ch T ids).
  { split; [| | split; simpl; lia]; unfold w0; rewrite mm_set_mm.
    - eapply rt_state_same; [|exact Hs]. intros x Hx. apply O0. lia.
    - by eapply same_chans. }
  eapply wp_call; [apply (ioctl_install_wp arg buf find ch T ids w0 P Hst); unfold w0; rewrite ?mm_set_mm, ?Hv by lia; done|].
  intros r w' (m' & ch' & T' & ids' & -> & Hst' & Hi). do 2 wp_step. simpl snd.
  unfold installed, w0 in Hi. rewrite mm_set_mm, Hv, Hv, Hv0, Hb92, Hth in Hi by lia. fold (q_key q) in Hi.
  change (cur_pid (set_mm (set_pid w (q_pid q)) m0)) with (q_pid q) in Hi.
  destruct Hi as [(-> & HT' & ->)|(-> & -> & -> & HN & Hf)].
  - exists ch', T'. ands; [done | done |]. by left.
  - exists ch', T. ands; [done | done |]. right. ands; try done. eapply overflow_full_same; [|exact Hf].
    intros x Hx. symmetry. apply O0. lia.
Qed.

(** Fresh processes are all told 0, whether there were channels left for them or not. *)
Lemma run_installs_wp qs : forall ch T ids w, dev_state w ch T ids -> (size T + length qs <= 200)%nat ->
  Forall (fun q => install_ok q /\ fresh (q_pid q) ids) qs -> NoDup (map q_pid qs) ->
  wp (run_installs qs) (fun rs w' => rs = replicate (length qs) 0 /\ exists ch' T' ids', dev_state w' ch' T' ids' /\
    (size T' <= size T + length qs)%nat /\ n_used ids' = Z.min 32 (n_used ids + 2 * Z.of_nat (length qs)) /\
    forall p, ~ p ∈ map q_pid qs -> fresh p ids -> fresh p ids') w.
Proof.
  induction qs as [|q qs IH]; intros ch T ids w Hst HT Hall Hnd; simpl.
  { wp_step. split; [done|]. exists ch, T, ids. ands; [done | lia | | done].
    pose proof (tally_range (fun i => negb (ids i =? 0)) 32 0). unfold n_used. lia. }
  simpl in HT. apply Forall_cons in Hall as [(Hq & Hf) Hall]. apply NoDup_cons in Hnd as [Hnin Hnd].
  eapply wp_call; [eapply run_install_wp; [exact Hst | done | unfold RT_MAX_INDEX; lia]|].
  intros r w1 (ch1 & T1 & Hst1 & _ & [(-> & HT1)|(_ & _ & _ & Hfull)]).
  2: { pose proof (overflow_full_size _ _ _ (rs_table _ _ _ (ds_table _ _ _ _ Hst)) Hfull). lia. }
  change (0 =? 0) with true in Hst1. cbn iota in Hst1.
  assert (HT1' : (size T1 <= size T + 1)%nat).
  { subst T1. destruct (T !! q_key q) eqn:E; [lia | rewrite map_size_insert_None by done; lia]. }
  pose proof Hq as [_ _ [Hp _] [Hlo Hl1] _ _ _].
  destruct (install_fresh _ _ _ Hlo Hl1 Hp Hf) as (Hu & Hfr & _). cbv zeta in Hst1.
  set (ids1 := a_install_mips _ _ _) in *.
  eapply wp_call; [apply (IH ch1 T1 ids1 w1 Hst1); [lia | | done]|].
  { apply Forall_forall. intros q' Hin. pose proof (proj1 (Forall_forall _ _) Hall q' Hin) as (H1 & H3).
    ands; [done|]. apply Hfr; [|done]. intros E. apply Hnin. rewrite <- E. by apply list_elem_of_fmap_2. }
  intros rs w2 (-> & ch2 & T2 & ids2 & Hst2 & HT2 & Hu2 & Hfr2). wp_step. split; [done|].
  exists ch2, T2, ids2. ands; [done | lia | |].
  - rewrite Hu2, Hu. pose proof (tally_range (fun i => negb (ids i =? 0)) 32 0). unfold n_used. lia.
  - intros p Hp' Hfp. apply Hfr2; [set_solver|]. apply Hfr; [set_solver | done].
Qed.

(** One more process, once all places are taken: it is told 0 and has no channel. *)
Lemma last_install_wp ch T ids q w : dev_state w ch T ids -> (size T < 200)%nat -> full ids ->
  install_ok q -> fresh (q_pid q) ids ->
  wp (run_install q) (fun r w' => r = 0 /\ exists ids', chans (mm w') channel_pool ids' /\
    forall i, 0 <= i < 32 -> ids' i / 16 <> q_pid q) w.
Proof.
  intros Hst HT Hfull Hq Hf. eapply wp_mono; [eapply run_install_wp; [exact Hst | done | unfold RT_MAX_INDEX; lia]|].
  intros r w1 (ch1 & T1 & Hst1 & _ & [(-> & _)|(_ & _ & _ & Hov)]).
  2: { pose proof (overflow_full_size _ _ _ (rs_table _ _ _ (ds_table _ _ _ _ Hst)) Hov). lia. }
  split; [done|]. change (0 =? 0) with true in Hst1. cbn iota zeta in Hst1. destruct Hst1 as [_ Hc _].
  exists ids. assert (E : a_install_mips (view (q_block q) 4 0) (q_pid q)
    (a_install (view (q_block q) 4 0) (q_pid q) ids) = ids).
  { unfold a_install_mips, a_install. rewrite !(full_chan_add ids) by done.
    destruct (a_query ids _); destruct (_ =? 0); try done; rewrite ?full_chan_add by done; by destruct (a_query ids _). }
  rewrite E in Hc. split; [done|]. intros i Hi. apply (Hf i Hi). by apply Hfull.
Qed.
End Runs.

(** ** From the start of the driver *)

Section Start.
Context {S : Shm} {OK : ShmOk S} {K : Kernel} {HQ : Quiet K} {L : SemLaws K} {G : ProtoGlobals}.

(** The driver's own data lie apart from the shared region, the lock handles and the sockets, and
    the interrupt semaphores apart from the device's state. *)
Record start_places : Prop := StartPlaces {
  sp_dev : elsewhere pcpu_comm_dev CPU_COMM_DEV_SIZE;
  sp_sockets : separate pcpu_comm_dev CPU_COMM_DEV_SIZE s_CommSockt (2 * COMM_SOCKET_SIZE);
  sp_intr : outside comm_intrsem 64 /\ separate comm_intrsem 64 pcpu_comm_dev CPU_COMM_DEV_SIZE;
  sp_sems : outside intr_sems 64 /\ separate intr_sems 64 pcpu_comm_dev CPU_COMM_DEV_SIZE;
}.

Lemma init_intrsem_wp {B} (k : unit -> M B) Q w : 4096 <= comm_intrsem -> 4096 <= intr_sems ->
  (forall m', touches (fun x => comm_intrsem <= x < comm_intrsem + 64 \/ intr_sems <= x < intr_sems + 64) (mm w) m' ->
     wp (k tt) Q (set_mm w m')) ->
  wp (init_intrsem ≫= k) Q w.
Proof.
  intros H1 H2 H. unfold init_intrsem.
  set (P := fun x => comm_intrsem <= x < comm_intrsem + 64 \/ intr_sems <= x < intr_sems + 64) in *.
  eapply (wp_call _ _ (fun _ w' => exists m', w' = set_mm w m' /\ touches P (mm w) m')).
  2: { intros [] w' (m' & -> & T). by apply H. }
  apply wp_memset_abs; [lia|]. intros m1 O1 _.
  apply (wp_for 4 0 _ (fun _ w' => exists m', w' = set_mm w m' /\ touches P (mm w) m')).
  - exists m1. split; [done|]. intros x Hx. apply O1. unfold P in Hx. lia.
  - intros j w' Hj (m' & -> & T). simpl in Hj. unfold wp, k_sema_init. rewrite ltb_false by lia. wsimp.
    eexists. split; [done|]. eapply touches_trans; [exact T|]. intros x Hx. unfold P in Hx. apply sema_init_frame. lia.
  - done.
Qed.

Lemma mips_handshake_wp w : tgid_ok w -> magic_ok (mm w) -> locks (mm w) nobody -> ld32 (mm w) (cpu_flag 1) = 0 ->
  wp mips_handshake (fun _ w' => exists m', w' = set_mm w m' /\ locks m' nobody /\ touches in_flags (mm w) m') w.
Proof.
  intros Ht Hm Hl Hf. pose proof (cpu_flag_at 0) as F0. pose proof (cpu_flag_at 1) as F1.
  shm_facts. unfold mips_handshake, mips_ready_seen, CPU_ID_ARM, CPU_ID_MIPS.
  apply wp_SpinLock; [lia | done | by apply Hl; lia |]. intros m1 L1 O1. wsimp.
  destruct (entry_locks 3 _ _ _ _ ltac:(lia) Hl O1 L1) as [Hl1 T1].
  wp_step. set (m2 := st32 m1 (cpu_flag 0) 5).
  assert (O2 : same_out (cpu_flag 0) 4 m1 m2) by (intros x Hx; apply ld8_st_out; simpl; lia). clearbody m2.
  assert (Hl2 : locks m2 (fset nobody 3 (Some (cur_tgid w, 1)))).
  { eapply locks_same; [|exact Hl1]. intros x Hx. unfold in_locks in Hx. apply O2. lia. }
  pose proof (Hl2 3 ltac:(lia)) as H5. rewrite fset_eq in H5.
  apply (wp_SpinUnLock 3 _ _ _ (cur_tgid w)); [lia | exact H5 |]. intros m3 L3 O3. wsimp. rewrite mm_set_mm in O3.
  destruct (entry_locks 3 _ _ _ _ ltac:(lia) Hl2 O3 L3) as [Hl3 T3].
  pose proof (spin_entry_at 3 ltac:(lia)).
  assert (Hf3 : ld32 m3 (cpu_flag 1) = 0).
  { rewrite <- Hf. apply ld_same. intros x Hx. by rewrite O3, O2, O1 by lia. }
  repeat wp_step. rewrite Hf3. change (negb ((0 &. 1) =? 0)) with false. cbn iota. wp_step.
  eapply (wp_call _ _ (fun _ w' => w' = set_mm w m3)).
  - apply (wp_loop (fun k t w' => w' = set_mm w m3 /\ t + 10 * Z.of_nat k = 5000) _ _ _ (Z.to_nat 500)); [lia | split; [done | lia] |].
    intros k t w1 [-> Hk]. repeat wp_step. rewrite ?mm_set_mm, Hf3. change (negb ((0 &. 1) =? 0)) with false. cbn [negb andb].
    destruct (Z.ltb_spec t 5000); [|by wp_step]. do 2 wp_step. exists (k - 1)%nat. split; [lia | split; [done | lia]].
  - intros _ w' ->. repeat wp_step. rewrite ?mm_set_mm, Hf3. change (negb ((0 &. 1) =? 0)) with false. cbn iota. wp_step.
    exists m3. ands; [done | |].
    + eapply locks_ext; [|exact Hl3]. intros i. unfold fset, nobody. by destruct (i =? 3).
    + eapply touches_trans; [exact T1|]. eapply touches_trans; [|exact T3]. intros x Hx. unfold in_flags, region in Hx. apply O2. lia.
Qed.

(** What [init_state] needs of the world. *)
Record start_ok (request : Z -> world -> Z * world) (w : world) : Prop := StartOk {
  so_grants : grants request;
  so_page : ShMemAddrBase mod 4096 = 0;
  so_one : ShMemSize1 = 0;
  so_tgid : tgid_ok w;
  so_clear : table_clear (mm w) (page_up heap_base);
}.

Lemma init_state_wp request free mode w : start_places -> start_ok request w ->
  wp (init_state request free mode) (fun r w' => r = 0 /\ exists m', w' = set_mm w m' /\
    dev_state w' (fun _ => []) ∅ vp_ids /\ locks m' nobody) w.
Proof.
  intros [[D1 [D2 [D3 D4]]] D5 [[I1 I2] I3] [[J1 J2] J3]] [Hg Hp H1 Ht Hz]. unfold separate, CPU_COMM_DEV_SIZE in *.
  destruct (smm_room Hp) as [_ E]. shm_facts. unfold init_state.
  eapply wp_call; [by apply init_dev_state_wp|]. intros _ w' (m1 & -> & Hc1 & O1). unfold CPU_COMM_DEV_SIZE in O1.
  apply init_intrsem_wp; [done..|]. intros m2 T2. wsimp. rewrite mm_set_mm in T2.
  assert (Ho2 : forall x, ShMemAddrBase <= x < ShMemAddrBase + ShMemSize -> ld8 m2 x = ld8 (mm w) x).
  { intros x Hx. rewrite T2 by lia. apply O1. lia. }
  assert (Hc2 : chans m2 channel_pool (fun _ => 0)).
  { eapply chans_same; [|exact Hc1]. unfold channel_pool. intros x Hx. apply T2. lia. }
  eapply wp_call; [apply (InitCommMem_wp request free mode (set_mm w m2)); try done|].
  { rewrite E in *. destruct Hz as (Z0 & Z1 & Z2). unfold table_clear. rewrite mm_set_mm.
    ands; [rewrite <- Z0 | rewrite <- Z1 | rewrite <- Z2]; apply ld_same; intros x Hx; apply Ho2; lia. }
  intros r w' (-> & m3 & -> & [Hs3 [_ Hw3] _ _ T3]). rewrite mm_set_mm in *. rewrite Z.eqb_refl. cbn [negb]. cbn iota.
  pose proof Hs3 as [M3 L3 _ _ _ _ _ _ Tb3].
  eapply wp_call; [apply (mips_handshake_wp (set_mm w m3)); done|]. intros _ w' (m4 & -> & Hl4 & T4). wsimp. rewrite mm_set_mm in *.
  assert (Hc4 : chans m4 channel_pool (fun _ => 0)).
  { eapply chans_same; [|exact Hc2]. unfold channel_pool. intros x Hx. unfold in_flags, in_locks, in_sockets, region in *.
    rewrite T4, T3; [done | |].
    - clear -Hx D2 D3 D4 D5 Hshm0. unfold COMM_SOCKET_SIZE in *. intros [[H|H]|[H|H]]; timeout 20 lia.
    - clear -Hx D2 D3 D4 D5 Hshm0. intros [[H|H]|H]; timeout 20 lia. }
  eapply wp_call; [apply (register_vp_channels_wp (set_mm w m4)); [unfold channel_pool; lia | exact Hc4]|].
  intros _ w' (m5 & -> & Hc5 & O5). wsimp. rewrite mm_set_mm in O5. unfold channel_pool in O5. wp_step.
  assert (R5 : forall x, in_locks x \/ ShMemAddrBase <= x < ShMemAddrBase + ShMemSize -> ld8 m5 x = ld8 m4 x).
  { intros x Hx. unfold in_locks in Hx. apply O5. lia. }
  assert (Hl5 : locks m5 nobody) by (eapply locks_same; [|exact Hl4]; intros x Hx; apply R5; by left).
  split; [done|]. exists m5. ands; [done | | done]. split; [|exact Hc5 | done].
  destruct M3 as [M1 M2]. rewrite mm_set_mm. split.
  - eapply table_same; [|exact Tb3]. intros x Hx. unfold in_flags, in_locks, region in *. rewrite R5, T4 by (unfold in_flags, in_locks, region; lia). done.
  - split; unfold SHMEM_OFF_MAGIC1, SHMEM_OFF_MAGIC2 in *; [rewrite <- M1 | rewrite <- M2]; apply ld_same; intros x Hx;
      unfold in_flags, in_locks, region in *; rewrite R5, T4 by (unfold in_flags, in_locks, region; lia); done.
  - apply Hl5. lia.
Qed.
End Start.
