(* ===== verification/DecdRegs.v ===== *)
(** The registers of the decoder display block (src/drivers/decd/decd_hw.c):
    the functions [dec_reg_*], as functions from a register block to a register
    block.  The registers are bytes of an I/O memory that give back what was
    written to them; [None] is the null pointer [regs], and a block that was
    never mapped has the base address 0. *)
From S2P Require Import Prelude Mem.

(** ** The register block ([struct dec_reg_block]) *)

Record reg_block := RegBlock {
  top : Z;            (* where the three parts are mapped *)
  afbd : Z;
  workaround : Z;
  rb_dirty : Z;
  io : mem;           (* the contents of the registers *)
}.

Definition set_io (r : reg_block) (m : mem) : reg_block :=
  RegBlock (top r) (afbd r) (workaround r) (rb_dirty r) m.
Definition set_rb_dirty (r : reg_block) (v : Z) : reg_block :=
  RegBlock (top r) (afbd r) (workaround r) v (io r).

Definition readb (r : reg_block) (a : Z) : Z := ld 1 (io r) a.
Definition readl (r : reg_block) (a : Z) : Z := ld 4 (io r) a.
Definition writeb (v a : Z) (r : reg_block) : reg_block := set_io r (st 1 (io r) a v).
Definition writew (v a : Z) (r : reg_block) : reg_block := set_io r (st 2 (io r) a v).
Definition writel (v a : Z) (r : reg_block) : reg_block := set_io r (st 4 (io r) a v).

Definition BIT (n : Z) : Z := Z.shiftl 1 n.

(** [(v & ~BIT(n)) | (on ? BIT(n) : 0)] *)
Definition put_bit (v n : Z) (on : bool) : Z :=
  bic v (BIT n) |. (if on then BIT n else 0).

(** [if (!regs || !regs->workaround) return;] *)
Definition with_workaround (regs : option reg_block) (f : reg_block -> reg_block) :
  option reg_block :=
  match regs with
  | Some r => Some (if workaround r =? 0 then r else f r)
  | None => None
  end.

(** ** Plane addresses *)

Definition y_off (idx : Z) : Z := nth (Z.to_nat idx) [16; 20; 24; 28] 0.
Definition c_off (idx : Z) : Z := nth (Z.to_nat idx) [36; 40; 44; 48] 0.
Definition y_aux_off (idx : Z) : Z := nth (Z.to_nat idx) [32; 33; 34; 35] 0.
Definition c_aux_off (idx : Z) : Z := nth (Z.to_nat idx) [52; 53; 54; 55] 0.
Definition info_off (idx : Z) : Z := nth (Z.to_nat idx) [56; 60; 64; 68] 0.
Definition field_off (idx : Z) : Z := nth (Z.to_nat idx) [72; 73; 74; 75] 0.

(** [u32 planes[4]]: luma address, luma aux, chroma address, chroma aux *)
Definition planes : Type := Z * Z * Z * Z.

Definition dec_reg_set_address (regs : option reg_block) (p : planes) (aux field idx : Z) :
  option reg_block :=
  if (idx <? 0) || (3 <? idx) then regs
  else with_workaround regs (fun r =>
    let base := workaround r in
    let '(p0, p1, p2, p3) := p in
    let r := writel p0 (base + y_off idx) r in
    let r := writel p2 (base + c_off idx) r in
    let r := writeb p1 (base + y_aux_off idx) r in
    let r := writeb p3 (base + c_aux_off idx) r in
    let r := writel aux (base + info_off idx) r in
    writeb field (base + field_off idx) r).

Definition dec_reg_get_y_address (regs : option reg_block) (idx : Z) : Z :=
  match regs with
  | Some r =>
      if workaround r =? 0 then 0
      else if idx =? 0 then readl r (workaround r + 16)
      else if idx =? 1 then readl r (workaround r + 20)
      else 0
  | None => 0
  end.

Definition dec_reg_get_c_address (regs : option reg_block) (idx : Z) : Z :=
  match regs with
  | Some r =>
      if workaround r =? 0 then 0
      else if idx =? 0 then readl r (workaround r + 36)
      else if idx =? 1 then readl r (workaround r + 40)
      else 0
  | None => 0
  end.

(** ** Control bits *)

Definition dec_reg_top_enable (regs : option reg_block) (on : bool) : option reg_block :=
  match regs with
  | Some r =>
      Some (if (top r =? 0) || (afbd r =? 0) then r
            else
              let t := top r in
              let r := writeb (put_bit (readb r (t + 0)) 0 on) (t + 0) r in
              let r := writeb (put_bit (readb r (t + 0)) 4 on) (t + 0) r in
              let r := writeb (put_bit (readb r (t + 1)) 0 on) (t + 1) r in
              let r := writeb (put_bit (readb r (t + 2)) 0 on) (t + 2) r in
              let r := writeb (put_bit (readb r (t + 4)) 0 on) (t + 4) r in
              let r := writel 0xffffffff (t + 8) r in
              let r := writel 0xffffffff (t + 12) r in
              let r := writel 0xffffffff (t + 16) r in
              let r := writel 0xffffffff (t + 20) r in
              let r := writel 0xffffffff (t + 24) r in
              let r := writel 0xffffffff (t + 28) r in
              writeb (put_bit (readb r (afbd r + 3)) 7 on) (afbd r + 3) r)
  | None => None
  end.

Definition dec_reg_enable (regs : option reg_block) (on : bool) : option reg_block :=
  with_workaround regs (fun r =>
    let b := workaround r in
    let r := writeb (readb r (b + 9) |. BIT 0) (b + 9) r in
    let v := readb r (b + 0) in
    let r := writeb (put_bit v 0 on) (b + 0) r in
    let v := readb r (b + 100) in
    writeb (put_bit v 0 on) (b + 100) r).

Definition dec_reg_mux_select (regs : option reg_block) (mux : Z) : option reg_block :=
  with_workaround regs (fun r =>
    let mux := u8 mux &. 3 in
    let v := readb r (workaround r + 8) in
    let v := bic v 3 |. mux in
    let v := bic v 48 |. Z.shiftl mux 4 in
    writeb v (workaround r + 8) r).

Definition dec_decoder_display_init (regs : option reg_block) : option reg_block :=
  dec_reg_mux_select regs 2.

Definition dec_reg_int_to_display (regs : option reg_block) : option reg_block :=
  with_workaround regs (fun r =>
    writeb (readb r (workaround r + 0) |. BIT 4) (workaround r + 0) r).

Definition dec_reg_int_to_display_atomic (regs : option reg_block) : option reg_block :=
  dec_reg_int_to_display regs.

Definition dec_reg_blue_en (regs : option reg_block) (on : bool) : option reg_block :=
  with_workaround regs (fun r =>
    let v := readb r (workaround r + 16) in
    writeb (put_bit v 4 on) (workaround r + 16) r).

Definition dec_reg_set_filed_mode (regs : option reg_block) (on : bool) : option reg_block :=
  with_workaround regs (fun r =>
    let v := readb r (workaround r + 4) in
    writeb (put_bit v 0 on) (workaround r + 4) r).

Definition dec_reg_set_filed_repeat (regs : option reg_block) (on : bool) : option reg_block :=
  with_workaround regs (fun r =>
    let v := readb r (workaround r + 4) in
    writeb (put_bit v 4 on) (workaround r + 4) r).

Definition dec_reg_set_dirty (regs : option reg_block) (dirty : bool) : option reg_block :=
  with_workaround regs (fun r =>
    let r := set_rb_dirty r (Z.b2z dirty) in
    writel (Z.b2z dirty) (workaround r + 12) r).

Definition dec_reg_is_dirty (regs : option reg_block) : bool :=
  match regs with Some r => negb (rb_dirty r =? 0) | None => false end.

Definition dec_reg_frame_cnt (regs : option reg_block) : Z :=
  match regs with
  | Some r => if workaround r =? 0 then 0 else readl r (workaround r + 92)
  | None => 0
  end.

Definition dec_reg_bypass_config (regs : option reg_block) (value : Z) : option reg_block :=
  with_workaround regs (fun r =>
    let v := readb r (workaround r + 9) in
    let r := writeb (put_bit v 0 (value =? 0)) (workaround r + 9) r in
    writel 1 (workaround r + 12) r).

Definition dec_irq_query (regs : option reg_block) : Z * option reg_block :=
  match regs with
  | Some r =>
      if workaround r =? 0 then (0, regs)
      else
        let s0 := readb r (workaround r + 96) in
        if (s0 &. BIT 0) =? 0 then (0, regs)
        else
          let s1 := readb r (workaround r + 100) in
          if (s1 &. BIT 0) =? 0 then (0, regs)
          else (1, Some (writeb (s0 |. BIT 0) (workaround r + 96) r))
  | None => (0, regs)
  end.

(** [vf] is only compared with NULL. *)
Definition dec_sync_interlace_cfg_to_hardware (regs : option reg_block) (vf : Z) :
  option reg_block :=
  if vf =? 0 then regs
  else dec_reg_set_dirty (dec_reg_set_filed_mode regs true) true.

(** ** Video channel attributes *)

(** [u32 cfg[4]]; read as 16-bit words, word 4 is the low half of [cfg[2]]. *)
Definition channel_cfg : Type := Z * Z * Z * Z.

Definition attr_compressed (b16 b19 c2 c3 : Z) (r : reg_block) : reg_block :=
  let base := afbd r in
  let r := writeb (b16 &. 0xef) (base + 16) r in
  let r := writeb 1 (base + 17) r in
  let r := writeb ((b19 &. 0x78) |. 0x83) (base + 19) r in
  let r := writew (u32 (c2 - 1)) (base + 32) r in
  let r := writew (u32 (c3 - 1)) (base + 34) r in
  let r := writew (Z.shiftr (u32 (c2 - 1)) 4) (base + 36) r in
  let r := writew (Z.shiftr (u32 (c3 - 1)) 4) (base + 38) r in
  let r := writel 0 (base + 64) r in
  let r := writel 0 (base + 68) r in
  let r := writel 0 (base + 72) r in
  writel 0 (base + 76) r.

Definition attr_linear (kind b16 b19 val c2 c3 : Z) (r : reg_block) : reg_block :=
  let base := afbd r in
  let r := writeb (b16 |. 0x10) (base + 16) r in
  let r := writeb kind (base + 17) r in
  let r := writew val (base + 32) r in
  let r := writew val (base + 34) r in
  let r := writeb ((b19 &. 0x78) |. 3 |. Z.shiftl (val &. 1) 7) (base + 19) r in
  let r := writew val (base + 36) r in
  let r := writew val (base + 38) r in
  let r := writel (u32 (2 * c2)) (base + 64) r in
  let r := writel (u32 (2 * c2)) (base + 68) r in
  let r := writew (2 * u16 c2) (base + 72) r in
  let r := writew c3 (base + 74) r in
  let r := writew (2 * u16 c2) (base + 76) r in
  writew (Z.shiftr c3 1) (base + 78) r.

Definition dec_reg_video_channel_attr_config (regs : option reg_block) (cfg : option channel_cfg) :
  option reg_block :=
  match regs, cfg with
  | Some r, Some (val, mode, c2, c3) =>
      Some (if afbd r =? 0 then r
            else
              let b16 := readb r (afbd r + 16) in
              let b19 := readb r (afbd r + 19) in
              if mode =? 1 then
                if negb (val =? 0) then attr_compressed b16 b19 c2 c3 r
                else attr_linear 6 b16 b19 val c2 c3 r
              else if mode =? 20 then
                if negb (val =? 0) then attr_compressed b16 b19 c2 c3 r
                else attr_linear 7 b16 b19 val c2 c3 r
              else r)
  | _, _ => regs
  end.
