(* ===== verification/Decd.v ===== *)
(** The state of the decoder display driver (src/drivers/decd/decd_types.h),
    the monad its functions are written in, and the interface of the kernel
    primitives they call.

    - Objects the driver allocates ([video_frame], [frame_item], [dec_fence],
      [dec_video_info_page]) live in heaps of their own, indexed by address;
      kfree removes them, and touching an address with no object there stops
      with [BadPointer].  Addresses are never handed out twice, so every use
      after free shows.
    - [dec_state]: the device, its frame manager and queue ([None] once freed),
      the heaps, the globals of the module, the registers, and what is pending
      (tasklet, work).
    - [DecKernel]: reference counts, kfifos, failing allocations, dma-bufs,
      file descriptors and clocks, which are not part of the repository, as
      operations of a class; [DecLaws] states what the theorems rely on;
      [PlainDecKernel] is one instance. *)
From S2P Require Import Prelude Mem DecdRegs.

(** ** Objects *)

(** [struct dec_dma_map], owned by one item *)
Record dec_dma_map_t := DmaMap {
  dm_ptr : Z;           (* its own address, for the debug trace *)
  dm_dbuf : Z;
  dm_addr : Z;          (* dma_addr *)
  dm_size : Z;          (* the sum of the lengths of its scatter list *)
}.

Record dec_fence := DecFence {
  df_seqno : Z;
  df_signaled : bool;
}.

Record dec_frame_item := FrameItem {
  image_map : option dec_dma_map_t;
  info_map : option dec_dma_map_t;
  y_addr : Z;
  y_aux : Z;
  c_addr : Z;
  c_aux : Z;
  video_info_addr : Z;
  format_shadow : Z;
  video_info_page : Z;
  fence : Z;
  alt_y_valid : bool;
  alt_c_valid : bool;
  y_addr_alt : Z;
  c_addr_alt : Z;
  item_refs : Z;        (* refcount *)
}.

(** [struct dec_video_frame]; the release function is [frame_item_release]
    or NULL *)
Record dec_video_frame := VideoFrame {
  vf_refs : Z;          (* refcount *)
  seqnum : Z;
  payload : Z;
  vf_release : bool;
}.

(** [struct dec_video_info_page]; [vp_words] are the 32-bit words at [vaddr] *)
Record dec_video_info_page := InfoPage {
  vp_paddr : Z;
  vp_index : Z;
  vp_parent : Z;
  vp_words : gmap Z Z;
}.

Record dec_frame_queue := FrameQueue {
  q_locked : bool;      (* q->lock is held *)
  dirty : Z;
  interlace : Z;
  toggle : Z;
  field_pattern : Z;
  repeat_current : Z;
  repeat_budget : Z;
  slot0 : Z;
  slot1 : Z;
  slot2 : Z;
  slot3 : Z;
  interlace_hold : Z;
  interlace_top : Z;
  interlace_bottom : Z;
  release_fifo : list Z;
  q_dec : bool;         (* dec and sync_cb are set *)
  repeat_ctrl_cb : bool;
  shutdown_hold : Z;
  last_released : Z;
  repeat_mode : Z;
  repeat_pending : Z;
  hw_repeat : Z;
  hw_repeat_prev : Z;
  hw_repeat_req : Z;
  shutdown_counter : Z;
  soft_repeat_count : Z;
}.

Record dec_frame_manager := FrameManager {
  fm_seqno : Z;
  fm_state : Z;
  fm_request : Z;
  fm_type : Z;
  ready_locked : bool;  (* ready_lock is held *)
  ready_list : list Z;
  ready_count : Z;
  force_interlace : Z;
  irq_count : Z;
  refresh_scheduled : bool;
  recycle_fifo : list Z;
  pair0 : Z;            (* interlace_pair *)
  pair1 : Z;
}.

(** [struct dec_vsync_ring] *)
Record dec_vsync_ring := VsyncRing {
  vs_ts : list Z;
  vs_rd : Z;
  vs_wr : Z;
}.

(** [struct dec_debug_info]: 32-bit words by their index in the structure's
    arrays *)
Record dec_debug_info := DebugInfo {
  dbg_irq_count : Z;
  jiffies_hist : list Z;
  jiffies_pos : Z;
  dbg_work_data : Z;    (* the first word of the work that follows *)
  dbgdat : gmap Z Z;
  frame_trace_pos : Z;
  exception_trace_pos : Z;
}.

(** [struct video_buffer_export] *)
Record video_buffer_export := BufferExport {
  ve_phys : Z;
  ve_size : Z;
  ve_dma_addr : Z;
}.

Record dec_state := DecState {
  fmgr : option dec_frame_manager;
  queue : option dec_frame_queue;
  last_frame : Z;
  frames : gmap Z dec_video_frame;
  items : gmap Z dec_frame_item;
  fences : gmap Z dec_fence;
  fence_fds : list (Z * Z);          (* sync files: descriptor, fence *)
  fence_seqno : Z;                   (* fence_ctx->seqno *)
  fence_ctx : bool;
  pages : gmap Z dec_video_info_page;
  free_pages : list Z;               (* dec_video_info_free_list *)
  used_pages : list Z;
  dma_refs : list Z;                 (* dma-bufs held, attached, mapped *)
  dma_attached : list Z;
  dma_mapped : list Z;
  regs : option reg_block;
  debug : option dec_debug_info;
  g_dec : bool;
  vsync : dec_vsync_ring;
  iommu_debug : bool;
  invert_field : bool;
  dec_vsync_counter : Z;
  enabled : bool;
  dec_locked : bool;                 (* dec->lock is held *)
  reset_deasserted : Z;              (* how often: the reset is shared *)
  clk_bus_disp : Z;                  (* prepare-enable counts of the clocks *)
  clk_afbd : Z;
  irq_depth : Z;                     (* enable_irq minus disable_irq *)
  tasklet_pending : bool;            (* refresh_tasklet is scheduled *)
  release_pending : bool;            (* q->release_work is queued *)
  wakeups : Z;                       (* wake_up on waitq *)
  video_buffer_dev : bool;           (* video_buffer_dev is set *)
  video_buffer_exports : list video_buffer_export;
  video_buffer_last : Z * Z * Z;     (* last size, physical and dma address *)
  next_addr : Z;                     (* the address of the next object *)
  calls : nat;                       (* fallible external calls so far *)
}.

(** ** Setters *)

Definition frame_eta := fun r => VideoFrame (vf_refs r) (seqnum r) (payload r) (vf_release r).
Definition set_vf_refs : Z -> dec_video_frame -> dec_video_frame :=
  ltac:(let e := eval unfold frame_eta in frame_eta in field_setter e vf_refs).
Definition set_payload : Z -> dec_video_frame -> dec_video_frame :=
  ltac:(let e := eval unfold frame_eta in frame_eta in field_setter e payload).
Definition set_vf_release : bool -> dec_video_frame -> dec_video_frame :=
  ltac:(let e := eval unfold frame_eta in frame_eta in field_setter e vf_release).

Definition item_eta := fun r =>
  FrameItem (image_map r) (info_map r) (y_addr r) (y_aux r) (c_addr r) (c_aux r)
    (video_info_addr r) (format_shadow r) (video_info_page r) (fence r) (alt_y_valid r)
    (alt_c_valid r) (y_addr_alt r) (c_addr_alt r) (item_refs r).
Ltac item_setter f := let e := eval unfold item_eta in item_eta in field_setter e f.
Definition set_image_map : option dec_dma_map_t -> dec_frame_item -> dec_frame_item := ltac:(item_setter image_map).
Definition set_info_map : option dec_dma_map_t -> dec_frame_item -> dec_frame_item := ltac:(item_setter info_map).
Definition set_y_addr : Z -> dec_frame_item -> dec_frame_item := ltac:(item_setter y_addr).
Definition set_y_aux : Z -> dec_frame_item -> dec_frame_item := ltac:(item_setter y_aux).
Definition set_c_addr : Z -> dec_frame_item -> dec_frame_item := ltac:(item_setter c_addr).
Definition set_c_aux : Z -> dec_frame_item -> dec_frame_item := ltac:(item_setter c_aux).
Definition set_video_info_addr : Z -> dec_frame_item -> dec_frame_item := ltac:(item_setter video_info_addr).
Definition set_format_shadow : Z -> dec_frame_item -> dec_frame_item := ltac:(item_setter format_shadow).
Definition set_video_info_page : Z -> dec_frame_item -> dec_frame_item := ltac:(item_setter video_info_page).
Definition set_fence : Z -> dec_frame_item -> dec_frame_item := ltac:(item_setter fence).
Definition set_alt_y_valid : bool -> dec_frame_item -> dec_frame_item := ltac:(item_setter alt_y_valid).
Definition set_alt_c_valid : bool -> dec_frame_item -> dec_frame_item := ltac:(item_setter alt_c_valid).
Definition set_y_addr_alt : Z -> dec_frame_item -> dec_frame_item := ltac:(item_setter y_addr_alt).
Definition set_c_addr_alt : Z -> dec_frame_item -> dec_frame_item := ltac:(item_setter c_addr_alt).
Definition set_item_refs : Z -> dec_frame_item -> dec_frame_item := ltac:(item_setter item_refs).

Definition page_eta := fun r =>
  InfoPage (vp_paddr r) (vp_index r) (vp_parent r) (vp_words r).
Ltac page_setter f := let e := eval unfold page_eta in page_eta in field_setter e f.
Definition set_vp_paddr : Z -> dec_video_info_page -> dec_video_info_page := ltac:(page_setter vp_paddr).
Definition set_vp_index : Z -> dec_video_info_page -> dec_video_info_page := ltac:(page_setter vp_index).
Definition set_vp_parent : Z -> dec_video_info_page -> dec_video_info_page := ltac:(page_setter vp_parent).
Definition set_vp_words : gmap Z Z -> dec_video_info_page -> dec_video_info_page := ltac:(page_setter vp_words).

Definition queue_eta := fun r =>
  FrameQueue (q_locked r) (dirty r) (interlace r) (toggle r) (field_pattern r)
    (repeat_current r) (repeat_budget r) (slot0 r) (slot1 r) (slot2 r) (slot3 r)
    (interlace_hold r) (interlace_top r) (interlace_bottom r) (release_fifo r) (q_dec r)
    (repeat_ctrl_cb r) (shutdown_hold r) (last_released r) (repeat_mode r) (repeat_pending r)
    (hw_repeat r) (hw_repeat_prev r) (hw_repeat_req r) (shutdown_counter r)
    (soft_repeat_count r).
Ltac queue_setter f := let e := eval unfold queue_eta in queue_eta in field_setter e f.
Definition set_q_locked : bool -> dec_frame_queue -> dec_frame_queue := ltac:(queue_setter q_locked).
Definition set_dirty : Z -> dec_frame_queue -> dec_frame_queue := ltac:(queue_setter dirty).
Definition set_interlace : Z -> dec_frame_queue -> dec_frame_queue := ltac:(queue_setter interlace).
Definition set_toggle : Z -> dec_frame_queue -> dec_frame_queue := ltac:(queue_setter toggle).
Definition set_field_pattern : Z -> dec_frame_queue -> dec_frame_queue := ltac:(queue_setter field_pattern).
Definition set_repeat_current : Z -> dec_frame_queue -> dec_frame_queue := ltac:(queue_setter repeat_current).
Definition set_repeat_budget : Z -> dec_frame_queue -> dec_frame_queue := ltac:(queue_setter repeat_budget).
Definition set_slot0 : Z -> dec_frame_queue -> dec_frame_queue := ltac:(queue_setter slot0).
Definition set_slot1 : Z -> dec_frame_queue -> dec_frame_queue := ltac:(queue_setter slot1).
Definition set_slot2 : Z -> dec_frame_queue -> dec_frame_queue := ltac:(queue_setter slot2).
Definition set_slot3 : Z -> dec_frame_queue -> dec_frame_queue := ltac:(queue_setter slot3).
Definition set_interlace_hold : Z -> dec_frame_queue -> dec_frame_queue := ltac:(queue_setter interlace_hold).
Definition set_interlace_top : Z -> dec_frame_queue -> dec_frame_queue := ltac:(queue_setter interlace_top).
Definition set_interlace_bottom : Z -> dec_frame_queue -> dec_frame_queue := ltac:(queue_setter interlace_bottom).
Definition set_release_fifo : list Z -> dec_frame_queue -> dec_frame_queue := ltac:(queue_setter release_fifo).
Definition set_q_dec : bool -> dec_frame_queue -> dec_frame_queue := ltac:(queue_setter q_dec).
Definition set_repeat_ctrl_cb : bool -> dec_frame_queue -> dec_frame_queue := ltac:(queue_setter repeat_ctrl_cb).
Definition set_shutdown_hold : Z -> dec_frame_queue -> dec_frame_queue := ltac:(queue_setter shutdown_hold).
Definition set_last_released : Z -> dec_frame_queue -> dec_frame_queue := ltac:(queue_setter last_released).
Definition set_repeat_mode : Z -> dec_frame_queue -> dec_frame_queue := ltac:(queue_setter repeat_mode).
Definition set_repeat_pending : Z -> dec_frame_queue -> dec_frame_queue := ltac:(queue_setter repeat_pending).
Definition set_hw_repeat : Z -> dec_frame_queue -> dec_frame_queue := ltac:(queue_setter hw_repeat).
Definition set_hw_repeat_prev : Z -> dec_frame_queue -> dec_frame_queue := ltac:(queue_setter hw_repeat_prev).
Definition set_hw_repeat_req : Z -> dec_frame_queue -> dec_frame_queue := ltac:(queue_setter hw_repeat_req).
Definition set_shutdown_counter : Z -> dec_frame_queue -> dec_frame_queue := ltac:(queue_setter shutdown_counter).
Definition set_soft_repeat_count : Z -> dec_frame_queue -> dec_frame_queue := ltac:(queue_setter soft_repeat_count).

Definition manager_eta := fun r =>
  FrameManager (fm_seqno r) (fm_state r) (fm_request r) (fm_type r) (ready_locked r)
    (ready_list r) (ready_count r) (force_interlace r) (irq_count r) (refresh_scheduled r)
    (recycle_fifo r) (pair0 r) (pair1 r).
Ltac manager_setter f := let e := eval unfold manager_eta in manager_eta in field_setter e f.
Definition set_fm_seqno : Z -> dec_frame_manager -> dec_frame_manager := ltac:(manager_setter fm_seqno).
Definition set_fm_state : Z -> dec_frame_manager -> dec_frame_manager := ltac:(manager_setter fm_state).
Definition set_fm_request : Z -> dec_frame_manager -> dec_frame_manager := ltac:(manager_setter fm_request).
Definition set_fm_type : Z -> dec_frame_manager -> dec_frame_manager := ltac:(manager_setter fm_type).
Definition set_ready_locked : bool -> dec_frame_manager -> dec_frame_manager := ltac:(manager_setter ready_locked).
Definition set_ready_list : list Z -> dec_frame_manager -> dec_frame_manager := ltac:(manager_setter ready_list).
Definition set_ready_count : Z -> dec_frame_manager -> dec_frame_manager := ltac:(manager_setter ready_count).
Definition set_force_interlace : Z -> dec_frame_manager -> dec_frame_manager := ltac:(manager_setter force_interlace).
Definition set_irq_count : Z -> dec_frame_manager -> dec_frame_manager := ltac:(manager_setter irq_count).
Definition set_refresh_scheduled : bool -> dec_frame_manager -> dec_frame_manager := ltac:(manager_setter refresh_scheduled).
Definition set_recycle_fifo : list Z -> dec_frame_manager -> dec_frame_manager := ltac:(manager_setter recycle_fifo).
Definition set_pair0 : Z -> dec_frame_manager -> dec_frame_manager := ltac:(manager_setter pair0).
Definition set_pair1 : Z -> dec_frame_manager -> dec_frame_manager := ltac:(manager_setter pair1).

Definition debug_eta := fun r =>
  DebugInfo (dbg_irq_count r) (jiffies_hist r) (jiffies_pos r) (dbg_work_data r) (dbgdat r)
    (frame_trace_pos r) (exception_trace_pos r).
Ltac debug_setter f := let e := eval unfold debug_eta in debug_eta in field_setter e f.
Definition set_dbg_irq_count : Z -> dec_debug_info -> dec_debug_info := ltac:(debug_setter dbg_irq_count).
Definition set_jiffies_hist : list Z -> dec_debug_info -> dec_debug_info := ltac:(debug_setter jiffies_hist).
Definition set_jiffies_pos : Z -> dec_debug_info -> dec_debug_info := ltac:(debug_setter jiffies_pos).
Definition set_dbg_work_data : Z -> dec_debug_info -> dec_debug_info := ltac:(debug_setter dbg_work_data).
Definition set_dbgdat : gmap Z Z -> dec_debug_info -> dec_debug_info := ltac:(debug_setter dbgdat).
Definition set_frame_trace_pos : Z -> dec_debug_info -> dec_debug_info := ltac:(debug_setter frame_trace_pos).
Definition set_exception_trace_pos : Z -> dec_debug_info -> dec_debug_info := ltac:(debug_setter exception_trace_pos).

Definition state_eta := fun r =>
  DecState (fmgr r) (queue r) (last_frame r) (frames r) (items r) (fences r) (fence_fds r)
    (fence_seqno r) (fence_ctx r) (pages r) (free_pages r) (used_pages r) (dma_refs r)
    (dma_attached r) (dma_mapped r) (regs r) (debug r) (g_dec r) (vsync r) (iommu_debug r)
    (invert_field r) (dec_vsync_counter r) (enabled r) (dec_locked r) (reset_deasserted r)
    (clk_bus_disp r) (clk_afbd r) (irq_depth r) (tasklet_pending r) (release_pending r)
    (wakeups r) (video_buffer_dev r) (video_buffer_exports r) (video_buffer_last r)
    (next_addr r) (calls r).
Ltac state_setter f := let e := eval unfold state_eta in state_eta in field_setter e f.
Definition set_fmgr : option dec_frame_manager -> dec_state -> dec_state := ltac:(state_setter fmgr).
Definition set_queue : option dec_frame_queue -> dec_state -> dec_state := ltac:(state_setter queue).
Definition set_last_frame : Z -> dec_state -> dec_state := ltac:(state_setter last_frame).
Definition set_frames : gmap Z dec_video_frame -> dec_state -> dec_state := ltac:(state_setter frames).
Definition set_items : gmap Z dec_frame_item -> dec_state -> dec_state := ltac:(state_setter items).
Definition set_fences : gmap Z dec_fence -> dec_state -> dec_state := ltac:(state_setter fences).
Definition set_fence_fds : list (Z * Z) -> dec_state -> dec_state := ltac:(state_setter fence_fds).
Definition set_fence_seqno : Z -> dec_state -> dec_state := ltac:(state_setter fence_seqno).
Definition set_fence_ctx : bool -> dec_state -> dec_state := ltac:(state_setter fence_ctx).
Definition set_pages : gmap Z dec_video_info_page -> dec_state -> dec_state := ltac:(state_setter pages).
Definition set_free_pages : list Z -> dec_state -> dec_state := ltac:(state_setter free_pages).
Definition set_used_pages : list Z -> dec_state -> dec_state := ltac:(state_setter used_pages).
Definition set_dma_refs : list Z -> dec_state -> dec_state := ltac:(state_setter dma_refs).
Definition set_dma_attached : list Z -> dec_state -> dec_state := ltac:(state_setter dma_attached).
Definition set_dma_mapped : list Z -> dec_state -> dec_state := ltac:(state_setter dma_mapped).
Definition set_regs : option reg_block -> dec_state -> dec_state := ltac:(state_setter regs).
Definition set_debug : option dec_debug_info -> dec_state -> dec_state := ltac:(state_setter debug).
Definition set_g_dec : bool -> dec_state -> dec_state := ltac:(state_setter g_dec).
Definition set_vsync : dec_vsync_ring -> dec_state -> dec_state := ltac:(state_setter vsync).
Definition set_iommu_debug : bool -> dec_state -> dec_state := ltac:(state_setter iommu_debug).
Definition set_invert_field : bool -> dec_state -> dec_state := ltac:(state_setter invert_field).
Definition set_dec_vsync_counter : Z -> dec_state -> dec_state := ltac:(state_setter dec_vsync_counter).
Definition set_enabled : bool -> dec_state -> dec_state := ltac:(state_setter enabled).
Definition set_dec_locked : bool -> dec_state -> dec_state := ltac:(state_setter dec_locked).
Definition set_reset_deasserted : Z -> dec_state -> dec_state := ltac:(state_setter reset_deasserted).
Definition set_clk_bus_disp : Z -> dec_state -> dec_state := ltac:(state_setter clk_bus_disp).
Definition set_clk_afbd : Z -> dec_state -> dec_state := ltac:(state_setter clk_afbd).
Definition set_irq_depth : Z -> dec_state -> dec_state := ltac:(state_setter irq_depth).
Definition set_tasklet_pending : bool -> dec_state -> dec_state := ltac:(state_setter tasklet_pending).
Definition set_release_pending : bool -> dec_state -> dec_state := ltac:(state_setter release_pending).
Definition set_wakeups : Z -> dec_state -> dec_state := ltac:(state_setter wakeups).
Definition set_video_buffer_dev : bool -> dec_state -> dec_state := ltac:(state_setter video_buffer_dev).
Definition set_video_buffer_exports : list video_buffer_export -> dec_state -> dec_state := ltac:(state_setter video_buffer_exports).
Definition set_video_buffer_last : Z * Z * Z -> dec_state -> dec_state := ltac:(state_setter video_buffer_last).
Definition set_next_addr : Z -> dec_state -> dec_state := ltac:(state_setter next_addr).
Definition set_calls : nat -> dec_state -> dec_state := ltac:(state_setter calls).

(** ** The monad *)

Inductive dec_stop : Set :=
| BadPointer (p : Z)        (* NULL, a freed object, or no object at all *)
| Deadlock                  (* a spinlock taken by its holder *)
| Blocked                   (* a mutex that is held *)
| OutOfFuel.

Inductive dec_result (A : Type) : Type :=
| Done (a : A) (s : dec_state)
| Halt (r : dec_stop).
Arguments Done {A} a s.
Arguments Halt {A} r.

Definition D (A : Type) : Type := dec_state -> dec_result A.

#[export] Instance D_ret : MRet D := fun A a s => Done a s.
#[export] Instance D_bind : MBind D := fun A B k m s =>
  match m s with Done a s' => k a s' | Halt r => Halt r end.

Definition halt {A} (r : dec_stop) : D A := fun _ => Halt r.
Definition dget {A} (f : dec_state -> A) : D A := fun s => Done (f s) s.
Definition dmod (f : dec_state -> dec_state) : D unit := fun s => Done tt (f s).

(** [if (b) m] *)
Definition dwhen (b : bool) (m : D unit) : D unit := if b then m else mret tt.

(** Fields of the queue and the manager, through pointers that may dangle. *)
Definition getq : D dec_frame_queue := fun s =>
  match queue s with Some q => Done q s | None => Halt (BadPointer 0) end.
Definition modq (f : dec_frame_queue -> dec_frame_queue) : D unit := fun s =>
  match queue s with Some q => Done tt (set_queue (Some (f q)) s) | None => Halt (BadPointer 0) end.
Definition getm : D dec_frame_manager := fun s =>
  match fmgr s with Some m => Done m s | None => Halt (BadPointer 0) end.
Definition modm (f : dec_frame_manager -> dec_frame_manager) : D unit := fun s =>
  match fmgr s with Some m => Done tt (set_fmgr (Some (f m)) s) | None => Halt (BadPointer 0) end.

(** Objects of the heaps. *)
Definition deref {V} (h : dec_state -> gmap Z V) (p : Z) : D V := fun s =>
  match h s !! p with Some v => Done v s | None => Halt (BadPointer p) end.
Definition mod_frame (p : Z) (f : dec_video_frame -> dec_video_frame) : D unit :=
  v ← deref frames p; dmod (fun s => set_frames (<[p := f v]> (frames s)) s).
Definition mod_item (p : Z) (f : dec_frame_item -> dec_frame_item) : D unit :=
  v ← deref items p; dmod (fun s => set_items (<[p := f v]> (items s)) s).
Definition mod_page (p : Z) (f : dec_video_info_page -> dec_video_info_page) : D unit :=
  v ← deref pages p; dmod (fun s => set_pages (<[p := f v]> (pages s)) s).
Definition kfree_frame (p : Z) : D unit :=
  v ← deref frames p; dmod (fun s => set_frames (delete p (frames s)) s).
Definition kfree_item (p : Z) : D unit :=
  v ← deref items p; dmod (fun s => set_items (delete p (items s)) s).
Definition kfree_fence (p : Z) : D unit :=
  v ← deref fences p; dmod (fun s => set_fences (delete p (fences s)) s).

(** Locks. *)
Definition lock_queue : D unit :=
  q ← getq; if q_locked q then halt Deadlock else modq (set_q_locked true).
Definition unlock_queue : D unit := modq (set_q_locked false).
Definition lock_ready : D unit :=
  m ← getm; if ready_locked m then halt Deadlock else modm (set_ready_locked true).
Definition unlock_ready : D unit := modm (set_ready_locked false).
Definition lock_dec : D unit :=
  l ← dget dec_locked; if (l : bool) then halt Blocked else dmod (set_dec_locked true).
Definition unlock_dec : D unit := dmod (set_dec_locked false).

(** ** Kernel primitives *)

(** A kfifo is given by the list of what it holds, oldest first.  The [n]-th
    fallible call of the run fails if [call_fails n]; the remaining operations
    describe the dma-bufs that user space passes in. *)
Class DecKernel := {
  call_fails : nat -> bool;
  refcount_inc : Z -> Z;
  refcount_dec_and_test : Z -> Z * bool;
  kfifo_in : list Z -> Z -> list Z;
  kfifo_out : list Z -> option (Z * list Z);
  dbuf_of_fd : Z -> Z;
  dbuf_dma_addr : Z -> Z;
  dbuf_size : Z -> Z;
  dbuf_word : Z -> Z -> Z;      (* a 32-bit word of the mapped buffer, by byte offset *)
  new_fd : nat -> Z;            (* the descriptor the n-th call hands out *)
}.

(** The elements a kfifo of this driver holds: kfifo_alloc is given
    512 * sizeof(pointer) and the driver is built for 32-bit ARM. *)
Definition fifo_elems : nat := 2048.

(** What the theorems rely on.  A reference count that overflowed is [pinned]:
    it never reaches zero again. *)
Class DecLaws (K : DecKernel) := {
  pinned : Z -> Prop;
  refcount_inc_spec r : 0 < r -> refcount_inc r = r + 1 \/ pinned (refcount_inc r);
  refcount_inc_pinned r : pinned r -> pinned (refcount_inc r);
  refcount_dec_last : refcount_dec_and_test 1 = (0, true);
  refcount_dec_more r : 1 < r ->
    refcount_dec_and_test r = (r - 1, false) \/
    (exists r', refcount_dec_and_test r = (r', false) /\ pinned r');
  refcount_dec_pinned r : pinned r ->
    exists r', refcount_dec_and_test r = (r', false) /\ pinned r';
  kfifo_in_room l x : (length l < fifo_elems)%nat -> kfifo_in l x = l ++ [x];
  kfifo_in_full l x : (fifo_elems <= length l)%nat -> kfifo_in l x = l;
  kfifo_out_nil : kfifo_out [] = None;
  kfifo_out_cons x l : kfifo_out (x :: l) = Some (x, l);
}.

(** Reference counts saturate at INT_MIN / 2, as refcount_t does. *)
Definition plain_inc (r : Z) : Z :=
  if (0 <? r) && (r <? 2 ^ 31 - 1) then r + 1 else - 2 ^ 30.
Definition plain_dec (r : Z) : Z * bool :=
  if r =? 1 then (0, true)
  else if (1 <? r) && (r <? 2 ^ 31) then (r - 1, false) else (- 2 ^ 30, false).

(** An instance in which no call fails. *)
#[export] Instance PlainDecKernel : DecKernel := {
  call_fails n := false;
  refcount_inc := plain_inc;
  refcount_dec_and_test := plain_dec;
  kfifo_in l x := if decide (length l < fifo_elems)%nat then l ++ [x] else l;
  kfifo_out l := match l with [] => None | x :: l => Some (x, l) end;
  dbuf_of_fd fd := fd;
  dbuf_dma_addr b := 16777216 * b;
  dbuf_size b := 8388608;
  dbuf_word b i := if i =? 4096 then 1634822976 else 0;
  new_fd n := 3;
}.

#[export] Instance PlainDecLaws : DecLaws PlainDecKernel.
Proof.
  refine {| pinned := fun r => r <= 0 |}.
  - intros r Hr. cbn. unfold plain_inc.
    destruct ((0 <? r) && (r <? 2 ^ 31 - 1)); [left | right]; lia.
  - intros r Hr. cbn. unfold plain_inc. rewrite ltb_false by lia. cbn. lia.
  - done.
  - intros r Hr. cbn. unfold plain_dec. rewrite eqb_neq_false by lia.
    destruct ((1 <? r) && (r <? 2 ^ 31)); [by left |]. right. eexists. split; [done | lia].
  - intros r Hr. cbn. unfold plain_dec. rewrite eqb_neq_false, ltb_false by lia. cbn.
    eexists. split; [done | lia].
  - intros l x Hl. cbn. by rewrite decide_True.
  - intros l x Hl. cbn. rewrite decide_False by lia. done.
  - done.
  - done.
Qed.

(** One fallible external call: did it succeed? *)
Definition attempt `{DecKernel} : D bool := fun s =>
  Done (negb (call_fails (calls s))) (set_calls (S (calls s)) s).

(** kzalloc: 0, or the address of a new object (its size is less than 4096). *)
Definition kzalloc `{DecKernel} : D Z :=
  ok ← attempt;
  if (ok : bool) then
    p ← dget next_addr; dmod (set_next_addr (p + 4096));; mret p
  else mret 0.

(** ** Total correctness: [m] returns from [s], and [Q] holds *)

Definition dwp {A} (m : D A) (Q : A -> dec_state -> Prop) (s : dec_state) : Prop :=
  match m s with Done a s' => Q a s' | Halt _ => False end.

Section Rules.
Context {A B : Type}.
Implicit Types (s : dec_state).

Lemma dwp_done (m : D A) a s' s (Q : A -> dec_state -> Prop) :
  m s = Done a s' -> Q a s' -> dwp m Q s.
Proof. unfold dwp. by intros ->. Qed.

Lemma dwp_inv (m : D A) Q s : dwp m Q s -> exists a s', m s = Done a s' /\ Q a s'.
Proof. unfold dwp. destruct (m s) as [a s'|]; [eauto | done]. Qed.

Lemma dwp_ret (a : A) Q s : Q a s -> dwp (mret a) Q s.
Proof. done. Qed.

Lemma dwp_bind (m : D A) (k : A -> D B) Q s :
  dwp m (fun a s' => dwp (k a) Q s') s -> dwp (m ≫= k) Q s.
Proof. unfold dwp, mbind, D_bind. by destruct (m s). Qed.

Lemma dwp_mono (m : D A) (Q R : A -> dec_state -> Prop) s :
  dwp m Q s -> (forall a s', Q a s' -> R a s') -> dwp m R s.
Proof. unfold dwp. destruct (m s); [eauto | done]. Qed.

(** A call whose specification is known, and the rest *)
Lemma dwp_call (m : D A) (k : A -> D B) (R : A -> dec_state -> Prop) Q s :
  dwp m R s -> (forall a s', R a s' -> dwp (k a) Q s') -> dwp (m ≫= k) Q s.
Proof. intros H1 H2. apply dwp_bind. eapply dwp_mono; [exact H1 | exact H2]. Qed.

(** The same when the run is known. *)
Lemma bind_done (m : D A) (k : A -> D B) a s s' : m s = Done a s' -> (m ≫= k) s = k a s'.
Proof. unfold mbind, D_bind. by intros ->. Qed.

Lemma bind_halt (m : D A) (k : A -> D B) r s : m s = Halt r -> (m ≫= k) s = Halt r.
Proof. unfold mbind, D_bind. by intros ->. Qed.

Lemma dwp_dget (f : dec_state -> A) Q s : Q (f s) s -> dwp (dget f) Q s.
Proof. done. Qed.

Lemma dwp_dmod f (Q : unit -> dec_state -> Prop) s : Q tt (f s) -> dwp (dmod f) Q s.
Proof. done. Qed.

Lemma dwp_deref {V} (h : dec_state -> gmap Z V) p v Q s :
  h s !! p = Some v -> Q v s -> dwp (deref h p) Q s.
Proof. unfold dwp, deref. by intros ->. Qed.
End Rules.

Lemma dwp_mod_frame p f v (Q : unit -> dec_state -> Prop) s :
  frames s !! p = Some v -> Q tt (set_frames (<[p := f v]> (frames s)) s) ->
  dwp (mod_frame p f) Q s.
Proof. unfold dwp, mod_frame, mbind, D_bind, deref. by intros ->. Qed.

Lemma dwp_mod_item p f v (Q : unit -> dec_state -> Prop) s :
  items s !! p = Some v -> Q tt (set_items (<[p := f v]> (items s)) s) ->
  dwp (mod_item p f) Q s.
Proof. unfold dwp, mod_item, mbind, D_bind, deref. by intros ->. Qed.

Lemma dwp_mod_page p f v (Q : unit -> dec_state -> Prop) s :
  pages s !! p = Some v -> Q tt (set_pages (<[p := f v]> (pages s)) s) ->
  dwp (mod_page p f) Q s.
Proof. unfold dwp, mod_page, mbind, D_bind, deref. by intros ->. Qed.

Lemma dwp_getq q (Q : dec_frame_queue -> dec_state -> Prop) s :
  queue s = Some q -> Q q s -> dwp getq Q s.
Proof. unfold dwp, getq. by intros ->. Qed.

Lemma dwp_modq f q (Q : unit -> dec_state -> Prop) s :
  queue s = Some q -> Q tt (set_queue (Some (f q)) s) -> dwp (modq f) Q s.
Proof. unfold dwp, modq. by intros ->. Qed.

Lemma dwp_getm m (Q : dec_frame_manager -> dec_state -> Prop) s :
  fmgr s = Some m -> Q m s -> dwp getm Q s.
Proof. unfold dwp, getm. by intros ->. Qed.

Lemma dwp_modm f m (Q : unit -> dec_state -> Prop) s :
  fmgr s = Some m -> Q tt (set_fmgr (Some (f m)) s) -> dwp (modm f) Q s.
Proof. unfold dwp, modm. by intros ->. Qed.

(** The field that was just set, or one that an update leaves alone: both by
    computation. *)
Ltac dfield := first [ eassumption | reflexivity | cbn; eassumption | cbn; reflexivity
                     | cbn; rewrite lookup_insert_eq; reflexivity ].

(** Run the primitive at the head of the goal. *)
Ltac dstep1 :=
  lazymatch goal with
  | |- dwp (mbind _ _) _ _ => apply dwp_bind; dstep1
  | |- dwp (mret _) _ _ => apply dwp_ret
  | |- dwp (dget _) _ _ => apply dwp_dget
  | |- dwp (dmod _) _ _ => apply dwp_dmod
  | |- dwp (deref _ _) _ _ => eapply dwp_deref; [dfield |]
  | |- dwp (mod_frame _ _) _ _ => eapply dwp_mod_frame; [dfield |]
  | |- dwp (mod_item _ _) _ _ => eapply dwp_mod_item; [dfield |]
  | |- dwp (mod_page _ _) _ _ => eapply dwp_mod_page; [dfield |]
  | |- dwp getq _ _ => eapply dwp_getq; [dfield |]
  | |- dwp (modq _) _ _ => eapply dwp_modq; [dfield |]
  | |- dwp getm _ _ => eapply dwp_getm; [dfield |]
  | |- dwp (modm _) _ _ => eapply dwp_modm; [dfield |]
  end.
Ltac dstep := dstep1; cbv beta.
Ltac dsteps := repeat dstep.

(** A call with the specification [H]. *)
Tactic Notation "dcall" uconstr(H) := eapply dwp_call; [apply H |]; cbv beta.

(** ** Preservation: what holds of a state stays true *)

Lemma dwp_if {A} (b : bool) (m n : D A) Q s :
  (b = true -> dwp m Q s) -> (b = false -> dwp n Q s) -> dwp (if b then m else n) Q s.
Proof. destruct b; auto. Qed.

Lemma dwp_when (b : bool) (m : D unit) Q s :
  (b = true -> dwp m Q s) -> (b = false -> Q tt s) -> dwp (dwhen b m) Q s.
Proof. intros H1 H2. destruct b; [exact (H1 eq_refl) | exact (H2 eq_refl)]. Qed.

(** ** Partial correctness: if [m] returns from [s], [Q] holds *)

Definition after {A} (m : D A) (Q : A -> dec_state -> Prop) (s : dec_state) : Prop :=
  match m s with Done a s' => Q a s' | Halt _ => True end.

Lemma after_bind {A B} (m : D A) (k : A -> D B) R Q s :
  after m R s -> (forall a s', R a s' -> after (k a) Q s') -> after (m ≫= k) Q s.
Proof. unfold after, mbind, D_bind. intros H Hk. destruct (m s); [by apply Hk | done]. Qed.

Lemma after_ret {A} (a : A) (Q : A -> dec_state -> Prop) s : Q a s -> after (mret a) Q s.
Proof. done. Qed.

Lemma after_if {A} (b : bool) (m n : D A) Q s :
  (b = true -> after m Q s) -> (b = false -> after n Q s) -> after (if b then m else n) Q s.
Proof. destruct b; auto. Qed.

Lemma after_mono {A} (m : D A) (Q R : A -> dec_state -> Prop) s :
  after m Q s -> (forall a s', Q a s' -> R a s') -> after m R s.
Proof. unfold after. destruct (m s); auto. Qed.
