(* ===== verification/DecdItem.v ===== *)
(** Frame items of the decoder display driver: what user space submits.
    Mapping dma-bufs, fences, the pool of video info pages, the debug trace,
    and the creation and release of a [dec_frame_item] (the first half of
    src/drivers/decd/decd_frame.c, and src/drivers/decd/decd_fence.c). *)
From S2P Require Import Prelude Mem DecdRegs Decd.

Section Item.
Context `{K : DecKernel}.

(** Take the first occurrence of [x] off a list. *)
Fixpoint remove_one (x : Z) (l : list Z) : list Z :=
  match l with
  | [] => []
  | y :: l => if y =? x then l else y :: remove_one x l
  end.

(** ** dma-bufs *)

Definition dma_buf_put (b : Z) : D unit := dmod (fun s => set_dma_refs (remove_one b (dma_refs s)) s).
Definition dma_buf_detach (b : Z) : D unit :=
  dmod (fun s => set_dma_attached (remove_one b (dma_attached s)) s).
Definition dma_buf_unmap_attachment (b : Z) : D unit :=
  dmod (fun s => set_dma_mapped (remove_one b (dma_mapped s)) s).

(** [dec_dma_map]; the device is never NULL. *)
Definition dec_dma_map (fd : Z) : D (option dec_dma_map_t) :=
  if fd <? 0 then mret None else
  map ← kzalloc;
  if map =? 0 then mret None else
  got ← attempt;
  if negb got then mret None else
  let dbuf := dbuf_of_fd fd in
  dmod (fun s => set_dma_refs (dbuf :: dma_refs s) s);;
  attached ← attempt;
  if negb attached then dma_buf_put dbuf;; mret None else
  dmod (fun s => set_dma_attached (dbuf :: dma_attached s) s);;
  mapped ← attempt;
  if negb mapped then dma_buf_detach dbuf;; dma_buf_put dbuf;; mret None else
  dmod (fun s => set_dma_mapped (dbuf :: dma_mapped s) s);;
  mret (Some (DmaMap map dbuf (dbuf_dma_addr dbuf) (dbuf_size dbuf))).

Definition dec_dma_unmap (map : option dec_dma_map_t) : D unit :=
  match map with
  | None => mret tt
  | Some m =>
      dma_buf_unmap_attachment (dm_dbuf m);; dma_buf_detach (dm_dbuf m);;
      dma_buf_put (dm_dbuf m)
  end.

Definition dec_dma_buf_size (map : option dec_dma_map_t) : Z :=
  match map with None => 0 | Some m => dm_size m end.

(** ** Fences *)

Definition dec_fence_alloc : D Z :=
  df ← kzalloc;
  if df =? 0 then mret 0 else
  n ← dget fence_seqno;
  let seqno := u32 (n + 1) in
  dmod (set_fence_seqno seqno);;
  dmod (fun s => set_fences (<[df := DecFence seqno false]> (fences s)) s);;
  mret df.

Definition dec_fence_signal (df : Z) : D unit :=
  if df =? 0 then mret tt else
  f ← deref fences df;
  dmod (fun s => set_fences (<[df := DecFence (df_seqno f) true]> (fences s)) s).

(** The new descriptor, or a negative error; the sync file it names keeps a
    pointer to the fence. *)
Definition dec_fence_fd_create (df : Z) : D Z :=
  n ← dget calls; ok ← attempt;
  if negb ok then mret (-24) else                  (* no descriptor: -EMFILE *)
  let fd := new_fd n in
  ok ← attempt;
  if negb ok then mret (-12) else                  (* put_unused_fd; -ENOMEM *)
  dmod (fun s => set_fence_fds ((fd, df) :: fence_fds s) s);;
  mret fd.

(** ** Video info pages *)

Definition alloc_video_info_page : D Z :=
  free ← dget free_pages;
  match free with
  | [] => mret 0
  | page :: rest =>
      dmod (set_free_pages rest);;
      dmod (fun s => set_used_pages (used_pages s ++ [page]) s);;
      mret page
  end.

(** list_del_init takes the page off whichever list it is on. *)
Definition free_video_info_page (page : Z) : D unit :=
  if page =? 0 then mret tt else
  p ← deref pages page;
  dmod (fun s => set_used_pages (remove_one page (used_pages s)) s);;
  dmod (fun s => set_free_pages (remove_one page (free_pages s)) s);;
  dmod (fun s => set_free_pages (free_pages s ++ [page]) s).

Definition video_info_buffer_init (item : Z) : D Z :=
  if item =? 0 then mret 0 else
  page ← alloc_video_info_page;
  if page =? 0 then mret 0 else
  mod_item item (set_video_info_page page);;
  p ← deref pages page;
  mret (u32 (vp_paddr p)).

(** [memcpy(page->vaddr, map.vaddr + 4096, 0x104)]: 65 words *)
Definition copy_info (dbuf : Z) (words : gmap Z Z) : gmap Z Z :=
  foldr (fun i m => <[i := dbuf_word dbuf (4096 + 4 * i)]> m) words (seqZ 0 65).

(** Begin CPU access and map the buffer; both may fail. *)
Definition info_access : D bool :=
  begun ← attempt;
  if negb begun then mret false else
  attempt.

Definition video_info_buffer_init_dmabuf (item : Z) : D Z :=
  if item =? 0 then mret 0 else
  it ← deref items item;
  match info_map it with
  | None => mret 0
  | Some map =>
      ok ← info_access;
      if negb ok then mret 0 else
      page ← alloc_video_info_page;
      if page =? 0 then mret 0 else
      mod_item item (set_video_info_page page);;
      mod_page page (set_vp_parent item);;
      mod_page page (fun p => set_vp_words (copy_info (dm_dbuf map) (vp_words p)) p);;
      mod_page page (fun p => set_vp_words (<[25 := u32 (vp_paddr p + 144)]> (vp_words p)) p);;
      mod_page page (fun p => set_vp_words (<[26 := u32 (vp_paddr p + 172)]> (vp_words p)) p);;
      p ← deref pages page;
      mret (u32 (vp_paddr p))
  end.

Definition video_info_buffer_deinit (item : Z) : D unit :=
  if item =? 0 then mret tt else
  it ← deref items item;
  dwhen (negb (video_info_page it =? 0)) (free_video_info_page (video_info_page it)).

(** ** The debug trace *)

Definition dbg_word (i : Z) (d : dec_debug_info) : Z := default 0 (dbgdat d !! i).
Definition put_dbg (i v : Z) (d : dec_debug_info) : dec_debug_info :=
  set_dbgdat (<[i := u32 v]> (dbgdat d)) d.

(** [if (!g_dec || !g_dec->debug) return] *)
Definition with_debug (f : dec_debug_info -> dec_debug_info) : D unit :=
  g ← dget g_dec; o ← dget debug;
  match o with
  | Some d => dwhen g (dmod (set_debug (Some (f d))))
  | None => mret tt
  end.

Definition dec_debug_trace_frame (addr fmt : Z) : D Z :=
  with_debug (fun d =>
    let pos := frame_trace_pos d &. 63 in
    let d := set_frame_trace_pos (u32 (frame_trace_pos d + 1)) d in
    let d := put_dbg (130 + pos * 2) addr d in
    put_dbg (131 + pos * 2) fmt d);;
  mret addr.

Definition page_word (i : Z) (p : dec_video_info_page) : Z := default 0 (vp_words p !! i).

Definition dec_debug_trace_dma_buf_map (item : Z) : D unit :=
  if item =? 0 then mret tt else
  it ← deref items item;
  match image_map it with
  | None => mret tt
  | Some map =>
      g ← dget g_dec; o ← dget debug;
      match o with
      | Some d =>
          if negb g then mret tt else
          let pos := exception_trace_pos d &. 63 in
          let d := put_dbg (262 + pos * 7) (dm_addr map) d in
          let d := put_dbg (263 + pos * 7) (dec_dma_buf_size (image_map it)) d in
          let d := put_dbg (261 + pos * 7) (dm_ptr map) d in
          let d := put_dbg (267 + pos * 7) 1 d in
          let d' := set_exception_trace_pos (u32 (exception_trace_pos d + 1)) in
          if video_info_page it =? 0 then dmod (set_debug (Some (d' d)))
          else
            p ← deref pages (video_info_page it);
            let d := put_dbg (264 + pos * 7) (page_word 4 p) d in
            let d := put_dbg (265 + pos * 7) (page_word 5 p) d in
            let d := put_dbg (266 + pos * 7) (page_word 16 p) d in
            dmod (set_debug (Some (d' d)))
      | None => mret tt
      end
  end.

(** The first of the 64 entries with this map and address is marked inactive. *)
Fixpoint trace_unmap (l : list Z) (ptr addr : Z) (d : dec_debug_info) : dec_debug_info :=
  match l with
  | [] => d
  | i :: l =>
      if (dbg_word (261 + i * 7) d =? u32 ptr) && (dbg_word (262 + i * 7) d =? u32 addr)
      then put_dbg (267 + i * 7) 0 d
      else trace_unmap l ptr addr d
  end.

Definition dec_debug_trace_dma_buf_unmap (item : Z) : D unit :=
  if item =? 0 then mret tt else
  it ← deref items item;
  match image_map it with
  | None => mret tt
  | Some map => with_debug (trace_unmap (seqZ 0 64) (dm_ptr map) (dm_addr map))
  end.

(** ** Items *)

(** What the code uses of [struct dec_frame_submit_desc]. *)
Record dec_frame_submit_desc := SubmitDesc {
  linear : Z;
  blue_en : Z;            (* reserved0[0] *)
  image_fd : Z;
  desc_format : Z;
  desc_width : Z;
  desc_height : Z;
  desc_align : Z;
  info_fd : Z;
  split_fields : Z;
  field_sel1 : Z;
  y_phys : Z;
  c_phys : Z;
}.

(** The first two columns of the table; the code uses no others. *)
Definition fmt_attr_tbl : list (Z * Z) :=
  [(6, 8); (4, 8); (2, 8); (0, 8); (5, 10); (3, 10); (1, 10); (20, 10)].

(** [ALIGN(x, a)] on [u32] *)
Definition ALIGN (x a : Z) : Z := bic (u32 (x + u32 (a - 1))) (u32 (a - 1)).

Definition frame_stride (bpp width align : Z) : Z :=
  let multiplier := if bpp =? 8 then 1 else 2 in
  let stride := u32 (width * multiplier) in
  if align =? 0 then stride else ALIGN stride align.

Definition frame_c_offset (desc : dec_frame_submit_desc) : Z :=
  match list_find (fun e => e.1 = desc_format desc) fmt_attr_tbl with
  | Some (_, (_, bpp)) =>
      u32 (desc_height desc * frame_stride bpp (desc_width desc) (desc_align desc))
  | None => 0
  end.

(** An item as kzalloc and refcount_set leave it. *)
Definition new_item : dec_frame_item :=
  FrameItem None None 0 0 0 0 0 0 0 0 false false 0 0 1.

Definition frame_item_alloc : D Z :=
  item ← kzalloc;
  if item =? 0 then mret 0 else
  dmod (fun s => set_items (<[item := new_item]> (items s)) s);;
  mret item.

(** Split-field handling *)
Definition set_fields (item : Z) (desc : dec_frame_submit_desc) : D unit :=
  if negb (split_fields desc =? 0) then
    it ← deref items item;
    let field_offset := y_addr it in
    let field_c_offset := c_addr it in
    mod_item item (set_alt_y_valid true);;
    mod_item item (set_alt_c_valid true);;
    mod_item item (set_y_addr_alt field_offset);;
    mod_item item (set_c_addr_alt field_c_offset);;
    dwhen (field_sel1 desc =? 0)
      (mod_item item (set_alt_c_valid false);;
       mod_item item (fun it => set_y_addr (y_addr_alt it) it);;
       mod_item item (set_y_addr_alt field_offset);;
       mod_item item (fun it => set_c_addr (c_addr_alt it) it);;
       mod_item item (set_c_addr_alt field_c_offset))
  else
    mod_item item (fun it => set_y_addr_alt (y_addr it) it);;
    mod_item item (fun it => set_c_addr_alt (c_addr it) it).

(** From the label [setup_fields] on *)
Definition setup_fields (item : Z) (desc : dec_frame_submit_desc) : D Z :=
  set_fields item desc;;
  ctx ← dget fence_ctx;
  dwhen ctx (f ← dec_fence_alloc; mod_item item (set_fence f));;
  it ← deref items item;
  match image_map it with Some _ => dec_debug_trace_dma_buf_map item | None => mret tt end;;
  mret item.

Definition item_create_linear (desc : dec_frame_submit_desc) : D Z :=
  item ← frame_item_alloc;
  if item =? 0 then mret 0 else
  a ← video_info_buffer_init item;
  mod_item item (set_video_info_addr a);;
  mod_item item (set_y_addr (y_phys desc));;
  mod_item item (set_c_addr (c_phys desc));;
  setup_fields item desc.

(** The dma-buf path once both buffers are mapped *)
Definition item_addresses (item : Z) (map : dec_dma_map_t) (desc : dec_frame_submit_desc) : D unit :=
  a ← video_info_buffer_init_dmabuf item;
  mod_item item (set_video_info_addr a);;
  let y_dma := u32 (dm_addr map) in
  let c_offset := frame_c_offset desc in
  mod_item item (set_y_addr y_dma);;
  mod_item item (set_y_aux 0);;
  mod_item item (set_c_addr (u32 (y_dma + c_offset)));;
  mod_item item (set_c_aux 0);;
  mod_item item (set_format_shadow 0).

Definition item_create_dmabuf (desc : dec_frame_submit_desc) : D Z :=
  item ← frame_item_alloc;
  if item =? 0 then mret 0 else
  im ← dec_dma_map (image_fd desc);
  match im with
  | None => kfree_item item;; mret 0
  | Some map =>
      mod_item item (set_image_map im);;
      inf ← dec_dma_map (info_fd desc);
      match inf with
      | None => dec_dma_unmap im;; kfree_item item;; mret 0
      | Some _ =>
          mod_item item (set_info_map inf);;
          item_addresses item map desc;;
          setup_fields item desc
      end
  end.

Definition frame_item_create (desc : dec_frame_submit_desc) : D Z :=
  if negb (linear desc =? 0) then item_create_linear desc
  else if 20 <? desc_format desc then mret 0
  else item_create_dmabuf desc.

(** The last reference is gone. *)
Definition item_destroy (item : Z) : D unit :=
  it ← deref items item;
  dwhen (negb (fence it =? 0))
    (dec_fence_signal (fence it);;
     kfree_fence (fence it);;
     mod_item item (set_fence 0));;
  match image_map it with Some _ => dec_debug_trace_dma_buf_unmap item | None => mret tt end;;
  dec_dma_unmap (image_map it);;
  dec_dma_unmap (info_map it);;
  video_info_buffer_deinit item;;
  kfree_item item.

Definition frame_item_release (item : Z) : D unit :=
  if item =? 0 then mret tt else
  it ← deref items item;
  let '(refs, last) := refcount_dec_and_test (item_refs it) in
  mod_item item (set_item_refs refs);;
  dwhen last (item_destroy item).

(** refcount_inc(&item->refcount) *)
Definition item_get (item : Z) : D unit :=
  mod_item item (fun it => set_item_refs (refcount_inc (item_refs it)) it).

End Item.
