(* ===== verification/DecdQueue.v ===== *)
(** Video frames, the frame queue and the frame manager of the decoder display
    driver (the second half of src/drivers/decd/decd_frame.c), with the callback
    that programs the registers (dec_sync_frame_to_hardware of decd_hw.c).

    The queue runs in four contexts: the caller of an ioctl
    ([dec_frame_manager_enqueue_frame], [dec_frame_queue_resume]), the vsync
    interrupt ([dec_vsync_process]), the tasklet it schedules
    ([dec_frame_queue_refresh]) and the work ([dec_frame_release_process]). *)
From S2P Require Import Prelude Mem DecdRegs Decd DecdItem.

Section Queue.
Context `{K : DecKernel}.

(** ** Video frames *)

Definition dec_create_video_frame (n : Z) : D Z :=
  vf ← kzalloc;
  if vf =? 0 then mret 0 else
  dmod (fun s => set_frames (<[vf := VideoFrame 1 n 0 false]> (frames s)) s);;
  mret vf.

(** refcount_inc(&vf->refcount) *)
Definition frame_get (vf : Z) : D unit :=
  mod_frame vf (fun f => set_vf_refs (refcount_inc (vf_refs f)) f).

Definition video_frame_put (vf : Z) : D unit :=
  if vf =? 0 then mret tt else
  f ← deref frames vf;
  let '(refs, last) := refcount_dec_and_test (vf_refs f) in
  mod_frame vf (set_vf_refs refs);;
  dwhen last
    (dwhen (vf_release f) (frame_item_release (payload f));;
     kfree_frame vf).

(** ** The queue *)

Definition release_in (vf : Z) : D unit :=
  modq (fun q => set_release_fifo (kfifo_in (release_fifo q) vf) q).

Definition dec_frame_defer_release (vf : Z) : D unit :=
  q ← getq;
  dwhen (negb (last_released q =? 0)) (release_in (last_released q));;
  modq (set_last_released vf).

Definition set_slots (vf : Z) (q : dec_frame_queue) : dec_frame_queue :=
  set_slot3 vf (set_slot2 vf (set_slot1 vf (set_slot0 vf q))).

Definition dec_frame_queue_enqueue (vf : Z) : D Z :=
  if vf =? 0 then mret (-22) else
  q ← getq;
  if negb (dirty q =? 0) then mret 1 else
  dec_frame_defer_release (slot3 q);;
  modq (set_slots vf);;
  frame_get vf;;
  modq (set_soft_repeat_count 0);;
  modq (set_dirty 1);;
  mret 0.

Definition dec_frame_pop : D Z :=
  lock_ready;;
  m ← getm;
  vf ← (if (fm_type m =? 1) && negb (pair1 m =? 0) then
          q ← getq;
          let vf := if (soft_repeat_count q &. 1) =? 0 then pair0 m else pair1 m in
          frame_get vf;;
          modq (fun q => set_soft_repeat_count (u32 (soft_repeat_count q + 1)) q);;
          mret vf
        else
          match ready_list m with
          | vf :: rest =>
              modm (set_ready_list rest);;
              modm (fun m => set_ready_count (u32 (ready_count m - 1)) m);;
              mret vf
          | [] => mret 0
          end);
  unlock_ready;;
  mret vf.

(** ** The release work *)

(** One round of the loop: [true] if the fifo held more than one frame. *)
Definition release_round : D bool :=
  q ← getq;
  if (1 <? length (release_fifo q))%nat then
    lock_queue;;
    q ← getq;
    match kfifo_out (release_fifo q) with
    | Some (vf, rest) =>
        modq (set_release_fifo rest);; unlock_queue;;
        dwhen (negb (vf =? 0)) (video_frame_put vf);;
        mret true
    | None => unlock_queue;; mret true
    end
  else mret false.

Definition release_last : D unit :=
  q ← getq;
  dwhen (dirty q =? 0)
    (lock_queue;;
     q ← getq;
     match kfifo_out (release_fifo q) with
     | Some (vf, rest) => modq (set_release_fifo rest);; unlock_queue;; dmod (set_last_frame vf)
     | None => unlock_queue
     end).

Fixpoint release_loop (fuel : nat) : D unit :=
  match fuel with
  | O => halt OutOfFuel
  | S n => again ← release_round; if (again : bool) then release_loop n else mret tt
  end.

Definition dec_frame_release_process : D unit :=
  q ← getq;
  release_loop (S (length (release_fifo q)));;
  release_last.

(** queue_work_on(4, system_wq, &q->release_work) *)
Definition queue_release_work : D unit := dmod (set_release_pending true).

Fixpoint recycle_loop (fuel : nat) : D unit :=
  match fuel with
  | O => halt OutOfFuel
  | S n =>
      m ← getm;
      match kfifo_out (recycle_fifo m) with
      | None => mret tt
      | Some (vf, rest) =>
          modm (set_recycle_fifo rest);;
          dwhen (negb (vf =? 0)) (lock_queue;; release_in vf;; unlock_queue);;
          recycle_loop n
      end
  end.

Definition dec_frame_recycle : D unit :=
  m ← getm;
  recycle_loop (S (length (recycle_fifo m)));;
  queue_release_work.

(** ** Repeating a frame *)

Definition dec_frame_queue_hardware_repeat_ctrl (enable : Z) : D Z :=
  q ← getq;
  let prev := hw_repeat q in
  if prev =? enable then mret 0 else
  let prev := if negb (enable =? 0) then 0 else prev in
  modq (set_hw_repeat enable);;
  dwhen (negb (enable =? 0)) (modq (set_hw_repeat_prev prev));;
  modq (set_hw_repeat_req enable);;
  mret 1.

Definition bump_soft_repeat : D unit :=
  modq (fun q => set_soft_repeat_count (u32 (soft_repeat_count q + 1)) q).

(** The slots move up by one; the oldest is put off for release. *)
Definition repeat_interlaced : D unit :=
  q ← getq;
  dec_frame_defer_release (slot3 q);;
  dwhen (negb (slot0 q =? 0)) (frame_get (slot0 q));;
  modq (set_toggle 1);;
  modq (set_dirty 1);;
  modq (fun q => set_slot3 (slot2 q) q);;
  modq (fun q => set_slot2 (slot1 q) q);;
  modq (fun q => set_field_pattern (u32 (2 * field_pattern q) |. 1) q);;
  modq (fun q => set_slot0 (interlace_hold q) q).

Definition repeat_progressive : D unit :=
  q ← getq;
  dec_frame_defer_release (slot3 q);;
  modq (fun q => set_slot3 (slot2 q) q);;
  modq (fun q => set_slot2 (slot1 q) q);;
  dwhen (negb (slot0 q =? 0)) (frame_get (slot0 q));;
  modq (set_dirty 1);;
  bump_soft_repeat.

Definition dec_frame_queue_repeat : D unit :=
  q ← getq;
  if negb (interlace q =? 0) then
    bump_soft_repeat;;
    if negb (toggle q =? 0) then
      modq (set_toggle 1);;
      r ← dec_frame_queue_hardware_repeat_ctrl 1;
      dwhen (negb (r =? 0)) (modq (set_dirty 1))
    else repeat_interlaced
  else repeat_progressive.

Definition dec_is_interlace_frame (item : Z) : D bool :=
  if item =? 0 then mret false else
  it ← deref items item; mret (alt_y_valid it).

Definition dec_frame_queue_make_interlace_pause_sequence : D Z :=
  q ← getq;
  dec_frame_defer_release (slot2 q);;
  dwhen (negb (slot1 q =? 0)) (frame_get (slot1 q));;
  modq (set_slot2 (slot1 q));;
  modq (set_field_pattern 11);;
  mret 0.

Definition dec_frame_manager_set_stream_type (type : Z) : D Z :=
  lock_ready;; modm (set_fm_type type);; unlock_ready;; mret 0.

(** ** Resuming *)

Definition clear_fields (q : dec_frame_queue) : dec_frame_queue :=
  set_field_pattern 0 (set_toggle 0 (set_interlace 0 q)).

(** The first frame of a stream fills all four slots. *)
Definition start_stream (vf : Z) : D unit :=
  modq (set_slots vf);;
  frame_get vf;;
  f ← deref frames vf;
  inter ← dec_is_interlace_frame (payload f);
  (if (inter : bool) then
     dec_frame_manager_set_stream_type 1;;
     modq (set_interlace_hold vf);;
     modq (set_interlace 1);;
     modq (set_toggle 0);;
     modq (set_field_pattern 0)
   else
     m ← getm;
     (if negb (force_interlace m =? 0) then
        dec_frame_manager_set_stream_type 1;;
        modq clear_fields
      else
        modq clear_fields;;
        modq (set_repeat_current 0);;
        modq (set_repeat_budget 0);;
        dec_frame_manager_set_stream_type 0;; mret tt);;
     video_frame_put vf);;
  modq (set_interlace_hold 1);;
  modq (set_dirty 1);;
  modq (set_soft_repeat_count 0);;
  modq (set_repeat_budget 1);;
  modm (set_fm_state 1).

Definition dec_frame_queue_resume : D Z :=
  m ← getm;
  if negb (fm_state m =? 0) then
    dwhen (fm_state m =? 2) (modm (set_fm_state 1));; mret 0
  else
    lock_queue;;
    q ← getq;
    dwhen (dirty q =? 0)
      (lf ← dget last_frame;
       dwhen (negb (lf =? 0)) (video_frame_put lf;; dmod (set_last_frame 0));;
       vf ← dec_frame_pop;
       dwhen (negb (vf =? 0)) (start_stream vf));;
    unlock_queue;;
    mret 0.

Fixpoint put_all (l : list Z) : D unit :=
  match l with
  | [] => mret tt
  | vf :: l => video_frame_put vf;; put_all l
  end.

Definition dec_frame_manager_free : D unit :=
  lock_ready;;
  m ← getm;
  let detached := ready_list m in
  modm (set_ready_list []);;
  modm (set_ready_count 0);;
  modm (set_pair0 0);;
  modm (set_pair1 0);;
  modm (set_fm_type 0);;
  modm (set_fm_request 0);;
  unlock_ready;;
  put_all detached;;
  video_frame_put (pair0 m);;
  video_frame_put (pair1 m);;
  modm (set_fm_state 0).

(** ** Programming the registers *)

Definition low32 (a : Z) : Z := u32 a.

(** The plane addresses, aux word, format and repeat flag of a slot *)
Definition frame_planes (blank : bool) (o : option dec_frame_item) (alt_field iommu : bool) :
  planes * Z * Z * bool :=
  match blank, o with
  | false, Some it =>
      let p0 := if alt_field then low32 (y_addr_alt it) else low32 (y_addr it) in
      let p2 := if alt_field then low32 (c_addr_alt it) else low32 (c_addr it) in
      let p0 := if iommu then p0 |. 0x80000000 else p0 in
      let p2 := if iommu then p2 |. 0x80000000 else p2 in
      ((p0, y_aux it, p2, c_aux it), video_info_addr it, format_shadow it, alt_c_valid it)
  | _, _ => ((0, 0, 0, 0), 0, 0, false)
  end.

(** [item->alt_y_valid] and [item->alt_c_valid] are read again for slot 2. *)
Definition field_mode (inv : bool) (o : option dec_frame_item) (alt_field : bool) : bool :=
  match o with
  | Some it => if inv && alt_y_valid it && negb (alt_c_valid it) then negb alt_field else alt_field
  | None => alt_field
  end.

Definition dec_sync_frame_to_hardware (frame_payload : Z) (blank : bool) (idx : Z)
  (alt_field : bool) : D unit :=
  o ← (if frame_payload =? 0 then mret None
       else it ← deref items frame_payload; mret (Some it));
  iommu ← dget iommu_debug;
  inv ← dget invert_field;
  let '(p, aux, fmt, repeat_mode) := frame_planes blank o alt_field iommu in
  let '(p0, p1, _, _) := p in
  dmod (fun s => set_regs (dec_reg_set_address (regs s) p aux (if blank then 0 else p1) idx) s);;
  dec_debug_trace_frame p0 fmt;;
  if idx =? 2 then
    dmod (fun s => set_regs (dec_reg_set_filed_mode (regs s) (field_mode inv o alt_field)) s)
  else if idx =? 3 then
    dmod (fun s => set_regs (dec_reg_set_filed_repeat (regs s) repeat_mode) s);;
    dmod (fun s => set_regs (dec_reg_set_dirty (regs s) true) s)
  else mret tt.

Definition slot (i : Z) (q : dec_frame_queue) : Z :=
  if i =? 0 then slot0 q else if i =? 1 then slot1 q else if i =? 2 then slot2 q else slot3 q.

(** The body of the loop over the slots *)
Definition sync_slot (blank_all : bool) (i : Z) : D unit :=
  q ← getq;
  let alt_field := negb ((Z.shiftr (field_pattern q) i &. 1) =? 0) in
  if negb (slot i q =? 0) then
    f ← deref frames (slot i q);
    dwhen (q_dec q) (dec_sync_frame_to_hardware (payload f) false i alt_field)
  else
    dwhen (negb blank_all && q_dec q) (dec_sync_frame_to_hardware 0 true i alt_field).

(** [q->dec->regs], where [q->dec] is set with the callback *)
Definition with_dec_regs (f : option reg_block -> option reg_block) : D unit :=
  q ← getq;
  if q_dec q then dmod (fun s => set_regs (f (regs s)) s) else halt (BadPointer 0).

Definition dec_frame_queue_sync (blank_all : bool) : D unit :=
  modq (set_dirty 0);;
  sync_slot blank_all 0;;
  sync_slot blank_all 1;;
  sync_slot blank_all 2;;
  sync_slot blank_all 3;;
  q ← getq;
  dwhen (negb (repeat_pending q =? 0))
    (modq (set_repeat_pending 0);; with_dec_regs dec_reg_int_to_display_atomic).

(** [if (q->repeat_ctrl_cb) q->repeat_ctrl_cb(q->dec->regs, on)]: the callback
    registered by dec_enable is dec_reg_set_filed_repeat *)
Definition call_repeat_ctrl (on : Z) : D unit :=
  q ← getq;
  dwhen (repeat_ctrl_cb q)
    (with_dec_regs (fun r => dec_reg_set_filed_repeat r (negb (on =? 0)))).

(** ** The vsync interrupt *)

Definition dec_vsync_process : D unit :=
  lock_queue;;
  m ← getm;
  let state := fm_state m in
  q ← getq;
  (if negb (dirty q =? 0) then
     dec_frame_queue_sync (negb (state =? 1));;
     dec_frame_recycle
   else if negb (hw_repeat_req q =? 0) then
     dwhen (negb (slot0 q =? 0))
       (call_repeat_ctrl (repeat_mode q);;
        with_dec_regs (fun r => dec_sync_interlace_cfg_to_hardware r (slot0 q)))
   else mret tt);;
  unlock_queue;;
  (if negb (bic state 2 =? 0) then
     m ← getm;
     dwhen (negb (refresh_scheduled m))
       (modm (set_refresh_scheduled true);; dmod (set_tasklet_pending true))
   else if state =? 0 then dmod (fun s => set_wakeups (wakeups s + 1) s)
   else mret tt);;
  modm (fun m => set_irq_count ((irq_count m + 1) mod 2 ^ 64) m).

(** ** The tasklet *)

Definition shift_fields : D unit :=
  modq (fun q => set_field_pattern (u32 (Z.shiftl (field_pattern q) 1)) q).

Definition is_nil (l : list Z) : bool := match l with [] => true | _ => false end.

(** State 1 of an interlaced stream, first field *)
Definition refresh_first_field : D unit :=
  modq (set_toggle 1);;
  q ← getq; m ← getm;
  dwhen (negb (hw_repeat_req q =? 0))
    (modq (set_repeat_pending 1);;
     modq (set_repeat_mode 1);;
     dwhen (negb (is_nil (ready_list m)))
       (modq (set_hw_repeat_req 0);;
        modq (set_hw_repeat 0);;
        modq (set_hw_repeat_prev 1);;
        modq (set_repeat_current 1))).

(** State 1 of an interlaced stream, second field *)
Definition refresh_second_field : D unit :=
  modq (set_toggle 0);;
  q ← getq; m ← getm;
  if is_nil (ready_list m) && (repeat_budget q <=? 4) then
    modq (set_repeat_budget (u32 (repeat_budget q + 1)));;
    modq (set_repeat_current 0);;
    modq (set_interlace_bottom 0);;
    shift_fields;;
    dec_frame_queue_enqueue (interlace_hold q);;
    f ← deref frames (interlace_hold q);
    it ← deref items (payload f);
    dec_debug_trace_frame (low32 (y_addr it)) 0;; mret tt
  else if negb (hw_repeat_req q =? 0) then
    modq (set_repeat_current (u32 (repeat_current q + 1)));;
    r ← dec_frame_queue_hardware_repeat_ctrl 1;
    dwhen (negb (r =? 0)) (call_repeat_ctrl 1;; modm (set_fm_state 0));;
    modq (set_repeat_mode 0)
  else
    dwhen (negb (is_nil (ready_list m)))
      (vf ← dec_frame_pop;
       modq (set_repeat_mode 0);;
       modq (set_repeat_current 0);;
       shift_fields;;
       dec_frame_defer_release (interlace_hold q);;
       modq (set_interlace_hold vf);;
       modq (set_repeat_budget (u32 (repeat_budget q + 1)));;
       modm (set_force_interlace 0)).

(** The frame goes back to where it came from. *)
Definition requeue (vf : Z) : D unit :=
  lock_ready;;
  m ← getm;
  (if fm_type m =? 1 then video_frame_put vf
   else
     modm (fun m => set_ready_list (vf :: ready_list m) m);;
     modm (fun m => set_ready_count (u32 (ready_count m + 1)) m));;
  unlock_ready.

(** State 1 of a progressive stream *)
Definition refresh_progressive : D unit :=
  vf ← dec_frame_pop;
  if negb (vf =? 0) then
    r ← dec_frame_queue_enqueue vf;
    (if negb (r =? 0) then requeue vf else video_frame_put vf);;
    modm (set_force_interlace 0)
  else
    dec_frame_queue_repeat;;
    modm (set_force_interlace 1).

(** State 1 with a pair of fields set up *)
Definition refresh_pair : D unit :=
  m ← getm;
  dwhen (negb (pair0 m =? 0) && negb (pair1 m =? 0))
    (modq (fun q => set_toggle (Z.lxor (toggle q) 1) q);;
     shift_fields;;
     q ← getq;
     if negb (toggle q =? 0) then dec_frame_queue_enqueue (pair1 m);; mret tt
     else dec_frame_queue_enqueue (pair0 m);; mret tt).

Definition refresh_running : D unit :=
  q ← getq; m ← getm;
  if negb (interlace q =? 0) then
    if toggle q =? 0 then refresh_first_field else refresh_second_field
  else if force_interlace m =? 0 then refresh_progressive
  else refresh_pair.

(** [(int)q->shutdown_counter < 0] *)
Definition counting_down (q : dec_frame_queue) : bool := s32 (shutdown_counter q) <? 0.

Definition refresh_state3 : D unit :=
  q ← getq;
  if counting_down q then dec_frame_queue_repeat
  else if negb (interlace q =? 0) then
    modm (set_fm_state 4);;
    modq (set_repeat_mode 0);;
    modq (set_soft_repeat_count 0);;
    modq (set_repeat_budget 0);;
    modq (set_dirty 1)
  else modm (set_fm_state 2).

Definition clear_queue (q : dec_frame_queue) : dec_frame_queue :=
  let q := set_slots 0 q in
  let q := set_repeat_current 0 (set_field_pattern 0 (set_toggle 0 q)) in
  let q := set_hw_repeat 0 (set_repeat_pending 0 (set_repeat_mode 0 q)) in
  let q := set_dirty 1 (set_hw_repeat_req 0 (set_hw_repeat_prev 0 q)) in
  let q := set_interlace_hold 0 (set_interlace_top 0 (set_interlace_bottom 0 q)) in
  set_repeat_budget 0 (set_soft_repeat_count 0 q).

Definition refresh_state4 : D unit :=
  q ← getq;
  if counting_down q then dec_frame_queue_repeat
  else
    modm (set_fm_state 5);;
    modq (set_soft_repeat_count 0);;
    modq (set_shutdown_hold (if negb (slot0 q =? 0) then slot0 q else slot1 q));;
    q ← getq;
    dwhen ((shutdown_hold q =? 0) && negb (slot0 q =? 0))
      (frame_get (slot0 q);; modq (set_shutdown_hold (slot0 q)));;
    dec_frame_defer_release (slot0 q);;
    modq clear_queue.

Definition refresh_state5 : D unit :=
  q ← getq;
  if counting_down q then dec_frame_queue_repeat
  else
    dec_frame_defer_release (shutdown_hold q);;
    q ← getq;
    dwhen (negb (slot0 q =? 0)) (dec_frame_defer_release (slot0 q));;
    q ← getq;
    dwhen (negb (last_released q =? 0)) (release_in (last_released q));;
    modq (set_last_released 0);;
    modq (set_shutdown_hold 0);;
    modq (set_slot0 0);;
    modm (set_fm_state 0);;
    dec_frame_queue_hardware_repeat_ctrl 0;;
    dec_frame_recycle.

Definition dec_frame_queue_refresh : D unit :=
  modm (set_refresh_scheduled false);;
  lock_queue;;
  m ← getm; q ← getq;
  (if fm_state m =? 1 then dwhen (dirty q =? 0) refresh_running
   else if fm_state m =? 3 then dwhen (dirty q =? 0) refresh_state3
   else if fm_state m =? 4 then dwhen (dirty q =? 0) refresh_state4
   else if fm_state m =? 5 then dwhen (dirty q =? 0) refresh_state5
   else mret tt);;
  unlock_queue;;
  m ← getm;
  dwhen (fm_state m =? 0) (dmod (fun s => set_wakeups (wakeups s + 1) s)).

(** ** The manager *)

Definition new_queue : dec_frame_queue :=
  FrameQueue false 0 0 0 0 0 0 0 0 0 0 0 0 0 [] false false 0 0 0 0 0 0 0 4 0.

Definition new_manager : dec_frame_manager :=
  FrameManager 0 0 0 0 false [] 0 0 0 false [] 0 0.

(** 1, or 0 when an allocation failed (and nothing was kept) *)
Definition dec_frame_manager_init : D Z :=
  ok ← attempt;                             (* kzalloc of fmgr *)
  if negb ok then mret 0 else
  ok ← attempt;                             (* kzalloc of q *)
  if negb ok then mret 0 else
  ok ← attempt;                             (* the release fifo *)
  if negb ok then mret 0 else
  ok ← attempt;                             (* the recycle fifo *)
  if negb ok then mret 0 else
  dmod (set_fmgr (Some new_manager));;
  dmod (set_queue (Some new_queue));;
  mret 1.

(** The work that is flushed is the manager's, which is never queued. *)
Definition dec_frame_manager_exit : D Z :=
  o ← dget fmgr;
  match o with
  | None => mret 0
  | Some _ =>
      dmod (set_tasklet_pending false);;    (* tasklet_kill *)
      dmod (set_queue None);;
      dec_frame_manager_free;;
      dmod (set_fmgr None);;
      mret 0
  end.

(** [others] is what the other contexts do while the caller sleeps in
    wait_event_timeout; what counts is the state when the wait ends. *)
Definition dec_frame_manager_stop (others : D unit) : D Z :=
  o ← dget fmgr;
  match o with
  | None => mret 0
  | Some m =>
      dwhen ((fm_state m =? 1) || (fm_state m =? 2))
        (modm (set_fm_request 1);; modm (set_fm_state 3));;
      m ← getm;
      dwhen (negb (fm_state m =? 0))
        (others;;
         m ← getm;
         dwhen (fm_state m =? 0) dec_frame_manager_free);;
      mret 0
  end.

Definition dec_frame_manager_handle_vsync : D unit :=
  o ← dget fmgr; match o with None => mret tt | Some _ => dec_vsync_process end.

(** [fmgr->seqno++] *)
Definition next_seqno : D Z :=
  m ← getm; modm (set_fm_seqno (u32 (fm_seqno m + 1)));; mret (fm_seqno m).

(** A frame that will release [item], or 0 *)
Definition frame_for (n item : Z) : D Z :=
  vf ← dec_create_video_frame n;
  if vf =? 0 then mret 0 else
  mod_frame vf (set_payload item);;
  mod_frame vf (set_vf_release true);;
  mret vf.

(** Create a frame for [item] and put it at the end of the ready list. *)
Definition enqueue_ready (item : Z) : D Z :=
  n ← next_seqno;
  vf ← frame_for n item;
  if vf =? 0 then mret (-12) else
  lock_ready;;
  modm (fun m => set_ready_list (ready_list m ++ [vf]) m);;
  modm (fun m => set_ready_count (u32 (ready_count m + 1)) m);;
  unlock_ready;;
  mret 0.

Definition dec_frame_manager_enqueue_frame (item : Z) : D Z :=
  r ← enqueue_ready item;
  if negb (r =? 0) then mret r else
  dec_frame_queue_resume;; mret 0.

(** One field of the old pair goes to the recycle fifo. *)
Definition recycle_in (vf : Z) : D unit :=
  dwhen (negb (vf =? 0)) (modm (fun m => set_recycle_fifo (kfifo_in (recycle_fifo m) vf) m)).

Definition replace_pair (top_vf bot_vf : Z) : D unit :=
  lock_ready;;
  modm (set_force_interlace 1);;
  m ← getm;
  recycle_in (pair0 m);;
  recycle_in (pair1 m);;
  modm (set_pair0 top_vf);;
  modm (set_pair1 bot_vf);;
  unlock_ready.

Definition dec_frame_manager_enqueue_interlace_frame (top bottom : Z) : D Z :=
  m ← getm;
  if negb (fm_type m =? 1) then mret (-22) else
  n ← next_seqno; top_vf ← dec_create_video_frame n;
  n ← next_seqno; bot_vf ← dec_create_video_frame n;
  if (top_vf =? 0) || (bot_vf =? 0) then
    video_frame_put top_vf;; video_frame_put bot_vf;; mret (-12)
  else
    mod_frame top_vf (set_payload top);;
    mod_frame top_vf (set_vf_release true);;
    mod_frame bot_vf (set_payload bottom);;
    mod_frame bot_vf (set_vf_release true);;
    replace_pair top_vf bot_vf;;
    queue_release_work;;
    dec_frame_queue_resume;;
    mret 0.

Definition dec_frame_manager_register_sync_cb : D Z :=
  lock_queue;; modq (set_q_dec true);; unlock_queue;; mret 0.

Definition dec_frame_manager_register_repeat_ctrl_pfn : D Z :=
  lock_queue;; modq (set_repeat_ctrl_cb true);; unlock_queue;; mret 0.

End Queue.
