(* ===== verification/DecdDevice.v ===== *)
(** The device side of the decoder display driver: the vsync interrupt and its
    ring of timestamps, power-up and power-down (src/drivers/decd/decd_hw.c),
    the entry points of the ioctls (src/drivers/decd/decd_ioctl.c), the pool of
    video info pages and the exported buffers (src/drivers/decd/decd_frame.c),
    and the initialisation (src/drivers/decd/decd_core.c). *)
From S2P Require Import Prelude Mem DecdRegs Decd DecdItem DecdQueue.

(** ** The ring of vsync timestamps *)

Definition DECD_VSYNC_RING_LEN : Z := 8.

(** The part of dec_vsync_handler under the ring's lock *)
Definition vsync_put (now : Z) (r : dec_vsync_ring) : dec_vsync_ring :=
  let next := u32 (vs_wr r + 1) &. (DECD_VSYNC_RING_LEN - 1) in
  let ts := <[Z.to_nat next := now]> (vs_ts r) in
  if next =? vs_rd r
  then VsyncRing ts (u32 (vs_rd r + 1) &. (DECD_VSYNC_RING_LEN - 1)) next
  else VsyncRing ts (vs_rd r) next.

(** The part of dec_vsync_timestamp_get under the lock *)
Definition vsync_get (r : dec_vsync_ring) : option (Z * dec_vsync_ring) :=
  if vs_rd r =? vs_wr r then None
  else
    let next := u32 (vs_rd r + 1) &. (DECD_VSYNC_RING_LEN - 1) in
    Some (nth (Z.to_nat next) (vs_ts r) 0, VsyncRing (vs_ts r) next (vs_wr r)).

(** The part of dec_event_poll under the lock: EPOLLIN | EPOLLRDNORM or 0 *)
Definition vsync_readable (r : dec_vsync_ring) : Z :=
  if vs_rd r =? vs_wr r then 0 else 1 |. 64.

(** ** The interrupt *)

(** [jiffies_hist[i] = v]: the array has 100 words, then come [jiffies_pos] and
    the work. *)
Definition store_hist (i v : Z) (d : dec_debug_info) : dec_debug_info :=
  if i <? 100 then set_jiffies_hist (<[Z.to_nat i := u32 v]> (jiffies_hist d)) d
  else if i =? 100 then set_jiffies_pos (u32 v) d
  else set_dbg_work_data (u32 v) d.

Definition track_jiffies (jiffies : Z) (d : dec_debug_info) : dec_debug_info :=
  let jpos := jiffies_pos d in
  let d := store_hist (u32 (jpos + 2)) jiffies d in
  let jpos := u32 (jpos + 1) in
  let jpos := if 100 <=? jpos then 0 else jpos in
  let d := set_jiffies_pos jpos d in
  set_dbg_irq_count (u32 (dbg_irq_count d + 1)) d.

Section Device.
Context `{K : DecKernel}.

(** IRQ_NONE (0) or IRQ_HANDLED (1); [now] is what ktime_get_ns returns. *)
Definition dec_vsync_handler (now jiffies : Z) : D Z :=
  rb ← dget regs;
  let '(raised, rb) := dec_irq_query rb in
  dmod (set_regs rb);;
  if raised =? 0 then mret 0 else
  dmod (fun s => set_vsync (vsync_put now (vsync s)) s);;
  o ← dget debug;
  match o with
  | Some d => dmod (set_debug (Some (track_jiffies jiffies d)))
  | None => mret tt
  end;;
  dec_frame_manager_handle_vsync;;
  dmod (fun s => set_dec_vsync_counter (u32 (dec_vsync_counter s + 1)) s);;
  mret 1.

(** 0 and the timestamp, or -EAGAIN *)
Definition dec_vsync_timestamp_get : D (Z * Z) :=
  r ← dget vsync;
  match vsync_get r with
  | None => mret (-11, 0)
  | Some (ts, r) => dmod (set_vsync r);; mret (0, ts)
  end.

Definition dec_event_poll : D Z := dget (fun s => vsync_readable (vsync s)).

(** ** Power *)

Definition enable_irq (n : Z) : D unit := dmod (fun s => set_irq_depth (irq_depth s + n) s).
Definition deassert_reset (n : Z) : D unit :=
  dmod (fun s => set_reset_deasserted (reset_deasserted s + n) s).
Definition bus_clock (n : Z) : D unit := dmod (fun s => set_clk_bus_disp (clk_bus_disp s + n) s).
Definition afbd_clock (n : Z) : D unit := dmod (fun s => set_clk_afbd (clk_afbd s + n) s).
Definition on_regs (f : option reg_block -> option reg_block) : D unit :=
  dmod (fun s => set_regs (f (regs s)) s).

(** Once the clocks run *)
Definition enable_display : D Z :=
  enable_irq 1;;
  ok ← dec_frame_manager_init;
  if ok =? 0 then
    enable_irq (-1);; afbd_clock (-1);; bus_clock (-1);; deassert_reset (-1);; mret (-22)
  else
    dec_frame_manager_register_sync_cb;;
    dec_frame_manager_register_repeat_ctrl_pfn;;
    on_regs (fun r => dec_reg_top_enable r true);;
    on_regs dec_decoder_display_init;;
    dmod (set_enabled true);;
    mret 0.

(** A failing external call returns [-5]. *)
Definition power_up : D Z :=
  ok ← attempt;                           (* reset_control_deassert *)
  if negb ok then mret (-5) else
  deassert_reset 1;;
  ok ← attempt;                           (* clk_prepare_enable(clk_bus_disp) *)
  if negb ok then deassert_reset (-1);; mret (-5) else
  bus_clock 1;;
  ok ← attempt;                           (* clk_prepare_enable(clk_afbd) *)
  if negb ok then bus_clock (-1);; deassert_reset (-1);; mret (-5) else
  afbd_clock 1;;
  enable_display.

Definition dec_enable : D Z :=
  lock_dec;;
  on ← dget enabled;
  ret ← (if (on : bool) then mret 0 else power_up);
  unlock_dec;;
  mret ret.

Definition dec_disable (others : D unit) : D Z :=
  lock_dec;;
  on ← dget enabled;
  dwhen on
    (dec_frame_manager_stop others;;
     enable_irq (-1);;
     dec_frame_manager_exit;;
     dmod (set_fmgr None);;
     on_regs dec_reg_int_to_display;;
     on_regs (fun r => dec_reg_enable r false);;
     deassert_reset (-1);;
     bus_clock (-1);;
     afbd_clock (-1);;
     dmod (set_enabled false));;
  unlock_dec;;
  mret 0.

(** ** Submitting frames *)

Definition dec_stop_video_stream (others : D unit) : D Z :=
  lock_dec;;
  on ← dget enabled;
  ret ← (if (on : bool) then dec_frame_manager_stop others else mret 0);
  unlock_dec;;
  mret ret.

(** [do { ... } while (repeat-- > 1)] *)
Fixpoint submit_loop (fuel : nat) (item repeat : Z) : D unit :=
  match fuel with
  | O => halt OutOfFuel
  | S n =>
      item_get item;;
      dec_frame_manager_enqueue_frame item;;
      if 1 <? repeat then submit_loop n item (repeat - 1) else mret tt
  end.

Definition submit_frame (desc : dec_frame_submit_desc) (repeat : Z) : D Z :=
  item ← frame_item_create desc;
  if item =? 0 then mret (-1) else
  submit_loop (Z.to_nat (Z.max 1 repeat)) item repeat;;
  it ← deref items item;
  fd ← dec_fence_fd_create (fence it);
  frame_item_release item;;
  mret fd.

Definition show_stream (blue : Z) : D unit :=
  on_regs (fun r => dec_reg_blue_en r (negb (blue =? 0)));;
  on_regs (fun r => dec_reg_enable r true).

(** The result and what is left in [*release_fence_fd]. *)
Definition dec_frame_submit (desc : dec_frame_submit_desc) (repeat : Z) : D (Z * Z) :=
  lock_dec;;
  on ← dget enabled;
  fd ← (if (on : bool) then
          fd ← (if blue_en desc =? 0 then submit_frame desc repeat else mret (-1));
          show_stream (blue_en desc);;
          mret fd
        else mret (-1));
  unlock_dec;;
  mret (0, fd).

Definition setup_pair (top bottom : dec_frame_submit_desc) : D unit :=
  dec_frame_manager_set_stream_type 1;;
  t ← frame_item_create top;
  b ← frame_item_create bottom;
  if (t =? 0) || (b =? 0) then frame_item_release t;; frame_item_release b
  else dec_frame_manager_enqueue_interlace_frame t b;; mret tt.

Definition dec_interlace_setup (top bottom : dec_frame_submit_desc) : D Z :=
  lock_dec;;
  on ← dget enabled;
  dwhen on
    (dwhen (blue_en top =? 0) (setup_pair top bottom);;
     show_stream (blue_en top));;
  unlock_dec;;
  mret 0.

(** ** Exported buffers *)

Definition PAGE_ALIGN (n : Z) : Z := bic (n + 4095) 4095.

(** [video_buffer_map]: 0 and the dma address, or an error.  The driver exports
    the buffer to itself: its own attach callback clones the scatter list with
    the address 0, and its map callback hands that clone out unchanged. *)
Definition video_buffer_map (phys size : Z) : D (Z * Z) :=
  dev ← dget video_buffer_dev;
  if negb dev || (size <=? 0) then mret (-22, 0) else
  ok ← attempt;                            (* kzalloc *)
  if negb ok then mret (-12, 0) else
  let aligned_size := PAGE_ALIGN size in
  ok ← attempt;                            (* sg_alloc_table *)
  if negb ok then mret (-12, 0) else
  ok ← attempt;                            (* dma_buf_export *)
  if negb ok then mret (-12, 0) else
  ok ← attempt;                            (* dma_buf_attach *)
  if negb ok then mret (-12, 0) else
  ok ← attempt;                            (* dma_buf_map_attachment *)
  if negb ok then mret (-12, 0) else
  let dma_addr := 0 in
  dmod (set_video_buffer_last (aligned_size, phys, dma_addr));;
  dmod (fun s => set_video_buffer_exports
          (video_buffer_exports s ++ [BufferExport phys aligned_size dma_addr]) s);;
  mret (0, dma_addr).

(** Take the first export with this address off the list. *)
Fixpoint unmap_export (a : Z) (l : list video_buffer_export) : option (list video_buffer_export) :=
  match l with
  | [] => None
  | e :: l =>
      if ve_dma_addr e =? a then Some l
      else match unmap_export a l with Some l' => Some (e :: l') | None => None end
  end.

Definition video_buffer_unmap (dma_addr : Z) : D Z :=
  l ← dget video_buffer_exports;
  match unmap_export dma_addr l with
  | None => mret (-2)
  | Some l' =>
      dmod (set_video_buffer_exports l');;
      '(size, phys, last) ← dget video_buffer_last;
      dwhen (last =? dma_addr) (dmod (set_video_buffer_last (size, phys, 0)));;
      mret 0
  end.

(** ** The ioctls *)

Definition DECD_IOC_STOP_VIDEO_STREAM : Z := 0x40046408.
Definition DECD_IOC_BYPASS_CONFIG : Z := 0x40046409.
Definition DECD_IOC_PM_HINT : Z := 0x40046401.
Definition DECD_IOC_FRAME_SUBMIT : Z := 0x40706400.
Definition DECD_IOC_INTERLACE_SETUP : Z := 0x40706407.
Definition DECD_IOC_GET_VSYNC_TS : Z := 0x8008640a.
Definition DECD_IOC_MAP_LINEAR_BUFFER : Z := 0xc010640b.

(** What the code reads of the caller's memory: the header and what its
    pointers refer to. *)
Record ioctl_args := IoctlArgs {
  hdr_user_ptr : Z;
  hdr_arg1 : Z;
  arg_submit : dec_frame_submit_desc;
  arg_top : dec_frame_submit_desc;
  arg_bottom : dec_frame_submit_desc;
  arg_phys : Z;
  arg_size : Z;
}.

(** copy_from_user and copy_to_user may fault. *)
Definition user_copy (m : D (Z * option Z)) : D (Z * option Z) :=
  ok ← attempt; if (ok : bool) then m else mret (-14, None).

(** Power management hints start [dec_enable] and [dec_disable] through the
    runtime PM core, which decides when: they are the argument [pm]. *)
Definition dec_ioctl_file (pm : bool -> D unit) (others : D unit) (cmd : Z) (a : ioctl_args) :
  D (Z * option Z) :=
  user_copy
  (if cmd =? DECD_IOC_STOP_VIDEO_STREAM then
    ret ← dec_stop_video_stream others; mret (ret, None)
  else if cmd =? DECD_IOC_BYPASS_CONFIG then
    on_regs (fun r => dec_reg_bypass_config r (u32 (hdr_user_ptr a)));; mret (0, None)
  else if cmd =? DECD_IOC_PM_HINT then
    pm (negb (hdr_user_ptr a =? 0));; mret (0, None)
  else if cmd =? DECD_IOC_GET_VSYNC_TS then
    '(ret, ts) ← dec_vsync_timestamp_get;
    if negb (ret =? 0) then mret (ret, None) else
    user_copy (mret (0, Some ts))
  else if cmd =? DECD_IOC_MAP_LINEAR_BUFFER then
    user_copy
      ('(ret, dma) ← video_buffer_map (u32 (arg_phys a)) (s32 (arg_size a));
       if negb (ret =? 0) then mret (ret, None) else
       user_copy (mret (0, Some dma)))
  else if cmd =? DECD_IOC_FRAME_SUBMIT then
    user_copy
      ('(ret, fd) ← dec_frame_submit (arg_submit a) (s32 (hdr_arg1 a));
       if negb (ret =? 0) then mret (ret, None) else
       user_copy (mret (0, Some fd)))
  else if cmd =? DECD_IOC_INTERLACE_SETUP then
    user_copy (ret ← dec_interlace_setup (arg_top a) (arg_bottom a); mret (ret, None))
  else mret (0, None)).

(** read(2): the size of a timestamp or an error, and the timestamp *)
Definition dec_read_file (len : Z) : D (Z * option Z) :=
  if len <? 8 then mret (-22, None) else
  '(ret, ts) ← dec_vsync_timestamp_get;
  if negb (ret =? 0) then mret (-11, None) else
  user_copy (mret (8, Some ts)).

(** ** Initialisation *)

(** One descriptor per page of the reserved memory *)
Fixpoint add_pages (n : nat) (i base : Z) : D Z :=
  match n with
  | O => mret 0
  | S n =>
      page ← kzalloc;
      if page =? 0 then mret (-12) else
      dmod (fun s => set_pages (<[page := InfoPage (base + i * 4096) i 0 ∅]> (pages s)) s);;
      dmod (fun s => set_free_pages (free_pages s ++ [page]) s);;
      add_pages n (i + 1) base
  end.

(** [rmem]: base and size of the region of the device tree, if it has one *)
Definition video_info_memory_block_init (rmem : option (Z * Z)) : D Z :=
  match rmem with
  | None => mret (-19)
  | Some (base, size) =>
      let nr_pages := (size + 4095) / 4096 in
      ok ← attempt;                         (* vmalloc of the page array *)
      if negb ok then mret (-12) else
      ok ← attempt;                         (* vmap *)
      if negb ok then mret (-12) else
      dmod (set_free_pages []);;
      dmod (set_used_pages []);;
      add_pages (Z.to_nat nr_pages) 0 base
  end.

(** list_del and kfree of every page of a list *)
Fixpoint kfree_pages (l : list Z) : D unit :=
  match l with
  | [] => mret tt
  | p :: l =>
      v ← deref pages p;
      dmod (fun s => set_pages (delete p (pages s)) s);;
      kfree_pages l
  end.

Definition video_info_memory_block_exit : D unit :=
  free ← dget free_pages; kfree_pages free;;
  used ← dget used_pages; kfree_pages used;;
  dmod (set_free_pages []);;
  dmod (set_used_pages []).

End Device.

(** The device after a successful probe, before anything else ran: the
    registers are mapped and clear, the reserved memory has [n] pages. *)
Definition cold : dec_state :=
  {| fmgr := None; queue := None; last_frame := 0; frames := ∅; items := ∅; fences := ∅;
     fence_fds := []; fence_seqno := 0; fence_ctx := true; pages := ∅; free_pages := [];
     used_pages := []; dma_refs := []; dma_attached := []; dma_mapped := [];
     regs := Some (RegBlock 0x1000000 0x2000000 0x2000060 0 ∅);
     debug := Some (DebugInfo 0 (replicate 100 0) 0 0 ∅ 0 0); g_dec := true;
     vsync := VsyncRing (replicate 8 0) 0 0; iommu_debug := false; invert_field := false;
     dec_vsync_counter := 0; enabled := false; dec_locked := false; reset_deasserted := 0;
     clk_bus_disp := 0; clk_afbd := 0; irq_depth := 0; tasklet_pending := false;
     release_pending := false; wakeups := 0; video_buffer_dev := false;
     video_buffer_exports := []; video_buffer_last := (0, 0, 0); next_addr := 4096;
     calls := 0 |}.

Definition final {A} (r : dec_result A) : dec_state :=
  match r with Done _ s => s | Halt _ => cold end.

Definition probed `{DecKernel} : dec_state :=
  final (video_info_memory_block_init (Some (0x4d941000, 16384)) cold).
