(* ===== verification/DecdTyped.v ===== *)
(** The C types of the decoder display driver (src/drivers/decd/decd_types.h):
    every field of the model that is a machine integer in the code stays within
    the range of its type, every array keeps its length and every kfifo its
    capacity, whatever entry points run, on progressive and interlaced streams
    alike.

    [preserves m] says that a well-typed state stays well-typed over [m]; the
    lemmas follow the call graph, each an instance of the rules of the monad,
    collected in the hint database [typed]. *)
From S2P Require Import Prelude Mem DecdRegs Decd DecdItem DecdQueue DecdDevice.

(** ** Ranges *)

Definition in_u32 (z : Z) : Prop := 0 <= z < 2 ^ 32.
Definition in_u64 (z : Z) : Prop := 0 <= z < 2 ^ 64.

Record typed_item (it : dec_frame_item) : Prop := {
  ti_y : in_u64 (y_addr it);
  ti_y_aux : in_u32 (y_aux it);
  ti_c : in_u64 (c_addr it);
  ti_c_aux : in_u32 (c_aux it);
  ti_info : in_u32 (video_info_addr it);
  ti_format : in_u32 (format_shadow it);
  ti_y_alt : in_u64 (y_addr_alt it);
  ti_c_alt : in_u64 (c_addr_alt it);
}.

Record typed_queue (q : dec_frame_queue) : Prop := {
  tq_dirty : in_u32 (dirty q);
  tq_interlace : in_u32 (interlace q);
  tq_toggle : in_u32 (toggle q);
  tq_pattern : in_u32 (field_pattern q);
  tq_current : in_u32 (repeat_current q);
  tq_budget : in_u32 (repeat_budget q);
  tq_mode : in_u32 (repeat_mode q);
  tq_pending : in_u32 (repeat_pending q);
  tq_hw : in_u32 (hw_repeat q);
  tq_prev : in_u32 (hw_repeat_prev q);
  tq_req : in_u32 (hw_repeat_req q);
  tq_counter : in_u32 (shutdown_counter q);
  tq_soft : in_u32 (soft_repeat_count q);
  tq_fifo : (length (release_fifo q) <= fifo_elems)%nat;
}.

(** The state machine has the states 0 to 5 and the stream types 0 and 1. *)
Record typed_manager (m : dec_frame_manager) : Prop := {
  tm_seqno : in_u32 (fm_seqno m);
  tm_state : 0 <= fm_state m <= 5;
  tm_request : in_u32 (fm_request m);
  tm_type : 0 <= fm_type m <= 1;
  tm_count : in_u32 (ready_count m);
  tm_force : in_u32 (force_interlace m);
  tm_irqs : in_u64 (irq_count m);
  tm_fifo : (length (recycle_fifo m) <= fifo_elems)%nat;
}.

Record typed_ring (r : dec_vsync_ring) : Prop := {
  tr_len : length (vs_ts r) = 8%nat;
  tr_ts : Forall in_u64 (vs_ts r);
  tr_rd : 0 <= vs_rd r < DECD_VSYNC_RING_LEN;
  tr_wr : 0 <= vs_wr r < DECD_VSYNC_RING_LEN;
}.

Record typed_debug (d : dec_debug_info) : Prop := {
  td_irqs : in_u32 (dbg_irq_count d);
  td_len : length (jiffies_hist d) = 100%nat;
  td_hist : Forall in_u32 (jiffies_hist d);
  td_pos : in_u32 (jiffies_pos d);
  td_words : map_Forall (fun _ v => in_u32 v) (dbgdat d);
  td_frame : in_u32 (frame_trace_pos d);
  td_exc : in_u32 (exception_trace_pos d);
}.

Definition typed_frame (v : dec_video_frame) : Prop := in_u32 (seqnum v).
Definition typed_fence (f : dec_fence) : Prop := in_u32 (df_seqno f).

Definition opt_all {A} (P : A -> Prop) (o : option A) : Prop :=
  match o with Some a => P a | None => True end.

Record typed (s : dec_state) : Prop := {
  ts_fmgr : opt_all typed_manager (fmgr s);
  ts_queue : opt_all typed_queue (queue s);
  ts_frames : map_Forall (fun _ => typed_frame) (frames s);
  ts_items : map_Forall (fun _ => typed_item) (items s);
  ts_fences : map_Forall (fun _ => typed_fence) (fences s);
  ts_seqno : in_u32 (fence_seqno s);
  ts_debug : opt_all typed_debug (debug s);
  ts_ring : typed_ring (vsync s);
  ts_vsyncs : in_u32 (dec_vsync_counter s);
}.

(** What the ioctls get from user space *)
Definition typed_desc (d : dec_frame_submit_desc) : Prop := in_u64 (y_phys d) /\ in_u64 (c_phys d).

(** ** The rules *)

Definition preserves {A} (m : D A) : Prop :=
  forall s, typed s -> after m (fun _ s' => typed s') s.

Lemma pres_ret {A} (a : A) : preserves (mret a).
Proof. by intros s Hs. Qed.
Lemma pres_halt {A} r : preserves (@halt A r).
Proof. by intros s Hs. Qed.
Lemma pres_dget {A} (f : dec_state -> A) : preserves (dget f).
Proof. by intros s Hs. Qed.

Lemma pres_bind {A B} (m : D A) (k : A -> D B) :
  preserves m -> (forall a, preserves (k a)) -> preserves (m ≫= k).
Proof. intros H Hk s Hs. eapply after_bind; [by apply H|]. cbv beta. intros a s' Hs'. by apply Hk. Qed.

Lemma pres_if {A} (b : bool) (m n : D A) :
  preserves m -> preserves n -> preserves (if b then m else n).
Proof. by destruct b. Qed.

Lemma pres_when b m : preserves m -> preserves (dwhen b m).
Proof. intros H. destruct b; [done | apply pres_ret]. Qed.

(** What is read is well-typed. *)
Lemma pres_item {A} p (k : dec_frame_item -> D A) :
  (forall it, typed_item it -> preserves (k it)) -> preserves (deref items p ≫= k).
Proof.
  intros Hk s Hs. unfold deref, after, mbind, D_bind. destruct (items s !! p) as [it|] eqn:E; [|done].
  apply Hk; [|done]. exact (ts_items _ Hs _ _ E).
Qed.

Lemma pres_fence {A} p (k : dec_fence -> D A) :
  (forall f, typed_fence f -> preserves (k f)) -> preserves (deref fences p ≫= k).
Proof.
  intros Hk s Hs. unfold deref, after, mbind, D_bind. destruct (fences s !! p) as [f|] eqn:E; [|done].
  apply Hk; [|done]. exact (ts_fences _ Hs _ _ E).
Qed.

Lemma pres_deref {A} (h : dec_state -> gmap Z A) p : preserves (deref h p).
Proof. intros s Hs. unfold deref, after. by destruct (h s !! p). Qed.

Lemma pres_getq {A} (k : dec_frame_queue -> D A) :
  (forall q, typed_queue q -> preserves (k q)) -> preserves (getq ≫= k).
Proof.
  intros Hk s Hs. unfold getq, after, mbind, D_bind. pose proof (ts_queue _ Hs) as Hq.
  destruct (queue s) as [q|]; [|done]. by apply Hk.
Qed.

Lemma pres_getm {A} (k : dec_frame_manager -> D A) :
  (forall m, typed_manager m -> preserves (k m)) -> preserves (getm ≫= k).
Proof.
  intros Hk s Hs. unfold getm, after, mbind, D_bind. pose proof (ts_fmgr _ Hs) as Hm.
  destruct (fmgr s) as [m|]; [|done]. by apply Hk.
Qed.

Lemma pres_modq f : (forall q, typed_queue q -> typed_queue (f q)) -> preserves (modq f).
Proof.
  intros Hf s Hs. unfold modq, after. pose proof (ts_queue _ Hs) as Hq.
  destruct (queue s) as [q|]; [|done]. destruct Hs; split; try done. by apply Hf.
Qed.

Lemma pres_modm f : (forall m, typed_manager m -> typed_manager (f m)) -> preserves (modm f).
Proof.
  intros Hf s Hs. unfold modm, after. pose proof (ts_fmgr _ Hs) as Hm.
  destruct (fmgr s) as [m|]; [|done]. destruct Hs; split; try done. by apply Hf.
Qed.

Lemma pres_mod_item p f : (forall it, typed_item it -> typed_item (f it)) -> preserves (mod_item p f).
Proof.
  intros Hf. apply pres_item. intros it Hit s Hs. destruct Hs; split; try done.
  apply map_Forall_insert_2; auto.
Qed.

Lemma pres_dmod f : (forall s, typed s -> typed (f s)) -> preserves (dmod f).
Proof. intros Hf s Hs. by apply Hf. Qed.

Lemma pres_get_debug {A} (k : option dec_debug_info -> D A) :
  (forall o, opt_all typed_debug o -> preserves (k o)) -> preserves (dget debug ≫= k).
Proof. intros Hk s Hs. cbn. apply Hk; [apply Hs | done]. Qed.

Lemma pres_set_debug d : typed_debug d -> preserves (dmod (set_debug (Some d))).
Proof. intros Hd s Hs. destruct Hs. by split. Qed.
(** A call whose result fits in 32 bits *)
Definition gives_u32 (m : D Z) : Prop := forall s, typed s -> after m (fun a s' => in_u32 a /\ typed s') s.

Lemma pres_u32 {A} m (k : Z -> D A) :
  gives_u32 m -> (forall a, in_u32 a -> preserves (k a)) -> preserves (m ≫= k).
Proof.
  intros H Hk s Hs. eapply after_bind; [by apply H|]. cbv beta. intros a s' [Ha Hs']. by apply Hk.
Qed.

Lemma gives_bind {A} (m : D A) k : preserves m -> (forall a, gives_u32 (k a)) -> gives_u32 (m ≫= k).
Proof. intros H Hk s Hs. eapply after_bind; [by apply H|]. cbv beta. intros a s' Hs'. by apply Hk. Qed.

Lemma gives_ret z : in_u32 z -> gives_u32 (mret z).
Proof. by intros Hz s Hs. Qed.

Lemma gives_if (b : bool) m n : gives_u32 m -> gives_u32 n -> gives_u32 (if b then m else n).
Proof. by destruct b. Qed.

Lemma pres_attempt `{K : DecKernel} : preserves attempt.
Proof. intros s Hs. by destruct Hs. Qed.

Lemma pres_user_copy `{K : DecKernel} m : preserves m -> preserves (user_copy m).
Proof. intros H. apply pres_bind; [apply pres_attempt|]. intros []; [done | apply pres_ret]. Qed.

(** ** The ranges, and the tactic that walks through a function *)

Lemma in_u32_u32 z : in_u32 (u32 z).
Proof. apply u32_range. Qed.
Lemma u32_u64 z : in_u32 z -> in_u64 z.
Proof. unfold in_u32, in_u64. lia. Qed.
Lemma in_u32_lor a b : in_u32 a -> in_u32 b -> in_u32 (a |. b).
Proof. intros [Ha Ha'] [Hb Hb']. apply lor_range; done. Qed.
Lemma in_u32_lxor a b : in_u32 a -> in_u32 b -> in_u32 (Z.lxor a b).
Proof.
  intros [Ha Ha'] [Hb Hb']. assert (Hn : 0 <= Z.lxor a b) by (apply Z.lxor_nonneg; lia).
  split; [done|]. destruct (Z.eqb_spec (Z.lxor a b) 0) as [->|Hz]; [done|].
  apply Z.log2_lt_pow2; [lia|]. pose proof (Z.log2_lxor a b Ha Hb).
  assert (Hl : forall x, 0 <= x -> x < 2 ^ 32 -> Z.log2 x < 32).
  { intros x Hx Hx'. destruct (Z.eqb_spec x 0) as [->|]; [done|]. apply Z.log2_lt_pow2; lia. }
  pose proof (Hl a Ha Ha'). pose proof (Hl b Hb Hb'). lia.
Qed.

Create HintDb typed.
Create HintDb gives.
#[export] Hint Resolve in_u32_u32 u32_u64 in_u32_lor in_u32_lxor pres_ret pres_halt pres_dget
  pres_deref pres_attempt pres_set_debug : typed.

#[export] Hint Extern 1 (_ <= _ <= _) => lia : typed.
#[export] Hint Extern 2 (in_u32 _) => (unfold in_u32; lia) : typed.

(** The fields of an updated record *)
Ltac in_range :=
  first [ assumption
        | match goal with |- _ (if ?b then _ else _) => destruct b; in_range end
        | solve [eauto with typed] | unfold in_u32, in_u64; cbn; lia ].
Ltac typed_upd :=
  intros;
  repeat match goal with
  | H : typed_item _ |- _ => destruct H
  | H : typed_queue _ |- _ => destruct H
  | H : typed_manager _ |- _ => destruct H
  | H : typed_ring _ |- _ => destruct H
  end; split; cbn; in_range.
(** A change of the state outside the typed components, or a heap *)
Ltac typed_state :=
  let H := fresh in intros ? H; destruct H; split; cbn;
  first [ assumption | done
        | apply map_Forall_insert_2; [unfold typed_frame, typed_fence in *; cbn; in_range | assumption]
        | apply map_Forall_delete; assumption | in_range ].

Ltac pres :=
  lazymatch goal with
  | |- preserves (mbind _ (deref items _)) => apply pres_item; intros ? ?; pres
  | |- preserves (mbind _ (deref fences _)) => apply pres_fence; intros ? ?; pres
  | |- preserves (mbind _ (dget debug)) => apply pres_get_debug; intros ? ?; pres
  | |- preserves (mbind _ getq) => apply pres_getq; intros ? ?; pres
  | |- preserves (mbind _ getm) => apply pres_getm; intros ? ?; pres
  | |- preserves (mbind _ _) =>
      first [ apply pres_u32; [solve [eauto with gives] | intros ? ?; pres]
            | apply pres_bind; [pres | intros ?; pres] ]
  | |- preserves (modq _) => apply pres_modq; try typed_upd
  | |- preserves (modm _) => apply pres_modm; try typed_upd
  | |- preserves (mod_item _ _) => apply pres_mod_item; try typed_upd
  | |- preserves (dmod _) => first [ solve [eauto with typed] | apply pres_dmod; try solve [typed_state] ]
  | |- preserves (user_copy _) => apply pres_user_copy; pres
  | |- preserves (dwhen _ _) => apply pres_when; pres
  | |- preserves (let x := _ in _) => cbv zeta; pres
  | |- preserves (match ?x with _ => _ end) => destruct x eqn:?; pres
  | |- _ => try solve [eauto with typed]
  end.

(** ** Items (decd_frame.c, decd_fence.c) *)

Section Typed.
Context `{K : DecKernel} {L : DecLaws K}.

Lemma kfifo_in_bound l x : (length l <= fifo_elems)%nat -> (length (kfifo_in l x) <= fifo_elems)%nat.
Proof.
  intros H. destruct (decide (length l < fifo_elems)%nat).
  - rewrite kfifo_in_room by done. rewrite length_app. cbn. lia.
  - by rewrite kfifo_in_full by lia.
Qed.

Lemma kfifo_out_bound l x r :
  (length l <= fifo_elems)%nat -> kfifo_out l = Some (x, r) -> (length r <= fifo_elems)%nat.
Proof.
  intros H E. destruct l as [|y l]; [by rewrite kfifo_out_nil in E|].
  rewrite kfifo_out_cons in E. injection E as -> ->. cbn in H. lia.
Qed.
Hint Resolve kfifo_in_bound kfifo_out_bound : typed.

Lemma pres_kzalloc : preserves kzalloc.
Proof. unfold kzalloc. pres. Qed.
Hint Resolve pres_kzalloc : typed.

Lemma pres_mod_page p f : preserves (mod_page p f).
Proof. unfold mod_page. pres. Qed.
Lemma pres_kfree_item p : preserves (kfree_item p).
Proof. unfold kfree_item. pres. Qed.
Lemma pres_kfree_fence p : preserves (kfree_fence p).
Proof. unfold kfree_fence. pres. Qed.
Lemma pres_dma_map fd : preserves (dec_dma_map fd).
Proof. unfold dec_dma_map, dma_buf_detach, dma_buf_put. pres. Qed.
Lemma pres_dma_unmap m : preserves (dec_dma_unmap m).
Proof. unfold dec_dma_unmap, dma_buf_unmap_attachment, dma_buf_detach, dma_buf_put. pres. Qed.
Lemma pres_fence_alloc : preserves dec_fence_alloc.
Proof. unfold dec_fence_alloc. pres. Qed.
Lemma pres_fence_signal f : preserves (dec_fence_signal f).
Proof. unfold dec_fence_signal. pres. Qed.
Lemma pres_fence_fd f : preserves (dec_fence_fd_create f).
Proof. unfold dec_fence_fd_create. pres. Qed.
Lemma pres_alloc_page : preserves alloc_video_info_page.
Proof. unfold alloc_video_info_page. pres. Qed.
Lemma pres_free_page p : preserves (free_video_info_page p).
Proof. unfold free_video_info_page. pres. Qed.
Hint Resolve pres_mod_page pres_kfree_item pres_kfree_fence pres_dma_map pres_dma_unmap
  pres_fence_alloc pres_fence_signal pres_fence_fd pres_alloc_page pres_free_page : typed.

Lemma info_init_u32 i : gives_u32 (video_info_buffer_init i).
Proof.
  unfold video_info_buffer_init. apply gives_if; [by apply gives_ret|].
  apply gives_bind; [pres|]. intros p. apply gives_if; [by apply gives_ret|].
  apply gives_bind; [pres|]. intros _. apply gives_bind; [pres|]. intros v.
  apply gives_ret, in_u32_u32.
Qed.

Lemma info_init_dmabuf_u32 i : gives_u32 (video_info_buffer_init_dmabuf i).
Proof.
  unfold video_info_buffer_init_dmabuf. apply gives_if; [by apply gives_ret|].
  apply gives_bind; [pres|]. intros it. destruct (info_map it); [|by apply gives_ret].
  apply gives_bind; [unfold info_access; pres|]. intros ok. apply gives_if; [by apply gives_ret|].
  apply gives_bind; [pres|]. intros p. apply gives_if; [by apply gives_ret|].
  do 5 (apply gives_bind; [pres | intros _]). apply gives_bind; [pres|]. intros v.
  apply gives_ret, in_u32_u32.
Qed.

Hint Resolve info_init_u32 info_init_dmabuf_u32 : gives.

Lemma typed_put_dbg i v d : typed_debug d -> typed_debug (put_dbg i v d).
Proof.
  intros [H1 H2 H3 H4 H5 H6 H7]. split; try done. apply map_Forall_insert_2; [apply in_u32_u32 | done].
Qed.
Lemma typed_set_frame_pos z d : typed_debug d -> typed_debug (set_frame_trace_pos (u32 z) d).
Proof. intros []. split; try done. apply in_u32_u32. Qed.
Lemma typed_set_exc_pos z d : typed_debug d -> typed_debug (set_exception_trace_pos (u32 z) d).
Proof. intros []. split; try done. apply in_u32_u32. Qed.
Lemma typed_trace_unmap l p a d : typed_debug d -> typed_debug (trace_unmap l p a d).
Proof. intros H. induction l; cbn; [done|]. case_match; [by apply typed_put_dbg | done]. Qed.
Hint Resolve typed_put_dbg typed_set_frame_pos typed_set_exc_pos typed_trace_unmap : typed.

Lemma pres_with_debug f : (forall d, typed_debug d -> typed_debug (f d)) -> preserves (with_debug f).
Proof.
  intros Hf s Hs. unfold with_debug, after, mbind, D_bind, dget. pose proof (ts_debug _ Hs) as Hd.
  destruct (debug s) as [d|] eqn:E; [|done]. destruct (g_dec s); cbn; [|done].
  destruct Hs; split; try done. by apply Hf.
Qed.

Lemma pres_trace_frame a f : preserves (dec_debug_trace_frame a f).
Proof.
  unfold dec_debug_trace_frame. apply pres_bind; [|intros; pres]. apply pres_with_debug.
  intros d Hd. cbv zeta. auto with typed.
Qed.

Lemma pres_trace_unmap i : preserves (dec_debug_trace_dma_buf_unmap i).
Proof.
  unfold dec_debug_trace_dma_buf_unmap. pres. apply pres_with_debug. intros. auto with typed.
Qed.
Lemma pres_trace_map i : preserves (dec_debug_trace_dma_buf_map i).
Proof.
  unfold dec_debug_trace_dma_buf_map. pres; subst; apply pres_set_debug; auto 10 with typed.
Qed.
Hint Resolve pres_trace_frame pres_trace_unmap pres_trace_map : typed.

Lemma pres_new_item p : preserves (dmod (fun s => set_items (<[p := new_item]> (items s)) s)).
Proof.
  apply pres_dmod. intros s []. split; try done. apply map_Forall_insert_2; [|done]. by split.
Qed.
Hint Resolve pres_new_item : typed.

Lemma pres_setup_fields i desc : preserves (setup_fields i desc).
Proof. unfold setup_fields, set_fields. pres. Qed.
Hint Resolve pres_setup_fields : typed.

Lemma pres_create_linear desc : typed_desc desc -> preserves (item_create_linear desc).
Proof.
  intros [Hy Hc]. unfold item_create_linear, frame_item_alloc. pres.
Qed.

Lemma pres_create_dmabuf desc : preserves (item_create_dmabuf desc).
Proof.
  unfold item_create_dmabuf, frame_item_alloc, item_addresses. pres.
Qed.
Hint Resolve pres_create_linear pres_create_dmabuf : typed.

Lemma pres_item_create desc : typed_desc desc -> preserves (frame_item_create desc).
Proof. intros H. unfold frame_item_create. pres. Qed.
Lemma pres_item_release i : preserves (frame_item_release i).
Proof. unfold frame_item_release, item_destroy, video_info_buffer_deinit. pres. Qed.
Lemma pres_item_get i : preserves (item_get i).
Proof. unfold item_get. pres. Qed.
Hint Resolve pres_item_create pres_item_release pres_item_get : typed.
(** ** The queue (decd_frame.c) *)

Lemma pres_mod_frame p f : (forall v, seqnum (f v) = seqnum v) -> preserves (mod_frame p f).
Proof.
  intros Hf s Hs. unfold mod_frame, deref, after, mbind, D_bind.
  destruct (frames s !! p) as [v|] eqn:E; [|done]. destruct Hs; split; try done.
  apply map_Forall_insert_2; [|done]. unfold typed_frame. rewrite Hf. by eapply ts_frames0.
Qed.

Lemma pres_frame_get vf : preserves (frame_get vf).
Proof. by apply pres_mod_frame. Qed.
Lemma pres_set_payload vf p : preserves (mod_frame vf (set_payload p)).
Proof. by apply pres_mod_frame. Qed.
Lemma pres_set_release vf b : preserves (mod_frame vf (set_vf_release b)).
Proof. by apply pres_mod_frame. Qed.
Lemma pres_set_refs vf r : preserves (mod_frame vf (set_vf_refs r)).
Proof. by apply pres_mod_frame. Qed.
Hint Resolve pres_frame_get pres_set_payload pres_set_release pres_set_refs : typed.

Lemma pres_create_frame n : in_u32 n -> preserves (dec_create_video_frame n).
Proof. intros Hn. unfold dec_create_video_frame. pres. Qed.
Lemma pres_frame_put vf : preserves (video_frame_put vf).
Proof. unfold video_frame_put, kfree_frame. pres. Qed.
Hint Resolve pres_create_frame pres_frame_put : typed.

Lemma pres_lock_queue : preserves lock_queue.
Proof. unfold lock_queue. pres. Qed.
Lemma pres_unlock_queue : preserves unlock_queue.
Proof. unfold unlock_queue. pres. Qed.
Lemma pres_lock_ready : preserves lock_ready.
Proof. unfold lock_ready. pres. Qed.
Lemma pres_unlock_ready : preserves unlock_ready.
Proof. unfold unlock_ready. pres. Qed.
Lemma pres_lock_dec : preserves lock_dec.
Proof. unfold lock_dec. pres. Qed.
Lemma pres_unlock_dec : preserves unlock_dec.
Proof. unfold unlock_dec. pres. Qed.
Hint Resolve pres_lock_queue pres_unlock_queue pres_lock_ready pres_unlock_ready pres_lock_dec
  pres_unlock_dec : typed.

Lemma pres_defer vf : preserves (dec_frame_defer_release vf).
Proof. unfold dec_frame_defer_release, release_in. pres. Qed.
Hint Resolve pres_defer : typed.
Lemma pres_enqueue vf : preserves (dec_frame_queue_enqueue vf).
Proof. unfold dec_frame_queue_enqueue. pres. Qed.
Lemma pres_pop : preserves dec_frame_pop.
Proof. unfold dec_frame_pop. pres. Qed.
Lemma pres_release_round : preserves release_round.
Proof. unfold release_round. pres. Qed.
Lemma pres_release_last : preserves release_last.
Proof. unfold release_last. pres. Qed.
Hint Resolve pres_enqueue pres_pop pres_release_round pres_release_last : typed.
Lemma pres_release_loop n : preserves (release_loop n).
Proof. induction n; cbn [release_loop]; pres. Qed.
Hint Resolve pres_release_loop : typed.
Lemma pres_release : preserves dec_frame_release_process.
Proof. unfold dec_frame_release_process. pres. Qed.
Lemma pres_recycle_loop n : preserves (recycle_loop n).
Proof. induction n; cbn [recycle_loop]; unfold release_in; pres. Qed.
Hint Resolve pres_recycle_loop : typed.
Lemma pres_recycle : preserves dec_frame_recycle.
Proof. unfold dec_frame_recycle, queue_release_work. pres. Qed.
Lemma pres_hw_repeat n : in_u32 n -> preserves (dec_frame_queue_hardware_repeat_ctrl n).
Proof. intros Hn. unfold dec_frame_queue_hardware_repeat_ctrl. pres. Qed.
Hint Resolve pres_release pres_recycle pres_hw_repeat : typed.
Lemma pres_repeat : preserves dec_frame_queue_repeat.
Proof.
  unfold dec_frame_queue_repeat, repeat_interlaced, repeat_progressive, bump_soft_repeat. pres.
Qed.
Lemma pres_pause : preserves dec_frame_queue_make_interlace_pause_sequence.
Proof. unfold dec_frame_queue_make_interlace_pause_sequence. pres. Qed.
Lemma pres_set_type t : 0 <= t <= 1 -> preserves (dec_frame_manager_set_stream_type t).
Proof. intros Ht. unfold dec_frame_manager_set_stream_type. pres. Qed.
Lemma pres_is_interlace p : preserves (dec_is_interlace_frame p).
Proof. unfold dec_is_interlace_frame. pres. Qed.
Hint Resolve pres_repeat pres_pause pres_set_type pres_is_interlace : typed.
Lemma pres_start vf : preserves (start_stream vf).
Proof. unfold start_stream. pres. Qed.
Hint Resolve pres_start : typed.
Lemma pres_resume : preserves dec_frame_queue_resume.
Proof. unfold dec_frame_queue_resume. pres. Qed.
Lemma pres_put_all l : preserves (put_all l).
Proof. induction l; cbn [put_all]; pres. Qed.
Hint Resolve pres_resume pres_put_all : typed.
Lemma pres_manager_free : preserves dec_frame_manager_free.
Proof. unfold dec_frame_manager_free. pres. Qed.
Lemma pres_sync_hardware p b i alt : preserves (dec_sync_frame_to_hardware p b i alt).
Proof. unfold dec_sync_frame_to_hardware. pres. Qed.
Hint Resolve pres_manager_free pres_sync_hardware : typed.
Lemma pres_sync_slot b i : preserves (sync_slot b i).
Proof. unfold sync_slot. pres. Qed.
Lemma pres_with_regs f : preserves (with_dec_regs f).
Proof. unfold with_dec_regs. pres. Qed.
Hint Resolve pres_sync_slot pres_with_regs : typed.
Lemma pres_sync b : preserves (dec_frame_queue_sync b).
Proof. unfold dec_frame_queue_sync. pres. Qed.
Lemma pres_repeat_ctrl on : preserves (call_repeat_ctrl on).
Proof. unfold call_repeat_ctrl. pres. Qed.
Hint Resolve pres_sync pres_repeat_ctrl : typed.

Lemma u64_mod z : in_u64 (z mod 2 ^ 64).
Proof. unfold in_u64. apply Z.mod_pos_bound. lia. Qed.
Hint Resolve u64_mod : typed.

Lemma pres_vsync_process : preserves dec_vsync_process.
Proof. unfold dec_vsync_process. pres. Qed.

Lemma pres_refresh_first : preserves refresh_first_field.
Proof. unfold refresh_first_field. pres. Qed.
Lemma pres_refresh_second : preserves refresh_second_field.
Proof. unfold refresh_second_field, shift_fields. pres. Qed.
Lemma pres_requeue vf : preserves (requeue vf).
Proof. unfold requeue. pres. Qed.
Hint Resolve pres_vsync_process pres_refresh_first pres_refresh_second pres_requeue : typed.
Lemma pres_refresh_progressive : preserves refresh_progressive.
Proof. unfold refresh_progressive. pres. Qed.
Lemma pres_refresh_pair : preserves refresh_pair.
Proof. unfold refresh_pair, shift_fields. pres. Qed.
Hint Resolve pres_refresh_progressive pres_refresh_pair : typed.
Lemma pres_refresh_running : preserves refresh_running.
Proof. unfold refresh_running. pres. Qed.
Lemma pres_refresh3 : preserves refresh_state3.
Proof. unfold refresh_state3. pres. Qed.
Lemma pres_refresh4 : preserves refresh_state4.
Proof. unfold refresh_state4. pres. Qed.
Lemma pres_refresh5 : preserves refresh_state5.
Proof. unfold refresh_state5, release_in. pres. Qed.
Hint Resolve pres_refresh_running pres_refresh3 pres_refresh4 pres_refresh5 : typed.
Lemma pres_refresh : preserves dec_frame_queue_refresh.
Proof. unfold dec_frame_queue_refresh. pres. Qed.
Hint Resolve pres_refresh : typed.

Lemma pres_manager_init : preserves dec_frame_manager_init.
Proof.
  unfold dec_frame_manager_init. pres; intros s Hs; destruct Hs; split; try done; split; cbn;
    in_range.
Qed.
Lemma pres_manager_exit : preserves dec_frame_manager_exit.
Proof. unfold dec_frame_manager_exit. pres. Qed.
Lemma pres_manager_stop others : preserves others -> preserves (dec_frame_manager_stop others).
Proof. intros Ho. unfold dec_frame_manager_stop. pres. Qed.
Lemma pres_handle_vsync : preserves dec_frame_manager_handle_vsync.
Proof. unfold dec_frame_manager_handle_vsync. pres. Qed.
Hint Resolve pres_manager_init pres_manager_exit pres_manager_stop pres_handle_vsync : typed.

Lemma next_seqno_u32 : gives_u32 next_seqno.
Proof.
  intros s Hs. unfold next_seqno, getm, modm, after, mbind, D_bind. pose proof (ts_fmgr _ Hs) as Hm.
  destruct (fmgr s) as [m|] eqn:E; [|done]. rewrite E. cbn in Hm |- *. split; [apply Hm|].
  destruct Hs; split; try done. revert Hm. typed_upd.
Qed.
Hint Resolve next_seqno_u32 : gives.

Lemma pres_frame_for n item : in_u32 n -> preserves (frame_for n item).
Proof. intros Hn. unfold frame_for. pres. Qed.
Hint Resolve pres_frame_for : typed.
Lemma pres_enqueue_ready item : preserves (enqueue_ready item).
Proof. unfold enqueue_ready. pres. Qed.
Hint Resolve pres_enqueue_ready : typed.
Lemma pres_enqueue_frame item : preserves (dec_frame_manager_enqueue_frame item).
Proof. unfold dec_frame_manager_enqueue_frame. pres. Qed.
Lemma pres_replace_pair a b : preserves (replace_pair a b).
Proof. unfold replace_pair, recycle_in. pres. Qed.
Hint Resolve pres_enqueue_frame pres_replace_pair : typed.
Lemma pres_enqueue_interlace t b : preserves (dec_frame_manager_enqueue_interlace_frame t b).
Proof. unfold dec_frame_manager_enqueue_interlace_frame, queue_release_work. pres. Qed.
Lemma pres_sync_cb : preserves dec_frame_manager_register_sync_cb.
Proof. unfold dec_frame_manager_register_sync_cb. pres. Qed.
Lemma pres_repeat_cb : preserves dec_frame_manager_register_repeat_ctrl_pfn.
Proof. unfold dec_frame_manager_register_repeat_ctrl_pfn. pres. Qed.
Hint Resolve pres_enqueue_interlace pres_sync_cb pres_repeat_cb : typed.
(** ** The device (decd_hw.c, decd_ioctl.c) *)

Lemma ring_index z : 0 <= u32 z &. (DECD_VSYNC_RING_LEN - 1) < DECD_VSYNC_RING_LEN.
Proof.
  change (DECD_VSYNC_RING_LEN - 1) with (Z.ones 3). rewrite Z.land_ones by lia.
  apply Z.mod_pos_bound. reflexivity.
Qed.

Lemma typed_vsync_put now r : in_u64 now -> typed_ring r -> typed_ring (vsync_put now r).
Proof.
  intros Hn [H1 H2 H3 H4]. unfold vsync_put.
  destruct (_ =? vs_rd r); split; cbn [vs_ts vs_rd vs_wr]; try done; try apply ring_index;
    first [by rewrite length_insert | by apply Forall_insert].
Qed.

Lemma typed_vsync_get r ts r' :
  typed_ring r -> vsync_get r = Some (ts, r') -> typed_ring r' /\ in_u64 ts.
Proof.
  intros [H1 H2 H3 H4]. unfold vsync_get. destruct (_ =? _); [done|]. intros [= <- <-].
  set (n := Z.to_nat _).
  assert (Hn : (n < 8)%nat).
  { pose proof (ring_index (vs_rd r + 1)) as Hi. change DECD_VSYNC_RING_LEN with 8 in *. lia. }
  split; [split; cbn [vs_ts vs_rd vs_wr]; try done; apply ring_index|].
  eapply Forall_forall; [exact H2|]. apply list_elem_of_In, nth_In. lia.
Qed.

Lemma typed_track j d : typed_debug d -> typed_debug (track_jiffies j d).
Proof.
  intros H. unfold track_jiffies. cbv zeta.
  assert (Hst : typed_debug (store_hist (u32 (jiffies_pos d + 2)) j d)).
  { destruct H. unfold store_hist. repeat case_match; split; cbn; try done;
      try apply in_u32_u32; [by rewrite length_insert | apply Forall_insert; [done | apply in_u32_u32]]. }
  destruct Hst. split; cbn; try done; try apply in_u32_u32.
  destruct (100 <=? _); [done | apply in_u32_u32].
Qed.
Hint Resolve typed_track : typed.

Lemma pres_vsync_handler now j : in_u64 now -> preserves (dec_vsync_handler now j).
Proof.
  intros Hn. unfold dec_vsync_handler. apply pres_bind; [pres|]. intros rb.
  destruct (dec_irq_query rb) as [raised rb']. apply pres_bind; [pres|]. intros _.
  apply pres_if; [pres|]. apply pres_bind.
  { apply pres_dmod. intros s []. split; try done. by apply typed_vsync_put. }
  intros _. pres.
Qed.

Lemma pres_timestamp : preserves dec_vsync_timestamp_get.
Proof.
  intros s Hs. unfold dec_vsync_timestamp_get, after, mbind, D_bind, dget, dmod.
  destruct (vsync_get (vsync s)) as [[ts r]|] eqn:E; cbn; [|done].
  destruct (typed_vsync_get _ _ _ (ts_ring _ Hs) E). destruct Hs. by split.
Qed.
Hint Resolve pres_vsync_handler pres_timestamp : typed.

Lemma pres_on_regs f : preserves (on_regs f).
Proof. unfold on_regs. pres. Qed.
Hint Resolve pres_on_regs : typed.

Lemma pres_power_up : preserves power_up.
Proof.
  unfold power_up, enable_display, enable_irq, deassert_reset, bus_clock, afbd_clock. pres.
Qed.
Hint Resolve pres_power_up : typed.
Lemma pres_enable : preserves dec_enable.
Proof. unfold dec_enable. pres. Qed.
Lemma pres_disable others : preserves others -> preserves (dec_disable others).
Proof.
  intros Ho. unfold dec_disable, enable_irq, deassert_reset, bus_clock, afbd_clock. pres.
Qed.
Lemma pres_stop others : preserves others -> preserves (dec_stop_video_stream others).
Proof. intros Ho. unfold dec_stop_video_stream. pres. Qed.
Hint Resolve pres_enable pres_disable pres_stop : typed.

Lemma pres_submit_loop n i r : preserves (submit_loop n i r).
Proof. revert r. induction n; intros r; cbn [submit_loop]; pres. Qed.
Hint Resolve pres_submit_loop : typed.
Lemma pres_submit desc r : typed_desc desc -> preserves (dec_frame_submit desc r).
Proof. intros Hd. unfold dec_frame_submit, submit_frame, show_stream. pres. Qed.
Lemma pres_setup t b : typed_desc t -> typed_desc b -> preserves (dec_interlace_setup t b).
Proof. intros Ht Hb. unfold dec_interlace_setup, setup_pair, show_stream. pres. Qed.
Lemma pres_map_buffer p n : preserves (video_buffer_map p n).
Proof. unfold video_buffer_map. pres. Qed.
Lemma pres_unmap_buffer a : preserves (video_buffer_unmap a).
Proof. unfold video_buffer_unmap. pres. Qed.
Hint Resolve pres_submit pres_setup pres_map_buffer pres_unmap_buffer : typed.

Definition typed_args (a : ioctl_args) : Prop :=
  typed_desc (arg_submit a) /\ typed_desc (arg_top a) /\ typed_desc (arg_bottom a).

Lemma pres_ioctl pm others cmd a :
  (forall b, preserves (pm b)) -> preserves others -> typed_args a ->
  preserves (dec_ioctl_file pm others cmd a).
Proof.
  intros Hpm Ho (H1 & H2 & H3). unfold dec_ioctl_file. pres.
Qed.
Lemma pres_read n : preserves (dec_read_file n).
Proof. unfold dec_read_file. pres. Qed.
Hint Resolve pres_ioctl pres_read pres_release : typed.

Lemma pres_add_pages n i b : preserves (add_pages n i b).
Proof. revert i. induction n; intros i; cbn [add_pages]; pres. Qed.
Hint Resolve pres_add_pages : typed.
Lemma pres_memory_init r : preserves (video_info_memory_block_init r).
Proof. unfold video_info_memory_block_init. pres. Qed.
Lemma pres_kfree_pages l : preserves (kfree_pages l).
Proof. induction l; cbn [kfree_pages]; pres. Qed.
Hint Resolve pres_kfree_pages pres_memory_init : typed.
Lemma pres_memory_exit : preserves video_info_memory_block_exit.
Proof. unfold video_info_memory_block_exit. pres. Qed.
Hint Resolve pres_memory_exit : typed.

(** ** The entry points *)

(** What runs without the caller of a system call *)
Inductive event :=
| Vsync (now jiffies : Z)
| Tasklet
| ReleaseWork
| RuntimePM (on : bool).

Definition run_event (e : event) : D unit :=
  match e with
  | Vsync now j => dec_vsync_handler now j;; mret tt
  | Tasklet => dec_frame_queue_refresh
  | ReleaseWork => dec_frame_release_process
  | RuntimePM true => dec_enable;; mret tt
  | RuntimePM false => dec_disable (mret tt);; mret tt
  end.

Fixpoint run_events (l : list event) : D unit :=
  match l with [] => mret tt | e :: l => run_event e;; run_events l end.

(** What starts on its own: an ioctl (during which [others] run while it
    sleeps, and [pm] when it gives a power hint), a read, an event, the probe
    and removal of the info pages, and the unmapping of an exported buffer. *)
Inductive entry :=
| Ioctl (others pm : list event) (cmd : Z) (a : ioctl_args)
| Read (len : Z)
| Event (e : event)
| InfoPages (rmem : option (Z * Z))
| InfoPagesExit
| Unmap (dma_addr : Z).

Definition run_entry (e : entry) : D unit :=
  match e with
  | Ioctl others pm cmd a =>
      dec_ioctl_file (fun _ => run_events pm) (run_events others) cmd a;; mret tt
  | Read len => dec_read_file len;; mret tt
  | Event e => run_event e
  | InfoPages rmem => video_info_memory_block_init rmem;; mret tt
  | InfoPagesExit => video_info_memory_block_exit
  | Unmap a => video_buffer_unmap a;; mret tt
  end.

Fixpoint run_entries (l : list entry) : D unit :=
  match l with [] => mret tt | e :: l => run_entry e;; run_entries l end.

(** The clock is a u64, and so are the addresses user space gives. *)
Definition typed_event (e : event) : Prop := match e with Vsync now _ => in_u64 now | _ => True end.
Definition typed_entry (e : entry) : Prop :=
  match e with
  | Ioctl others pm _ a => Forall typed_event others /\ Forall typed_event pm /\ typed_args a
  | Event e => typed_event e
  | _ => True
  end.

Lemma pres_event e : typed_event e -> preserves (run_event e).
Proof. destruct e as [now j| | |[]]; cbn; intros H; pres. Qed.
Hint Resolve pres_event : typed.

Lemma pres_events l : Forall typed_event l -> preserves (run_events l).
Proof. intros H. induction H; cbn [run_events]; pres. Qed.
Hint Resolve pres_events : typed.

Lemma pres_entry e : typed_entry e -> preserves (run_entry e).
Proof. destruct e; cbn; intros H; [destruct H as (H1 & H2 & H3) | ..]; pres. Qed.

(** C14: The integers keep their C types: starting from a well-typed state,
    whatever sequence of ioctls, reads, interrupts, tasklet and work runs and
    power transitions takes place, progressive or interlaced, the state it ends
    in is well-typed - every u32 and u64 field is in range, the state machine is
    in one of its six states, the ring indices stay below 8 and the arrays keep
    their lengths, and no kfifo exceeds its capacity. *)
Theorem fields_keep_their_types l s s' :
  typed s -> Forall typed_entry l -> run_entries l s = Done tt s' -> typed s'.
Proof.
  intros Hs Hl E. assert (H : preserves (run_entries l)).
  { clear E. induction Hl as [|e l He Hl IH]; [apply pres_ret|]. cbn [run_entries].
    apply pres_bind; [by apply pres_entry | done]. }
  specialize (H s Hs). unfold after in H. by rewrite E in H.
Qed.
End Typed.

(** From the state before the probe: the device is enabled, an interlaced and a
    progressive frame are submitted, interrupts come, and the device stops. *)
Lemma cold_typed : typed cold.
Proof.
  split; try done.
  - split; try done; cbn; try (by repeat constructor).
  - split; try done. by repeat constructor.
Qed.

Definition busy_args : ioctl_args :=
  IoctlArgs 1 0 (SubmitDesc 0 0 5 6 1920 1080 16 6 1 1 0 0) (SubmitDesc 1 0 0 0 0 0 0 0 0 1 8192 12288)
    (SubmitDesc 1 0 0 0 0 0 0 0 0 1 16384 20480) 0 4096.

Definition busy_day : list entry :=
  [InfoPages (Some (0x4d941000, 16384)); Event (RuntimePM true);
   Ioctl [] [] DECD_IOC_FRAME_SUBMIT busy_args; Event (Vsync 16000000 4); Event Tasklet;
   Ioctl [] [] DECD_IOC_INTERLACE_SETUP busy_args; Event (Vsync 32000000 8); Event Tasklet;
   Ioctl [Vsync 48000000 12; Tasklet] [] DECD_IOC_STOP_VIDEO_STREAM busy_args; Read 8].

Lemma fields_keep_their_types_witness :
  Forall typed_entry busy_day /\ typed (final (run_entries busy_day cold)).
Proof.
  assert (H : Forall typed_entry busy_day) by (repeat constructor; done).
  split; [exact H|].
  apply (fields_keep_their_types busy_day cold); [apply cold_typed | exact H | vm_compute; reflexivity].
Defined.
