(* ===== verification/DecdOwn.v ===== *)
(** Ownership of counted objects in the decoder display driver.

    [owned refs l h]: every non-null pointer of the list [l] - one entry per
    reference somebody holds - is an object of the heap [h] whose count is at
    least the number of its entries.  The order of [l] does not matter, and
    null pointers count for nothing; the lemmas say what taking, dropping and
    forgetting a reference do.  Frames and items share them. *)
From S2P Require Import Prelude Decd.
From Stdlib Require Import Permutation Morphisms.

Definition occ (p : Z) (l : list Z) : Z := Z.of_nat (count_occ Z.eq_dec l p).

Lemma occ_nil p : occ p [] = 0.
Proof. done. Qed.

Lemma occ_cons p x l : occ p (x :: l) = (if decide (x = p) then 1 else 0) + occ p l.
Proof.
  unfold occ. cbn. destruct (Z.eq_dec x p), (decide (x = p)); try congruence; lia.
Qed.

Lemma occ_app p l k : occ p (l ++ k) = occ p l + occ p k.
Proof. unfold occ. rewrite count_occ_app. lia. Qed.

Lemma occ_nonneg p l : 0 <= occ p l.
Proof. unfold occ. lia. Qed.

Lemma occ_in p l : p ∈ l <-> 0 < occ p l.
Proof. unfold occ. rewrite list_elem_of_In, (count_occ_In Z.eq_dec). lia. Qed.

#[export] Instance occ_perm p : Proper (Permutation ==> eq) (occ p).
Proof.
  intros l k H. unfold occ. f_equal. revert p. by apply Permutation_count_occ.
Qed.

Create Rewrite HintDb occ.
#[export] Hint Rewrite occ_nil occ_cons occ_app : occ.

Section Owned.
Context `{K : DecKernel} {L : DecLaws K} {V : Type} (refs : V -> Z).

Definition owned (l : list Z) (h : gmap Z V) : Prop :=
  forall p, p <> 0 -> 0 < occ p l ->
  exists v, h !! p = Some v /\ (occ p l <= refs v \/ pinned (refs v)).

(** What matters of a list of references is how often each pointer occurs. *)
Lemma owned_le l k h :
  (forall p, p <> 0 -> occ p k <= occ p l) -> owned l h -> owned k h.
Proof.
  intros Hle Ho p Hp Hk. specialize (Hle p Hp).
  destruct (Ho p Hp ltac:(lia)) as (v & Hv & Hr). exists v. split; [done|].
  destruct Hr; [left; lia | by right].
Qed.

#[export] Instance owned_perm : Proper (Permutation ==> eq ==> iff) owned.
Proof.
  intros l k Hp h _ <-. split; apply owned_le; intros p _; rewrite Hp; lia.
Qed.

Lemma owned_live l h p : owned l h -> p ∈ l -> p <> 0 -> exists v, h !! p = Some v.
Proof.
  intros Ho Hin Hp. destruct (Ho p Hp) as (v & Hv & _); [by apply occ_in | eauto].
Qed.

(** A live object with a reference on the list has a positive or pinned count. *)
Lemma owned_count l h p v :
  owned l h -> h !! p = Some v -> p ∈ l -> p <> 0 -> occ p l <= refs v \/ pinned (refs v).
Proof.
  intros Ho Hv Hin Hp. destruct (Ho p Hp) as (v' & Hv' & Hr); [by apply occ_in |].
  by simplify_eq.
Qed.

(** An update that keeps the count. *)
Lemma owned_update l h p v v' :
  owned l h -> h !! p = Some v -> refs v' = refs v -> owned l (<[p := v']> h).
Proof.
  intros Ho Hv Hr x Hx Hl. destruct (Ho x Hx Hl) as (w & Hw & Hc).
  destruct (decide (x = p)) as [->|Hne].
  - rewrite lookup_insert_eq. simplify_eq. exists v'. rewrite Hr. done.
  - rewrite lookup_insert_ne by done. eauto.
Qed.

(** One more reference. *)
Lemma owned_inc l h p v v' :
  owned l h -> h !! p = Some v -> p ∈ l -> refs v' = refcount_inc (refs v) ->
  owned (p :: l) (<[p := v']> h).
Proof.
  intros Ho Hv Hin Hr x Hx Hl. rewrite occ_cons in Hl |- *.
  destruct (decide (p = x)) as [->|Hne].
  - exists v'. rewrite lookup_insert_eq. split; [done|]. rewrite Hr.
    destruct (owned_count _ _ _ _ Ho Hv Hin Hx) as [Hc|Hc].
    + apply occ_in in Hin. destruct (refcount_inc_spec (refs v)) as [->|]; [lia | left; lia | by right].
    + right. by apply refcount_inc_pinned.
  - rewrite lookup_insert_ne by congruence. apply Ho; [done | lia].
Qed.

(** A new object with one reference. *)
Lemma owned_new l h p v :
  owned l h -> h !! p = None -> p <> 0 -> refs v = 1 -> owned (p :: l) (<[p := v]> h).
Proof.
  intros Ho Hn Hp Hr x Hx Hl. rewrite occ_cons in Hl |- *.
  destruct (decide (p = x)) as [->|Hne].
  - exists v. rewrite lookup_insert_eq. split; [done|]. left.
    destruct (decide (0 < occ x l)) as [Hc|]; [| pose proof (occ_nonneg x l); lia].
    destruct (Ho x Hx Hc) as (w & Hw & _). congruence.
  - rewrite lookup_insert_ne by congruence. apply Ho; [done | lia].
Qed.

(** One reference less: either the object stays, or nobody refers to it. *)
Lemma owned_dec l h p v r last :
  owned (p :: l) h -> h !! p = Some v -> p <> 0 -> refcount_dec_and_test (refs v) = (r, last) ->
  (last = false /\ forall v', refs v' = r -> owned l (<[p := v']> h)) \/
  (last = true /\ p ∉ l /\ forall v', owned l (<[p := v']> h) /\ owned l (delete p h)).
Proof.
  intros Ho Hv Hp Hd.
  assert (Hc : occ p (p :: l) <= refs v \/ pinned (refs v)).
  { eapply owned_count; eauto. left. }
  rewrite occ_cons, decide_True in Hc by done. pose proof (occ_nonneg p l) as Hpos.
  assert (Hother : forall x, x <> 0 -> x <> p -> 0 < occ x l -> exists w, h !! x = Some w /\
                     (occ x l <= refs w \/ pinned (refs w))).
  { intros x Hx Hne Hl. specialize (Ho x Hx). rewrite occ_cons, decide_False in Ho by congruence.
    apply Ho. lia. }
  assert (Hstay : forall r', refcount_dec_and_test (refs v) = (r', false) ->
            (occ p l <= r' \/ pinned r') ->
            last = false /\ forall v', refs v' = r -> owned l (<[p := v']> h)).
  { intros r' Hd' Hr'. rewrite Hd in Hd'. injection Hd' as -> ->. split; [done|].
    intros v' Hv' x Hx Hl. destruct (decide (x = p)) as [->|Hne].
    - exists v'. rewrite lookup_insert_eq, Hv'. done.
    - rewrite lookup_insert_ne by done. by apply Hother. }
  destruct Hc as [Hc|Hc].
  2: { left. destruct (refcount_dec_pinned _ Hc) as (r' & Hr' & Hp'). eauto. }
  destruct (decide (refs v = 1)) as [H1|H1].
  2: { left. destruct (refcount_dec_more (refs v)) as [E|(r' & E & Hp')]; [lia | |]; eauto.
       eapply Hstay; [exact E | left; lia]. }
  right. rewrite H1, refcount_dec_last in Hd. injection Hd as <- <-.
  assert (Hno : occ p l = 0) by lia. split; [done|]. split.
  { rewrite occ_in. lia. }
  intros v'. split; intros x Hx Hl; (destruct (decide (x = p)) as [->|Hne]; [lia|]).
  - rewrite lookup_insert_ne by done. by apply Hother.
  - rewrite lookup_delete_ne by done. by apply Hother.
Qed.
End Owned.

(** Discharge [owned] goals over rearranged lists: [owns H]. *)
Ltac occ_solve :=
  intros; autorewrite with occ;
  repeat match goal with |- context [decide ?P] => destruct (decide P) end;
  subst; try lia.
Ltac owns H := eapply owned_le; [| exact H]; occ_solve.

(** ** The items that frames refer to *)

Definition contrib (v : dec_video_frame) : list Z :=
  if vf_release v then [payload v] else [].

(** One entry per frame that will release its item *)
Definition uses (fr : gmap Z dec_video_frame) : list Z :=
  concat (map (fun x => contrib (snd x)) (map_to_list fr)).

Lemma uses_perm l k :
  Permutation l k ->
  Permutation (concat (map (fun x : Z * dec_video_frame => contrib (snd x)) l))
              (concat (map (fun x => contrib (snd x)) k)).
Proof.
  induction 1 as [| x l k _ IH | x y l | l1 l2 l3 _ IH1 _ IH2]; cbn.
  - done.
  - by apply Permutation_app_head.
  - rewrite !app_assoc. apply Permutation_app_tail, Permutation_app_comm.
  - by etransitivity.
Qed.

Lemma uses_insert_new fr p v :
  fr !! p = None -> Permutation (uses (<[p := v]> fr)) (contrib v ++ uses fr).
Proof.
  intros H. unfold uses. rewrite (uses_perm _ _ (map_to_list_insert fr p v H)). done.
Qed.

Lemma uses_delete fr p v :
  fr !! p = Some v -> Permutation (uses fr) (contrib v ++ uses (delete p fr)).
Proof.
  intros H. rewrite <- (insert_delete_id fr p v H) at 1.
  apply uses_insert_new, lookup_delete_eq.
Qed.

Lemma uses_insert fr p v v' :
  fr !! p = Some v -> Permutation (uses (<[p := v']> fr)) (contrib v' ++ uses (delete p fr)).
Proof.
  intros H. rewrite <- insert_delete_eq. apply uses_insert_new, lookup_delete_eq.
Qed.

(** Changing anything but the payload and the release function *)
Lemma uses_same fr p v v' :
  fr !! p = Some v -> contrib v' = contrib v -> Permutation (uses (<[p := v']> fr)) (uses fr).
Proof.
  intros H E. rewrite (uses_insert _ _ _ _ H), E. symmetry. by apply uses_delete.
Qed.
