(* ===== verification/DecdFrames.v ===== *)
(** Who owns which frame: the progressive stream of the decoder display driver.

    [items_ok l s] and [streaming hf hi s q m] are the invariants: [hf] and [hi]
    list the references to frames and items that running code holds in local
    variables; all the others are those of the ready list, the slots, the
    deferred frames and [last_frame] ([roots]), and one of an item per frame.
    Every operation of the stream keeps them, so no step touches a freed
    object. *)
From S2P Require Import Prelude Mem DecdRegs Decd DecdOwn DecdItem DecdQueue DecdDevice.

(** ** What an operation leaves alone *)

Definition core (s : dec_state) :=
  (fmgr s, queue s, last_frame s, next_addr s, pages s, fence_ctx s,
   (tasklet_pending s, release_pending s, enabled s, dec_locked s), (regs s, vsync s, g_dec s, fence_fds s)).
Definition main (s : dec_state) := (core s, frames s, items s, fences s).

Lemma core_fmgr s s' : core s' = core s -> fmgr s' = fmgr s.
Proof. exact (fun E => f_equal (fun x => x.1.1.1.1.1.1.1) E). Qed.
Lemma core_queue s s' : core s' = core s -> queue s' = queue s.
Proof. exact (fun E => f_equal (fun x => x.1.1.1.1.1.1.2) E). Qed.
Lemma core_last s s' : core s' = core s -> last_frame s' = last_frame s.
Proof. exact (fun E => f_equal (fun x => x.1.1.1.1.1.2) E). Qed.
Lemma core_next s s' : core s' = core s -> next_addr s' = next_addr s.
Proof. exact (fun E => f_equal (fun x => x.1.1.1.1.2) E). Qed.
Lemma core_pages s s' : core s' = core s -> pages s' = pages s.
Proof. exact (fun E => f_equal (fun x => x.1.1.1.2) E). Qed.
Lemma core_fence_fds s s' : core s' = core s -> fence_fds s' = fence_fds s.
Proof. exact (fun E => f_equal (fun x => x.2.2) E). Qed.
Lemma main_core s s' : main s' = main s -> core s' = core s.
Proof. exact (fun E => f_equal (fun x => x.1.1.1) E). Qed.
Lemma main_frames s s' : main s' = main s -> frames s' = frames s.
Proof. exact (fun E => f_equal (fun x => x.1.1.2) E). Qed.
Lemma main_items s s' : main s' = main s -> items s' = items s.
Proof. exact (fun E => f_equal (fun x => x.1.2) E). Qed.
Lemma main_fences s s' : main s' = main s -> fences s' = fences s.
Proof. exact (fun E => f_equal (fun x => x.2) E). Qed.

(** Every page of the free list is one. *)
Definition pages_live (s : dec_state) : Prop :=
  forall p, p ∈ free_pages s -> p <> 0 /\ is_Some (pages s !! p).

(** Only bookkeeping that no pointer depends on changed. *)
Definition quiet (s s' : dec_state) : Prop :=
  main s' = main s /\ (pages_live s -> pages_live s').

Lemma quiet_refl s : quiet s s.
Proof. done. Qed.

Lemma quiet_trans s1 s2 s3 : quiet s1 s2 -> quiet s2 s3 -> quiet s1 s3.
Proof. intros [E1 H1] [E2 H2]. split; [congruence | auto]. Qed.

Section Items.
Context `{K : DecKernel} {L : DecLaws K}.

Record items_ok (l : list Z) (s : dec_state) : Prop := {
  io_owned : owned item_refs l (items s);
  io_live i it : items s !! i = Some it ->
    (fence it <> 0 -> is_Some (fences s !! fence it)) /\
    (video_info_page it <> 0 -> is_Some (pages s !! video_info_page it)) /\
    alt_y_valid it = false;
  io_fence i j a b : items s !! i = Some a -> items s !! j = Some b ->
    fence a <> 0 -> fence a = fence b -> i = j;
  io_fresh p : next_addr s <= p -> items s !! p = None /\ fences s !! p = None;
  io_next : 4096 <= next_addr s;
  io_pages : pages_live s;
}.

Lemma items_ok_same l s s' :
  items s' = items s -> fences s' = fences s -> pages s' = pages s ->
  next_addr s' = next_addr s -> free_pages s' = free_pages s -> items_ok l s -> items_ok l s'.
Proof.
  intros Ei Ef Ep En El [Ho Hl Hf Hr Hn Hp].
  split; unfold pages_live in *; rewrite ?Ei, ?Ef, ?Ep, ?En, ?El; assumption.
Qed.

Lemma items_ok_le l k s :
  (forall p, p <> 0 -> occ p k <= occ p l) -> items_ok l s -> items_ok k s.
Proof. intros H [Ho Hl Hf Hr Hn Hp]. split; [by eapply owned_le | done..]. Qed.

(** ** The parts of a release *)

Lemma with_debug_wp f s : dwp (with_debug f) (fun _ s' => quiet s s') s.
Proof.
  unfold with_debug. dsteps. destruct (debug s) as [d|]; [|dsteps; done].
  apply dwp_when; intros _; [dsteps|]; done.
Qed.

Lemma dma_unmap_wp map s : dwp (dec_dma_unmap map) (fun _ s' => quiet s s') s.
Proof.
  unfold dec_dma_unmap, dma_buf_unmap_attachment, dma_buf_detach, dma_buf_put.
  destruct map; dsteps; done.
Qed.

Lemma remove_one_in x y l : y ∈ remove_one x l -> y ∈ l.
Proof.
  induction l as [|z l IH]; cbn; [done|]. destruct (z =? x); [set_solver|].
  rewrite !elem_of_cons. tauto.
Qed.

Lemma free_page_wp p s :
  p <> 0 -> is_Some (pages s !! p) -> dwp (free_video_info_page p) (fun _ s' => quiet s s') s.
Proof.
  intros Hz [v Hv]. unfold free_video_info_page. rewrite eqb_neq_false by done. dsteps.
  split; [done|]. intros Hl x. cbn. rewrite elem_of_app, list_elem_of_singleton.
  intros [Hx| ->]; [apply Hl; by eapply remove_one_in | eauto].
Qed.

Lemma trace_unmap_wp i it s :
  items s !! i = Some it ->
  dwp (dec_debug_trace_dma_buf_unmap i) (fun _ s' => quiet s s') s.
Proof.
  intros Hi. unfold dec_debug_trace_dma_buf_unmap.
  apply dwp_if; intros _; [by dsteps|]. dstep.
  destruct (image_map it); [apply with_debug_wp | by dsteps].
Qed.

(** Everything after the fence *)
Lemma item_teardown_wp i it s :
  items s !! i = Some it ->
  (video_info_page it <> 0 -> is_Some (pages s !! video_info_page it)) -> i <> 0 ->
  dwp (match image_map it with Some _ => dec_debug_trace_dma_buf_unmap i | None => mret tt end;;
       dec_dma_unmap (image_map it);; dec_dma_unmap (info_map it);;
       video_info_buffer_deinit i;; kfree_item i)
    (fun _ s' => core s' = core s /\ frames s' = frames s /\ fences s' = fences s /\
                 items s' = delete i (items s) /\ (pages_live s -> pages_live s')) s.
Proof.
  intros Hi Hp Hz.
  eapply dwp_call with (R := fun _ s' => quiet s s').
  { destruct (image_map it); [by eapply trace_unmap_wp | by dsteps]. }
  cbv beta. intros _ s1 E1. dcall dma_unmap_wp. intros _ s2 E2. dcall dma_unmap_wp.
  intros _ s3 E3. pose proof (quiet_trans _ _ _ E1 (quiet_trans _ _ _ E2 E3)) as E.
  clear E1 E2 E3 s1 s2.
  assert (Hi3 : items s3 !! i = Some it) by (by rewrite (main_items _ _ (proj1 E))).
  eapply dwp_call with (R := fun _ s' => quiet s3 s').
  { unfold video_info_buffer_deinit. apply dwp_if; intros _; [by dsteps|]. dstep.
    apply dwp_when; intros Hpz; zbool; [|done]. apply free_page_wp; [done|].
    rewrite (core_pages _ _ (main_core _ _ (proj1 E))). auto. }
  cbv beta. intros _ s4 E4. destruct (quiet_trans _ _ _ E E4) as [E5 Hl].
  assert (Hi4 : items s4 !! i = Some it) by (by rewrite (main_items _ _ E5)).
  unfold kfree_item. dsteps.
  rewrite (main_items _ _ E5). ands; [exact (main_core _ _ E5) | exact (main_frames _ _ E5)
    | exact (main_fences _ _ E5) | done | exact Hl].
Qed.

(** The fence is signalled and freed. *)
Lemma item_destroy_wp i it s :
  items s !! i = Some it -> i <> 0 ->
  (fence it <> 0 -> is_Some (fences s !! fence it)) ->
  (video_info_page it <> 0 -> is_Some (pages s !! video_info_page it)) ->
  dwp (item_destroy i)
    (fun _ s' => core s' = core s /\ frames s' = frames s /\ items s' = delete i (items s) /\
       fences s' = (if fence it =? 0 then fences s else delete (fence it) (fences s)) /\
       (pages_live s -> pages_live s')) s.
Proof.
  intros Hi Hz Hf Hp. unfold item_destroy. dstep.
  destruct (Z.eqb_spec (fence it) 0) as [E|E]; cbn [negb dwhen].
  - dstep. eapply dwp_mono; [eapply item_teardown_wp; eassumption|]. cbv beta. tauto.
  - destruct (Hf E) as [f Hv]. unfold dec_fence_signal, kfree_fence.
    rewrite (eqb_neq_false (fence it) 0) by done. do 5 dstep.
    eapply dwp_mono.
    { apply (item_teardown_wp i (set_fence 0 it)); [cbn; apply lookup_insert_eq | exact Hp | done]. }
    cbv beta. intros _ s' (H1 & H2 & H3 & H4 & H5). ands; [exact H1 | exact H2 | | | exact H5].
    + rewrite H4. cbn. apply delete_insert_eq.
    + rewrite H3. cbn. apply delete_insert_eq.
Qed.

(** A count changes, nothing else. *)
Lemma items_ok_count l l' s i it r :
  items_ok l s -> items s !! i = Some it ->
  owned item_refs l' (<[i := set_item_refs r it]> (items s)) ->
  items_ok l' (set_items (<[i := set_item_refs r it]> (items s)) s).
Proof.
  intros [Ho Hl Hf Hr Hx Hpl] Hi Ho'.
  assert (Hback : forall x y, <[i:=set_item_refs r it]> (items s) !! x = Some y ->
            exists z, items s !! x = Some z /\ fence z = fence y /\
              video_info_page z = video_info_page y /\ alt_y_valid z = alt_y_valid y).
  { intros x y. destruct (decide (x = i)) as [->|Hne].
    - rewrite lookup_insert_eq. intros [= <-]. eauto.
    - rewrite lookup_insert_ne by done. eauto. }
  split; cbn; try done.
  - intros j jt Hj. destruct (Hback _ _ Hj) as (z & Hz & <- & <- & <-). exact (Hl j z Hz).
  - intros j k a b Ha Hb.
    destruct (Hback _ _ Ha) as (a' & Ha' & <- & _), (Hback _ _ Hb) as (b' & Hb' & <- & _).
    by eapply Hf.
  - intros p Hp. destruct (Hr p Hp) as [H1 H2]. split; [|done].
    rewrite lookup_insert_ne; [done|]. intros ->. congruence.
Qed.

Lemma frame_item_release_wp i l s :
  items_ok (i :: l) s -> i <> 0 ->
  dwp (frame_item_release i)
    (fun _ s' => items_ok l s' /\ core s' = core s /\ frames s' = frames s) s.
Proof.
  intros [Ho Hl Hf Hr Hx Hpl] Hz. destruct (owned_live _ _ _ i Ho) as [it Hi]; [left | done |].
  unfold frame_item_release. rewrite eqb_neq_false by done. dstep.
  destruct (refcount_dec_and_test (item_refs it)) as [r last] eqn:Hd. dstep.
  destruct (owned_dec item_refs l (items s) i it r last Ho Hi Hz Hd) as [[-> Hs]|(-> & Hn & Hs)].
  - cbn [dwhen]. dstep. ands; [|done..]. eapply items_ok_count; [by split | done | by apply Hs].
  - cbn [dwhen]. destruct (Hl i it Hi) as (Hfe & Hpg & _).
    eapply dwp_mono.
    { eapply item_destroy_wp; [cbn; apply lookup_insert_eq | done | exact Hfe | exact Hpg]. }
    cbv beta. intros _ s' (H1 & H2 & H3 & H4 & H8). split; [|done].
    cbn in H3, H4. rewrite delete_insert_eq in H3.
    assert (Hpg' : pages s' = pages s) by exact (core_pages _ _ H1).
    split; rewrite ?H3, ?H4, ?Hpg', ?(core_next _ _ H1 : next_addr s' = next_addr s).
    + apply (Hs it).
    + intros j jt Hj. rewrite lookup_delete_Some in Hj. destruct Hj as [Hne Hj].
      destruct (Hl j jt Hj) as (H5 & H6 & H7). ands; [|done..]. intros Hjz.
      destruct (Z.eqb_spec (fence it) 0) as [E|E]; [by apply H5|].
      rewrite lookup_delete_ne; [by apply H5|]. intros Heq.
      apply Hne. exact (Hf i j it jt Hi Hj E Heq).
    + intros j k a b. rewrite !lookup_delete_Some. intros [_ Ha] [_ Hb]. by eapply Hf.
    + intros p Hp. destruct (Hr p Hp) as [H5 H6]. split; [by apply lookup_delete_None; right|].
      destruct (fence it =? 0); [done | by apply lookup_delete_None; right].
    + done.
    + exact (H8 Hpl).
Qed.

(** ** Frames *)

(** Frames [lf] and items [li] are held; every frame holds its item. *)
Record objs (lf li : list Z) (s : dec_state) : Prop := {
  ob_owned : owned vf_refs lf (frames s);
  ob_wf p v : frames s !! p = Some v -> vf_release v = true /\ payload v <> 0;
  ob_items : items_ok (li ++ uses (frames s)) s;
  ob_fresh p : next_addr s <= p -> frames s !! p = None;
}.

Lemma objs_le lf lf' li li' s :
  (forall p, p <> 0 -> occ p lf' <= occ p lf) -> (forall p, p <> 0 -> occ p li' <= occ p li) ->
  objs lf li s -> objs lf' li' s.
Proof.
  intros H1 H2 [Ho Hw Hi Hr]. split; [by eapply owned_le | done | | done].
  eapply items_ok_le; [| exact Hi]. intros p Hp. rewrite !occ_app. specialize (H2 p Hp). lia.
Qed.

(** The queue, the manager and the pending work do not matter. *)
Lemma objs_same lf li s s' :
  frames s' = frames s -> items s' = items s -> fences s' = fences s -> pages s' = pages s ->
  next_addr s' = next_addr s -> free_pages s' = free_pages s -> objs lf li s -> objs lf li s'.
Proof.
  intros E1 E2 E3 E4 E5 E6 [Ho Hw Hi Hr].
  split; rewrite ?E1, ?E5; try assumption. by eapply items_ok_same; [..| exact Hi].
Qed.

Lemma objs_live lf li s vf :
  objs lf li s -> vf ∈ lf -> vf <> 0 ->
  exists v it, frames s !! vf = Some v /\ items s !! payload v = Some it /\
    alt_y_valid it = false /\ payload v <> 0.
Proof.
  intros [Ho Hw Hi _] Hin Hz. destruct (owned_live _ _ _ vf Ho Hin Hz) as [v Hv].
  destruct (Hw _ _ Hv) as [Hrel Hp].
  destruct (owned_live _ _ _ (payload v) (io_owned _ _ Hi)) as [it Hit]; [|done|].
  - rewrite (uses_delete _ _ _ Hv). unfold contrib. rewrite Hrel. set_solver.
  - exists v, it. ands; [done | done | | done]. by apply (io_live _ _ Hi _ _ Hit).
Qed.

(** A count changes, nothing else. *)
Lemma objs_count lf lf' li s vf v r :
  objs lf li s -> frames s !! vf = Some v ->
  owned vf_refs lf' (<[vf := set_vf_refs r v]> (frames s)) ->
  objs lf' li (set_frames (<[vf := set_vf_refs r v]> (frames s)) s).
Proof.
  intros [Ho Hw Hi Hr] Hv Ho'. split; cbn.
  - done.
  - intros p u. destruct (decide (p = vf)) as [->|Hne].
    + rewrite lookup_insert_eq. intros [= <-]. exact (Hw _ _ Hv).
    + rewrite lookup_insert_ne by done. apply Hw.
  - destruct Hi as [Io Il If Ir In Ip]. split; cbn; [|done..].
    by rewrite (uses_same _ _ v (set_vf_refs r v) Hv eq_refl).
  - intros p Hp. rewrite lookup_insert_ne; [by apply Hr|]. intros <-.
    rewrite (Hr vf Hp) in Hv. done.
Qed.

Lemma frame_get_wp vf lf li s :
  objs lf li s -> vf ∈ lf -> vf <> 0 ->
  dwp (frame_get vf)
    (fun _ s' => objs (vf :: lf) li s' /\ exists fr, s' = set_frames fr s) s.
Proof.
  intros H Hin Hz. destruct (objs_live _ _ _ vf H Hin Hz) as (v & it & Hv & _).
  unfold frame_get. dstep. split; [|eauto]. eapply objs_count; [done | done |].
  eapply owned_inc; [apply H | done | done | done].
Qed.

Lemma video_frame_put_wp vf lf li s :
  objs (vf :: lf) li s ->
  dwp (video_frame_put vf) (fun _ s' => objs lf li s' /\ core s' = core s) s.
Proof.
  intros H. unfold video_frame_put. destruct (Z.eqb_spec vf 0) as [->|Hz].
  { dstep. split; [|done]. eapply objs_le; [| |exact H]; [occ_solve | occ_solve]. }
  destruct (objs_live _ _ _ vf H ltac:(left) Hz) as (v & it & Hv & Hit & _ & Hp).
  dstep. destruct (refcount_dec_and_test (vf_refs v)) as [r last] eqn:Hd. dstep.
  destruct (owned_dec _ _ _ _ _ _ _ (ob_owned _ _ _ H) Hv Hz Hd) as [[-> Hs]|(-> & Hn & Hs)].
  { cbn [dwhen]. dstep. split; [|done]. eapply objs_count; [done | done |]. by apply Hs. }
  cbn [dwhen]. destruct (ob_wf _ _ _ H _ _ Hv) as [Hrel _].
  cbn [set_vf_refs vf_release payload]. rewrite Hrel. cbn [dwhen].
  destruct H as [Ho Hw Hi Hr].
  eapply dwp_call.
  { apply (frame_item_release_wp (payload v) (li ++ uses (delete vf (frames s)))); [|done].
    eapply items_ok_le; [| eapply items_ok_same; [..| exact Hi]; reflexivity].
    intros p Hpz. rewrite (uses_delete _ _ _ Hv). unfold contrib. rewrite Hrel.
    revert p Hpz. occ_solve. }
  cbv beta. intros _ s' (Hi' & Hc & Hf). unfold kfree_frame.
  cbn in Hf. assert (Hv' : frames s' !! vf = Some (set_vf_refs r v)).
  { by rewrite Hf, lookup_insert_eq. }
  dsteps. rewrite Hf, delete_insert_eq. split; [|exact Hc]. split; cbn.
  - by apply (Hs v).
  - intros p u Hu. apply lookup_delete_Some in Hu as [_ Hu]. by eapply Hw.
  - eapply items_ok_same; [..| exact Hi']; done.
  - rewrite (core_next _ _ Hc). cbn. intros p Hpn. apply lookup_delete_None. right. by apply Hr.
Qed.
End Items.
