(* ===== verification/DecdStream.v ===== *)
(** The progressive stream keeps its invariant: every operation of the frame
    queue, started in a state where each reference is accounted for, returns in
    such a state (src/drivers/decd/decd_frame.c). *)
From S2P Require Import Prelude Mem DecdRegs Decd DecdOwn DecdItem DecdQueue DecdDevice DecdFrames.

Section Invariant.
Context `{K : DecKernel} {L : DecLaws K}.

(** ** The invariant *)

Definition calm (q : dec_frame_queue) : Prop :=
  interlace q = 0 /\ hw_repeat_req q = 0 /\ repeat_pending q = 0 /\ shutdown_counter q = 4 /\
  q_dec q = true /\ slot0 q = slot3 q /\ slot1 q = slot3 q /\ slot2 q = slot3 q.

Definition plain (m : dec_frame_manager) : Prop :=
  fm_type m = 0 /\ pair0 m = 0 /\ pair1 m = 0 /\ recycle_fifo m = [] /\
  ready_locked m = false /\ 0 ∉ ready_list m.

(** The slots are filled when the stream has started. *)
Definition in_step (q : dec_frame_queue) (m : dec_frame_manager) : Prop :=
  0 <= fm_state m <= 3 /\
  (fm_state m = 0 -> slot3 q = 0 /\ dirty q = 0 /\ force_interlace m = 0) /\
  (fm_state m <> 0 -> slot3 q <> 0).

(** What holds a reference, apart from local variables: the four slots share
    one. *)
Definition roots (s : dec_state) (q : dec_frame_queue) (m : dec_frame_manager) : list Z :=
  last_frame s :: last_released q :: slot3 q :: release_fifo q ++ ready_list m.

(** [lk]: is q->lock held; [hf], [hi]: frames and items held by running code. *)
Record streaming (lk : bool) (hf hi : list Z) (s : dec_state) (q : dec_frame_queue)
  (m : dec_frame_manager) : Prop := {
  st_q : queue s = Some q;
  st_m : fmgr s = Some m;
  st_lock : q_locked q = lk;
  st_calm : calm q;
  st_plain : plain m;
  st_step : in_step q m;
  st_objs : objs (hf ++ roots s q m) hi s;
}.

(** A kfifo drops what does not fit. *)
Lemma kfifo_in_occ l x p : occ p (kfifo_in l x) <= occ p (x :: l).
Proof.
  destruct (decide (length l < fifo_elems)%nat).
  - rewrite kfifo_in_room by done. rewrite occ_app, !occ_cons, occ_nil. lia.
  - rewrite kfifo_in_full by lia. rewrite occ_cons. destruct (decide (x = p)); lia.
Qed.

(** ** Deferring a release *)

Definition deferred (vf : Z) (q : dec_frame_queue) : dec_frame_queue :=
  set_last_released vf
    (if last_released q =? 0 then q
     else set_release_fifo (kfifo_in (release_fifo q) (last_released q)) q).

Lemma defer_run vf q s :
  queue s = Some q ->
  dec_frame_defer_release vf s = Done tt (set_queue (Some (deferred vf q)) s).
Proof.
  intros Hq. unfold dec_frame_defer_release, release_in, deferred, modq, getq, mbind, D_bind.
  rewrite Hq. destruct (last_released q =? 0); cbn; by rewrite ?Hq.
Qed.

Lemma defer_wp vf q s (Q : unit -> dec_state -> Prop) :
  queue s = Some q -> Q tt (set_queue (Some (deferred vf q)) s) ->
  dwp (dec_frame_defer_release vf) Q s.
Proof. intros Hq H. eapply dwp_done; [by apply defer_run | exact H]. Qed.

(** The fifo and the deferred frame gain at most the new one. *)
Lemma deferred_occ vf q p :
  p <> 0 ->
  occ p (release_fifo (deferred vf q)) <= occ p (last_released q :: release_fifo q).
Proof.
  intros Hp. unfold deferred. destruct (Z.eqb_spec (last_released q) 0) as [E|E]; cbn.
  - rewrite occ_cons. destruct (decide _); lia.
  - apply kfifo_in_occ.
Qed.

Lemma deferred_same vf q :
  last_released (deferred vf q) = vf /\ slot0 (deferred vf q) = slot0 q /\
  slot1 (deferred vf q) = slot1 q /\ slot2 (deferred vf q) = slot2 q /\
  slot3 (deferred vf q) = slot3 q /\ q_locked (deferred vf q) = q_locked q /\
  interlace (deferred vf q) = interlace q /\ hw_repeat_req (deferred vf q) = hw_repeat_req q /\
  repeat_pending (deferred vf q) = repeat_pending q /\
  shutdown_counter (deferred vf q) = shutdown_counter q /\ q_dec (deferred vf q) = q_dec q /\
  dirty (deferred vf q) = dirty q.
Proof. unfold deferred. by destruct (last_released q =? 0). Qed.

(** ** Rearranging an invariant *)

Lemma streaming_upd lk lk' hf hf' hi s s' q q' m m' :
  streaming lk hf hi s q m ->
  queue s' = Some q' -> fmgr s' = Some m' -> q_locked q' = lk' ->
  calm q' -> plain m' -> in_step q' m' ->
  frames s' = frames s -> items s' = items s -> fences s' = fences s -> pages s' = pages s ->
  next_addr s' = next_addr s -> free_pages s' = free_pages s ->
  (forall p, p <> 0 -> occ p (hf' ++ roots s' q' m') <= occ p (hf ++ roots s q m)) ->
  streaming lk' hf' hi s' q' m'.
Proof.
  intros H Hq Hm Hl Hc Hp Hs E1 E2 E3 E4 E5 E6 Ho. split; try assumption.
  eapply objs_same; [eassumption..|]. eapply objs_le; [exact Ho | | exact (st_objs _ _ _ _ _ _ H)].
  done.
Qed.

End Invariant.

(** From [H], up to computation. *)
Ltac upd H :=
  eapply streaming_upd; [exact H | ..];
  try first [ done | exact (st_q _ _ _ _ _ _ H) | exact (st_m _ _ _ _ _ _ H)
            | exact (st_lock _ _ _ _ _ _ H) | exact (st_calm _ _ _ _ _ _ H)
            | exact (st_plain _ _ _ _ _ _ H) | exact (st_step _ _ _ _ _ _ H)
            | pose proof (st_step _ _ _ _ _ _ H); unfold in_step in *; cbn in *;
              intuition congruence ].

Section Stream.
Context `{K : DecKernel} {L : DecLaws K}.

(** ** The operations under the lock *)

Lemma lock_queue_wp q s (Q : unit -> dec_state -> Prop) :
  queue s = Some q -> q_locked q = false ->
  Q tt (set_queue (Some (set_q_locked true q)) s) -> dwp lock_queue Q s.
Proof. intros Hq Hl H. unfold lock_queue. dstep. rewrite Hl. by dstep. Qed.

Lemma lock_ready_wp m s (Q : unit -> dec_state -> Prop) :
  fmgr s = Some m -> ready_locked m = false ->
  Q tt (set_fmgr (Some (set_ready_locked true m)) s) -> dwp lock_ready Q s.
Proof. intros Hq Hl H. unfold lock_ready. dstep. rewrite Hl. by dstep. Qed.

Definition popped (m : dec_frame_manager) : dec_frame_manager :=
  match ready_list m with
  | [] => set_ready_locked false (set_ready_locked true m)
  | _ :: rest =>
      set_ready_locked false (set_ready_count (u32 (ready_count m - 1))
        (set_ready_list rest (set_ready_locked true m)))
  end.

Lemma pop_wp lk hf hi s q m :
  streaming lk hf hi s q m ->
  dwp dec_frame_pop
    (fun vf s' => streaming lk (vf :: hf) hi s' q (popped m) /\
       vf = hd 0 (ready_list m) /\ s' = set_fmgr (Some (popped m)) s) s.
Proof.
  intros H. pose proof H as [Hq Hm Hlk Hc Hp Hs Ho].
  pose proof Hp as (Hty & Hp0 & Hp1 & Hrc & Hrl & Hz).
  unfold dec_frame_pop, unlock_ready. apply dwp_bind.
  eapply lock_ready_wp; [exact Hm | exact Hrl |]. dstep. cbn [fm_type set_ready_locked].
  rewrite Hty. cbn [Z.eqb andb]. change (ready_list (set_ready_locked true m)) with (ready_list m).
  destruct (ready_list m) as [|vf rest] eqn:El.
  - dsteps. cbn [hd]. unfold popped. rewrite El.
    split; [|done]. upd H.
    + unfold plain. cbn. ands; [done..|]. by rewrite El.
    + unfold roots. cbn. rewrite El. occ_solve.
  - dsteps.
    assert (E : popped m = set_ready_locked false (set_ready_count (u32 (ready_count m - 1))
        (set_ready_list rest (set_ready_locked true m)))).
    { unfold popped. by rewrite El. }
    rewrite E. split; [|done].
    upd H.
    + unfold plain. cbn. ands; [done..|]. set_solver.
    + unfold roots. cbn. rewrite El. occ_solve.
Qed.

(** The queue after a frame was put in all four slots, and after the old one
    was shown again *)
Definition enqueued (vf : Z) (q : dec_frame_queue) : dec_frame_queue :=
  set_dirty 1 (set_soft_repeat_count 0 (set_slots vf (deferred (slot3 q) q))).

Definition repeated (q : dec_frame_queue) : dec_frame_queue :=
  let q := deferred (slot3 q) q in
  let q := set_slot3 (slot2 q) q in
  let q := set_dirty 1 (set_slot2 (slot1 q) q) in
  set_soft_repeat_count (u32 (soft_repeat_count q + 1)) q.

#[global] Arguments deferred : simpl never.

Lemma calm_deferred vf q : calm q -> calm (deferred vf q).
Proof. unfold calm, deferred. by destruct (last_released q =? 0). Qed.

Lemma calm_set_slots vf q : calm q -> calm (set_slots vf q).
Proof. unfold calm. cbn. tauto. Qed.

Lemma calm_enqueued vf q : calm q -> calm (enqueued vf q).
Proof.
  intros H. apply (calm_deferred (slot3 q)) in H. unfold enqueued, calm in *. cbn. tauto.
Qed.

Lemma calm_repeated q : calm q -> calm (repeated q).
Proof.
  intros H. pose proof (calm_deferred (slot3 q) q H) as Hd.
  unfold calm in *. unfold repeated. cbn.
  destruct (deferred_same (slot3 q) q) as (_ & E0 & E1 & E2 & E3 & _).
  destruct H as (_ & _ & _ & _ & _ & H0 & H1 & H2).
  destruct Hd as (? & ? & ? & ? & ? & _). rewrite E0, E1, E2, H0, H1, H2. by ands.
Qed.

(** The reference of the slots goes to the deferred frame. *)
Lemma enqueued_occ vf hf s q m p :
  p <> 0 ->
  occ p (hf ++ roots (set_queue (Some (enqueued vf q)) s) (enqueued vf q) m) <=
  occ p (vf :: hf ++ roots s q m).
Proof.
  intros Hp. pose proof (deferred_occ (slot3 q) q p Hp) as Hd. unfold roots, enqueued.
  destruct (deferred_same (slot3 q) q) as (E & _). cbn. rewrite E.
  rewrite !occ_cons, !occ_app, !occ_cons, !occ_app in *. lia.
Qed.

Lemma repeated_occ hf s q m p :
  calm q -> p <> 0 ->
  occ p (hf ++ roots (set_queue (Some (repeated q)) s) (repeated q) m) <=
  occ p (slot3 q :: hf ++ roots s q m).
Proof.
  intros Hc Hp. pose proof (deferred_occ (slot3 q) q p Hp) as Hd. unfold roots, repeated.
  destruct (deferred_same (slot3 q) q) as (E & _ & _ & E2 & _). cbn. rewrite E, E2.
  destruct Hc as (_ & _ & _ & _ & _ & _ & _ & H2). rewrite H2.
  rewrite !occ_cons, !occ_app, !occ_cons, !occ_app in *. lia.
Qed.

Lemma enqueue_wp lk vf hf hi s q m :
  streaming lk (vf :: hf) hi s q m -> vf <> 0 -> dirty q = 0 -> fm_state m <> 0 ->
  dwp (dec_frame_queue_enqueue vf)
    (fun r s' => r = 0 /\ streaming lk (vf :: hf) hi s' (enqueued vf q) m) s.
Proof.
  intros H Hz Hd Hst. pose proof H as [Hq Hm Hlk Hc Hp Hs Ho].
  unfold dec_frame_queue_enqueue. rewrite eqb_neq_false by done. dstep. rewrite Hd.
  cbn [Z.eqb negb]. apply dwp_bind. eapply defer_wp; [done|]. dstep.
  eapply dwp_call.
  { apply (frame_get_wp vf (vf :: hf ++ roots s q m) hi); [| left | done].
    eapply objs_same; [..| exact Ho]; done. }
  cbv beta. intros _ s1 [Ho1 [fr ->]]. dsteps. split; [done|].
  split; try done.
  - cbn. destruct (deferred_same (slot3 q) q) as (_ & _ & _ & _ & _ & E & _). by rewrite E.
  - by apply calm_enqueued.
  - destruct Hs as (H1 & H2 & H3). split; [done|]. cbn. split; [done | done].
  - eapply objs_le; [| | eapply objs_same; [..| exact Ho1]; done]; [|done].
    intros p Hpz. pose proof (enqueued_occ vf (vf :: hf) s q m p Hpz) as Hle. exact Hle.
Qed.

Lemma repeat_wp lk hf hi s q m :
  streaming lk hf hi s q m -> fm_state m <> 0 ->
  dwp dec_frame_queue_repeat (fun _ s' => streaming lk hf hi s' (repeated q) m) s.
Proof.
  intros H Hst. pose proof H as [Hq Hm Hlk Hc Hp Hs Ho].
  pose proof Hc as (Hi & _ & _ & _ & _ & H0 & H1 & H2).
  assert (Hz : slot3 q <> 0) by (by apply Hs).
  unfold dec_frame_queue_repeat. dstep. rewrite Hi. cbn [Z.eqb negb].
  unfold repeat_progressive, bump_soft_repeat. dstep. apply dwp_bind.
  eapply defer_wp; [done|]. do 2 dstep. rewrite H0, eqb_neq_false by done. cbn [negb dwhen].
  eapply dwp_call.
  { apply (frame_get_wp (slot3 q) (hf ++ roots s q m) hi); [| | done].
    - eapply objs_same; [..| exact Ho]; done.
    - unfold roots. set_solver. }
  cbv beta. intros _ s1 [Ho1 [fr ->]]. dsteps. 
  split; try done.
  - cbn. destruct (deferred_same (slot3 q) q) as (_ & _ & _ & _ & _ & E & _). by rewrite E.
  - by apply calm_repeated.
  - destruct Hs as (Hs1 & Hs2 & Hs3). split; [done|]. cbn.
    destruct (deferred_same (slot3 q) q) as (_ & _ & _ & E2 & _). rewrite E2, H2. done.
  - eapply objs_le; [| | eapply objs_same; [..| exact Ho1]; done]; [|done].
    intros p Hpz. exact (repeated_occ hf s q m p Hc Hpz).
Qed.

Lemma stream_put_wp lk vf hf hi s q m :
  streaming lk (vf :: hf) hi s q m ->
  dwp (video_frame_put vf) (fun _ s' => streaming lk hf hi s' q m /\ core s' = core s) s.
Proof.
  intros [Hq Hm Hlk Hc Hp Hs Ho]. eapply dwp_mono; [apply video_frame_put_wp; exact Ho |].
  cbv beta. intros _ s' [Ho' E]. split; [|done]. split; try done.
  - by rewrite (core_queue _ _ E).
  - by rewrite (core_fmgr _ _ E).
  - unfold roots. by rewrite (core_last _ _ E).
Qed.

(** ** The tasklet in state 1 *)

Lemma in_step_popped q m : in_step q m -> in_step q (popped m).
Proof. unfold in_step, popped. by destruct (ready_list m). Qed.

Lemma popped_state m : fm_state (popped m) = fm_state m.
Proof. unfold popped. by destruct (ready_list m). Qed.

(** What a refresh of a running progressive stream makes of the queue and of
    the manager *)
Definition refreshed_queue (q : dec_frame_queue) (m : dec_frame_manager) : dec_frame_queue :=
  match ready_list m with [] => repeated q | vf :: _ => enqueued vf q end.
Definition refreshed_manager (m : dec_frame_manager) : dec_frame_manager :=
  set_force_interlace (match ready_list m with [] => 1 | _ => 0 end) (popped m).

Lemma refresh_progressive_wp lk hf hi s q m :
  streaming lk hf hi s q m -> dirty q = 0 -> fm_state m = 1 ->
  dwp refresh_progressive
    (fun _ s' => streaming lk hf hi s' (refreshed_queue q m) (refreshed_manager m)) s.
Proof.
  intros H Hd Hst. unfold refresh_progressive, refreshed_queue, refreshed_manager.
  eapply dwp_call; [apply pop_wp; exact H |]. cbv beta. intros vf s1 (H1 & -> & _).
  assert (Hst1 : fm_state (popped m) <> 0) by (rewrite popped_state; lia).
  pose proof (st_plain _ _ _ _ _ _ H) as (_ & _ & _ & _ & _ & Hz).
  destruct (ready_list m) as [|vf rest]; cbn [hd] in *.
  - rewrite Z.eqb_refl. cbn [negb]. eapply dwp_call; [eapply repeat_wp; [exact H1 | done] |].
    cbv beta. intros _ s2 H2. pose proof (st_m _ _ _ _ _ _ H2) as Hm2. dstep.
    upd H2.
    intros p Hp. unfold roots. cbn. occ_solve.
  - assert (Hvf : vf <> 0) by set_solver. rewrite eqb_neq_false by done. cbn [negb].
    eapply dwp_call; [eapply enqueue_wp; [exact H1 | done..] |].
    cbv beta. intros r s2 [-> H2]. cbn [Z.eqb negb].
    eapply dwp_call; [apply stream_put_wp; exact H2 |]. cbv beta. intros _ s3 [H3 _].
    pose proof (st_m _ _ _ _ _ _ H3) as Hm3. dstep.
    upd H3.
Qed.

(** ** Programming the registers *)

(** Only the registers and the debug trace changed. *)
Definition screen (s s' : dec_state) : Prop := exists rg db, s' = set_regs rg (set_debug db s).

Lemma screen_refl s : screen s s.
Proof. exists (regs s), (debug s). by destruct s. Qed.

Lemma screen_debug s d : screen s (set_debug d s).
Proof. exists (regs s), d. by destruct s. Qed.

Lemma screen_trans s1 s2 s3 : screen s1 s2 -> screen s2 s3 -> screen s1 s3.
Proof. intros (r1 & d1 & ->) (r2 & d2 & ->). by exists r2, d2. Qed.

Lemma screen_regs s s' rg : screen s s' -> screen s (set_regs rg s').
Proof. intros (r1 & d1 & ->). by exists rg, d1. Qed.

Lemma streaming_screen lk hf hi s s' q m :
  streaming lk hf hi s q m -> screen s s' -> streaming lk hf hi s' q m.
Proof.
  intros H (rg & db & ->). upd H.
Qed.

Lemma trace_screen a f s : dwp (dec_debug_trace_frame a f) (fun _ s' => screen s s') s.
Proof.
  unfold dec_debug_trace_frame, with_debug. do 2 dstep.
  destruct (debug s) as [d|]; [|dsteps; apply screen_refl].
  apply dwp_when; intros _; dsteps; [apply screen_debug | apply screen_refl].
Qed.

Lemma sync_hardware_screen p blank idx alt s :
  p = 0 \/ is_Some (items s !! p) ->
  dwp (dec_sync_frame_to_hardware p blank idx alt) (fun _ s' => screen s s') s.
Proof.
  intros Hp. unfold dec_sync_frame_to_hardware.
  eapply dwp_call with (R := fun _ s' => s' = s).
  { destruct (Z.eqb_spec p 0) as [E|E]; [by dstep|].
    destruct Hp as [|[it Hit]]; [done|]. by dsteps. }
  cbv beta. intros o s' ->. do 2 dstep.
  destruct (frame_planes blank o alt (iommu_debug s)) as [[[[[[p0 p1] p2] p3] aux] fmt] rep].
  dstep. eapply dwp_call; [apply trace_screen |]. cbv beta. intros _ s1 H1.
  assert (H : screen s s1).
  { eapply screen_trans; [| exact H1]. apply screen_regs, screen_refl. }
  destruct (idx =? 2); [dsteps; by apply screen_regs|].
  destruct (idx =? 3); dsteps; [|done]. by do 2 apply screen_regs.
Qed.

Lemma slot_calm i q : calm q -> slot i q = slot3 q.
Proof.
  intros (_ & _ & _ & _ & _ & H0 & H1 & H2). unfold slot.
  destruct (i =? 0); [done|]. destruct (i =? 1); [done|]. by destruct (i =? 2).
Qed.

Lemma sync_slot_wp lk hf hi s q m b i :
  streaming lk hf hi s q m ->
  dwp (sync_slot b i) (fun _ s' => screen s s') s.
Proof.
  intros H. pose proof H as [Hq Hm Hlk Hc Hp Hs Ho]. unfold sync_slot. dstep.
  rewrite (slot_calm i q Hc). destruct (Z.eqb_spec (slot3 q) 0) as [E|E]; cbn [negb].
  - apply dwp_when; intros _; [|apply screen_refl]. apply sync_hardware_screen. by left.
  - destruct (objs_live _ _ _ (slot3 q) Ho) as (v & it & Hv & Hit & _); [|done|].
    { unfold roots. set_solver. }
    dstep. apply dwp_when; intros _; [|apply screen_refl].
    apply sync_hardware_screen. right. eauto.
Qed.

Lemma queue_sync_wp lk hf hi s q m b :
  streaming lk hf hi s q m ->
  dwp (dec_frame_queue_sync b) (fun _ s' => streaming lk hf hi s' (set_dirty 0 q) m) s.
Proof.
  intros H. pose proof H as [Hq _ _ _ _ _ _]. unfold dec_frame_queue_sync. dstep.
  assert (H0 : streaming lk hf hi (set_queue (Some (set_dirty 0 q)) s) (set_dirty 0 q) m).
  { upd H. }
  clear H. revert H0. generalize (set_queue (Some (set_dirty 0 q)) s). clear s Hq. intros s H0.
  do 4 (eapply dwp_call; [eapply sync_slot_wp; exact H0 |]; cbv beta; intros _ ? Hscr;
        eapply streaming_screen in H0; [| exact Hscr]; clear Hscr).
  pose proof H0 as [Hq _ _ Hc _ _ _]. dstep. destruct Hc as (_ & _ & Hr & _).
  rewrite Hr. cbn [Z.eqb negb dwhen]. by dstep.
Qed.

End Stream.
