(* ===== verification/DecdSteps.v ===== *)
(** The handlers of the decoder display driver on a progressive stream: vsync,
    refresh, release work, resume and enqueue each return, keep the invariant
    of DecdStream.v, and do to what is displayed what an abstract display does. *)
From S2P Require Import Prelude Mem DecdRegs Decd DecdOwn DecdItem DecdQueue DecdDevice.
From S2P Require Import DecdFrames DecdStream.

Section Steps.
Context `{K : DecKernel} {L : DecLaws K}.

(** ** The abstract display: the frame that is shown, the frames that wait, and
    whether the stream has stopped looking at them *)

Record display := Display { shown : Z; waiting : list Z; frozen : bool }.

Definition display_of (q : dec_frame_queue) (m : dec_frame_manager) : display :=
  Display (slot3 q) (ready_list m) (negb (force_interlace m =? 0)).

(** Show the next frame; without one, show the old one again - for good. *)
Definition show_next (d : display) : display :=
  if frozen d then d
  else match waiting d with
       | [] => Display (shown d) [] true
       | vf :: rest => Display vf rest false
       end.

Lemma unlock_queue_wp hf hi s q m :
  streaming true hf hi s q m ->
  dwp unlock_queue (fun _ s' => streaming false hf hi s' (set_q_locked false q) m) s.
Proof.
  intros H. pose proof (st_q _ _ _ _ _ _ H). unfold unlock_queue. dstep. upd H.
Qed.

Lemma lock_queue_stream hf hi s q m :
  streaming false hf hi s q m ->
  dwp lock_queue (fun _ s' => streaming true hf hi s' (set_q_locked true q) m) s.
Proof.
  intros H. eapply lock_queue_wp; [apply H | apply H |]. upd H.
Qed.

(** ** The work *)

Lemma release_round_wp hf hi s q m :
  streaming false hf hi s q m ->
  dwp release_round
    (fun again s' => exists q', streaming false hf hi s' q' m /\
       display_of q' m = display_of q m /\ dirty q' = dirty q /\
       last_released q' = last_released q /\
       release_fifo q' = (if again then tail (release_fifo q) else release_fifo q) /\
       again = (1 <? length (release_fifo q))%nat) s.
Proof.
  intros H. pose proof (st_q _ _ _ _ _ _ H) as Hq. unfold release_round. dstep.
  destruct (1 <? length (release_fifo q))%nat eqn:El.
  2: { dstep. exists q. by ands. }
  eapply dwp_call; [apply lock_queue_stream; exact H|]. cbv beta. intros _ s1 H1.
  pose proof (st_q _ _ _ _ _ _ H1) as Hq1. dstep. cbn [release_fifo set_q_locked].
  change (release_fifo (set_q_locked true q)) with (release_fifo q).
  destruct (release_fifo q) as [|vf rest] eqn:Ef; [done|]. rewrite kfifo_out_cons. unfold unlock_queue. dsteps.
  set (q' := set_q_locked false (set_release_fifo rest (set_q_locked true q))).
  eapply dwp_call with (R := fun _ s' => streaming false hf hi s' q' m).
  { apply dwp_when; intros Hz; zbool.
    - eapply dwp_mono; [eapply (stream_put_wp false vf) with (q := q') (m := m) | by intros _ s' []].
      upd H1. intros p Hp. unfold roots. cbn. rewrite Ef. occ_solve.
    - subst vf. upd H1. intros p Hp. unfold roots. cbn. rewrite Ef. occ_solve. }
  cbv beta. intros _ s3 H3. dstep. exists q'. by ands.
Qed.

Lemma release_last_wp hf hi s q m :
  streaming false hf hi s q m ->
  dwp release_last
    (fun _ s' => exists q', streaming false hf hi s' q' m /\
       display_of q' m = display_of q m /\ dirty q' = dirty q) s.
Proof.
  intros H. pose proof (st_q _ _ _ _ _ _ H) as Hq. unfold release_last. dstep.
  apply dwp_when; intros Hd; [|by exists q].
  eapply dwp_call; [apply lock_queue_stream; exact H|]. cbv beta. intros _ s1 H1.
  pose proof (st_q _ _ _ _ _ _ H1) as Hq1. dstep.
  change (release_fifo (set_q_locked true q)) with (release_fifo q).
  destruct (release_fifo q) as [|vf rest] eqn:Ef.
  - rewrite kfifo_out_nil. eapply dwp_mono; [apply unlock_queue_wp; exact H1|].
    cbv beta. intros _ s2 H2. eexists. split; [exact H2 | done].
  - rewrite kfifo_out_cons. unfold unlock_queue. dsteps.
    exists (set_q_locked false (set_release_fifo rest (set_q_locked true q))).
    split; [| done]. upd H1. intros p Hp. unfold roots. cbn. rewrite Ef. occ_solve.
Qed.

Lemma release_loop_wp n hf hi s q m :
  streaming false hf hi s q m -> (length (release_fifo q) < n)%nat ->
  dwp (release_loop n)
    (fun _ s' => exists q', streaming false hf hi s' q' m /\
       display_of q' m = display_of q m /\ dirty q' = dirty q) s.
Proof.
  revert s q. induction n as [|n IH]; intros s q H Hn; [lia|]. cbn [release_loop].
  eapply dwp_call; [apply release_round_wp; exact H|]. cbv beta.
  intros again s1 (q1 & H1 & Hd1 & Hy1 & _ & Hf1 & ->).
  destruct (1 <? length (release_fifo q))%nat eqn:El; [|dstep; eauto].
  eapply dwp_mono; [apply (IH s1 q1 H1)|].
  - rewrite Hf1. apply Nat.ltb_lt in El. destruct (release_fifo q); cbn in *; lia.
  - cbv beta. intros _ s2 (q2 & H2 & Hd2 & Hy2). exists q2. ands; [done | congruence..].
Qed.

Lemma release_process_wp hf hi s q m :
  streaming false hf hi s q m ->
  dwp dec_frame_release_process
    (fun _ s' => exists q', streaming false hf hi s' q' m /\
       display_of q' m = display_of q m /\ dirty q' = dirty q) s.
Proof.
  intros H. pose proof (st_q _ _ _ _ _ _ H) as Hq. unfold dec_frame_release_process. dstep.
  eapply dwp_call; [eapply release_loop_wp; [exact H | lia]|]. cbv beta.
  intros _ s1 (q1 & H1 & Hd1 & Hy1).
  eapply dwp_mono; [apply release_last_wp; exact H1|]. cbv beta.
  intros _ s2 (q2 & H2 & Hd2 & Hy2). exists q2. ands; [done | congruence..].
Qed.

(** ** The interrupt *)

Lemma recycle_wp lk hf hi s q m :
  streaming lk hf hi s q m ->
  dwp dec_frame_recycle (fun _ s' => streaming lk hf hi s' q m) s.
Proof.
  intros H. pose proof (st_m _ _ _ _ _ _ H) as Hm.
  pose proof (st_plain _ _ _ _ _ _ H) as (_ & _ & _ & Hr & _).
  unfold dec_frame_recycle, queue_release_work. dstep. rewrite Hr. cbn [length recycle_loop].
  dstep. rewrite Hr, kfifo_out_nil. dsteps. upd H.
Qed.

(** The tasklet is scheduled in states 1 and 3, unless it is already. *)
Lemma schedule_wp hf hi s q m :
  streaming false hf hi s q m ->
  dwp (m ← getm;
       dwhen (negb (refresh_scheduled m))
         (modm (set_refresh_scheduled true);; dmod (set_tasklet_pending true)))
    (fun _ s' => exists m', streaming false hf hi s' q m' /\
       display_of q m' = display_of q m /\ fm_state m' = fm_state m) s.
Proof.
  intros H. pose proof (st_m _ _ _ _ _ _ H) as Hm. dstep.
  apply dwp_when; intros _; [|by exists m]. dsteps.
  exists (set_refresh_scheduled true m). split; [upd H | done].
Qed.

Lemma vsync_process_wp hf hi s q m :
  streaming false hf hi s q m ->
  dwp dec_vsync_process
    (fun _ s' => exists q' m', streaming false hf hi s' q' m' /\
       display_of q' m' = display_of q m /\ fm_state m' = fm_state m /\ dirty q' = 0) s.
Proof.
  intros H. unfold dec_vsync_process.
  eapply dwp_call; [apply lock_queue_stream; exact H|]. cbv beta. intros _ s1 H1.
  pose proof (st_m _ _ _ _ _ _ H1) as Hm1. pose proof (st_q _ _ _ _ _ _ H1) as Hq1.
  do 2 dstep.
  eapply dwp_call with (R := fun _ s' => exists q', streaming true hf hi s' q' m /\
    display_of q' m = display_of q m /\ dirty q' = 0).
  { apply dwp_if; intros Hd; zbool.
    - eapply dwp_call; [eapply queue_sync_wp; exact H1|]. cbv beta. intros _ s2 H2.
      eapply dwp_mono; [apply recycle_wp; exact H2|]. cbv beta. intros _ s3 H3.
      eexists. split; [exact H3 | done].
    - pose proof (st_calm _ _ _ _ _ _ H1) as (_ & Hr & _). rewrite Hr. cbn [Z.eqb negb].
      dstep. eexists. split; [exact H1 | done]. }
  cbv beta. intros _ s2 (q2 & H2 & Hd2 & Hy2).
  eapply dwp_call; [apply unlock_queue_wp; exact H2|]. cbv beta. intros _ s3 H3.
  eapply dwp_call with (R := fun _ s' => exists m', streaming false hf hi s' (set_q_locked false q2) m' /\
    display_of q2 m' = display_of q2 m /\ fm_state m' = fm_state m).
  { apply dwp_if; intros _; [eapply dwp_mono; [apply schedule_wp; exact H3 | done]|].
    apply dwp_if; intros _; dsteps; exists m; split; [upd H3 | done | exact H3 | done]. }
  cbv beta. intros _ s4 (m4 & H4 & Hd4 & Hs4). pose proof (st_m _ _ _ _ _ _ H4) as Hm4. dstep.
  eexists _, (set_irq_count _ m4). split; [upd H4|]. ands; [| done | done].
  transitivity (display_of q2 m4); [done | congruence].
Qed.

(** ** The tasklet *)

Lemma refreshed_display q m :
  calm q -> force_interlace m = 0 ->
  display_of (refreshed_queue q m) (refreshed_manager m) = show_next (display_of q m).
Proof.
  intros (_ & _ & _ & _ & _ & _ & _ & H2) Hf. unfold display_of, show_next. cbn [frozen waiting].
  unfold refreshed_queue, refreshed_manager, popped. rewrite Hf.
  destruct (ready_list m) as [|vf rest] eqn:El; cbn.
  - rewrite El. unfold repeated. cbn.
    destruct (deferred_same (slot3 q) q) as (_ & _ & _ & E & _). by rewrite E, H2.
  - done.
Qed.

Lemma refresh_running_wp hf hi s q m :
  streaming true hf hi s q m -> dirty q = 0 -> fm_state m = 1 ->
  dwp refresh_running
    (fun _ s' => exists q' m', streaming true hf hi s' q' m' /\
       display_of q' m' = show_next (display_of q m) /\ fm_state m' = fm_state m) s.
Proof.
  intros H Hd Hst. pose proof H as [Hq Hm _ Hc Hp _ _].
  unfold refresh_running. do 2 dstep. destruct Hc as (Hi & _). rewrite Hi. cbn [Z.eqb negb].
  apply dwp_if; intros Hf; zbool.
  - eapply dwp_mono; [apply refresh_progressive_wp; [exact H | done..]|]. cbv beta.
    intros _ s1 H1. eexists _, _. split; [exact H1|]. split.
    + apply refreshed_display; [apply H | done].
    + unfold refreshed_manager. cbn. apply popped_state.
  - unfold refresh_pair. dstep. destruct Hp as (_ & Hp0 & _). rewrite Hp0.
    cbn [Z.eqb negb andb dwhen]. dstep. exists q, m. split; [done|]. split; [|done].
    unfold show_next, display_of. cbn. by rewrite eqb_neq_false.
Qed.

Lemma refresh_state3_wp hf hi s q m :
  streaming true hf hi s q m -> fm_state m = 3 ->
  dwp refresh_state3
    (fun _ s' => streaming true hf hi s' q (set_fm_state 2 m)) s.
Proof.
  intros H Hst. pose proof H as [Hq Hm _ Hc _ Hs _]. unfold refresh_state3. dstep.
  destruct Hc as (Hi & _ & _ & Hsc & _). unfold counting_down. rewrite Hsc, Hi.
  change (s32 4 <? 0) with false. cbn [Z.eqb negb]. dstep. upd H. split; [cbn; lia|]. split; [done|]. intros _. apply Hs. lia.
Qed.

(** A refresh of a progressive stream shows the next frame, if the last one
    reached the registers; in state 3 it stops the stream. *)
Lemma queue_refresh_wp hf hi s q m :
  streaming false hf hi s q m ->
  dwp dec_frame_queue_refresh
    (fun _ s' => exists q' m', streaming false hf hi s' q' m' /\
       display_of q' m' = (if (fm_state m =? 1) && (dirty q =? 0)
                           then show_next (display_of q m) else display_of q m) /\
       fm_state m' = (if (fm_state m =? 3) && (dirty q =? 0) then 2 else fm_state m)) s.
Proof.
  intros H. pose proof (st_m _ _ _ _ _ _ H) as Hm. unfold dec_frame_queue_refresh. dstep.
  set (m0 := set_refresh_scheduled false m).
  assert (H0 : streaming false hf hi (set_fmgr (Some m0) s) q m0) by (upd H).
  eapply dwp_call; [apply lock_queue_stream; exact H0|]. cbv beta. intros _ s1 H1.
  pose proof (st_m _ _ _ _ _ _ H1) as Hm1. pose proof (st_q _ _ _ _ _ _ H1) as Hq1.
  do 2 dstep. change (fm_state m0) with (fm_state m).
  change (dirty (set_q_locked true q)) with (dirty q).
  pose proof (st_step _ _ _ _ _ _ H) as [Hrange _].
  eapply dwp_call with (R := fun _ s' => exists q' m', streaming true hf hi s' q' m' /\
       display_of q' m' = (if (fm_state m =? 1) && (dirty q =? 0)
                           then show_next (display_of q m) else display_of q m) /\
       fm_state m' = (if (fm_state m =? 3) && (dirty q =? 0) then 2 else fm_state m)).
  { destruct (Z.eqb_spec (fm_state m) 1) as [E1|E1].
    { apply dwp_when; intros Hd; rewrite Hd; cbn [andb]; zbool.
      - eapply dwp_mono; [apply refresh_running_wp; [exact H1 | done..]|]. cbv beta.
        intros _ s2 (q2 & m2 & H2 & Hd2 & Hs2). exists q2, m2. split; [exact H2|].
        split; [exact Hd2|]. rewrite eqb_neq_false by lia. exact Hs2.
      - exists (set_q_locked true q), m0. split; [exact H1|]. split; [done|].
        rewrite eqb_neq_false by lia. done. }
    destruct (Z.eqb_spec (fm_state m) 3) as [E3|E3].
    { apply dwp_when; intros Hd; rewrite Hd; cbn [andb]; zbool.
      - eapply dwp_mono; [apply refresh_state3_wp; [exact H1 | done]|]. cbv beta.
        intros _ s2 H2. eexists _, _. split; [exact H2 | done].
      - eexists _, _. split; [exact H1 | done]. }
    rewrite !eqb_neq_false by lia. cbn [andb]. dstep. eexists _, _. split; [exact H1 | done]. }
  cbv beta. intros _ s2 (q2 & m2 & H2 & Hd2 & Hs2).
  eapply dwp_call; [apply unlock_queue_wp; exact H2|]. cbv beta. intros _ s3 H3.
  pose proof (st_m _ _ _ _ _ _ H3) as Hm3. dstep.
  apply dwp_when; intros _; [dstep; eexists _, _; split; [upd H3 | done]
                            | eexists _, _; split; [exact H3 | done]].
Qed.

(** ** Starting and resuming *)

Definition started (vf : Z) (q : dec_frame_queue) : dec_frame_queue :=
  let q := set_repeat_current 0 (clear_fields (set_slots vf q)) in
  let q := set_dirty 1 (set_interlace_hold 1 (set_repeat_budget 0 q)) in
  set_repeat_budget 1 (set_soft_repeat_count 0 q).

(** The first frame: all four slots share the reference the ready list had. *)
Lemma start_stream_wp vf hf hi s q m :
  streaming true (vf :: hf) hi s q m -> vf <> 0 -> fm_state m = 0 ->
  dwp (start_stream vf)
    (fun _ s' => exists q' m', streaming true hf hi s' q' m' /\ fm_state m' = 1 /\
       display_of q' m' = Display vf (ready_list m) false /\ dirty q' = 1) s.
Proof.
  intros H Hz Hst. pose proof H as [Hq Hm Hlk Hc Hp Hs Ho].
  destruct Hs as (_ & Hs0 & _). destruct (Hs0 Hst) as (Hsl & Hdy & Hfo).
  pose proof Hp as (Hty & Hp0 & Hp1 & Hrc & Hrl & Hz0).
  unfold start_stream. dstep.
  eapply dwp_call.
  { apply (frame_get_wp vf (vf :: hf ++ roots s q m) hi); [| left | done].
    eapply objs_same; [..| exact Ho]; done. }
  cbv beta. intros _ s1 [Ho1 [fr ->]].
  destruct (objs_live _ _ _ vf Ho1) as (v & it & Hv & Hit & Hal & Hpz); [left | done |].
  dstep. unfold dec_is_interlace_frame. eapply dwp_call with (R := fun b s' => b = false /\ s' = _).
  { rewrite eqb_neq_false by done. dsteps. by split. }
  cbv beta. intros b s2 [-> ->]. dstep. rewrite Hfo. cbn [Z.eqb negb].
  apply dwp_bind. dsteps. unfold dec_frame_manager_set_stream_type, unlock_ready.
  do 2 apply dwp_bind. eapply lock_ready_wp; [exact Hm | exact Hrl |]. dsteps.
  eapply dwp_mono.
  { eapply (video_frame_put_wp vf (vf :: hf ++ roots s q m) hi).
    eapply objs_same; [..| exact Ho1]; done. }
  cbv beta. intros _ s3 [Ho3 Hc3]. cbn in Hc3.
  pose proof (core_queue _ _ Hc3) as Hq3. pose proof (core_fmgr _ _ Hc3) as Hm3.
  cbn in Hq3, Hm3. dsteps.
  eexists (started vf q), _. split.
  - split; [reflexivity | reflexivity | exact Hlk | | | |].
    + destruct Hc as (? & ? & ? & ? & ? & _). unfold calm. cbn. by ands.
    + unfold plain. cbn. by ands.
    + unfold in_step. cbn. ands; [lia | lia | done | done].
    + eapply objs_le; [| | eapply objs_same; [..| exact Ho3]; done]; [|done].
      intros p Hpz'. unfold roots. cbn. rewrite (core_last _ _ Hc3). cbn. occ_solve.
  - ands; [done | | done]. unfold display_of. cbn. by rewrite Hfo.
Qed.

(** The frame that outlived the last stream is let go. *)
Lemma drop_last_wp hf hi s q m :
  streaming true hf hi s q m ->
  dwp (dwhen (negb (last_frame s =? 0)) (video_frame_put (last_frame s);; dmod (set_last_frame 0)))
    (fun _ s' => streaming true hf hi s' q m) s.
Proof.
  intros H. pose proof H as [Hq Hm Hlk Hc Hp Hs Ho].
  apply dwp_when; intros Hz; [|exact H].
  eapply dwp_call.
  { eapply (video_frame_put_wp (last_frame s) (hf ++ 0 :: tail (roots s q m)) hi).
    eapply objs_le; [| | exact Ho]; [|done]. intros p Hpz. unfold roots. cbn. occ_solve. }
  cbv beta. intros _ s1 [Ho1 Hc1]. dsteps. split; try done.
  - cbn. by rewrite (core_queue _ _ Hc1).
  - cbn. by rewrite (core_fmgr _ _ Hc1).
  - eapply objs_same; [..| exact Ho1]; done.
Qed.

(** What resuming makes of the state and of the display *)
Definition resumed (st : Z) (d : display) : Z * display :=
  if st =? 0 then
    match waiting d with [] => (0, d) | vf :: rest => (1, Display vf rest false) end
  else (if st =? 2 then 1 else st, d).

Lemma queue_resume_wp hf hi s q m :
  streaming false hf hi s q m ->
  dwp dec_frame_queue_resume
    (fun _ s' => exists q' m', streaming false hf hi s' q' m' /\
       (fm_state m', display_of q' m') = resumed (fm_state m) (display_of q m)) s.
Proof.
  intros H. pose proof H as [Hq Hm Hlk Hc Hp Hs Ho].
  unfold dec_frame_queue_resume, resumed. dstep.
  destruct (Z.eqb_spec (fm_state m) 0) as [E0|E0]; cbn [negb].
  2: { destruct (Z.eqb_spec (fm_state m) 2) as [E2|E2]; cbn [dwhen]; dsteps.
       - eexists q, (set_fm_state 1 m). split; [upd H|done].
         destruct Hs as (_ & _ & Hs). unfold in_step. cbn. ands; [lia..|]. intros _. by apply Hs.
       - exists q, m. split; [exact H | done]. }
  destruct Hs as (_ & Hs0 & _). destruct (Hs0 E0) as (Hsl & Hdy & Hfo).
  eapply dwp_call; [apply lock_queue_stream; exact H|]. cbv beta. intros _ s1 H1.
  pose proof (st_q _ _ _ _ _ _ H1) as Hq1. dstep.
  change (dirty (set_q_locked true q)) with (dirty q). rewrite Hdy. cbn [Z.eqb dwhen].
  eapply dwp_call with (R := fun _ s' => exists q' m', streaming true hf hi s' q' m' /\
    (fm_state m', display_of q' m') =
      match ready_list m with
      | [] => (0, display_of q m)
      | vf :: rest => (1, Display vf rest false)
      end).
  { dstep. eapply dwp_call; [eapply drop_last_wp; exact H1|]. cbv beta. intros _ s2 H2.
    eapply dwp_call; [apply pop_wp; exact H2|]. cbv beta. intros vf s3 (H3 & -> & _).
    destruct Hp as (_ & _ & _ & _ & _ & Hz).
    destruct (ready_list m) as [|vf rest] eqn:El; cbn [hd] in *.
    - rewrite Z.eqb_refl. cbn [negb dwhen]. dstep. exists (set_q_locked true q), (popped m).
      split; [upd H3|].
      + intros p Hpz. occ_solve.
      + unfold popped. rewrite El. unfold display_of. cbn. by rewrite E0.
    - assert (Hvf : vf <> 0) by set_solver. rewrite eqb_neq_false by done. cbn [negb dwhen].
      eapply dwp_mono; [eapply start_stream_wp; [exact H3 | done | by rewrite popped_state]|].
      cbv beta. intros _ s4 (q4 & m4 & H4 & Hs4 & Hd4 & _). exists q4, m4. split; [exact H4|].
      rewrite Hs4, Hd4. unfold popped. by rewrite El. }
  cbv beta. intros _ s4 (q4 & m4 & H4 & Hd4).
  eapply dwp_call; [apply unlock_queue_wp; exact H4|]. cbv beta. intros _ s5 H5. dstep.
  eexists _, m4. split; [exact H5 | exact Hd4].
Qed.

(** ** Enqueueing *)

Lemma kzalloc_wp s :
  dwp kzalloc (fun p s' =>
    (p = 0 /\ s' = set_calls (S (calls s)) s) \/
    (p = next_addr s /\ s' = set_next_addr (p + 4096) (set_calls (S (calls s)) s))) s.
Proof.
  unfold kzalloc, attempt, dwp, mbind, D_bind. destruct (call_fails (calls s)); cbn.
  - by left.
  - by right.
Qed.

(** A new frame, not yet in any list, whose reference the caller has *)
Lemma frame_for_wp lf i li n s :
  objs lf (i :: li) s -> i <> 0 ->
  dwp (frame_for n i)
    (fun vf s' => (vf = 0 /\ objs lf (i :: li) s' \/ vf <> 0 /\ objs (vf :: lf) li s') /\
       fmgr s' = fmgr s /\ queue s' = queue s /\ last_frame s' = last_frame s) s.
Proof.
  intros H Hi. unfold frame_for, dec_create_video_frame. apply dwp_bind.
  eapply dwp_call; [apply kzalloc_wp|]. cbv beta. intros p s1 [[-> ->]|[-> ->]].
  { cbn [Z.eqb]. dstep. cbn [Z.eqb]. dstep. ands; [left | done..]. split; [done|].
    eapply objs_same; [..| exact H]; done. }
  destruct H as [Ho Hw Hit Hr]. pose proof (io_next _ _ Hit) as Hn.
  rewrite eqb_neq_false by lia. dsteps. rewrite eqb_neq_false by lia. dsteps.
  ands; [right | done..]. split; [lia|]. cbn. rewrite !insert_insert_eq.
  assert (Hnone : frames s !! next_addr s = None) by (apply Hr; lia).
  split; cbn.
  - apply owned_new; [done | done | lia | done].
  - intros p v. destruct (decide (p = next_addr s)) as [->|Hne].
    + rewrite lookup_insert_eq. by intros [= <-].
    + rewrite lookup_insert_ne by done. apply Hw.
  - destruct Hit as [Io Il If Ir In Ip]. split; cbn; try done.
    + eapply owned_le; [| exact Io]. intros p Hp. rewrite (uses_insert_new _ _ _ Hnone).
      unfold contrib. cbn [vf_release payload set_vf_release set_payload app]. occ_solve.
    + intros p Hp. apply Ir. lia.
    + lia.
  - intros p Hp. rewrite lookup_insert_ne by lia. apply Hr. lia.
Qed.

Lemma enqueue_ready_wp i hf hi s q m :
  streaming false hf (i :: hi) s q m -> i <> 0 ->
  dwp (enqueue_ready i)
    (fun r s' => exists m', fm_state m' = fm_state m /\
       (r = -12 /\ streaming false hf (i :: hi) s' q m' /\ display_of q m' = display_of q m \/
        r = 0 /\ streaming false hf hi s' q m' /\ exists vf, vf <> 0 /\
          display_of q m' = Display (slot3 q) (ready_list m ++ [vf])
                                    (negb (force_interlace m =? 0)))) s.
Proof.
  intros H Hi. pose proof (st_m _ _ _ _ _ _ H) as Hm. unfold enqueue_ready, next_seqno. dsteps.
  set (m0 := set_fm_seqno (u32 (fm_seqno m + 1)) m).
  assert (H0 : streaming false hf (i :: hi) (set_fmgr (Some m0) s) q m0) by (upd H).
  eapply dwp_call; [eapply frame_for_wp; [apply (st_objs _ _ _ _ _ _ H0) | done]|]. cbv beta.
  intros vf s1 (Ho & Em & Eq & El). cbn in Em, Eq, El.
  pose proof H0 as [Hq0 Hm0 Hlk Hc Hp Hs _]. cbn in Hq0.
  destruct Ho as [[-> Ho]|[Hz Ho]].
  - cbn [Z.eqb]. dstep. exists m0. split; [done|]. left. ands; [done | | done].
    split; try done; try congruence. unfold roots. by rewrite El.
  - rewrite eqb_neq_false by done. destruct Hp as (Hty & Hp0 & Hp1 & Hrc & Hrl & Hz0).
    unfold unlock_ready. apply dwp_bind. eapply lock_ready_wp; [exact Em | exact Hrl|]. dsteps.
    eexists. split; [|right; split; [done|]; split].
    2: { split; [cbn; congruence | reflexivity | done | done | | |].
      - unfold plain. cbn. ands; try done. set_solver.
      - done.
      - eapply objs_le; [| | eapply objs_same; [..| exact Ho]; done]; [|done].
        intros p Hpz. unfold roots. cbn. rewrite El. occ_solve. }
    + done.
    + exists vf. by split.
Qed.

(** An enqueued frame goes to the end of the line; if the stream was stopped it
    starts with the frame at its head. *)
Lemma enqueue_frame_wp i hf hi s q m :
  streaming false hf (i :: hi) s q m -> i <> 0 ->
  dwp (dec_frame_manager_enqueue_frame i)
    (fun r s' => exists q' m',
       r = -12 /\ streaming false hf (i :: hi) s' q' m' /\
         (fm_state m', display_of q' m') = (fm_state m, display_of q m) \/
       r = 0 /\ streaming false hf hi s' q' m' /\ exists vf, vf <> 0 /\
         (fm_state m', display_of q' m') = resumed (fm_state m)
           (Display (slot3 q) (ready_list m ++ [vf]) (negb (force_interlace m =? 0)))) s.
Proof.
  intros H Hi. unfold dec_frame_manager_enqueue_frame.
  eapply dwp_call; [apply enqueue_ready_wp; [exact H | done]|]. cbv beta.
  intros r s1 (m1 & Hs1 & [(-> & H1 & Hd1)|(-> & H1 & vf & Hz & Hd1)]); cbn [Z.eqb negb].
  - dstep. exists q, m1. left. ands; [done | done | congruence].
  - eapply dwp_call; [apply queue_resume_wp; exact H1|]. cbv beta.
    intros _ s2 (q2 & m2 & H2 & Hd2). dstep. exists q2, m2. right. ands; [done | done|].
    exists vf. split; [done|]. rewrite Hd2, Hs1, Hd1. done.
Qed.

(** ** Items *)

Lemma item_get_wp lk hf hi i s q m :
  streaming lk hf hi s q m -> i ∈ hi -> i <> 0 ->
  dwp (item_get i) (fun _ s' => streaming lk hf (i :: hi) s' q m) s.
Proof.
  intros [Hq Hm Hlk Hc Hp Hs [Ho Hw Hi Hr]] Hin Hz.
  destruct (owned_live _ _ _ i (io_owned _ _ Hi)) as [it Hit]; [set_solver | done |].
  unfold item_get. dstep. split; try done. split; try done.
  eapply items_ok_count; [exact Hi | done |].
  eapply owned_inc; [apply (io_owned _ _ Hi) | done | set_solver | done].
Qed.

Lemma item_release_wp lk hf hi i s q m :
  streaming lk hf (i :: hi) s q m -> i <> 0 ->
  dwp (frame_item_release i) (fun _ s' => streaming lk hf hi s' q m) s.
Proof.
  intros [Hq Hm Hlk Hc Hp Hs [Ho Hw Hi Hr]] Hz.
  eapply dwp_mono; [apply (frame_item_release_wp i (hi ++ uses (frames s))); [exact Hi | done]|].
  cbv beta. intros _ s' (Hi' & Hco & Hf). split; try done.
  - by rewrite (core_queue _ _ Hco).
  - by rewrite (core_fmgr _ _ Hco).
  - unfold roots. rewrite (core_last _ _ Hco). split; rewrite ?Hf, ?(core_next _ _ Hco); done.
Qed.

End Steps.
