(* ===== verification/DecdCreate.v ===== *)
(** Creating a frame item (src/drivers/decd/decd_frame.c, frame_item_create):
    what is left when it fails, and the item it makes when it succeeds. *)
From S2P Require Import Prelude Mem DecdRegs Decd DecdOwn DecdItem DecdQueue DecdDevice.
From S2P Require Import DecdFrames DecdStream DecdSteps.

Section Create.
Context `{K : DecKernel} {L : DecLaws K}.

(** ** An item under construction *)

(** The fences are those of [s0] and new ones; [f] is none or a new one. *)
Definition new_fence (s0 s : dec_state) (f : Z) : Prop :=
  (forall g, is_Some (fences s0 !! g) -> is_Some (fences s !! g)) /\
  (forall p, next_addr s <= p -> fences s0 !! p = None -> fences s !! p = None) /\
  (f <> 0 -> next_addr s0 <= f < next_addr s /\ is_Some (fences s !! f)).

(** Item [i] is new with respect to [s0] and still private; nothing else that
    matters has changed. *)
Record building (i : Z) (s0 s : dec_state) : Prop := {
  bd_frames : frames s = frames s0;
  bd_queue : queue s = queue s0;
  bd_fmgr : fmgr s = fmgr s0;
  bd_last : last_frame s = last_frame s0;
  bd_items : exists it, items s = <[i := it]> (items s0) /\ item_refs it = 1 /\
    alt_y_valid it = false /\ new_fence s0 s (fence it) /\
    (video_info_page it <> 0 -> is_Some (pages s !! video_info_page it));
  bd_pages p : is_Some (pages s0 !! p) -> is_Some (pages s !! p);
  bd_free : pages_live s;
  bd_next : next_addr s0 <= i < next_addr s;
}.

Lemma building_same i s0 s s' :
  building i s0 s ->
  frames s' = frames s -> queue s' = queue s -> fmgr s' = fmgr s -> last_frame s' = last_frame s ->
  items s' = items s -> fences s' = fences s -> pages s' = pages s ->
  free_pages s' = free_pages s -> next_addr s <= next_addr s' -> building i s0 s'.
Proof.
  intros [B1 B2 B3 B4 (it & Hit & Hr & Ha & Hf & Hp) B7 B8 B9] E1 E2 E3 E4 E5 E6 E7 E8 E9.
  split; rewrite ?E1, ?E2, ?E3, ?E4, ?E5, ?E7; try done; [| |lia].
  - exists it. ands; try done. destruct Hf as (Hf1 & Hf2 & Hf3).
    unfold new_fence. rewrite E6. ands; [done | |].
    + intros p Hpn. apply Hf2. lia.
    + intros Hz. destruct (Hf3 Hz). split; [lia | done].
  - unfold pages_live in *. by rewrite E7, E8.
Qed.

Ltac bsame B := eapply building_same; [exact B | first [done | cbn; lia]..].

Lemma attempt_wp s (Q : bool -> dec_state -> Prop) :
  (forall b, Q b (set_calls (S (calls s)) s)) -> dwp attempt Q s.
Proof. intros H. apply H. Qed.

(** Set fields that the invariant does not look at. *)
Lemma building_mod_item i s0 s f :
  building i s0 s ->
  (forall it, item_refs (f it) = item_refs it /\ alt_y_valid (f it) = alt_y_valid it /\
              fence (f it) = fence it /\ video_info_page (f it) = video_info_page it) ->
  dwp (mod_item i f) (fun _ s' => building i s0 s') s.
Proof.
  intros [B1 B2 B3 B4 (it & Hit & Hr & Ha & Hf & Hp) B7 B8 B9] Hfi.
  eapply dwp_mod_item; [rewrite Hit; apply lookup_insert_eq |].
  destruct (Hfi it) as (F1 & F2 & F3 & F4).
  split; try done. exists (f it). cbn. rewrite Hit, insert_insert_eq.
  rewrite F1, F2, F3, F4. by ands.
Qed.

Lemma building_item i s0 s : building i s0 s -> exists it, items s !! i = Some it /\
  (video_info_page it <> 0 -> is_Some (pages s !! video_info_page it)).
Proof.
  intros B. destruct (bd_items _ _ _ B) as (it & -> & _ & _ & _ & Hp).
  rewrite lookup_insert_eq. eauto.
Qed.

(** ** dma-bufs *)

Lemma dma_map_wp fd i s0 s :
  building i s0 s -> dwp (dec_dma_map fd) (fun _ s' => building i s0 s') s.
Proof.
  intros B. unfold dec_dma_map, dma_buf_detach, dma_buf_put.
  apply dwp_if; intros _; [by dstep|].
  eapply dwp_call; [apply kzalloc_wp|]. cbv beta. intros p s1 Hs1.
  assert (B1 : building i s0 s1).
  { destruct Hs1 as [[-> ->]|[-> ->]]; bsame B. }
  clear Hs1 B. apply dwp_if; intros _; [by dstep|].
  assert (Hstep : forall s', building i s0 s' -> building i s0 (set_calls (S (calls s')) s')).
  { intros s' B'. bsame B'. }
  apply dwp_bind, attempt_wp. intros got. apply dwp_if; intros _; [dstep; auto|]. dstep.
  apply dwp_bind, attempt_wp. intros att. apply dwp_if; intros _.
  { dsteps. bsame B1. }
  dstep. apply dwp_bind, attempt_wp. intros mapped. apply dwp_if; intros _;
    dsteps; bsame B1.
Qed.

(** ** Info pages *)

Lemma alloc_page_wp i s0 s :
  building i s0 s ->
  dwp alloc_video_info_page
    (fun p s' => building i s0 s' /\ pages s' = pages s /\ (p <> 0 -> is_Some (pages s' !! p))) s.
Proof.
  intros B. unfold alloc_video_info_page. dstep. pose proof (bd_free _ _ _ B) as Hl.
  destruct (free_pages s) as [|p rest] eqn:Ef; [by dstep|]. dsteps.
  assert (Hp : p <> 0 /\ is_Some (pages s !! p)) by (apply Hl; rewrite Ef; left).
  split; [|split; [done | intros _; apply Hp]]. destruct B as [B1 B2 B3 B4 B5 B7 B8 B9]. split; try done.
  intros x Hx. apply Hl. rewrite Ef. by right.
Qed.

Lemma set_page_wp i s0 s p :
  building i s0 s -> is_Some (pages s !! p) ->
  dwp (mod_item i (set_video_info_page p)) (fun _ s' => building i s0 s' /\ pages s' = pages s) s.
Proof.
  intros [B1 B2 B3 B4 (it & Hit & Hr & Ha & Hf & Hp) B7 B8 B9] Hpg.
  eapply dwp_mod_item; [rewrite Hit; apply lookup_insert_eq |]. split; [|done].
  split; try done. exists (set_video_info_page p it). cbn. rewrite Hit, insert_insert_eq. by ands.
Qed.

Lemma mod_page_wp i s0 s p f :
  building i s0 s -> is_Some (pages s !! p) ->
  dwp (mod_page p f) (fun _ s' => building i s0 s' /\ is_Some (pages s' !! p)) s.
Proof.
  intros [B1 B2 B3 B4 (it & Hit & Hr & Ha & Hf & Hp) B7 B8 B9] [v Hv].
  assert (Hmono : forall x, is_Some (pages s !! x) -> is_Some (<[p := f v]> (pages s) !! x)).
  { intros x. destruct (decide (x = p)) as [->|Hne].
    - rewrite lookup_insert_eq. eauto.
    - by rewrite lookup_insert_ne. }
  eapply dwp_mod_page; [exact Hv |]. split; [|apply Hmono; eauto].
  split; try done; cbn.
  - exists it. ands; try done. intros Hz. by apply Hmono, Hp.
  - intros x Hx. by apply Hmono, B7.
  - intros x Hx. destruct (B8 x Hx). split; [done | by apply Hmono].
Qed.

Lemma info_init_wp i s0 s :
  building i s0 s -> i <> 0 -> dwp (video_info_buffer_init i) (fun _ s' => building i s0 s') s.
Proof.
  intros B Hi. unfold video_info_buffer_init. rewrite eqb_neq_false by done.
  eapply dwp_call; [apply alloc_page_wp; exact B|]. cbv beta. intros p s1 (B1 & _ & Hp).
  apply dwp_if; intros Hz; zbool; [by dstep|]. specialize (Hp Hz).
  eapply dwp_call; [by apply set_page_wp|]. cbv beta. intros _ s2 [B2 E2].
  rewrite <- E2 in Hp. destruct Hp as [v Hv]. by dsteps.
Qed.

Lemma info_init_dmabuf_wp i s0 s :
  building i s0 s -> i <> 0 ->
  dwp (video_info_buffer_init_dmabuf i) (fun _ s' => building i s0 s') s.
Proof.
  intros B Hi. unfold video_info_buffer_init_dmabuf. rewrite eqb_neq_false by done.
  destruct (building_item _ _ _ B) as (it & Hit & _). dstep.
  destruct (info_map it) as [map|]; [|by dstep].
  eapply dwp_call with (R := fun _ s' => building i s0 s').
  { unfold info_access. apply dwp_bind, attempt_wp. intros b.
    apply dwp_if; intros _; [dstep | apply attempt_wp; intros b'];
      bsame B. }
  cbv beta. intros ok s1 B1. apply dwp_if; intros _; [by dstep|].
  eapply dwp_call; [apply alloc_page_wp; exact B1|]. cbv beta. intros p s2 (B2 & _ & Hp).
  apply dwp_if; intros Hz; zbool; [by dstep|]. specialize (Hp Hz).
  eapply dwp_call; [by apply set_page_wp|]. cbv beta. intros _ s3 [B3 E3]. rewrite <- E3 in Hp.
  do 4 (eapply dwp_call; [apply mod_page_wp; [eassumption | exact Hp]|]; cbv beta;
        clear Hp; intros _ ? [? Hp]).
  destruct Hp as [v Hv]. by dsteps.
Qed.

(** ** The end of the creation *)

(** The queue side of the state *)
Definition side (s : dec_state) := (queue s, fmgr s, last_frame s).

Lemma building_side i s0 s : building i s0 s -> side s = side s0.
Proof. intros [_ B1 B2 B3 _ _ _ _]. unfold side. by rewrite B1, B2, B3. Qed.

Lemma objs_built lf li i s0 s :
  objs lf li s0 -> building i s0 s -> objs lf (i :: li) s /\ i <> 0.
Proof.
  intros [Ho Hw [Io Il If Ir In Ip] Hr] [B1 B2 B3 B4 (it & Hit & Hrf & Ha & Hf & Hp) B7 B8 B9].
  assert (Hi0 : items s0 !! i = None) by (apply Ir; lia). split; [|lia].
  destruct Hf as (Hfl & Hfr & Hfn).
  assert (Hfi : fence it <> 0 -> is_Some (fences s !! fence it) /\ fences s0 !! fence it = None).
  { intros Hz. destruct (Hfn Hz) as [Hr1 Hs1]. split; [done | apply Ir; lia]. }
  split; rewrite ?B1; try done; [|intros p Hpn; apply Hr; lia].
  split; rewrite ?B1, ?Hit; try done; [| | | |lia].
  - apply (owned_new item_refs (li ++ uses (frames s0)) (items s0) i it Io); [done | lia | done].
  - intros j jt. destruct (decide (j = i)) as [->|Hne].
    + rewrite lookup_insert_eq. intros [= <-]. ands; [by apply Hfi | done..].
    + rewrite lookup_insert_ne by done. intros Hj. destruct (Il j jt Hj) as (H1 & H2 & H3). auto.
  - assert (Hold : forall k b, items s0 !! k = Some b -> fence it <> 0 -> fence it <> fence b).
    { intros k b Hb Hz E. destruct (Hfi Hz) as [_ Hn]. rewrite E in Hn, Hz.
      destruct (Il k b Hb) as (H1 & _). destruct (H1 Hz) as [x Hx]. congruence. }
    intros j k a b. destruct (decide (j = i)) as [->|Hj]; destruct (decide (k = i)) as [->|Hk];
      rewrite ?lookup_insert_eq, ?lookup_insert_ne by done.
    + done.
    + intros [= <-] Hb Hz E. by destruct (Hold k b Hb Hz).
    + intros Ha' [= <-] Hz E. rewrite E in Hz. by destruct (Hold j a Ha' Hz).
    + apply If.
  - intros p Hpn. destruct (Ir p) as [H1 H2]; [lia|]. split.
    + rewrite lookup_insert_ne by lia. done.
    + by apply Hfr.
Qed.

(** Freeing the unfinished item leaves the others as they were. *)
Lemma abandon_wp lf li i s0 s :
  objs lf li s0 -> building i s0 s ->
  dwp (kfree_item i;; mret 0) (fun r s' => r = 0 /\ objs lf li s' /\ side s' = side s0) s.
Proof.
  intros [Ho Hw [Io Il If Ir In Ip] Hr] B. pose proof (building_side _ _ _ B) as Hs.
  destruct B as [B1 B2 B3 B4 (it & Hit & Hrf & Ha & Hf & Hp) B7 B8 B9].
  unfold kfree_item. eapply dwp_bind, dwp_bind, dwp_deref; [rewrite Hit; apply lookup_insert_eq|].
  dsteps. split; [done|]. split; [|exact Hs].
  assert (Ei : delete i (items s) = items s0).
  { rewrite Hit. apply delete_insert_id, Ir. lia. }
  split; cbn; rewrite ?B1; try done; [|intros p Hpn; apply Hr; lia].
  split; cbn; rewrite ?Ei, ?B1; try done; [| |lia].
  - intros j jt Hj. destruct (Il j jt Hj) as (H1 & H2 & H3). ands; auto.
    intros Hz. apply Hf. auto.
  - intros p Hpn. destruct (Ir p) as [H1 H2]; [lia|]. split; [done|].
    by apply Hf.
Qed.

(** A new item, zeroed, with one reference *)
Lemma item_alloc_wp lf li s :
  objs lf li s ->
  dwp frame_item_alloc
    (fun i s' => i = 0 /\ objs lf li s' /\ side s' = side s \/
                 i <> 0 /\ exists s0, objs lf li s0 /\ side s0 = side s /\ building i s0 s') s.
Proof.
  intros H. unfold frame_item_alloc. eapply dwp_call; [apply kzalloc_wp|]. cbv beta.
  intros p s1 [[-> ->]|[-> ->]].
  { cbn [Z.eqb]. dstep. left. split; [done|]. split; [|done].
    eapply objs_same; [..| exact H]; done. }
  pose proof (io_next _ _ (ob_items _ _ _ H)). rewrite eqb_neq_false by lia. dsteps. right.
  split; [lia|]. exists s. ands; [done | done|].
  split; try done; cbn; [|exact (io_pages _ _ (ob_items _ _ _ H)) | lia].
  exists new_item. by ands.
Qed.

Lemma set_fields_wp i s0 s desc :
  building i s0 s -> split_fields desc = 0 ->
  dwp (set_fields i desc) (fun _ s' => building i s0 s') s.
Proof.
  intros B Hd. unfold set_fields. rewrite Hd. cbn [Z.eqb negb].
  eapply dwp_call; [by apply building_mod_item|]. cbv beta. intros _ s1 B1.
  by apply building_mod_item.
Qed.

Lemma add_fence_wp i s0 s :
  building i s0 s ->
  dwp (f ← dec_fence_alloc; mod_item i (set_fence f)) (fun _ s' => building i s0 s') s.
Proof.
  intros [B1 B2 B3 B4 (it & Hit & Hrf & Ha & (Hf1 & Hf2 & Hf3) & Hp) B7 B8 B9].
  unfold dec_fence_alloc. apply dwp_bind.
  eapply dwp_call; [apply kzalloc_wp|]. cbv beta. intros p s1 [[-> ->]|[-> ->]].
  - cbn [Z.eqb]. dstep. eapply dwp_mod_item; [cbn; rewrite Hit; apply lookup_insert_eq|].
    split; try done. exists (set_fence 0 it). cbn. rewrite Hit, insert_insert_eq.
    by ands.
  - apply dwp_if; intros Hz; zbool.
    { dstep. eapply dwp_mod_item; [cbn; rewrite Hit; apply lookup_insert_eq|].
      split; try done; cbn; [|lia]. exists (set_fence 0 it). cbn. rewrite Hit, insert_insert_eq.
      ands; try done. unfold new_fence. cbn. ands; [done | | done].
      intros p Hpn. apply Hf2. lia. }
    dsteps. eapply dwp_mod_item; [cbn; rewrite Hit; apply lookup_insert_eq|].
    split; try done; cbn; [|lia]. exists (set_fence (next_addr s) it). cbn.
    rewrite Hit, insert_insert_eq. ands; try done. unfold new_fence. cbn. ands.
    + intros g Hg. destruct (decide (g = next_addr s)) as [->|]; [rewrite lookup_insert_eq; eauto|].
      rewrite lookup_insert_ne by done. auto.
    + intros p Hpn Hn. rewrite lookup_insert_ne by lia. apply Hf2; [lia | done].
    + intros _. rewrite lookup_insert_eq. split; [lia | eauto].
Qed.

Lemma setup_fields_wp lf li i s0 s desc :
  objs lf li s0 -> building i s0 s -> split_fields desc = 0 -> i <> 0 ->
  dwp (setup_fields i desc) (fun r s' => r = i /\ objs lf (i :: li) s' /\ side s' = side s0) s.
Proof.
  intros H B Hd Hi. unfold setup_fields.
  eapply dwp_call; [by apply set_fields_wp|]. cbv beta. intros _ s1 B1. dstep.
  eapply dwp_call with (R := fun _ s' => building i s0 s').
  { apply dwp_when; intros _; [by apply add_fence_wp | done]. }
  cbv beta. intros _ s2 B2. destruct (building_item _ _ _ B2) as (it & Hit & Hpg). dstep.
  assert (Hend : forall s', quiet s2 s' -> objs lf (i :: li) s' /\ side s' = side s0).
  { intros s' [E Hl]. pose proof (main_core _ _ E) as Ec. rewrite <- (building_side _ _ _ B2).
    unfold side. rewrite (core_queue _ _ Ec), (core_fmgr _ _ Ec), (core_last _ _ Ec).
    split; [|done]. destruct (objs_built _ _ _ _ _ H B2) as [[Ho Hw [Io Il If Ir In Ip] Hr] _].
    split; rewrite ?(main_frames _ _ E), ?(core_next _ _ Ec); try done.
    split; rewrite ?(main_items _ _ E), ?(core_next _ _ Ec), ?(main_fences _ _ E), ?(core_pages _ _ Ec);
      try done. auto. }
  eapply dwp_call with (R := fun _ s' => quiet s2 s').
  { destruct (image_map it) as [map|] eqn:Em; [|by dstep].
    unfold dec_debug_trace_dma_buf_map. rewrite eqb_neq_false by done. dstep. rewrite Em.
    do 2 dstep. destruct (debug s2) as [d|]; [|by dstep].
    apply dwp_if; intros _; [by dstep|]. apply dwp_if; intros Hz; zbool; [by dsteps|].
    destruct (Hpg Hz) as [v Hv]. by dsteps. }
  cbv beta. intros _ s3 Hq. dstep. split; [done|]. by apply Hend.
Qed.
(** What a creation may return: nothing, or an item the caller owns *)
Definition created (lf li : list Z) (s0 : dec_state) (i : Z) (s : dec_state) : Prop :=
  (i = 0 /\ objs lf li s \/ i <> 0 /\ objs lf (i :: li) s) /\ side s = side s0.

Lemma setup_created lf li i s0 s desc s00 :
  objs lf li s0 -> side s0 = side s00 -> building i s0 s -> split_fields desc = 0 -> i <> 0 ->
  dwp (setup_fields i desc) (created lf li s00) s.
Proof.
  intros H Hs B Hd Hi. eapply dwp_mono; [by apply setup_fields_wp|]. cbv beta.
  intros r s' (-> & Ho & Hs'). split; [by right | congruence].
Qed.

Lemma create_linear_wp lf li s desc :
  objs lf li s -> split_fields desc = 0 -> dwp (item_create_linear desc) (created lf li s) s.
Proof.
  intros H Hd. unfold item_create_linear.
  eapply dwp_call; [by apply item_alloc_wp|]. cbv beta.
  intros i s1 [(-> & H1 & Hs1)|(Hz & s0 & H0 & Hs0 & B)].
  { cbn [Z.eqb]. dstep. split; [by left | done]. }
  rewrite eqb_neq_false by done.
  eapply dwp_call; [by apply info_init_wp|]. cbv beta. intros a s2 B2. clear B s1.
  do 3 (eapply dwp_call; [by eapply building_mod_item|]; cbv beta; clear B2; intros _ ? B2).
  by eapply setup_created.
Qed.

Lemma create_dmabuf_wp lf li s desc :
  objs lf li s -> split_fields desc = 0 -> dwp (item_create_dmabuf desc) (created lf li s) s.
Proof.
  intros H Hd. unfold item_create_dmabuf.
  eapply dwp_call; [by apply item_alloc_wp|]. cbv beta.
  intros i s1 [(-> & H1 & Hs1)|(Hz & s0 & H0 & Hs0 & B)].
  { cbn [Z.eqb]. dstep. split; [by left | done]. }
  rewrite eqb_neq_false by done.
  assert (Hab : forall s', building i s0 s' -> dwp (kfree_item i;; mret 0) (created lf li s) s').
  { intros s' B'. eapply dwp_mono; [by eapply abandon_wp|]. cbv beta.
    intros r s2 (-> & H2 & Hs2). split; [by left | congruence]. }
  eapply dwp_call; [by apply dma_map_wp|]. cbv beta. intros im s2 B2. clear B s1.
  destruct im as [map|]; [|by apply Hab].
  eapply dwp_call; [by eapply building_mod_item|]. cbv beta. clear B2. intros _ s3 B3.
  eapply dwp_call; [by apply dma_map_wp|]. cbv beta. clear B3. intros inf s4 B4.
  destruct inf as [imap|].
  2: { eapply dwp_call with (R := fun _ s' => building i s0 s'); [|cbv beta; intros _; apply Hab].
       cbn [dec_dma_unmap]. unfold dma_buf_unmap_attachment, dma_buf_detach, dma_buf_put. dsteps.
       bsame B4. }
  eapply dwp_call; [by eapply building_mod_item|]. cbv beta. clear B4. intros _ s5 B5.
  eapply dwp_call with (R := fun _ s' => building i s0 s').
  { unfold item_addresses.
    eapply dwp_call; [by apply info_init_dmabuf_wp|]. cbv beta. clear B5. intros a s6 B6.
    do 5 (eapply dwp_call; [by eapply building_mod_item|]; cbv beta; clear B6; intros _ ? B6).
    by eapply building_mod_item. }
  cbv beta. clear B5. intros _ s6 B6. by eapply setup_created.
Qed.

(** A creation either fails, and every reference is accounted for as before,
    or the caller owns one reference to a new item. *)
Lemma frame_item_create_wp lf li s desc :
  objs lf li s -> split_fields desc = 0 -> dwp (frame_item_create desc) (created lf li s) s.
Proof.
  intros H Hd. unfold frame_item_create.
  apply dwp_if; intros _; [by apply create_linear_wp|].
  apply dwp_if; intros _; [|by apply create_dmabuf_wp].
  dstep. split; [by left | done].
Qed.

Lemma item_create_stream lk hf hi s q m desc :
  streaming lk hf hi s q m -> split_fields desc = 0 ->
  dwp (frame_item_create desc)
    (fun i s' => i = 0 /\ streaming lk hf hi s' q m \/ i <> 0 /\ streaming lk hf (i :: hi) s' q m) s.
Proof.
  intros [Hq Hm Hlk Hc Hp Hs Ho] Hd.
  eapply dwp_mono; [by apply frame_item_create_wp|]. cbv beta.
  intros i s' [Hcr Es]. unfold side in Es. injection Es as E1 E2 E3.
  destruct Hcr as [[-> H]|[Hz H]]; [left | right]; (split; [done|]); split; try done;
    try congruence; unfold roots; by rewrite E3.
Qed.
End Create.
