(* ===== verification/DecdSafe.v ===== *)
(** The progressive stream as a transition system: the moves of the contexts
    that run in the decoder display driver, the abstract display they follow,
    and what holds in every reachable state - no access to a freed object, a
    stream that freezes after an underrun, a stop that never completes, and
    frames that are never freed. *)
From S2P Require Import Prelude Mem DecdRegs Decd DecdOwn DecdItem DecdQueue DecdDevice.
From S2P Require Import DecdFrames DecdStream DecdSteps DecdCreate.

Section Safe.
Context `{K : DecKernel} {L : DecLaws K}.

(** ** Moves *)

(** The first half of dec_frame_manager_stop *)
Definition stop_request : D unit :=
  m ← getm;
  dwhen ((fm_state m =? 1) || (fm_state m =? 2))
    (modm (set_fm_request 1);; modm (set_fm_state 3)).

(** The tasklet and the work run when they are pending. *)
Definition run_tasklet : D unit :=
  p ← dget tasklet_pending;
  dwhen p (dmod (set_tasklet_pending false);; dec_frame_queue_refresh).
Definition run_work : D unit :=
  p ← dget release_pending;
  dwhen p (dmod (set_release_pending false);; dec_frame_release_process).

(** What one context does in one go.  dec_frame_submit is a sequence of the
    first five; the work may also be interrupted between its rounds. *)
Inductive dec_op :=
| OpCreate (desc : dec_frame_submit_desc)
| OpGet (item : Z)
| OpReady (item : Z)
| OpResume
| OpRelease (item : Z)
| OpVsync (now jiffies : Z)
| OpTasklet
| OpWork
| OpWorkRound
| OpWorkLast
| OpStop.

(** [hi]: the references to items that ioctls hold in local variables, before
    and after. *)
Definition perform (hi : list Z) (o : dec_op) : D (list Z) :=
  match o with
  | OpCreate desc => i ← frame_item_create desc; mret (if i =? 0 then hi else i :: hi)
  | OpGet i => item_get i;; mret (i :: hi)
  | OpReady i => r ← enqueue_ready i; mret (if r =? 0 then remove_one i hi else hi)
  | OpResume => dec_frame_queue_resume;; mret hi
  | OpRelease i => frame_item_release i;; mret (remove_one i hi)
  | OpVsync now j => dec_vsync_handler now j;; mret hi
  | OpTasklet => run_tasklet;; mret hi
  | OpWork => run_work;; mret hi
  | OpWorkRound => release_round;; mret hi
  | OpWorkLast => release_last;; mret hi
  | OpStop => stop_request;; mret hi
  end.

(** Only held items are used, and none has split fields. *)
Definition allowed (hi : list Z) (o : dec_op) : Prop :=
  match o with
  | OpCreate desc => split_fields desc = 0
  | OpGet i | OpReady i | OpRelease i => i ∈ hi
  | _ => True
  end.

#[export] Instance allowed_dec hi o : Decision (allowed hi o).
Proof. destruct o; cbn; apply _. Defined.

Definition dec_step (x y : dec_state * list Z) : Prop :=
  exists o, allowed x.2 o /\ perform x.2 o x.1 = Done y.2 y.1.

(** Run a list of moves. *)
Fixpoint run_ops (l : list dec_op) (x : dec_state * list Z) : option (dec_state * list Z) :=
  match l with
  | [] => Some x
  | o :: l =>
      if decide (allowed x.2 o) then
        match perform x.2 o x.1 with Done hi s => run_ops l (s, hi) | Halt _ => None end
      else None
  end.

Lemma star_left (x y z : dec_state * list Z) : dec_step x y -> star dec_step y z -> star dec_step x z.
Proof.
  intros H. induction 1 as [|u v w _ IH Hs].
  - eapply star_right; [constructor | exact H].
  - eapply star_right; [by apply IH | exact Hs].
Qed.

Lemma run_ops_star l x y : run_ops l x = Some y -> star dec_step x y.
Proof.
  revert x. induction l as [|o l IH]; intros x; cbn; [intros [= ->]; constructor|].
  destruct (decide (allowed x.2 o)) as [Ha|]; [|done].
  destruct (perform x.2 o x.1) as [hi s|] eqn:E; [|done].
  intros H. apply (star_left x (s, hi)); [exists o; by split | by apply IH].
Qed.

(** ** The abstract display

    A move is labelled with what is handed in and what newly goes on display.
    The display is polymorphic in what it shows: of the code's state it shows
    frames, of the stream the items that the callers submitted. *)

Inductive ad_step : Z * display -> list Z -> list Z -> Z * display -> Prop :=
| ad_stay x : ad_step x [] [] x
| ad_submit st d v : v <> 0 ->
    ad_step (st, d) [v] [] (st, Display (shown d) (waiting d ++ [v]) (frozen d))
| ad_start d v rest : waiting d = v :: rest ->
    ad_step (0, d) [] [v] (1, Display v rest false)
| ad_restart d : ad_step (2, d) [] [] (1, d)
| ad_show d v rest : frozen d = false -> waiting d = v :: rest ->
    ad_step (1, d) [] [v] (1, Display v rest false)
| ad_underrun d : frozen d = false -> waiting d = [] ->
    ad_step (1, d) [] [] (1, Display (shown d) [] true)
| ad_request st d : st = 1 \/ st = 2 -> ad_step (st, d) [] [] (3, d)
| ad_stopped d : ad_step (3, d) [] [] (2, d).

Definition ad_move (a b : Z * display) : Prop := exists subs shows, ad_step a subs shows b.

Lemma ad_resume st d : exists shows, ad_step (st, d) [] shows (resumed st d).
Proof.
  unfold resumed. destruct (Z.eqb_spec st 0) as [->|_].
  - destruct (waiting d) as [|v rest] eqn:E; eexists; [apply ad_stay | by apply ad_start].
  - destruct (Z.eqb_spec st 2) as [->|_]; eexists; [apply ad_restart | apply ad_stay].
Qed.

Lemma ad_show_next d : exists shows, ad_step (1, d) [] shows (1, show_next d).
Proof.
  unfold show_next. destruct (frozen d) eqn:Ef; [eexists; apply ad_stay|].
  destruct (waiting d) as [|v rest] eqn:E; eexists; [by apply ad_underrun | by apply ad_show].
Qed.

(** The concrete state has the invariant and shows [d]. *)
Definition stream_at (hf : list Z) (x : dec_state * list Z) (a : Z * display) : Prop :=
  0 ∉ x.2 /\ exists q m, streaming false hf x.2 x.1 q m /\ a = (fm_state m, display_of q m).

Lemma remove_one_occ i l p : i ∈ l -> occ p l = occ p (i :: remove_one i l).
Proof.
  induction l as [|x l IH]; [by intros ?%not_elem_of_nil|]. intros Hin. cbn.
  destruct (Z.eqb_spec x i) as [->|Hne]; [done|].
  assert (Hl : i ∈ l) by (apply elem_of_cons in Hin as [->|]; done).
  rewrite !occ_cons, (IH Hl), !occ_cons. lia.
Qed.

(** Bring one held item to the front. *)
Lemma streaming_pick lk hf hi i s q m :
  streaming lk hf hi s q m -> i ∈ hi -> streaming lk hf (i :: remove_one i hi) s q m.
Proof.
  intros [Hq Hm Hlk Hc Hp Hs Ho] Hin. split; try done.
  eapply objs_le; [| | exact Ho]; [done|]. intros p _. by rewrite (remove_one_occ i hi p Hin).
Qed.

Lemma remove_one_sub i l : 0 ∉ l -> 0 ∉ remove_one i l.
Proof. intros H Hin. apply H. by eapply remove_one_in. Qed.

Lemma stop_request_wp hf hi s q m :
  streaming false hf hi s q m ->
  dwp stop_request
    (fun _ s' => exists m', streaming false hf hi s' q m' /\ display_of q m' = display_of q m /\
       fm_state m' = (if (fm_state m =? 1) || (fm_state m =? 2) then 3 else fm_state m)) s.
Proof.
  intros H. pose proof (st_m _ _ _ _ _ _ H) as Hm. unfold stop_request. dstep.
  apply dwp_when; intros Hst; rewrite Hst; [|by exists m]. dsteps.
  exists (set_fm_state 3 (set_fm_request 1 m)). split; [upd H | done].
  pose proof (st_step _ _ _ _ _ _ H) as (Hr & H0 & H1). unfold in_step. cbn.
  ands; try lia.
Qed.

Lemma vsync_handler_wp hf hi s q m now j :
  streaming false hf hi s q m ->
  dwp (dec_vsync_handler now j)
    (fun _ s' => exists q' m', streaming false hf hi s' q' m' /\
       display_of q' m' = display_of q m /\ fm_state m' = fm_state m) s.
Proof.
  intros H. unfold dec_vsync_handler. dstep. destruct (dec_irq_query (regs s)) as [raised rb].
  dstep. apply dwp_if; intros _.
  { dstep. exists q, m. split; [upd H | done]. }
  dsteps. set (s1 := set_vsync _ _).
  assert (H1 : streaming false hf hi s1 q m) by (upd H). clearbody s1.
  eapply dwp_call with (R := fun _ s' => streaming false hf hi s' q m).
  { destruct (debug s1); dsteps; [upd H1 | exact H1]. }
  cbv beta. intros _ s2 H2. eapply dwp_call with
    (R := fun _ s' => exists q' m', streaming false hf hi s' q' m' /\
       display_of q' m' = display_of q m /\ fm_state m' = fm_state m).
  { unfold dec_frame_manager_handle_vsync. dstep. rewrite (st_m _ _ _ _ _ _ H2).
    eapply dwp_mono; [by apply vsync_process_wp|]. cbv beta.
    intros _ s3 (q3 & m3 & H3 & Hd & Hs & _). eauto. }
  cbv beta. intros _ s3 (q3 & m3 & H3 & Hd & Hs). dsteps. exists q3, m3. split; [upd H3 | done].
Qed.

Lemma ad_refresh (q : dec_frame_queue) (m : dec_frame_manager) st d (b : bool) :
  d = (if (fm_state m =? 1) && b then show_next (display_of q m) else display_of q m) ->
  st = (if (fm_state m =? 3) && b then 2 else fm_state m) ->
  exists shows, ad_step (fm_state m, display_of q m) [] shows (st, d).
Proof.
  intros -> ->. destruct b; rewrite ?andb_true_r, ?andb_false_r; [|eexists; apply ad_stay].
  destruct (Z.eqb_spec (fm_state m) 1) as [->|]; [apply ad_show_next|].
  destruct (Z.eqb_spec (fm_state m) 3) as [->|]; eexists; constructor.
Qed.

(** Every move, from a state with the invariant, returns, keeps it, and does to
    the display what the abstract one does. *)
Lemma move_wp hf s hi o a :
  stream_at hf (s, hi) a -> allowed hi o ->
  dwp (perform hi o) (fun hi' s' => exists a' subs shows, stream_at hf (s', hi') a' /\
    ad_step a subs shows a' /\ (subs = [] \/ exists i, o = OpReady i)) s.
Proof.
  intros (Hz & q & m & H & ->) Hc. cbn [fst snd] in *.
  assert (Hstay : forall q' m' s', streaming false hf hi s' q' m' ->
            display_of q' m' = display_of q m -> fm_state m' = fm_state m ->
            exists a' subs shows, stream_at hf (s', hi) a' /\
              ad_step (fm_state m, display_of q m) subs shows a' /\ (subs = [] \/ exists i, o = OpReady i)).
  { intros q' m' s' H' Hd Hs. eexists _, [], []. ands;
      [split; [done|]; exists q', m'; split; [exact H' | done] | | by left].
    rewrite Hd, Hs. constructor. }
  destruct o as [desc | i | i | | i | now j | | | | | ]; cbn [allowed perform] in *;
    first [rename Hc into Hi | idtac].
  - eapply dwp_call; [by apply item_create_stream|]. cbv beta. intros i s1 H1. dstep.
    eexists _, [], []. ands; [| apply ad_stay | by left]. destruct H1 as [[-> H1]|[Hiz H1]].
    + split; [done|]. exists q, m. by split.
    + rewrite eqb_neq_false by done. split; [set_solver|]. exists q, m. by split.
  - eapply dwp_call; [apply item_get_wp; [exact H | done |]; by intros -> |]. cbv beta.
    intros _ s1 H1. dstep. eexists _, [], []. ands; [| apply ad_stay | by left]. split; [set_solver|].
    exists q, m. by split.
  - eapply dwp_call; [apply enqueue_ready_wp; [by apply streaming_pick | by intros ->]|]. cbv beta.
    intros r s1 (m1 & Hs1 & [(-> & H1 & Hd1)|(-> & H1 & vf & Hv & Hd1)]); cbn [Z.eqb]; dstep.
    + eexists _, [], []. ands; [split; [done|]; exists q, m1; split; [|done] | | by left].
      { destruct H1 as [H2 H3 H4 H5 H6 H7 H8]. split; try done.
        eapply objs_le; [| | exact H8]; [done|]. intros p _. cbn [snd]. by rewrite (remove_one_occ i hi p Hi). }
      rewrite Hs1, Hd1. constructor.
    + eexists _, [vf], []. ands;
        [split; [by apply remove_one_sub|]; exists q, m1; by split | | by eauto].
      rewrite Hs1, Hd1. by constructor.
  - eapply dwp_call; [by apply queue_resume_wp|]. cbv beta. intros _ s1 (q1 & m1 & H1 & Hd1). dstep.
    destruct (ad_resume (fm_state m) (display_of q m)) as [shows Ha]. eexists _, [], shows.
    ands; [split; [done|]; exists q1, m1; split; [exact H1 | reflexivity] | by rewrite Hd1 | by left].
  - eapply dwp_call; [apply item_release_wp; [by apply streaming_pick | by intros ->]|]. cbv beta.
    intros _ s1 H1. dstep. eexists _, [], []. ands; [| apply ad_stay | by left].
    split; [by apply remove_one_sub|]. exists q, m. by split.
  - eapply dwp_call; [by apply vsync_handler_wp|]. cbv beta. intros _ s1 (q1 & m1 & H1 & Hd1 & Hs1).
    dstep. by eapply Hstay.
  - eapply dwp_call with (R := fun _ s' => exists q' m', streaming false hf hi s' q' m' /\
      exists shows, ad_step (fm_state m, display_of q m) [] shows (fm_state m', display_of q' m')).
    { unfold run_tasklet. dstep.
      apply dwp_when; intros _; [|exists q, m; split; [done | eexists; constructor]].
      dstep. eapply dwp_mono; [eapply queue_refresh_wp with (q := q) (m := m); upd H|]. cbv beta.
      intros _ s1 (q1 & m1 & H1 & Hd1 & Hs1). exists q1, m1. split; [done|]. by eapply ad_refresh. }
    cbv beta. intros _ s1 (q1 & m1 & H1 & shows & Ha1). dstep. eexists _, [], shows.
    ands; [split; [done|]; exists q1, m1; by split | exact Ha1 | by left].
  - eapply dwp_call with (R := fun _ s' => exists q', streaming false hf hi s' q' m /\
      display_of q' m = display_of q m).
    { unfold run_work. dstep. apply dwp_when; intros _; [|by exists q].
      dstep. eapply dwp_mono; [eapply release_process_wp with (q := q) (m := m); upd H|]. cbv beta.
      intros _ s1 (q1 & H1 & Hd1 & _). by exists q1. }
    cbv beta. intros _ s1 (q1 & H1 & Hd1). dstep. by eapply Hstay.
  - eapply dwp_call; [by apply release_round_wp|]. cbv beta. intros b s1 (q1 & H1 & Hd1 & _). dstep.
    by eapply Hstay.
  - eapply dwp_call; [by apply release_last_wp|]. cbv beta. intros b s1 (q1 & H1 & Hd1 & _). dstep.
    by eapply Hstay.
  - eapply dwp_call; [by apply stop_request_wp|]. cbv beta. intros _ s1 (m1 & H1 & Hd1 & Hs1). dstep.
    eexists _, [], []. ands; [split; [done|]; exists q, m1; by split | rewrite Hd1, Hs1 | by left].
    destruct (Z.eqb_spec (fm_state m) 1) as [->|]; [apply ad_request; by left|].
    destruct (Z.eqb_spec (fm_state m) 2) as [->|]; [apply ad_request; by right|]. constructor.
Qed.

Lemma step_at hf x y a :
  stream_at hf x a -> dec_step x y -> exists b, stream_at hf y b /\ ad_move a b.
Proof.
  destruct x as [s hi], y as [s' hi']. intros H (o & Hc & Hrun).
  pose proof (move_wp hf s hi o a H Hc) as Hw. unfold dwp in Hw. cbn in Hrun. rewrite Hrun in Hw.
  destruct Hw as (b & subs & shows & Hb & Hab & _). exists b. split; [done | by exists subs, shows].
Qed.

Lemma star_at hf x y a :
  stream_at hf x a -> star dec_step x y -> exists b, stream_at hf y b /\ star ad_move a b.
Proof.
  intros H Hs. induction Hs as [|x y z Hs IH Hst].
  - exists a. split; [done | constructor].
  - destruct (IH H) as (b & Hb & Hab). destruct (step_at _ _ _ _ Hb Hst) as (c & Hc & Hbc).
    exists c. split; [done | by eapply star_right].
Qed.
(** ** The start *)

Record just_enabled (s : dec_state) : Prop := {
  je_fmgr : fmgr s = Some new_manager;
  je_queue : queue s = Some (set_repeat_ctrl_cb true (set_q_dec true new_queue));
  je_last : last_frame s = 0;
  je_frames : frames s = ∅;
  je_items : items s = ∅;
  je_fences : fences s = ∅;
  je_pages : pages_live s;
  je_next : 4096 <= next_addr s;
}.

Lemma just_enabled_at s : just_enabled s -> stream_at [] (s, []) (0, Display 0 [] false).
Proof.
  intros [Hm Hq Hl Hf Hi Hfe Hp Hn]. split; [apply not_elem_of_nil|]. cbn.
  exists (set_repeat_ctrl_cb true (set_q_dec true new_queue)), new_manager.
  split; [|reflexivity]. split; [exact Hq | exact Hm | done | | | |].
  - by unfold calm.
  - unfold plain. cbn. ands; try done. apply not_elem_of_nil.
  - unfold in_step. cbn. ands; done.
  - unfold roots. rewrite Hl. cbn. split.
    + intros p Hz. rewrite !occ_cons, occ_nil, !decide_False by done. lia.
    + intros p v. by rewrite Hf, lookup_empty.
    + split; by rewrite ?Hf, ?Hi, ?Hfe.
    + intros p _. by rewrite Hf, lookup_empty.
Qed.

(** Once the stream looks at its ready list no more, the frame that is shown
    stays. *)
Lemma ad_frozen a b :
  a.1 <> 0 -> frozen a.2 = true -> ad_move a b ->
  b.1 <> 0 /\ frozen b.2 = true /\ shown b.2 = shown a.2.
Proof.
  intros Hs Hf (subs & shows & Hab). destruct Hab; cbn in *; first [by ands | congruence].
Qed.

Lemma ad_frozen_star a b :
  a.1 <> 0 -> frozen a.2 = true -> star ad_move a b -> b.1 <> 0 /\ shown b.2 = shown a.2.
Proof.
  intros Hs Hf Hab. cut (b.1 <> 0 /\ frozen b.2 = true /\ shown b.2 = shown a.2); [tauto|].
  induction Hab as [|a b c _ IH Hbc]; [done|]. destruct (IH Hs Hf) as (H1 & H2 & <-).
  by apply ad_frozen.
Qed.

(** A stream that started does not return to state 0. *)
Lemma ad_running a b : a.1 <> 0 -> ad_move a b -> b.1 <> 0.
Proof. intros Hs (subs & shows & Hab). by destruct Hab. Qed.

Lemma ad_running_star a b : a.1 <> 0 -> star ad_move a b -> b.1 <> 0.
Proof. intros Hs Hab. induction Hab; eauto using ad_running. Qed.

End Safe.

(** ** A run for the witnesses *)

Definition enabled_dec : dec_state := final (dec_enable probed).

(** A progressive frame: NV12 in the dma-buf [fd]. *)
Definition frame_desc (fd : Z) : dec_frame_submit_desc :=
  SubmitDesc 0 0 fd 6 1920 1080 16 (fd + 1) 0 1 0 0.

(** The vsync interrupt is raised and enabled in the register block. *)
Definition raise_irq (s : dec_state) : dec_state :=
  set_regs (match regs s with
            | Some r => Some (writeb 1 (workaround r + 96) (writeb 1 (workaround r + 100) r))
            | None => None
            end) s.

Definition powered : dec_state := raise_irq enabled_dec.

(** What dec_frame_submit of one frame does, when the new item is at [item]. *)
Definition submit_ops (fd item : Z) : list dec_op :=
  [OpCreate (frame_desc fd); OpGet item; OpReady item; OpResume; OpRelease item].

Lemma powered_enabled : just_enabled powered.
Proof.
  split; try (vm_compute; reflexivity); [| vm_compute; discriminate].
  intros p Hp. assert (Hl : free_pages powered = [4096; 8192; 12288; 16384]) by (vm_compute; reflexivity).
  rewrite Hl in Hp.
  repeat (apply elem_of_cons in Hp as [->|Hp]; [split; [done | eexists; vm_compute; reflexivity]|]).
  by apply not_elem_of_nil in Hp.
Qed.

Definition run_state (o : option (dec_state * list Z)) : dec_state * list Z := default (cold, []) o.

Definition ran (l : list dec_op) : dec_state * list Z := run_state (run_ops l (powered, [])).
Definition ran_ok (l : list dec_op) : bool :=
  match run_ops l (powered, []) with Some _ => true | None => false end.

Lemma ran_reached l :
  ran_ok l = true -> star dec_step (powered, []) ((ran l).1, (ran l).2).
Proof.
  rewrite <- surjective_pairing. unfold ran_ok, ran.
  destruct (run_ops l (powered, [])) as [y|] eqn:E; [|done]. intros _. by apply run_ops_star with l.
Qed.

(** Two frames, the second one in the slots; a single frame that reached the
    registers; four frames in a row. *)
Definition two_frames : list dec_op :=
  submit_ops 5 20480 ++ [OpVsync 0 0; OpWork] ++ submit_ops 7 40960 ++ [OpTasklet].
Definition one_frame : list dec_op := submit_ops 5 20480 ++ [OpVsync 0 0].
Definition four_frames : list dec_op :=
  two_frames ++ [OpVsync 0 0; OpWork] ++ submit_ops 9 61440 ++ [OpTasklet; OpVsync 0 0; OpWork]
  ++ submit_ops 11 81920 ++ [OpTasklet; OpVsync 0 0].

Definition queue_of (s : dec_state) : dec_frame_queue := default new_queue (queue s).
Definition manager_of (s : dec_state) : dec_frame_manager := default new_manager (fmgr s).

(** ** The claims *)

Section Claims.
Context `{K : DecKernel} {L : DecLaws K}.

(** C3: Whatever the interleaving of submissions, vsync interrupts, tasklet,
    release work and stop requests on a progressive stream, no step ever
    touches a freed frame, item, fence or page, relocks a lock or dereferences
    NULL: every allowed move returns; and what the slots show is a live frame
    with a live item. *)
Theorem stream_memory_safe s0 s hi :
  just_enabled s0 -> star dec_step (s0, []) (s, hi) ->
  (forall o, allowed hi o -> exists hi' s', perform hi o s = Done hi' s') /\
  (exists q, queue s = Some q /\ forall i, slot i q <> 0 ->
     exists v it, frames s !! slot i q = Some v /\ items s !! payload v = Some it).
Proof.
  intros H0 Hs. destruct (star_at [] _ _ _ (just_enabled_at _ H0) Hs) as (a & Ha & _).
  split.
  - intros o Ho. destruct (dwp_inv _ _ _ (move_wp [] s hi o a Ha Ho)) as (hi' & s' & E & _). eauto.
  - destruct Ha as (_ & q & m & H & _). cbn in H. exists q. split; [apply H|].
    intros i Hi. rewrite (slot_calm i q (st_calm _ _ _ _ _ _ H)) in *.
    destruct (objs_live _ _ _ (slot3 q) (st_objs _ _ _ _ _ _ H)) as (v & it & Hv & Hit & _);
      [unfold roots; set_solver | done | eauto].
Qed.

(** C39: A single underrun freezes a progressive stream for good: if the tasklet
    finds the ready list empty once, then however many frames are submitted
    afterwards, all four slots show the same old frame in every later state. *)
Theorem underrun_freezes s0 s hi q m s1 y :
  just_enabled s0 -> star dec_step (s0, []) (s, hi) ->
  queue s = Some q -> fmgr s = Some m ->
  fm_state m = 1 -> dirty q = 0 -> ready_list m = [] -> tasklet_pending s = true ->
  run_tasklet s = Done tt s1 -> star dec_step (s1, hi) y ->
  exists q', queue y.1 = Some q' /\ forall i, slot i q' = slot3 q.
Proof.
  intros H0 Hs Hq Hm Hst Hd Hr Hp Hrun Hy.
  destruct (star_at [] _ _ _ (just_enabled_at _ H0) Hs) as (a & Ha & _).
  destruct Ha as (Hz & q0 & m0 & H & ->). cbn in Hz, H.
  assert (q0 = q) as -> by (pose proof (st_q _ _ _ _ _ _ H); congruence).
  assert (m0 = m) as -> by (pose proof (st_m _ _ _ _ _ _ H); congruence).
  assert (H1 : stream_at [] (s1, hi) (1, show_next (display_of q m))).
  { pose proof (queue_refresh_wp [] hi (set_tasklet_pending false s) q m) as Hw.
    unfold run_tasklet, mbind, D_bind in Hrun. cbn in Hrun. rewrite Hp in Hrun. cbn in Hrun.
    unfold dwp in Hw. rewrite Hrun in Hw. destruct Hw as (q1 & m1 & H1 & Hd1 & Hs1); [upd H|].
    split; [done|]. exists q1, m1. split; [exact H1|]. rewrite Hd1, Hs1, Hst, Hd. done. }
  destruct (star_at [] _ _ _ H1 Hy) as (b & (_ & q' & m' & H' & ->) & Hab).
  destruct (ad_frozen_star (1, show_next (display_of q m)) (fm_state m', display_of q' m'))
    as [_ Hsh]; [done | | done |].
  - unfold show_next, display_of. cbn. rewrite Hr. by destruct (force_interlace m =? 0).
  - exists q'. split; [apply H'|]. intros i. rewrite (slot_calm i q' (st_calm _ _ _ _ _ _ H')).
    cbn in Hsh. rewrite Hsh. unfold show_next, display_of. cbn. rewrite Hr.
    by destruct (force_interlace m =? 0).
Qed.

(** C40: Stopping a progressive stream never completes: once a stream has
    started, whatever the interrupt, the tasklet and the work do while
    dec_frame_manager_stop sleeps, the state it waits for is not reached; it
    times out, nothing is freed and the last frame stays in the slots. *)
Theorem progressive_stop_times_out s0 s hi m others r s' :
  just_enabled s0 -> star dec_step (s0, []) (s, hi) ->
  fmgr s = Some m -> fm_state m <> 0 ->
  (forall s1 s2, others s1 = Done tt s2 -> star dec_step (s1, hi) (s2, hi)) ->
  dec_frame_manager_stop others s = Done r s' ->
  star dec_step (s, hi) (s', hi) /\
  exists q' m' v, queue s' = Some q' /\ fmgr s' = Some m' /\ fm_state m' <> 0 /\
    frames s' !! slot0 q' = Some v.
Proof.
  intros H0 Hs Hm Hst Hoth Hrun.
  destruct (star_at [] _ _ _ (just_enabled_at _ H0) Hs) as (a & Ha & _).
  pose proof Ha as (Hz & q & m0 & H & ->). cbn in Hz, H.
  assert (m0 = m) as -> by (pose proof (st_m _ _ _ _ _ _ H); congruence).
  destruct (dwp_inv _ _ _ (stop_request_wp [] hi s q m H)) as ([] & s1 & E1 & m1 & H1 & _ & Hs1).
  assert (Hst1 : fm_state m1 <> 0) by (rewrite Hs1; destruct (_ || _); lia).
  assert (Hstep : dec_step (s, hi) (s1, hi)).
  { exists OpStop. split; [done|]. cbn. by rewrite (bind_done _ _ _ _ _ E1). }
  destruct (others s1) as [[] s2|] eqn:E2.
  2: { exfalso. unfold dec_frame_manager_stop, dget, stop_request, getm, mbind, D_bind in *.
       rewrite Hm in *. rewrite E1 in Hrun. rewrite (st_m _ _ _ _ _ _ H1) in Hrun.
       rewrite eqb_neq_false in Hrun by done. cbn in Hrun. by rewrite E2 in Hrun. }
  assert (H2 : stream_at [] (s1, hi) (fm_state m1, display_of q m1)).
  { split; [done|]. exists q, m1. by split. }
  destruct (star_at [] _ _ _ H2 (Hoth _ _ E2)) as (b & (_ & q2 & m2 & H3 & ->) & Hab).
  pose proof (ad_running_star (fm_state m1, display_of q m1) _ Hst1 Hab) as Hst2. cbn in Hst2, H3.
  assert (s2 = s') as ->.
  { unfold dec_frame_manager_stop, dget, stop_request, getm, mbind, D_bind in *.
    rewrite Hm in *. rewrite E1 in Hrun. rewrite (st_m _ _ _ _ _ _ H1) in Hrun.
    rewrite eqb_neq_false in Hrun by done. cbn in Hrun. rewrite E2 in Hrun.
    rewrite (st_m _ _ _ _ _ _ H3) in Hrun. rewrite eqb_neq_false in Hrun by done.
    cbn in Hrun. by injection Hrun. }
  split.
  { assert (Hone : star dec_step (s1, hi) (s', hi)) by (by apply Hoth).
    by eapply star_left. }
  pose proof (st_calm _ _ _ _ _ _ H3) as (_ & _ & _ & _ & _ & Hsl & _).
  destruct (objs_live _ _ _ (slot3 q2) (st_objs _ _ _ _ _ _ H3)) as (v & _ & Hv & _).
  { unfold roots. set_solver. }
  { by apply (st_step _ _ _ _ _ _ H3). }
  exists q2, m2, v. rewrite Hsl. ands; [apply H3 | apply H3 | done | done].
Qed.

Lemma release_one_wp hf hi s q m vf :
  streaming false hf hi s q m -> dirty q = 0 -> release_fifo q = [vf] ->
  dwp dec_frame_release_process
    (fun _ s' => exists q', streaming false (last_frame s :: hf) hi s' q' m /\ last_frame s' = vf) s.
Proof.
  intros H Hd Hf. pose proof (st_q _ _ _ _ _ _ H) as Hq.
  unfold dec_frame_release_process. dstep. rewrite Hf. cbn [length release_loop].
  apply dwp_bind, dwp_bind. unfold release_round. dstep. rewrite Hf. cbn [length Nat.ltb Nat.leb].
  dsteps. unfold release_last. dstep. rewrite Hd. cbn [Z.eqb dwhen].
  apply dwp_bind. eapply lock_queue_wp; [exact Hq | apply H |]. dstep.
  change (release_fifo (set_q_locked true q)) with (release_fifo q).
  rewrite Hf, kfifo_out_cons. unfold unlock_queue. dsteps.
  exists (set_q_locked false (set_release_fifo [] (set_q_locked true q))). split; [|done].
  upd H. intros p Hp. unfold roots. cbn. rewrite Hf. occ_solve.
Qed.

(** The release work forgets a frame instead of releasing it: run when one
    frame waits in the release fifo and the queue is clean, it overwrites
    [last_frame] without dropping the reference that was there.  The old frame
    is still allocated in every later state, with its item (and so its buffers
    and its unsignalled fence). *)
Theorem lost_frame_never_freed s0 s hi q vf s1 y :
  just_enabled s0 -> star dec_step (s0, []) (s, hi) ->
  queue s = Some q -> dirty q = 0 -> release_fifo q = [vf] -> last_frame s <> 0 ->
  dec_frame_release_process s = Done tt s1 -> star dec_step (s1, hi) y ->
  last_frame s1 = vf /\
  exists v it, frames y.1 !! last_frame s = Some v /\ items y.1 !! payload v = Some it.
Proof.
  intros H0 Hs Hq Hd Hf Hl Hrun Hy.
  destruct (star_at [] _ _ _ (just_enabled_at _ H0) Hs) as (a & (Hz & q0 & m & H & ->) & _).
  cbn in Hz, H. assert (q0 = q) as -> by (pose proof (st_q _ _ _ _ _ _ H); congruence).
  pose proof (release_one_wp [] hi s q m vf H Hd Hf) as Hw. unfold dwp in Hw. rewrite Hrun in Hw.
  destruct Hw as (q1 & H1 & Hlf). split; [done|].
  assert (H2 : stream_at [last_frame s] (s1, hi) (fm_state m, display_of q1 m)).
  { split; [done|]. exists q1, m. by split. }
  destruct (star_at _ _ _ _ H2 Hy) as (b & (_ & q2 & m2 & H3 & _) & _).
  destruct (objs_live _ _ _ (last_frame s) (st_objs _ _ _ _ _ _ H3)) as (v & it & Hv & Hit & _);
    [left | done | eauto].
Qed.
End Claims.

(** ** Witnesses *)

Definition showing_two : dec_state := (ran two_frames).1.

Lemma stream_memory_safe_witness :
  slot0 (queue_of showing_two) = 57344 /\
  (forall o, allowed (ran two_frames).2 o ->
     exists hi' s', perform (ran two_frames).2 o showing_two = Done hi' s') /\
  (exists q, queue showing_two = Some q /\ forall i, slot i q <> 0 ->
     exists v it, frames showing_two !! slot i q = Some v /\ items showing_two !! payload v = Some it).
Proof.
  split; [vm_compute; reflexivity|].
  apply (stream_memory_safe powered _ _ powered_enabled).
  apply ran_reached. vm_compute. reflexivity.
Defined.

(** One frame is shown, the tasklet finds no other, and two more are submitted
    and refreshed. *)
Definition after_underrun : dec_state := final (run_tasklet (ran one_frame).1).
Definition frozen_run : list dec_op :=
  OpVsync 0 0 :: submit_ops 7 40960 ++ [OpTasklet; OpVsync 0 0] ++ submit_ops 9 61440
  ++ [OpTasklet; OpVsync 0 0; OpTasklet].
Definition frozen_end : dec_state * list Z :=
  run_state (run_ops frozen_run (after_underrun, (ran one_frame).2)).

Lemma underrun_freezes_witness :
  ready_list (manager_of frozen_end.1) = [57344; 77824] /\
  exists q', queue frozen_end.1 = Some q' /\ forall i, slot i q' = 36864.
Proof.
  split; [vm_compute; reflexivity|].
  apply (underrun_freezes powered (ran one_frame).1 (ran one_frame).2 (queue_of (ran one_frame).1)
           (manager_of (ran one_frame).1) after_underrun);
    [exact powered_enabled | apply ran_reached; vm_compute; reflexivity
    | vm_compute; reflexivity .. | ].
  apply (run_ops_star frozen_run). vm_compute. reflexivity.
Defined.

(** While the caller sleeps: tasklet, vsync, work, twice. *)
Definition others_run : list dec_op :=
  [OpTasklet; OpVsync 0 0; OpWork; OpTasklet; OpVsync 0 0; OpWork].
Definition play (l : list dec_op) (hi : list Z) : D unit := fun s =>
  match run_ops l (s, hi) with
  | Some (s', hi') => if decide (hi' = hi) then Done tt s' else Halt OutOfFuel
  | None => Halt OutOfFuel
  end.

Lemma play_star l hi s s' : play l hi s = Done tt s' -> star dec_step (s, hi) (s', hi).
Proof.
  unfold play. destruct (run_ops l (s, hi)) as [[s2 hi2]|] eqn:E; [|done].
  case_decide; [|done]. intros [= <-]. subst hi2. by apply run_ops_star with l.
Qed.

Definition stopping : dec_state := final (dec_frame_manager_stop (play others_run []) showing_two).

Lemma progressive_stop_times_out_witness :
  fm_state (manager_of stopping) = 2 /\
  star dec_step (showing_two, []) (stopping, []) /\
  exists q' m' v, queue stopping = Some q' /\ fmgr stopping = Some m' /\ fm_state m' <> 0 /\
    frames stopping !! slot0 q' = Some v.
Proof.
  split; [vm_compute; reflexivity|].
  apply (progressive_stop_times_out powered showing_two [] (manager_of showing_two)
           (play others_run []) 0 stopping);
    [exact powered_enabled | | vm_compute; reflexivity | vm_compute; discriminate
    | apply play_star | vm_compute; reflexivity].
  apply (ran_reached two_frames). vm_compute. reflexivity.
Defined.

(** The third frame's release work overwrites the first frame. *)
Definition after_loss : dec_state := final (dec_frame_release_process (ran four_frames).1).
Definition loss_run : list dec_op := submit_ops 13 102400 ++ [OpTasklet; OpVsync 0 0; OpWork].
Definition loss_end : dec_state * list Z :=
  run_state (run_ops loss_run (after_loss, (ran four_frames).2)).

Lemma lost_frame_never_freed_witness :
  last_frame loss_end.1 = 77824 /\ last_frame after_loss = 57344 /\
  exists v it, frames loss_end.1 !! last_frame (ran four_frames).1 = Some v /\
    items loss_end.1 !! payload v = Some it.
Proof.
  split; [vm_compute; reflexivity|].
  apply (lost_frame_never_freed powered (ran four_frames).1 (ran four_frames).2
           (queue_of (ran four_frames).1) 57344 after_loss loss_end);
    [exact powered_enabled | apply ran_reached; vm_compute; reflexivity
    | vm_compute; reflexivity .. | vm_compute; discriminate | vm_compute; reflexivity |].
  apply (run_ops_star loss_run). vm_compute. reflexivity.
Defined.
