(* ===== verification/DecdOrder.v ===== *)
(** The order of a progressive stream: the items that are submitted and the
    items that go on display, observed from outside the driver, and the
    abstract display of items that the driver refines (src/drivers/decd/
    decd_frame.c).

    The invariants of DecdStream.v speak of frames; here it is shown that a frame
    carries the item it was created for as long as it lives ([ages], a rule for
    each operation), so that what the slots show can be told from what was
    submitted. *)
From S2P Require Import Prelude Mem DecdRegs Decd DecdOwn DecdItem DecdQueue DecdDevice.
From S2P Require Import DecdFrames DecdStream DecdSteps DecdCreate DecdSafe.

(** ** Frames carry their items *)

(** What was allocated before keeps its payload; new frames get new addresses. *)
Definition aged (s s' : dec_state) : Prop :=
  next_addr s <= next_addr s' /\
  forall p v', frames s' !! p = Some v' -> p < next_addr s ->
    exists v, frames s !! p = Some v /\ payload v = payload v'.

#[export] Instance aged_preorder : PreOrder aged.
Proof.
  split.
  - intros s. split; [lia|]. eauto.
  - intros s1 s2 s3 [N1 H1] [N2 H2]. split; [lia|]. intros p v3 Hv Hp.
    destruct (H2 p v3 Hv) as (v2 & Hv2 & E2); [lia|].
    destruct (H1 p v2 Hv2 Hp) as (v1 & Hv1 & E1). exists v1. split; [done | congruence].
Qed.

Definition ages {A} (m : D A) : Prop := forall s, after m (fun _ s' => aged s s') s.

Lemma ages_ret {A} (a : A) : ages (mret a).
Proof. intros s. by cbn. Qed.
Lemma ages_halt {A} r : ages (@halt A r).
Proof. done. Qed.
Lemma ages_dget {A} (f : dec_state -> A) : ages (dget f).
Proof. intros s. by cbn. Qed.
Lemma ages_deref {A} (h : dec_state -> gmap Z A) p : ages (deref h p).
Proof. intros s. unfold deref, after. by destruct (h s !! p). Qed.
Lemma ages_getq : ages getq.
Proof. intros s. unfold getq, after. by destruct (queue s). Qed.
Lemma ages_getm : ages getm.
Proof. intros s. unfold getm, after. by destruct (fmgr s). Qed.
Lemma ages_bind {A B} (m : D A) (k : A -> D B) : ages m -> (forall a, ages (k a)) -> ages (m ≫= k).
Proof.
  intros H Hk s. eapply after_bind; [apply H|]. cbv beta. intros a s1 H1.
  eapply after_mono; [apply Hk|]. cbv beta. intros _ s2 H2. by transitivity s1.
Qed.
Lemma ages_when b m : ages m -> ages (dwhen b m).
Proof. intros H. destruct b; [done | apply ages_ret]. Qed.

Lemma aged_same s s' : frames s' = frames s -> next_addr s' = next_addr s -> aged s s'.
Proof. intros E1 E2. split; [lia|]. rewrite E1. eauto. Qed.

Lemma ages_dmod f :
  (forall s, frames (f s) = frames s) -> (forall s, next_addr (f s) = next_addr s) -> ages (dmod f).
Proof. intros H1 H2 s. apply aged_same; auto. Qed.
Lemma ages_modq f : ages (modq f).
Proof. intros s. unfold modq, after. destruct (queue s); [by apply aged_same | done]. Qed.
Lemma ages_modm f : ages (modm f).
Proof. intros s. unfold modm, after. destruct (fmgr s); [by apply aged_same | done]. Qed.
Lemma ages_mod_item p f : ages (mod_item p f).
Proof. apply ages_bind; [apply ages_deref|]. intros v. by apply ages_dmod. Qed.
Lemma ages_mod_page p f : ages (mod_page p f).
Proof. apply ages_bind; [apply ages_deref|]. intros v. by apply ages_dmod. Qed.

(** A count or a flag of a frame *)
Lemma ages_mod_frame p f : (forall v, payload (f v) = payload v) -> ages (mod_frame p f).
Proof.
  intros Hf s. unfold mod_frame, deref, after, mbind, D_bind.
  destruct (frames s !! p) as [v|] eqn:E; [|done]. split; [done|]. intros x v' Hx _. cbn in Hx.
  destruct (decide (x = p)) as [->|Hne].
  - rewrite lookup_insert_eq in Hx. injection Hx as <-. exists v. by rewrite Hf.
  - rewrite lookup_insert_ne in Hx by done. by exists v'.
Qed.

Lemma ages_kfree_frame p : ages (kfree_frame p).
Proof.
  intros s. unfold kfree_frame, deref, after, mbind, D_bind.
  destruct (frames s !! p) as [v|]; [|done]. split; [done|]. intros x v' Hx _. cbn in Hx.
  apply lookup_delete_Some in Hx as [_ Hx]. by exists v'.
Qed.

Create HintDb aging.
#[export] Hint Resolve ages_ret ages_halt ages_dget ages_deref ages_getq ages_getm ages_modq ages_modm
  ages_mod_item ages_mod_page ages_kfree_frame : aging.
#[export] Hint Extern 1 (ages (dmod _)) => (apply ages_dmod; intros ?; reflexivity) : aging.
#[export] Hint Extern 1 (ages (mod_frame _ _)) => (apply ages_mod_frame; intros ?; reflexivity) : aging.

(** Walk through a function. *)
Ltac age :=
  lazymatch goal with
  | |- ages (mbind _ _) => apply ages_bind; [age | intros ?; age]
  | |- ages (dwhen _ _) => apply ages_when; age
  | |- ages (let x := _ in _) => cbv zeta; age
  | |- ages (match ?x with _ => _ end) => destruct x; age
  | |- _ => try solve [eauto with aging]
  end.

Section Ages.
Context `{K : DecKernel} {L : DecLaws K}.

Lemma ages_attempt : ages attempt.
Proof. intros s. by apply aged_same. Qed.
Hint Resolve ages_attempt : aging.

Lemma ages_kzalloc : ages kzalloc.
Proof.
  intros s. unfold kzalloc, attempt, after, mbind, D_bind. destruct (call_fails (calls s)); cbn.
  - by apply aged_same.
  - split; [cbn; lia | eauto].
Qed.
Hint Resolve ages_kzalloc : aging.

(** *** Items *)

Lemma ages_kfree_item p : ages (kfree_item p).
Proof. unfold kfree_item. age. Qed.
Lemma ages_kfree_fence p : ages (kfree_fence p).
Proof. unfold kfree_fence. age. Qed.
Lemma ages_dma_map fd : ages (dec_dma_map fd).
Proof. unfold dec_dma_map, dma_buf_detach, dma_buf_put. age. Qed.
Lemma ages_dma_unmap m : ages (dec_dma_unmap m).
Proof. unfold dec_dma_unmap, dma_buf_unmap_attachment, dma_buf_detach, dma_buf_put. age. Qed.
Lemma ages_fence_alloc : ages dec_fence_alloc.
Proof. unfold dec_fence_alloc. age. Qed.
Lemma ages_fence_signal f : ages (dec_fence_signal f).
Proof. unfold dec_fence_signal. age. Qed.
Lemma ages_fence_fd f : ages (dec_fence_fd_create f).
Proof. unfold dec_fence_fd_create. age. Qed.
Lemma ages_alloc_page : ages alloc_video_info_page.
Proof. unfold alloc_video_info_page. age. Qed.
Lemma ages_free_page p : ages (free_video_info_page p).
Proof. unfold free_video_info_page. age. Qed.
Lemma ages_with_debug f : ages (with_debug f).
Proof. unfold with_debug. age. Qed.
Hint Resolve ages_kfree_item ages_kfree_fence ages_dma_map ages_dma_unmap ages_fence_alloc
  ages_fence_signal ages_fence_fd ages_alloc_page ages_free_page ages_with_debug : aging.

Lemma ages_trace_frame a f : ages (dec_debug_trace_frame a f).
Proof. unfold dec_debug_trace_frame. age. Qed.
Lemma ages_trace_unmap i : ages (dec_debug_trace_dma_buf_unmap i).
Proof. unfold dec_debug_trace_dma_buf_unmap. age. Qed.
Lemma ages_trace_map i : ages (dec_debug_trace_dma_buf_map i).
Proof. unfold dec_debug_trace_dma_buf_map. age. Qed.
Lemma ages_info_init i : ages (video_info_buffer_init i).
Proof. unfold video_info_buffer_init. age. Qed.
Lemma ages_info_init_dmabuf i : ages (video_info_buffer_init_dmabuf i).
Proof. unfold video_info_buffer_init_dmabuf, info_access. age. Qed.
Hint Resolve ages_trace_frame ages_trace_unmap ages_trace_map ages_info_init ages_info_init_dmabuf
  : aging.
Lemma ages_setup_fields i desc : ages (setup_fields i desc).
Proof. unfold setup_fields, set_fields. age. Qed.
Lemma ages_deinit i : ages (video_info_buffer_deinit i).
Proof. unfold video_info_buffer_deinit. age. Qed.
Hint Resolve ages_setup_fields ages_deinit : aging.

Lemma ages_item_release i : ages (frame_item_release i).
Proof. unfold frame_item_release, item_destroy. age. Qed.
Lemma ages_item_get i : ages (item_get i).
Proof. unfold item_get. age. Qed.
Hint Resolve ages_item_release ages_item_get : aging.
Lemma ages_create_linear desc : ages (item_create_linear desc).
Proof. unfold item_create_linear, frame_item_alloc. age. Qed.
Lemma ages_create_dmabuf desc : ages (item_create_dmabuf desc).
Proof. unfold item_create_dmabuf, frame_item_alloc, item_addresses. age. Qed.
Hint Resolve ages_create_linear ages_create_dmabuf : aging.
Lemma ages_item_create desc : ages (frame_item_create desc).
Proof. unfold frame_item_create. age. Qed.

(** *** The queue *)

Lemma ages_frame_get vf : ages (frame_get vf).
Proof. unfold frame_get. age. Qed.
Lemma ages_frame_put vf : ages (video_frame_put vf).
Proof. unfold video_frame_put. age. Qed.
Lemma ages_lock_queue : ages lock_queue.
Proof. unfold lock_queue. age. Qed.
Lemma ages_unlock_queue : ages unlock_queue.
Proof. unfold unlock_queue. age. Qed.
Lemma ages_lock_ready : ages lock_ready.
Proof. unfold lock_ready. age. Qed.
Lemma ages_unlock_ready : ages unlock_ready.
Proof. unfold unlock_ready. age. Qed.
Lemma ages_defer vf : ages (dec_frame_defer_release vf).
Proof. unfold dec_frame_defer_release, release_in. age. Qed.
Hint Resolve ages_item_create ages_frame_get ages_frame_put ages_lock_queue ages_unlock_queue
  ages_lock_ready ages_unlock_ready ages_defer : aging.

Lemma ages_enqueue vf : ages (dec_frame_queue_enqueue vf).
Proof. unfold dec_frame_queue_enqueue. age. Qed.
Lemma ages_pop : ages dec_frame_pop.
Proof. unfold dec_frame_pop. age. Qed.
Lemma ages_release_round : ages release_round.
Proof. unfold release_round. age. Qed.
Lemma ages_release_last : ages release_last.
Proof. unfold release_last. age. Qed.
Hint Resolve ages_enqueue ages_pop ages_release_round ages_release_last : aging.
Lemma ages_release_loop n : ages (release_loop n).
Proof. induction n; cbn [release_loop]; age. Qed.
Lemma ages_recycle_loop n : ages (recycle_loop n).
Proof. induction n; cbn [recycle_loop]; unfold release_in; age. Qed.
Hint Resolve ages_release_loop ages_recycle_loop : aging.
Lemma ages_release : ages dec_frame_release_process.
Proof. unfold dec_frame_release_process. age. Qed.
Lemma ages_recycle : ages dec_frame_recycle.
Proof. unfold dec_frame_recycle, queue_release_work. age. Qed.
Lemma ages_hw_repeat n : ages (dec_frame_queue_hardware_repeat_ctrl n).
Proof. unfold dec_frame_queue_hardware_repeat_ctrl. age. Qed.
Hint Resolve ages_release ages_recycle ages_hw_repeat : aging.
Lemma ages_repeat : ages dec_frame_queue_repeat.
Proof.
  unfold dec_frame_queue_repeat, repeat_interlaced, repeat_progressive, bump_soft_repeat. age.
Qed.
Lemma ages_pause : ages dec_frame_queue_make_interlace_pause_sequence.
Proof. unfold dec_frame_queue_make_interlace_pause_sequence. age. Qed.
Lemma ages_set_type t : ages (dec_frame_manager_set_stream_type t).
Proof. unfold dec_frame_manager_set_stream_type. age. Qed.
Lemma ages_is_interlace p : ages (dec_is_interlace_frame p).
Proof. unfold dec_is_interlace_frame. age. Qed.
Hint Resolve ages_repeat ages_pause ages_set_type ages_is_interlace : aging.
Lemma ages_start vf : ages (start_stream vf).
Proof. unfold start_stream. age. Qed.
Hint Resolve ages_start : aging.
Lemma ages_resume : ages dec_frame_queue_resume.
Proof. unfold dec_frame_queue_resume. age. Qed.

(** *** Interrupt and tasklet *)

Lemma ages_sync_hardware p b i alt : ages (dec_sync_frame_to_hardware p b i alt).
Proof. unfold dec_sync_frame_to_hardware. age. Qed.
Hint Resolve ages_sync_hardware : aging.
Lemma ages_sync_slot b i : ages (sync_slot b i).
Proof. unfold sync_slot. age. Qed.
Lemma ages_with_regs f : ages (with_dec_regs f).
Proof. unfold with_dec_regs. age. Qed.
Hint Resolve ages_sync_slot ages_with_regs : aging.
Lemma ages_sync b : ages (dec_frame_queue_sync b).
Proof. unfold dec_frame_queue_sync. age. Qed.
Lemma ages_repeat_ctrl on : ages (call_repeat_ctrl on).
Proof. unfold call_repeat_ctrl. age. Qed.
Hint Resolve ages_sync ages_repeat_ctrl : aging.
Lemma ages_vsync_process : ages dec_vsync_process.
Proof. unfold dec_vsync_process. age. Qed.
Hint Resolve ages_vsync_process : aging.
Lemma ages_handle_vsync : ages dec_frame_manager_handle_vsync.
Proof. unfold dec_frame_manager_handle_vsync. age. Qed.
Hint Resolve ages_handle_vsync : aging.
Lemma ages_vsync now j : ages (dec_vsync_handler now j).
Proof. unfold dec_vsync_handler. age. Qed.

Lemma ages_refresh_first : ages refresh_first_field.
Proof. unfold refresh_first_field. age. Qed.
Lemma ages_refresh_second : ages refresh_second_field.
Proof. unfold refresh_second_field, shift_fields. age. Qed.
Lemma ages_requeue vf : ages (requeue vf).
Proof. unfold requeue. age. Qed.
Hint Resolve ages_refresh_first ages_refresh_second ages_requeue : aging.
Lemma ages_refresh_progressive : ages refresh_progressive.
Proof. unfold refresh_progressive. age. Qed.
Lemma ages_refresh_pair : ages refresh_pair.
Proof. unfold refresh_pair, shift_fields. age. Qed.
Hint Resolve ages_refresh_progressive ages_refresh_pair : aging.
Lemma ages_refresh_running : ages refresh_running.
Proof. unfold refresh_running. age. Qed.
Lemma ages_refresh3 : ages refresh_state3.
Proof. unfold refresh_state3. age. Qed.
Lemma ages_refresh4 : ages refresh_state4.
Proof. unfold refresh_state4. age. Qed.
Lemma ages_refresh5 : ages refresh_state5.
Proof. unfold refresh_state5, release_in. age. Qed.
Hint Resolve ages_refresh_running ages_refresh3 ages_refresh4 ages_refresh5 : aging.
Lemma ages_refresh : ages dec_frame_queue_refresh.
Proof. unfold dec_frame_queue_refresh. age. Qed.
Hint Resolve ages_resume ages_vsync ages_refresh : aging.

(** *** A submission: the one move that makes a frame *)

(** The new frame is at the end of the ready list and carries the item. *)
Definition handed_in (i : Z) (m : dec_frame_manager) (s s' : dec_state) : Prop :=
  aged s s' /\ exists m' v, fmgr s' = Some m' /\ ready_list m' = ready_list m ++ [next_addr s] /\
    frames s' !! next_addr s = Some v /\ payload v = i /\ next_addr s < next_addr s'.

Lemma ready_made i s m :
  fmgr s = Some m -> ready_locked m = false -> 4096 <= next_addr s ->
  dwp (enqueue_ready i)
    (fun r s' => r = 0 /\ handed_in i m s s' \/
       r <> 0 /\ aged s s' /\ exists m', fmgr s' = Some m' /\ ready_list m' = ready_list m) s.
Proof.
  intros Hm Hl Hn. unfold enqueue_ready, next_seqno, frame_for, dec_create_video_frame. dsteps.
  do 2 apply dwp_bind.
  eapply dwp_call; [apply kzalloc_wp|]. cbv beta. intros p s1 [[-> ->]|[-> ->]].
  { cbn [Z.eqb]. dstep. cbn [Z.eqb]. dstep. cbn [Z.eqb]. dstep. right. ands; [done | by apply aged_same | by eauto]. }
  cbn [next_addr set_fmgr]. rewrite eqb_neq_false by lia. dsteps. rewrite eqb_neq_false by lia. dsteps.
  rewrite eqb_neq_false by lia. unfold unlock_ready. apply dwp_bind.
  eapply lock_ready_wp; [reflexivity | exact Hl |]. dsteps.
  left. split; [done|]. split.
  - split; [cbn; lia|]. intros x v' Hx Hlt. cbn in Hx. rewrite !lookup_insert_ne in Hx by lia. eauto.
  - eexists _, _. cbn. ands; [done.. | | | lia]; [apply lookup_insert_eq | done].
Qed.

Lemma ages_perform hi o : (forall i, o <> OpReady i) -> ages (perform hi o).
Proof.
  intros Ho. destruct o; cbn [perform]; try (by destruct (Ho item));
    unfold run_tasklet, run_work, stop_request; age.
Qed.
End Ages.

(** ** What an observer sees *)

(** The item that a move hands in: enqueue_ready of it returned 0. *)
Definition submitted `{DecKernel} (o : dec_op) (s : dec_state) : list Z :=
  match o with
  | OpReady i => match enqueue_ready i s with Done r _ => if r =? 0 then [i] else [] | Halt _ => [] end
  | _ => []
  end.

(** The item that newly went on display: that of the frame in slot 0, when the
    slot changed. *)
Definition displayed (s s' : dec_state) : list Z :=
  match queue s, queue s' with
  | Some q, Some q' =>
      if slot0 q' =? slot0 q then []
      else match frames s' !! slot0 q' with Some v => [payload v] | None => [0] end
  | _, _ => []
  end.

Section Order.
Context `{K : DecKernel} {L : DecLaws K}.

(** A run of moves, with the items submitted and displayed during it *)
Inductive played : dec_state * list Z -> list Z -> list Z -> dec_state * list Z -> Prop :=
| played_none x : played x [] [] x
| played_move x subs shows y o z :
    played x subs shows y -> allowed y.2 o -> perform y.2 o y.1 = Done z.2 z.1 ->
    played x (subs ++ submitted o y.1) (shows ++ displayed y.1 z.1) z.

(** The same for the abstract display *)
Inductive ad_run : Z * display -> list Z -> list Z -> Z * display -> Prop :=
| ad_none x : ad_run x [] [] x
| ad_then x subs shows y a b z :
    ad_run x subs shows y -> ad_step y a b z -> ad_run x (subs ++ a) (shows ++ b) z.

Lemma played_star x subs shows y : played x subs shows y -> star dec_step x y.
Proof.
  induction 1 as [|x subs shows y o z _ IH Ha Hp]; [constructor|].
  eapply star_right; [exact IH | by exists o].
Qed.

Lemma star_played x y : star dec_step x y -> exists subs shows, played x subs shows y.
Proof.
  induction 1 as [x|x y z _ (subs & shows & IH) (o & Ha & Hp)]; [by exists [], []; constructor|].
  eexists _, _. by eapply played_move.
Qed.

Lemma played_left x o y subs shows z :
  allowed x.2 o -> perform x.2 o x.1 = Done y.2 y.1 -> played y subs shows z ->
  played x (submitted o x.1 ++ subs) (displayed x.1 y.1 ++ shows) z.
Proof.
  intros Ha Hp H. induction H as [y|y subs shows u p w _ IH Hb Hq].
  - rewrite !app_nil_r. rewrite <- (app_nil_l (submitted _ _)), <- (app_nil_l (displayed _ _)).
    by apply (played_move x [] [] x); [constructor | ..].
  - rewrite !app_assoc. by apply played_move; [apply IH | ..].
Qed.

(** *** The abstract display of frames and that of items *)

(** Frame [vf] carries item [i]; no frame shows no item. *)
Definition carries (s : dec_state) (vf i : Z) : Prop :=
  exists v, frames s !! vf = Some v /\ payload v = i.
Definition shows_item (s : dec_state) (vf i : Z) : Prop :=
  vf = 0 /\ i = 0 \/ vf <> 0 /\ i <> 0 /\ carries s vf i.

Record pictures (s : dec_state) (d e : display) : Prop := {
  pc_shown : shows_item s (shown d) (shown e);
  pc_waiting : Forall2 (carries s) (waiting d) (waiting e);
  pc_frozen : frozen d = frozen e;
}.

(** State [x] shows the frames [a] and the items [b]. *)
Record ordered (x : dec_state * list Z) (a b : Z * display) : Prop := {
  or_at : stream_at [] x a;
  or_once : NoDup (shown a.2 :: waiting a.2);
  or_state : a.1 = b.1;
  or_pic : pictures x.1 a.2 b.2;
}.

Implicit Types (x y z : dec_state * list Z) (a b : Z * display).

Lemma stream_live x a vf :
  stream_at [] x a -> vf = shown a.2 \/ vf ∈ waiting a.2 -> vf <> 0 ->
  exists v, frames x.1 !! vf = Some v /\ vf < next_addr x.1 /\ payload v <> 0.
Proof.
  intros (_ & q & m & H & ->) Hin Hz. pose proof (st_objs _ _ _ _ _ _ H) as Ho.
  destruct (objs_live _ _ _ vf Ho) as (v & it & Hv & _ & _ & Hp); [| done |].
  { unfold roots. cbn in Hin. rewrite !app_nil_l. set_solver. }
  exists v. ands; [done | | done]. apply Z.lt_nge. intros Hle.
  by rewrite (ob_fresh _ _ _ Ho vf Hle) in Hv.
Qed.

Lemma waiting_nonzero x a : stream_at [] x a -> 0 ∉ waiting a.2.
Proof. intros (_ & q & m & H & ->). apply (st_plain _ _ _ _ _ _ H). Qed.

(** What is still shown or waiting keeps its item. *)
Lemma carries_aged x y b vf i :
  stream_at [] y b -> vf = shown b.2 \/ vf ∈ waiting b.2 -> vf <> 0 -> aged x.1 y.1 ->
  vf < next_addr x.1 -> carries x.1 vf i -> carries y.1 vf i.
Proof.
  intros Hy Hin Hz [_ Hag] Hlt (v & Hv & <-).
  destruct (stream_live _ _ _ Hy Hin Hz) as (w & Hw & _).
  destruct (Hag _ _ Hw Hlt) as (v' & Hv' & E). exists w. split; [done|]. congruence.
Qed.

Lemma carries_old x a vf i :
  stream_at [] x a -> carries x.1 vf i -> vf <> 0 -> vf = shown a.2 \/ vf ∈ waiting a.2 ->
  vf < next_addr x.1.
Proof. intros Hx _ Hz Hin. by destruct (stream_live _ _ _ Hx Hin Hz) as (? & _ & ? & _). Qed.

(** The waiting list of [y] is part of that of [x]. *)
Lemma waiting_aged x y a b l k :
  stream_at [] x a -> stream_at [] y b -> aged x.1 y.1 ->
  (forall vf, vf ∈ l -> vf ∈ waiting a.2 /\ vf ∈ waiting b.2) ->
  Forall2 (carries x.1) l k -> Forall2 (carries y.1) l k.
Proof.
  intros Hx Hy Hag Hin H. induction H as [|vf i l k Hc _ IH]; constructor.
  - destruct (Hin vf) as [H1 H2]; [left|].
    assert (Hz : vf <> 0) by (intros ->; by apply (waiting_nonzero _ _ Hx)).
    eapply carries_aged; eauto using carries_old.
  - apply IH. intros w Hw. apply Hin. by right.
Qed.

Lemma shown_aged x y a b vf i :
  stream_at [] x a -> stream_at [] y b -> aged x.1 y.1 ->
  vf = shown a.2 \/ vf ∈ waiting a.2 -> vf = shown b.2 \/ vf ∈ waiting b.2 ->
  shows_item x.1 vf i -> shows_item y.1 vf i.
Proof.
  intros Hx Hy Hag H1 H2 [[-> ->]|(Hz & Hi & Hc)]; [by left|]. right. ands; [done..|].
  eapply carries_aged; eauto using carries_old.
Qed.

(** A move that leaves the frames alone leaves the items alone. *)
Lemma pictures_aged x y a b e e' :
  stream_at [] x a -> stream_at [] y b -> aged x.1 y.1 ->
  shown b.2 = shown a.2 -> waiting b.2 = waiting a.2 ->
  shown e' = shown e -> waiting e' = waiting e -> frozen b.2 = frozen e' ->
  pictures x.1 a.2 e -> pictures y.1 b.2 e'.
Proof.
  intros Hx Hy Hag Es Ew Es' Ew' Ef [H1 H2 H3]. split; [| | done].
  - rewrite Es, Es'. eapply shown_aged; [exact Hx | exact Hy | done | by left | by left | exact H1].
  - rewrite Ew, Ew'. eapply waiting_aged; [exact Hx | exact Hy | done | | exact H2].
    intros vf Hvf. by rewrite Ew.
Qed.

(** *** The labels *)

Lemma displayed_same x y a b :
  stream_at [] x a -> stream_at [] y b -> shown b.2 = shown a.2 -> displayed x.1 y.1 = [].
Proof.
  intros (_ & q & m & H & ->) (_ & q' & m' & H' & ->) E. cbn in E. unfold displayed.
  rewrite (st_q _ _ _ _ _ _ H), (st_q _ _ _ _ _ _ H').
  pose proof (st_calm _ _ _ _ _ _ H) as (_ & _ & _ & _ & _ & -> & _).
  pose proof (st_calm _ _ _ _ _ _ H') as (_ & _ & _ & _ & _ & -> & _).
  by rewrite E, Z.eqb_refl.
Qed.

Lemma displayed_new x y a b i :
  stream_at [] x a -> stream_at [] y b -> shown b.2 <> shown a.2 -> carries y.1 (shown b.2) i ->
  displayed x.1 y.1 = [i].
Proof.
  intros (_ & q & m & H & ->) (_ & q' & m' & H' & ->) E (v & Hv & <-). cbn in E, Hv. unfold displayed.
  rewrite (st_q _ _ _ _ _ _ H), (st_q _ _ _ _ _ _ H').
  pose proof (st_calm _ _ _ _ _ _ H) as (_ & _ & _ & _ & _ & -> & _).
  pose proof (st_calm _ _ _ _ _ _ H') as (_ & _ & _ & _ & _ & -> & _).
  by rewrite eqb_neq_false, Hv.
Qed.

(** A move submits one item, whose frame is then at the end of the line, or
    none. *)
Lemma submission x o y a b :
  stream_at [] x a -> stream_at [] y b -> perform x.2 o x.1 = Done y.2 y.1 ->
  aged x.1 y.1 /\
  ((exists i, o = OpReady i /\ submitted o x.1 = [i] /\
      waiting b.2 = waiting a.2 ++ [next_addr x.1] /\ carries y.1 (next_addr x.1) i) \/
   submitted o x.1 = [] /\ ((exists i, o = OpReady i) -> waiting b.2 = waiting a.2)).
Proof.
  intros Hx Hy Hp. destruct x as [s hi], y as [s' hi']. cbn in *.
  assert (Hd : (exists i, o = OpReady i) \/ forall i, o <> OpReady i)
    by (destruct o; eauto; by right).
  destruct Hd as [[i ->]|Hno].
  2: { pose proof (ages_perform hi o Hno s) as H. unfold after in H. rewrite Hp in H.
       split; [done|]. right. split; [by destruct o; try (by destruct (Hno item))|].
       intros [i ->]. by destruct (Hno i). }
  destruct Hx as (_ & q & m & H & ->), Hy as (_ & q' & m' & H' & ->). cbn in *.
  pose proof (st_plain _ _ _ _ _ _ H) as (_ & _ & _ & _ & Hl & _).
  pose proof (io_next _ _ (ob_items _ _ _ (st_objs _ _ _ _ _ _ H))) as Hn.
  destruct (dwp_inv _ _ _ (ready_made i s m (st_m _ _ _ _ _ _ H) Hl Hn)) as (r & s1 & E & Hr).
  unfold mbind, D_bind in Hp. rewrite E in Hp |- *. injection Hp as _ ->.
  pose proof (st_m _ _ _ _ _ _ H') as Hm'. destruct Hr as [[-> (Ha & m1 & v & E1 & E2 & Hv & Hi & _)]|(Hr & Ha & m1 & E1 & E2)].
  - split; [done|]. left. exists i. assert (m1 = m') as -> by congruence. ands; [done..| by exists v].
  - split; [done|]. right. rewrite eqb_neq_false by done. split; [done|]. intros _.
    by assert (m1 = m') as -> by congruence.
Qed.
(** *** One move *)

(** Nothing is handed in and the frames stay. *)
Lemma order_quiet x o y a a' st e e' :
  ordered x a (st, e) -> stream_at [] y a' -> perform x.2 o x.1 = Done y.2 y.1 ->
  shown a'.2 = shown a.2 -> waiting a'.2 = waiting a.2 ->
  shown e' = shown e -> waiting e' = waiting e -> frozen a'.2 = frozen e' ->
  ordered y a' (a'.1, e') /\ submitted o x.1 = [] /\ displayed x.1 y.1 = [].
Proof.
  intros [Hx Hnd _ Hp] Hy Hrun Es Ew Es' Ew' Ef.
  destruct (submission _ _ _ _ _ Hx Hy Hrun) as [Hag Hsub]. ands.
  - split; [done | by rewrite Es, Ew | done | exact (pictures_aged x y a a' e e' Hx Hy Hag Es Ew Es' Ew' Ef Hp)].
  - destruct Hsub as [(i & _ & _ & E & _)|[E _]]; [|done].
    exfalso. rewrite Ew in E. apply (f_equal length) in E. rewrite length_app in E. cbn in E. lia.
  - by apply (displayed_same x y _ _ Hx Hy).
Qed.

(** The head of the line goes on display. *)
Lemma order_show x o y a v rest st e :
  ordered x a (st, e) -> stream_at [] y (1, Display v rest false) ->
  perform x.2 o x.1 = Done y.2 y.1 -> waiting a.2 = v :: rest ->
  exists i k, waiting e = i :: k /\ submitted o x.1 = [] /\ displayed x.1 y.1 = [i] /\
    ordered y (1, Display v rest false) (1, Display i k false).
Proof.
  intros [Hx Hnd _ [_ Hw _]] Hy Hrun E.
  destruct (submission _ _ _ _ _ Hx Hy Hrun) as [Hag Hsub]. cbn in Hw. rewrite E in Hw, Hnd.
  apply Forall2_cons_inv_l in Hw as (i & k & Hc & Hw & Ee).
  assert (Hv : v <> 0) by (intros ->; apply (waiting_nonzero _ _ Hx); rewrite E; left).
  assert (Hcy : carries y.1 v i).
  { eapply carries_aged; [exact Hy | by left | done | done | | exact Hc].
    eapply carries_old; [exact Hx | exact Hc | done |]. right. rewrite E. left. }
  exists i, k. ands; [done | | |].
  - destruct Hsub as [(j & _ & _ & E' & _)|[E' _]]; [|done]. exfalso. cbn in E'. rewrite E in E'.
    apply (f_equal length) in E'. rewrite length_app in E'. cbn in E'. lia.
  - eapply displayed_new; [exact Hx | exact Hy | | exact Hcy]. cbn.
    intros ->. apply NoDup_cons in Hnd as [Hnd _]. apply Hnd. left.
  - split; cbn; [done | by apply NoDup_cons in Hnd as [_ Hnd] | done |]. split; cbn; [| | done].
    + right. ands; [done | | done]. destruct Hcy as (u & Hu & <-).
      destruct (stream_live _ _ v Hy) as (w & Hw' & _ & Hz); [by left | done | congruence].
    + eapply waiting_aged; [exact Hx | exact Hy | done | | exact Hw].
      intros vf Hvf. rewrite E. split; [by right | done].
Qed.

(** A frame joins the line. *)
Lemma order_submit x o y st d vf e :
  ordered x (st, d) (st, e) -> allowed x.2 o ->
  stream_at [] y (st, Display (shown d) (waiting d ++ [vf]) (frozen d)) ->
  perform x.2 o x.1 = Done y.2 y.1 -> (exists i, o = OpReady i) ->
  exists i, i <> 0 /\ submitted o x.1 = [i] /\ displayed x.1 y.1 = [] /\
    ordered y (st, Display (shown d) (waiting d ++ [vf]) (frozen d))
              (st, Display (shown e) (waiting e ++ [i]) (frozen e)).
Proof.
  intros [Hx Hnd _ [Hs Hw Hf]] Hal Hy Hrun Ho.
  destruct (submission _ _ _ _ _ Hx Hy Hrun) as [Hag Hsub]. cbn in Hs, Hw, Hf, Hnd, Hsub.
  destruct Hsub as [(i & -> & Hl & E & Hc)|[_ E]].
  2: { specialize (E Ho). apply (f_equal length) in E. rewrite length_app in E. cbn in E. lia. }
  apply app_inv_head in E. injection E as ->. exists i.
  assert (Hi : i <> 0) by (intros ->; by apply (proj1 Hx)).
  ands; [done | done | by apply (displayed_same x y _ _ Hx Hy) |].
  assert (Hold : forall p, p = shown d \/ p ∈ waiting d -> p <> 0 -> p < next_addr x.1).
  { intros p Hin Hz. by destruct (stream_live _ _ p Hx Hin Hz) as (? & _ & ? & _). }
  assert (Hnew : next_addr x.1 <> 0).
  { intros Hz. apply (waiting_nonzero _ _ Hy). cbn. rewrite Hz. set_solver. }
  assert (Hin : next_addr x.1 ∉ waiting d).
  { intros Hin. pose proof (Hold _ (or_intror Hin) Hnew). lia. }
  split; cbn; [done | | done |].
  - apply NoDup_cons in Hnd as [Hn1 Hn2]. apply NoDup_cons. split.
    + rewrite elem_of_app, list_elem_of_singleton. intros [Hi'|Hi']; [done|].
      pose proof (Hold _ (or_introl eq_refl) ltac:(congruence)). lia.
    + apply NoDup_app. ands; [done | | apply NoDup_singleton].
      intros p Hp. rewrite list_elem_of_singleton. intros ->. done.
  - split; cbn; [| | done].
    + eapply shown_aged; [exact Hx | exact Hy | done | by left | by left | exact Hs].
    + apply Forall2_app; [|by repeat constructor].
      eapply waiting_aged; [exact Hx | exact Hy | done | | exact Hw]. cbn. set_solver.
Qed.

Lemma order_step x o y a b :
  ordered x a b -> allowed x.2 o -> perform x.2 o x.1 = Done y.2 y.1 ->
  exists a' b', ordered y a' b' /\ ad_step b (submitted o x.1) (displayed x.1 y.1) b'.
Proof.
  intros H Hal Hrun. destruct b as [st e]. pose proof (or_state _ _ _ H) as Est. cbn in Est.
  pose proof (pc_frozen _ _ _ (or_pic _ _ _ H)) as Ef. cbn in Ef.
  pose proof (move_wp [] x.1 x.2 o a) as Hm. rewrite <- surjective_pairing in Hm.
  specialize (Hm (or_at _ _ _ H) Hal). unfold dwp in Hm. rewrite Hrun, <- surjective_pairing in Hm.
  destruct Hm as (a' & subs & shows & Hy & Hst & Hlab). exists a'.
  pose proof (fun e' => order_quiet x o y a a' st e e' H Hy Hrun) as Hq.
  destruct Hst as [u|s d vf Hz|d vf rest E|d|d vf rest Hfr E|d Hfr E|s d Hs|d]; cbn in Est, Ef, Hq; subst.
  - destruct (Hq e) as (Ho & -> & ->); try done. eexists. split; [exact Ho|]. constructor.
  - destruct (order_submit x o y st d vf e H Hal Hy Hrun) as (i & Hi & -> & -> & Ho);
      [by destruct Hlab|]. eexists. split; [exact Ho | by constructor].
  - destruct (order_show x o y _ vf rest _ e H Hy Hrun E) as (i & k & Ee & -> & -> & Ho).
    eexists. split; [exact Ho | by constructor].
  - destruct (Hq e) as (Ho & -> & ->); try done. eexists. split; [exact Ho | constructor].
  - destruct (order_show x o y _ vf rest _ e H Hy Hrun E) as (i & k & Ee & -> & -> & Ho).
    eexists. split; [exact Ho | constructor; congruence].
  - destruct (Hq (Display (shown e) [] true)) as (Ho & -> & ->); try done.
    { pose proof (pc_waiting _ _ _ (or_pic _ _ _ H)) as Hw. cbn in Hw. rewrite E in Hw.
      by apply Forall2_nil_inv_l in Hw. }
    eexists. split; [exact Ho|]. constructor; [congruence|].
    pose proof (pc_waiting _ _ _ (or_pic _ _ _ H)) as Hw. cbn in Hw. rewrite E in Hw.
    by apply Forall2_nil_inv_l in Hw.
  - destruct (Hq e) as (Ho & -> & ->); try done. eexists. split; [exact Ho | by constructor].
  - destruct (Hq e) as (Ho & -> & ->); try done. eexists. split; [exact Ho | constructor].
Qed.

Lemma played_ordered x subs shows y a b :
  played x subs shows y -> ordered x a b ->
  exists a' b', ordered y a' b' /\ ad_run b subs shows b'.
Proof.
  intros H Ho. induction H as [x|x subs shows y o z _ IH Hal Hrun]; [by exists a, b; split; [|constructor]|].
  destruct (IH Ho) as (a1 & b1 & H1 & R1). destruct (order_step _ _ _ _ _ H1 Hal Hrun) as (a2 & b2 & H2 & R2).
  exists a2, b2. split; [done | by eapply ad_then].
Qed.

(** What was handed in is what was shown and then what waits. *)
Lemma ad_run_order subs shows (y : Z * display) :
  ad_run (0, Display 0 [] false) subs shows y ->
  subs = shows ++ waiting y.2 /\ shown y.2 = default 0 (last shows).
Proof.
  intros H. remember (0, Display 0 [] false) as x eqn:E.
  induction H as [x|x subs shows y a b z _ IH Hst]; [by subst|].
  destruct (IH E) as [-> IHs]. destruct Hst; cbn in *; rewrite ?app_nil_r, ?last_snoc; cbn; try done.
  - by rewrite <- app_assoc.
  - rewrite <- app_assoc. by rewrite H.
  - rewrite <- app_assoc. by rewrite H0.
  - by rewrite H0, app_nil_r.
Qed.

Lemma just_enabled_ordered s :
  just_enabled s -> ordered (s, []) (0, Display 0 [] false) (0, Display 0 [] false).
Proof.
  intros H. split; cbn; [by apply just_enabled_at | by apply NoDup_singleton | done |].
  split; cbn; [by left | constructor | done].
Qed.

(** C4: The display refines a queue of items. Whatever the interleaving of the
    moves of a progressive stream, from the moment the device is enabled: the
    abstract display - the item shown, the items that wait, a flag - makes a run
    with the same submissions and the same displays, one after the other, and
    at its end is what the driver's state shows: the four slots show a frame
    that carries its item, the frames of the ready list carry the items that
    wait, in that order. Every item that was submitted (as often as it was
    submitted) has been shown or waits to be shown, in the order of submission,
    none twice and none skipped; and what the slots show is the last item that
    went on display. *)
Theorem display_refines s0 s hi subs shows :
  just_enabled s0 -> played (s0, []) subs shows (s, hi) ->
  exists q m d, queue s = Some q /\ fmgr s = Some m /\
    ad_run (0, Display 0 [] false) subs shows (fm_state m, d) /\
    subs = shows ++ waiting d /\ shown d = default 0 (last shows) /\
    (forall i, shows_item s (slot i q) (shown d)) /\
    Forall2 (carries s) (ready_list m) (waiting d) /\
    (frozen d = true <-> force_interlace m <> 0).
Proof.
  intros H0 Hp.
  destruct (played_ordered _ _ _ _ _ _ Hp (just_enabled_ordered _ H0)) as (a & [st d] & Ho & Hrun).
  destruct (ad_run_order _ _ _ Hrun) as [E1 E2].
  destruct Ho as [(_ & q & m & H & ->) _ Est [P1 P2 P3]]. cbn in *. subst st.
  exists q, m, d. ands; [apply H | apply H | done | done | done | | done |].
  - intros i. by rewrite (slot_calm i q (st_calm _ _ _ _ _ _ H)).
  - rewrite <- P3. destruct (Z.eqb_spec (force_interlace m) 0); naive_solver.
Qed.
End Order.

(** ** A run watched *)

(** What a list of moves hands in and puts on display *)
Fixpoint watch `{DecKernel} (l : list dec_op) (x : dec_state * list Z) : list Z * list Z :=
  match l with
  | [] => ([], [])
  | o :: l =>
      match perform x.2 o x.1 with
      | Done hi s =>
          let '(subs, shows) := watch l (s, hi) in
          (submitted o x.1 ++ subs, displayed x.1 s ++ shows)
      | Halt _ => ([], [])
      end
  end.

Lemma watch_played `{DecKernel} l x y :
  run_ops l x = Some y -> played x (watch l x).1 (watch l x).2 y.
Proof.
  revert x. induction l as [|o l IH]; intros x; cbn; [intros [= ->]; constructor|].
  destruct (decide (allowed x.2 o)) as [Ha|]; [|done].
  destruct (perform x.2 o x.1) as [hi s|] eqn:E; [|done].
  intros Hr. specialize (IH _ Hr). destruct (watch l (s, hi)) as [subs shows]. cbn in IH |- *.
  by apply (played_left x o (s, hi)).
Qed.

(** Three items are submitted; two of them go on display. *)
Definition three_items : list dec_op := two_frames ++ [OpVsync 0 0; OpWork] ++ submit_ops 9 61440.

Lemma ran_played l :
  ran_ok l = true ->
  played (powered, []) (watch l (powered, [])).1 (watch l (powered, [])).2 ((ran l).1, (ran l).2).
Proof.
  rewrite <- surjective_pairing. unfold ran_ok, ran.
  destruct (run_ops l (powered, [])) as [y|] eqn:E; [|done]. intros _. by apply watch_played.
Qed.

Lemma display_refines_witness :
  watch three_items (powered, []) = ([20480; 40960; 61440], [20480; 40960]) /\
  exists q m d, queue (ran three_items).1 = Some q /\ fmgr (ran three_items).1 = Some m /\
    ad_run (0, Display 0 [] false) [20480; 40960; 61440] [20480; 40960] (fm_state m, d) /\
    [20480; 40960; 61440] = [20480; 40960] ++ waiting d /\ shown d = 40960 /\
    (forall i, shows_item (ran three_items).1 (slot i q) (shown d)) /\
    Forall2 (carries (ran three_items).1) (ready_list m) (waiting d) /\
    (frozen d = true <-> force_interlace m <> 0).
Proof.
  assert (E : watch three_items (powered, []) = ([20480; 40960; 61440], [20480; 40960]))
    by (vm_compute; reflexivity).
  split; [exact E|].
  apply (display_refines powered _ (ran three_items).2 [20480; 40960; 61440] [20480; 40960] powered_enabled).
  pose proof (ran_played three_items) as H. rewrite E in H. apply H. vm_compute. reflexivity.
Defined.
