(* ===== verification/DecdHw.v ===== *)
(** Registers, timestamps and power of the decoder display driver: what
    programming a slot writes and leaves alone, the ring of vsync timestamps as
    a bounded queue, the jiffies history that overruns its array, and powering
    up and down (src/drivers/decd/decd_hw.c). *)
From S2P Require Import Prelude Mem DecdRegs Decd DecdOwn DecdItem DecdQueue DecdDevice.
From S2P Require Import DecdFrames DecdStream.

(** ** Slot registers *)

(** The registers of slot [idx]: luma and chroma address, their auxiliary
    bytes, the info address and the field byte *)
Definition slot_regs (r : reg_block) (idx : Z) : Z * Z * Z * Z * Z * Z :=
  let w := workaround r in
  (readl r (w + y_off idx), readl r (w + c_off idx), readb r (w + y_aux_off idx),
   readb r (w + c_aux_off idx), readl r (w + info_off idx), readb r (w + field_off idx)).

Definition slot_value (p : planes) (aux field : Z) : Z * Z * Z * Z * Z * Z :=
  let '(p0, p1, p2, p3) := p in (u32 p0, u32 p2, u8 p1, u8 p3, u32 aux, u8 field).

Lemma idx_cases idx : 0 <= idx <= 3 -> idx = 0 \/ idx = 1 \/ idx = 2 \/ idx = 3.
Proof. lia. Qed.

(** Evaluate the register offsets of a literal slot. *)
Ltac off1 f i := let v := eval vm_compute in (f i) in change (f i) with v.
Ltac offs :=
  repeat match goal with
  | |- context [y_off ?i] => off1 y_off i
  | |- context [c_off ?i] => off1 c_off i
  | |- context [y_aux_off ?i] => off1 y_aux_off i
  | |- context [c_aux_off ?i] => off1 c_aux_off i
  | |- context [info_off ?i] => off1 info_off i
  | |- context [field_off ?i] => off1 field_off i
  end.

(** Resolve a load from a memory with one store on top. *)
Ltac ldst := repeat first [ rewrite ld_st_eq | rewrite ld_st_ne by lia ].

(** What programming slot [idx] writes, and what it leaves alone *)
Lemma set_address_regs r p aux field idx :
  workaround r <> 0 -> 0 <= idx <= 3 ->
  exists r', dec_reg_set_address (Some r) p aux field idx = Some r' /\
    workaround r' = workaround r /\
    slot_regs r' idx = slot_value p aux field /\
    (forall j, 0 <= j <= 3 -> j <> idx -> slot_regs r' j = slot_regs r j) /\
    same_out (workaround r + 16) 60 (io r) (io r').
Proof.
  intros Hw Hi. destruct p as [[[p0 p1] p2] p3]. unfold dec_reg_set_address.
  rewrite (ltb_false idx 0), (ltb_false 3 idx) by lia. cbn [orb with_workaround].
  rewrite eqb_neq_false by done. eexists. split; [reflexivity|]. split; [done|].
  unfold slot_regs, slot_value, readl, readb, writel, writeb. cbn [io workaround set_io].
  destruct (idx_cases idx Hi) as [->|[->|[->| ->]]];
    offs; (ands;
     [ ldst; done
     | intros j Hj Hne; destruct (idx_cases j Hj) as [->|[->|[->| ->]]]; try lia;
       offs; ldst; done
     | intros x Hx; rewrite !ld8_st_out by lia; done ]).
Qed.

(** The getters read the first two slots. *)
Lemma getters r idx :
  workaround r <> 0 -> 0 <= idx <= 1 ->
  dec_reg_get_y_address (Some r) idx = (slot_regs r idx).1.1.1.1.1 /\
  dec_reg_get_c_address (Some r) idx = (slot_regs r idx).1.1.1.1.2.
Proof.
  intros Hw Hi. unfold dec_reg_get_y_address, dec_reg_get_c_address. rewrite eqb_neq_false by done.
  assert (H : idx = 0 \/ idx = 1) by lia. by destruct H as [-> | ->].
Qed.

(** Programming a slot is a round trip: afterwards its six registers read
    back the values given (cut to their widths), the registers of the three
    other slots and everything outside the slot registers are unchanged, and for
    slots 0 and 1 the driver's own getters return the two plane addresses. *)
Theorem set_address_roundtrip r p aux field idx :
  workaround r <> 0 -> 0 <= idx <= 3 ->
  exists r', dec_reg_set_address (Some r) p aux field idx = Some r' /\
    slot_regs r' idx = slot_value p aux field /\
    (forall j, 0 <= j <= 3 -> j <> idx -> slot_regs r' j = slot_regs r j) /\
    same_out (workaround r + 16) 60 (io r) (io r') /\
    (idx <= 1 -> dec_reg_get_y_address (Some r') idx = u32 p.1.1.1 /\
                 dec_reg_get_c_address (Some r') idx = u32 p.1.2).
Proof.
  intros Hw Hi. destruct (set_address_regs r p aux field idx Hw Hi) as (r' & E & Ew & Hs & Ho & Hout).
  exists r'. ands; try done. intros Hle. destruct (getters r' idx) as [-> ->]; [congruence | lia |].
  rewrite Hs. by destruct p as [[[p0 p1] p2] p3].
Qed.

Definition some_block : reg_block := RegBlock 0x1000000 0x2000000 0x2000060 0 ∅.

Lemma set_address_roundtrip_witness :
  exists r', dec_reg_set_address (Some some_block) (0x12345678, 3, 0x9abcdef0, 4) 0x4d941000 1 1 = Some r' /\
    slot_regs r' 1 = (0x12345678, 0x9abcdef0, 3, 4, 0x4d941000, 1) /\
    (forall j, 0 <= j <= 3 -> j <> 1 -> slot_regs r' j = slot_regs some_block j) /\
    same_out (workaround some_block + 16) 60 (io some_block) (io r') /\
    (1 <= 1 -> dec_reg_get_y_address (Some r') 1 = 0x12345678 /\
               dec_reg_get_c_address (Some r') 1 = 0x9abcdef0).
Proof.
  apply (set_address_roundtrip some_block (0x12345678, 3, 0x9abcdef0, 4) 0x4d941000 1 1);
    [discriminate | lia].
Defined.

(** ** Control bits *)

(** The bits of a register byte after one of them was put *)
Lemma put_bit_spec v n on k :
  0 <= n -> 0 <= k -> Z.testbit (put_bit v n on) k = if k =? n then on else Z.testbit v k.
Proof.
  intros Hn Hk. unfold put_bit, bic, BIT.
  rewrite Z.lor_spec, Z.ldiff_spec, Z.shiftl_1_l, Z.pow2_bits_eqb by lia.
  destruct (Z.eqb_spec k n) as [->|Hne].
  - rewrite Z.eqb_refl. destruct on; rewrite ?Z.shiftl_1_l, ?Z.pow2_bits_true, ?Z.testbit_0_l by lia;
      by destruct (Z.testbit v n).
  - rewrite (eqb_neq_false n k) by lia. cbn [negb]. rewrite andb_true_r.
    destruct on; rewrite ?Z.shiftl_1_l, ?Z.pow2_bits_false, ?Z.testbit_0_l by lia; by rewrite orb_false_r.
Qed.

(** ** The ring of timestamps *)

(** The ring holds the timestamps [l], oldest first. *)
Record ring_at (r : dec_vsync_ring) (l : list Z) : Prop := {
  ra_len : length (vs_ts r) = 8%nat;
  ra_rd : 0 <= vs_rd r < 8;
  ra_fit : (length l <= 7)%nat;
  ra_wr : vs_wr r = (vs_rd r + Z.of_nat (length l)) mod 8;
  ra_ts k : (k < length l)%nat ->
    nth (Z.to_nat ((vs_rd r + 1 + Z.of_nat k) mod 8)) (vs_ts r) 0 = nth k l 0;
}.

Lemma ring_next x : 0 <= x < 8 -> u32 (x + 1) &. (DECD_VSYNC_RING_LEN - 1) = (x + 1) mod 8.
Proof.
  intros H. unfold DECD_VSYNC_RING_LEN. rewrite u32_small by lia.
  change (8 - 1) with (Z.ones 3). by rewrite Z.land_ones.
Qed.

Lemma nth_insert_eq (l : list Z) i v : (i < length l)%nat -> nth i (<[i := v]> l) 0 = v.
Proof.
  intros H. apply nth_lookup_Some with (d := 0). by apply list_lookup_insert_eq.
Qed.

Lemma nth_insert_ne (l : list Z) i j v : i <> j -> nth j (<[i := v]> l) 0 = nth j l 0.
Proof. intros H. rewrite !nth_lookup. by rewrite list_lookup_insert_ne. Qed.

Lemma ring_slot x : 0 <= x mod 8 < 8.
Proof. apply Z.mod_pos_bound. lia. Qed.

(** Two indices of the ring are the same slot only if they are equal mod 8. *)
Lemma ring_ne a b k : 0 <= a -> 0 <= b -> b = a + k -> 0 < k < 8 ->
  Z.to_nat (a mod 8) <> Z.to_nat (b mod 8).
Proof.
  intros Ha Hb -> Hk E. apply Z2Nat.inj in E; try apply Z.mod_pos_bound; try lia.
  pose proof (Z.div_mod a 8). pose proof (Z.div_mod (a + k) 8). lia.
Qed.

Lemma nth_drop_one k (l : list Z) : nth k (drop 1 l) 0 = nth (S k) l 0.
Proof. destruct l; [by destruct k | done]. Qed.

(** The slots of the queue with one more at its end *)
Lemma ring_push_ts ts rd l now k :
  length ts = 8%nat -> 0 <= rd -> (length l <= 7)%nat ->
  (forall k, (k < length l)%nat -> nth (Z.to_nat ((rd + 1 + Z.of_nat k) mod 8)) ts 0 = nth k l 0) ->
  (S (length l) - 7 <= k < S (length l))%nat ->
  nth (Z.to_nat ((rd + 1 + Z.of_nat k) mod 8))
      (<[Z.to_nat ((rd + Z.of_nat (length l) + 1) mod 8) := now]> ts) 0 = nth k (l ++ [now]) 0.
Proof.
  intros Hts Hrd Hl Hk [Hk1 Hk2]. destruct (decide (k = length l)) as [->|Hne].
  - replace (rd + 1 + Z.of_nat (length l)) with (rd + Z.of_nat (length l) + 1) by lia.
    rewrite nth_insert_eq, app_nth2, Nat.sub_diag; [done | lia |].
    pose proof (ring_slot (rd + Z.of_nat (length l) + 1)). lia.
  - rewrite nth_insert_ne, app_nth1 by (try lia;
      apply not_eq_sym, (ring_ne _ _ (Z.of_nat (length l) - Z.of_nat k)); lia).
    apply Hk. lia.
Qed.

Lemma ring_put_at r l now :
  ring_at r l -> ring_at (vsync_put now r) (drop (length l + 1 - 7) (l ++ [now])).
Proof.
  intros [Hlen Hrd Hfit Hwr Hts]. unfold vsync_put.
  assert (Hw : 0 <= vs_wr r < 8) by (rewrite Hwr; apply ring_slot).
  rewrite !ring_next by done. set (n := Z.of_nat (length l)) in *.
  assert (Hnext : (vs_wr r + 1) mod 8 = (vs_rd r + n + 1) mod 8).
  { rewrite Hwr, Zplus_mod_idemp_l. done. }
  rewrite Hnext. pose proof (fun k => ring_push_ts (vs_ts r) (vs_rd r) l now k Hlen ltac:(lia) Hfit Hts) as Hpush.
  fold n in Hpush.
  destruct (decide (length l = 7%nat)) as [H7|H7].
  - assert (E : (vs_rd r + n + 1) mod 8 = vs_rd r).
    { replace (vs_rd r + n + 1) with (vs_rd r + 1 * 8) by lia. rewrite Z.mod_add, Z.mod_small; lia. }
    rewrite E, Z.eqb_refl. rewrite H7. cbn [Nat.add Nat.sub].
    split; cbn [vs_ts vs_rd vs_wr].
    + by rewrite length_insert.
    + apply ring_slot.
    + rewrite length_drop, length_app, H7. cbn. lia.
    + rewrite length_drop, length_app, H7. change (Z.of_nat (7 + length [now] - 1)) with 7.
      rewrite Zplus_mod_idemp_l. replace (vs_rd r + 1 + 7) with (vs_rd r + 1 * 8) by lia. rewrite Z.mod_add, Z.mod_small; lia.
    + intros k Hk. rewrite length_drop, length_app, H7 in Hk. cbn in Hk.
      rewrite nth_drop_one, <- Hpush by lia. rewrite E. f_equal. f_equal.
      replace ((vs_rd r + 1) mod 8 + 1 + Z.of_nat k) with ((vs_rd r + 1) mod 8 + (1 + Z.of_nat k)) by lia.
      rewrite Zplus_mod_idemp_l. f_equal. lia.
  - assert (E : (vs_rd r + n + 1) mod 8 <> vs_rd r).
    { intros E. pose proof (Z.div_mod (vs_rd r + n + 1) 8). lia. }
    rewrite eqb_neq_false by done. replace (length l + 1 - 7)%nat with 0%nat by lia. rewrite drop_0.
    split; cbn [vs_ts vs_rd vs_wr].
    + by rewrite length_insert.
    + done.
    + rewrite length_app. cbn. lia.
    + rewrite length_app. cbn. f_equal. lia.
    + intros k Hk. rewrite length_app in Hk. cbn in Hk. apply Hpush. lia.
Qed.

Lemma ring_get_at r ts rest :
  ring_at r (ts :: rest) -> exists r', vsync_get r = Some (ts, r') /\ ring_at r' rest.
Proof.
  intros [Hlen Hrd Hfit Hwr Hts]. unfold vsync_get. cbn [length] in *.
  assert (E : vs_rd r <> vs_wr r).
  { rewrite Hwr. intros E. pose proof (Z.div_mod (vs_rd r + Z.of_nat (S (length rest))) 8). lia. }
  rewrite eqb_neq_false by done. rewrite ring_next by done. eexists. split.
  - f_equal. f_equal. rewrite <- (Z.add_0_r (vs_rd r + 1)). apply (Hts 0%nat). lia.
  - split; cbn [vs_ts vs_rd vs_wr]; [done | apply ring_slot | lia | |].
    + rewrite Hwr, Zplus_mod_idemp_l. f_equal. lia.
    + intros k Hk. etransitivity; [|exact (Hts (S k) ltac:(lia))]. f_equal. f_equal.
      rewrite <- Z.add_assoc, Zplus_mod_idemp_l. f_equal. lia.
Qed.

(** C24: The ring of vsync timestamps refines a bounded queue: the interrupt
    appends a timestamp and, when seven are already waiting, drops the oldest;
    a read takes the oldest, or reports that there is none; poll reports
    whether there is one. *)
Theorem vsync_ring_refines r l now :
  ring_at r l ->
  ring_at (vsync_put now r) (drop (length l + 1 - 7) (l ++ [now])) /\
  match l with
  | [] => vsync_get r = None /\ vsync_readable r = 0
  | ts :: rest => vsync_readable r <> 0 /\
      exists r', vsync_get r = Some (ts, r') /\ ring_at r' rest
  end.
Proof.
  intros H. split; [by apply ring_put_at|]. unfold vsync_readable. destruct l as [|ts rest].
  - destruct H as [_ Hrd _ Hwr _]. cbn in Hwr.
    assert (E : vs_rd r = vs_wr r) by (rewrite Hwr, Z.mod_small; lia).
    unfold vsync_get. by rewrite E, Z.eqb_refl.
  - split; [|by apply ring_get_at].
    destruct (ring_get_at _ _ _ H) as (r' & Hg & _). unfold vsync_get in Hg.
    by destruct (vs_rd r =? vs_wr r).
Qed.

Definition ring_full : dec_vsync_ring := VsyncRing [17; 10; 11; 12; 13; 14; 15; 16] 0 7.

Lemma vsync_ring_refines_witness :
  ring_at (vsync_put 18 ring_full) [11; 12; 13; 14; 15; 16; 18] /\ vsync_readable ring_full <> 0 /\
  exists r', vsync_get ring_full = Some (10, r') /\ ring_at r' [11; 12; 13; 14; 15; 16].
Proof.
  apply (vsync_ring_refines ring_full [10; 11; 12; 13; 14; 15; 16] 18).
  split; [done | vm_compute; split; [discriminate | done] | cbn; lia | done |].
  intros k Hk. cbn in Hk. do 7 (destruct k as [|k]; [done|]). lia.
Defined.

(** ** The jiffies history *)

(** The interrupt stores jiffies two entries past its position, so two of
    every hundred interrupts write outside the array of 100: the one at
    position 98 hits the position itself (which the next statement repairs),
    the one at position 99 overwrites the first word of the work item that
    follows.  The position stays below 100 and counts round. *)
Theorem jiffies_history_overruns d jiffies :
  0 <= jiffies_pos d < 100 -> length (jiffies_hist d) = 100%nat ->
  jiffies_pos (track_jiffies jiffies d) = (jiffies_pos d + 1) mod 100 /\
  jiffies_hist (track_jiffies jiffies d) =
    (if jiffies_pos d <? 98 then <[Z.to_nat (jiffies_pos d + 2) := u32 jiffies]> (jiffies_hist d)
     else jiffies_hist d) /\
  dbg_work_data (track_jiffies jiffies d) =
    (if jiffies_pos d =? 99 then u32 jiffies else dbg_work_data d).
Proof.
  intros Hp Hl. unfold track_jiffies, store_hist.
  rewrite (u32_small (jiffies_pos d + 2)), (u32_small (jiffies_pos d + 1)) by lia.
  assert (Hpos : (if 100 <=? jiffies_pos d + 1 then 0 else jiffies_pos d + 1) = (jiffies_pos d + 1) mod 100).
  { destruct (Z.leb_spec 100 (jiffies_pos d + 1)); [|by rewrite Z.mod_small by lia].
    replace (jiffies_pos d + 1) with 100 by lia. done. }
  rewrite Hpos. destruct (Z.ltb_spec (jiffies_pos d + 2) 100).
  - rewrite ltb_true, eqb_neq_false by lia. done.
  - rewrite (ltb_false (jiffies_pos d) 98) by lia.
    destruct (Z.eqb_spec (jiffies_pos d + 2) 100); [rewrite eqb_neq_false by lia; done|].
    rewrite (proj2 (Z.eqb_eq (jiffies_pos d) 99)) by lia. done.
Qed.

Definition debug_99 : dec_debug_info := DebugInfo 99 (replicate 100 7) 99 0 ∅ 0 0.

Lemma jiffies_history_overruns_witness :
  jiffies_pos (track_jiffies 4242 debug_99) = 100 mod 100 /\
  jiffies_hist (track_jiffies 4242 debug_99) = replicate 100 7 /\
  dbg_work_data (track_jiffies 4242 debug_99) = 4242.
Proof.
  apply (jiffies_history_overruns debug_99 4242); [cbn; lia | done].
Defined.

(** ** Power *)

(** The external state of the device: reset, clocks, interrupt *)
Definition power_of (s : dec_state) := (reset_deasserted s, clk_bus_disp s, clk_afbd s, irq_depth s).

Definition power_plus (n : Z) (s : dec_state) :=
  (reset_deasserted s + n, clk_bus_disp s + n, clk_afbd s + n, irq_depth s + n).

Section Power.
Context `{K : DecKernel} {L : DecLaws K}.

Lemma manager_init_wp s :
  dwp dec_frame_manager_init
    (fun r s' => (r = 0 /\ exists n, s' = set_calls n s) \/
       (r = 1 /\ exists n, s' = set_queue (Some new_queue) (set_fmgr (Some new_manager) (set_calls n s)))) s.
Proof.
  unfold dec_frame_manager_init, attempt, dwp, mbind, D_bind, mret, D_ret, dmod. cbn.
  do 4 (destruct (call_fails _); cbn; [left; split; [done | eexists; reflexivity]|]).
  right. split; [done | eexists; reflexivity].
Qed.

Lemma enable_display_wp s :
  dwp enable_display
    (fun r s' => (r = 0 /\ enabled s' = true /\ fmgr s' = Some new_manager /\
         queue s' = Some (set_repeat_ctrl_cb true (set_q_dec true new_queue)) /\
         power_of s' = (reset_deasserted s, clk_bus_disp s, clk_afbd s, irq_depth s + 1)) \/
       (r = -22 /\ enabled s' = enabled s /\ fmgr s' = fmgr s /\ queue s' = queue s /\
         power_of s' = (reset_deasserted s - 1, clk_bus_disp s - 1, clk_afbd s - 1, irq_depth s))) s.
Proof.
  unfold enable_display, enable_irq, afbd_clock, bus_clock, deassert_reset. dstep.
  eapply dwp_call; [apply manager_init_wp|]. cbv beta.
  intros r s1 [(-> & n & ->)|(-> & n & ->)]; cbn [Z.eqb].
  - dsteps. right. ands; try done. unfold power_of. cbn. repeat f_equal; lia.
  - unfold dec_frame_manager_register_sync_cb, dec_frame_manager_register_repeat_ctrl_pfn,
      unlock_queue, on_regs. cbn [Pos.eqb].
    do 2 apply dwp_bind. eapply lock_queue_wp; [reflexivity | done |]. dsteps.
    left. by ands.
Qed.

(** Powering up is all or nothing: on success the reset is deasserted once,
    both clocks and the interrupt are enabled once and a fresh manager and queue
    are installed; on any failure - reset, either clock, or an allocation of the
    manager - every count is what it was, and the device stays disabled.  A
    device that is already enabled is left alone. *)
Theorem enable_all_or_nothing s :
  dec_locked s = false ->
  exists r s', dec_enable s = Done r s' /\ dec_locked s' = false /\
    (enabled s = true -> r = 0 /\ power_of s' = power_of s /\ fmgr s' = fmgr s) /\
    (enabled s = false ->
       (r = 0 /\ enabled s' = true /\ power_of s' = power_plus 1 s /\
        fmgr s' = Some new_manager /\
        queue s' = Some (set_repeat_ctrl_cb true (set_q_dec true new_queue))) \/
       (r <> 0 /\ enabled s' = false /\ power_of s' = power_of s /\ fmgr s' = fmgr s /\
        queue s' = queue s)).
Proof.
  intros Hl. apply dwp_inv. unfold dec_enable, lock_dec, unlock_dec. dstep. rewrite Hl. do 2 dstep.
  cbn [enabled set_dec_locked]. change (enabled (set_dec_locked true s)) with (enabled s).
  destruct (enabled s) eqn:He; [dsteps; by ands|].
  eapply dwp_call with (R := fun r s' =>
       (r = 0 /\ enabled s' = true /\ power_of s' = power_plus 1 s /\
        fmgr s' = Some new_manager /\
        queue s' = Some (set_repeat_ctrl_cb true (set_q_dec true new_queue))) \/
       (r <> 0 /\ enabled s' = false /\ power_of s' = power_of s /\ fmgr s' = fmgr s /\
        queue s' = queue s)).
  { unfold power_up, afbd_clock, bus_clock, deassert_reset.
    apply dwp_bind. unfold attempt at 1. apply dwp_if; intros _.
    { dstep. right. by ands. }
    dstep. apply dwp_bind. unfold attempt at 1. apply dwp_if; intros _.
    { dsteps. right. ands; try done. unfold power_of. cbn. repeat f_equal; lia. }
    dstep. apply dwp_bind. unfold attempt at 1. apply dwp_if; intros _.
    { dsteps. right. ands; try done. unfold power_of. cbn. repeat f_equal; lia. }
    dstep. eapply dwp_mono; [apply enable_display_wp|]. cbv beta.
    intros r s' [(-> & H1 & H2 & H3 & H4)|(-> & H1 & H2 & H3 & H4)]; [left | right]; ands;
      first [ done | by rewrite H1 | rewrite H4; unfold power_plus, power_of; cbn; repeat f_equal; lia ]. }
  cbv beta. intros r s' H. dsteps. split; [done|]. split; [done | exact (fun _ => H)].
Qed.

End Power.

(** The device right after the probe *)
Lemma enable_all_or_nothing_witness :
  exists r s', dec_enable probed = Done r s' /\ dec_locked s' = false /\
    (enabled probed = true -> r = 0 /\ power_of s' = power_of probed /\ fmgr s' = fmgr probed) /\
    (enabled probed = false ->
       (r = 0 /\ enabled s' = true /\ power_of s' = power_plus 1 probed /\
        fmgr s' = Some new_manager /\
        queue s' = Some (set_repeat_ctrl_cb true (set_q_dec true new_queue))) \/
       (r <> 0 /\ enabled s' = false /\ power_of s' = power_of probed /\ fmgr s' = fmgr probed /\
        queue s' = queue probed)).
Proof. apply (enable_all_or_nothing probed). vm_compute. reflexivity. Defined.
