(* ===== verification/DecdShow.v ===== *)
(** From a submitted descriptor to the registers: where frame_item_create puts
    the planes of a picture, and what the vsync interrupt writes for the frame
    that is shown (src/drivers/decd/decd_frame.c, src/drivers/decd/decd_hw.c). *)
From S2P Require Import Prelude Mem DecdRegs Decd DecdOwn DecdItem DecdQueue DecdDevice.
From S2P Require Import DecdFrames DecdStream DecdSteps DecdCreate DecdSafe DecdHw.

(** ** The registers a frame is shown with *)

Definition sync_regs (iommu inv : bool) (it : dec_frame_item) (idx : Z) (alt : bool)
  (rg : option reg_block) : option reg_block :=
  let '(p, aux, _, rep) := frame_planes false (Some it) alt iommu in
  let rg := dec_reg_set_address rg p aux p.1.1.2 idx in
  if idx =? 2 then dec_reg_set_filed_mode rg (field_mode inv (Some it) alt)
  else if idx =? 3 then dec_reg_set_dirty (dec_reg_set_filed_repeat rg rep) true
  else rg.

(** The values of slot [idx] for an item *)
Definition item_value (iommu : bool) (it : dec_frame_item) (alt : bool) : Z * Z * Z * Z * Z * Z :=
  let '(p, aux, _, _) := frame_planes false (Some it) alt iommu in slot_value p aux p.1.1.2.

(** The slot registers do not overlap the control registers. *)
Lemma slot_regs_keep r r' j :
  workaround r' = workaround r ->
  (forall x, workaround r + 16 <= x < workaround r + 76 -> ld8 (io r') x = ld8 (io r) x) ->
  0 <= j <= 3 -> slot_regs r' j = slot_regs r j.
Proof.
  intros Ew Hio Hj. unfold slot_regs, readl, readb. rewrite Ew.
  assert (Hld : forall n a, workaround r + 16 <= a -> a + Z.of_nat n <= workaround r + 76 ->
            ld n (io r') a = ld n (io r) a).
  { intros n a H1 H2. apply ld_same. intros x Hx. apply Hio. lia. }
  destruct (idx_cases j Hj) as [->|[->|[->| ->]]]; offs; rewrite !Hld by lia; done.
Qed.

Lemma set_mode_keep r on :
  workaround r <> 0 ->
  exists r', dec_reg_set_filed_mode (Some r) on = Some r' /\ workaround r' = workaround r /\
    forall j, 0 <= j <= 3 -> slot_regs r' j = slot_regs r j.
Proof.
  intros Hw. unfold dec_reg_set_filed_mode, with_workaround. rewrite eqb_neq_false by done.
  eexists. split; [reflexivity|]. split; [done|]. intros j Hj. apply slot_regs_keep; [done| |done].
  intros x Hx. cbn. apply ld8_st_out. cbn. lia.
Qed.

Lemma set_repeat_keep r on :
  workaround r <> 0 ->
  exists r', dec_reg_set_filed_repeat (Some r) on = Some r' /\ workaround r' = workaround r /\
    forall j, 0 <= j <= 3 -> slot_regs r' j = slot_regs r j.
Proof.
  intros Hw. unfold dec_reg_set_filed_repeat, with_workaround. rewrite eqb_neq_false by done.
  eexists. split; [reflexivity|]. split; [done|]. intros j Hj. apply slot_regs_keep; [done| |done].
  intros x Hx. cbn. apply ld8_st_out. cbn. lia.
Qed.

Lemma set_dirty_keep r :
  workaround r <> 0 ->
  exists r', dec_reg_set_dirty (Some r) true = Some r' /\ workaround r' = workaround r /\
    rb_dirty r' = 1 /\ readl r' (workaround r + 12) = 1 /\
    forall j, 0 <= j <= 3 -> slot_regs r' j = slot_regs r j.
Proof.
  intros Hw. unfold dec_reg_set_dirty, with_workaround. rewrite eqb_neq_false by done.
  eexists. split; [reflexivity|]. split; [done|]. split; [done|]. split.
  - unfold readl. cbn [io writel set_io set_rb_dirty workaround]. by rewrite ld_st_eq.
  - intros j Hj. apply slot_regs_keep; [done| |done].
    intros x Hx. cbn [io writel set_io set_rb_dirty workaround]. apply ld8_st_out. lia.
Qed.

(** One slot is programmed, the others are left alone; the last one marks the
    block dirty. *)
Lemma sync_regs_spec iommu inv it idx alt r :
  workaround r <> 0 -> 0 <= idx <= 3 ->
  exists r', sync_regs iommu inv it idx alt (Some r) = Some r' /\ workaround r' = workaround r /\
    slot_regs r' idx = item_value iommu it alt /\
    (forall j, 0 <= j <= 3 -> j <> idx -> slot_regs r' j = slot_regs r j) /\
    (idx = 3 -> rb_dirty r' = 1 /\ readl r' (workaround r + 12) = 1).
Proof.
  intros Hw Hi. unfold sync_regs, item_value.
  destruct (frame_planes false (Some it) alt iommu) as [[[p aux] fmt] rep].
  destruct (set_address_regs r p aux p.1.1.2 idx Hw Hi) as (r1 & -> & Ew & Hs & Ho & _).
  assert (Hw1 : workaround r1 <> 0) by congruence.
  destruct (Z.eqb_spec idx 2) as [->|H2].
  { destruct (set_mode_keep r1 (field_mode inv (Some it) alt) Hw1) as (r2 & -> & Ew2 & Hk).
    exists r2. ands; [done | congruence | by rewrite Hk | | lia].
    intros j Hj Hne. rewrite Hk by done. auto. }
  destruct (Z.eqb_spec idx 3) as [->|H3].
  - destruct (set_repeat_keep r1 rep Hw1) as (r2 & -> & Ew2 & Hk2).
    destruct (set_dirty_keep r2) as (r3 & -> & Ew3 & Hd1 & Hd2 & Hk3); [congruence|].
    exists r3. ands; [done | congruence | by rewrite Hk3, Hk2 | |].
    + intros j Hj Hne. rewrite Hk3, Hk2 by done. auto.
    + intros _. rewrite <- Ew, <- Ew2. done.
  - exists r1. by ands.
Qed.

(** ** What the four slots must hold

    Stated on the register addresses and the bits of the words read there. *)

(** The register word [v] of a plane at address [a]: its low 32 bits, with bit
    31 forced on by the iommu_debug parameter *)
Definition address_word (dbg : bool) (a v : Z) : Prop :=
  0 <= v < 2 ^ 32 /\
  forall k, 0 <= k < 32 -> Z.testbit v k = (dbg && (k =? 31)) || Z.testbit a k.

(** Slot [i] of the block shows item [it], with its second field if [alt]. *)
Record slot_shows (dbg alt : bool) (it : dec_frame_item) (i : Z) (r : reg_block) : Prop := {
  ss_luma : address_word dbg (if alt then y_addr_alt it else y_addr it)
              (readl r (workaround r + 16 + 4 * i));
  ss_chroma : address_word dbg (if alt then c_addr_alt it else c_addr it)
                (readl r (workaround r + 36 + 4 * i));
  ss_luma_aux : readb r (workaround r + 32 + i) = y_aux it mod 2 ^ 8;
  ss_chroma_aux : readb r (workaround r + 52 + i) = c_aux it mod 2 ^ 8;
  ss_info : readl r (workaround r + 56 + 4 * i) = video_info_addr it mod 2 ^ 32;
  ss_field : readb r (workaround r + 72 + i) = y_aux it mod 2 ^ 8;
}.

Lemma address_word_of (dbg : bool) a v :
  v = u32 (if dbg then low32 a |. 0x80000000 else low32 a) -> address_word dbg a v.
Proof.
  intros ->. unfold low32, u32. split; [apply Z.mod_pos_bound; lia|].
  intros k Hk. rewrite Z.mod_pow2_bits_low by lia. destruct dbg; cbn [andb orb].
  - rewrite Z.lor_spec, Z.mod_pow2_bits_low by lia.
    change 0x80000000 with (2 ^ 31). rewrite Z.pow2_bits_eqb, orb_comm by lia.
    by rewrite (Z.eqb_sym 31 k).
  - by rewrite Z.mod_pow2_bits_low by lia.
Qed.

Lemma slot_shows_of dbg alt it i r :
  0 <= i <= 3 -> slot_regs r i = item_value dbg it alt -> slot_shows dbg alt it i r.
Proof.
  intros Hi. unfold slot_regs, item_value, frame_planes, slot_value.
  destruct (idx_cases i Hi) as [->|[->|[->| ->]]]; offs; cbn [fst snd]; intros E;
    injection E as E1 E2 E3 E4 E5 E6;
    (split; [ apply address_word_of | apply address_word_of | | | | ]);
    rewrite <- ?Z.add_assoc; cbn [Z.add Z.mul Pos.add Pos.mul Pos.succ];
    rewrite ?E1, ?E2, ?E3, ?E4, ?E5, ?E6; by destruct alt, dbg.
Qed.

Section Show.
Context `{K : DecKernel} {L : DecLaws K}.

Lemma trace_regs a f s :
  dwp (dec_debug_trace_frame a f) (fun _ s' => screen s s' /\ regs s' = regs s) s.
Proof.
  unfold dec_debug_trace_frame, with_debug. do 2 dstep.
  destruct (debug s) as [d|]; [|dsteps; split; [apply screen_refl | done]].
  apply dwp_when; intros _; dsteps; (split; [|done]); [apply screen_debug | apply screen_refl].
Qed.

Lemma sync_hardware_regs p idx alt s it :
  p <> 0 -> items s !! p = Some it ->
  dwp (dec_sync_frame_to_hardware p false idx alt)
    (fun _ s' => screen s s' /\
       regs s' = sync_regs (iommu_debug s) (invert_field s) it idx alt (regs s)) s.
Proof.
  intros Hp Hit. unfold dec_sync_frame_to_hardware, sync_regs. rewrite (eqb_neq_false p 0) by done.
  eapply dwp_call with (R := fun o s' => o = Some it /\ s' = s); [by dsteps|].
  cbv beta. intros o s' [-> ->]. do 2 dstep.
  destruct (frame_planes false (Some it) alt (iommu_debug s)) as [[[p4 aux] fmt] rep].
  destruct p4 as [[[p0 p1] p2] p3]. dstep.
  eapply dwp_call; [apply trace_regs|]. cbv beta. intros _ s1 [Hscr Hrg].
  cbn [regs set_regs fst snd] in Hrg |- *.
  assert (Hs1 : screen s s1).
  { eapply screen_trans; [| exact Hscr]. apply screen_regs, screen_refl. }
  destruct (idx =? 2); [dsteps; split; [by apply screen_regs | cbn; by rewrite Hrg]|].
  destruct (idx =? 3); dsteps; (split; [|cbn; by rewrite Hrg]); [by do 2 apply screen_regs | done].
Qed.

(** ** One vsync *)

(** The item of the frame in all four slots *)
Definition shown_item (s : dec_state) (q : dec_frame_queue) (it : dec_frame_item) : Prop :=
  exists v, frames s !! slot3 q = Some v /\ items s !! payload v = Some it /\ payload v <> 0.

Definition alt_bit (q : dec_frame_queue) (i : Z) : bool :=
  negb ((Z.shiftr (field_pattern q) i &. 1) =? 0).

Lemma alt_bit_testbit q i : 0 <= i -> alt_bit q i = Z.testbit (field_pattern q) i.
Proof.
  intros Hi. unfold alt_bit. rewrite Z.testbit_eqb, Z.shiftr_div_pow2 by done.
  change 1 with (Z.ones 1) at 1. rewrite Z.land_ones by lia. change (2 ^ 1) with 2.
  pose proof (Z.mod_pos_bound (field_pattern q / 2 ^ i) 2 ltac:(lia)).
  destruct (Z.eqb_spec ((field_pattern q / 2 ^ i) mod 2) 0) as [->|]; [done|].
  destruct (Z.eqb_spec ((field_pattern q / 2 ^ i) mod 2) 1); [done | lia].
Qed.

Lemma sync_slot_regs s q it r i b :
  queue s = Some q -> calm q -> slot3 q <> 0 -> shown_item s q it ->
  regs s = Some r -> workaround r <> 0 -> 0 <= i <= 3 ->
  dwp (sync_slot b i) (fun _ s' => screen s s' /\
    exists r', regs s' = Some r' /\ workaround r' = workaround r /\
      slot_regs r' i = item_value (iommu_debug s) it (alt_bit q i) /\
      (forall j, 0 <= j <= 3 -> j <> i -> slot_regs r' j = slot_regs r j) /\
      (i = 3 -> rb_dirty r' = 1 /\ readl r' (workaround r + 12) = 1)) s.
Proof.
  intros Hq Hc Hz (v & Hv & Hit & Hp) Hr Hw Hi. unfold sync_slot. dstep.
  rewrite (slot_calm i q Hc), (eqb_neq_false (slot3 q) 0) by done. cbn [negb]. dstep.
  destruct Hc as (_ & _ & _ & _ & Hdec & _). rewrite Hdec. cbn [dwhen].
  eapply dwp_mono; [by eapply sync_hardware_regs|]. cbv beta. intros _ s' [Hs Hrg].
  split; [done|]. rewrite Hr in Hrg.
  destruct (sync_regs_spec (iommu_debug s) (invert_field s) it i (alt_bit q i) r Hw Hi)
    as (r' & E & Hrest). exists r'. split; [|exact Hrest]. rewrite Hrg. exact E.
Qed.

(** The slots show [it], and the block is marked dirty. *)
Definition programmed (s : dec_state) (q : dec_frame_queue) (it : dec_frame_item)
  (w : Z) (rg : option reg_block) : Prop :=
  exists r', rg = Some r' /\ workaround r' = w /\
    (forall i, 0 <= i <= 3 -> slot_regs r' i = item_value (iommu_debug s) it (alt_bit q i)) /\
    rb_dirty r' = 1 /\ readl r' (w + 12) = 1.

(** All four slots, one after the other *)
Lemma sync_slots_regs s q it r b (k : D unit) Q :
  queue s = Some q -> calm q -> slot3 q <> 0 -> shown_item s q it ->
  regs s = Some r -> workaround r <> 0 ->
  (forall s', screen s s' -> programmed s q it (workaround r) (regs s') -> dwp k Q s') ->
  dwp (sync_slot b 0;; sync_slot b 1;; sync_slot b 2;; sync_slot b 3;; k) Q s.
Proof.
  intros Hq Hc Hz Hit Hr Hw Hk.
  assert (Hkeep : forall x, screen s x -> queue x = Some q /\ shown_item x q it /\
                    iommu_debug x = iommu_debug s) by (by intros x (rg & db & ->)).
  assert (Hnext : forall x rx i, screen s x -> regs x = Some rx -> workaround rx = workaround r ->
    0 <= i <= 3 -> dwp (sync_slot b i) (fun _ y => screen s y /\ exists ry, regs y = Some ry /\
      workaround ry = workaround r /\ slot_regs ry i = item_value (iommu_debug s) it (alt_bit q i) /\
      (forall j, 0 <= j <= 3 -> j <> i -> slot_regs ry j = slot_regs rx j) /\
      (i = 3 -> rb_dirty ry = 1 /\ readl ry (workaround r + 12) = 1)) x).
  { intros x rx i Hx Hrx Hwx Hi. destruct (Hkeep x Hx) as (Hqx & Hix & Hio).
    eapply dwp_mono; [eapply sync_slot_regs; try eassumption; congruence|]. cbv beta.
    rewrite Hio, Hwx. intros _ y [Hy Hry]. split; [by eapply screen_trans | exact Hry]. }
  eapply dwp_call; [by apply (Hnext s r 0); [apply screen_refl | ..]|]. cbv beta.
  intros _ s0 (H0 & r0 & R0 & W0 & V0 & _).
  eapply dwp_call; [by apply (Hnext s0 r0 1)|]. cbv beta. intros _ s1 (H1 & r1 & R1 & W1 & V1 & K1 & _).
  eapply dwp_call; [by apply (Hnext s1 r1 2)|]. cbv beta. intros _ s2 (H2 & r2 & R2 & W2 & V2 & K2 & _).
  eapply dwp_call; [by apply (Hnext s2 r2 3)|]. cbv beta. intros _ s3 (H3 & r3 & R3 & W3 & V3 & K3 & D3).
  apply Hk; [done|]. exists r3. ands; [done | done | | by apply D3 | by apply D3].
  intros i Hi. destruct (idx_cases i Hi) as [->|[->|[->| ->]]].
  - by rewrite K3, K2, K1 by lia.
  - by rewrite K3, K2 by lia.
  - by rewrite K3 by lia.
  - done.
Qed.
Lemma queue_sync_regs lk hf hi s q m b it r :
  streaming lk hf hi s q m -> slot3 q <> 0 -> shown_item s q it ->
  regs s = Some r -> workaround r <> 0 ->
  dwp (dec_frame_queue_sync b)
    (fun _ s' => streaming lk hf hi s' (set_dirty 0 q) m /\
       programmed s q it (workaround r) (regs s')) s.
Proof.
  intros H Hz Hit Hr Hw. pose proof (st_q _ _ _ _ _ _ H) as Hq.
  unfold dec_frame_queue_sync. dstep. set (s0 := set_queue (Some (set_dirty 0 q)) s).
  assert (H0 : streaming lk hf hi s0 (set_dirty 0 q) m) by upd H.
  eapply (sync_slots_regs s0 (set_dirty 0 q)); try done; [apply (st_calm _ _ _ _ _ _ H0)|].
  intros s' Hs' Hpr. eapply streaming_screen in H0; [| exact Hs'].
  pose proof H0 as [Hq' _ _ (_ & _ & Hr' & _) _ _ _]. dstep. rewrite Hr'. cbn [Z.eqb negb dwhen].
  dstep. by split.
Qed.

(** The rest of the interrupt leaves the registers alone. *)
Lemma recycle_regs lk hf hi s q m :
  streaming lk hf hi s q m ->
  dwp dec_frame_recycle (fun _ s' => streaming lk hf hi s' q m /\ regs s' = regs s) s.
Proof.
  intros H. pose proof (st_m _ _ _ _ _ _ H) as Hm.
  pose proof (st_plain _ _ _ _ _ _ H) as (_ & _ & _ & Hr & _).
  unfold dec_frame_recycle, queue_release_work. dstep. rewrite Hr. cbn [length recycle_loop].
  dstep. rewrite Hr, kfifo_out_nil. dsteps. split; [upd H | done].
Qed.

Lemma vsync_process_regs hf hi s q m it r :
  streaming false hf hi s q m -> slot3 q <> 0 -> shown_item s q it -> dirty q <> 0 ->
  regs s = Some r -> workaround r <> 0 ->
  dwp dec_vsync_process (fun _ s' => programmed s q it (workaround r) (regs s')) s.
Proof.
  intros H Hz Hit Hd Hr Hw. unfold dec_vsync_process.
  apply dwp_bind. eapply lock_queue_wp; [apply (st_q _ _ _ _ _ _ H) | apply (st_lock _ _ _ _ _ _ H)|].
  set (s1 := set_queue (Some (set_q_locked true q)) s).
  assert (H1 : streaming true hf hi s1 (set_q_locked true q) m) by upd H.
  pose proof (st_m _ _ _ _ _ _ H1) as Hm1. do 2 dstep.
  rewrite (eqb_neq_false (dirty (set_q_locked true q)) 0) by done. cbn [negb].
  eapply dwp_call with (R := fun _ s' => streaming true hf hi s' (set_dirty 0 (set_q_locked true q)) m /\
    programmed s q it (workaround r) (regs s')).
  { eapply dwp_call; [by eapply (queue_sync_regs _ _ _ s1 (set_q_locked true q))|].
    cbv beta. intros _ s2 [H2 Hp2]. eapply dwp_mono; [eapply recycle_regs; exact H2|].
    cbv beta. intros _ s3 [H3 ->]. by split. }
  cbv beta. intros _ s2 [H2 Hp2]. apply dwp_bind. unfold unlock_queue.
  pose proof (st_q _ _ _ _ _ _ H2) as Hq2. pose proof (st_m _ _ _ _ _ _ H2) as Hm2. dstep.
  eapply dwp_call with (R := fun _ s' => (exists m', fmgr s' = Some m') /\ regs s' = regs s2).
  { apply dwp_if; intros _; [|apply dwp_if; intros _; dsteps; eauto].
    dstep. apply dwp_when; intros _; [|eauto]. dsteps. eauto. }
  cbv beta. intros _ s3 [[m3 Hm3] Hr3]. dstep. by rewrite <- Hr3 in Hp2.
Qed.

(** C13: From the frame shown to the hardware: in every reachable state of a
    progressive stream whose slots have changed while a frame is shown, with a
    mapped register block, the next vsync interrupt returns and leaves each of
    the four slots of the block with the item of the shown frame: the low 32
    bits of the luma and of the chroma address (those of the second field where
    the field pattern has the slot's bit set), with bit 31 set exactly when it
    is in the address or iommu_debug is on, the auxiliary byte of each plane,
    the address of the info page, and the luma auxiliary byte as field byte; and
    the dirty register holds 1, so that the hardware takes the slots over. *)
Theorem vsync_programs_slots s0 s hi q r :
  just_enabled s0 -> star dec_step (s0, []) (s, hi) -> queue s = Some q ->
  dirty q <> 0 -> slot3 q <> 0 -> regs s = Some r -> workaround r <> 0 ->
  exists v it s' r', frames s !! slot3 q = Some v /\ items s !! payload v = Some it /\
    dec_vsync_process s = Done tt s' /\ regs s' = Some r' /\ workaround r' = workaround r /\
    (forall i, 0 <= i <= 3 ->
       slot_shows (iommu_debug s) (Z.testbit (field_pattern q) i) it i r') /\
    readl r' (workaround r + 12) = 1.
Proof.
  intros H0 Hs Hq Hd Hz Hr Hw. destruct (star_at [] _ _ _ (just_enabled_at _ H0) Hs) as (a & Ha & _).
  destruct Ha as (_ & q' & m & H & _). cbn in H.
  pose proof (st_q _ _ _ _ _ _ H) as E. rewrite Hq in E. injection E as <-.
  destruct (objs_live _ _ _ (slot3 q) (st_objs _ _ _ _ _ _ H)) as (v & it & Hv & Hit & _ & Hp);
    [unfold roots; set_solver | done |].
  assert (Hsh : shown_item s q it) by (exists v; by ands).
  destruct (dwp_inv _ _ _ (vsync_process_regs _ _ _ _ _ _ _ H Hz Hsh Hd Hr Hw))
    as ([] & s' & Es & r' & Er & Ew & Hsl & _ & Hdr).
  exists v, it, s', r'. ands; try done. intros i Hi. apply slot_shows_of; [done|].
  rewrite (Hsl i Hi), alt_bit_testbit by lia. done.
Qed.

End Show.

(** The second frame of a stream reaches the registers. *)
Lemma vsync_programs_slots_witness :
  exists v it s' r', frames (ran two_frames).1 !! slot3 (queue_of (ran two_frames).1) = Some v /\
    items (ran two_frames).1 !! payload v = Some it /\
    dec_vsync_process (ran two_frames).1 = Done tt s' /\ regs s' = Some r' /\
    workaround r' = workaround (default some_block (regs (ran two_frames).1)) /\
    (forall i, 0 <= i <= 3 -> slot_shows (iommu_debug (ran two_frames).1)
       (Z.testbit (field_pattern (queue_of (ran two_frames).1)) i) it i r') /\
    readl r' (workaround (default some_block (regs (ran two_frames).1)) + 12) = 1.
Proof.
  eapply (vsync_programs_slots powered _ (ran two_frames).2);
    [ apply powered_enabled
    | apply ran_reached; vm_compute; reflexivity
    | vm_compute; reflexivity
    | vm_compute; discriminate
    | vm_compute; discriminate
    | vm_compute; reflexivity
    | vm_compute; discriminate ].
Defined.
