(* ===== verification/DecdPlanes.v ===== *)
(** Where frame_item_create puts the planes of a picture in a dma-buf
    (src/drivers/decd/decd_frame.c): the row stride, the offset of the chroma
    plane and the addresses the new item carries. *)
From S2P Require Import Prelude Mem DecdRegs Decd DecdOwn DecdItem DecdQueue DecdDevice.
From S2P Require Import DecdFrames DecdStream DecdSteps DecdCreate DecdSafe.

(** ** Row strides *)

(** Bytes of one luma sample *)
Definition sample_bytes (bpp : Z) : Z := if bpp =? 8 then 1 else 2.

Lemma bic_mask x k : 0 <= k -> 0 <= x -> bic x (2 ^ k - 1) = x - x mod 2 ^ k.
Proof.
  intros Hk Hx. unfold bic. replace (2 ^ k - 1) with (Z.ones k) by (rewrite Z.ones_equiv; lia).
  rewrite Z.ldiff_ones_r, Z.shiftl_mul_pow2, Z.shiftr_div_pow2 by done.
  pose proof (Z.div_mod x (2 ^ k)). lia.
Qed.

(** ALIGN rounds up to the next multiple. *)
Lemma ALIGN_spec x k :
  0 <= k -> 0 <= x -> x + 2 ^ k <= 2 ^ 32 ->
  x <= ALIGN x (2 ^ k) < x + 2 ^ k /\ ALIGN x (2 ^ k) mod 2 ^ k = 0.
Proof.
  intros Hk Hx Hb. unfold ALIGN. assert (H2 : 0 < 2 ^ k) by lia.
  rewrite (u32_small (2 ^ k - 1)) by lia. rewrite u32_small by lia. rewrite bic_mask by lia.
  set (y := x + (2 ^ k - 1)). pose proof (Z.mod_pos_bound y (2 ^ k) H2).
  split; [lia|]. rewrite Zminus_mod_idemp_r, Z.sub_diag. apply Z.mod_0_l. lia.
Qed.

Lemma frame_stride_spec bpp width k :
  0 <= k -> 0 <= width -> width * sample_bytes bpp + 2 ^ k <= 2 ^ 32 ->
  let row := width * sample_bytes bpp in
  let stride := frame_stride bpp width (2 ^ k) in
  row <= stride < row + 2 ^ k /\ stride mod 2 ^ k = 0.
Proof.
  intros Hk Hw Hb. cbv zeta. unfold frame_stride, sample_bytes in *.
  rewrite (eqb_neq_false (2 ^ k) 0) by lia.
  destruct (bpp =? 8); rewrite u32_small by lia; by apply ALIGN_spec; lia.
Qed.

Lemma frame_stride_none bpp width :
  0 <= width -> width * sample_bytes bpp < 2 ^ 32 -> frame_stride bpp width 0 = width * sample_bytes bpp.
Proof.
  intros Hw Hb. unfold frame_stride, sample_bytes in *. cbn [Z.eqb]. destruct (bpp =? 8); rewrite u32_small by lia; lia.
Qed.

(** Rows of 9 bytes aligned to 6: 10 bytes. *)
Lemma odd_alignment : frame_stride 8 9 6 = 10 /\ 10 mod 6 <> 0.
Proof. split; [vm_compute; reflexivity | discriminate]. Qed.

(** ** Following the item through its creation *)

(** The items are left alone. *)
Definition items_kept {A} (m : D A) : Prop := forall s, after m (fun _ s' => items s' = items s) s.

Section Planes.
Context `{K : DecKernel}.

Lemma kept_call {A B} (m : D A) (k : A -> D B) Q s :
  items_kept m -> (forall a s', items s' = items s -> after (k a) Q s') -> after (m ≫= k) Q s.
Proof. intros H Hk. eapply after_bind; [apply H | exact Hk]. Qed.

Lemma kept_bind {A B} (m : D A) (k : A -> D B) :
  items_kept m -> (forall a, items_kept (k a)) -> items_kept (m ≫= k).
Proof.
  intros H Hk s. apply kept_call; [done|]. intros a s' E. rewrite <- E. apply Hk.
Qed.

Lemma kept_ret {A} (a : A) : items_kept (mret a).
Proof. by intros s. Qed.

Lemma kept_if {A} (b : bool) (m n : D A) :
  items_kept m -> items_kept n -> items_kept (if b then m else n).
Proof. by destruct b. Qed.

Lemma kept_dget {A} (f : dec_state -> A) : items_kept (dget f).
Proof. by intros s. Qed.

Lemma kept_dmod f : (forall s, items (f s) = items s) -> items_kept (dmod f).
Proof. intros H s. apply H. Qed.

Lemma kept_deref {A} (f : dec_state -> gmap Z A) p : items_kept (deref f p).
Proof. intros s. unfold after, deref. by destruct (f s !! p). Qed.

Lemma kept_attempt : items_kept attempt.
Proof. by intros s. Qed.

Lemma kept_kzalloc : items_kept kzalloc.
Proof.
  apply kept_bind; [apply kept_attempt|]. intros [].
  - apply kept_bind; [apply kept_dget|]. intros p.
    apply kept_bind; [by apply kept_dmod | intros _; apply kept_ret].
  - apply kept_ret.
Qed.

Lemma kept_mod_page p f : items_kept (mod_page p f).
Proof. apply kept_bind; [apply kept_deref|]. intros v. by apply kept_dmod. Qed.

Lemma kept_fence_alloc : items_kept dec_fence_alloc.
Proof.
  apply kept_bind; [apply kept_kzalloc|]. intros p. apply kept_if; [apply kept_ret|].
  apply kept_bind; [apply kept_dget|]. intros n.
  do 2 (apply kept_bind; [by apply kept_dmod | intros _]). apply kept_ret.
Qed.

Lemma kept_alloc_page : items_kept alloc_video_info_page.
Proof.
  apply kept_bind; [apply kept_dget|]. intros [|p l]; [apply kept_ret|].
  do 2 (apply kept_bind; [by apply kept_dmod | intros _]). apply kept_ret.
Qed.

Lemma kept_trace_map i : items_kept (dec_debug_trace_dma_buf_map i).
Proof.
  unfold dec_debug_trace_dma_buf_map. apply kept_if; [apply kept_ret|].
  apply kept_bind; [apply kept_deref|]. intros it. destruct (image_map it); [|apply kept_ret].
  do 2 (apply kept_bind; [apply kept_dget | intros ?]). case_match; [|apply kept_ret].
  apply kept_if; [apply kept_ret|]. apply kept_if; [by apply kept_dmod|].
  apply kept_bind; [apply kept_deref | intros v; by apply kept_dmod].
Qed.

(** Reading and changing the item [i] *)
Lemma set_call {B} i f (k : unit -> D B) Q s it :
  items s !! i = Some it ->
  (forall s', items s' !! i = Some (f it) -> after (k tt) Q s') -> after (mod_item i f ≫= k) Q s.
Proof.
  intros Hit Hk. unfold mod_item, deref, after, mbind, D_bind. rewrite Hit. cbn. apply Hk.
  apply lookup_insert_eq.
Qed.

Lemma keep_call {A B} i (m : D A) (k : A -> D B) Q s it :
  items_kept m -> items s !! i = Some it ->
  (forall a s', items s' !! i = Some it -> after (k a) Q s') -> after (m ≫= k) Q s.
Proof. intros H Hit Hk. apply kept_call; [done|]. intros a s' E. apply Hk. by rewrite E. Qed.

(** The item found at [i] satisfies [P]. *)
Definition holds (i : Z) (P : dec_frame_item -> Prop) (s : dec_state) : Prop :=
  exists it, items s !! i = Some it /\ P it.

(** The buffer named by [fd] is mapped at its own address. *)
Lemma dma_map_after fd s :
  after (dec_dma_map fd) (fun o s' => items s' = items s /\
    forall map, o = Some map -> dm_addr map = dbuf_dma_addr (dbuf_of_fd fd)) s.
Proof.
  unfold dec_dma_map. apply after_if; intros _; [done|].
  apply kept_call; [apply kept_kzalloc|]. intros p s1 <-. apply after_if; intros _; [done|].
  apply kept_call; [apply kept_attempt|]. intros b s2 <-. apply after_if; intros _; [done|].
  apply kept_call; [by apply kept_dmod|]. intros _ s3 <-.
  apply kept_call; [apply kept_attempt|]. intros b3 s4 <-. apply after_if; intros _; [done|].
  apply kept_call; [by apply kept_dmod|]. intros _ s5 <-.
  apply kept_call; [apply kept_attempt|]. intros b5 s6 <-. apply after_if; intros _; [done|].
  apply kept_call; [by apply kept_dmod|]. intros _ s7 <-. apply after_ret. split; [done|].
  by intros map [= <-].
Qed.

(** Copying the decoder's information changes the page of the item only. *)
Lemma info_dmabuf_after i (P : dec_frame_item -> Prop) s :
  (forall p it, P it -> P (set_video_info_page p it)) -> holds i P s ->
  after (video_info_buffer_init_dmabuf i) (fun _ s' => holds i P s') s.
Proof.
  intros HP (it & Hit & Hp). assert (Hold : holds i P s) by (exists it; done).
  unfold video_info_buffer_init_dmabuf. apply after_if; intros _; [done|].
  eapply keep_call; [apply kept_deref | exact Hit|]. intros it1 s1 H1.
  destruct (info_map it1) as [map|]; [|by exists it].
  eapply keep_call; [| exact H1|].
  { apply kept_bind; [apply kept_attempt|]. intros b.
    apply kept_if; [apply kept_ret | apply kept_attempt]. }
  intros ok s2 H2. apply after_if; intros _; [by exists it|].
  eapply keep_call; [apply kept_alloc_page | exact H2|]. intros p s3 H3.
  apply after_if; intros _; [by exists it|].
  eapply set_call; [exact H3|]. intros s4 H4.
  do 4 (eapply keep_call; [apply kept_mod_page | eassumption|]; intros _ ? ?).
  eapply keep_call; [apply kept_deref | eassumption|]. intros v s9 H9.
  apply after_ret. eexists. split; [exact H9 | by apply HP].
Qed.

(** Where an item has the planes of a picture *)
Definition placed (a : Z) (desc : dec_frame_submit_desc) (it : dec_frame_item) : Prop :=
  y_addr it = u32 a /\ c_addr it = u32 (u32 a + frame_c_offset desc) /\
  y_addr_alt it = y_addr it /\ c_addr_alt it = c_addr it /\ y_aux it = 0 /\ c_aux it = 0.

Lemma setup_after i a desc s it :
  items s !! i = Some it -> split_fields desc = 0 ->
  y_addr it = u32 a -> c_addr it = u32 (u32 a + frame_c_offset desc) -> y_aux it = 0 -> c_aux it = 0 ->
  after (setup_fields i desc) (fun r s' => r = i /\ holds i (placed a desc) s') s.
Proof.
  intros Hit Hd Hy Hc Hya Hca. unfold setup_fields, set_fields. rewrite Hd. cbn [Z.eqb negb].
  eapply after_bind with (R := fun _ s' => holds i (placed a desc) s').
  { eapply set_call; [exact Hit|]. intros s1 H1.
    unfold mod_item, deref, after, mbind, D_bind. rewrite H1. cbn.
    eexists. split; [apply lookup_insert_eq | by unfold placed]. }
  intros _ s1 (it1 & H1 & P1). eapply keep_call; [apply kept_dget | exact H1|]. intros ctx s2 H2.
  eapply after_bind with (R := fun _ s' => holds i (placed a desc) s').
  { unfold dwhen. apply after_if; intros _; [|by exists it1].
    eapply keep_call; [apply kept_fence_alloc | exact H2|]. intros f s3 H3.
    unfold mod_item, deref, after, mbind, D_bind. rewrite H3. cbn.
    eexists. split; [apply lookup_insert_eq | exact P1]. }
  intros _ s3 (it3 & H3 & P3). eapply keep_call; [apply kept_deref | exact H3|]. intros it4 s4 H4.
  eapply keep_call; [| exact H4|].
  - destruct (image_map it4); [apply kept_trace_map | apply kept_ret].
  - intros _ s5 H5. apply after_ret. split; [done | by exists it3].
Qed.

Lemma create_dmabuf_after desc s :
  split_fields desc = 0 ->
  after (item_create_dmabuf desc) (fun i s' => i = 0 \/
    holds i (placed (dbuf_dma_addr (dbuf_of_fd (image_fd desc))) desc) s') s.
Proof.
  intros Hd. unfold item_create_dmabuf, frame_item_alloc.
  eapply after_bind with (R := fun i s' => i = 0 \/ holds i (fun _ => True) s').
  { apply kept_call; [apply kept_kzalloc|]. intros i s1 _. apply after_if; intros Hi; [by left|].
    right. eexists. split; [apply lookup_insert_eq | done]. }
  intros i s1 [->|(it & Hit & _)]; [by left|]. apply after_if; intros _; [by left|].
  assert (Hfree : forall s', after (kfree_item i;; mret 0) (fun i s' => i = 0 \/
    holds i (placed (dbuf_dma_addr (dbuf_of_fd (image_fd desc))) desc) s') s').
  { intros s'. eapply after_bind with (R := fun _ _ => True); [|by left].
    unfold kfree_item, after, mbind, D_bind, deref. by case_match. }
  eapply after_bind; [apply dma_map_after|]. intros [map|] s2 [E2 Ha]; [|apply Hfree].
  rewrite <- E2 in Hit. specialize (Ha map eq_refl). rewrite <- Ha.
  eapply set_call; [exact Hit|]. intros s3 H3.
  eapply after_bind; [apply dma_map_after|]. intros [imap|] s4 [E4 _].
  2: { eapply after_bind with (R := fun _ _ => True); [|intros; rewrite Ha; apply Hfree].
       unfold after. by case_match. }
  rewrite <- E4 in H3. eapply set_call; [exact H3|]. intros s5 H5.
  eapply after_bind with (R := fun _ s' => exists it', items s' !! i = Some it' /\
    y_addr it' = u32 (dm_addr map) /\ c_addr it' = u32 (u32 (dm_addr map) + frame_c_offset desc) /\
    y_aux it' = 0 /\ c_aux it' = 0).
  { unfold item_addresses. eapply after_bind.
    { apply (info_dmabuf_after i (fun _ => True)); [done | by eexists]. }
    intros a s6 (it6 & H6 & _).
    do 4 (eapply set_call; [eassumption|]; intros ? ?).
    eapply set_call; [eassumption|]. intros s7 H7.
    unfold mod_item, deref, after, mbind, D_bind. rewrite H7. cbn.
    eexists. split; [apply lookup_insert_eq|]. by ands. }
  intros _ s6 (it6 & H6 & Hy & Hc & Hya & Hca).
  pose proof (setup_after i (dm_addr map) desc s6 it6 H6 Hd Hy Hc Hya Hca) as H7.
  unfold after in *. destruct (setup_fields i desc s6) as [r s7|]; [|done]. right.
  destruct H7 as [-> H7]. exact H7.
Qed.

End Planes.

Lemma list_find_fmt fmt bpp :
  (fmt, bpp) ∈ fmt_attr_tbl ->
  exists n, list_find (fun e : Z * Z => e.1 = fmt) fmt_attr_tbl = Some (n, (fmt, bpp)).
Proof.
  intros H. unfold fmt_attr_tbl in H.
  repeat (apply elem_of_cons in H as [H|H]; [injection H as -> ->; eexists; vm_compute; reflexivity|]).
  by apply not_elem_of_nil in H.
Qed.

Lemma u32_add_mod a b : u32 (u32 a + u32 b) = u32 (a + b).
Proof. unfold u32. symmetry. apply Zplus_mod. Qed.

Lemma c_offset_eq desc bpp :
  (desc_format desc, bpp) ∈ fmt_attr_tbl ->
  frame_c_offset desc
  = u32 (desc_height desc * frame_stride bpp (desc_width desc) (desc_align desc)).
Proof. intros H. unfold frame_c_offset. by destruct (list_find_fmt _ _ H) as (n & ->). Qed.

Section Claim.
Context `{K : DecKernel} {L : DecLaws K}.

(** C23: Where a picture in a dma-buf is: in every reachable state of a stream,
    frame_item_create of a descriptor with a listed format and without split
    fields returns either 0 or an item whose luma plane is at the address the
    buffer is mapped at and whose chroma plane follows height rows later (mod
    2^32); both fields use these addresses and the auxiliary bytes are 0.  For
    an alignment that is a power of two - and as long as a row does not overflow
    32 bits - a row takes the least multiple of the alignment that holds width
    samples of one byte (8 bits) or two (10 bits), for an alignment of 0 exactly
    those bytes.  The alignment is the user's and is not checked; for another
    value a row need not be a multiple of it (lemma odd_alignment). *)
Theorem planes_of_the_buffer s0 s hi desc bpp :
  just_enabled s0 -> star dec_step (s0, []) (s, hi) ->
  linear desc = 0 -> split_fields desc = 0 -> (desc_format desc, bpp) ∈ fmt_attr_tbl -> 0 <= desc_width desc ->
  let row := desc_width desc * sample_bytes bpp in
  exists item s' stride, frame_item_create desc s = Done item s' /\
    (forall k, 0 <= k -> desc_align desc = 2 ^ k -> row + 2 ^ k <= 2 ^ 32 ->
       row <= stride < row + 2 ^ k /\ stride mod 2 ^ k = 0) /\
    (desc_align desc = 0 -> row < 2 ^ 32 -> stride = row) /\
    (item = 0 \/ exists it, items s' !! item = Some it /\
       let a := dbuf_dma_addr (dbuf_of_fd (image_fd desc)) in
       y_addr it = u32 a /\ c_addr it = u32 (a + desc_height desc * stride) /\
       y_addr_alt it = y_addr it /\ c_addr_alt it = c_addr it /\ y_aux it = 0 /\ c_aux it = 0).
Proof.
  intros H0 Hs Hl Hsp Hf Hw row.
  destruct (star_at [] _ _ _ (just_enabled_at _ H0) Hs) as (x & Hx & _).
  destruct Hx as (_ & q & m & H & _). cbn in H.
  destruct (dwp_inv _ _ _ (item_create_stream _ _ _ _ _ _ desc H Hsp)) as (item & s' & E & _).
  exists item, s', (frame_stride bpp (desc_width desc) (desc_align desc)). ands; [done | | |].
  { intros k Hk -> Hb. by apply (frame_stride_spec bpp _ k Hk Hw Hb). }
  { intros -> Hb. apply frame_stride_none; [done|]. exact Hb. }
  assert (H20 : desc_format desc <= 20).
  { unfold fmt_attr_tbl in Hf. set_unfold in Hf. naive_solver lia. }
  pose proof (create_dmabuf_after desc s Hsp) as Ha. revert E. unfold frame_item_create.
  rewrite Hl, (ltb_false 20) by lia. cbn [Z.eqb negb]. intros E. unfold after in Ha. rewrite E in Ha.
  destruct Ha as [->|(it & Hit & Hy & Hc & Hya & Hca & Hy0 & Hc0)]; [by left | right].
  exists it. split; [done|]. cbv zeta. ands; try done.
  rewrite Hc, (c_offset_eq _ _ Hf). apply u32_add_mod.
Qed.
End Claim.

(** A frame of 1000 by 500 samples of 10 bits, rows aligned to 64 bytes *)
Definition p010_desc : dec_frame_submit_desc := SubmitDesc 0 0 5 5 1000 500 64 6 0 1 0 0.

Lemma planes_of_the_buffer_witness :
  exists item s' stride, frame_item_create p010_desc (ran two_frames).1 = Done item s' /\
    2000 <= stride < 2000 + 2 ^ 6 /\ stride mod 2 ^ 6 = 0 /\
    (item = 0 \/ exists it, items s' !! item = Some it /\
       let a := dbuf_dma_addr (dbuf_of_fd 5) in
       y_addr it = u32 a /\ c_addr it = u32 (a + 500 * stride) /\
       y_addr_alt it = y_addr it /\ c_addr_alt it = c_addr it /\ y_aux it = 0 /\ c_aux it = 0).
Proof.
  destruct (planes_of_the_buffer powered (ran two_frames).1 (ran two_frames).2 p010_desc 10)
    as (item & s' & stride & E & Hst & _ & H);
    [ apply powered_enabled
    | apply ran_reached; vm_compute; reflexivity
    | reflexivity
    | reflexivity
    | unfold fmt_attr_tbl; set_solver
    | vm_compute; discriminate
    | ].
  exists item, s', stride. split; [exact E|]. split; [|split; [|exact H]];
    apply (Hst 6); first [lia | reflexivity | vm_compute; discriminate].
Defined.

(** The creation does succeed there. *)
Example p010_created :
  match frame_item_create p010_desc (ran two_frames).1 with Done i _ => negb (i =? 0) | Halt _ => false end
  = true.
Proof. vm_compute. reflexivity. Qed.
