(* ===== verification/DecdInterlace.v ===== *)
(** Interlaced streams of the decoder display driver: the shutdown that does
    complete, and the three ways the code fails on them - a spinlock taken
    twice, a pointer with the value 1, and a fence freed under a file that
    still names it (src/drivers/decd/decd_frame.c). *)
From S2P Require Import Prelude Mem DecdRegs Decd DecdOwn DecdItem DecdQueue DecdDevice.
From S2P Require Import DecdFrames DecdStream DecdSteps DecdCreate DecdSafe.

Section Interlace.
Context `{K : DecKernel} {L : DecLaws K}.

(** ** Programming whatever is in the slots *)

(** Every slot is empty or has a live frame, whose item is live. *)
Definition slots_live (s : dec_state) (q : dec_frame_queue) : Prop :=
  forall i, slot i q = 0 \/ exists v, frames s !! slot i q = Some v /\
    (payload v = 0 \/ is_Some (items s !! payload v)).

Lemma sync_slot_gen s q b i :
  queue s = Some q -> slots_live s q -> dwp (sync_slot b i) (fun _ s' => screen s s') s.
Proof.
  intros Hq Hl. unfold sync_slot. dstep. destruct (Hl i) as [E|(v & Hv & Hp)].
  - rewrite E. cbn [Z.eqb negb]. apply dwp_when; intros _; [|apply screen_refl].
    apply sync_hardware_screen. by left.
  - apply dwp_if; intros _.
    + dstep. apply dwp_when; intros _; [|apply screen_refl]. by apply sync_hardware_screen.
    + apply dwp_when; intros _; [|apply screen_refl]. apply sync_hardware_screen. by left.
Qed.

Lemma slots_live_screen s s' q : screen s s' -> slots_live s q -> slots_live s' q.
Proof. by intros (rg & db & ->). Qed.

Definition synced (q : dec_frame_queue) : dec_frame_queue :=
  if repeat_pending q =? 0 then set_dirty 0 q else set_repeat_pending 0 (set_dirty 0 q).

Lemma queue_sync_gen s q b :
  queue s = Some q -> slots_live s q -> q_dec q = true ->
  dwp (dec_frame_queue_sync b) (fun _ s' => screen (set_queue (Some (synced q)) s) s') s.
Proof.
  intros Hq Hl Hdec. unfold dec_frame_queue_sync. dstep.
  set (q0 := set_dirty 0 q). set (s0 := set_queue (Some q0) s).
  assert (Hl0 : slots_live s0 q0) by exact Hl.
  assert (H0 : screen s0 s0) by apply screen_refl.
  assert (Hkeep : forall x, screen s0 x -> queue x = Some q0 /\ slots_live x q0).
  { intros x Hx. split; [by destruct Hx as (rg & db & ->) | by eapply slots_live_screen]. }
  assert (Hone : forall x i, screen s0 x -> dwp (sync_slot b i) (fun _ y => screen s0 y) x).
  { intros x i Hx. destruct (Hkeep x Hx) as [Hqx Hlx].
    eapply dwp_mono; [by eapply sync_slot_gen|]. cbv beta. intros _ y Hy. by eapply screen_trans. }
  do 4 (eapply dwp_call; [apply Hone; eassumption|]; cbv beta; intros _ ? ?).
  match goal with H : screen s0 ?x |- dwp _ _ ?x => destruct (Hkeep x H) as [Hqx _]; rename H into Hx end.
  destruct Hx as (rg & db & ->). dstep. unfold synced.
  change (repeat_pending q0) with (repeat_pending q).
  apply dwp_when; intros Hz; zbool.
  - rewrite eqb_neq_false by done. dstep. unfold with_dec_regs. dstep.
    change (q_dec (set_repeat_pending 0 q0)) with (q_dec q). rewrite Hdec. dstep.
    eexists _, db. reflexivity.
  - rewrite Hz. cbn [Z.eqb]. eexists rg, db. reflexivity.
Qed.

Lemma lock_queue_run s q :
  queue s = Some q -> q_locked q = false ->
  lock_queue s = Done tt (set_queue (Some (set_q_locked true q)) s).
Proof. intros Hq Hl. unfold lock_queue, getq, modq, mbind, D_bind. by rewrite Hq, Hl, Hq. Qed.

(** ** Deadlock *)

(** The vsync interrupt deadlocks on its own lock as soon as the recycle
    fifo holds a frame: dec_vsync_process calls dec_frame_recycle with q->lock
    held, and dec_frame_recycle takes q->lock for every frame it moves (its
    comment says it is called after the unlock).  The fifo holds a frame as soon
    as a second pair of fields is set up. *)
Theorem recycle_deadlocks s q m vf rest :
  queue s = Some q -> q_locked q = false -> fmgr s = Some m ->
  dirty q <> 0 -> slots_live s q -> q_dec q = true ->
  recycle_fifo m = vf :: rest -> vf <> 0 ->
  dec_vsync_process s = Halt Deadlock.
Proof.
  intros Hq Hl Hm Hd Hs Hdec Hr Hz. set (q1 := set_q_locked true q).
  set (s1 := set_queue (Some q1) s).
  pose proof (lock_queue_run s q Hq Hl : lock_queue s = Done tt s1) as E1.
  destruct (dwp_inv _ _ _ (queue_sync_gen s1 q1 (negb (fm_state m =? 1)) eq_refl Hs Hdec))
    as ([] & s2 & E2 & Hscr).
  assert (E3 : dec_frame_recycle s2 = Halt Deadlock).
  { destruct Hscr as (rg & db & ->).
    unfold dec_frame_recycle, getm, mbind, D_bind. cbn. rewrite Hm, Hr. cbn.
    unfold getm, modm, lock_queue, getq, mbind, D_bind. cbn. rewrite Hm, Hr, kfifo_out_cons. cbn.
    rewrite eqb_neq_false by done. cbn. unfold synced.
    rewrite Hm. by destruct (repeat_pending q1 =? 0). }
  assert (Em : getm s1 = Done m s1) by (unfold getm; cbn; by rewrite Hm).
  unfold dec_vsync_process.
  rewrite (bind_done _ _ _ _ _ E1), (bind_done _ _ _ _ _ Em), (bind_done getq _ q1 s1 s1 eq_refl).
  change (dirty q1) with (dirty q). rewrite (eqb_neq_false (dirty q) 0) by done. cbn [negb].
  apply bind_halt. rewrite (bind_done _ _ _ _ _ E2). exact E3.
Qed.

(** ** The pointer 1 *)

(** The second field of an interlaced stream dereferences whatever
    interlace_hold contains when no frame is ready: if that is not a live frame
    the tasklet faults on it.  dec_frame_queue_resume leaves the value 1 there
    at the start of every stream. *)
Theorem second_field_faults s q m p :
  queue s = Some q -> q_locked q = false -> fmgr s = Some m -> fm_state m = 1 ->
  dirty q = 0 -> interlace q <> 0 -> toggle q <> 0 -> ready_list m = [] ->
  repeat_budget q <= 4 -> interlace_hold q = p -> p <> 0 -> frames s !! p = None ->
  dec_frame_queue_refresh s = Halt (BadPointer p).
Proof.
  intros Hq Hl Hm Hst Hd Hi Ht Hr Hb Hh Hp Hf.
  set (m0 := set_refresh_scheduled false m). set (s0 := set_fmgr (Some m0) s).
  set (q1 := set_q_locked true q). set (s1 := set_queue (Some q1) s0).
  assert (E0 : modm (set_refresh_scheduled false) s = Done tt s0) by (unfold modm; by rewrite Hm).
  pose proof (lock_queue_run s0 q Hq Hl : lock_queue s0 = Done tt s1) as E1.
  assert (E2 : refresh_running s1 = Halt (BadPointer p)).
  { unfold refresh_running, refresh_second_field, shift_fields, getq, getm, modq, mbind, D_bind. cbn.
    rewrite !eqb_neq_false by done. cbn. rewrite Hr. cbn. rewrite leb_true by done. cbn.
    rewrite Hh. unfold dec_frame_queue_enqueue. rewrite eqb_neq_false by done.
    unfold getq, modq, mbind, D_bind. cbn. rewrite Hd. cbn.
    erewrite defer_run by reflexivity. cbn. unfold frame_get, mod_frame, deref, mbind, D_bind. cbn.
    by rewrite Hf. }
  unfold dec_frame_queue_refresh. rewrite (bind_done _ _ _ _ _ E0), (bind_done _ _ _ _ _ E1),
    (bind_done getm _ m0 s1 s1 eq_refl), (bind_done getq _ q1 s1 s1 eq_refl).
  change (fm_state m0) with (fm_state m). change (dirty q1) with (dirty q).
  rewrite Hst, Hd. cbn [Z.eqb dwhen Pos.eqb]. by apply bind_halt.
Qed.

(** ** Shutting down *)

(** What the shutdown is to give back: the frames in the slots, the one deferred,
    the one kept for state 5, and what waits for the release work. *)
Record holdings := Holdings { h_slots : list Z; h_deferred : Z; h_kept : Z; h_fifo : list Z }.
Definition holdings_of (q : dec_frame_queue) : holdings :=
  Holdings [slot0 q; slot1 q; slot2 q; slot3 q] (last_released q) (shutdown_hold q) (release_fifo q).

(** An interlaced stream in state [st], with nothing set up behind it. *)
Definition closing (st dy : Z) (x : holdings) (s : dec_state) : Prop :=
  exists q m, queue s = Some q /\ fmgr s = Some m /\ q_locked q = false /\ fm_state m = st /\
    dirty q = dy /\ interlace q <> 0 /\ shutdown_counter q = 4 /\ recycle_fifo m = [] /\
    q_dec q = true /\ slots_live s q /\ holdings_of q = x.

(** A frame that is given to the release work; 0 is none. *)
Definition handed (vf : Z) (fifo : list Z) : list Z := if vf =? 0 then fifo else kfifo_in fifo vf.

Lemma deferred_fifo vf q : release_fifo (deferred vf q) = handed (last_released q) (release_fifo q).
Proof. unfold deferred, handed. by destruct (last_released q =? 0). Qed.

(** State 4: the frame shown is deferred and kept, the slots are emptied. *)
Definition emptying (x : holdings) : holdings :=
  let f := nth 0 (h_slots x) 0 in
  Holdings [0; 0; 0; 0] f (if negb (f =? 0) then f else nth 1 (h_slots x) 0) (handed (h_deferred x) (h_fifo x)).

(** State 5: the deferred frame and the kept one go to the release work. *)
Definition handing_over (x : holdings) : holdings :=
  Holdings [0; 0; 0; 0] 0 0 (handed (h_kept x) (handed (h_deferred x) (h_fifo x))).

(** The frame of every refresh: lock, the body for the state, unlock, wake up *)
Lemma refresh_frame st dy x s (body : D unit) (R : dec_state -> Prop) :
  closing st dy x s -> dy = 0 ->
  (st = 3 /\ body = refresh_state3 \/ st = 4 /\ body = refresh_state4 \/
   st = 5 /\ body = refresh_state5) ->
  (forall s1 q m, queue s1 = Some q -> fmgr s1 = Some m -> fm_state m = st -> interlace q <> 0 ->
     shutdown_counter q = 4 -> recycle_fifo m = [] -> q_dec q = true -> slots_live s1 q ->
     q_locked q = true -> wakeups s1 = wakeups s -> holdings_of q = x ->
     dwp body (fun _ s2 => exists q' m', queue s2 = Some q' /\ fmgr s2 = Some m' /\
       wakeups s2 = wakeups s /\
       forall w, wakeups s + (if fm_state m' =? 0 then 1 else 0) = w ->
         R (set_wakeups w (set_queue (Some (set_q_locked false q')) s2))) s1) ->
  dwp dec_frame_queue_refresh (fun _ s' => R s') s.
Proof.
  intros (q & m & Hq & Hm & Hl & Hst & Hd & Hi & Hc & Hr & Hdec & Hsl & Hx) Hdy Hb Hbody.
  unfold dec_frame_queue_refresh. dstep. apply dwp_bind.
  eapply lock_queue_wp; [exact Hq | exact Hl |]. do 2 dstep.
  change (fm_state (set_refresh_scheduled false m)) with (fm_state m).
  change (dirty (set_q_locked true q)) with (dirty q). rewrite Hst, Hd, Hdy.
  assert (Hrun : forall (P : unit -> dec_state -> Prop) x, dwp body P x ->
    dwp (if st =? 1 then dwhen (0 =? 0) refresh_running
         else if st =? 3 then dwhen (0 =? 0) refresh_state3
         else if st =? 4 then dwhen (0 =? 0) refresh_state4
         else if st =? 5 then dwhen (0 =? 0) refresh_state5 else mret tt) P x).
  { intros P y Hy. by destruct Hb as [[-> ->]|[[-> ->]|[-> ->]]]. }
  eapply dwp_call; [apply Hrun, (Hbody _ (set_q_locked true q) (set_refresh_scheduled false m)); done|].
  cbv beta. intros _ s2 (q' & m' & Hq' & Hm' & Hw & HR). unfold unlock_queue. do 2 dstep.
  apply dwp_when; intros Hz; rewrite Hz in HR.
  - dstep. cbn. rewrite Hw. by apply HR.
  - specialize (HR (wakeups s) ltac:(lia)). rewrite <- Hw in HR. by destruct s2.
Qed.

Lemma counting_down_4 q : shutdown_counter q = 4 -> counting_down q = false.
Proof. intros H. unfold counting_down. by rewrite H. Qed.

Lemma close_3 x s :
  closing 3 0 x s ->
  dwp dec_frame_queue_refresh (fun _ s' => closing 4 1 x s' /\ wakeups s' = wakeups s) s.
Proof.
  intros H. eapply (refresh_frame 3 0 x s refresh_state3 (fun s' => closing 4 1 x s' /\ wakeups s' = wakeups s));
    [exact H | done | by left |].
  intros s1 q m Hq Hm Hst Hi Hc Hr Hdec Hsl Hl Hw Hx. unfold refresh_state3. dstep.
  rewrite counting_down_4 by done. rewrite eqb_neq_false by done. cbn [negb]. dsteps.
  eexists _, _. split; [reflexivity|]. split; [reflexivity|]. split; [exact Hw|].
  cbn. intros w Hw'. split; [|cbn; lia].
  eexists _, _. split; [reflexivity|]. split; [reflexivity|]. by ands.
Qed.

Lemma emptied_live s q : (forall i, slot i q = 0) -> slots_live s q.
Proof. intros H i. left. apply H. Qed.

Lemma slot_cleared i q : slot i (clear_queue q) = 0.
Proof.
  unfold slot, clear_queue. cbn. by destruct (i =? 0), (i =? 1), (i =? 2).
Qed.

Lemma close_4 x s :
  closing 4 0 x s ->
  dwp dec_frame_queue_refresh (fun _ s' => closing 5 1 (emptying x) s' /\ wakeups s' = wakeups s) s.
Proof.
  intros H. eapply (refresh_frame 4 0 x s refresh_state4 (fun s' => closing 5 1 (emptying x) s' /\ wakeups s' = wakeups s));
    [exact H | done | right; by left |].
  intros s1 q m Hq Hm Hst Hi Hc Hr Hdec Hsl Hl Hw <-. unfold refresh_state4. dstep.
  rewrite counting_down_4 by done. do 4 dstep.
  set (q1 := set_shutdown_hold _ _).
  assert (Hno : (shutdown_hold q1 =? 0) && negb (slot0 q1 =? 0) = false).
  { unfold q1. cbn. destruct (slot0 q =? 0) eqn:E; cbn; [by rewrite andb_false_r|].
    apply Z.eqb_neq in E. by rewrite eqb_neq_false. }
  rewrite Hno. cbn [dwhen]. dstep. apply dwp_bind. eapply defer_wp; [reflexivity|]. dstep.
  assert (Hq1 : interlace q1 = interlace q /\ shutdown_counter q1 = shutdown_counter q /\
                q_dec q1 = q_dec q /\ slot0 q1 = slot0 q /\ last_released q1 = last_released q /\
                release_fifo q1 = release_fifo q /\
                shutdown_hold q1 = (if negb (slot0 q =? 0) then slot0 q else slot1 q)) by done.
  destruct Hq1 as (F1 & F2 & F3 & F4 & F5 & F6 & F7). clearbody q1.
  eexists _, _. split; [reflexivity|]. split; [reflexivity|]. split; [exact Hw|].
  cbn. intros w Hw'. split; [|cbn; lia].
  eexists _, _. split; [reflexivity|]. split; [reflexivity|].
  destruct (deferred_same (slot0 q1) q1) as (E0 & _ & _ & _ & _ & _ & E1 & _ & _ & E2 & E3 & _).
  pose proof (deferred_fifo (slot0 q1) q1) as E4.
  assert (E5 : shutdown_hold (deferred (slot0 q1) q1) = shutdown_hold q1) by (unfold deferred; by destruct (last_released q1 =? 0)).
  unfold clear_queue. cbn. rewrite E1, E2, E3, F1, F2, F3. ands; try done.
  - apply emptied_live. intros i. unfold slot. cbn. by destruct (i =? 0), (i =? 1), (i =? 2).
  - unfold holdings_of, emptying. cbn. by rewrite E0, E4, E5, F4, F5, F6, F7.
Qed.

Lemma recycle_empty s m :
  fmgr s = Some m -> recycle_fifo m = [] ->
  dec_frame_recycle s = Done tt (set_release_pending true s).
Proof.
  intros Hm Hr. unfold dec_frame_recycle, queue_release_work, getm, mbind, D_bind.
  rewrite Hm, Hr. cbn [length recycle_loop]. unfold getm, mbind, D_bind.
  by rewrite Hm, Hr, kfifo_out_nil.
Qed.

Lemma close_vsync st x s :
  3 <= st -> closing st 1 x s ->
  dwp dec_vsync_process (fun _ s' => closing st 0 x s' /\ wakeups s' = wakeups s) s.
Proof.
  intros Hge (q & m & Hq & Hm & Hl & Hst & Hd & Hi & Hc & Hr & Hdec & Hsl & Hx).
  unfold dec_vsync_process. apply dwp_bind. eapply lock_queue_wp; [exact Hq | exact Hl |].
  do 2 dstep. set (q1 := set_q_locked true q). change (dirty q1) with (dirty q). rewrite Hd, Hst.
  cbn [Z.eqb negb]. set (s1 := set_queue (Some q1) s).
  eapply dwp_call with (R := fun _ s' => wakeups s' = wakeups s /\ fmgr s' = Some m /\ queue s' = Some (synced q1) /\ slots_live s' (synced q1)).
  { eapply dwp_call; [eapply (queue_sync_gen s1 q1); [reflexivity | exact Hsl | exact Hdec]|].
    cbv beta. intros _ s2 (rg & db & ->). eapply dwp_done; [by eapply recycle_empty|].
    ands; [done | exact Hm | done |].
    unfold synced. by destruct (repeat_pending q1 =? 0). }
  cbv beta. intros _ s2 (Hw2 & Hm2 & Hq2 & Hsl2). unfold unlock_queue. dstep.
  set (q2 := set_q_locked false (synced q1)).
  assert (Hcl : forall s', fmgr s' = Some m \/ fmgr s' = Some (set_refresh_scheduled true m) ->
            queue s' = Some q2 -> frames s' = frames s2 -> items s' = items s2 ->
            exists m', fmgr s' = Some m' /\ closing st 0 x (set_fmgr (Some (set_irq_count
              ((irq_count m' + 1) mod 2 ^ 64) m')) s')).
  { intros s' Hm' Hq' Hf' Hi'.
    assert (Hm3 : exists m', fmgr s' = Some m' /\ fm_state m' = st /\ recycle_fifo m' = []).
    { destruct Hm' as [E|E]; eexists; by ands. }
    destruct Hm3 as (m' & Em & Es & Er). exists m'. split; [exact Em|].
    eexists q2, _. split; [exact Hq'|]. split; [reflexivity|].
    assert (Hsy : q_locked q2 = false /\ dirty q2 = 0 /\ interlace q2 = interlace q /\
              shutdown_counter q2 = shutdown_counter q /\ q_dec q2 = q_dec q /\ holdings_of q2 = holdings_of q).
    { unfold q2, synced. by destruct (repeat_pending q1 =? 0). }
    destruct Hsy as (-> & -> & -> & -> & -> & ->).
    ands; try done.
    intros i. destruct (Hsl2 i) as [E|(v & Hv & Hp)]; [left; exact E | right].
    exists v. cbn. rewrite Hf', Hi'. by split. }
  eapply dwp_call with (R := fun _ s' => (fmgr s' = Some m \/ fmgr s' = Some (set_refresh_scheduled true m)) /\
      queue s' = Some q2 /\ frames s' = frames s2 /\ items s' = items s2 /\ wakeups s' = wakeups s2).
  { apply dwp_if; intros _.
    - dstep. apply dwp_when; intros _; dsteps; ands; try done; [by right | by left].
    - rewrite eqb_neq_false by lia. dsteps. ands; try done; by left. }
  cbv beta. intros _ s3 (H3 & H4 & H5 & H6 & H7). destruct (Hcl s3 H3 H4 H5 H6) as (m' & Hm' & Hc').
  dstep. split; [exact Hc' | cbn; congruence].
Qed.

Lemma close_5 x s :
  closing 5 0 x s -> h_slots x = [0; 0; 0; 0] ->
  dwp dec_frame_queue_refresh
    (fun _ s' => exists q m, queue s' = Some q /\ fmgr s' = Some m /\ fm_state m = 0 /\
       holdings_of q = handing_over x /\ wakeups s' = wakeups s + 1 /\ release_pending s' = true) s.
Proof.
  intros H H0. eapply (refresh_frame 5 0 x s refresh_state5); [exact H | done | right; by right |].
  intros s1 q m Hq Hm Hst Hi Hc Hr Hdec Hsl Hl Hw Hx. unfold refresh_state5. dstep.
  subst x. cbn in H0. injection H0 as S0 S1 S2 S3.
  rewrite counting_down_4 by done. apply dwp_bind. eapply defer_wp; [exact Hq|]. dstep.
  pose proof (deferred_same (shutdown_hold q) q) as (E0 & E1 & E2 & E3 & E4 & _).
  pose proof (deferred_fifo (shutdown_hold q) q) as E5.
  set (q1 := deferred (shutdown_hold q) q) in *. clearbody q1. rewrite E1, S0. cbn [Z.eqb negb dwhen].
  do 2 dstep. rewrite E0.
  eapply dwp_call with (R := fun _ s' => fmgr s' = Some m /\ wakeups s' = wakeups s /\
    exists q3, queue s' = Some q3 /\ [slot1 q3; slot2 q3; slot3 q3] = [0; 0; 0] /\
      release_fifo q3 = handed (shutdown_hold q) (handed (last_released q) (release_fifo q))).
  { rewrite <- E5. unfold handed at 1. apply dwp_when; intros Hz; zbool.
    - rewrite eqb_neq_false by done. unfold release_in. dstep. cbn. ands; [done | done|].
      eexists. split; [reflexivity|]. cbn. split; [congruence | done].
    - rewrite Hz. cbn. ands; [done | done|]. exists q1. split; [reflexivity|]. by rewrite E2, E3, E4, S1, S2, S3. }
  cbv beta. intros _ s3 (Hm3 & Hw3 & q3 & Hq3 & Hs3 & Hf3). do 4 dstep.
  set (q4 := set_slot0 0 _). assert (H4 : holdings_of q4 = handing_over (holdings_of q)).
  { unfold holdings_of, handing_over, q4. cbn. injection Hs3 as -> -> ->. by rewrite Hf3. }
  clearbody q4.
  eapply dwp_call with (R := fun _ s' => fmgr s' = Some (set_fm_state 0 m) /\ wakeups s' = wakeups s /\
    exists q5, queue s' = Some q5 /\ holdings_of q5 = handing_over (holdings_of q)).
  { unfold dec_frame_queue_hardware_repeat_ctrl. dstep. apply dwp_if; intros _; [dstep; cbn; ands; eauto|].
    cbn [Z.eqb negb dwhen]. dsteps. cbn. ands; eauto. }
  cbv beta. intros _ s4 (Hm4 & Hw4 & q5 & Hq5 & H5).
  eapply dwp_done; [by eapply recycle_empty|].
  exists q5, (set_fm_state 0 m). ands; try done.
  intros w <-. eexists _, _. split; [reflexivity|]. split; [exact Hm4|]. cbn. ands; first [done | congruence].
Qed.

(** What the tasklet and the interrupt do between the request to stop an
    interlaced stream and its end *)
Definition shutdown_rounds : D unit :=
  dec_frame_queue_refresh;; dec_vsync_process;;
  dec_frame_queue_refresh;; dec_vsync_process;;
  dec_frame_queue_refresh.

(** State, slots, deferred and kept frame, and the release fifo. *)
Definition stage (s : dec_state) (st : Z) (x : holdings) : Prop :=
  exists q m, queue s = Some q /\ fmgr s = Some m /\ fm_state m = st /\ holdings_of q = x.

Lemma closing_stage st dy x s : closing st dy x s -> stage s st x.
Proof. intros (q & m & Hq & Hm & _ & Hst & _ & _ & _ & _ & _ & _ & Hx). by exists q, m. Qed.

Lemma stop_requested st x s : st = 1 \/ st = 2 -> closing st 0 x s ->
  exists s0, stop_request s = Done tt s0 /\ closing 3 0 x s0 /\ wakeups s0 = wakeups s.
Proof.
  intros Hst (q & m & Hq & Hm & Hl & Em & Hd & Hi & Hc & Hr & Hdec & Hsl & Hx).
  assert (Hw : dwp stop_request (fun _ s0 => closing 3 0 x s0 /\ wakeups s0 = wakeups s) s).
  { unfold stop_request. dstep. rewrite Em.
    assert (Eb : (st =? 1) || (st =? 2) = true) by (by destruct Hst as [->| ->]).
    rewrite Eb. cbn [dwhen]. dsteps. split; [|done]. eexists q, _. split; [exact Hq|]. split; [reflexivity|]. by ands. }
  destruct (dwp_inv _ _ _ Hw) as ([] & s0 & E & H). by exists s0.
Qed.

(** The caller: request, sleep, and the rest when the state is 0 at the end of the wait. *)
Lemma stop_waits others st x s s0 s5 :
  st = 1 \/ st = 2 -> closing st 0 x s -> stop_request s = Done tt s0 -> stage s0 3 x ->
  others s0 = Done tt s5 -> (exists y, stage s5 0 y) ->
  dec_frame_manager_stop others s = (dec_frame_manager_free;; mret 0) s5.
Proof.
  intros Hst (q & m & Hq & Hm & _) E0 (q0 & m0 & Hq0 & Hm0 & Es0 & _) E5 (y & q5 & m5 & Hq5 & Hm5 & Es5 & _).
  unfold dec_frame_manager_stop. rewrite (bind_done (dget fmgr) _ (Some m) s s) by (unfold dget; by rewrite Hm).
  unfold stop_request in E0. rewrite (bind_done getm _ m s s) in E0 by (unfold getm; by rewrite Hm).
  rewrite (bind_done _ _ _ _ _ E0). rewrite (bind_done getm _ m0 s0 s0) by (unfold getm; by rewrite Hm0).
  rewrite Es0. cbn [Z.eqb negb dwhen].
  unfold mbind at 1, D_bind at 1. rewrite (bind_done _ _ _ _ _ E5).
  rewrite (bind_done getm _ m5 s5 s5) by (unfold getm; by rewrite Hm5). rewrite Es5. cbn [Z.eqb dwhen]. reflexivity.
Qed.

(** C25: An interlaced stream does stop: when dec_frame_manager_stop is called on a running or paused
    interlaced stream whose registers are up to date, whose pairs have all been shown and whose
    countdown is over, three refreshes with a vsync between them complete the shutdown.  The first goes
    to state 4; the second goes to state 5, empties all four slots, hands the deferred frame to the
    release work, defers the frame shown and keeps it (or the one of slot 1); the third goes to state
    0 and hands over the deferred and the kept frame.  At the end no frame is in a slot, deferred or
    kept, the release fifo has gained exactly these three (those that exist), the release work is
    pending, the caller has been woken once, and it goes on by freeing the rest. *)
Theorem interlaced_stop_completes st x s :
  st = 1 \/ st = 2 -> closing st 0 x s ->
  exists s0 s1 s2 s3 s4 s5,
    stop_request s = Done tt s0 /\ stage s0 3 x /\
    dec_frame_queue_refresh s0 = Done tt s1 /\ stage s1 4 x /\
    dec_vsync_process s1 = Done tt s2 /\ stage s2 4 x /\
    dec_frame_queue_refresh s2 = Done tt s3 /\ stage s3 5 (emptying x) /\
    dec_vsync_process s3 = Done tt s4 /\ stage s4 5 (emptying x) /\
    dec_frame_queue_refresh s4 = Done tt s5 /\ stage s5 0 (handing_over (emptying x)) /\
    wakeups s5 = wakeups s + 1 /\ release_pending s5 = true /\
    dec_frame_manager_stop shutdown_rounds s = (dec_frame_manager_free;; mret 0) s5.
Proof.
  intros Hst H. destruct (stop_requested st x s Hst H) as (s0 & E0 & H0 & W0).
  destruct (dwp_inv _ _ _ (close_3 x s0 H0)) as ([] & s1 & E1 & H1 & W1).
  destruct (dwp_inv _ _ _ (close_vsync 4 x s1 ltac:(lia) H1)) as ([] & s2 & E2 & H2 & W2).
  destruct (dwp_inv _ _ _ (close_4 x s2 H2)) as ([] & s3 & E3 & H3 & W3).
  destruct (dwp_inv _ _ _ (close_vsync 5 _ s3 ltac:(lia) H3)) as ([] & s4 & E4 & H4 & W4).
  destruct (dwp_inv _ _ _ (close_5 _ s4 H4 eq_refl)) as ([] & s5 & E5 & q & m & Hq & Hm & Es & Hx & W5 & Hp).
  exists s0, s1, s2, s3, s4, s5.
  assert (S5 : stage s5 0 (handing_over (emptying x))) by (by exists q, m).
  ands; try done; try (by eapply closing_stage); [lia|].
  apply (stop_waits _ st x s s0 s5); [done | done | exact E0 | by eapply closing_stage | | by eexists].
  unfold shutdown_rounds. rewrite (bind_done _ _ _ _ _ E1), (bind_done _ _ _ _ _ E2), (bind_done _ _ _ _ _ E3),
    (bind_done _ _ _ _ _ E4). exact E5.
Qed.

(** ** Fences *)

(** The last release of an item frees its fence with kfree, whoever else
    holds it: a sync file that dec_frame_submit handed to user space still names
    the fence afterwards, and the fence is gone. *)
Theorem fence_freed_under_file s i it f fd :
  items s !! i = Some it -> i <> 0 -> item_refs it = 1 ->
  fence it <> 0 -> fences s !! fence it = Some f ->
  (video_info_page it <> 0 -> is_Some (pages s !! video_info_page it)) ->
  (fd, fence it) ∈ fence_fds s ->
  exists s', frame_item_release i s = Done tt s' /\
    (fd, fence it) ∈ fence_fds s' /\ fences s' !! fence it = None.
Proof.
  intros Hi Hz Hr Hfz Hf Hp Hfd.
  assert (Hw : dwp (frame_item_release i) (fun _ s' => core s' = core s /\
                 fences s' = delete (fence it) (fences s)) s).
  { unfold frame_item_release. rewrite eqb_neq_false by done. dstep.
    rewrite Hr, refcount_dec_last. dstep. cbn [dwhen].
    eapply dwp_mono.
    { apply (item_destroy_wp i (set_item_refs 0 it));
        [cbn; apply lookup_insert_eq | done | intros _; cbn; eauto | exact Hp]. }
    cbv beta. intros _ s' (H1 & _ & _ & H2 & _). cbn in H2.
    rewrite eqb_neq_false in H2 by done. by split. }
  destruct (dwp_inv _ _ _ Hw) as ([] & s' & E & Hc & Hfe). exists s'. split; [done|].
  rewrite (core_fence_fds _ _ Hc), Hfe. split; [done | apply lookup_delete_eq].
Qed.
End Interlace.

(** ** Witnesses *)

Definition split_desc (fd : Z) : dec_frame_submit_desc :=
  SubmitDesc 0 0 fd 6 1920 1080 16 (fd + 1) 1 1 0 0.

(** Two pairs of fields, one after the other *)
Definition two_pairs : dec_state :=
  final ((dec_interlace_setup (frame_desc 5) (frame_desc 7);;
          dec_interlace_setup (frame_desc 9) (frame_desc 11)) powered).

Ltac slots_by_run :=
  intros i; right; unfold slot;
  destruct (i =? 0), (i =? 1), (i =? 2);
  (eexists; split; [vm_compute; reflexivity | right; eexists; vm_compute; reflexivity]).

Lemma recycle_deadlocks_witness : dec_vsync_process two_pairs = Halt Deadlock.
Proof.
  apply (recycle_deadlocks two_pairs (queue_of two_pairs) (manager_of two_pairs)
           (hd 0 (recycle_fifo (manager_of two_pairs))) (tail (recycle_fifo (manager_of two_pairs))));
    try (vm_compute; reflexivity); try (vm_compute; discriminate). slots_by_run.
Defined.

(** One interlaced frame, the vsync that shows it, one refresh and its vsync *)
Definition one_field : dec_state :=
  final ((dec_frame_submit (split_desc 5) 1;; dec_vsync_process;; dec_frame_queue_refresh;;
          dec_vsync_process) powered).

Lemma second_field_faults_witness :
  interlace_hold (queue_of one_field) = 1 /\ dec_frame_queue_refresh one_field = Halt (BadPointer 1).
Proof.
  split; [vm_compute; reflexivity|].
  apply (second_field_faults one_field (queue_of one_field) (manager_of one_field) 1);
    try (vm_compute; reflexivity); vm_compute; discriminate.
Defined.

(** An interlaced stream with one frame, shown. *)
Definition one_pair : dec_state := final ((dec_frame_submit (split_desc 5) 1;; dec_vsync_process) powered).

Lemma interlaced_stop_completes_witness :
  slot0 (queue_of one_pair) = 36864 /\
  exists s5, dec_frame_manager_stop shutdown_rounds one_pair = (dec_frame_manager_free;; mret 0) s5 /\
    stage s5 0 (Holdings [0; 0; 0; 0] 0 0 [36864; 36864]).
Proof.
  split; [vm_compute; reflexivity|].
  destruct (interlaced_stop_completes 1 (holdings_of (queue_of one_pair)) one_pair)
    as (s0 & s1 & s2 & s3 & s4 & s5 & _ & _ & _ & _ & _ & _ & _ & _ & _ & _ & _ & H & _ & _ & E).
  - by left.
  - exists (queue_of one_pair), (manager_of one_pair).
    ands; try (vm_compute; reflexivity); try (vm_compute; discriminate). slots_by_run.
  - exists s5. split; [exact E|].
    assert (Ex : handing_over (emptying (holdings_of (queue_of one_pair))) = Holdings [0; 0; 0; 0] 0 0 [36864; 36864])
      by (vm_compute; reflexivity).
    rewrite <- Ex. exact H.
Defined.

Definition submitted : dec_state := final (dec_frame_submit (frame_desc 5) 1 powered).
Definition submitted_item : dec_frame_item := default new_item (items submitted !! 20480).

Lemma fence_freed_under_file_witness :
  exists s', frame_item_release 20480 submitted = Done tt s' /\
    (3, fence submitted_item) ∈ fence_fds s' /\ fences s' !! fence submitted_item = None.
Proof.
  apply (fence_freed_under_file submitted 20480 submitted_item
           (default (DecFence 0 false) (fences submitted !! fence submitted_item)));
    try (vm_compute; reflexivity); try (vm_compute; discriminate).
  - intros _. eexists. vm_compute. reflexivity.
  - assert (E : fence_fds submitted = [(3, fence submitted_item)]) by (vm_compute; reflexivity).
    rewrite E. left.
Defined.
