(* ===== verification/Tvtop.v ===== *)
(** The TV top driver (src/drivers/tvtop): clocks, resets and power domains of
    the three TV blocks, switched on by the first user of a block and off by the
    last.

    The state is the driver's [tvtop_device], what the clock, reset and power
    frameworks count, and the register writes.  Handles are integers: 0 is NULL,
    a negative handle an error pointer.  The frameworks themselves are the class
    [TvKernel]; every call that may fail takes its result from there.  Mutexes
    record that they are held, and taking one twice stops the run. *)
From stdpp Require Import strings.
From S2P Require Import Prelude.

(** ** Data (sunxi_tvtop.h) *)

Definition TVTOP_SUB_TVDISP : Z := 0.
Definition TVTOP_SUB_TVCAP : Z := 1.
Definition TVTOP_SUB_TVFE : Z := 2.
Definition TVTOP_SUB_COUNT : Z := 3.
Definition TVTOP_RES_1080P : Z := 0.
Definition TVTOP_RES_360P : Z := 2.
Definition TVTOP_RES_720P : Z := 3.
Definition TVTOP_RES_TYPE_COUNT : Z := 4.
Definition TVTOP_INCAP_REG_PHYS : Z := 0x06940000.

(** Name, target rate for each resolution type, parent rate *)
Record tvtop_clk_desc := ClkDesc { desc_name : string; desc_rates : list Z; desc_parent_rate : Z }.

Record tvtop_hw_desc := HwData {
  hw_name : string;
  iomap_idx : Z;
  rst_name : string;
  clk_name : string;
  pm_domain : option string;
  clk_descs : list tvtop_clk_desc;
}.

Record tvtop_clk_entry := ClkEntry {
  clk : Z;
  parent_clk : Z;
  target_rate : Z;
  parent_rate : Z;
  clk_enabled : bool;
  parent_clk_enabled : bool;
}.

Record tvtop_submodule := Submodule {
  iobase : Z;
  rst : Z;
  bus_clk : Z;
  bus_clk_enabled : bool;
  clk_list : list tvtop_clk_entry;
  pm_dev : Z;
  config_val : Z;
  sub_locked : bool;
  sub_enabled : Z;
}.

(** [enable_fn] by the index of the block whose function it is *)
Record tvtop_clk_ctrl := ClkCtrl {
  ctrl_locked : bool;
  refcount : Z;
  enable_fn : Z;
}.

Record tvtop_device := Device {
  subs : list tvtop_submodule;
  clk_ctrls : list tvtop_clk_ctrl;
  first_init : Z;
}.

Record tv_state := TvState {
  tvtopdev : option tvtop_device;
  is_power_on : Z;
  prepared : gmap Z Z;          (* prepare and enable counts, by clock *)
  running : gmap Z Z;
  clk_refs : gmap Z Z;          (* clk_get minus clk_put *)
  parent_of : gmap Z Z;
  deasserted : gmap Z Z;        (* deassert minus assert, by reset *)
  pm_usage : gmap Z Z;          (* usage count and performance state *)
  pm_perf : gmap Z Z;
  tv_io : list (Z * Z);         (* writel: address and value, in order *)
  tv_calls : nat;               (* fallible calls so far *)
}.

(** ** Setters *)

Definition clk_entry_eta := fun r =>
  ClkEntry (clk r) (parent_clk r) (target_rate r) (parent_rate r) (clk_enabled r)
    (parent_clk_enabled r).
Ltac entry_setter f := let e := eval unfold clk_entry_eta in clk_entry_eta in field_setter e f.
Definition set_parent_clk : Z -> tvtop_clk_entry -> tvtop_clk_entry := ltac:(entry_setter parent_clk).
Definition set_clk_enabled : bool -> tvtop_clk_entry -> tvtop_clk_entry := ltac:(entry_setter clk_enabled).
Definition set_parent_clk_enabled : bool -> tvtop_clk_entry -> tvtop_clk_entry := ltac:(entry_setter parent_clk_enabled).

Definition submodule_eta := fun r =>
  Submodule (iobase r) (rst r) (bus_clk r) (bus_clk_enabled r) (clk_list r) (pm_dev r)
    (config_val r) (sub_locked r) (sub_enabled r).
Ltac sub_setter f := let e := eval unfold submodule_eta in submodule_eta in field_setter e f.
Definition set_iobase : Z -> tvtop_submodule -> tvtop_submodule := ltac:(sub_setter iobase).
Definition set_rst : Z -> tvtop_submodule -> tvtop_submodule := ltac:(sub_setter rst).
Definition set_bus_clk : Z -> tvtop_submodule -> tvtop_submodule := ltac:(sub_setter bus_clk).
Definition set_bus_clk_enabled : bool -> tvtop_submodule -> tvtop_submodule := ltac:(sub_setter bus_clk_enabled).
Definition set_clk_list : list tvtop_clk_entry -> tvtop_submodule -> tvtop_submodule := ltac:(sub_setter clk_list).
Definition set_pm_dev : Z -> tvtop_submodule -> tvtop_submodule := ltac:(sub_setter pm_dev).
Definition set_sub_locked : bool -> tvtop_submodule -> tvtop_submodule := ltac:(sub_setter sub_locked).
Definition set_sub_enabled : Z -> tvtop_submodule -> tvtop_submodule := ltac:(sub_setter sub_enabled).

Definition set_ctrl_locked (b : bool) (c : tvtop_clk_ctrl) : tvtop_clk_ctrl :=
  ClkCtrl b (refcount c) (enable_fn c).
Definition set_refcount (n : Z) (c : tvtop_clk_ctrl) : tvtop_clk_ctrl :=
  ClkCtrl (ctrl_locked c) n (enable_fn c).

Definition set_subs (l : list tvtop_submodule) (d : tvtop_device) : tvtop_device :=
  Device l (clk_ctrls d) (first_init d).
Definition set_clk_ctrls (l : list tvtop_clk_ctrl) (d : tvtop_device) : tvtop_device :=
  Device (subs d) l (first_init d).
Definition set_first_init (v : Z) (d : tvtop_device) : tvtop_device :=
  Device (subs d) (clk_ctrls d) v.

Definition tv_eta := fun r =>
  TvState (tvtopdev r) (is_power_on r) (prepared r) (running r) (clk_refs r) (parent_of r)
    (deasserted r) (pm_usage r) (pm_perf r) (tv_io r) (tv_calls r).
Ltac tv_setter f := let e := eval unfold tv_eta in tv_eta in field_setter e f.
Definition set_tvtopdev : option tvtop_device -> tv_state -> tv_state := ltac:(tv_setter tvtopdev).
Definition set_is_power_on : Z -> tv_state -> tv_state := ltac:(tv_setter is_power_on).
Definition set_prepared : gmap Z Z -> tv_state -> tv_state := ltac:(tv_setter prepared).
Definition set_running : gmap Z Z -> tv_state -> tv_state := ltac:(tv_setter running).
Definition set_clk_refs : gmap Z Z -> tv_state -> tv_state := ltac:(tv_setter clk_refs).
Definition set_parent_of : gmap Z Z -> tv_state -> tv_state := ltac:(tv_setter parent_of).
Definition set_deasserted : gmap Z Z -> tv_state -> tv_state := ltac:(tv_setter deasserted).
Definition set_pm_usage : gmap Z Z -> tv_state -> tv_state := ltac:(tv_setter pm_usage).
Definition set_pm_perf : gmap Z Z -> tv_state -> tv_state := ltac:(tv_setter pm_perf).
Definition set_tv_io : list (Z * Z) -> tv_state -> tv_state := ltac:(tv_setter tv_io).
Definition set_tv_calls : nat -> tv_state -> tv_state := ltac:(tv_setter tv_calls).

(** ** The monad *)

Inductive tv_stop : Set :=
| NullPointer              (* NULL or an error pointer is dereferenced *)
| MutexHeld                (* a mutex taken by its holder *)
| Unbounded.               (* recursion deeper than its fuel *)

Inductive tv_result (A : Type) : Type :=
| TDone (a : A) (s : tv_state)
| TStop (r : tv_stop).
Arguments TDone {A} a s.
Arguments TStop {A} r.

Definition T (A : Type) : Type := tv_state -> tv_result A.

#[export] Instance T_ret : MRet T := fun A a s => TDone a s.
#[export] Instance T_bind : MBind T := fun A B k m s =>
  match m s with TDone a s' => k a s' | TStop r => TStop r end.

Definition tstop {A} (r : tv_stop) : T A := fun _ => TStop r.
Definition tget {A} (f : tv_state -> A) : T A := fun s => TDone (f s) s.
Definition tmod (f : tv_state -> tv_state) : T unit := fun s => TDone tt (f s).
Definition twhen (b : bool) (m : T unit) : T unit := if b then m else mret tt.

(** [r ← m; if (r) goto out; k] *)
Definition tcheck (m k : T Z) : T Z := r ← m; if (r =? 0)%Z then k else mret r.

(** Fields of a block or of its reference count, through [tvtopdev] *)
Definition getdev : T tvtop_device := fun s =>
  match tvtopdev s with Some d => TDone d s | None => TStop NullPointer end.
Definition moddev (f : tvtop_device -> tvtop_device) : T unit := fun s =>
  match tvtopdev s with Some d => TDone tt (set_tvtopdev (Some (f d)) s) | None => TStop NullPointer end.
Definition getsub (i : Z) : T tvtop_submodule := fun s =>
  match tvtopdev s with
  | Some d => match subs d !! Z.to_nat i with Some b => TDone b s | None => TStop NullPointer end
  | None => TStop NullPointer
  end.
Definition modsub (i : Z) (f : tvtop_submodule -> tvtop_submodule) : T unit :=
  moddev (fun d => set_subs (alter f (Z.to_nat i) (subs d)) d).
Definition getctrl (i : Z) : T tvtop_clk_ctrl := fun s =>
  match tvtopdev s with
  | Some d => match clk_ctrls d !! Z.to_nat i with Some c => TDone c s | None => TStop NullPointer end
  | None => TStop NullPointer
  end.
Definition modctrl (i : Z) (f : tvtop_clk_ctrl -> tvtop_clk_ctrl) : T unit :=
  moddev (fun d => set_clk_ctrls (alter f (Z.to_nat i) (clk_ctrls d)) d).

(** mutex_lock and mutex_unlock *)
Definition lock_sub (i : Z) : T unit :=
  b ← getsub i; if sub_locked b then tstop MutexHeld else modsub i (set_sub_locked true).
Definition unlock_sub (i : Z) : T unit := modsub i (set_sub_locked false).
Definition lock_ctrl (i : Z) : T unit :=
  c ← getctrl i; if ctrl_locked c then tstop MutexHeld else modctrl i (set_ctrl_locked true).
Definition unlock_ctrl (i : Z) : T unit := modctrl i (set_ctrl_locked false).

(** ** The frameworks *)

(** Counters by handle *)
Definition cnt (x : Z) (m : gmap Z Z) : Z := default 0 (m !! x).
Definition bump (x n : Z) (m : gmap Z Z) : gmap Z Z := <[x := cnt x m + n]> m.

(** The result of the [n]-th fallible call; rates, roundings and possible
    parents of clocks (a missing parent is 0); and what the device tree gives:
    mappings, resets, clocks and power domains by name or index, negative when
    there is an error. *)
Class TvKernel := {
  call_result : nat -> Z;
  clk_get_rate : Z -> Z;
  clk_round_rate : Z -> Z -> Z;
  clk_parents : Z -> list Z;
  first_parent : Z -> Z;
  of_iomap : Z -> Z;
  of_reset : string -> Z;
  of_clk : string -> Z;
  pm_domain_attach : string -> Z;
}.

(** The frameworks return 0 or a negative error. *)
Class TvLaws (K : TvKernel) := { call_result_neg n : call_result n <= 0 }.

Section Tvtop.
Context `{K : TvKernel}.

Definition ext : T Z := fun s => TDone (call_result (tv_calls s)) (set_tv_calls (S (tv_calls s)) s).

(** Calls that count when they succeed *)
Definition counted (f : tv_state -> tv_state) : T Z :=
  r ← ext; if r =? 0 then tmod f;; mret 0 else mret r.

Definition clk_prepare (c : Z) : T Z :=
  counted (fun s => set_prepared (bump c 1 (prepared s)) s).
Definition clk_enable (c : Z) : T Z :=
  counted (fun s => set_running (bump c 1 (running s)) s).
Definition clk_unprepare (c : Z) : T unit :=
  tmod (fun s => set_prepared (bump c (-1) (prepared s)) s).
Definition clk_disable (c : Z) : T unit :=
  tmod (fun s => set_running (bump c (-1) (running s)) s).
Definition clk_disable_unprepare (c : Z) : T unit := clk_disable c;; clk_unprepare c.

(** NULL is a clock that does nothing; an error pointer is not a clock. *)
Definition clk_ok (c : Z) : T unit := if c <? 0 then tstop NullPointer else mret tt.

Definition clk_get_parent (c : Z) : T Z :=
  tget (fun s => match parent_of s !! c with Some p => p | None => first_parent c end).
Definition clk_set_parent (c p : Z) : T Z :=
  counted (fun s => set_parent_of (<[c := p]> (parent_of s)) s).

Definition reset_control_deassert (r : Z) : T Z :=
  counted (fun s => set_deasserted (bump r 1 (deasserted s)) s).
Definition reset_control_assert (r : Z) : T unit :=
  tmod (fun s => set_deasserted (bump r (-1) (deasserted s)) s).

Definition dev_pm_genpd_set_performance_state (p v : Z) : T unit :=
  tmod (fun s => set_pm_perf (<[p := v]> (pm_perf s)) s).
Definition pm_runtime_resume_and_get (p : Z) : T Z :=
  counted (fun s => set_pm_usage (bump p 1 (pm_usage s)) s).
(** The usage count never goes below 0: pm_runtime_put_noidle and the idle call
    with RPM_GET_PUT both leave a 0 alone. *)
Definition pm_drop (p : Z) : T unit :=
  tmod (fun s => if 0 <? cnt p (pm_usage s) then set_pm_usage (bump p (-1) (pm_usage s)) s else s).

Definition writel_io (v a : Z) : T unit := tmod (fun s => set_tv_io (tv_io s ++ [(a, u32 v)]) s).

(** ** Clocks (sunxi_tvtop_clk.c) *)

(** The first parent that is not the current one and passes the test *)
Definition find_parent (c current : Z) (test : Z -> bool) : option Z :=
  match list_find (fun p => negb (p =? 0) && negb (p =? current) && test p = true) (clk_parents c) with
  | Some (_, p) => Some p
  | None => None
  end.

Definition tvtop_select_best_parent (c rate : Z) : T unit :=
  if c =? 0 then mret tt else
  current ← clk_get_parent c;
  if negb (current =? 0) && (clk_get_rate current =? rate) then mret tt else
  match find_parent c current (fun p => clk_get_rate p =? rate) with
  | Some p => clk_set_parent c p;; mret tt
  | None =>
      match find_parent c current
              (fun p => (0 <? clk_round_rate p rate) && (clk_round_rate p rate =? rate)) with
      | Some p => clk_set_parent c p;; mret tt
      | None => mret tt
      end
  end.

Definition tvtop_clk_prepare_enable (c : Z) : T Z :=
  tcheck (clk_prepare c)
    (r ← clk_enable c;
     if r =? 0 then mret 0 else clk_unprepare c;; mret r).

(** Step 1 of the loop body: the clock of the entry *)
Definition enable_clock (e : tvtop_clk_entry) : T (Z * tvtop_clk_entry) :=
  if negb (clk e =? 0) && negb (clk_enabled e) then
    r ← tvtop_clk_prepare_enable (clk e);
    mret (r, if r =? 0 then set_clk_enabled true e else e)
  else mret (0, e).

(** Step 2: its parent; the rates are not set (the workaround in the code). *)
Definition enable_parent (e : tvtop_clk_entry) : T (Z * tvtop_clk_entry) :=
  if parent_rate e =? 0 then mret (0, e) else
  tvtop_select_best_parent (clk e) (parent_rate e);;
  p ← clk_get_parent (clk e);
  let e := set_parent_clk p e in
  if (p =? 0) || parent_clk_enabled e then mret (0, e) else
  r ← tvtop_clk_prepare_enable p;
  mret (r, if r =? 0 then set_parent_clk_enabled true e else e).

Definition enable_entry (e : tvtop_clk_entry) : T (Z * tvtop_clk_entry) :=
  '(r, e) ← enable_clock e;
  if r =? 0 then enable_parent e else mret (r, e).

(** [if (entry->clk && entry->clk_enabled) clk_disable_unprepare(entry->clk)] *)
Definition release_clock (e : tvtop_clk_entry) : T tvtop_clk_entry :=
  if negb (clk e =? 0) && clk_enabled e then
    clk_disable_unprepare (clk e);; mret (set_clk_enabled false e)
  else mret e.
Definition release_parent (e : tvtop_clk_entry) : T tvtop_clk_entry :=
  if negb (parent_clk e =? 0) && parent_clk_enabled e then
    clk_disable_unprepare (parent_clk e);; mret (set_parent_clk_enabled false e)
  else mret e.
Definition release_entry (e : tvtop_clk_entry) : T tvtop_clk_entry :=
  e ← release_clock e; release_parent e.

Fixpoint release_entries (l : list tvtop_clk_entry) : T (list tvtop_clk_entry) :=
  match l with
  | [] => mret []
  | e :: l => e ← release_entry e; l ← release_entries l; mret (e :: l)
  end.

(** The loop: [before] has been enabled (last one first).  A failure rolls back
    what comes before the failing entry, going backwards. *)
Fixpoint enable_entries (before l : list tvtop_clk_entry) : T (Z * list tvtop_clk_entry) :=
  match l with
  | [] => mret (0, rev before)
  | e :: l =>
      '(r, e) ← enable_entry e;
      if r =? 0 then enable_entries (e :: before) l
      else
        before ← release_entries before;
        mret (r, rev before ++ e :: l)
  end.

Definition sunxi_tvtop_clock_enable (i : Z) : T Z :=
  b ← getsub i;
  '(r, l) ← enable_entries [] (clk_list b);
  modsub i (set_clk_list l);;
  mret r.
(** ** Power (sunxi_tvtop_power.c) *)

Definition INT_MAX : Z := 2 ^ 31 - 1.

Definition tvtop_pm_domain_enable (i : Z) : T Z :=
  b ← getsub i;
  if pm_dev b =? 0 then mret 0 else
  dev_pm_genpd_set_performance_state (pm_dev b) INT_MAX;;
  ret ← pm_runtime_resume_and_get (pm_dev b);
  twhen (ret <? 0)
    (pm_drop (pm_dev b);; dev_pm_genpd_set_performance_state (pm_dev b) 0);;
  mret ret.

Definition tvtop_pm_domain_disable (i : Z) : T unit :=
  b ← getsub i;
  if pm_dev b =? 0 then mret tt else
  dev_pm_genpd_set_performance_state (pm_dev b) 0;;
  pm_drop (pm_dev b).

(** The bus clock, if there is one and it is off *)
Definition enable_bus (i : Z) : T Z :=
  b ← getsub i;
  if negb (bus_clk b =? 0) && negb (bus_clk_enabled b) then
    clk_ok (bus_clk b);;
    r ← tvtop_clk_prepare_enable (bus_clk b);
    twhen (r =? 0) (modsub i (set_bus_clk_enabled true));;
    mret r
  else mret 0.

Definition deassert_block (i : Z) : T Z := b ← getsub i; reset_control_deassert (rst b).

(** [mutex_lock; if (!enabled) ret = on; out: mutex_unlock] *)
Definition enable_block (i : Z) (on : T Z) : T Z :=
  lock_sub i;;
  b ← getsub i;
  ret ← (if negb (sub_enabled b =? 0) then mret 0 else on);
  unlock_sub i;;
  mret ret.

Definition tvtop_disp_regs : list (list (Z * Z)) :=
  let table v := [(0x04, 0x00000001); (0x44, 0x11111111); (0x88, 0xFFFFFFFF); (0x00, 0x00011111);
                  (0x40, 0x00011111); (0x80, 0x00001111); (0x84, v)] in
  [table 0xFFF000EF; table 0xFFF000FF; table 0xFFF000FF; table 0xFFF000FF].

Fixpoint write_table (base : Z) (l : list (Z * Z)) : T unit :=
  match l with
  | [] => mret tt
  | (o, v) :: l => writel_io v (base + o);; write_table base l
  end.

Definition disp_table (i : Z) : T unit :=
  b ← getsub i;
  let res_type := config_val b in
  if (0 <=? res_type) && (res_type <? TVTOP_RES_TYPE_COUNT) then
    match tvtop_disp_regs !! Z.to_nat res_type with
    | Some l => write_table (iobase b) l
    | None => mret tt
    end
  else mret tt.

Definition tvtop_tvdisp_enable : T Z :=
  let i := TVTOP_SUB_TVDISP in
  enable_block i
    (tcheck (sunxi_tvtop_clock_enable i)
    (tcheck (enable_bus i)
    (tcheck (deassert_block i)
    (d ← getdev;
     twhen (negb (first_init d =? 0)) (moddev (set_first_init 0));;
     disp_table i;;
     modsub i (set_sub_enabled 1);;
     mret 0)))).

(** [ret = tvtop_pm_domain_enable(sub); if (ret < 0) goto out] *)
Definition power_domain (i : Z) (k : T Z) : T Z :=
  r ← tvtop_pm_domain_enable i; if r <? 0 then mret r else k.

Definition tvtop_tvfe_enable : T Z :=
  let i := TVTOP_SUB_TVFE in
  enable_block i
    (tcheck (sunxi_tvtop_clock_enable i)
    (tcheck (enable_bus i)
    (tcheck (deassert_block i)
    (power_domain i
    (b ← getsub i;
     writel_io 0x003003FF (iobase b);;
     modsub i (set_sub_enabled 1);;
     mret 0))))).

(** The INCAP sequence: write, clear, write again, then switch capture on if
    its register can be mapped. *)
Definition incap_sequence (base : Z) : T unit :=
  writel_io 0x01111117 (base + 4);; writel_io 0x00000404 (base + 8);; writel_io 0x00111111 base;;
  writel_io 0 (base + 4);; writel_io 0 (base + 8);; writel_io 0 base;;
  writel_io 0x01111117 (base + 4);; writel_io 0x00000404 (base + 8);; writel_io 0x00111111 base;;
  mapped ← ext;
  twhen (mapped =? 0) (writel_io 1 TVTOP_INCAP_REG_PHYS).

Definition tvtop_tvcap_enable : T Z :=
  let i := TVTOP_SUB_TVCAP in
  enable_block i
    (tcheck (sunxi_tvtop_clock_enable i)
    (tcheck (enable_bus i)
    (tcheck (deassert_block i)
    (power_domain i
    (b ← getsub i;
     incap_sequence (iobase b);;
     tmod (set_is_power_on 1);;
     modsub i (set_sub_enabled 1);;
     mret 0))))).

Definition disable_bus (i : Z) : T unit :=
  b ← getsub i;
  twhen (negb (bus_clk b =? 0) && bus_clk_enabled b)
    (clk_disable_unprepare (bus_clk b);; modsub i (set_bus_clk_enabled false)).

(** Disabling a block that is on, with the lock held: the clocks of the list,
    the reset, the bus clock, the power domain *)
Definition switch_off (i : Z) (b : tvtop_submodule) : T unit :=
  l ← release_entries (clk_list b);
  modsub i (set_clk_list l);;
  reset_control_assert (rst b);;
  disable_bus i;;
  tvtop_pm_domain_disable i;;
  modsub i (set_sub_enabled 0).

Definition tvtop_submodule_disable (index : Z) : T unit :=
  if TVTOP_SUB_COUNT <=? index then mret tt else
  lock_sub index;;
  b ← getsub index;
  twhen (negb (sub_enabled b =? 0)) (switch_off index b);;
  unlock_sub index.

(** ** Users (sunxi_tvtop_clk.c, sunxi_tvtop_sysfs.c) *)

(** [ctrl->enable_fn(tvtopdev->dev)] *)
Definition call_enable_fn (f : Z) : T Z :=
  if f =? TVTOP_SUB_TVDISP then tvtop_tvdisp_enable
  else if f =? TVTOP_SUB_TVCAP then tvtop_tvcap_enable
  else if f =? TVTOP_SUB_TVFE then tvtop_tvfe_enable
  else tstop NullPointer.

(** The display block brings the capture block with it: a recursion of depth
    two. *)
Fixpoint clk_get_rec (fuel : nat) (type : Z) : T Z :=
  match fuel with
  | O => tstop Unbounded
  | S n =>
      if 2 <? type then mret (-22) else
      lock_ctrl type;;
      modctrl type (fun c => set_refcount (s32 (refcount c + 1)) c);;
      c ← getctrl type;
      ret ← (if refcount c =? 1 then
               ret ← call_enable_fn (enable_fn c);
               if type =? TVTOP_SUB_TVDISP then
                 ret_tvcap ← clk_get_rec n TVTOP_SUB_TVCAP;
                 mret (if ret =? 0 then ret_tvcap else ret)
               else mret ret
             else mret 0);
      unlock_ctrl type;;
      mret ret
  end.
Definition sunxi_tvtop_clk_get (type : Z) : T Z := clk_get_rec 2 type.

Fixpoint clk_put_rec (fuel : nat) (type : Z) : T Z :=
  match fuel with
  | O => tstop Unbounded
  | S n =>
      if 2 <? type then mret (-22) else
      lock_ctrl type;;
      c ← getctrl type;
      ret ← (if refcount c =? 0 then mret (-1)
             else
               modctrl type (set_refcount (s32 (refcount c - 1)));;
               c ← getctrl type;
               twhen (refcount c =? 0)
                 (tvtop_submodule_disable type;;
                  twhen (type =? TVTOP_SUB_TVDISP) (clk_put_rec n TVTOP_SUB_TVCAP;; mret tt));;
               mret 0);
      unlock_ctrl type;;
      mret ret
  end.
Definition sunxi_tvtop_clk_put (type : Z) : T Z := clk_put_rec 2 type.

(** [val] is what simple_strtoul makes of the text. *)
Definition tvtop_sysfs_store (index val : Z) (count : Z) : T Z :=
  (if negb (val =? 0) then sunxi_tvtop_clk_get index;; mret tt
   else sunxi_tvtop_clk_put index;; mret tt);;
  mret count.

(** ** Data tables (sunxi_tvtop_data.c) *)

Definition tvdisp_clks : list tvtop_clk_desc :=
  [ClkDesc "svp_dtl_clk" [200000000; 200000000; 200000000; 0] 1200000000;
   ClkDesc "deint_clk" [1032000000; 1032000000; 516000000; 516000000] 1032000000;
   ClkDesc "panel_clk" [1032000000; 516000000; 516000000; 516000000] 1032000000].

Definition tvcap_clks : list tvtop_clk_desc :=
  [ClkDesc "tcd3_clk" [27000000; 27000000; 0; 0] 1296000000;
   ClkDesc "vincap_dma_clk" [300000000; 300000000; 0; 0] 600000000;
   ClkDesc "hdmi_audio_clk" [1152000000; 1152000000; 0; 0] 1152000000;
   ClkDesc "cap_300m" [0; 0; 0; 0] 0;
   ClkDesc "hdmi_audio_bus" [0; 0; 0; 0] 0].

Definition tvfe_clks : list tvtop_clk_desc :=
  [ClkDesc "cip_tsp_clk" [333000000; 333000000; 0; 0] 1296000000;
   ClkDesc "cip_tsx_clk" [200000000; 200000000; 0; 0] 600000000;
   ClkDesc "cip_mcx_clk" [100000000; 100000000; 0; 0] 600000000;
   ClkDesc "tsa_tsp_clk" [333000000; 333000000; 0; 0] 1296000000;
   ClkDesc "tsa432_clk" [432000000; 432000000; 0; 0] 1296000000;
   ClkDesc "audio_ihb_clk" [200000000; 200000000; 0; 0] 600000000;
   ClkDesc "i2h_clk" [200000000; 200000000; 0; 0] 1200000000;
   ClkDesc "cip_mts0_clk" [27000000; 27000000; 0; 0] 1296000000;
   ClkDesc "cip27_clk" [27000000; 27000000; 0; 0] 324000000;
   ClkDesc "tvfe_1296M_clk" [1296000000; 1296000000; 0; 0] 1296000000;
   ClkDesc "audio_cpu" [400000000; 400000000; 0; 0] 1200000000;
   ClkDesc "audio_umac" [200000000; 200000000; 0; 0] 600000000;
   ClkDesc "mpg0" [27000000; 27000000; 0; 0] 1296000000;
   ClkDesc "mpg1" [27000000; 27000000; 0; 0] 1296000000;
   ClkDesc "adc" [54000000; 54000000; 0; 0] 1296000000].

Definition tvtop_hw_data : list tvtop_hw_desc :=
  [HwData "tvdisp" 0 "reset_bus_disp" "clk_bus_disp" None tvdisp_clks;
   HwData "tvcap" 1 "reset_bus_tvcap" "clk_bus_tvcap" (Some "pd_tvcap"%string) tvcap_clks;
   HwData "tvfe" 2 "reset_bus_demod" "clk_bus_demod" (Some "pd_tvfe"%string) tvfe_clks].

(** ** Probe and removal (sunxi_tvtop_drv.c) *)

(** [panel]: width, height and dual_port as the node gives them (0 when a
    property is missing); [None] when there is no node. *)
Definition tvtop_detect_resolution (panel : option (Z * Z * Z)) : Z :=
  match panel with
  | None => TVTOP_RES_1080P
  | Some (width, height, dual_port) =>
      if (width =? 1920) && (height =? 1080) then TVTOP_RES_1080P
      else if (width =? 1366) && (height =? 768) then TVTOP_RES_720P
      else if (width =? 1280) && (height =? 720) then TVTOP_RES_720P
      else if (width =? 640) && (height =? 360) then TVTOP_RES_360P
      else if (width =? 0) || (height =? 0) then TVTOP_RES_1080P
      else if dual_port =? 1 then TVTOP_RES_1080P else TVTOP_RES_720P
  end.

Definition of_clk_get_by_name (name : string) : T Z :=
  let c := of_clk name in
  twhen (0 <? c) (tmod (fun s => set_clk_refs (bump c 1 (clk_refs s)) s));; mret c.
(** An error pointer is ignored. *)
Definition clk_put (c : Z) : T unit :=
  twhen (0 <? c) (tmod (fun s => set_clk_refs (bump c (-1) (clk_refs s)) s)).

(** One clock of the table: no entry when the clock or the memory is missing *)
Definition probe_clock (config : Z) (desc : tvtop_clk_desc) : T (list tvtop_clk_entry) :=
  c ← of_clk_get_by_name (desc_name desc);
  if c <? 0 then mret [] else
  no_memory ← ext;
  if negb (no_memory =? 0) then clk_put c;; mret []
  else
    match desc_rates desc !! Z.to_nat (if 0 <=? config then config else 0) with
    | Some rate => mret [ClkEntry c 0 rate (desc_parent_rate desc) false false]
    | None => tstop NullPointer
    end.

Fixpoint probe_clocks (config : Z) (l : list tvtop_clk_desc) : T (list tvtop_clk_entry) :=
  match l with
  | [] => mret []
  | desc :: l => e ← probe_clock config desc; rest ← probe_clocks config l; mret (e ++ rest)
  end.

(** One block: an error, or the block with its reference count.  A reset that
    cannot be had fails the probe ([PTR_ERR] of an error is never 0). *)
Definition probe_sub (panel : option (Z * Z * Z)) (i : Z) (hw : tvtop_hw_desc) :
  T (Z + tvtop_submodule * tvtop_clk_ctrl) :=
  let config := if i =? TVTOP_SUB_TVDISP then tvtop_detect_resolution panel else 0 in
  let base := of_iomap (iomap_idx hw) in
  if base =? 0 then mret (inl (-12)) else
  let r := of_reset (rst_name hw) in
  if r <? 0 then mret (inl r) else
  bus ← of_clk_get_by_name (clk_name hw);
  l ← probe_clocks config (clk_descs hw);
  mret (inr (Submodule base r bus false l 0 config false 0, ClkCtrl false 0 i)).

Fixpoint probe_subs (panel : option (Z * Z * Z)) (i : Z) (l : list tvtop_hw_desc) :
  T (Z + list (tvtop_submodule * tvtop_clk_ctrl)) :=
  match l with
  | [] => mret (inr [])
  | hw :: l =>
      b ← probe_sub panel i hw;
      match b with
      | inl err => mret (inl err)
      | inr b =>
          rest ← probe_subs panel (i + 1) l;
          match rest with
          | inl err => mret (inl err)
          | inr rest => mret (inr (b :: rest))
          end
      end
  end.

(** Attach the power domains of a device that was already probed. *)
Definition attach_domain (hw : tvtop_hw_desc) (b : tvtop_submodule) : tvtop_submodule :=
  match pm_domain hw with
  | None => b
  | Some name => set_pm_dev (let p := pm_domain_attach name in if p <=? 0 then 0 else p) b
  end.

(** [pm_node]: the device is the one with "tvtop_pm" in its name.  [np_ok]: its
    device-tree node is a valid pointer. *)
Definition sunxi_tvtop_probe (pm_node np_ok : bool) (panel : option (Z * Z * Z)) : T Z :=
  o ← tget tvtopdev;
  match o, pm_node with
  | Some d, true =>
      moddev (set_subs (zip_with attach_domain tvtop_hw_data (subs d)));; mret 0
  | _, _ =>
      no_memory ← ext;
      if negb (no_memory =? 0) then mret (-12) else
      no_class ← ext;
      if negb (no_class =? 0) then mret (-12) else
      if negb np_ok then mret (-19) else
      r ← probe_subs panel 0 tvtop_hw_data;
      match r with
      | inl err => mret err
      | inr l =>
          tmod (set_tvtopdev (Some (Device (map fst l) (map snd l) 1)));; mret 0
      end
  end.

(** Release what the probe got.  The parent of a clock is put as well, although
    clk_get_parent does not take a reference. *)
Fixpoint put_entries (l : list tvtop_clk_entry) : T unit :=
  match l with
  | [] => mret tt
  | e :: l =>
      twhen (negb (clk e =? 0)) (clk_put (clk e));;
      twhen (negb (parent_clk e =? 0)) (clk_put (parent_clk e));;
      put_entries l
  end.

Definition remove_sub (i : Z) : T unit :=
  tvtop_submodule_disable i;;
  b ← getsub i;
  twhen (negb ((sub_enabled b =? 0) && (iobase b =? 0)))
    (modsub i (set_iobase 0);;
     modsub i (set_rst 0);;
     twhen (negb (bus_clk b =? 0)) (clk_put (bus_clk b);; modsub i (set_bus_clk 0));;
     put_entries (clk_list b);;
     modsub i (set_clk_list []));;
  modsub i (set_pm_dev 0);;
  modsub i (set_sub_enabled 0).

Definition sunxi_tvtop_remove : T unit :=
  o ← tget tvtopdev;
  match o with
  | None => mret tt
  | Some _ =>
      remove_sub TVTOP_SUB_TVDISP;; remove_sub TVTOP_SUB_TVCAP;; remove_sub TVTOP_SUB_TVFE;;
      tmod (set_tvtopdev None)
  end.

(** A client is linked when the device exists. *)
Definition sunxi_tvtop_client_register : T Z :=
  o ← tget tvtopdev; mret (match o with Some _ => 0 | None => -22 end).

End Tvtop.

(** Nothing has run. *)
Definition tv_cold : tv_state := TvState None 0 ∅ ∅ ∅ ∅ ∅ ∅ ∅ [] 0.

(** ** An instance *)

(** Every call succeeds unless [fail] says otherwise; the clocks of the tables
    have handles from 100 on, their possible parents are six PLLs. *)
Definition plls : list (Z * Z) :=
  [(501, 1200000000); (502, 1032000000); (503, 1296000000); (504, 600000000); (505, 1152000000);
   (506, 324000000)].
Definition pll_rate (c : Z) : Z :=
  match list_find (fun p => p.1 = c) plls with Some (_, (_, r)) => r | None => 0 end.
Definition all_clocks : list string := map desc_name (tvdisp_clks ++ tvcap_clks ++ tvfe_clks).
Definition bus_clocks : list string := ["clk_bus_disp"; "clk_bus_tvcap"; "clk_bus_demod"]%string.
Definition name_handle (from : Z) (l : list string) (name : string) : Z :=
  match list_find (fun x => x = name) l with Some (n, _) => from + Z.of_nat n | None => -2 end.

Definition SimpleTv (fail : nat -> Z) : TvKernel := {|
  call_result := fail;
  clk_get_rate := pll_rate;
  clk_round_rate c r := pll_rate c;
  clk_parents c := map fst plls;
  first_parent c := 501;
  of_iomap i := 0x5700000 + 0x1000 * i;
  of_reset n := 0;
  of_clk n := if name_handle 200 bus_clocks n <? 0 then name_handle 100 all_clocks n
              else name_handle 200 bus_clocks n;
  pm_domain_attach n := 0;
|}.
