(* ===== verification/TvtopSpec.v ===== *)
(** Specifications of the TV top driver's steps ([Tvtop]): what the clock calls
    add to the enable counts, what enabling and disabling a block does to its
    clocks, and what the two user operations do to the device.

    Counts are compared through weights: [gained w s s'] is the weighted number
    of enables between two states.  With the weight that is 1 on one clock it is
    that clock's enable count, with the constant weight 1 the total. *)
From S2P Require Import Prelude Tvtop.

(** ** Total correctness *)

Definition twp {A} (m : T A) (Q : A -> tv_state -> Prop) (s : tv_state) : Prop :=
  match m s with TDone a s' => Q a s' | TStop _ => False end.

Section Rules.
Context {A B : Type}.
Implicit Types (s : tv_state).

Lemma twp_inv (m : T A) Q s : twp m Q s -> exists a s', m s = TDone a s' /\ Q a s'.
Proof. unfold twp. destruct (m s) as [a s'|]; [eauto | done]. Qed.

Lemma twp_ret (a : A) Q s : Q a s -> twp (mret a) Q s.
Proof. done. Qed.

Lemma twp_bind (m : T A) (k : A -> T B) Q s :
  twp m (fun a s' => twp (k a) Q s') s -> twp (m ≫= k) Q s.
Proof. unfold twp, mbind, T_bind. by destruct (m s). Qed.

Lemma twp_mono (m : T A) (Q R : A -> tv_state -> Prop) s :
  twp m Q s -> (forall a s', Q a s' -> R a s') -> twp m R s.
Proof. unfold twp. destruct (m s); [eauto | done]. Qed.

Lemma twp_call (m : T A) (k : A -> T B) (R : A -> tv_state -> Prop) Q s :
  twp m R s -> (forall a s', R a s' -> twp (k a) Q s') -> twp (m ≫= k) Q s.
Proof. intros H1 H2. apply twp_bind. eapply twp_mono; [exact H1 | exact H2]. Qed.

Lemma twp_tget (f : tv_state -> A) Q s : Q (f s) s -> twp (tget f) Q s.
Proof. done. Qed.

Lemma twp_tmod f (Q : unit -> tv_state -> Prop) s : Q tt (f s) -> twp (tmod f) Q s.
Proof. done. Qed.

Lemma twp_done (m : T A) a s' s (Q : A -> tv_state -> Prop) : m s = TDone a s' -> Q a s' -> twp m Q s.
Proof. unfold twp. by intros ->. Qed.
End Rules.

Lemma twp_if {A} (b : bool) (m n : T A) Q s :
  (b = true -> twp m Q s) -> (b = false -> twp n Q s) -> twp (if b then m else n) Q s.
Proof. destruct b; auto. Qed.

Lemma twp_when (b : bool) (m : T unit) Q s :
  (b = true -> twp m Q s) -> (b = false -> Q tt s) -> twp (twhen b m) Q s.
Proof. intros H1 H2. destruct b; [exact (H1 eq_refl) | exact (H2 eq_refl)]. Qed.

Lemma twp_check (m k : T Z) (R : Z -> tv_state -> Prop) Q s :
  twp m R s -> (forall s', R 0 s' -> twp k Q s') ->
  (forall r s', R r s' -> r <> 0 -> Q r s') -> twp (tcheck m k) Q s.
Proof.
  intros H1 H2 H3. unfold tcheck. eapply twp_call; [exact H1 |]. intros r s' Hr. cbv beta.
  apply twp_if; intros Hz; [apply Z.eqb_eq in Hz; subst; auto | apply Z.eqb_neq in Hz].
  by apply twp_ret, H3.
Qed.

Section Device.
Context (s : tv_state) (d : tvtop_device) (Hd : tvtopdev s = Some d).

Lemma twp_getdev (Q : tvtop_device -> tv_state -> Prop) : Q d s -> twp getdev Q s.
Proof. unfold twp, getdev. by rewrite Hd. Qed.

Lemma twp_moddev f (Q : unit -> tv_state -> Prop) :
  Q tt (set_tvtopdev (Some (f d)) s) -> twp (moddev f) Q s.
Proof. unfold twp, moddev. by rewrite Hd. Qed.

Lemma twp_getsub i b (Q : tvtop_submodule -> tv_state -> Prop) :
  subs d !! Z.to_nat i = Some b -> Q b s -> twp (getsub i) Q s.
Proof. unfold twp, getsub. rewrite Hd. by intros ->. Qed.

Lemma twp_getctrl i c (Q : tvtop_clk_ctrl -> tv_state -> Prop) :
  clk_ctrls d !! Z.to_nat i = Some c -> Q c s -> twp (getctrl i) Q s.
Proof. unfold twp, getctrl. rewrite Hd. by intros ->. Qed.
End Device.

(** A field of the state that the steps before left alone, or just set *)
Ltac tdev := first [ eassumption | reflexivity | cbn; eassumption | cbn; reflexivity ].

(** Run the primitive at the head of the goal. *)
Ltac tstep1 :=
  lazymatch goal with
  | |- twp (mbind _ _) _ _ => apply twp_bind; tstep1
  | |- twp (mret _) _ _ => apply twp_ret
  | |- twp (tget _) _ _ => apply twp_tget
  | |- twp (tmod _) _ _ => apply twp_tmod
  | |- twp getdev _ _ => eapply twp_getdev; [tdev |]
  | |- twp (moddev _) _ _ => eapply twp_moddev; [tdev |]
  | |- twp (modsub _ _) _ _ => eapply twp_moddev; [tdev |]
  | |- twp (modctrl _ _) _ _ => eapply twp_moddev; [tdev |]
  | |- twp (getsub _) _ _ => eapply twp_getsub; [tdev | tdev |]
  | |- twp (getctrl _) _ _ => eapply twp_getctrl; [tdev | tdev |]
  end.
Ltac tstep := tstep1; cbv beta.
Tactic Notation "tcall" uconstr(H) := eapply twp_call; [eapply H |]; cbv beta.

(** ** Weighted counts *)

Definition meas (w : Z -> Z) (m : gmap Z Z) : Z := map_fold (fun k v a => a + v * w k) 0 m.

Lemma meas_insert w m x v : m !! x = None -> meas w (<[x := v]> m) = meas w m + v * w x.
Proof. intros H. unfold meas. rewrite map_fold_insert_L; [done | intros; lia | done]. Qed.

Lemma meas_bump w x n m : meas w (bump x n m) = meas w m + n * w x.
Proof.
  unfold bump, cnt. destruct (m !! x) as [v|] eqn:E; cbn.
  - rewrite <- (insert_delete_id m x v E) at 2. rewrite <- (insert_delete_eq m).
    rewrite !meas_insert by apply lookup_delete_eq. lia.
  - rewrite meas_insert by done. lia.
Qed.

(** The weight of one clock *)
Definition only (c : Z) : Z -> Z := fun x => if x =? c then 1 else 0.

Lemma meas_only c m : meas (only c) m = cnt c m.
Proof.
  induction m as [| k v m Hk IH] using map_ind; [done |].
  rewrite meas_insert by done. rewrite IH. unfold cnt, only.
  destruct (Z.eqb_spec k c) as [->|Hne].
  - rewrite lookup_insert_eq, Hk. cbn. lia.
  - rewrite lookup_insert_ne by done. lia.
Qed.

Lemma cnt_bump c x n m : cnt c (bump x n m) = cnt c m + (if x =? c then n else 0).
Proof. rewrite <- !meas_only, meas_bump. unfold only. destruct (x =? c); lia. Qed.

(** Every clock is prepared as often as it is enabled. *)
Definition paired (s : tv_state) : Prop := forall c, cnt c (prepared s) = cnt c (running s).

Definition gained (w : Z -> Z) (s s' : tv_state) : Z := meas w (running s') - meas w (running s).

(** What a step on clocks leaves alone *)
Definition clocks_only (s s' : tv_state) : Prop :=
  tvtopdev s' = tvtopdev s /\ (paired s -> paired s').

#[export] Instance clocks_only_preorder : PreOrder clocks_only.
Proof.
  split; [by split | intros s1 s2 s3 [H1 H2] [H3 H4]]. split; [by rewrite H3, H1 | auto].
Qed.

(** The enables that a block's flags stand for *)
Definition held (b : bool) (n : Z) : Z := if b then n else 0.
Definition entry_w (w : Z -> Z) (e : tvtop_clk_entry) : Z :=
  held (clk_enabled e) (w (clk e)) + held (parent_clk_enabled e) (w (parent_clk e)).
Definition entries_w (w : Z -> Z) (l : list tvtop_clk_entry) : Z := foldr Z.add 0 (map (entry_w w) l).
Definition sub_w (w : Z -> Z) (b : tvtop_submodule) : Z :=
  entries_w w (clk_list b) + held (bus_clk_enabled b) (w (bus_clk b)).
Definition subs_w (w : Z -> Z) (l : list tvtop_submodule) : Z := foldr Z.add 0 (map (sub_w w) l).

Arguments entries_w : simpl never.
Arguments subs_w : simpl never.

Lemma entries_w_app w l k : entries_w w (l ++ k) = entries_w w l + entries_w w k.
Proof. unfold entries_w. rewrite map_app. induction (map _ l) as [| x t IH]; cbn in *; lia. Qed.

Lemma entries_w_rev w l : entries_w w (rev l) = entries_w w l.
Proof. induction l as [| e l IH]; [done |]. cbn [rev]. rewrite entries_w_app, IH. unfold entries_w. cbn. lia. Qed.

Lemma subs_w_alter w l i b f :
  l !! i = Some b -> subs_w w (alter f i l) = subs_w w l + sub_w w (f b) - sub_w w b.
Proof.
  revert i. induction l as [| x l IH]; intros [| i] H; simplify_eq/=; unfold subs_w in *; cbn; [lia |].
  rewrite (IH i H). lia.
Qed.

(** ** Clocks *)

Definition steady (w : Z -> Z) (l : list tvtop_clk_entry) : Prop :=
  (forall x y, w x = w y) \/ Forall (fun e => parent_clk_enabled e = false) l.

Definition entry_off (e : tvtop_clk_entry) : Prop :=
  clk_enabled e = false /\ parent_clk_enabled e = false.
(** Whatever of the entry there is is on. *)
Definition entry_on (e : tvtop_clk_entry) : Prop :=
  clk_enabled e = negb (clk e =? 0) /\
  parent_clk_enabled e = negb (parent_rate e =? 0) && negb (parent_clk e =? 0).

Section Calls.
Context `{K : TvKernel} {L : TvLaws K}.
Implicit Types (s : tv_state).

(** No framework call ever fails. *)
Definition no_failures : Prop := forall n, call_result n = 0.

Lemma counted_spec f s :
  twp (counted f)
    (fun r s' => (no_failures -> r = 0) /\
       s' = (if r =? 0 then f else id) (set_tv_calls (S (tv_calls s)) s)) s.
Proof.
  unfold counted, ext, twp, mbind, T_bind. set (r := call_result (tv_calls s)).
  destruct (r =? 0) eqn:E; cbn; [done |]. rewrite E. split; [intros Hn | done].
  unfold r in E. by rewrite (Hn (tv_calls s)) in E.
Qed.

Lemma prepare_enable_spec c s :
  twp (tvtop_clk_prepare_enable c)
    (fun r s' => clocks_only s s' /\ (no_failures -> r = 0) /\
       forall w, gained w s s' = held (r =? 0) (w c)) s.
Proof.
  unfold tvtop_clk_prepare_enable. eapply twp_check; [apply counted_spec | |].
  - intros s1 [_ ->]. cbn [Z.eqb]. eapply twp_call; [apply counted_spec |].
    intros r s2 [Hr ->]. destruct (r =? 0) eqn:E; cbv beta.
    + apply twp_ret. ands; try done; cbn; [| intros w; unfold gained; cbn; rewrite meas_bump; cbn; lia].
      split; [done |]. intros Hp x. cbn. rewrite !cnt_bump, Hp. lia.
    + unfold clk_unprepare. tstep. apply twp_ret.
      ands; [| done | intros w; unfold gained; cbn; rewrite E; cbn; lia].
      split; [done |]. intros Hp x. cbn. rewrite !cnt_bump, Hp. destruct (c =? x); lia.
  - intros r s1 [Hr ->] Hne. rewrite (eqb_neq_false r 0 Hne). cbn.
    ands; [by split | done | intros w; unfold gained; cbn; lia].
Qed.

Lemma disable_unprepare_spec c s :
  twp (clk_disable_unprepare c)
    (fun _ s' => clocks_only s s' /\ forall w, gained w s s' = - w c) s.
Proof.
  unfold clk_disable_unprepare, clk_disable, clk_unprepare. tstep. tstep.
  split; [split; [done |] |].
  - intros Hp x. cbn. rewrite !cnt_bump, Hp. lia.
  - intros w. unfold gained. cbn. rewrite meas_bump. lia.
Qed.

(** Choosing a parent leaves the counts alone. *)
Lemma select_best_parent_spec c rate s :
  twp (tvtop_select_best_parent c rate)
    (fun _ s' => clocks_only s s' /\ running s' = running s) s.
Proof.
  assert (Hset : forall p s1,
    twp (clk_set_parent c p;; mret tt) (fun _ s' => clocks_only s1 s' /\ running s' = running s1) s1).
  { intros p s1. unfold clk_set_parent. eapply twp_call; [apply counted_spec |].
    intros r s2 [_ ->]. apply twp_ret. by destruct (r =? 0). }
  unfold tvtop_select_best_parent. apply twp_if; intros _; [by apply twp_ret |].
  unfold clk_get_parent. tstep. apply twp_if; intros _; [by apply twp_ret |].
  repeat case_match; try (by apply twp_ret); apply Hset.
Qed.

(** The parts of an entry that no step changes *)
Definition same_clk (e e' : tvtop_clk_entry) : Prop :=
  clk e' = clk e /\ parent_rate e' = parent_rate e /\ target_rate e' = target_rate e.

#[export] Instance same_clk_preorder : PreOrder same_clk.
Proof.
  split; [by split | intros x y z (? & ? & ?) (? & ? & ?)]. unfold same_clk. ands; congruence.
Qed.

(** An entry whose enabling failed: nothing has changed, or its own clock is
    left on. *)
Definition entry_failed (e e' : tvtop_clk_entry) : Prop :=
  e' = e \/
  (clk_enabled e' = negb (clk e =? 0) /\ parent_clk_enabled e' = false /\
   parent_rate e <> 0 /\ parent_clk e' <> 0).

Definition on_or_failed (r : Z) (e e' : tvtop_clk_entry) : Prop :=
  if r =? 0 then entry_on e' else entry_failed e e'.

Lemma enable_clock_spec e s :
  twp (enable_clock e)
    (fun '(r, e') s' => clocks_only s s' /\ (no_failures -> r = 0) /\ same_clk e e' /\
       parent_clk_enabled e' = parent_clk_enabled e /\
       parent_clk e' = parent_clk e /\
       (r <> 0 -> e' = e) /\ (clk_enabled e = false -> r = 0 -> clk_enabled e' = negb (clk e =? 0)) /\
       forall w, gained w s s' = entry_w w e' - entry_w w e) s.
Proof.
  unfold enable_clock. apply twp_if; intros Hc.
  - apply andb_prop in Hc as [Hc He]. apply negb_true_iff in He.
    tcall prepare_enable_spec. intros r s' (Hf & Hn & Hg). tstep.
    ands; try done; destruct (r =? 0) eqn:E; try done; try lia.
    + intros w. rewrite Hg. unfold entry_w. cbn. rewrite He. cbn. lia.
    + intros w. rewrite Hg. cbn. lia.
  - apply twp_ret. ands; try done; [| intros w; unfold gained; lia].
    intros He _. rewrite He in *. cbn in Hc. rewrite andb_true_r in Hc. by rewrite Hc.
Qed.

Lemma enable_parent_spec e s :
  twp (enable_parent e)
    (fun '(r, e') s' => clocks_only s s' /\ (no_failures -> r = 0) /\ same_clk e e' /\
       clk_enabled e' = clk_enabled e /\
       (parent_clk_enabled e = false ->
          parent_clk_enabled e' = (r =? 0) && negb (parent_rate e =? 0) && negb (parent_clk e' =? 0) /\
          (r <> 0 -> parent_rate e <> 0 /\ parent_clk e' <> 0)) /\
       forall w, (forall x y, w x = w y) \/ parent_clk_enabled e = false ->
         gained w s s' = entry_w w e' - entry_w w e) s.
Proof.
  unfold enable_parent. apply twp_if; intros Hp0.
  { apply twp_ret. ands; try done; [intros H; split; [| done] | intros w _; unfold gained; lia].
    rewrite H. by rewrite Hp0. }
  tcall select_best_parent_spec. intros _ s1 [Hf1 Hr1]. unfold clk_get_parent. tstep.
  set (p := match parent_of s1 !! clk e with Some _ => _ | None => _ end).
  assert (Hw : forall w, (forall x y, w x = w y) \/ parent_clk_enabled e = false ->
    entry_w w (set_parent_clk p e) = entry_w w e).
  { intros w Hw. unfold entry_w. cbn. destruct Hw as [Hw | ->]; [by rewrite (Hw p (parent_clk e)) | done]. }
  apply twp_if; intros Hc.
  - apply twp_ret. ands; try done; [| intros w H; rewrite Hw by done; unfold gained; rewrite Hr1; lia].
    cbn in Hc |- *. intros H. rewrite H in *. rewrite orb_false_r in Hc. rewrite Hc. cbn.
    by rewrite andb_false_r.
  - apply orb_false_elim in Hc as [Hp He]. tcall prepare_enable_spec.
    intros r s2 (Hf2 & Hn & Hg). tstep. rewrite Hp0.
    assert (Hgw : forall w, gained w s s2 = held (r =? 0) (w p)).
    { intros w. rewrite <- (Hg w). unfold gained. by rewrite Hr1. }
    ands; try done; try (by destruct (r =? 0)); try (by etransitivity).
    + cbn in He. intros _. destruct (r =? 0) eqn:E; cbn -[Z.eqb]; rewrite ?Hp; ands; try done; try lia.
      all: intros; split; by apply Z.eqb_neq.
    + intros w H. rewrite <- (Hw w H), Hgw. destruct (r =? 0); unfold entry_w; cbn; [| lia].
      cbn in He. rewrite He. cbn. lia.
Qed.
End Calls.

(** ** Entries *)

Definition entry_steady (w : Z -> Z) (e : tvtop_clk_entry) : Prop :=
  (forall x y, w x = w y) \/ parent_clk_enabled e = false.

Lemma steady_cons w e l : steady w (e :: l) -> entry_steady w e /\ steady w l.
Proof. intros [H | H]; [by split; left | inversion H]. by split; right. Qed.

(** What enabling the list of clocks does, seen from the list alone: everything
    on, or everything before the entry that failed off again, what comes after
    it untouched. *)
Definition list_outcome (r : Z) (l l' : list tvtop_clk_entry) : Prop :=
  if r =? 0 then Forall2 (fun e e' => same_clk e e' /\ entry_on e') l l'
  else exists b b' e e' rest,
    l = b ++ e :: rest /\ l' = b' ++ e' :: rest /\
    Forall2 (fun e e' => same_clk e e' /\ entry_off e') b b' /\
    same_clk e e' /\ entry_failed e e'.

Lemma Forall2_rev {A B} (P : A -> B -> Prop) l k : Forall2 P l k -> Forall2 P (rev l) (rev k).
Proof. intros H. rewrite !rev_alt. by apply Forall2_reverse. Qed.

Section Entries.
Context `{K : TvKernel} {L : TvLaws K}.
Implicit Types (s : tv_state).

Lemma gained_trans w s1 s2 s3 : gained w s1 s3 = gained w s1 s2 + gained w s2 s3.
Proof. unfold gained. lia. Qed.

Lemma gained_refl w s : gained w s s = 0.
Proof. unfold gained. lia. Qed.

Lemma enable_entry_spec e s :
  twp (enable_entry e)
    (fun '(r, e') s' => clocks_only s s' /\ (no_failures -> r = 0) /\ same_clk e e' /\
       (entry_off e -> on_or_failed r e e') /\
       forall w, entry_steady w e -> gained w s s' = entry_w w e' - entry_w w e) s.
Proof.
  unfold enable_entry. tcall enable_clock_spec. intros [r e1] s1 (Hf1 & Hn1 & Hs1 & Hp1 & Hc1 & Hr1 & Ho1 & Hg1).
  apply twp_if; intros E.
  - eapply twp_mono; [apply enable_parent_spec |].
    intros [r2 e2] s2 (Hf2 & Hn2 & Hs2 & Hp2 & Ho2 & Hg2). ands; try done; try by etransitivity.
    + intros [Hc Hp]. apply Z.eqb_eq in E. specialize (Ho1 Hc E). rewrite Hp1 in Ho2.
      destruct (Ho2 Hp) as [Ho3 Ho4]. destruct Hs1 as (Hk1 & Hk2 & _), Hs2 as (Hk3 & Hk4 & _).
      unfold on_or_failed, entry_on, entry_failed. destruct (r2 =? 0) eqn:E2.
      * rewrite Hp2, Hk3, Hk1, Hk4, Hk2, Ho1, Ho3, Hk2. done.
      * right. apply Z.eqb_neq in E2. destruct (Ho4 E2). rewrite Hp2, Ho1, Ho3. ands; [done..| congruence | done].
    + intros w Hw. rewrite (gained_trans w s s1 s2), Hg1, Hg2; [lia |].
      by rewrite Hp1.
  - apply Z.eqb_neq in E. apply twp_ret. ands; try done.
    intros _. unfold on_or_failed. rewrite (eqb_neq_false r 0 E). left. by apply Hr1.
Qed.

Lemma release_entry_spec e s :
  twp (release_entry e)
    (fun e' s' => clocks_only s s' /\ (same_clk e e' /\ (entry_on e -> entry_off e')) /\
       forall w, gained w s s' = entry_w w e' - entry_w w e) s.
Proof.
  unfold release_entry.
  apply (twp_call _ _ (fun e1 s1 => clocks_only s s1 /\ same_clk e e1 /\
    parent_clk e1 = parent_clk e /\ parent_clk_enabled e1 = parent_clk_enabled e /\
    clk_enabled e1 = clk_enabled e && (clk e =? 0) /\
    forall w, gained w s s1 = entry_w w e1 - entry_w w e)).
  - unfold release_clock. apply twp_if; intros Hc.
    + apply andb_prop in Hc as [Hc He]. tcall disable_unprepare_spec. intros _ s1 [Hf Hg].
      apply twp_ret. ands; try done; [rewrite He; cbn; by destruct (clk e =? 0) |].
      intros w. rewrite Hg. unfold entry_w. cbn. rewrite He. cbn. lia.
    + apply twp_ret. ands; try done; [| intros w; rewrite gained_refl; lia].
      destruct (clk e =? 0), (clk_enabled e); done.
  - intros e1 s1 (Hf1 & Hs1 & Hp1 & Hpe1 & Hc1 & Hg1). unfold release_parent. apply twp_if; intros Hc.
    + apply andb_prop in Hc as [Hc He]. tcall disable_unprepare_spec. intros _ s2 [Hf Hg].
      apply twp_ret. ands; try done; try by etransitivity.
      * intros [Ho _]. unfold entry_off. cbn. rewrite Hc1, Ho. by destruct (clk e =? 0).
      * intros w. rewrite (gained_trans w s s1 s2), Hg1, Hg. unfold entry_w. cbn. rewrite He. cbn. lia.
    + apply twp_ret. ands; try done. intros [Ho1 Ho2]. unfold entry_off. rewrite Hc1, Ho1.
      split; [by destruct (clk e =? 0) |]. rewrite Hp1, Hpe1 in Hc. rewrite Hpe1.
      rewrite Ho2 in *. destruct (parent_clk e =? 0); [by rewrite andb_false_r | done].
Qed.

Lemma release_entries_spec l s :
  twp (release_entries l)
    (fun l' s' => clocks_only s s' /\
       Forall2 (fun e e' => same_clk e e' /\ (entry_on e -> entry_off e')) l l' /\
       forall w, gained w s s' = entries_w w l' - entries_w w l) s.
Proof.
  revert s. induction l as [| e l IH]; intros s; cbn [release_entries].
  { apply twp_ret. ands; [done | constructor | intros w; rewrite gained_refl; done]. }
  tcall release_entry_spec. intros e1 s1 (Hf1 & Hs1 & Hg1). tcall IH.
  intros l2 s2 (Hf2 & Hs2 & Hg2). apply twp_ret. ands; [by etransitivity | by constructor |].
  intros w. rewrite (gained_trans w s s1 s2), Hg1, Hg2. unfold entries_w. cbn. lia.
Qed.

Lemma enable_entries_spec before l s :
  twp (enable_entries before l)
    (fun '(r, l') s' => clocks_only s s' /\ (no_failures -> r = 0) /\
       (forall b0, Forall2 (fun e e' => same_clk e e' /\ entry_on e') b0 (rev before) ->
          Forall entry_off l -> list_outcome r (b0 ++ l) l') /\
       forall w, steady w l -> gained w s s' = entries_w w l' - entries_w w before - entries_w w l) s.
Proof.
  revert before s. induction l as [| e l IH]; intros before s; cbn [enable_entries].
  { apply twp_ret. ands; try done; [intros b0 H _; by rewrite app_nil_r |].
    intros w _. rewrite gained_refl, entries_w_rev. unfold entries_w at 3. cbn. lia. }
  tcall enable_entry_spec. intros [r e1] s1 (Hf1 & Hn1 & Hs1 & Ho1 & Hg1).
  apply twp_if; intros E.
  - eapply twp_mono; [apply IH |]. intros [r2 l2] s2 (Hf2 & Hn2 & Ho2 & Hg2). ands; [by etransitivity | done | |].
    + intros b0 Hb Hl. inversion Hl as [| ?? He Hl']; subst. rewrite cons_middle, app_assoc.
      apply Ho2; [| done]. cbn [rev]. apply Forall2_app; [done |].
      constructor; [| done]. split; [done |]. specialize (Ho1 He). unfold on_or_failed in Ho1. by rewrite E in Ho1.
    + intros w [Hw Hl]%steady_cons. rewrite (gained_trans w s s1 s2), Hg1, Hg2 by done.
      unfold entries_w. cbn. lia.
  - tcall release_entries_spec. intros b1 s2 (Hf2 & Hs2 & Hg2). apply twp_ret.
    ands; [by etransitivity | done | |].
    + intros b0 Hb Hl. inversion Hl as [| ?? He Hl']; subst. unfold list_outcome. rewrite E.
      exists b0, (rev b1), e, e1, l. ands; try done.
      * eapply Forall2_trans; [| exact Hb | by apply Forall2_rev, Hs2].
        intros x y z [Hx Hy] [Hz Hw]. split; [by etransitivity | auto].
      * specialize (Ho1 He). unfold on_or_failed in Ho1. by rewrite E in Ho1.
    + intros w [Hw _]%steady_cons. rewrite (gained_trans w s s1 s2), Hg1, Hg2 by done.
      rewrite entries_w_app, entries_w_rev. unfold entries_w. cbn. lia.
Qed.
End Entries.

(** ** Blocks *)

(** Everything in the block is off, or on. *)
Definition blk_off (b : tvtop_submodule) : Prop :=
  Forall entry_off (clk_list b) /\ bus_clk_enabled b = false /\ sub_enabled b = 0.
Definition blk_on (b : tvtop_submodule) : Prop :=
  Forall entry_on (clk_list b) /\ bus_clk_enabled b = negb (bus_clk b =? 0) /\ sub_enabled b = 1.

(** What no operation on a block changes: its bus clock, its lock once the
    operation is over *)
Definition same_blk (b b' : tvtop_submodule) : Prop :=
  bus_clk b' = bus_clk b /\ sub_locked b' = sub_locked b.

#[export] Instance same_blk_preorder : PreOrder same_blk.
Proof. split; [by split | intros x y z [? ?] [? ?]]. split; congruence. Qed.

(** The enable function of a block returned [r] and took [b] to [b']. *)
Definition blk_enabled (nf : Prop) (r : Z) (b b' : tvtop_submodule) : Prop :=
  same_blk b b' /\
  (sub_enabled b <> 0 -> r = 0 /\ b' = b) /\
  (r = 0 -> sub_enabled b' <> 0) /\ (r <> 0 -> sub_enabled b' = sub_enabled b) /\
  (nf -> blk_off b -> r = 0 /\ blk_on b').

Definition blk_disabled (b b' : tvtop_submodule) : Prop :=
  same_blk b b' /\ sub_enabled b' = 0 /\
  (sub_enabled b = 0 -> b' = b) /\ (blk_on b -> blk_off b').

(** A step on block [i]: in the device only that block changes (and the
    first-start flag may), and the counts change by what its flags say, for the
    weights in [P]. *)
Definition blk_step (P : (Z -> Z) -> Prop) (i : Z) (b b' : tvtop_submodule) (d : tvtop_device)
    (s s' : tv_state) : Prop :=
  (exists fi, tvtopdev s' = Some (Device (<[Z.to_nat i := b']> (subs d)) (clk_ctrls d) fi)) /\
  (paired s -> paired s') /\
  forall w, P w -> gained w s s' = sub_w w b' - sub_w w b.

Definition any : (Z -> Z) -> Prop := fun _ => True.

Lemma blk_step_trans P1 P2 P i b b1 b2 d fi s s1 s2 :
  blk_step P1 i b b1 d s s1 ->
  blk_step P2 i b1 b2 (Device (<[Z.to_nat i := b1]> (subs d)) (clk_ctrls d) fi) s1 s2 ->
  (forall w, P w -> P1 w /\ P2 w) -> blk_step P i b b2 d s s2.
Proof.
  intros (_ & Hp & Hg) ([fi2 H2] & Hp2 & Hg2) HP. unfold blk_step. ands; [| auto |].
  - exists fi2. rewrite H2. cbn. by rewrite list_insert_insert_eq.
  - intros w [H1 H3]%HP. rewrite (gained_trans w s s1 s2), Hg, Hg2 by done. lia.
Qed.

(** What a computation on block [i] does, whatever the rest of the device is *)
Definition blk_spec {A} (P : tvtop_submodule -> (Z -> Z) -> Prop) (i : Z) (m : T A)
    (R : A -> tvtop_submodule -> tvtop_submodule -> Prop) : Prop :=
  forall b d s, tvtopdev s = Some d -> subs d !! Z.to_nat i = Some b -> 0 <= bus_clk b ->
    twp m (fun r s' => exists b', blk_step (P b) i b b' d s s' /\ bus_clk b' = bus_clk b /\ R r b b') s.

Definition anyb : tvtop_submodule -> (Z -> Z) -> Prop := fun _ => any.

Section BlockRules.
Context (P : tvtop_submodule -> (Z -> Z) -> Prop) (i : Z).
Implicit Types (b : tvtop_submodule) (s : tv_state) (d : tvtop_device).

Lemma blk_mono {A} (m : T A) (R1 R2 : A -> tvtop_submodule -> tvtop_submodule -> Prop) :
  blk_spec P i m R1 -> (forall a b b', R1 a b b' -> bus_clk b' = bus_clk b -> R2 a b b') ->
  blk_spec P i m R2.
Proof.
  intros H HR b d s Hd Hb Hbus. eapply twp_mono; [by apply (H b d s) |].
  intros a s' (b' & ? & ? & ?). exists b'. auto.
Qed.

Lemma blk_seq {A B} (m : T A) (k : A -> T B) R1 (R2 : A -> B -> tvtop_submodule -> tvtop_submodule -> Prop) :
  blk_spec P i m R1 -> (forall a, blk_spec anyb i (k a) (R2 a)) ->
  blk_spec P i (m ≫= k) (fun r b b2 => exists a b1, R1 a b b1 /\ bus_clk b1 = bus_clk b /\ R2 a r b1 b2).
Proof.
  intros H1 H2 b d s Hd Hb Hbus. eapply twp_call; [by apply (H1 b d s) |].
  intros a s1 (b1 & Hs1 & Hb1 & HR1). destruct (proj1 Hs1) as [fi Hd1].
  assert (Hi : (Z.to_nat i < length (subs d))%nat) by (by eapply lookup_lt_Some).
  eapply twp_mono.
  { apply (H2 a b1 _ s1 Hd1); [| by rewrite Hb1]. cbn. by rewrite list_lookup_insert_eq. }
  intros r s2 (b2 & Hs2 & Hb2 & HR2). exists b2. ands; [by eapply blk_step_trans | congruence |].
  by exists a, b1.
Qed.

Lemma blk_check (m k : T Z) R1 R2 :
  blk_spec P i m R1 -> blk_spec anyb i k R2 ->
  blk_spec P i (tcheck m k) (fun r b b2 =>
    (exists b1, R1 0 b b1 /\ bus_clk b1 = bus_clk b /\ R2 r b1 b2) \/ (r <> 0 /\ R1 r b b2)).
Proof.
  intros H1 H2. unfold tcheck. eapply blk_mono.
  - apply (blk_seq _ _ R1 (fun a r b b' => (a = 0 /\ R2 r b b') \/ (a <> 0 /\ r = a /\ b' = b))); [done |].
    intros a b d s Hd Hb Hbus. apply twp_if; intros E.
    + eapply twp_mono; [by apply (H2 b d s) |]. intros r s' (b' & ? & ? & ?). exists b'.
      ands; try done. left. by apply Z.eqb_eq in E.
    + apply twp_ret. exists b. apply Z.eqb_neq in E. ands; try done; [| by right].
      split; [exists (first_init d) | split; [done |]].
      * rewrite Hd. f_equal. destruct d. cbn in *. by rewrite list_insert_id.
      * intros w _. rewrite gained_refl. lia.
  - cbn. intros r b b2 (a & b1 & H & Hb1 & [[-> HR]|(Ha & -> & ->)]) _; [left; eauto | by right].
Qed.
End BlockRules.

(** A step that touches neither the device nor the counts *)
Definition silent (s s' : tv_state) : Prop :=
  tvtopdev s' = tvtopdev s /\ prepared s' = prepared s /\ running s' = running s.

#[export] Instance silent_preorder : PreOrder silent.
Proof. split; [by split | intros x y z (? & ? & ?) (? & ? & ?)]. unfold silent. ands; congruence. Qed.

Lemma silent_clocks s s' : silent s s' -> clocks_only s s' /\ forall w, gained w s s' = 0.
Proof.
  intros (H1 & H2 & H3). split; [split; [done |] |].
  - intros Hp c. by rewrite H2, H3.
  - intros w. unfold gained. rewrite H3. lia.
Qed.

Lemma alter_at {A} (l : list A) i x f : l !! i = Some x -> alter f i l = <[i := f x]> l.
Proof. revert i. induction l as [| y l IH]; intros [| i] H; simplify_eq/=; [done |]. by rewrite IH. Qed.

(** A computation on clocks, then the fields of the block that record it *)
Lemma blk_step_modsub (P : (Z -> Z) -> Prop) i b d s s1 f :
  tvtopdev s = Some d -> subs d !! Z.to_nat i = Some b -> clocks_only s s1 ->
  (forall w, P w -> gained w s s1 = sub_w w (f b) - sub_w w b) ->
  blk_step P i b (f b) d s (set_tvtopdev (Some (set_subs (alter f (Z.to_nat i) (subs d)) d)) s1).
Proof.
  intros Hd Hb [Hf Hp] Hg. unfold blk_step. ands; [| done | done].
  exists (first_init d). cbn. unfold set_subs. do 2 f_equal.
  by apply alter_at.
Qed.

Section BlockSteps.
Context `{K : TvKernel} {L : TvLaws K}.
Context (i : Z).
Implicit Types (b : tvtop_submodule) (s : tv_state) (d : tvtop_device).

Definition clock_outcome (r : Z) b b' : Prop :=
  exists l', b' = set_clk_list l' b /\ (no_failures -> r = 0) /\
    (Forall entry_off (clk_list b) -> list_outcome r (clk_list b) l').

Lemma clock_enable_spec :
  blk_spec (fun b w => steady w (clk_list b)) i (sunxi_tvtop_clock_enable i) clock_outcome.
Proof.
  intros b d s Hd Hb _. unfold sunxi_tvtop_clock_enable. tstep.
  tcall enable_entries_spec. intros [r l'] s1 (Hf & Hn & Ho & Hg).
  assert (Hd1 : tvtopdev s1 = Some d) by (rewrite (proj1 Hf); done). tstep. tstep.
  exists (set_clk_list l' b). ands; [| done | exists l'; ands; try done; intros H; by apply (Ho [])].
  apply (blk_step_modsub _ i b d s s1 (set_clk_list l')); try done.
  intros w Hw. rewrite Hg by done. change (entries_w w []) with 0. unfold sub_w. cbn. lia.
Qed.

(** The bus clock is on afterwards, or the call failed and nothing changed. *)
Definition bus_outcome (r : Z) b b' : Prop :=
  (r = 0 /\ b' = set_bus_clk_enabled (bus_clk_enabled b || negb (bus_clk b =? 0)) b) \/
  (r <> 0 /\ ~ no_failures /\ b' = b).

Lemma set_bus_same b : set_bus_clk_enabled (bus_clk_enabled b) b = b.
Proof. by destruct b. Qed.

Lemma blk_step_silent (P : (Z -> Z) -> Prop) b d s s' :
  tvtopdev s = Some d -> subs d !! Z.to_nat i = Some b -> silent s s' -> blk_step P i b b d s s'.
Proof.
  intros Hd Hb Hs. pose proof (silent_clocks s s' Hs) as [[H1 H2] H3]. unfold blk_step. ands; [| done |].
  - exists (first_init d). rewrite H1, Hd. f_equal. destruct d. cbn in *. by rewrite list_insert_id.
  - intros w _. rewrite H3. lia.
Qed.

Lemma enable_bus_spec : blk_spec anyb i (enable_bus i) bus_outcome.
Proof.
  intros b d s Hd Hb Hbus. unfold enable_bus. tstep. apply twp_if; intros Hc.
  - apply andb_prop in Hc as [Hc He]. apply negb_true_iff in He.
    unfold clk_ok. rewrite ltb_false by done. tstep. tcall prepare_enable_spec.
    intros r s1 (Hf & Hn & Hg).
    assert (Hd1 : tvtopdev s1 = Some d) by (rewrite (proj1 Hf); done).
    destruct (r =? 0) eqn:E; cbn [twhen]; cbv beta; tstep; [tstep |].
    + apply Z.eqb_eq in E as ->. exists (set_bus_clk_enabled true b). ands; [| done | left; split; [done |]; by rewrite Hc, orb_true_r].
      apply (blk_step_modsub _ i b d s s1 (set_bus_clk_enabled true)); try done.
      intros w _. rewrite Hg. unfold sub_w. cbn. rewrite He. cbn. lia.
    + apply Z.eqb_neq in E. exists b. ands; [| done | right; ands; [done | intros H; by apply E, Hn | done]].
      split; [exists (first_init d) | split; [apply Hf |]].
      * rewrite Hd1. f_equal. destruct d. cbn in *. by rewrite list_insert_id.
      * intros w _. rewrite Hg. cbn. lia.
  - apply twp_ret. exists b. ands; [by apply blk_step_silent | done | left; split; [done |]].
    destruct (bus_clk b =? 0), (bus_clk_enabled b) eqn:E; try done; cbn; by rewrite <- E, set_bus_same.
Qed.


(** Power domain and reset calls, register writes *)
Lemma silent_call s f (Q : Z -> tv_state -> Prop) :
  (forall r s', (no_failures -> r = 0) -> r <= 0 -> silent s s' -> Q r s') ->
  (forall s0, silent s0 (f s0)) -> twp (counted f) Q s.
Proof.
  intros HQ Hf. unfold counted, ext, twp, mbind, T_bind.
  pose proof (call_result_neg (tv_calls s)) as Hneg.
  destruct (call_result (tv_calls s) =? 0) eqn:E; cbn.
  - apply HQ; [done..|]. etransitivity; [| apply Hf]. done.
  - apply Z.eqb_neq in E. apply HQ; [intros H; by rewrite H in E | done | done].
Qed.

(** A step of the block that leaves it as it is: it fails, or goes on. *)
Definition block_kept (r : Z) b b' : Prop := b' = b /\ (no_failures -> r = 0) /\ r <= 0.

Lemma deassert_spec : blk_spec anyb i (deassert_block i) block_kept.
Proof.
  intros b d s Hd Hb _. unfold deassert_block. tstep. unfold reset_control_deassert.
  apply silent_call; [| by intros]. intros r s' Hr Hn Hs. exists b. split; [by apply blk_step_silent | done].
Qed.

Lemma pm_enable_spec : blk_spec anyb i (tvtop_pm_domain_enable i) block_kept.
Proof.
  intros b d s Hd Hb _. unfold tvtop_pm_domain_enable. tstep.
  apply twp_if; intros _; [apply twp_ret; exists b; split; [by apply blk_step_silent |]; done |].
  unfold dev_pm_genpd_set_performance_state, pm_runtime_resume_and_get. tstep. apply twp_bind.
  apply silent_call; [| by intros]. intros r s1 Hr Hn Hs1.
  apply twp_bind, twp_when; intros _.
  - unfold pm_drop. tstep. tstep. apply twp_ret. exists b. split; [| done].
    apply blk_step_silent; [done | done |]. by destruct (0 <? _).
  - apply twp_ret. exists b. split; [by apply blk_step_silent | done].
Qed.

(** [m] writes registers of the block and switches it on. *)
Definition switched_on (r : Z) b b' : Prop := r = 0 /\ b' = set_sub_enabled 1 b.

Lemma blk_switch_on (b : tvtop_submodule) d s s1 :
  tvtopdev s = Some d -> subs d !! Z.to_nat i = Some b ->
  (exists fi, tvtopdev s1 = Some (set_first_init fi d)) -> prepared s1 = prepared s -> running s1 = running s ->
  twp (modsub i (set_sub_enabled 1);; mret 0)
    (fun r s' => exists b', blk_step any i b b' d s s' /\ bus_clk b' = bus_clk b /\ switched_on r b b') s1.
Proof.
  intros Hd Hb [fi H1] H2 H3. tstep. apply twp_ret.
  exists (set_sub_enabled 1 b). ands; [| done | done]. unfold blk_step. ands.
  - exists fi. cbn. unfold set_subs. cbn. do 2 f_equal. by apply alter_at.
  - intros Hp c. cbn. by rewrite H2, H3.
  - intros w _. unfold gained. cbn. rewrite H3. unfold sub_w. cbn. lia.
Qed.

Lemma write_table_spec base l s : twp (write_table base l) (fun _ s' => silent s s') s.
Proof.
  revert s. induction l as [| [o v] l IH]; intros s; cbn [write_table]; [by apply twp_ret |].
  unfold writel_io. tstep. eapply twp_mono; [apply IH |]. intros [] s' H.
  etransitivity; [| exact H]. done.
Qed.

Lemma incap_spec base s : twp (incap_sequence base) (fun _ s' => silent s s') s.
Proof.
  unfold incap_sequence, writel_io. do 9 tstep.
  eapply (twp_call ext _ (fun _ s' => silent s s')); [done |]. intros r s1 Hs.
  apply twp_when; intros _; [apply twp_tmod | done]. etransitivity; [exact Hs | done].
Qed.

Lemma disp_table_spec (b : tvtop_submodule) d s :
  tvtopdev s = Some d -> subs d !! Z.to_nat i = Some b -> twp (disp_table i) (fun _ s' => silent s s') s.
Proof.
  intros Hd Hb. unfold disp_table. tstep. apply twp_if; intros _; [| by apply twp_ret].
  case_match; [apply write_table_spec | by apply twp_ret].
Qed.
End BlockSteps.

(** Taking and releasing the lock of a block *)
Lemma lock_sub_spec i b d s :
  tvtopdev s = Some d -> subs d !! Z.to_nat i = Some b -> sub_locked b = false ->
  twp (lock_sub i)
    (fun _ s1 => let b1 := set_sub_locked true b in
       tvtopdev s1 = Some (Device (<[Z.to_nat i := b1]> (subs d)) (clk_ctrls d) (first_init d)) /\
       <[Z.to_nat i := b1]> (subs d) !! Z.to_nat i = Some b1 /\ blk_step any i b b1 d s s1) s.
Proof.
  intros Hd Hb Hl. unfold lock_sub. tstep. rewrite Hl. tstep.
  pose proof (blk_step_modsub any i b d s s (set_sub_locked true) Hd Hb ltac:(done)
    ltac:(intros; rewrite gained_refl; unfold sub_w; cbn; lia)) as Hs1.
  unfold set_subs in *. rewrite (alter_at _ _ b) in * by done. ands; [done | | done].
  apply list_lookup_insert_eq. by eapply lookup_lt_Some.
Qed.

Lemma unlock_sub_spec P i b b2 d s s2 :
  subs d !! Z.to_nat i = Some b -> blk_step P i b b2 d s s2 ->
  twp (unlock_sub i) (fun _ s' => blk_step P i b (set_sub_locked false b2) d s s') s2.
Proof.
  intros Hb Hs2. destruct (proj1 Hs2) as [fi Hd2]. unfold unlock_sub. tstep.
  eapply blk_step_trans; [exact Hs2 | | by intros].
  eapply (blk_step_modsub _ i b2 _ s2 s2 (set_sub_locked false) Hd2); [| done |].
  - apply list_lookup_insert_eq. by eapply lookup_lt_Some.
  - intros. rewrite gained_refl. unfold sub_w. cbn. lia.
Qed.

(** ** Enabling and disabling a block *)

Section Enable.
Context `{K : TvKernel} {L : TvLaws K}.
Context (i : Z).
Implicit Types (b : tvtop_submodule) (s : tv_state) (d : tvtop_device).

Definition by_entries b (w : Z -> Z) : Prop := steady w (clk_list b).

(** The last steps of an enable function: on, or a failure that changed nothing *)
Definition final_outcome (r : Z) b b' : Prop :=
  switched_on r b b' \/ (r <> 0 /\ ~ no_failures /\ b' = b).

Definition on_outcome (r : Z) b b' : Prop :=
  sub_locked b' = sub_locked b /\
  (r = 0 -> sub_enabled b' = 1) /\ (r <> 0 -> sub_enabled b' = sub_enabled b) /\
  (no_failures -> Forall entry_off (clk_list b) -> bus_clk_enabled b = false -> r = 0 /\ blk_on b').

Lemma outcome_all_on l l' : list_outcome 0 l l' -> Forall entry_on l'.
Proof. unfold list_outcome. cbn. induction 1 as [| x y l k [_ Hy]]; by constructor. Qed.

Lemma on_chain final :
  blk_spec anyb i final final_outcome ->
  blk_spec by_entries i
    (tcheck (sunxi_tvtop_clock_enable i) (tcheck (enable_bus i) (tcheck (deassert_block i) final)))
    on_outcome.
Proof.
  intros Hfinal. eapply blk_mono.
  { apply blk_check; [apply clock_enable_spec |]. apply blk_check; [apply enable_bus_spec |].
    apply blk_check; [apply deassert_spec | exact Hfinal]. }
  intros r b b' [(b1 & (l' & -> & _ & Hl) & _ & H) | (Hr & l' & -> & Hn & _)] _.
  - assert (Hon : no_failures -> Forall entry_off (clk_list b) -> Forall entry_on l').
    { intros _ H0. by apply (outcome_all_on (clk_list b)), Hl. }
    destruct H as [(b2 & [[_ ->]|(? & _)] & _ & H) | (Hr & [[? _]|(_ & Hf & ->)])]; [| done | done |].
    + destruct H as [(b3 & (-> & _) & _ & [[-> ->]|(Hr & Hf & ->)]) | (Hr & -> & Hn & _)].
      * unfold on_outcome, blk_on. cbn. ands; try done. intros Hnf Ho Hb. split; [done |].
        ands; [auto | by rewrite Hb | done].
      * unfold on_outcome. cbn. ands; try done.
      * unfold on_outcome. cbn. ands; try done. intros Hnf. by destruct Hr, Hn.
    + unfold on_outcome. cbn. ands; done.
  - unfold on_outcome. cbn. ands; try done. intros Hnf. by destruct Hr, Hn.
Qed.

(** [power_domain]: the domain, then the last steps *)
Lemma power_domain_spec k :
  blk_spec anyb i k switched_on -> blk_spec anyb i (power_domain i k) final_outcome.
Proof.
  intros Hk. unfold power_domain. eapply blk_mono.
  - apply (blk_seq _ _ _ _ block_kept (fun a r b b' =>
      (a < 0 /\ r = a /\ b' = b) \/ switched_on r b b')); [apply pm_enable_spec |].
    intros a b d s Hd Hb Hbus. apply twp_if; intros E.
    + apply twp_ret. exists b. ands; [by apply blk_step_silent | done |]. left. by apply Z.ltb_lt in E.
    + eapply twp_mono; [by apply (Hk b d s) |]. intros r s' (b' & ? & ? & ?). exists b'. auto.
  - cbn. intros r b b' (a & b1 & (-> & Hn & _) & _ & [(Ha & -> & ->)|H]) _; [| by left].
    right. ands; [lia | intros Hf; specialize (Hn Hf); lia | done].
Qed.

Lemma enable_block_spec on b d s :
  blk_spec by_entries i on on_outcome ->
  tvtopdev s = Some d -> subs d !! Z.to_nat i = Some b -> 0 <= bus_clk b -> sub_locked b = false ->
  twp (enable_block i on)
    (fun r s' => exists b', blk_step (by_entries b) i b b' d s s' /\ blk_enabled no_failures r b b') s.
Proof.
  intros Hon Hd Hb Hbus Hl. unfold enable_block.
  tcall lock_sub_spec; [exact Hd | exact Hb | exact Hl |]. intros _ s1 (Hd1 & Hb1 & Hs1).
  set (b1 := set_sub_locked true b) in *. apply twp_bind. eapply (twp_getsub s1); [exact Hd1 | exact Hb1 |].
  apply (twp_call _ _ (fun r s2 => exists b2,
    blk_step (by_entries b) i b b2 d s s2 /\ blk_enabled no_failures r b (set_sub_locked false b2))).
  - apply twp_if; intros E.
    + apply twp_ret. apply negb_true_iff, Z.eqb_neq in E. exists b1. split.
      { destruct Hs1 as (? & ? & Hg). unfold blk_step. ands; auto. intros. by apply Hg. }
      unfold blk_enabled, same_blk. cbn. destruct b; cbn in *. subst. ands; try done.
      intros _ (_ & _ & ?). done.
    + apply negb_false_iff, Z.eqb_eq in E. eapply twp_mono; [by apply (Hon b1 _ s1 Hd1 Hb1) |].
      intros r s2 (b2 & Hs2 & Hb2 & Hl2 & Hr0 & Hr1 & Hnf). exists b2. split.
      { eapply blk_step_trans; [exact Hs1 | exact Hs2 | by intros]. }
      unfold blk_enabled, same_blk. cbn. ands; try done; [intros; by rewrite Hr0 |].
      intros Hf (Ho1 & Ho2 & _). by apply Hnf.
  - intros r s2 (b2 & Hs2 & Hen). tcall unlock_sub_spec; [exact Hb | exact Hs2 |].
    intros _ s3 Hs3. apply twp_ret. by exists (set_sub_locked false b2).
Qed.
End Enable.

Section Functions.
Context `{K : TvKernel} {L : TvLaws K}.
Implicit Types (b : tvtop_submodule) (s : tv_state) (d : tvtop_device).

Lemma blk_quiet_on i (m : T unit) b d s :
  tvtopdev s = Some d -> subs d !! Z.to_nat i = Some b ->
  twp m (fun _ s' => silent s s') s ->
  twp (m;; modsub i (set_sub_enabled 1);; mret 0)
    (fun r s' => exists b', blk_step any i b b' d s s' /\ bus_clk b' = bus_clk b /\ switched_on r b b') s.
Proof.
  intros Hd Hb Hm. eapply twp_call; [exact Hm |]. intros _ s1 (H1 & H2 & H3).
  apply (blk_switch_on i b d); try done. exists (first_init d). rewrite H1, Hd. by destruct d.
Qed.

(** The three enable functions differ in their last steps only. *)
Lemma call_enable_fn_spec i b d s :
  0 <= i <= 2 -> tvtopdev s = Some d -> subs d !! Z.to_nat i = Some b -> 0 <= bus_clk b -> sub_locked b = false ->
  twp (call_enable_fn i)
    (fun r s' => exists b', blk_step (by_entries b) i b b' d s s' /\ blk_enabled no_failures r b b') s.
Proof.
  intros Hi. assert (i = 0 \/ i = 1 \/ i = 2) as [-> | [-> | ->]] by lia; clear Hi.
  - apply enable_block_spec, on_chain. eapply blk_mono; [| intros r b0 b' H _; left; exact H].
    clear b d s. intros b d s Hd Hb _. tstep.
    apply (twp_call _ _ (fun _ s1 => (exists fi, tvtopdev s1 = Some (set_first_init fi d)) /\
      prepared s1 = prepared s /\ running s1 = running s)).
    { apply twp_when; intros _; [tstep; eauto |]. ands; try done. exists (first_init d). by destruct d. }
    intros _ s1 ([fi H1] & H2 & H3). tcall (disp_table_spec 0); [exact H1 | exact Hb |].
    intros _ s2 (H4 & H5 & H6). apply (blk_switch_on 0 b d s s2); [done..| | congruence | congruence].
    exists fi. by rewrite H4.
  - apply enable_block_spec, on_chain, power_domain_spec.
    clear b d s. intros b d s Hd Hb _. tstep. tcall incap_spec.
    intros _ s1 (H1 & H2 & H3). apply twp_bind, twp_tmod.
    apply (blk_switch_on 1 b d s); try done. exists (first_init d). cbn. rewrite H1, Hd. by destruct d.
  - apply enable_block_spec, on_chain, power_domain_spec.
    clear b d s. intros b d s Hd Hb _. tstep. by apply (blk_quiet_on 2 _ b d s).
Qed.

Lemma blk_modsub i f :
  (forall b, bus_clk (f b) = bus_clk b) -> (forall w b, sub_w w (f b) = sub_w w b) ->
  blk_spec anyb i (modsub i f) (fun _ b b' => b' = f b).
Proof.
  intros Hb Hw b d s Hd Hi _. tstep. exists (f b). ands; [| done | done].
  apply (blk_step_modsub _ i b d s s f); try done. intros w _. rewrite gained_refl, Hw. lia.
Qed.

Lemma disable_bus_spec i :
  blk_spec anyb i (disable_bus i)
    (fun _ b b' => b' = set_bus_clk_enabled (bus_clk_enabled b && (bus_clk b =? 0)) b).
Proof.
  intros b d s Hd Hb _. unfold disable_bus. tstep. apply twp_when; intros Hc.
  - apply andb_prop in Hc as [Hc He]. tcall disable_unprepare_spec. intros _ s1 [Hf Hg].
    assert (Hd1 : tvtopdev s1 = Some d) by (rewrite (proj1 Hf); done). tstep.
    exists (set_bus_clk_enabled false b). ands; [| done |].
    + apply (blk_step_modsub any i b d s s1 (set_bus_clk_enabled false)); try done.
      intros w _. rewrite Hg. unfold sub_w. cbn. rewrite He. cbn. lia.
    + apply negb_true_iff in Hc. by rewrite Hc, andb_false_r.
  - exists b. ands; [by apply blk_step_silent | done |].
    destruct (bus_clk b =? 0), (bus_clk_enabled b) eqn:E; try done; cbn; by rewrite <- E, set_bus_same.
Qed.

Lemma pm_disable_spec i : blk_spec anyb i (tvtop_pm_domain_disable i) (fun _ b b' => b' = b).
Proof.
  intros b d s Hd Hb _. unfold tvtop_pm_domain_disable, dev_pm_genpd_set_performance_state, pm_drop. tstep.
  apply twp_if; intros _; [apply twp_ret | tstep; tstep];
    exists b; (split; [| done]); apply blk_step_silent; try done.
  by destruct (0 <? _).
Qed.

(** The steps after the clocks are off *)
Lemma power_off_spec i :
  blk_spec anyb i (disable_bus i;; tvtop_pm_domain_disable i;; modsub i (set_sub_enabled 0))
    (fun _ b b' => b' = set_sub_enabled 0
       (set_bus_clk_enabled (bus_clk_enabled b && (bus_clk b =? 0)) b)).
Proof.
  pose proof (blk_seq _ _ _ _ _ (fun _ _ b b' => b' = set_sub_enabled 0 b) (pm_disable_spec i)
    (fun _ => blk_modsub i (set_sub_enabled 0) (fun _ => eq_refl) (fun _ _ => eq_refl))) as H.
  eapply blk_mono; [exact (blk_seq _ _ _ _ _ _ (disable_bus_spec i) (fun _ => H)) |].
  cbn. intros _ b b' ([] & b1 & -> & _ & [] & b2 & -> & _ & ->) _. done.
Qed.

Lemma release_off l l' :
  Forall2 (fun e e' => same_clk e e' /\ (entry_on e -> entry_off e')) l l' ->
  Forall entry_on l -> Forall entry_off l'.
Proof. induction 1 as [| e e' l k [_ He]]; inversion 1; subst; constructor; auto. Qed.

Lemma switch_off_spec i b d s :
  tvtopdev s = Some d -> subs d !! Z.to_nat i = Some b -> 0 <= bus_clk b ->
  twp (switch_off i b)
    (fun _ s' => exists b', blk_step any i b b' d s s' /\ same_blk b b' /\ sub_enabled b' = 0 /\
       (blk_on b -> blk_off b')) s.
Proof.
  intros Hd Hb Hbus. unfold switch_off. tcall release_entries_spec. intros l' s1 (Hf & Hl & Hg).
  assert (Hd1 : tvtopdev s1 = Some d) by (rewrite (proj1 Hf); done). tstep.
  pose proof (blk_step_modsub any i b d s s1 (set_clk_list l') Hd Hb Hf
    ltac:(intros w _; rewrite Hg; unfold sub_w; cbn; lia)) as Hs2.
  set (b2 := set_clk_list l' b) in *. unfold set_subs in *. rewrite (alter_at _ _ b) in * by done.
  set (s2 := set_tvtopdev _ s1) in *. unfold reset_control_assert. tstep.
  set (s3 := set_deasserted _ s2).
  assert (Hs3 : blk_step any i b b2 d s s3) by exact Hs2.
  eapply twp_mono.
  - apply (power_off_spec i b2 _ s3 eq_refl); [| done].
    apply list_lookup_insert_eq. by eapply lookup_lt_Some.
  - intros _ s4 (b4 & Hs4 & _ & ->). eexists. split; [by eapply blk_step_trans |].
    ands; [done | done |]. intros (Ho1 & Ho2 & _). unfold blk_off. cbn. rewrite Ho2. ands; [| | done].
    + by eapply release_off.
    + by destruct (bus_clk b =? 0).
Qed.

Lemma submodule_disable_spec i b d s :
  0 <= i <= 2 -> tvtopdev s = Some d -> subs d !! Z.to_nat i = Some b -> 0 <= bus_clk b -> sub_locked b = false ->
  twp (tvtop_submodule_disable i)
    (fun _ s' => exists b', blk_step any i b b' d s s' /\ blk_disabled b b') s.
Proof.
  intros Hi Hd Hb Hbus Hl. unfold tvtop_submodule_disable, TVTOP_SUB_COUNT. rewrite leb_false by lia.
  tcall lock_sub_spec; [exact Hd | exact Hb | exact Hl |]. intros _ s1 (Hd1 & Hb1 & Hs1).
  set (b1 := set_sub_locked true b) in *. apply twp_bind. eapply (twp_getsub s1); [exact Hd1 | exact Hb1 |].
  apply (twp_call _ _ (fun r s2 => exists b2,
    blk_step any i b b2 d s s2 /\ blk_disabled b (set_sub_locked false b2))).
  - apply twp_when; intros E.
    + apply negb_true_iff, Z.eqb_neq in E.
      eapply twp_mono; [by apply (switch_off_spec i b1 _ s1 Hd1 Hb1) |].
      intros _ s2 (b2 & Hs2 & [Hc1 Hc2] & He & Ho). exists b2. split; [by eapply blk_step_trans |].
      unfold blk_disabled, same_blk. cbn. ands; try done.
    + apply negb_false_iff, Z.eqb_eq in E. exists b1. split; [done |].
      unfold blk_disabled, same_blk. cbn. destruct b; cbn in *. subst. ands; try done.
      intros (_ & _ & ?). done.
  - intros _ s2 (b2 & Hs2 & Hen). eapply twp_mono; [by apply (unlock_sub_spec any i b b2 d s) |].
    intros ? s3 Hs3. by exists (set_sub_locked false b2).
Qed.
End Functions.

(** ** Users *)

(** A step on the device: the counts change by what the flags of its blocks say. *)
Definition dev_step (P : (Z -> Z) -> Prop) (d : tvtop_device) (s : tv_state) (d' : tvtop_device)
    (s' : tv_state) : Prop :=
  tvtopdev s' = Some d' /\ (paired s -> paired s') /\
  forall w, P w -> gained w s s' = subs_w w (subs d') - subs_w w (subs d).

Lemma dev_step_refl P d s : tvtopdev s = Some d -> dev_step P d s d s.
Proof. intros H. unfold dev_step. ands; [done..|]. intros w _. rewrite gained_refl. lia. Qed.

Lemma dev_step_trans P1 P2 P d1 s1 d2 s2 d3 s3 :
  dev_step P1 d1 s1 d2 s2 -> dev_step P2 d2 s2 d3 s3 -> (forall w, P w -> P1 w /\ P2 w) ->
  dev_step P d1 s1 d3 s3.
Proof.
  intros (_ & Hp & Hg) (H & Hp2 & Hg2) HP. unfold dev_step. ands; [done | auto |].
  intros w [H1 H2]%HP. rewrite (gained_trans w s1 s2 s3), Hg, Hg2 by done. lia.
Qed.

Lemma subs_w_insert w l i b b' :
  l !! i = Some b -> subs_w w (<[i := b']> l) = subs_w w l + sub_w w b' - sub_w w b.
Proof. intros H. rewrite <- (alter_at l i b (fun _ => b')) by done. by rewrite (subs_w_alter _ _ _ b). Qed.

Lemma blk_dev_step P i b b' d s s' :
  subs d !! Z.to_nat i = Some b -> blk_step P i b b' d s s' ->
  exists fi, dev_step P d s (Device (<[Z.to_nat i := b']> (subs d)) (clk_ctrls d) fi) s'.
Proof.
  intros Hb ([fi H] & Hp & Hg). exists fi. unfold dev_step. ands; [done | done |].
  intros w Hw. cbn. rewrite (subs_w_insert w _ _ b), Hg by done. lia.
Qed.

Definition with_ctrl (t : Z) (c : tvtop_clk_ctrl) (d : tvtop_device) : tvtop_device :=
  Device (subs d) (<[Z.to_nat t := c]> (clk_ctrls d)) (first_init d).

Lemma with_ctrl_twice t c c' d : with_ctrl t c' (with_ctrl t c d) = with_ctrl t c' d.
Proof. unfold with_ctrl. cbn. by rewrite list_insert_insert_eq. Qed.

Lemma with_ctrl_id t c d : clk_ctrls d !! Z.to_nat t = Some c -> with_ctrl t c d = d.
Proof. intros H. unfold with_ctrl. rewrite list_insert_id by done. by destruct d. Qed.

Lemma with_ctrl_lookup t c c' d :
  clk_ctrls d !! Z.to_nat t = Some c -> clk_ctrls (with_ctrl t c' d) !! Z.to_nat t = Some c'.
Proof. intros H. apply list_lookup_insert_eq. by eapply lookup_lt_Some. Qed.

Lemma modctrl_spec t f c d s :
  tvtopdev s = Some d -> clk_ctrls d !! Z.to_nat t = Some c ->
  twp (modctrl t f) (fun _ s' => dev_step any d s (with_ctrl t (f c) d) s') s.
Proof.
  intros Hd Hc. tstep. unfold dev_step. cbn. ands; [| done | intros w _; unfold gained; cbn; lia].
  unfold set_clk_ctrls, with_ctrl. by rewrite (alter_at _ _ c).
Qed.

Lemma lock_ctrl_spec t n f d s :
  tvtopdev s = Some d -> clk_ctrls d !! Z.to_nat t = Some (ClkCtrl false n f) ->
  twp (lock_ctrl t) (fun _ s' => dev_step any d s (with_ctrl t (ClkCtrl true n f) d) s') s.
Proof.
  intros Hd Hc. unfold lock_ctrl. tstep. cbn. by apply (modctrl_spec _ (set_ctrl_locked true) (ClkCtrl false n f)).
Qed.

(** What a get or a put finds: the block [b] and the count [n] of the type *)
Record found (t : Z) (d : tvtop_device) (b : tvtop_submodule) (n : Z) : Prop := {
  found_type : 0 <= t <= 2;
  found_sub : subs d !! Z.to_nat t = Some b;
  found_ctrl : clk_ctrls d !! Z.to_nat t = Some (ClkCtrl false n t);
  found_bus : 0 <= bus_clk b;
  found_unlocked : sub_locked b = false;
}.

(** The device after a user operation on type [t] *)
Definition now (t : Z) (b : tvtop_submodule) (n fi : Z) (d : tvtop_device) : tvtop_device :=
  Device (<[Z.to_nat t := b]> (subs d)) (<[Z.to_nat t := ClkCtrl false n t]> (clk_ctrls d)) fi.

(** The first user switches the block on, the last one off. *)
Definition first_use (nf : Prop) (n r : Z) (b b' : tvtop_submodule) : Prop :=
  if n =? 1 then blk_enabled nf r b b' else r = 0 /\ b' = b.
(** Weights under which the first use counts right *)
Definition first_w (n : Z) (b : tvtop_submodule) (w : Z -> Z) : Prop := n = 1 -> by_entries b w.
Definition last_use (n : Z) (b b' : tvtop_submodule) : Prop :=
  if n =? 0 then blk_disabled b b' else b' = b.

Definition now_locked (t : Z) (b : tvtop_submodule) (n fi : Z) (d : tvtop_device) : tvtop_device :=
  Device (<[Z.to_nat t := b]> (subs d)) (<[Z.to_nat t := ClkCtrl true n t]> (clk_ctrls d)) fi.

Section Users.
Context `{K : TvKernel} {L : TvLaws K}.
Implicit Types (b : tvtop_submodule) (s : tv_state) (d : tvtop_device).

Lemma dev_step_mono (P1 P2 : (Z -> Z) -> Prop) d s d' s' :
  dev_step P1 d s d' s' -> (forall w, P2 w -> P1 w) -> dev_step P2 d s d' s'.
Proof. intros (? & ? & H) HP. unfold dev_step. auto. Qed.

Lemma dev_step_any P d s d' s' : dev_step any d s d' s' -> dev_step P d s d' s'.
Proof. intros H. by apply (dev_step_mono any). Qed.

Lemma unlock_ctrl_spec P t m d s d2 s2 :
  dev_step P d s d2 s2 -> clk_ctrls d2 !! Z.to_nat t = Some (ClkCtrl true m t) ->
  twp (unlock_ctrl t) (fun _ s' => dev_step P d s (with_ctrl t (ClkCtrl false m t) d2) s') s2.
Proof.
  intros H Hc. eapply twp_mono; [apply (modctrl_spec t _ _ d2 s2 (proj1 H) Hc) |].
  intros ? s' H'. eapply dev_step_trans; [exact H | exact H' | by intros].
Qed.

Lemma now_unlock t b m fi d :
  with_ctrl t (ClkCtrl false m t) (now_locked t b m fi d) = now t b m fi d.
Proof. unfold with_ctrl, now_locked, now. cbn. by rewrite list_insert_insert_eq. Qed.

(** Lock the reference count of type [t] and set it to [m]. *)
Lemma locked_spec t b n d s :
  tvtopdev s = Some d -> found t d b n ->
  twp (lock_ctrl t) (fun _ s' => dev_step any d s (now_locked t b n (first_init d) d) s') s.
Proof.
  intros Hd [Ht Hb Hc Hbus Hl]. eapply twp_mono; [exact (lock_ctrl_spec t n t d s Hd Hc) |].
  intros ? s1 H1. unfold now_locked. by rewrite (list_insert_id (subs d)).
Qed.

Lemma count_spec t b n d s s1 (f : tvtop_clk_ctrl -> tvtop_clk_ctrl) m :
  found t d b n -> dev_step any d s (now_locked t b n (first_init d) d) s1 ->
  f (ClkCtrl true n t) = ClkCtrl true m t ->
  twp (modctrl t f) (fun _ s' => dev_step any d s (now_locked t b m (first_init d) d) s') s1.
Proof.
  intros [Ht Hb Hc Hbus Hl] H1 Hf.
  assert (Hc1 : clk_ctrls (now_locked t b n (first_init d) d) !! Z.to_nat t = Some (ClkCtrl true n t)).
  { by apply (with_ctrl_lookup t (ClkCtrl false n t)). }
  eapply twp_mono; [apply (modctrl_spec t f _ _ s1 (proj1 H1) Hc1) |]. intros ? s2 H2.
  eapply dev_step_trans; [exact H1 | | by intros].
  unfold with_ctrl, now_locked in *. cbn in H2. by rewrite list_insert_insert_eq, Hf in H2.
Qed.

Lemma now_locked_ctrl t b n d b' m fi :
  found t d b n -> clk_ctrls (now_locked t b' m fi d) !! Z.to_nat t = Some (ClkCtrl true m t).
Proof. intros [Ht Hb Hc _ _]. by apply (with_ctrl_lookup t (ClkCtrl false n t)). Qed.

Lemma now_locked_sub t b n d b' m fi :
  found t d b n -> subs (now_locked t b' m fi d) !! Z.to_nat t = Some b'.
Proof. intros [Ht Hb _ _ _]. apply list_lookup_insert_eq. by eapply lookup_lt_Some. Qed.

Lemma unlocked_spec P t b n b' m fi d s s2 :
  found t d b n -> dev_step P d s (now_locked t b' m fi d) s2 ->
  twp (unlock_ctrl t) (fun _ s' => dev_step P d s (now t b' m fi d) s') s2.
Proof.
  intros Hf H. eapply twp_mono; [exact (unlock_ctrl_spec P t m d s _ s2 H (now_locked_ctrl t b n d b' m fi Hf)) |].
  intros ? s3 H3. by rewrite now_unlock in H3.
Qed.

(** The enable function under the lock *)
Lemma first_use_spec t b n m d s s1 :
  found t d b n -> dev_step any d s (now_locked t b m (first_init d) d) s1 ->
  twp (call_enable_fn t)
    (fun r s2 => exists b' fi, dev_step (by_entries b) d s (now_locked t b' m fi d) s2 /\
       blk_enabled no_failures r b b') s1.
Proof.
  intros Hfd H1. pose proof (now_locked_sub t b n d b m (first_init d) Hfd) as Hb1.
  destruct Hfd as [Ht Hb Hc Hbus Hl]. eapply twp_mono; [by apply (call_enable_fn_spec t b _ s1 Ht (proj1 H1)) |].
  intros r s2 (b' & Hs & Hen). destruct (blk_dev_step _ _ _ _ _ _ _ Hb1 Hs) as [fi Hs2].
  exists b', fi. split; [| done]. eapply dev_step_trans; [exact H1 | | by intros].
  unfold now_locked in *. cbn in Hs2. rewrite list_insert_insert_eq in Hs2. exact Hs2.
Qed.

(** Getting and putting a type that brings no other: the capture block and the
    front end *)
Lemma get_one fuel t b n d s :
  t <> TVTOP_SUB_TVDISP -> tvtopdev s = Some d -> found t d b n ->
  twp (clk_get_rec (S fuel) t)
    (fun r s' => exists b' fi, dev_step (first_w (s32 (n + 1)) b) d s (now t b' (s32 (n + 1)) fi d) s' /\
       first_use no_failures (s32 (n + 1)) r b b') s.
Proof.
  intros Ht0 Hd Hf. pose proof (found_type _ _ _ _ Hf) as Ht. cbn [clk_get_rec]. rewrite ltb_false by lia.
  tcall locked_spec; [exact Hd | exact Hf |]. intros _ s1 H1.
  tcall (count_spec t b n d s s1 _ (s32 (n + 1)) Hf H1); [done |]. intros _ s2 H2.
  apply twp_bind. eapply twp_getctrl; [exact (proj1 H2) | by eapply now_locked_ctrl |]. cbn [refcount enable_fn].
  apply (twp_call _ _ (fun r s3 => exists b' fi,
    dev_step (first_w (s32 (n + 1)) b) d s (now_locked t b' (s32 (n + 1)) fi d) s3 /\
    first_use no_failures (s32 (n + 1)) r b b')).
  - unfold first_use. destruct (s32 (n + 1) =? 1) eqn:E.
    + tcall first_use_spec; [exact Hf | exact H2 |]. intros r s3 (b' & fi & H3 & Hen).
      rewrite (eqb_neq_false t TVTOP_SUB_TVDISP Ht0). apply twp_ret. apply Z.eqb_eq in E. exists b', fi.
      split; [| done]. eapply dev_step_mono; [exact H3 | by intros w Hw; apply Hw].
    + apply twp_ret. exists b, (first_init d). split; [by apply dev_step_any | done].
  - intros r s3 (b' & fi & H3 & Hr). tcall unlocked_spec; [exact Hf | exact H3 |].
    intros _ s4 H4. apply twp_ret. by exists b', fi.
Qed.

(** A put finds [n] users: none, the last one, or one of several. *)
Definition put_count (n : Z) : Z := if n =? 0 then 0 else s32 (n - 1).
Definition put_result (n : Z) : Z := if n =? 0 then -1 else 0.
Definition put_block (n : Z) (b b' : tvtop_submodule) : Prop :=
  if n =? 0 then b' = b else last_use (s32 (n - 1)) b b'.

Lemma last_use_spec t b n m d s s1 :
  found t d b n -> dev_step any d s (now_locked t b m (first_init d) d) s1 ->
  twp (tvtop_submodule_disable t)
    (fun _ s2 => exists b' fi, dev_step any d s (now_locked t b' m fi d) s2 /\ blk_disabled b b') s1.
Proof.
  intros Hfd H1. pose proof (now_locked_sub t b n d b m (first_init d) Hfd) as Hb1.
  destruct Hfd as [Ht Hb Hc Hbus Hl].
  eapply twp_mono; [by apply (submodule_disable_spec t b _ s1 Ht (proj1 H1)) |].
  intros ? s2 (b' & Hs & Hen). destruct (blk_dev_step _ _ _ _ _ _ _ Hb1 Hs) as [fi Hs2].
  exists b', fi. split; [| done]. eapply dev_step_trans; [exact H1 | | by intros].
  unfold now_locked in *. cbn in Hs2. rewrite list_insert_insert_eq in Hs2. exact Hs2.
Qed.

Lemma put_one fuel t b n d s :
  t <> TVTOP_SUB_TVDISP -> tvtopdev s = Some d -> found t d b n ->
  twp (clk_put_rec (S fuel) t)
    (fun r s' => exists b' fi, dev_step any d s (now t b' (put_count n) fi d) s' /\
       r = put_result n /\ put_block n b b') s.
Proof.
  intros Ht0 Hd Hf. pose proof (found_type _ _ _ _ Hf) as Ht. cbn [clk_put_rec]. rewrite ltb_false by lia.
  tcall locked_spec; [exact Hd | exact Hf |]. intros _ s1 H1.
  apply twp_bind. eapply twp_getctrl; [exact (proj1 H1) | by eapply now_locked_ctrl |]. cbn [refcount].
  apply (twp_call _ _ (fun r s3 => exists b' fi,
    dev_step any d s (now_locked t b' (put_count n) fi d) s3 /\ r = put_result n /\ put_block n b b')).
  - unfold put_count, put_result, put_block. destruct (n =? 0) eqn:E.
    + apply twp_ret. apply Z.eqb_eq in E as ->. by exists b, (first_init d).
    + tcall (count_spec t b n d s s1 _ (s32 (n - 1)) Hf H1); [done |]. intros _ s2 H2.
      apply twp_bind. eapply twp_getctrl; [exact (proj1 H2) | by eapply now_locked_ctrl |]. cbn [refcount].
      apply (twp_call _ _ (fun _ s3 => exists b' fi,
        dev_step any d s (now_locked t b' (s32 (n - 1)) fi d) s3 /\ last_use (s32 (n - 1)) b b')).
      * unfold last_use. destruct (s32 (n - 1) =? 0) eqn:E1; cbn [twhen].
        -- tcall last_use_spec; [exact Hf | exact H2 |]. intros _ s3 H3.
           rewrite (eqb_neq_false t TVTOP_SUB_TVDISP Ht0). by apply twp_ret.
        -- apply twp_ret. by exists b, (first_init d).
      * intros _ s3 (b' & fi & H3 & Hb'). apply twp_ret. by exists b', fi.
  - intros r s3 (b' & fi & H3 & Hr). tcall unlocked_spec; [exact Hf | exact H3 |].
    intros _ s4 H4. apply twp_ret. by exists b', fi.
Qed.

(** The display block brings the capture block: its lock is held around the
    operation on type 1. *)
Lemma found_capture d b0 b1 n1 m fi :
  found 1 d b1 n1 -> found 1 (now_locked 0 b0 m fi d) b1 n1.
Proof. intros [Ht Hb Hc Hbus Hl]. constructor; try done; cbn; rewrite list_lookup_insert_ne; done. Qed.

Lemma unlocked_display P b0 n0 b1 m b1' m1 fi fi' d s s2 :
  found 0 d b0 n0 ->
  dev_step P d s (now 1 b1' m1 fi' (now_locked 0 b1 m fi d)) s2 ->
  twp (unlock_ctrl 0) (fun _ s' => dev_step P d s (now 1 b1' m1 fi' (now 0 b1 m fi d)) s') s2.
Proof.
  intros Hf H. eapply twp_mono.
  { apply (unlock_ctrl_spec P 0 m d s _ s2 H). cbn. rewrite list_lookup_insert_ne by done.
    exact (now_locked_ctrl 0 _ _ d b1 m fi Hf). }
  intros ? s3 H3. replace (now 1 b1' m1 fi' (now 0 b1 m fi d))
    with (with_ctrl 0 (ClkCtrl false m 0) (now 1 b1' m1 fi' (now_locked 0 b1 m fi d))); [done |].
  unfold with_ctrl, now, now_locked. cbn. f_equal.
  rewrite list_insert_insert_ne by done. by rewrite list_insert_insert_eq.
Qed.

Lemma get_display b0 n0 b1 n1 d s :
  tvtopdev s = Some d -> found 0 d b0 n0 -> found 1 d b1 n1 ->
  twp (sunxi_tvtop_clk_get 0)
    (fun r s' =>
       if s32 (n0 + 1) =? 1 then
         exists b0' b1' fi fi' r0 r1,
           dev_step (fun w => by_entries b0 w /\ first_w (s32 (n1 + 1)) b1 w) d s
             (now 1 b1' (s32 (n1 + 1)) fi' (now 0 b0' (s32 (n0 + 1)) fi d)) s' /\
           blk_enabled no_failures r0 b0 b0' /\ first_use no_failures (s32 (n1 + 1)) r1 b1 b1' /\
           r = (if r0 =? 0 then r1 else r0)
       else r = 0 /\ exists fi, dev_step any d s (now 0 b0 (s32 (n0 + 1)) fi d) s') s.
Proof.
  intros Hd Hf0 Hf1. unfold sunxi_tvtop_clk_get. remember 1%nat as one eqn:Hone.
  cbn [clk_get_rec]. rewrite ltb_false by lia. subst one.
  tcall locked_spec; [exact Hd | exact Hf0 |]. intros _ s1 H1.
  tcall (count_spec 0 b0 n0 d s s1 _ (s32 (n0 + 1)) Hf0 H1); [done |]. intros _ s2 H2.
  apply twp_bind. eapply twp_getctrl; [exact (proj1 H2) | by eapply now_locked_ctrl |]. cbn [refcount enable_fn].
  destruct (s32 (n0 + 1) =? 1) eqn:E.
  - rewrite Z.eqb_refl. apply twp_bind.
    tcall first_use_spec; [exact Hf0 | exact H2 |]. intros r0 s3 (b0' & fi & H3 & Hen).
    tcall (get_one 0 1); [done | exact (proj1 H3) | by apply found_capture |].
    intros r1 s4 (b1' & fi' & H4 & Hen1). tstep.
    pose proof (dev_step_trans _ _ (fun w => by_entries b0 w /\ first_w (s32 (n1 + 1)) b1 w) _ _ _ _ _ _ H3 H4
      ltac:(done)) as H34.
    tcall unlocked_display; [exact Hf0 | exact H34 |].
    intros _ s5 H5. apply twp_ret. exists b0', b1', fi, fi', r0, r1. done.
  - tstep. tcall unlocked_spec; [exact Hf0 | exact H2 |]. intros _ s3 H3. apply twp_ret. eauto.
Qed.

Lemma put_display b0 n0 b1 n1 d s :
  tvtopdev s = Some d -> found 0 d b0 n0 -> found 1 d b1 n1 ->
  twp (sunxi_tvtop_clk_put 0)
    (fun r s' => r = put_result n0 /\
       if negb (n0 =? 0) && (s32 (n0 - 1) =? 0) then
         exists b0' b1' fi fi',
           dev_step any d s (now 1 b1' (put_count n1) fi' (now 0 b0' (put_count n0) fi d)) s' /\
           blk_disabled b0 b0' /\ put_block n1 b1 b1'
       else exists fi, dev_step any d s (now 0 b0 (put_count n0) fi d) s') s.
Proof.
  intros Hd Hf0 Hf1. unfold sunxi_tvtop_clk_put, put_result.
  remember 1%nat as one eqn:Hone. cbn [clk_put_rec]. rewrite ltb_false by lia. subst one.
  tcall locked_spec; [exact Hd | exact Hf0 |]. intros _ s1 H1.
  apply twp_bind. eapply twp_getctrl; [exact (proj1 H1) | by eapply now_locked_ctrl |]. cbn [refcount].
  destruct (n0 =? 0) eqn:E0; cbn [negb andb].
  { tstep. tcall unlocked_spec; [exact Hf0 | exact H1 |]. intros _ s2 H2. apply twp_ret.
    apply Z.eqb_eq in E0 as ->. eauto. }
  assert (Hpc : put_count n0 = s32 (n0 - 1)) by (unfold put_count; by rewrite E0). rewrite Hpc. clear Hpc.
  apply twp_bind. tcall (count_spec 0 b0 n0 d s s1 _ (s32 (n0 - 1)) Hf0 H1); [done |]. intros _ s2 H2.
  apply twp_bind. eapply twp_getctrl; [exact (proj1 H2) | by eapply now_locked_ctrl |]. cbn [refcount].
  destruct (s32 (n0 - 1) =? 0) eqn:E; cbn [twhen].
  - apply twp_bind. tcall last_use_spec; [exact Hf0 | exact H2 |]. intros _ s3 (b0' & fi & H3 & Hdis).
    cbn [twhen Z.eqb TVTOP_SUB_TVDISP]. 
    tcall (put_one 0 1); [done | exact (proj1 H3) | by apply found_capture |].
    intros r1 s4 (b1' & fi' & H4 & _ & Hput). tstep. tstep.
    pose proof (dev_step_trans _ _ any _ _ _ _ _ _ H3 H4 ltac:(done)) as H34.
    tcall unlocked_display; [exact Hf0 | exact H34 |].
    intros _ s5 H5. apply twp_ret. split; [done |]. exists b0', b1', fi, fi'. done.
  - tstep. tstep. tcall unlocked_spec; [exact Hf0 | exact H2 |]. intros _ s3 H3. apply twp_ret. eauto.
Qed.
End Users.
