(* ===== verification/TvtopSafe.v ===== *)
(** What the users of the TV top driver can rely on ([Tvtop], [TvtopSpec]): the
    enable counts balance whatever fails; without failures the blocks follow
    their reference counts; what a failing enable leaves behind. *)
From S2P Require Import Prelude Tvtop TvtopSpec.

(** ** Histories of operations *)

(** The calls of other drivers and the three sysfs files; a type is an unsigned
    int. *)
Inductive tv_op : Set := OpGet (t : Z) | OpPut (t : Z) | OpStore (index val count : Z).

Definition run_op `{K : TvKernel} (op : tv_op) : T Z :=
  match op with
  | OpGet t => sunxi_tvtop_clk_get (u32 t)
  | OpPut t => sunxi_tvtop_clk_put (u32 t)
  | OpStore index val count => tvtop_sysfs_store (u32 index) val count
  end.

Inductive op_step `{K : TvKernel} (s s' : tv_state) : Prop :=
| an_op op r : run_op op s = TDone r s' -> op_step s s'.

Fixpoint run_ops `{K : TvKernel} (ops : list tv_op) : T (list Z) :=
  match ops with
  | [] => mret []
  | op :: ops => r ← run_op op; rs ← run_ops ops; mret (r :: rs)
  end.

(** ** Devices *)

Definition dev3 (b0 b1 b2 : tvtop_submodule) (n0 n1 n2 fi : Z) : tvtop_device :=
  Device [b0; b1; b2] [ClkCtrl false n0 0; ClkCtrl false n1 1; ClkCtrl false n2 2] fi.

Definition calm (b : tvtop_submodule) : Prop := 0 <= bus_clk b /\ sub_locked b = false.

(** Between operations: three blocks, no lock held, every bus clock a clock *)
Definition usable (d : tvtop_device) : Prop :=
  exists b0 b1 b2 n0 n1 n2 fi, d = dev3 b0 b1 b2 n0 n1 n2 fi /\ calm b0 /\ calm b1 /\ calm b2.

Lemma same_calm b b' : same_blk b b' -> calm b -> calm b'.
Proof. intros [H1 H2] [H3 H4]. unfold calm. by rewrite H1, H2. Qed.

Lemma found_of t d b0 b1 b2 n0 n1 n2 fi b n :
  d = dev3 b0 b1 b2 n0 n1 n2 fi -> calm b0 -> calm b1 -> calm b2 -> 0 <= t <= 2 ->
  [b0; b1; b2] !! Z.to_nat t = Some b -> [n0; n1; n2] !! Z.to_nat t = Some n -> found t d b n.
Proof.
  intros -> H0 H1 H2 Ht Hb Hn. assert (calm b) as [? ?].
  { assert (Forall calm [b0; b1; b2]) as Hall by auto. by eapply Forall_lookup_1 in Hb. }
  constructor; try done. assert (t = 0 \/ t = 1 \/ t = 2) as [-> | [-> | ->]] by lia; change (Z.to_nat 0) with 0%nat in *; change (Z.to_nat 1) with 1%nat in *;
    change (Z.to_nat 2) with 2%nat in *; by simplify_eq/=.
Qed.

Section Probe.
Context `{K : TvKernel} {L : TvLaws K}.
Implicit Types (s : tv_state).

(** ** The device after a probe *)

Lemma ext_spec s : twp ext (fun _ s' => silent s s') s.
Proof. done. Qed.

Lemma get_by_name_spec name s :
  twp (of_clk_get_by_name name) (fun c s' => c = of_clk name /\ silent s s') s.
Proof. unfold of_clk_get_by_name. apply twp_bind, twp_when; intros _; [apply twp_tmod |]; by apply twp_ret. Qed.

Lemma clk_put_spec c s : twp (clk_put c) (fun _ s' => silent s s') s.
Proof. apply twp_when; intros _; [apply twp_tmod |]; done. Qed.

Lemma probe_clock_spec config desc s :
  (Z.to_nat config < length (desc_rates desc))%nat ->
  twp (probe_clock config desc) (fun l s' => Forall entry_off l /\ silent s s') s.
Proof.
  intros Hlen. unfold probe_clock. tcall get_by_name_spec. intros c s1 [_ H1].
  apply twp_if; intros _; [by apply twp_ret |].
  tcall ext_spec. intros r s2 H2. assert (H12 : silent s s2) by (by etransitivity).
  apply twp_if; intros _.
  - tcall clk_put_spec. intros _ s3 H3. apply twp_ret. split; [done |]. by etransitivity.
  - replace (Z.to_nat (if 0 <=? config then config else 0)) with (Z.to_nat config)
      by (destruct (Z.leb_spec 0 config); lia).
    destruct (lookup_lt_is_Some_2 (desc_rates desc) (Z.to_nat config)) as [rate ->]; [lia |].
    apply twp_ret. split; [| done]. by repeat constructor.
Qed.

Lemma probe_clocks_spec config l s :
  Forall (fun desc => (Z.to_nat config < length (desc_rates desc))%nat) l ->
  twp (probe_clocks config l) (fun l' s' => Forall entry_off l' /\ silent s s') s.
Proof.
  intros H. revert s. induction H as [| desc l Hd _ IH]; intros s; cbn [probe_clocks]; [by apply twp_ret |].
  tcall probe_clock_spec; [exact Hd |]. intros e s1 [He H1]. tcall IH. intros l' s2 [Hl H2].
  apply twp_ret. split; [by apply Forall_app | by etransitivity].
Qed.

(** A block that has just been probed *)
Definition fresh (i : Z) (r : Z + tvtop_submodule * tvtop_clk_ctrl) (hw : tvtop_hw_desc) : Prop :=
  match r with
  | inl e => e <> 0
  | inr (b, c) => blk_off b /\ bus_clk b = of_clk (clk_name hw) /\ sub_locked b = false /\ c = ClkCtrl false 0 i
  end.

Lemma probe_sub_spec panel i hw s :
  Forall (fun desc => length (desc_rates desc) = 4%nat) (clk_descs hw) ->
  twp (probe_sub panel i hw) (fun r s' => fresh i r hw /\ silent s s') s.
Proof.
  intros Hd. unfold probe_sub. apply twp_if; intros _; [by apply twp_ret |].
  apply twp_if; intros Hr; [apply twp_ret; cbn; split; [zbool; lia | done] |].
  tcall get_by_name_spec. intros c s1 [-> H1]. tcall probe_clocks_spec.
  - eapply Forall_impl; [exact Hd |]. intros desc ->. unfold tvtop_detect_resolution.
    repeat case_match; unfold TVTOP_RES_1080P, TVTOP_RES_720P, TVTOP_RES_360P; lia.
  - intros l s2 [Hl H2]. apply twp_ret. split; [| by etransitivity]. by cbn.
Qed.

(** What the clients of the device tree need: the three bus clocks exist. *)
Definition bus_clocks_exist : Prop := Forall (fun hw => 0 <= of_clk (clk_name hw)) tvtop_hw_data.

(** The blocks of a list of descriptions, numbered from [i] on *)
Inductive all_fresh : Z -> list (tvtop_submodule * tvtop_clk_ctrl) -> list tvtop_hw_desc -> Prop :=
| fresh_nil i : all_fresh i [] []
| fresh_cons i b k hw l : fresh i (inr b) hw -> all_fresh (i + 1) k l -> all_fresh i (b :: k) (hw :: l).

Lemma probe_subs_spec panel l i s :
  Forall (fun hw => Forall (fun desc => length (desc_rates desc) = 4%nat) (clk_descs hw)) l ->
  twp (probe_subs panel i l)
    (fun r s' => silent s s' /\ match r with inl e => e <> 0 | inr k => all_fresh i k l end) s.
Proof.
  intros H. revert i s. induction H as [| hw l Hd _ IH]; intros i s; cbn [probe_subs].
  { apply twp_ret. split; [done | constructor]. }
  tcall probe_sub_spec; [exact Hd |]. intros [e | b] s1 [Hb H1]; [by apply twp_ret |].
  tcall IH. intros [e | k] s2 [H2 Hk]; apply twp_ret; (split; [by etransitivity |]); [done | by constructor].
Qed.

Lemma probe_spec panel :
  bus_clocks_exist ->
  twp (sunxi_tvtop_probe false true panel)
    (fun r s => r = 0 -> prepared s = ∅ /\ running s = ∅ /\
       exists b0 b1 b2, tvtopdev s = Some (dev3 b0 b1 b2 0 0 0 1) /\ Forall calm [b0; b1; b2] /\
         Forall blk_off [b0; b1; b2]) tv_cold.
Proof.
  intros Hbus. unfold sunxi_tvtop_probe. tstep. cbv match.
  tcall ext_spec. intros r1 s1 H1. apply twp_if; intros _; [by apply twp_ret |].
  tcall ext_spec. intros r2 s2 H2. apply twp_if; intros _; [by apply twp_ret |].
  tcall probe_subs_spec; [by repeat constructor |]. intros [e | k] s3 [H3 Hk]; [by apply twp_ret |].
  assert (Hs : silent tv_cold s3) by (etransitivity; [exact H1 |]; etransitivity; [exact H2 | exact H3]).
  destruct Hs as (_ & Hs1 & Hs2). tstep. apply twp_ret. intros _. ands; [done | done |].
  inversion Hbus as [| ? ? Hb0 Hbus1]; inversion Hbus1 as [| ? ? Hb1 Hbus2]; inversion Hbus2 as [| ? ? Hb2 _]; subst.
  inversion Hk as [| ? [b0 c0] ? ? ? F0 Hk1]; subst. inversion Hk1 as [| ? [b1 c1] ? ? ? F1 Hk2]; subst.
  inversion Hk2 as [| ? [b2 c2] ? ? ? F2 Hk3]; subst. inversion Hk3; subst.
  destruct F0 as (O0 & B0 & L0 & ->), F1 as (O1 & B1 & L1 & ->), F2 as (O2 & B2 & L2 & ->).
  exists b0, b1, b2. split; [done |]. unfold calm. rewrite <- B0 in Hb0. rewrite <- B1 in Hb1. rewrite <- B2 in Hb2.
  split; repeat (constructor; [done |]); constructor.
Qed.
End Probe.

(** ** The enable counts balance *)

Section Balance.
Context `{K : TvKernel} {L : TvLaws K}.
Implicit Types (s : tv_state).

(** Weights that do not tell clocks apart *)
Definition even (w : Z -> Z) : Prop := forall x y, w x = w y.

Lemma even_steady b w : even w -> by_entries b w.
Proof. by left. Qed.

Lemma usable_now t b' m fi d b n :
  usable d -> found t d b n -> same_blk b b' -> usable (now t b' m fi d).
Proof.
  intros (b0 & b1 & b2 & n0 & n1 & n2 & fi0 & -> & H0 & H1 & H2) [Ht Hb Hc Hbus Hl] Hs.
  assert (calm b') by (by eapply same_calm).
  assert (t = 0 \/ t = 1 \/ t = 2) as [-> | [-> | ->]] by lia; unfold usable, now; cbn; by do 8 eexists.
Qed.

Lemma usable_found t d : usable d -> 0 <= t <= 2 -> exists b n, found t d b n.
Proof.
  intros (b0 & b1 & b2 & n0 & n1 & n2 & fi & Hd & H0 & H1 & H2) Ht.
  assert (t = 0 \/ t = 1 \/ t = 2) as [-> | [-> | ->]] by lia;
    do 2 eexists; eapply found_of; try done; lia.
Qed.

Lemma first_use_same nf m r b b' : first_use nf m r b b' -> same_blk b b'.
Proof. unfold first_use. destruct (m =? 1); [by intros [H _] | by intros [_ ->]]. Qed.

Lemma last_use_same m b b' : last_use m b b' -> same_blk b b'.
Proof. unfold last_use. destruct (m =? 0); [by intros [H _] | by intros ->]. Qed.

Lemma put_block_same n b b' : put_block n b b' -> same_blk b b'.
Proof. unfold put_block. destruct (n =? 0); [by intros -> | apply last_use_same]. Qed.

Lemma found_now t t' d b n b' m fi b1 n1 :
  found t d b n -> found t' d b1 n1 -> t <> t' -> found t' (now t b' m fi d) b1 n1.
Proof.
  intros [Ht _ _ _ _] [Ht' Hb Hc Hbus Hl] Hne. assert (Z.to_nat t <> Z.to_nat t') by lia.
  constructor; try done; cbn; by rewrite list_lookup_insert_ne.
Qed.

Lemma get_usable t d s :
  0 <= t -> tvtopdev s = Some d -> usable d ->
  twp (sunxi_tvtop_clk_get t) (fun _ s' => exists d', usable d' /\ dev_step even d s d' s') s.
Proof.
  intros Ht Hd Hu. destruct (Z.ltb_spec 2 t) as [Hlt | Hle].
  { unfold sunxi_tvtop_clk_get. cbn [clk_get_rec]. rewrite ltb_true by done. apply twp_ret.
    exists d. split; [done | by apply dev_step_refl]. }
  destruct (usable_found t d Hu ltac:(lia)) as (b & n & Hf).
  destruct (Z.eq_dec t 0) as [-> | Hne].
  - destruct (usable_found 1 d Hu ltac:(lia)) as (b1 & n1 & Hf1).
    eapply twp_mono; [exact (get_display b n b1 n1 d s Hd Hf Hf1) |]. intros r s'.
    destruct (s32 (n + 1) =? 1).
    + intros (b0' & b1' & fi & fi' & r0 & r1 & Hs & [Hb0 _] & Hb1 & _). eexists. split.
      * eapply usable_now; [| by eapply (found_now 0 1) | by eapply first_use_same].
        by eapply usable_now.
      * eapply dev_step_mono; [exact Hs |]. intros w Hw. split; [| intros _]; by apply even_steady.
    + intros (_ & fi & Hs). eexists. split; [| by eapply dev_step_mono]. by eapply usable_now.
  - eapply twp_mono; [exact (get_one 1 t b n d s Hne Hd Hf) |]. intros r s' (b' & fi & Hs & Hb).
    eexists. split; [eapply usable_now; [done | done | by eapply first_use_same] |].
    eapply dev_step_mono; [exact Hs |]. intros w Hw _. by apply even_steady.
Qed.

Lemma put_usable t d s :
  0 <= t -> tvtopdev s = Some d -> usable d ->
  twp (sunxi_tvtop_clk_put t) (fun _ s' => exists d', usable d' /\ dev_step even d s d' s') s.
Proof.
  intros Ht Hd Hu. destruct (Z.ltb_spec 2 t) as [Hlt | Hle].
  { unfold sunxi_tvtop_clk_put. cbn [clk_put_rec]. rewrite ltb_true by done. apply twp_ret.
    exists d. split; [done | by apply dev_step_refl]. }
  destruct (usable_found t d Hu ltac:(lia)) as (b & n & Hf).
  destruct (Z.eq_dec t 0) as [-> | Hne].
  - destruct (usable_found 1 d Hu ltac:(lia)) as (b1 & n1 & Hf1).
    eapply twp_mono; [exact (put_display b n b1 n1 d s Hd Hf Hf1) |]. intros r s' [_ H].
    destruct (negb _ && _).
    + destruct H as (b0' & b1' & fi & fi' & Hs & [Hb0 _] & Hb1). eexists.
      split; [| by eapply dev_step_mono].
      eapply usable_now; [| by eapply (found_now 0 1) | by eapply put_block_same].
      by eapply usable_now.
    + destruct H as (fi & Hs). eexists. split; [| by eapply dev_step_mono]. by eapply usable_now.
  - eapply twp_mono; [exact (put_one 1 t b n d s Hne Hd Hf) |]. intros r s' (b' & fi & Hs & _ & Hb).
    eexists. split; [eapply usable_now; [done | done | by eapply put_block_same] | by eapply dev_step_mono].
Qed.

Lemma run_op_usable op d s :
  tvtopdev s = Some d -> usable d ->
  twp (run_op op) (fun _ s' => exists d', usable d' /\ dev_step even d s d' s') s.
Proof.
  intros Hd Hu.
  assert (Ht : forall t, 0 <= u32 t) by (intros t; unfold u32; apply Z.mod_pos_bound; lia).
  destruct op as [t | t | i v c]; cbn [run_op]; [by apply get_usable | by apply put_usable |].
  unfold tvtop_sysfs_store. apply (twp_call _ _ (fun _ s' => exists d', usable d' /\ dev_step even d s d' s')).
  - apply twp_if; intros _; [tcall get_usable | tcall put_usable]; try done; intros r s' H; by apply twp_ret.
  - intros _ s' H. by apply twp_ret.
Qed.

(** The number of set flags of a device: enables that it will undo *)
Definition flags_on (d : tvtop_device) : Z := subs_w (fun _ => 1) (subs d).

(** All enables of the system *)
Definition enables (s : tv_state) : Z := meas (fun _ => 1) (running s).

Definition balanced (s : tv_state) : Prop :=
  paired s /\ exists d, tvtopdev s = Some d /\ usable d /\ enables s = flags_on d.

Lemma run_op_balanced op s : balanced s -> twp (run_op op) (fun _ s' => balanced s') s.
Proof.
  intros (Hp & d & Hd & Hu & He). eapply twp_mono; [by apply (run_op_usable op d s) |].
  intros _ s' (d' & Hu' & Hd' & Hp' & Hg). split; [auto |]. exists d'. ands; [done | done |].
  specialize (Hg (fun _ => 1) ltac:(done)). unfold gained, flags_on, enables in *. lia.
Qed.

Lemma probe_balanced panel s :
  bus_clocks_exist -> sunxi_tvtop_probe false true panel tv_cold = TDone 0 s -> balanced s.
Proof.
  intros Hbus Hrun. pose proof (probe_spec panel Hbus) as H. unfold twp in H. rewrite Hrun in H.
  destruct (H eq_refl) as (H1 & H2 & b0 & b1 & b2 & Hd & Hc & Ho).
  inversion Hc as [| ? ? C0 Hc1]; inversion Hc1 as [| ? ? C1 Hc2]; inversion Hc2 as [| ? ? C2 _]; subst.
  split; [intros c; by rewrite H1, H2 |]. eexists. split; [exact Hd |]. split; [by do 8 eexists |].
  unfold enables. rewrite H2. unfold flags_on. cbn [subs dev3]. clear -Ho.
  induction Ho as [| b l (Hl & Hb & _) _ IH]; [done |]. unfold subs_w in *. cbn. rewrite <- IH.
  unfold sub_w. rewrite Hb. cbn. clear -Hl. induction Hl as [| e k [H1 H2] _ IH]; [done |].
  unfold entries_w in *. cbn. unfold entry_w at 1. rewrite H1, H2. cbn. lia.
Qed.

(** C6: When the device tree names the bus clock of each of the three blocks (the
    probe does not check it: lemma missing_bus_clock), then after a successful
    probe, whatever gets, puts and sysfs writes run, in any order, and whichever
    framework calls fail: every further operation returns (no mutex is taken by
    its holder, no pointer is NULL, the recursion from the display to the capture
    block ends), every clock is prepared as often as it is enabled, and the
    enables that are outstanding are as many as the flags the driver has set. *)
Theorem accounts_balance panel s0 s
  (Hbus : bus_clocks_exist)
  (Hprobe : sunxi_tvtop_probe false true panel tv_cold = TDone 0 s0)
  (Hrun : star op_step s0 s) :
  (forall op, exists r s', run_op op s = TDone r s') /\
  (forall c, cnt c (prepared s) = cnt c (running s)) /\
  exists d, tvtopdev s = Some d /\ enables s = flags_on d.
Proof.
  assert (Hb : balanced s).
  { apply (star_invariant op_step balanced) with s0; [| by eapply probe_balanced | done].
    intros s1 s2 H [op r Hop]. pose proof (run_op_balanced op s1 H) as H'. unfold twp in H'. by rewrite Hop in H'. }
  ands.
  - intros op. destruct (twp_inv _ _ _ (run_op_balanced op s Hb)) as (r & s' & ? & _). eauto.
  - apply Hb.
  - destruct Hb as (_ & d & ? & _ & ?). eauto.
Qed.
End Balance.

(** ** Without failures the blocks follow their counts *)

(** The counts of the three types, and what a get and a put do to them *)
Definition counts : Type := Z * Z * Z.

Definition get_abs (t : Z) (n : counts) : Z * counts :=
  let '(n0, n1, n2) := n in
  if 2 <? t then (-22, n)
  else if t =? 0 then (0, (n0 + 1, if n0 =? 0 then n1 + 1 else n1, n2))
  else if t =? 1 then (0, (n0, n1 + 1, n2))
  else (0, (n0, n1, n2 + 1)).

Definition drop (n : Z) : Z := if n =? 0 then 0 else n - 1.

Definition put_abs (t : Z) (n : counts) : Z * counts :=
  let '(n0, n1, n2) := n in
  if 2 <? t then (-22, n)
  else if t =? 0 then (put_result n0, (drop n0, if n0 =? 1 then drop n1 else n1, n2))
  else if t =? 1 then (put_result n1, (n0, drop n1, n2))
  else (put_result n2, (n0, n1, drop n2)).

Definition op_abs (op : tv_op) (n : counts) : Z * counts :=
  match op with
  | OpGet t => get_abs (u32 t) n
  | OpPut t => put_abs (u32 t) n
  | OpStore i val count =>
      (count, if negb (val =? 0) then snd (get_abs (u32 i) n) else snd (put_abs (u32 i) n))
  end.

Fixpoint ops_abs (ops : list tv_op) (n : counts) : list Z * counts :=
  match ops with
  | [] => ([], n)
  | op :: ops => let '(r, n1) := op_abs op n in let '(rs, n2) := ops_abs ops n1 in (r :: rs, n2)
  end.

(** A block with [n] users *)
Definition in_use (n : Z) (b : tvtop_submodule) : Prop := if n =? 0 then blk_off b else blk_on b.

Section Refine.
Context `{K : TvKernel} {L : TvLaws K} (Hnf : no_failures).
Implicit Types (s : tv_state).

(** The driver's state stands for [n], and no count is above [k]. *)
Definition stands_for (k : Z) (n : counts) (d : tvtop_device) : Prop :=
  let '(n0, n1, n2) := n in
  exists b0 b1 b2 fi, d = dev3 b0 b1 b2 n0 n1 n2 fi /\
    (calm b0 /\ in_use n0 b0 /\ 0 <= n0 <= k) /\
    (calm b1 /\ in_use n1 b1 /\ 0 <= n1 <= k) /\
    (calm b2 /\ in_use n2 b2 /\ 0 <= n2 <= k).

(** Each clock is enabled as often as the flags say. *)
Definition exact (s : tv_state) (d : tvtop_device) : Prop :=
  tvtopdev s = Some d /\ paired s /\ forall c, cnt c (running s) = subs_w (only c) (subs d).

Lemma exact_step P d s d' s' :
  exact s d -> dev_step P d s d' s' -> (forall c, P (only c)) -> exact s' d'.
Proof.
  intros (Hd & Hp & Hc) (Hd' & Hp' & Hg) HP. unfold exact. ands; [done | auto |].
  intros c. specialize (Hg (only c) (HP c)). unfold gained in Hg. rewrite !meas_only, Hc in Hg. lia.
Qed.

Lemma off_steady b w : blk_off b -> by_entries b w.
Proof. intros (H & _). right. eapply Forall_impl; [exact H |]. by intros e [_ ?]. Qed.

(** A first or last use, or one in between, keeps [in_use]. *)
Lemma first_use_in n r b b' k :
  0 <= n <= k -> k < 2 ^ 31 - 1 -> in_use n b -> first_use no_failures (s32 (n + 1)) r b b' ->
  s32 (n + 1) = n + 1 /\ r = 0 /\ in_use (n + 1) b' /\ same_blk b b'.
Proof.
  intros Hn Hk Hb Hu. assert (Hs : s32 (n + 1) = n + 1).
  { unfold s32, u32. rewrite Z.mod_small by lia. by rewrite ltb_true by lia. }
  rewrite Hs in Hu. pose proof (first_use_same _ _ _ _ _ Hu) as Hsame.
  unfold in_use, first_use in *. rewrite (eqb_neq_false (n + 1) 0) by lia.
  destruct (Z.eqb_spec n 0) as [-> | Hne].
  - cbn [Z.eqb Z.add] in Hu. destruct Hu as (_ & _ & _ & _ & Hon). destruct (Hon Hnf Hb). by ands.
  - rewrite (eqb_neq_false (n + 1) 1) in Hu by lia. destruct Hu as [-> ->]. by ands.
Qed.

Lemma put_block_in n b b' k :
  0 <= n <= k -> k < 2 ^ 31 -> in_use n b -> put_block n b b' ->
  put_count n = drop n /\ in_use (drop n) b' /\ same_blk b b'.
Proof.
  intros Hn Hk Hb Hu. pose proof (put_block_same _ _ _ Hu) as Hsame.
  unfold put_block, put_count, drop, last_use, in_use in *.
  destruct (Z.eqb_spec n 0) as [-> | Hne]; [by subst |].
  assert (Hs : s32 (n - 1) = n - 1).
  { unfold s32, u32. rewrite Z.mod_small by lia. by rewrite ltb_true by lia. }
  rewrite Hs in *. ands; [done | | done].
  destruct (n - 1 =? 0); [| by subst]. by apply Hu.
Qed.

Lemma get_refines t n k d s :
  0 <= t -> k < 2 ^ 31 - 1 -> exact s d -> stands_for k n d ->
  twp (sunxi_tvtop_clk_get t)
    (fun r s' => exists d', exact s' d' /\ stands_for (k + 1) (snd (get_abs t n)) d' /\ r = fst (get_abs t n)) s.
Proof.
  destruct n as [[n0 n1] n2]. intros Ht Hk Hex (b0 & b1 & b2 & fi & -> & (C0 & I0 & N0) & (C1 & I1 & N1) & C2 & I2 & N2).
  set (d := dev3 _ _ _ _ _ _ _) in *. pose proof (proj1 Hex) as Hd.
  assert (F0 : found 0 d b0 n0) by (by eapply found_of).
  assert (F1 : found 1 d b1 n1) by (by eapply found_of).
  assert (F2 : found 2 d b2 n2) by (by eapply found_of).
  destruct (Z.ltb_spec 2 t) as [Hlt | Hle].
  { unfold sunxi_tvtop_clk_get. cbn [clk_get_rec get_abs]. rewrite ltb_true by done. apply twp_ret.
    exists d. ands; [done | | done]. exists b0, b1, b2, fi. ands; done || lia. }
  assert (t = 0 \/ t = 1 \/ t = 2) as [-> | [-> | ->]] by lia.
  - eapply twp_mono; [exact (get_display b0 n0 b1 n1 d s Hd F0 F1) |]. intros r s'.
    destruct (s32 (n0 + 1) =? 1) eqn:E.
    + intros (b0' & b1' & fi0 & fi1 & r0 & r1 & Hs & Hb0 & Hb1 & ->).
      assert (Hu0 : first_use no_failures (s32 (n0 + 1)) r0 b0 b0') by (unfold first_use; by rewrite E).
      destruct (first_use_in n0 r0 b0 b0' k N0 Hk I0 Hu0) as (E0 & -> & I0' & S0).
      destruct (first_use_in n1 r1 b1 b1' k N1 Hk I1 Hb1) as (E1 & -> & I1' & S1).
      rewrite E0, E1 in *. apply Z.eqb_eq in E. assert (n0 = 0) as -> by lia.
      eexists. split; [eapply exact_step; [exact Hex | exact Hs |] |].
      * intros c. split; [by apply off_steady | intros Hn1]. apply off_steady.
        assert (n1 = 0) as -> by lia. exact I1.
      * cbn. split; [| done]. exists b0', b1', b2, fi1. ands; try done; try lia; by eapply same_calm.
    + intros (-> & fi0 & Hs).
      destruct (first_use_in n0 0 b0 b0 k N0 Hk I0) as (E0 & _ & I0' & S0).
      { unfold first_use. by rewrite E. }
      rewrite E0 in *. eexists. split; [by eapply exact_step |].
      apply Z.eqb_neq in E. unfold get_abs. cbn. rewrite (eqb_neq_false n0 0) by lia.
      split; [| done]. exists b0, b1, b2, fi0. ands; done || lia.
  - eapply twp_mono; [exact (get_one 1 1 b1 n1 d s ltac:(done) Hd F1) |]. intros r s' (b' & fi1 & Hs & Hb).
    destruct (first_use_in n1 r b1 b' k N1 Hk I1 Hb) as (E1 & -> & I1' & S1). rewrite E1 in *.
    eexists. split; [eapply exact_step; [exact Hex | exact Hs |] |].
    + intros c Hn. apply off_steady. assert (n1 = 0) as -> by lia. exact I1.
    + cbn. split; [| done]. exists b0, b', b2, fi1. ands; try done; try lia; by eapply same_calm.
  - eapply twp_mono; [exact (get_one 1 2 b2 n2 d s ltac:(done) Hd F2) |]. intros r s' (b' & fi1 & Hs & Hb).
    destruct (first_use_in n2 r b2 b' k N2 Hk I2 Hb) as (E2 & -> & I2' & S2). rewrite E2 in *.
    eexists. split; [eapply exact_step; [exact Hex | exact Hs |] |].
    + intros c Hn. apply off_steady. assert (n2 = 0) as -> by lia. exact I2.
    + cbn. split; [| done]. exists b0, b1, b', fi1. ands; try done; try lia; by eapply same_calm.
Qed.

Lemma drop_range n k : 0 <= n <= k -> 0 <= drop n <= k + 1.
Proof. unfold drop. destruct (Z.eqb_spec n 0); lia. Qed.

Lemma any_step s d s' d' : exact s d -> dev_step any d s d' s' -> exact s' d'.
Proof. intros H Hs. by eapply exact_step. Qed.

Lemma put_refines t n k d s :
  0 <= t -> k < 2 ^ 31 - 1 -> exact s d -> stands_for k n d ->
  twp (sunxi_tvtop_clk_put t)
    (fun r s' => exists d', exact s' d' /\ stands_for (k + 1) (snd (put_abs t n)) d' /\ r = fst (put_abs t n)) s.
Proof.
  destruct n as [[n0 n1] n2]. intros Ht Hk Hex (b0 & b1 & b2 & fi & -> & (C0 & I0 & N0) & (C1 & I1 & N1) & C2 & I2 & N2).
  set (d := dev3 _ _ _ _ _ _ _) in *. pose proof (proj1 Hex) as Hd.
  assert (F0 : found 0 d b0 n0) by (by eapply found_of).
  assert (F1 : found 1 d b1 n1) by (by eapply found_of).
  assert (F2 : found 2 d b2 n2) by (by eapply found_of).
  pose proof (drop_range n0 k N0). pose proof (drop_range n1 k N1). pose proof (drop_range n2 k N2).
  destruct (Z.ltb_spec 2 t) as [Hlt | Hle].
  { unfold sunxi_tvtop_clk_put. cbn [clk_put_rec put_abs]. rewrite ltb_true by done. apply twp_ret.
    exists d. ands; [done | | done]. exists b0, b1, b2, fi. ands; done || lia. }
  assert (t = 0 \/ t = 1 \/ t = 2) as [-> | [-> | ->]] by lia.
  - eapply twp_mono; [exact (put_display b0 n0 b1 n1 d s Hd F0 F1) |]. intros r s' [-> H2].
    assert (Hn0 : negb (n0 =? 0) && (s32 (n0 - 1) =? 0) = (n0 =? 1)).
    { destruct (Z.eqb_spec n0 0) as [-> | Hne]; [done |]. cbn. unfold s32, u32. rewrite Z.mod_small by lia.
      rewrite ltb_true by lia. destruct (Z.eqb_spec n0 1), (Z.eqb_spec (n0 - 1) 0); lia || done. }
    rewrite Hn0 in H2. destruct (n0 =? 1) eqn:E.
    + apply Z.eqb_eq in E as ->. destruct H2 as (b0' & b1' & fi0 & fi1 & Hs & Hb0 & Hb1).
      destruct (put_block_in 1 b0 b0' k N0 ltac:(lia) I0 Hb0) as (_ & I0' & S0).
      destruct (put_block_in n1 b1 b1' k N1 ltac:(lia) I1 Hb1) as (E1 & I1' & S1). rewrite E1 in *.
      eexists. split; [by eapply any_step |]. cbn. split; [| done].
      exists b0', b1', b2, fi1. ands; try done; try lia; by eapply same_calm.
    + destruct H2 as (fi0 & Hs). unfold put_abs. cbn. rewrite E.
      assert (Hb0 : put_block n0 b0 b0).
      { unfold put_block, last_use. destruct (n0 =? 0) eqn:E0; [done |]. cbn in Hn0. by rewrite Hn0. }
      destruct (put_block_in n0 b0 b0 k N0 ltac:(lia) I0 Hb0) as (E0 & I0' & S0). rewrite E0 in *.
      eexists. split; [by eapply any_step |]. split; [| done].
      exists b0, b1, b2, fi0. ands; done || lia.
  - eapply twp_mono; [exact (put_one 1 1 b1 n1 d s ltac:(done) Hd F1) |]. intros r s' (b' & fi1 & Hs & -> & Hb).
    destruct (put_block_in n1 b1 b' k N1 ltac:(lia) I1 Hb) as (E1 & I1' & S1). rewrite E1 in *.
    eexists. split; [by eapply any_step |]. split; [| done].
    exists b0, b', b2, fi1. ands; try done; try lia; by eapply same_calm.
  - eapply twp_mono; [exact (put_one 1 2 b2 n2 d s ltac:(done) Hd F2) |]. intros r s' (b' & fi1 & Hs & -> & Hb).
    destruct (put_block_in n2 b2 b' k N2 ltac:(lia) I2 Hb) as (E1 & I1' & S1). rewrite E1 in *.
    eexists. split; [by eapply any_step |]. split; [| done].
    exists b0, b1, b', fi1. ands; try done; try lia; by eapply same_calm.
Qed.

Lemma op_refines op n k d s :
  k < 2 ^ 31 - 1 -> exact s d -> stands_for k n d ->
  twp (run_op op)
    (fun r s' => exists d', exact s' d' /\ stands_for (k + 1) (snd (op_abs op n)) d' /\ r = fst (op_abs op n)) s.
Proof.
  intros Hk Hex Hn.
  assert (Ht : forall t, 0 <= u32 t) by (intros t; unfold u32; apply Z.mod_pos_bound; lia).
  destruct op as [t | t | i v c]; cbn [run_op op_abs]; [exact (get_refines (u32 t) n k d s (Ht t) Hk Hex Hn) | exact (put_refines (u32 t) n k d s (Ht t) Hk Hex Hn) |].
  unfold tvtop_sysfs_store. cbn [fst snd]. destruct (negb (v =? 0)); apply twp_bind.
  - tcall (get_refines (u32 i) n k d s (Ht i) Hk Hex Hn). intros r s' (d' & H1 & H2 & _). apply twp_ret, twp_ret. by exists d'.
  - tcall (put_refines (u32 i) n k d s (Ht i) Hk Hex Hn). intros r s' (d' & H1 & H2 & _). apply twp_ret, twp_ret. by exists d'.
Qed.

Lemma ops_refine ops n k d s :
  k + Z.of_nat (length ops) < 2 ^ 31 -> exact s d -> stands_for k n d ->
  twp (run_ops ops)
    (fun rs s' => exists d' k', exact s' d' /\ stands_for k' (snd (ops_abs ops n)) d' /\ rs = fst (ops_abs ops n)) s.
Proof.
  revert n k d s. induction ops as [| op ops IH]; intros n k d s Hk Hex Hn; cbn [run_ops ops_abs].
  { apply twp_ret. by exists d, k. }
  cbn [length] in Hk. tcall (op_refines op n k d s ltac:(lia) Hex Hn).
  destruct (op_abs op n) as [r0 n1]. intros r s1 (d1 & H1 & H2 & ->). cbn in H2.
  tcall (IH n1 (k + 1) d1 s1 ltac:(lia) H1 H2).
  destruct (ops_abs ops n1) as [rs0 n2]. intros rs s2 (d2 & k2 & H3 & H4 & ->). apply twp_ret.
  by exists d2, k2.
Qed.
Lemma off_w w b : blk_off b -> sub_w w b = 0.
Proof.
  intros (Hl & Hb & _). unfold sub_w. rewrite Hb. cbn. induction Hl as [| e l [H1 H2] _ IH]; [done |].
  unfold entries_w in *. cbn. unfold entry_w at 1. rewrite H1, H2. cbn. lia.
Qed.

Lemma probe_stands_for panel s :
  bus_clocks_exist -> sunxi_tvtop_probe false true panel tv_cold = TDone 0 s ->
  exists d, exact s d /\ stands_for 0 (0, 0, 0) d.
Proof.
  intros Hbus Hprobe. pose proof (probe_spec panel Hbus) as H. unfold twp in H. rewrite Hprobe in H.
  destruct (H eq_refl) as (H1 & H2 & b0 & b1 & b2 & Hd & Hc & Ho).
  rewrite !Forall_cons in Hc, Ho. destruct Hc as (C0 & C1 & C2 & _), Ho as (O0 & O1 & O2 & _).
  eexists. split.
  - split; [exact Hd |]. split; intros c; rewrite H2; [by rewrite H1 |].
    unfold subs_w. cbn. by rewrite !off_w by done.
  - exists b0, b1, b2, 1. ands; done.
Qed.
End Refine.

(** The blocks and counts of a state *)
Definition blocks (s : tv_state) : list tvtop_submodule := match tvtopdev s with Some d => subs d | None => [] end.
Definition refcounts (s : tv_state) : list Z :=
  match tvtopdev s with Some d => map refcount (clk_ctrls d) | None => [] end.

(** C5: When no framework call fails, the driver behaves as three counters: a
    get adds a user and the first user of the display also becomes a user of
    the capture block, a put takes one away and the last one gives that user
    back, a put without users returns -1.  After any sequence of fewer than
    2^31 operations the results are those of the counters, the driver's
    reference counts are the counters, a block is off when it has no users and
    has all its clocks on otherwise, and every clock of the system is enabled
    exactly once for each flag of a block in use that names it - not at all
    when nobody uses anything. *)
Theorem users_refine `{K : TvKernel} {L : TvLaws K} panel s0 ops
  (Hnf : no_failures)
  (Hbus : bus_clocks_exist)
  (Hprobe : sunxi_tvtop_probe false true panel tv_cold = TDone 0 s0)
  (Hlen : Z.of_nat (length ops) < 2 ^ 31) :
  exists s, run_ops ops s0 = TDone (fst (ops_abs ops (0, 0, 0))) s /\
    let '(n0, n1, n2) := snd (ops_abs ops (0, 0, 0)) in
    refcounts s = [n0; n1; n2] /\ Forall2 in_use [n0; n1; n2] (blocks s) /\
    (forall c, cnt c (running s) = subs_w (only c) (blocks s)) /\
    ((n0, n1, n2) = (0, 0, 0) -> forall c, cnt c (running s) = 0 /\ cnt c (prepared s) = 0).
Proof.
  destruct (probe_stands_for panel s0 Hbus Hprobe) as (d0 & Hex & Hn).
  destruct (twp_inv _ _ _ (ops_refine Hnf ops (0, 0, 0) 0 d0 s0 ltac:(lia) Hex Hn))
    as (rs & s & Hrun & d & k & (Hd & Hp & Hc) & Hn' & ->).
  exists s. split; [done |]. destruct (snd _) as [[n0 n1] n2].
  destruct Hn' as (b0 & b1 & b2 & fi & -> & (_ & I0 & _) & (_ & I1 & _) & _ & I2 & _).
  unfold refcounts, blocks. rewrite Hd. cbn. ands; [done | by repeat constructor | done |].
  intros [= -> -> ->] c. rewrite (Hp c), Hc. cbn. unfold subs_w. cbn. rewrite !off_w by done. done.
Qed.

(** ** What a failing enable leaves behind *)

Section Failures.
Context `{K : TvKernel} {L : TvLaws K}.
Implicit Types (s : tv_state).

Lemma entries_w_off w l l' :
  Forall2 (fun e e' => same_clk e e' /\ entry_off e') l l' -> entries_w w l' = 0.
Proof.
  induction 1 as [| e e' l k [_ [H1 H2]] _ IH]; [done |].
  unfold entries_w in *. cbn. unfold entry_w at 1. rewrite H1, H2. cbn. lia.
Qed.

Lemma entries_w_all_off w l : Forall entry_off l -> entries_w w l = 0.
Proof.
  intros H. apply (entries_w_off w l l). induction H; constructor; auto. split; [by split | done].
Qed.

(** Enabling the clocks of a block whose clocks are all off always returns.
    If it returns 0, every clock of the list and every parent that is needed is
    on and counted once.  Otherwise the entries before the one that failed have
    been switched off again and those after it were not touched; of the entry
    that failed either nothing is on, or - when its parent is what failed - its
    own clock stays on, with its flag set and its enable counted. *)
Theorem clock_enable_outcomes i d b s
  (Hd : tvtopdev s = Some d) (Hb : subs d !! Z.to_nat i = Some b)
  (Hoff : Forall entry_off (clk_list b)) :
  exists r l' s', sunxi_tvtop_clock_enable i s = TDone r s' /\
    tvtopdev s' = Some (set_subs (<[Z.to_nat i := set_clk_list l' b]> (subs d)) d) /\
    list_outcome r (clk_list b) l' /\
    (forall c, cnt c (running s') = cnt c (running s) + entries_w (only c) l') /\
    (r <> 0 -> exists e', e' ∈ l' /\ parent_clk_enabled e' = false /\
       forall c, cnt c (running s') = cnt c (running s) + held (clk_enabled e') (only c (clk e'))).
Proof.
  destruct (twp_inv _ _ _ (enable_entries_spec [] (clk_list b) s)) as ([r l'] & s1 & Hrun & Hf & _ & Ho & Hg).
  assert (Hout : list_outcome r (clk_list b) l') by (by apply (Ho [])).
  set (s2 := set_tvtopdev (Some (set_subs (alter (set_clk_list l') (Z.to_nat i) (subs d)) d)) s1).
  assert (Hc : forall c, cnt c (running s2) = cnt c (running s) + entries_w (only c) l').
  { intros c. assert (Hw : steady (only c) (clk_list b)).
    { right. eapply Forall_impl; [exact Hoff |]. by intros e [_ ?]. }
    specialize (Hg _ Hw). rewrite (entries_w_all_off _ _ Hoff) in Hg. unfold gained in Hg.
    rewrite !meas_only in Hg. change (entries_w (only c) []) with 0 in Hg. cbn. lia. }
  exists r, l', s2. ands; [| | done | done |].
  - unfold sunxi_tvtop_clock_enable, mbind, T_bind, getsub, modsub, moddev. rewrite Hd, Hb, Hrun.
    by rewrite (proj1 Hf), Hd.
  - cbn. by rewrite (alter_at _ _ b) by done.
  - intros Hr. unfold list_outcome in Hout. rewrite (eqb_neq_false r 0 Hr) in Hout.
    destruct Hout as (l1 & l1' & e & e' & rest & Hl & Hl' & H1 & Hs & He). exists e'.
    assert (Hrest : Forall entry_off (e :: rest)) by (rewrite Hl in Hoff; by apply Forall_app in Hoff as [_ ?]).
    apply Forall_cons in Hrest as [Hoe Hrest].
    assert (Hp : parent_clk_enabled e' = false) by (destruct He as [-> | (_ & ? & _)]; [apply Hoe | done]).
    ands; [subst l'; set_solver | done |]. intros c. rewrite Hc, Hl', entries_w_app, (entries_w_off _ l1 l1' H1).
    unfold entries_w. cbn. fold (entries_w (only c) rest). rewrite (entries_w_all_off _ rest Hrest).
    unfold entry_w. rewrite Hp. cbn. lia.
Qed.

(** An operation of a type other than the display that does not switch *)
Definition idle (t : Z) (b : tvtop_submodule) (n : Z) (s s' : tv_state) : Prop :=
  (exists d, tvtopdev s' = Some d /\ found t d b n) /\ forall c, cnt c (running s') = cnt c (running s).

Lemma idle_step t b m b' n fi d s s' :
  found t d b m -> same_blk b b' -> (forall w, sub_w w b' = sub_w w b) ->
  dev_step any d s (now t b' n fi d) s' -> idle t b' n s s'.
Proof.
  intros [Ht Hb Hc Hbus Hl] [S1 S2] Hw (Hd & _ & Hg). split.
  - eexists. split; [exact Hd |]. constructor; [done | | | by rewrite S1 | by rewrite S2].
    + apply list_lookup_insert_eq. by eapply lookup_lt_Some.
    + apply list_lookup_insert_eq. by eapply lookup_lt_Some.
  - intros c. specialize (Hg (only c) I). unfold gained in Hg. rewrite !meas_only in Hg. cbn in Hg.
    rewrite (subs_w_insert _ _ _ b), Hw in Hg by done. lia.
Qed.

Lemma later_get t b n d s :
  t <> TVTOP_SUB_TVDISP -> tvtopdev s = Some d -> found t d b n -> s32 (n + 1) <> 1 ->
  exists s', sunxi_tvtop_clk_get t s = TDone 0 s' /\ idle t b (s32 (n + 1)) s s'.
Proof.
  intros Ht Hd Hf Hn. destruct (twp_inv _ _ _ (get_one 1 t b n d s Ht Hd Hf)) as (r & s' & Hrun & b' & fi & Hs & Hu).
  unfold first_use in Hu. rewrite (eqb_neq_false _ _ Hn) in Hu. destruct Hu as [-> ->].
  exists s'. split; [exact Hrun |]. eapply idle_step; [exact Hf | done | done |].
  eapply dev_step_mono; [exact Hs |]. by intros w _ ?.
Qed.

Lemma later_put t b n d s :
  t <> TVTOP_SUB_TVDISP -> tvtopdev s = Some d -> found t d b n -> n <> 0 -> sub_enabled b = 0 ->
  exists s', sunxi_tvtop_clk_put t s = TDone 0 s' /\ idle t b (s32 (n - 1)) s s'.
Proof.
  intros Ht Hd Hf Hn Hoff. destruct (twp_inv _ _ _ (put_one 1 t b n d s Ht Hd Hf)) as (r & s' & Hrun & b' & fi & Hs & -> & Hu).
  unfold put_block, put_result, put_count in *. rewrite (eqb_neq_false _ _ Hn) in *.
  assert (b' = b) as ->.
  { unfold last_use in Hu. destruct (_ =? 0); [| done]. destruct Hu as (_ & _ & Hu & _). by apply Hu. }
  exists s'. split; [exact Hrun |]. by eapply idle_step.
Qed.

Lemma found_shown t d b n s :
  tvtopdev s = Some d -> found t d b n -> blocks s !! Z.to_nat t = Some b /\ refcounts s !! Z.to_nat t = Some n.
Proof. intros Hd [_ Hb Hc _ _]. unfold blocks, refcounts. rewrite Hd, list_lookup_fmap, Hc. done. Qed.

(** C34: A first get of the capture or the front-end block that fails is not
    undone.  (For the display the last put also gives the capture block back.)
    With every bus clock present and the block off and without users, the count
    stays at 1 and the block is not enabled; the next get is therefore not the
    first, does not try again and reports success.  Both puts report success too,
    but since the block never counted as enabled the last one switches nothing
    off: what the failing get had switched on - flags and enable counts - is
    still on when nobody uses the block any more. *)
Theorem failed_enable_not_undone t d b s r s1
  (Ht : t = TVTOP_SUB_TVCAP \/ t = TVTOP_SUB_TVFE)
  (Hd : tvtopdev s = Some d) (Hu : usable d)
  (Hb : subs d !! Z.to_nat t = Some b) (Hoff : sub_enabled b = 0)
  (Hc : clk_ctrls d !! Z.to_nat t = Some (ClkCtrl false 0 t))
  (Hget : sunxi_tvtop_clk_get t s = TDone r s1) (Hr : r <> 0) :
  exists b1 s2 s3 s4,
    sunxi_tvtop_clk_get t s1 = TDone 0 s2 /\
    sunxi_tvtop_clk_put t s2 = TDone 0 s3 /\
    sunxi_tvtop_clk_put t s3 = TDone 0 s4 /\
    sub_enabled b1 = 0 /\
    Forall (fun '(s', n) => blocks s' !! Z.to_nat t = Some b1 /\ refcounts s' !! Z.to_nat t = Some n /\
              forall c, cnt c (running s') = cnt c (running s1)) [(s1, 1); (s2, 2); (s3, 1); (s4, 0)].
Proof.
  assert (Ht0 : t <> TVTOP_SUB_TVDISP) by (unfold TVTOP_SUB_TVDISP, TVTOP_SUB_TVCAP, TVTOP_SUB_TVFE in *; lia).
  destruct (usable_found t d Hu) as (b0 & n & Hf).
  { unfold TVTOP_SUB_TVCAP, TVTOP_SUB_TVFE in *; lia. }
  assert (b0 = b) as -> by (pose proof (found_sub _ _ _ _ Hf); congruence).
  assert (n = 0) as -> by (pose proof (found_ctrl _ _ _ _ Hf); congruence).
  pose proof (get_one 1 t b 0 d s Ht0 Hd Hf) as Hspec. unfold twp in Hspec.
  change (clk_get_rec 2 t s) with (sunxi_tvtop_clk_get t s) in Hspec. rewrite Hget in Hspec.
  destruct Hspec as (b1 & fi & (Hd1 & _) & ([S1 S2] & _ & _ & Hoff1 & _)). cbn in Hd1.
  specialize (Hoff1 Hr). rewrite Hoff in Hoff1.
  assert (Hf1 : found t (now t b1 1 fi d) b1 1).
  { destruct Hf as [Ht' Hb' Hc' Hbus Hl]. constructor; [done | | | by rewrite S1 | by rewrite S2].
    all: apply list_lookup_insert_eq; by eapply lookup_lt_Some. }
  destruct (later_get t b1 1 _ s1 Ht0 Hd1 Hf1 ltac:(done)) as (s2 & R2 & (d2 & Hd2 & Hf2) & C2).
  destruct (later_put t b1 2 _ s2 Ht0 Hd2 Hf2 ltac:(done) Hoff1) as (s3 & R3 & (d3 & Hd3 & Hf3) & C3).
  destruct (later_put t b1 1 _ s3 Ht0 Hd3 Hf3 ltac:(done) Hoff1) as (s4 & R4 & (d4 & Hd4 & Hf4) & C4).
  exists b1, s2, s3, s4. ands; [done..|].
  pose proof (found_shown t _ b1 _ s1 Hd1 Hf1) as [? ?]. pose proof (found_shown t _ b1 _ s2 Hd2 Hf2) as [? ?].
  pose proof (found_shown t _ b1 _ s3 Hd3 Hf3) as [? ?]. pose proof (found_shown t _ b1 _ s4 Hd4 Hf4) as [? ?].
  assert (C3' : forall c, cnt c (running s3) = cnt c (running s1)) by (intros c; by rewrite C3).
  repeat (constructor; [split; [done |]; split; [done |] |]); [done | done | done | | constructor].
  intros c. by rewrite C4.
Qed.
End Failures.

(** ** Concrete runs *)

(** The [k]-th framework call fails, the others succeed. *)
Definition fail_at (k n : nat) : Z := if (n =? k)%nat then -5 else 0.

#[local] Instance fail_laws k : TvLaws (SimpleTv (fail_at k)).
Proof. constructor. intros n. cbn. unfold fail_at. destruct (n =? k)%nat; lia. Qed.
#[local] Instance succeed_laws : TvLaws (SimpleTv (fun _ => 0)).
Proof. constructor. intros n. cbn. lia. Qed.

Definition final {A} (m : T A) (s : tv_state) : tv_state := match m s with TDone _ s' => s' | TStop _ => s end.
Definition probed (K : TvKernel) : tv_state := final (sunxi_tvtop_probe false true None) tv_cold.

(** Call 28 prepares the parent of the front end's first clock. *)
Definition bad_parent : TvKernel := SimpleTv (fail_at 28).
Definition bad_get : tv_state := final (@sunxi_tvtop_clk_get bad_parent 2) (probed bad_parent).

(** The capture block's bus clock is missing: the probe keeps the error pointer and succeeds; the
    first get then hands it to the clock framework. *)
Definition no_capture_bus : TvKernel := {|
  call_result := @call_result (SimpleTv (fun _ => 0)); clk_get_rate := pll_rate;
  clk_round_rate := @clk_round_rate (SimpleTv (fun _ => 0)); clk_parents := @clk_parents (SimpleTv (fun _ => 0));
  first_parent := @first_parent (SimpleTv (fun _ => 0)); of_iomap := @of_iomap (SimpleTv (fun _ => 0));
  of_reset := @of_reset (SimpleTv (fun _ => 0));
  of_clk n := if bool_decide (Some n = (clk_name <$> tvtop_hw_data !! 1%nat)) then -2
              else @of_clk (SimpleTv (fun _ => 0)) n;
  pm_domain_attach n := 0;
|}.

Lemma missing_bus_clock :
  match @sunxi_tvtop_probe no_capture_bus false true None tv_cold with
  | TDone r s => r = 0 /\ match @sunxi_tvtop_clk_get no_capture_bus 1 s with TStop _ => True | TDone _ _ => False end
  | TStop _ => False
  end.
Proof. vm_compute. split; [reflexivity | exact I]. Qed.

Lemma accounts_balance_witness :
  let K := bad_parent in
  (forall op, exists r s', run_op op bad_get = TDone r s') /\
  (forall c, cnt c (prepared bad_get) = cnt c (running bad_get)) /\
  exists d, tvtopdev bad_get = Some d /\ enables bad_get = flags_on d.
Proof.
  intros K. apply (@accounts_balance bad_parent (fail_laws 28) None (probed bad_parent) bad_get).
  - repeat constructor; vm_compute; discriminate.
  - vm_compute. reflexivity.
  - eapply star_right; [apply star_refl |]. apply (an_op _ _ (OpGet 2) (-5)). vm_compute. reflexivity.
Defined.

Lemma users_refine_witness :
  let K := SimpleTv (fun _ => 0) in
  let ops := [OpGet 0; OpPut 1; OpPut 0; OpGet 2; OpStore 2 0 5; OpPut 2] in
  exists s, run_ops ops (probed K) = TDone (fst (ops_abs ops (0, 0, 0))) s /\
    fst (ops_abs ops (0, 0, 0)) = [0; 0; 0; 0; 5; -1] /\ refcounts s = [0; 0; 0] /\
    forall c, cnt c (running s) = 0.
Proof.
  intros K ops. destruct (@users_refine K succeed_laws None (probed K) ops) as (s & Hrun & H1 & _ & _ & H2).
  - intros n. reflexivity.
  - repeat constructor; vm_compute; discriminate.
  - vm_compute. reflexivity.
  - vm_compute. reflexivity.
  - exists s. split; [exact Hrun |]. split; [reflexivity |]. split; [exact H1 |].
    intros c. apply (H2 eq_refl c).
Defined.

(** The device and its blocks *)
Definition dev_of (s : tv_state) : tvtop_device :=
  match tvtopdev s with Some d => d | None => Device [] [] 0 end.
Definition block_of (s : tv_state) (i : nat) : tvtop_submodule :=
  nth i (blocks s) (Submodule 0 0 0 false [] 0 0 false 0).

Lemma clock_enable_outcomes_witness :
  let K := bad_parent in let s := probed K in let b := block_of s 2 in
  exists r l' s', sunxi_tvtop_clock_enable 2 s = TDone r s' /\ r = -5 /\
    list_outcome r (clk_list b) l' /\ cnt 108 (running s) = 0 /\ cnt 108 (running s') = 1.
Proof.
  intros K s b. destruct (@clock_enable_outcomes bad_parent (fail_laws 28) 2 (dev_of s) b s)
    as (r & l' & s' & Hrun & _ & Hout & _ & _).
  - vm_compute. reflexivity.
  - vm_compute. reflexivity.
  - repeat constructor.
  - exists r, l', s'. split; [exact Hrun |].
    assert (H : match @sunxi_tvtop_clock_enable bad_parent 2 s with TDone r s' => r = -5 /\ cnt 108 (running s') = 1 | TStop _ => False end).
    { vm_compute. split; reflexivity. }
    rewrite Hrun in H. destruct H as [H1 H2]. split; [exact H1 |]. split; [exact Hout |].
    split; [vm_compute; reflexivity | exact H2].
Defined.

Lemma failed_enable_not_undone_witness :
  let K := bad_parent in let s := probed K in
  sunxi_tvtop_clk_get 2 s = TDone (-5) bad_get /\ cnt 108 (running s) = 0 /\ cnt 108 (running bad_get) = 1 /\
  exists b1 s2 s3 s4,
    sunxi_tvtop_clk_get 2 bad_get = TDone 0 s2 /\ sunxi_tvtop_clk_put 2 s2 = TDone 0 s3 /\
    sunxi_tvtop_clk_put 2 s3 = TDone 0 s4 /\ sub_enabled b1 = 0 /\
    Forall (fun '(s', n) => blocks s' !! Z.to_nat 2 = Some b1 /\ refcounts s' !! Z.to_nat 2 = Some n /\
              forall c, cnt c (running s') = cnt c (running bad_get)) [(bad_get, 1); (s2, 2); (s3, 1); (s4, 0)].
Proof.
  intros K s. split; [vm_compute; reflexivity |]. split; [vm_compute; reflexivity |].
  split; [vm_compute; reflexivity |].
  apply (@failed_enable_not_undone bad_parent (fail_laws 28) 2 (dev_of s) (block_of s 2) s (-5) bad_get).
  - right. reflexivity.
  - vm_compute. reflexivity.
  - exists (block_of s 0), (block_of s 1), (block_of s 2), 0, 0, 0, 1. split; [vm_compute; reflexivity |].
    repeat split; vm_compute; discriminate.
  - vm_compute. reflexivity.
  - vm_compute. reflexivity.
  - vm_compute. reflexivity.
  - vm_compute. reflexivity.
  - discriminate.
Defined.
