(* ===== verification/Audio.v ===== *)
(** The audio bridge (src/drivers/audio/bridge): data, state and register access
    (audio_bridge.h, audio_bridge_mem.c and the register functions of
    audio_bridge_core.c).

    The bridge moves PCM data between ALSA buffers and segments of shared memory
    that the MIPS side plays or fills.  The hardware is the class [AudHw]: a read
    may change it, a write may do anything, and what a proof needs of a register is a
    hypothesis of that proof.  Memory is bytes ([Mem]); what ALSA keeps of a substream
    is a record the driver only reads. *)
From S2P Require Import Prelude Mem.

(** ** Constants (audio_bridge.h) *)

Definition TRID_AUDIF_PHYS_BASE : Z := 0x06146000.
Definition TRID_AUDIF_MMIO_SIZE : Z := 0x88.
Definition TRID_AUDBRG_PHYS_BASE : Z := 0x06148000.
Definition TRID_AUDBRG_MMIO_SIZE : Z := 0x394.
Definition TRID_AUDIO_TOP_CLK_PHYS_BASE : Z := 0x0614A000.
Definition TRID_AUDIO_TOP_CLK_MMIO_SIZE : Z := 0x10.
Definition TRID_HIGH_ADDR_CTL_PHYS : Z := 0x06142044.
Definition TRID_SW_REG1_PHYS : Z := 0x02031078.
Definition TRID_SW_REG2_PHYS : Z := 0x02032078.
Definition TRID_ARC_SRC_PHYS : Z := 0x06E00020.
Definition TRID_MSP_OWA_OUT_SRC_PHYS : Z := 0x02000158.

Definition TRID_AUDIO_TOP_CLK_CTL : Z := TRID_AUDIO_TOP_CLK_PHYS_BASE + 0x0.
Definition TRID_AUDIO_TOP_CLK_CFG : Z := TRID_AUDIO_TOP_CLK_PHYS_BASE + 0xc.
Definition TRID_AUDIF_IRQ_STATUS : Z := TRID_AUDIF_PHYS_BASE + 0x0.
Definition TRID_AUDIF_IRQ_MASK : Z := TRID_AUDIF_PHYS_BASE + 0x4.
Definition TRID_AUDIF_IRQ_ROUTE : Z := TRID_AUDIF_PHYS_BASE + 0x8.
Definition TRID_AUDIF_SPDS_STATUS : Z := TRID_AUDIF_PHYS_BASE + 0x10.
Definition TRID_AUDIF_ABPO1_CLK : Z := TRID_AUDIF_PHYS_BASE + 0x18.
Definition TRID_AUDIF_ABPO1_DATA : Z := TRID_AUDIF_PHYS_BASE + 0x1c.
Definition TRID_AUDIF_ABPO2_CLK : Z := TRID_AUDIF_PHYS_BASE + 0x20.
Definition TRID_AUDIF_ABPO2_DATA : Z := TRID_AUDIF_PHYS_BASE + 0x24.
Definition TRID_AUDIF_ABPO3_CLK : Z := TRID_AUDIF_PHYS_BASE + 0x28.
Definition TRID_AUDIF_ABPO3_DATA : Z := TRID_AUDIF_PHYS_BASE + 0x2c.
Definition TRID_AUDIF_SPDO_DATA : Z := TRID_AUDIF_PHYS_BASE + 0x30.
Definition TRID_AUDIF_SPDI1_CFG : Z := TRID_AUDIF_PHYS_BASE + 0x38.
Definition TRID_AUDIF_SPDI1_STATUS : Z := TRID_AUDIF_PHYS_BASE + 0x3c.
Definition TRID_AUDIF_SPDI1_DATA : Z := TRID_AUDIF_PHYS_BASE + 0x40.
Definition TRID_AUDIF_SPDI2_CFG : Z := TRID_AUDIF_PHYS_BASE + 0x48.
Definition TRID_AUDIF_SPDI2_STATUS : Z := TRID_AUDIF_PHYS_BASE + 0x4c.
Definition TRID_AUDIF_SPDI2_DATA : Z := TRID_AUDIF_PHYS_BASE + 0x50.
Definition TRID_AUDIF_DLY_CFG : Z := TRID_AUDIF_PHYS_BASE + 0x54.
Definition TRID_AUDIF_DLY1_REG : Z := TRID_AUDIF_PHYS_BASE + 0x58.
Definition TRID_AUDIF_DLY2_REG : Z := TRID_AUDIF_PHYS_BASE + 0x5c.
Definition TRID_AUDIF_DLY3_REG : Z := TRID_AUDIF_PHYS_BASE + 0x60.
Definition TRID_AUDIF_DLY4_REG : Z := TRID_AUDIF_PHYS_BASE + 0x64.
Definition TRID_AUDIF_SPDO_DIV : Z := TRID_AUDIF_PHYS_BASE + 0x68.
Definition TRID_AUDIF_SPDO_CFG0 : Z := TRID_AUDIF_PHYS_BASE + 0x6c.
Definition TRID_AUDIF_SPDO_CFG1 : Z := TRID_AUDIF_PHYS_BASE + 0x74.
Definition TRID_AUDIF_SPDO_CFG2 : Z := TRID_AUDIF_PHYS_BASE + 0x78.
Definition TRID_AUDIF_SPDO_CFG3 : Z := TRID_AUDIF_PHYS_BASE + 0x7c.
Definition TRID_AUDBRG_GLOBAL_IRQ_EN : Z := TRID_AUDBRG_PHYS_BASE + 0x384.
Definition TRID_AUDBRG_IRQ_MASK : Z := TRID_AUDBRG_PHYS_BASE + 0x388.
Definition TRID_AUDBRG_IRQ_STATUS : Z := TRID_AUDBRG_PHYS_BASE + 0x38c.
Definition TRID_AUDBRG_STREAM_SYNC : Z := TRID_AUDBRG_PHYS_BASE + 0x390.
Definition TRID_AUDBRG_OSTREAM_BASE (n : Z) : Z := TRID_AUDBRG_PHYS_BASE + 0x100 + Z.shiftl n 6.
Definition TRID_AUDBRG_ISTREAM_BASE (n : Z) : Z := TRID_AUDBRG_PHYS_BASE + 0x280 + Z.shiftl n 6.
Definition TRID_AUDBRG_OSTREAM_FLUSH (n : Z) : Z := TRID_AUDBRG_PHYS_BASE + 0x114 + Z.shiftl n 6.
Definition TRID_AUDBRG_ISTREAM_FLUSH (n : Z) : Z := TRID_AUDBRG_PHYS_BASE + 0x294 + Z.shiftl n 6.
Definition TRID_AUDBRG_ISTREAM_UMACREQ (n : Z) : Z := TRID_AUDBRG_PHYS_BASE + 0x298 + Z.shiftl n 6.
Definition TRID_STREAM_REG_START : Z := 0x00.
Definition TRID_STREAM_REG_END : Z := 0x04.
Definition TRID_STREAM_REG_STEP : Z := 0x0c.
Definition TRID_STREAM_REG_CFG : Z := 0x10.

Definition TRID_SHARED_DMA_BYTES : Z := 0x160000.
Definition TRID_DELAYLINE_BYTES : Z := 0x100000.
Definition TRID_SEGMENT_BYTES : Z := 0x10000.
Definition TRID_MAX_ISTREAMS : Z := 4.
Definition TRID_MAX_OSTREAMS : Z := 2.
Definition TRID_MAX_I2SO : Z := 3.
Definition TRID_MAX_DELAYLINES : Z := 4.
Definition TRID_MAX_PCMS : Z := 4.
Definition TRID_IOCTL_PM : Z := 0x6666.
Definition TRID_PM_SUSPEND : Z := 1.
Definition TRID_PM_RESUME : Z := 2.

Inductive trid_interface_type : Set :=
| TRID_IFACE_I2SO0 | TRID_IFACE_I2SO1 | TRID_IFACE_I2SO2 | TRID_IFACE_SPDO0
| TRID_IFACE_SPDI0 | TRID_IFACE_SPDI1.
#[export] Instance iface_dec : EqDecision trid_interface_type.
Proof. solve_decision. Defined.

Inductive trid_spdi_state : Set := TRID_SPDI_IDLE | TRID_SPDI_WAITING_SYNC | TRID_SPDI_RUNNING.

(** ** Data *)

Record trid_dma_segment := Segment { seg_cpu : Z; seg_dma : Z; seg_size : Z }.

(** A timer is [Some] expiry while it is pending; [substream] is 0 for NULL. *)
Record trid_stream_state := Stream {
  substream : Z;
  timer : option Z;
  running : bool;
  resume_running : bool;
  capture : bool;
  iface : trid_interface_type;
  pcm_dev : Z;
  hw_stream : Z;
  channels : Z;
  rate : Z;
  sample_bits : Z;
  period_bytes : Z;
  buffer_bytes : Z;
  hw_ptr_bytes : Z;
  bridge_offset : Z;
}.

Record trid_i2so_frame := I2soFrame { frame_rate : Z; frame_format : Z }.

Record trid_i2so_state := I2so {
  i2so_st : Z;
  data_reg : Z;
  clk_reg : Z;
  w1c_mask : Z;
  irq_route : Z;
  spds_w1c : Z;
  i2so_rate : Z;
  i2so_channels : Z;
  i2so_bits : Z;
  data_word : Z;
  frame_write : Z;
  frame_read : Z;
  frames : list trid_i2so_frame;
}.

Record trid_audio_bridge := Bridge {
  pm_error : bool;
  shared_cpu : Z;
  shared_dma : Z;
  istream : list trid_dma_segment;
  ostream : list trid_dma_segment;
  delayline : list trid_dma_segment;
  card : bool;
  pcm : list bool;
  playback : list trid_stream_state;
  captures : list trid_stream_state;
  delayline_ms : list Z;
  delayline_ticks : list Z;
  delayline_open : list bool;
  delayline_running : list bool;
  arc_source : Z;
  msp_owa_out_source : Z;
  audif_irq_mask : Z;
  spdi_state : list trid_spdi_state;
  i2so : list trid_i2so_state;
}.

(** What ALSA keeps of a substream: the DMA area (0: none), the parameters, and
    period and buffer in frames of [frame_bytes] bytes.  The runtime is there
    while the substream is open. *)
Record snd_pcm_runtime := Runtime {
  dma_area : Z;
  rt_channels : Z;
  rt_rate : Z;
  rt_width : Z;                     (* snd_pcm_format_physical_width(format) *)
  rt_frame_bytes : Z;
  period_size : Z;
  buffer_size : Z;
}.
Record snd_pcm_substream := Substream {
  sub_device : Z;
  sub_capture : bool;
  sub_runtime : option snd_pcm_runtime;
}.

(** ** The hardware *)

Class AudHw := {
  hw : Type;
  hw_read : Z -> hw -> Z * hw;      (* readl by address *)
  hw_write : Z -> Z -> hw -> hw;
}.

(** The addresses of trid_map_aux_windows; without all of them the probe fails. *)
Class AudWin := {
  audif_base : Z;
  audbrg_base : Z;
  audio_top_clk_base : Z;
  high_addr_ctl_base : Z;
  sw_reg1_base : Z;
  sw_reg2_base : Z;
  arc_src_base : Z;
  msp_owa_out_base : Z;
}.

Record aud_state `{AudHw} := AudState {
  bridge : trid_audio_bridge;
  dev : hw;
  amem : mem;
  substreams : gmap Z snd_pcm_substream;
  jiffies : Z;
  elapsed : list Z;                 (* snd_pcm_period_elapsed, latest last *)
  clocks : list bool;               (* audio_cpu, audio_umac, audio_ihb enabled *)
}.

(** ** Setters *)

Definition stream_eta := fun r =>
  Stream (substream r) (timer r) (running r) (resume_running r) (capture r) (iface r) (pcm_dev r)
    (hw_stream r) (channels r) (rate r) (sample_bits r) (period_bytes r) (buffer_bytes r)
    (hw_ptr_bytes r) (bridge_offset r).
Ltac stream_setter f := let e := eval unfold stream_eta in stream_eta in field_setter e f.
Definition set_substream : Z -> trid_stream_state -> trid_stream_state := ltac:(stream_setter substream).
Definition set_timer : option Z -> trid_stream_state -> trid_stream_state := ltac:(stream_setter timer).
Definition set_running : bool -> trid_stream_state -> trid_stream_state := ltac:(stream_setter running).
Definition set_resume_running : bool -> trid_stream_state -> trid_stream_state := ltac:(stream_setter resume_running).
Definition set_capture : bool -> trid_stream_state -> trid_stream_state := ltac:(stream_setter capture).
Definition set_iface : trid_interface_type -> trid_stream_state -> trid_stream_state := ltac:(stream_setter iface).
Definition set_pcm_dev : Z -> trid_stream_state -> trid_stream_state := ltac:(stream_setter pcm_dev).
Definition set_hw_stream : Z -> trid_stream_state -> trid_stream_state := ltac:(stream_setter hw_stream).
Definition set_channels : Z -> trid_stream_state -> trid_stream_state := ltac:(stream_setter channels).
Definition set_rate : Z -> trid_stream_state -> trid_stream_state := ltac:(stream_setter rate).
Definition set_sample_bits : Z -> trid_stream_state -> trid_stream_state := ltac:(stream_setter sample_bits).
Definition set_period_bytes : Z -> trid_stream_state -> trid_stream_state := ltac:(stream_setter period_bytes).
Definition set_buffer_bytes : Z -> trid_stream_state -> trid_stream_state := ltac:(stream_setter buffer_bytes).
Definition set_hw_ptr_bytes : Z -> trid_stream_state -> trid_stream_state := ltac:(stream_setter hw_ptr_bytes).
Definition set_bridge_offset : Z -> trid_stream_state -> trid_stream_state := ltac:(stream_setter bridge_offset).

Definition i2so_eta := fun r =>
  I2so (i2so_st r) (data_reg r) (clk_reg r) (w1c_mask r) (irq_route r) (spds_w1c r) (i2so_rate r)
    (i2so_channels r) (i2so_bits r) (data_word r) (frame_write r) (frame_read r) (frames r).
Ltac i2so_setter f := let e := eval unfold i2so_eta in i2so_eta in field_setter e f.
Definition set_i2so_st : Z -> trid_i2so_state -> trid_i2so_state := ltac:(i2so_setter i2so_st).
Definition set_i2so_rate : Z -> trid_i2so_state -> trid_i2so_state := ltac:(i2so_setter i2so_rate).
Definition set_i2so_channels : Z -> trid_i2so_state -> trid_i2so_state := ltac:(i2so_setter i2so_channels).
Definition set_i2so_bits : Z -> trid_i2so_state -> trid_i2so_state := ltac:(i2so_setter i2so_bits).
Definition set_data_word : Z -> trid_i2so_state -> trid_i2so_state := ltac:(i2so_setter data_word).
Definition set_frame_write : Z -> trid_i2so_state -> trid_i2so_state := ltac:(i2so_setter frame_write).
Definition set_frame_read : Z -> trid_i2so_state -> trid_i2so_state := ltac:(i2so_setter frame_read).
Definition set_frames : list trid_i2so_frame -> trid_i2so_state -> trid_i2so_state := ltac:(i2so_setter frames).

Definition bridge_eta := fun r =>
  Bridge (pm_error r) (shared_cpu r) (shared_dma r) (istream r) (ostream r) (delayline r) (card r)
    (pcm r) (playback r) (captures r) (delayline_ms r) (delayline_ticks r) (delayline_open r)
    (delayline_running r) (arc_source r) (msp_owa_out_source r) (audif_irq_mask r) (spdi_state r)
    (i2so r).
Ltac bridge_setter f := let e := eval unfold bridge_eta in bridge_eta in field_setter e f.
Definition set_pm_error : bool -> trid_audio_bridge -> trid_audio_bridge := ltac:(bridge_setter pm_error).
Definition set_shared_cpu : Z -> trid_audio_bridge -> trid_audio_bridge := ltac:(bridge_setter shared_cpu).
Definition set_shared_dma : Z -> trid_audio_bridge -> trid_audio_bridge := ltac:(bridge_setter shared_dma).
Definition set_istream : list trid_dma_segment -> trid_audio_bridge -> trid_audio_bridge := ltac:(bridge_setter istream).
Definition set_ostream : list trid_dma_segment -> trid_audio_bridge -> trid_audio_bridge := ltac:(bridge_setter ostream).
Definition set_delayline : list trid_dma_segment -> trid_audio_bridge -> trid_audio_bridge := ltac:(bridge_setter delayline).
Definition set_card : bool -> trid_audio_bridge -> trid_audio_bridge := ltac:(bridge_setter card).
Definition set_pcm : list bool -> trid_audio_bridge -> trid_audio_bridge := ltac:(bridge_setter pcm).
Definition set_playback : list trid_stream_state -> trid_audio_bridge -> trid_audio_bridge := ltac:(bridge_setter playback).
Definition set_captures : list trid_stream_state -> trid_audio_bridge -> trid_audio_bridge := ltac:(bridge_setter captures).
Definition set_delayline_ms : list Z -> trid_audio_bridge -> trid_audio_bridge := ltac:(bridge_setter delayline_ms).
Definition set_delayline_ticks : list Z -> trid_audio_bridge -> trid_audio_bridge := ltac:(bridge_setter delayline_ticks).
Definition set_delayline_open : list bool -> trid_audio_bridge -> trid_audio_bridge := ltac:(bridge_setter delayline_open).
Definition set_delayline_running : list bool -> trid_audio_bridge -> trid_audio_bridge := ltac:(bridge_setter delayline_running).
Definition set_arc_source : Z -> trid_audio_bridge -> trid_audio_bridge := ltac:(bridge_setter arc_source).
Definition set_msp_owa_out_source : Z -> trid_audio_bridge -> trid_audio_bridge := ltac:(bridge_setter msp_owa_out_source).
Definition set_audif_irq_mask : Z -> trid_audio_bridge -> trid_audio_bridge := ltac:(bridge_setter audif_irq_mask).
Definition set_spdi_state : list trid_spdi_state -> trid_audio_bridge -> trid_audio_bridge := ltac:(bridge_setter spdi_state).
Definition set_i2so : list trid_i2so_state -> trid_audio_bridge -> trid_audio_bridge := ltac:(bridge_setter i2so).

Section State.
Context `{Hw : AudHw}.

Definition set_bridge (f : trid_audio_bridge -> trid_audio_bridge) (s : aud_state) : aud_state :=
  AudState _ (f (bridge s)) (dev s) (amem s) (substreams s) (jiffies s) (elapsed s) (clocks s).
Definition set_dev (h : hw) (s : aud_state) : aud_state :=
  AudState _ (bridge s) h (amem s) (substreams s) (jiffies s) (elapsed s) (clocks s).
Definition set_amem (m : mem) (s : aud_state) : aud_state :=
  AudState _ (bridge s) (dev s) m (substreams s) (jiffies s) (elapsed s) (clocks s).
Definition set_substreams (r : gmap Z snd_pcm_substream) (s : aud_state) : aud_state :=
  AudState _ (bridge s) (dev s) (amem s) r (jiffies s) (elapsed s) (clocks s).
Definition set_jiffies (j : Z) (s : aud_state) : aud_state :=
  AudState _ (bridge s) (dev s) (amem s) (substreams s) j (elapsed s) (clocks s).
Definition set_elapsed (l : list Z) (s : aud_state) : aud_state :=
  AudState _ (bridge s) (dev s) (amem s) (substreams s) (jiffies s) l (clocks s).
Definition set_clocks (l : list bool) (s : aud_state) : aud_state :=
  AudState _ (bridge s) (dev s) (amem s) (substreams s) (jiffies s) (elapsed s) l.

(** ** The monad *)

Inductive aud_stop : Set :=
| OutOfBounds              (* an array is indexed past its end *)
| NullDeref
| DivByZero
| Endless.                 (* a loop that makes no progress *)

Inductive aud_result (A : Type) : Type :=
| ADone (a : A) (s : aud_state)
| AStop (r : aud_stop).
Arguments ADone {A} a s.
Arguments AStop {A} r.

Definition A (X : Type) : Type := aud_state -> aud_result X.

#[export] Instance A_ret : MRet A := fun X a s => ADone a s.
#[export] Instance A_bind : MBind A := fun X Y k m s =>
  match m s with ADone a s' => k a s' | AStop r => AStop r end.

Definition astop {X} (r : aud_stop) : A X := fun _ => AStop r.
Definition aget {X} (f : aud_state -> X) : A X := fun s => ADone (f s) s.
Definition amod (f : aud_state -> aud_state) : A unit := fun s => ADone tt (f s).
Definition awhen (b : bool) (m : A unit) : A unit := if b then m else mret tt.

(** Fields of the bridge; elements of its arrays *)
Definition bget {X} (f : trid_audio_bridge -> X) : A X := aget (fun s => f (bridge s)).
Definition bmod (f : trid_audio_bridge -> trid_audio_bridge) : A unit := amod (set_bridge f).

Definition elt {X} (f : trid_audio_bridge -> list X) (i : Z) : A X := fun s =>
  match f (bridge s) !! Z.to_nat i with Some x => ADone x s | None => AStop OutOfBounds end.
Definition eltmod {X} (f : trid_audio_bridge -> list X)
    (set : list X -> trid_audio_bridge -> trid_audio_bridge) (i : Z) (g : X -> X) : A unit :=
  x ← elt f i; bmod (fun b => set (<[Z.to_nat i := g x]> (f b)) b).

Definition get_i2so := elt i2so.
Definition mod_i2so := eltmod i2so set_i2so.
End State.
Arguments ADone {Hw X} a s : rename.
Arguments AStop {Hw X} r : rename.

(** ** Register access (audio_bridge_core.c) *)

(** [BIT(n)] and [GENMASK(h, l)] *)
Definition BIT (n : Z) : Z := Z.shiftl 1 n.
Definition GENMASK (h l : Z) : Z := Z.shiftl (Z.ones (h - l + 1)) l.

Section Regs.
Context `{Hw : AudHw} {W : AudWin}.

(** [base && reg >= phys && reg < phys + size] *)
Definition in_window (base phys size reg : Z) : bool :=
  negb (base =? 0) && (phys <=? reg) && (reg <? phys + size).

Definition trid_translate_reg (reg : Z) : Z :=
  if in_window audif_base TRID_AUDIF_PHYS_BASE TRID_AUDIF_MMIO_SIZE reg then
    audif_base + (reg - TRID_AUDIF_PHYS_BASE)
  else if in_window audbrg_base TRID_AUDBRG_PHYS_BASE TRID_AUDBRG_MMIO_SIZE reg then
    audbrg_base + (reg - TRID_AUDBRG_PHYS_BASE)
  else if in_window audio_top_clk_base TRID_AUDIO_TOP_CLK_PHYS_BASE TRID_AUDIO_TOP_CLK_MMIO_SIZE reg then
    audio_top_clk_base + (reg - TRID_AUDIO_TOP_CLK_PHYS_BASE)
  else if negb (high_addr_ctl_base =? 0) && (reg =? TRID_HIGH_ADDR_CTL_PHYS) then high_addr_ctl_base
  else if negb (sw_reg1_base =? 0) && (reg =? TRID_SW_REG1_PHYS) then sw_reg1_base
  else if negb (sw_reg2_base =? 0) && (reg =? TRID_SW_REG2_PHYS) then sw_reg2_base
  else if negb (arc_src_base =? 0) && (reg =? TRID_ARC_SRC_PHYS) then arc_src_base
  else if negb (msp_owa_out_base =? 0) && (reg =? TRID_MSP_OWA_OUT_SRC_PHYS) then msp_owa_out_base
  else 0.

Definition readl (a : Z) : A Z := fun s =>
  let '(v, h) := hw_read a (dev s) in ADone (u32 v) (set_dev h s).
Definition writel (v a : Z) : A unit := amod (fun s => set_dev (hw_write a (u32 v) (dev s)) s).

Definition trid_reg_read (reg : Z) : A Z :=
  let addr := trid_translate_reg reg in if addr =? 0 then mret 0 else readl addr.

Definition trid_reg_write (reg val : Z) : A unit :=
  let addr := trid_translate_reg reg in if addr =? 0 then mret tt else writel val addr.

Definition trid_reg_update_bits (reg mask val : Z) : A unit :=
  let addr := trid_translate_reg reg in
  if addr =? 0 then mret tt else
  tmp ← readl addr;
  writel (bic tmp mask |. (val &. mask)) addr.
End Regs.

(** ** Shared memory (audio_bridge_mem.c) *)

Section Mem.
Context `{Hw : AudHw}.

(** The loops of trid_setup_segments: [n] segments of [size] bytes from
    [offset] on *)
Fixpoint segments (n : nat) (cpu dma offset size : Z) : list trid_dma_segment :=
  match n with
  | O => []
  | S n => Segment (cpu + offset) (dma + offset) size :: segments n cpu dma (offset + size) size
  end.

Definition trid_setup_segments : A unit :=
  cpu ← bget shared_cpu; dma ← bget shared_dma;
  let out := TRID_MAX_ISTREAMS * TRID_SEGMENT_BYTES in
  let dly := out + TRID_MAX_OSTREAMS * TRID_SEGMENT_BYTES in
  bmod (set_istream (segments (Z.to_nat TRID_MAX_ISTREAMS) cpu dma 0 TRID_SEGMENT_BYTES));;
  bmod (set_ostream (segments (Z.to_nat TRID_MAX_OSTREAMS) cpu dma out TRID_SEGMENT_BYTES));;
  bmod (set_delayline (segments (Z.to_nat TRID_MAX_DELAYLINES) cpu dma dly
          (TRID_DELAYLINE_BYTES / TRID_MAX_DELAYLINES))).

(** [cpu] and [dma] are what dma_alloc_coherent gives: zeroed memory, or 0. *)
Definition trid_mem_init (cpu dma : Z) : A Z :=
  bmod (set_shared_cpu cpu);;
  if cpu =? 0 then mret (-12) else
  bmod (set_shared_dma dma);;
  amod (fun s => set_amem (fill (Z.to_nat TRID_SHARED_DMA_BYTES) (amem s) cpu 0) s);;
  trid_setup_segments;;
  mret 0.

Definition trid_mem_exit : A unit :=
  cpu ← bget shared_cpu;
  if cpu =? 0 then mret tt else
  bmod (set_shared_cpu 0);; bmod (set_shared_dma 0).
End Mem.
