(* ===== verification/AudioIf.v ===== *)
(** The interfaces of the audio bridge (src/drivers/audio/bridge/audio_bridge_if.c):
    bridge streams, I2S outputs with their frame rings, S/PDIF, delay lines and
    the two interrupt threads; and the notification of the PCM layer
    (trid_pcm_notify_irq of audio_bridge_pcm.c), which the interrupts call. *)
From S2P Require Import Prelude Mem Audio.

(** [status & mask] as a test *)
Definition has (status mask : Z) : bool := negb (status &. mask =? 0).

Definition trid_audif_known_irq_mask : Z :=
  0x300000 |. 0x77000 |. 0x780 |. 0x8804 |. 0x10007B.

Definition trid_audif_iface_mask (iface : trid_interface_type) : Z :=
  match iface with
  | TRID_IFACE_I2SO0 => 0x40000
  | TRID_IFACE_I2SO1 => 0x20000
  | TRID_IFACE_I2SO2 => 0x10000
  | TRID_IFACE_SPDO0 => 0x8804
  | TRID_IFACE_SPDI0 => 0x300052
  | TRID_IFACE_SPDI1 => 0x300029
  end.

Definition trid_audif_route_value (iface : trid_interface_type) : Z :=
  match iface with
  | TRID_IFACE_I2SO0 => 0x3
  | TRID_IFACE_I2SO1 => 0xc
  | TRID_IFACE_I2SO2 => 0x30
  | TRID_IFACE_SPDI0 => 0x400
  | TRID_IFACE_SPDI1 => 0x800
  | _ => 0
  end.

Definition trid_i2so_data_reg (iface : trid_interface_type) : Z :=
  match iface with
  | TRID_IFACE_I2SO0 => TRID_AUDIF_ABPO1_DATA
  | TRID_IFACE_I2SO1 => TRID_AUDIF_ABPO2_DATA
  | TRID_IFACE_I2SO2 => TRID_AUDIF_ABPO3_DATA
  | _ => 0
  end.

Definition trid_i2so_clk_reg (iface : trid_interface_type) : Z :=
  match iface with
  | TRID_IFACE_I2SO0 => TRID_AUDIF_ABPO1_CLK
  | TRID_IFACE_I2SO1 => TRID_AUDIF_ABPO2_CLK
  | TRID_IFACE_I2SO2 => TRID_AUDIF_ABPO3_CLK
  | _ => 0
  end.

Definition is_spdi1 (iface : trid_interface_type) : bool :=
  match iface with TRID_IFACE_SPDI1 => true | _ => false end.
Definition trid_spdi_cfg_reg (iface : trid_interface_type) : Z :=
  if is_spdi1 iface then TRID_AUDIF_SPDI2_CFG else TRID_AUDIF_SPDI1_CFG.
Definition trid_spdi_data_reg (iface : trid_interface_type) : Z :=
  if is_spdi1 iface then TRID_AUDIF_SPDI2_DATA else TRID_AUDIF_SPDI1_DATA.
Definition trid_spdi_status_reg (iface : trid_interface_type) : Z :=
  if is_spdi1 iface then TRID_AUDIF_SPDI2_STATUS else TRID_AUDIF_SPDI1_STATUS.

Definition trid_spdo_rate_code (rate : Z) : Z :=
  if rate =? 32000 then 0x3 else if rate =? 44100 then 0x0 else if rate =? 48000 then 0x2
  else if rate =? 88200 then 0x8 else if rate =? 96000 then 0xA else if rate =? 176400 then 0xC
  else if rate =? 192000 then 0xE else 0x2.

Definition trid_delayline_reg (line : Z) : Z :=
  if line =? 0 then TRID_AUDIF_DLY1_REG else if line =? 1 then TRID_AUDIF_DLY2_REG
  else if line =? 2 then TRID_AUDIF_DLY3_REG else if line =? 3 then TRID_AUDIF_DLY4_REG else 0.

(** The mask and the value that the code returns through pointers *)
Definition trid_delayline_cfg_bits (line : Z) (open run : bool) : Z * Z :=
  let bits lo := (GENMASK (lo + 1) lo,
                  (if open then BIT lo else 0) |. (if run then BIT (lo + 1) else 0)) in
  if line =? 0 then bits 6 else if line =? 1 then bits 4
  else if line =? 2 then bits 2 else if line =? 3 then bits 0 else (0, 0).

Definition trid_sample_width_code (sample_bits : Z) : Z :=
  if sample_bits =? 32 then 1 else if sample_bits =? 24 then 1 else 0.

Definition upper_32_bits (x : Z) : Z := u32 (Z.shiftr x 32).
Definition lower_32_bits (x : Z) : Z := u32 x.
Definition ALIGN16 (x : Z) : Z := bic (u32 (x + 15)) 15.

Section If.
Context `{Hw : AudHw} {W : AudWin}.

(** DIV_ROUND_CLOSEST_ULL: the division is do_div, whose divisor has 32 bits. *)
Definition div_round_closest (x d : Z) : A Z :=
  if u32 d =? 0 then astop DivByZero else mret ((x + d / 2) / u32 d).

Definition trid_audbrg_irq_enable (enable : bool) : A unit :=
  trid_reg_update_bits TRID_AUDBRG_GLOBAL_IRQ_EN (BIT 0) (if enable then BIT 0 else 0).

Definition trid_i2so_program_fs (iface : trid_interface_type) (rate channels sample_bits : Z) : A unit :=
  let clk_reg := trid_i2so_clk_reg iface in
  if (clk_reg =? 0) || (rate =? 0) then mret tt else
  let bitclock := rate * Z.max channels 1 * Z.max sample_bits 16 in
  let frame_clk := rate + Z.shiftr bitclock 8 in
  if frame_clk =? 0 then mret tt else
  div_fp16 ← div_round_closest (Z.shiftl 324000000 16) frame_clk;
  trid_reg_write clk_reg (u32 div_fp16).

Definition trid_spdo_program (rate channels sample_bits : Z) : A unit :=
  let wide := 24 <=? sample_bits in
  let cfg0 := Z.shiftl (channels &. 0x1f) 8 |. (if wide then BIT 11 else 0) |. BIT 18 in
  let cfg1 := Z.shiftl (sample_bits &. 0xff) 24 |. Z.shiftl (channels &. 0x3) 5 |. (if wide then 1 else 0) in
  let cfg2 := Z.shiftl (trid_spdo_rate_code rate &. 0xF) 4 in
  let cfg3 := Z.shiftl (if negb (sample_bits =? 16) then 1 else 0) 31 |. Z.shiftl (sample_bits &. 0xF) 24 in
  trid_reg_write TRID_AUDIF_SPDO_CFG0 cfg0;;
  trid_reg_write TRID_AUDIF_SPDO_CFG1 cfg1;;
  trid_reg_write TRID_AUDIF_SPDO_CFG2 cfg2;;
  trid_reg_write TRID_AUDIF_SPDO_CFG3 cfg3;;
  if rate =? 0 then mret tt else
  mclk_div ← div_round_closest (Z.shiftl 1296000000 5) (rate * Z.max channels 2);
  old_div ← trid_reg_read TRID_AUDIF_SPDO_DIV;
  trid_reg_write TRID_AUDIF_SPDO_DIV ((old_div &. 0xFF) |. Z.shiftl (u32 mclk_div) 8);;
  trid_reg_write TRID_AUDIF_SPDO_DATA 0;;
  trid_reg_write TRID_AUDIF_IRQ_ROUTE TRID_AUDIF_SPDO_DATA.

Definition trid_audif_irq_enable (iface : trid_interface_type) (enable : bool) : A unit :=
  let mask := trid_audif_iface_mask iface in
  if mask =? 0 then mret tt else
  awhen enable (trid_reg_write TRID_AUDIF_IRQ_STATUS mask);;
  cur ← trid_reg_read TRID_AUDIF_IRQ_MASK;
  let cur := if enable then cur |. mask else bic cur mask in
  trid_reg_write TRID_AUDIF_IRQ_MASK cur;;
  bmod (set_audif_irq_mask cur);;
  awhen (enable && negb (trid_audif_route_value iface =? 0))
    (trid_reg_write TRID_AUDIF_IRQ_ROUTE (trid_audif_route_value iface)).

(** ** Delay lines *)

Definition trid_delayline_apply_state (line : Z) : A unit :=
  open ← elt delayline_open line;
  run ← elt delayline_running line;
  let '(mask, value) := trid_delayline_cfg_bits line open run in
  if mask =? 0 then mret tt else trid_reg_update_bits TRID_AUDIF_DLY_CFG mask value.

Definition trid_delayline_open_locked (line : Z) : A Z :=
  let reg := trid_delayline_reg line in
  if reg =? 0 then mret (-22) else
  trid_reg_write TRID_AUDIF_IRQ_ROUTE reg;;
  trid_reg_write TRID_AUDIF_IRQ_STATUS (BIT (7 - line));;
  eltmod delayline_open set_delayline_open line (fun _ => true);;
  eltmod delayline_running set_delayline_running line (fun _ => false);;
  trid_delayline_apply_state line;;
  mret 0.

Definition trid_delayline_stop_locked (line : Z) : A Z :=
  let reg := trid_delayline_reg line in
  if reg =? 0 then mret (-22) else
  eltmod delayline_running set_delayline_running line (fun _ => false);;
  eltmod delayline_open set_delayline_open line (fun _ => false);;
  eltmod delayline_ticks set_delayline_ticks line (fun _ => 0);;
  trid_reg_write reg 0;;
  trid_delayline_apply_state line;;
  mret 0.

Definition trid_delayline_set (line delay_ticks : Z) : A Z :=
  if TRID_MAX_DELAYLINES <=? line then mret (-22) else
  if delay_ticks =? 0 then trid_delayline_stop_locked line else
  open ← elt delayline_open line;
  failed ← (if open : bool then mret 0 else trid_delayline_open_locked line);
  if negb (failed =? 0) then mret (-22) else
  let reg := trid_delayline_reg line in
  if reg =? 0 then mret (-22) else
  let ticks := delay_ticks &. 0x1FFFF in
  trid_reg_write reg ticks;;
  trid_reg_write TRID_AUDIF_IRQ_ROUTE reg;;
  eltmod delayline_ticks set_delayline_ticks line (fun _ => ticks);;
  eltmod delayline_open set_delayline_open line (fun _ => true);;
  eltmod delayline_running set_delayline_running line (fun _ => true);;
  let '(mask, value) := trid_delayline_cfg_bits line true true in
  trid_reg_update_bits TRID_AUDIF_DLY_CFG mask value;;
  mret 0.

(** ** Notification of the PCM layer (audio_bridge_pcm.c) *)

Definition timer_pending (st : trid_stream_state) : bool :=
  match timer st with Some _ => true | None => false end.

(** snd_pcm_period_elapsed is outside the driver: the model records it. *)
Definition snd_pcm_period_elapsed (sub : Z) : A unit :=
  amod (fun s => set_elapsed (elapsed s ++ [sub]) s).

(** One round of either loop; [audif] is the mask that wakes the stream from the
    AudIf interrupt, [brg] from the bridge's. *)
Definition notify_stream (audif_irq : bool) (status audif brg : Z) (st : trid_stream_state) : A unit :=
  if negb (running st) || (substream st =? 0) then mret tt else
  awhen (negb (timer_pending st) &&
         ((audif_irq && has status audif) || (negb audif_irq && has status brg)))
    (snd_pcm_period_elapsed (substream st)).

Fixpoint notify_streams (audif_irq : bool) (status brg : Z) (mask : trid_stream_state -> Z)
    (l : list trid_stream_state) : A unit :=
  match l with
  | [] => mret tt
  | st :: l =>
      notify_stream audif_irq status (mask st) brg st;; notify_streams audif_irq status brg mask l
  end.

Definition is_spdo0 (i : trid_interface_type) : bool := match i with TRID_IFACE_SPDO0 => true | _ => false end.

(** The second loop looks at the first TRID_MAX_OSTREAMS capture streams. *)
Definition trid_pcm_notify_irq (audif_irq : bool) (status : Z) : A unit :=
  ps ← bget playback; cs ← bget captures;
  notify_streams audif_irq status 0x30 (fun st => if is_spdo0 (iface st) then 0x8804 else 0x77000) ps;;
  notify_streams audif_irq status 0x3C00 (fun _ => 0x10007B) (take (Z.to_nat TRID_MAX_OSTREAMS) cs).

(** ** I2S outputs *)

(** Frames queued in the ring: [(wr - rd) & 0x1F] *)
Definition ring_count (st : trid_i2so_state) : Z := u32 (frame_write st - frame_read st) &. 0x1F.

Definition frame_at (st : trid_i2so_state) (i : Z) : A trid_i2so_frame := fun s =>
  match frames st !! Z.to_nat i with Some f => ADone f s | None => AStop OutOfBounds end.

Definition trid_i2so_init : A unit :=
  let chan data clk mask route := I2so 0 data clk mask route route 0 0 0 0 0 0 (replicate 32 (I2soFrame 0 0)) in
  mod_i2so 0 (fun _ => chan TRID_AUDIF_ABPO1_DATA TRID_AUDIF_ABPO1_CLK 0x40000 0x3);;
  mod_i2so 1 (fun _ => chan TRID_AUDIF_ABPO2_DATA TRID_AUDIF_ABPO2_CLK 0x20000 0xC);;
  mod_i2so 2 (fun _ => chan TRID_AUDIF_ABPO3_DATA TRID_AUDIF_ABPO3_CLK 0x10000 0x30).

Definition trid_i2so_open (ch : Z) : A Z :=
  if TRID_MAX_I2SO <=? ch then mret (-22) else
  s ← get_i2so ch;
  if negb (i2so_st s =? 0) then mret 0 else
  mod_i2so ch (fun s => set_i2so_st 1 (set_frame_read 0 (set_frame_write 0 (set_data_word 0
    (set_i2so_channels 0 (set_i2so_rate 0xFFFF s))))));;
  trid_reg_write TRID_AUDIF_IRQ_STATUS (w1c_mask s);;
  trid_reg_write TRID_AUDIF_SPDS_STATUS (spds_w1c s);;
  cur ← trid_reg_read TRID_AUDIF_IRQ_MASK;
  trid_reg_write TRID_AUDIF_IRQ_MASK (cur |. w1c_mask s);;
  mask ← bget audif_irq_mask;
  bmod (set_audif_irq_mask (mask |. w1c_mask s));;
  mret 0.

Definition trid_i2so_close (ch : Z) : A unit :=
  if TRID_MAX_I2SO <=? ch then mret tt else
  s ← get_i2so ch;
  mod_i2so ch (fun s => set_frame_read 0 (set_frame_write 0 (set_i2so_st 0 s)));;
  cur ← trid_reg_read TRID_AUDIF_IRQ_MASK;
  trid_reg_write TRID_AUDIF_IRQ_MASK (bic cur (w1c_mask s));;
  mask ← bget audif_irq_mask;
  bmod (set_audif_irq_mask (bic mask (w1c_mask s))).

Definition fs_divider (rate : Z) : Z :=
  let integer_part := 324000000 / rate in
  let remainder := 324000000 mod rate in
  let frac_part := Z.shiftr (u32 (u32 (Z.shiftl remainder 9) / rate + 1)) 1 in
  u32 (u32 (Z.shiftl integer_part 8) + frac_part).

Definition trid_i2so_set_fs (ch rate channels : Z) : A unit :=
  s ← get_i2so ch;
  if rate =? 0 then mret tt else
  trid_reg_write (clk_reg s) (u32 (Z.shiftl (fs_divider rate) 8)).

Definition trid_i2so_new_frame (ch rate channels : Z) : A Z :=
  if TRID_MAX_I2SO <=? ch then mret (-22) else
  s ← get_i2so ch;
  let wr := frame_write s in
  let rd := frame_read s in
  if ring_count s =? 0x1F then mret (-28) else
  let was_empty := ring_count s =? 0 in
  _ ← frame_at s (wr &. 0x1F);
  let fs := <[Z.to_nat (wr &. 0x1F) := I2soFrame rate channels]> (frames s) in
  mod_i2so ch (fun s => set_frame_write (u32 (wr + 1) &. 0x1F) (set_frames fs s));;
  if was_empty then
    s ← get_i2so ch;
    f ← frame_at s (rd &. 0x1F);
    mod_i2so ch (set_data_word (frame_format f &. 0xFFFF));;
    trid_reg_write (data_reg s) (frame_format f &. 0xFFFF);;
    mret 0
  else mret 0.

Definition trid_i2so_activate (ch : Z) : A unit :=
  s ← get_i2so ch;
  mod_i2so ch (set_i2so_st 3);;
  trid_reg_write (data_reg s) (data_word s);;
  trid_i2so_set_fs ch (i2so_rate s) (i2so_channels s);;
  trid_reg_write TRID_AUDIF_IRQ_ROUTE (irq_route s).

Definition trid_i2so_start (ch rate channels sample_bits : Z) : A Z :=
  if TRID_MAX_I2SO <=? ch then mret (-22) else
  ret ← trid_i2so_open ch;
  if negb (ret =? 0) then mret ret else
  mod_i2so ch (fun s => set_i2so_bits sample_bits (set_i2so_channels channels (set_i2so_rate rate s)));;
  ret ← trid_i2so_new_frame ch rate channels;
  if negb (ret =? 0) && negb (ret =? -28) then mret ret else
  trid_i2so_activate ch;;
  mret 0.

Definition trid_i2so_stop (ch : Z) : A unit :=
  if TRID_MAX_I2SO <=? ch then mret tt else trid_i2so_close ch.

Definition trid_i2so_irq_channel (ch : Z) : A unit :=
  s ← get_i2so ch;
  if i2so_st s <? 1 then mret tt else
  let rd := frame_read s in
  if ring_count s =? 0 then mret tt else
  (if 1 <? ring_count s then
     f ← frame_at s (u32 (rd + 1) &. 0x1F);
     mod_i2so ch (set_data_word (frame_format f &. 0xFFFF));;
     trid_reg_write (data_reg s) (frame_format f &. 0xFFFF)
   else mret tt);;
  mod_i2so ch (set_frame_read (u32 (rd + 1) &. 0x1F));;
  trid_reg_write TRID_AUDIF_SPDS_STATUS (spds_w1c s).

(** ** Interrupt handlers of the interfaces *)

Definition trid_handle_i2so_irq (status : Z) : A unit :=
  awhen (has status 0x40000) (trid_i2so_irq_channel 0);;
  awhen (has status 0x20000) (trid_i2so_irq_channel 1);;
  awhen (has status 0x10000) (trid_i2so_irq_channel 2);;
  trid_pcm_notify_irq true (status &. 0x77000).

Definition trid_handle_spdo_irq (status : Z) : A unit := trid_pcm_notify_irq true (status &. 0x8804).

Definition set_spdi (ch : Z) (st : trid_spdi_state) : A unit :=
  eltmod spdi_state set_spdi_state ch (fun _ => st).

Definition trid_spdi_run_channel (ch : Z) (iface : trid_interface_type) (main_status err_bit : Z) : A unit :=
  if has main_status err_bit then
    spds ← trid_reg_read TRID_AUDIF_SPDS_STATUS;
    trid_reg_write TRID_AUDIF_SPDS_STATUS spds
  else
  local_status ← trid_reg_read (trid_spdi_status_reg iface);
  let sync_bits := local_status &. 3 in
  st ← elt (X:=trid_spdi_state) spdi_state ch;
  match st with
  | TRID_SPDI_WAITING_SYNC =>
      if sync_bits =? 1 then
        _ ← trid_reg_read (trid_spdi_data_reg iface);
        trid_reg_write (trid_spdi_cfg_reg iface) local_status;;
        set_spdi ch TRID_SPDI_RUNNING
      else mret tt
  | TRID_SPDI_RUNNING =>
      if sync_bits =? 2 then trid_pcm_notify_irq true main_status
      else if sync_bits =? 1 then
        _ ← trid_reg_read (trid_spdi_data_reg iface);
        trid_reg_write (trid_spdi_cfg_reg iface) local_status
      else
        trid_reg_write (trid_spdi_cfg_reg iface) 0;;
        set_spdi ch TRID_SPDI_WAITING_SYNC
  | TRID_SPDI_IDLE => mret tt
  end.

Definition trid_handle_spdi_irq (status : Z) : A unit :=
  awhen (has status 0x42) (trid_spdi_run_channel 0 TRID_IFACE_SPDI0 status 0x40);;
  awhen (has status 0x21) (trid_spdi_run_channel 1 TRID_IFACE_SPDI1 status 0x20).

Definition trid_handle_spds_irq (status : Z) : A unit := trid_pcm_notify_irq true (status &. 0x300000).

Definition trid_handle_dly_irq (status : Z) : A unit :=
  awhen (has status (BIT 10)) (trid_delayline_apply_state 0);;
  awhen (has status (BIT 9)) (trid_delayline_apply_state 1);;
  awhen (has status (BIT 8)) (trid_delayline_apply_state 2);;
  awhen (has status (BIT 7)) (trid_delayline_apply_state 3).

(** ** Bridge streams *)

Definition trid_audbrg_irq_ack (mask : Z) : A unit := trid_reg_update_bits TRID_AUDBRG_IRQ_STATUS mask mask.

Definition trid_istream_irq_enable (stream : Z) (enable : bool) : A unit :=
  if TRID_MAX_ISTREAMS <=? stream then mret tt else
  let bit := BIT (stream + 10) in
  trid_reg_update_bits TRID_AUDBRG_IRQ_MASK bit (if enable then bit else 0);;
  trid_audbrg_irq_ack bit.

Definition trid_ostream_irq_enable (stream : Z) (enable : bool) : A unit :=
  if TRID_MAX_OSTREAMS <=? stream then mret tt else
  let bit := BIT (stream + 4) in
  trid_reg_update_bits TRID_AUDBRG_IRQ_MASK bit (if enable then bit else 0);;
  trid_audbrg_irq_ack bit.

Definition trid_flush_stream (reg : Z) : A unit :=
  trid_reg_update_bits reg (BIT 0) (BIT 0);;
  trid_reg_update_bits reg (BIT 0) 0.

(** The stores the two stream configurations share *)
Definition stream_window (base dma size step cfg : Z) : A unit :=
  trid_reg_write (base + TRID_STREAM_REG_START) (Z.shiftr (lower_32_bits dma) 4 &. 0x00FFFFFF);;
  trid_reg_write (base + TRID_STREAM_REG_END) (Z.shiftr (lower_32_bits (dma + size - 1)) 4 &. 0x00FFFFFF);;
  trid_reg_write (base + TRID_STREAM_REG_STEP) (Z.shiftr step 4);;
  trid_reg_write (base + TRID_STREAM_REG_CFG) cfg;;
  trid_reg_write TRID_AUDBRG_STREAM_SYNC 0.

Definition trid_istream_config (stream rate channels sample_bits period_bytes : Z) (irq_enable : bool) : A Z :=
  if TRID_MAX_ISTREAMS <=? stream then mret (-22) else
  seg ← elt (X:=trid_dma_segment) istream stream;
  let dma := seg_dma seg in
  let size := seg_size seg in
  let base := TRID_AUDBRG_ISTREAM_BASE stream in
  let step := ALIGN16 period_bytes in
  let step := if (step =? 0) || (size <? step) then size else step in
  let bps := sample_bits / 8 in
  let wflag := if 16 <? sample_bits then 1 else 0 in
  let fcode := if sample_bits <=? 16 then 2 else 1 in
  let end_field := Z.shiftr (lower_32_bits (dma + size - 1)) 4 &. 0xFF in
  let cfg := end_field |. Z.shiftl (bps &. 0x7) 8 |. Z.shiftl wflag 11 |. Z.shiftl (fcode &. 0x3) 12
             |. Z.shiftl (channels &. 0x7) 14 in
  trid_reg_update_bits TRID_HIGH_ADDR_CTL_PHYS (GENMASK 3 0) (upper_32_bits dma);;
  stream_window base dma size step cfg;;
  trid_istream_irq_enable stream irq_enable;;
  mret 0.

Definition trid_ostream_config (stream rate channels sample_bits period_bytes : Z) (irq_enable : bool) : A Z :=
  if TRID_MAX_OSTREAMS <=? stream then mret (-22) else
  seg ← elt (X:=trid_dma_segment) ostream stream;
  let dma := seg_dma seg in
  let size := seg_size seg in
  let base := TRID_AUDBRG_OSTREAM_BASE stream in
  let step := ALIGN16 period_bytes in
  let step := if (step =? 0) || (size <? step) then Z.min size 3072 else step in
  let cfg := Z.shiftl (channels &. 0x1f) 8 |. Z.shiftl (trid_sample_width_code sample_bits) 11 in
  trid_reg_update_bits TRID_HIGH_ADDR_CTL_PHYS (GENMASK 7 4) (u32 (Z.shiftl (upper_32_bits dma) 4));;
  stream_window base dma size step cfg;;
  trid_ostream_irq_enable stream irq_enable;;
  mret 0.

Definition trid_i2so_config (iface : trid_interface_type) (rate channels sample_bits period_bytes : Z)
    (irq_enable : bool) : A Z :=
  match (match iface with TRID_IFACE_I2SO0 => Some 0 | TRID_IFACE_I2SO1 => Some 1
         | TRID_IFACE_I2SO2 => Some 2 | _ => None end) with
  | None => mret (-22)
  | Some stream =>
      awhen (negb (trid_i2so_data_reg iface =? 0)) (trid_reg_write (trid_i2so_data_reg iface) 0);;
      trid_i2so_program_fs iface rate channels sample_bits;;
      trid_audif_irq_enable iface irq_enable;;
      trid_istream_config stream rate channels sample_bits period_bytes irq_enable
  end.

Definition trid_spdi_config (iface : trid_interface_type) (rate channels sample_bits period_bytes : Z)
    (irq_enable : bool) : A Z :=
  match (match iface with TRID_IFACE_SPDI0 => Some 0 | TRID_IFACE_SPDI1 => Some 1 | _ => None end) with
  | None => mret (-22)
  | Some stream =>
      trid_reg_write (trid_spdi_cfg_reg iface) 0;;
      trid_reg_write (if is_spdi1 iface then TRID_AUDIF_SPDI2_STATUS else TRID_AUDIF_SPDI1_STATUS) rate;;
      set_spdi stream TRID_SPDI_WAITING_SYNC;;
      trid_audif_irq_enable iface irq_enable;;
      trid_ostream_config stream rate channels sample_bits period_bytes irq_enable
  end.

Definition trid_istream_start (stream : Z) : A Z :=
  if TRID_MAX_ISTREAMS <=? stream then mret (-22) else
  trid_flush_stream (TRID_AUDBRG_ISTREAM_FLUSH stream);;
  trid_reg_write (TRID_AUDBRG_ISTREAM_UMACREQ stream) 1;;
  trid_reg_write (TRID_AUDBRG_ISTREAM_UMACREQ stream) 0;;
  mret 0.

Definition trid_istream_stop (stream : Z) : A Z :=
  if TRID_MAX_ISTREAMS <=? stream then mret (-22) else
  trid_istream_irq_enable stream false;;
  trid_reg_write (TRID_AUDBRG_ISTREAM_UMACREQ stream) 0;;
  trid_flush_stream (TRID_AUDBRG_ISTREAM_FLUSH stream);;
  mret 0.

(** [TRID_IFACE_SPDI0 + stream] for a stream below TRID_MAX_OSTREAMS *)
Definition spdi_iface (stream : Z) : trid_interface_type :=
  if stream =? 0 then TRID_IFACE_SPDI0 else TRID_IFACE_SPDI1.

Definition trid_ostream_start (stream : Z) : A Z :=
  if TRID_MAX_OSTREAMS <=? stream then mret (-22) else
  seg ← elt (X:=trid_dma_segment) ostream stream;
  awhen (negb (seg_cpu seg =? 0))
    (amod (fun s => set_amem (fill (Z.to_nat (seg_size seg)) (amem s) (seg_cpu seg) 0) s));;
  trid_audif_irq_enable (spdi_iface stream) true;;
  trid_flush_stream (TRID_AUDBRG_OSTREAM_FLUSH stream);;
  trid_audbrg_irq_enable true;;
  mret 0.

Definition trid_ostream_stop (stream : Z) : A Z :=
  if TRID_MAX_OSTREAMS <=? stream then mret (-22) else
  trid_audif_irq_enable (spdi_iface stream) false;;
  trid_flush_stream (TRID_AUDBRG_OSTREAM_FLUSH stream);;
  mret 0.

Definition trid_iface_prepare (iface : trid_interface_type) (rate channels sample_bits period_bytes : Z)
    (irq_enable : bool) : A Z :=
  match iface with
  | TRID_IFACE_I2SO0 | TRID_IFACE_I2SO1 | TRID_IFACE_I2SO2 =>
      trid_i2so_config iface rate channels sample_bits period_bytes irq_enable
  | TRID_IFACE_SPDO0 =>
      trid_audif_irq_enable iface irq_enable;;
      ret ← trid_ostream_config 1 rate channels sample_bits period_bytes irq_enable;
      if negb (ret =? 0) then mret (-22) else
      trid_spdo_program rate channels sample_bits;;
      mret 0
  | TRID_IFACE_SPDI0 | TRID_IFACE_SPDI1 =>
      trid_spdi_config iface rate channels sample_bits period_bytes irq_enable
  end.

(** ** Initialisation and shutdown *)

Definition owa_source (v : Z) : Z := if v =? 0x2000 then 1 else if v =? 0x6000 then 2 else 0.

Definition trid_audioio_init : A Z :=
  v ← trid_reg_read TRID_AUDIO_TOP_CLK_CTL;
  trid_reg_write TRID_AUDIO_TOP_CLK_CTL (v |. 0x700);;
  v ← trid_reg_read TRID_AUDIO_TOP_CLK_CFG;
  let v := (v &. 0xFF000000) |. 0x001A5E00 in
  trid_reg_write TRID_AUDIO_TOP_CLK_CFG v;;
  trid_reg_write TRID_AUDIO_TOP_CLK_CFG (v |. 0x01000000);;
  trid_reg_write TRID_AUDIF_IRQ_STATUS trid_audif_known_irq_mask;;
  bmod (set_audif_irq_mask 0);;
  trid_reg_write TRID_AUDIF_IRQ_MASK 0;;
  bmod (set_pm_error false);;
  v ← trid_reg_read TRID_ARC_SRC_PHYS;
  bmod (set_arc_source (v &. 0x1));;
  trid_reg_update_bits TRID_ARC_SRC_PHYS (BIT 0) 0;;
  v ← trid_reg_read TRID_MSP_OWA_OUT_SRC_PHYS;
  bmod (set_msp_owa_out_source (owa_source (v &. 0xF000)));;
  set_spdi 0 TRID_SPDI_IDLE;;
  set_spdi 1 TRID_SPDI_IDLE;;
  trid_i2so_init;;
  mret 0.

Definition trid_audioio_exit : A unit :=
  trid_audbrg_irq_enable false;;
  bmod (set_audif_irq_mask 0);;
  trid_reg_write TRID_AUDIF_IRQ_MASK 0.

(** ** Interrupt threads; the result is IRQ_HANDLED *)

Definition trid_audbrg_irq_thread : A bool :=
  status ← trid_reg_read TRID_AUDBRG_IRQ_STATUS;
  let handled := status &. 0x3FFF in
  if handled =? 0 then mret false else
  trid_audbrg_irq_ack handled;;
  trid_pcm_notify_irq false status;;
  mret true.

Definition trid_audif_irq_thread : A bool :=
  status ← trid_reg_read TRID_AUDIF_IRQ_STATUS;
  if status =? 0 then mret false else
  trid_reg_write TRID_AUDIF_IRQ_STATUS status;;
  mask ← bget audif_irq_mask;
  let status := status &. mask in
  if status =? 0 then mret true else
  (if has status 0x300000 then
     m ← trid_reg_read TRID_AUDIF_IRQ_MASK;
     awhen (m &. 0x300000 =? 0x300000) (trid_handle_spds_irq status)
   else mret tt);;
  awhen (has status 0x77000) (trid_handle_i2so_irq status);;
  awhen (has status 0x780) (trid_handle_dly_irq status);;
  awhen (has status 0x8804) (trid_handle_spdo_irq status);;
  awhen (has status 0x10007B) (trid_handle_spdi_irq status);;
  mret true.
End If.
