(* ===== verification/AudioPcm.v ===== *)
(** The PCM layer of the audio bridge (src/drivers/audio/bridge/audio_bridge_pcm.c):
    the callbacks of the ALSA substreams, the period timer that moves the data,
    the mixer controls and the creation of the card.

    A stream is named by its array and its index.  The timer handler is two
    steps, [trid_stream_timer] up to snd_pcm_period_elapsed and
    [trid_stream_rearm] after it: ALSA may call the trigger in between.  The
    waiting of timer_delete_sync for the handler is in the steps of AudioSafe. *)
From S2P Require Import Prelude Mem Audio AudioIf.

(** ** Hardware descriptions *)

Record snd_pcm_hardware := Hardware {
  hw_widths : list Z;               (* physical widths of .formats *)
  hw_rates : list Z;
  channels_min : Z;
  channels_max : Z;
  buffer_bytes_max : Z;
  period_bytes_min : Z;
  period_bytes_max : Z;
  periods_min : Z;
  periods_max : Z;
}.

(** S16_LE has 16 bits; S24_LE and S32_LE are stored in 32. *)
Definition trid_playback_hw : snd_pcm_hardware :=
  Hardware [16; 32; 32] [8000; 11025; 16000; 22050; 32000; 44100; 48000; 96000; 192000] 1 2
    0x20000 256 0x4000 1 8.
Definition trid_capture_hw : snd_pcm_hardware :=
  Hardware [16; 32; 32] [48000] 2 2 0x20000 256 0x4000 1 8.

(** msecs_to_jiffies depends on the tick rate of the kernel. *)
Class AudTime := { msecs_to_jiffies : Z -> Z }.

(** Triggers (include/uapi/sound/asound.h) *)
Definition SNDRV_PCM_TRIGGER_STOP : Z := 0.
Definition SNDRV_PCM_TRIGGER_START : Z := 1.
Definition SNDRV_PCM_TRIGGER_PAUSE_PUSH : Z := 3.
Definition SNDRV_PCM_TRIGGER_PAUSE_RELEASE : Z := 4.
Definition SNDRV_PCM_TRIGGER_SUSPEND : Z := 5.
Definition SNDRV_PCM_TRIGGER_RESUME : Z := 6.

Definition starts (cmd : Z) : bool := existsb (Z.eqb cmd)
  [SNDRV_PCM_TRIGGER_START; SNDRV_PCM_TRIGGER_RESUME; SNDRV_PCM_TRIGGER_PAUSE_RELEASE].
Definition stops (cmd : Z) : bool := existsb (Z.eqb cmd)
  [SNDRV_PCM_TRIGGER_STOP; SNDRV_PCM_TRIGGER_SUSPEND; SNDRV_PCM_TRIGGER_PAUSE_PUSH].

Section Pcm.
Context `{Hw : AudHw} {W : AudWin} {T : AudTime}.

(** ** Streams *)

Definition sref : Type := bool * Z.
Definition streams_of (r : sref) : trid_audio_bridge -> list trid_stream_state :=
  if fst r then captures else playback.
Definition set_streams_of (r : sref) : list trid_stream_state -> trid_audio_bridge -> trid_audio_bridge :=
  if fst r then set_captures else set_playback.

Definition get_stream (r : sref) : A trid_stream_state := elt (streams_of r) (snd r).
Definition mod_stream (r : sref) (f : trid_stream_state -> trid_stream_state) : A unit :=
  eltmod (streams_of r) (set_streams_of r) (snd r) f.

Definition get_sub (p : Z) : A snd_pcm_substream := fun s =>
  match substreams s !! p with Some x => ADone x s | None => AStop NullDeref end.
Definition get_runtime (x : snd_pcm_substream) : A snd_pcm_runtime := fun s =>
  match sub_runtime x with Some rt => ADone rt s | None => AStop NullDeref end.

(** [None] is NULL. *)
Definition trid_get_stream (x : snd_pcm_substream) : option sref :=
  if negb (sub_capture x) then Some (false, sub_device x)
  else if TRID_MAX_OSTREAMS <=? sub_device x then None
  else Some (true, sub_device x).

Definition trid_playback_iface (devno : Z) : trid_interface_type :=
  if devno =? 0 then TRID_IFACE_I2SO0 else if devno =? 1 then TRID_IFACE_I2SO1
  else if devno =? 2 then TRID_IFACE_I2SO2 else TRID_IFACE_SPDO0.
Definition trid_capture_iface (devno : Z) : trid_interface_type :=
  if negb (devno =? 0) then TRID_IFACE_SPDI1 else TRID_IFACE_SPDI0.

(** ** The copy between rings *)

(** [x % d] on size_t *)
Definition arem (x d : Z) : A Z := if d =? 0 then astop DivByZero else mret (u32 x mod d).

Definition memcpy (dst src n : Z) : A unit :=
  amod (fun s => set_amem (wrbytes (amem s) dst (bytes (Z.to_nat n) (amem s) src)) s).

(** The loop body takes at least a byte off [bytes], except where an offset is
    at the end of its ring, and then the next one does: [bytes + 2] rounds are
    enough. *)
Fixpoint copy_ring (fuel : nat) (dst dst_size dst_off src src_size src_off n : Z) : A unit :=
  match fuel with
  | O => astop Endless
  | S fuel =>
      if n =? 0 then mret tt else
      let dst_chunk := Z.min n (u32 (dst_size - dst_off)) in
      let src_chunk := Z.min n (u32 (src_size - src_off)) in
      let chunk := Z.min dst_chunk src_chunk in
      memcpy (dst + dst_off) (src + src_off) chunk;;
      dst_off ← arem (dst_off + chunk) dst_size;
      src_off ← arem (src_off + chunk) src_size;
      copy_ring fuel dst dst_size dst_off src src_size src_off (n - chunk)
  end.

Definition trid_copy_ring (dst dst_size dst_off src src_size src_off n : Z) : A unit :=
  copy_ring (Z.to_nat n + 2) dst dst_size dst_off src src_size src_off n.

Definition trid_stream_transfer (r : sref) : A unit :=
  stream ← get_stream r;
  if substream stream =? 0 then mret tt else
  sub ← get_sub (substream stream);
  match sub_runtime sub with
  | None => mret tt
  | Some runtime =>
      if dma_area runtime =? 0 then mret tt else
      segment ← elt (if capture stream then ostream else istream) (hw_stream stream);
      (if capture stream then
         trid_copy_ring (dma_area runtime) (buffer_bytes stream) (hw_ptr_bytes stream)
           (seg_cpu segment) (seg_size segment) (bridge_offset stream) (period_bytes stream)
       else
         trid_copy_ring (seg_cpu segment) (seg_size segment) (bridge_offset stream)
           (dma_area runtime) (buffer_bytes stream) (hw_ptr_bytes stream) (period_bytes stream));;
      hp ← arem (hw_ptr_bytes stream + period_bytes stream) (buffer_bytes stream);
      mod_stream r (set_hw_ptr_bytes hp);;
      off ← arem (bridge_offset stream + period_bytes stream) (seg_size segment);
      mod_stream r (set_bridge_offset off)
  end.

(** ** The timer *)

Definition trid_period_jiffies (stream : trid_stream_state) : Z :=
  let frame_bytes := Z.max 1 (u32 (sample_bits stream / 8 * channels stream)) in
  let d := Z.max 1 (u32 (frame_bytes * rate stream)) in
  let ms := u32 (u32 (period_bytes stream * 1000) + d - 1) / d in
  Z.max 1 (msecs_to_jiffies (Z.max 1 ms)).

Definition mod_timer (r : sref) (at_jiffies : Z) : A unit := mod_stream r (set_timer (Some at_jiffies)).
Definition timer_delete (r : sref) : A unit := mod_stream r (set_timer None).

(** The timer expires and the handler runs up to the call of
    snd_pcm_period_elapsed; [true]: [trid_stream_rearm] follows. *)
Definition trid_stream_timer (r : sref) : A bool :=
  timer_delete r;;
  stream ← get_stream r;
  if negb (running stream) || (substream stream =? 0) then mret false else
  trid_stream_transfer r;;
  snd_pcm_period_elapsed (substream stream);;
  mret true.

Definition trid_stream_rearm (r : sref) : A unit :=
  stream ← get_stream r;
  if running stream then
    j ← aget jiffies;
    mod_timer r (j + trid_period_jiffies stream)
  else mret tt.

(** ** Callbacks of a substream *)

Definition trid_pcm_open (p : Z) : A Z :=
  sub ← get_sub p;
  match trid_get_stream sub with
  | None => mret (-19)
  | Some r =>
      let cap := sub_capture sub in
      let devno := sub_device sub in
      mod_stream r (fun st =>
        set_timer None (set_bridge_offset 0 (set_hw_ptr_bytes 0
          (set_hw_stream (if cap then devno mod TRID_MAX_OSTREAMS else devno mod TRID_MAX_ISTREAMS)
          (set_iface (if cap then trid_capture_iface devno else trid_playback_iface devno)
          (set_pcm_dev devno (set_capture cap (set_running false (set_substream p st)))))))));;
      mret 0
  end.

Definition trid_pcm_close (p : Z) : A Z :=
  sub ← get_sub p;
  match trid_get_stream sub with
  | None => mret 0
  | Some r =>
      timer_delete r;;
      mod_stream r (fun st => set_substream 0 (set_running false st));;
      mret 0
  end.

Definition trid_pcm_prepare (p : Z) : A Z :=
  sub ← get_sub p;
  match trid_get_stream sub with
  | None => mret (-19)
  | Some r =>
      rt ← get_runtime sub;
      let period := u32 (period_size rt * rt_frame_bytes rt) in
      mod_stream r (fun st =>
        set_bridge_offset 0 (set_hw_ptr_bytes 0
          (set_buffer_bytes (u32 (buffer_size rt * rt_frame_bytes rt)) (set_period_bytes period
          (set_sample_bits (rt_width rt) (set_rate (rt_rate rt) (set_channels (rt_channels rt) st)))))));;
      stream ← get_stream r;
      trid_iface_prepare (iface stream) (rt_rate rt) (rt_channels rt) (rt_width rt)
        (period_bytes stream) true
  end.

Definition trid_pcm_trigger (p cmd : Z) : A Z :=
  sub ← get_sub p;
  match trid_get_stream sub with
  | None => mret (-19)
  | Some r =>
      if starts cmd then
        mod_stream r (set_running true);;
        stream ← get_stream r;
        awhen (negb (capture stream)) (trid_stream_transfer r);;
        ret ← (if capture stream then trid_ostream_start (hw_stream stream)
               else trid_istream_start (hw_stream stream));
        if ret =? 0 then
          j ← aget jiffies;
          stream ← get_stream r;
          mod_timer r (j + trid_period_jiffies stream);;
          mret ret
        else mret ret
      else if stops cmd then
        mod_stream r (set_running false);;
        timer_delete r;;
        stream ← get_stream r;
        if capture stream then trid_ostream_stop (hw_stream stream)
        else trid_istream_stop (hw_stream stream)
      else mret (-22)
  end.

(** bytes_to_frames *)
Definition trid_pcm_pointer (p : Z) : A Z :=
  sub ← get_sub p;
  match trid_get_stream sub with
  | None => mret 0
  | Some r =>
      stream ← get_stream r;
      rt ← get_runtime sub;
      if rt_frame_bytes rt =? 0 then astop DivByZero else
      mret (hw_ptr_bytes stream / rt_frame_bytes rt)
  end.

(** ** Mixer controls: a get returns the value, a put whether it changed it *)

Definition trid_delayline_get (idx : Z) : A Z := elt delayline_ms idx.

Definition delay_ticks (val : Z) : Z := u32 (u32 (48768 * val) + 500) / 1000.

Definition trid_delayline_put (idx value : Z) : A Z :=
  let val := Z.min (u32 value) 500 in
  ms ← elt delayline_ms idx;
  if ms =? val then mret 0 else
  _ ← trid_delayline_set idx (delay_ticks val);
  eltmod delayline_ms set_delayline_ms idx (fun _ => val);;
  mret 1.

Definition trid_arc_source_get : A Z :=
  v ← trid_reg_read TRID_ARC_SRC_PHYS;
  bmod (set_arc_source (v &. 0x1));;
  bget arc_source.

Definition trid_arc_source_put (item : Z) : A Z :=
  let val := if item =? 0 then 0 else 1 in
  cur ← bget arc_source;
  if cur =? val then mret 0 else
  bmod (set_arc_source val);;
  trid_reg_update_bits TRID_ARC_SRC_PHYS (BIT 0) (if negb (val =? 0) then BIT 0 else 0);;
  mret 1.

Definition trid_msp_owa_out_get : A Z :=
  v ← trid_reg_read TRID_MSP_OWA_OUT_SRC_PHYS;
  bmod (set_msp_owa_out_source (owa_source (v &. 0xF000)));;
  bget msp_owa_out_source.

Definition owa_bits (val : Z) : Z := if val =? 1 then 0x2000 else if val =? 2 then 0x6000 else 0.

Definition trid_msp_owa_out_put (item : Z) : A Z :=
  let val := u32 item in
  if 3 <=? val then mret (-22) else
  cur ← bget msp_owa_out_source;
  if cur =? val then mret 0 else
  bmod (set_msp_owa_out_source val);;
  trid_reg_update_bits TRID_MSP_OWA_OUT_SRC_PHYS 0xF000 (owa_bits val);;
  mret 1.

(** ** The card: what the ALSA calls return are arguments *)

Definition trid_create_pcm (pcm_new : Z -> Z) (device : Z) : A Z :=
  if pcm_new device <? 0 then mret (pcm_new device) else
  eltmod pcm set_pcm device (fun _ => true);;
  mret 0.

(** The creations in order up to the first failure *)
Fixpoint first_failure (l : list (A Z)) : A Z :=
  match l with
  | [] => mret 0
  | m :: l => ret ← m; if ret <? 0 then mret ret else first_failure l
  end.

Fixpoint init_delayline_ms (n : nat) (i : Z) : A unit :=
  match n with
  | O => mret tt
  | S n => eltmod delayline_ms set_delayline_ms i (fun _ => 100);; init_delayline_ms n (i + 1)
  end.

Definition trid_register_pcm (card_new : Z) (pcm_new ctl_add : Z -> Z) (card_register : Z) : A Z :=
  if card_new <? 0 then mret card_new else
  bmod (set_card true);;
  init_delayline_ms (Z.to_nat TRID_MAX_DELAYLINES) 0;;
  ret ← first_failure (map (trid_create_pcm pcm_new) (seqZ 0 TRID_MAX_PCMS)
          ++ map (fun i => mret (ctl_add i)) (seqZ 0 6) ++ [mret card_register]);
  if ret <? 0 then bmod (set_card false);; mret ret else
  mret 0.

Definition trid_unregister_pcm : A unit :=
  c ← bget card;
  if negb c then mret tt else bmod (set_card false).
End Pcm.
