(* ===== verification/AudioCore.v ===== *)
(** The device of the audio bridge (src/drivers/audio/bridge/audio_bridge_core.c):
    suspend and resume, by the power management or by the misc device's ioctl,
    probe and remove. *)
From S2P Require Import Prelude Mem Audio AudioIf AudioPcm.

Section Core.
Context `{Hw : AudHw} {W : AudWin} {T : AudTime}.

(** ** Suspend and resume *)

Definition trid_suspend_stream (r : sref) : A unit :=
  st ← get_stream r;
  if substream st =? 0 then mret tt else
  mod_stream r (set_resume_running (running st));;
  if negb (running st) then mret tt else
  timer_delete r;;
  _ ← (if capture st then trid_ostream_stop (hw_stream st) else trid_istream_stop (hw_stream st));
  mod_stream r (set_running false).

Fixpoint suspend_array (l : list sref) : A unit :=
  match l with
  | [] => mret tt
  | r :: l => trid_suspend_stream r;; suspend_array l
  end.

(** The rounds of trid_resume_stream_array: 0, or the error that ends the loop *)
Definition trid_resume_stream (r : sref) : A Z :=
  st ← get_stream r;
  if substream st =? 0 then mret 0 else
  ret ← trid_iface_prepare (iface st) (rate st) (channels st) (sample_bits st) (period_bytes st) true;
  if negb (ret =? 0) then mret ret else
  if negb (resume_running st) then mret 0 else
  ret ← (if capture st then trid_ostream_start (hw_stream st) else trid_istream_start (hw_stream st));
  if negb (ret =? 0) then mret ret else
  mod_stream r (set_running true);;
  j ← aget jiffies;
  mod_timer r (j + 1);;
  mret 0.

Fixpoint resume_array (l : list sref) : A Z :=
  match l with
  | [] => mret 0
  | r :: l => ret ← trid_resume_stream r; if negb (ret =? 0) then mret ret else resume_array l
  end.

Definition stream_refs (cap : bool) (count : Z) : list sref := (fun i => (cap, i)) <$> seqZ 0 count.

Definition trid_suspend_streams : A unit :=
  suspend_array (stream_refs false TRID_MAX_PCMS);;
  suspend_array (stream_refs true TRID_MAX_OSTREAMS).

Definition trid_resume_streams : A Z :=
  ret ← resume_array (stream_refs false TRID_MAX_PCMS);
  if negb (ret =? 0) then mret ret else
  resume_array (stream_refs true TRID_MAX_OSTREAMS).

Definition trid_suspend : A Z :=
  trid_suspend_streams;;
  trid_audioio_exit;;
  bmod (set_pm_error false);;
  mret 0.

Definition trid_resume : A Z :=
  ret ← trid_audioio_init;
  ret ← (if ret =? 0 then trid_resume_streams else mret ret);
  bmod (set_pm_error (ret <? 0));;
  mret ret.

(** [arg] is the word at the user's address, or [None] where it faults. *)
Definition trid_misc_ioctl (cmd : Z) (arg : option Z) : A Z :=
  if negb (cmd =? TRID_IOCTL_PM) then mret (-25) else
  match arg with
  | None => mret (-14)
  | Some state =>
      if state =? TRID_PM_SUSPEND then
        trid_suspend_streams;; trid_audioio_exit;; bmod (set_pm_error false);; mret 0
      else if state =? TRID_PM_RESUME then
        ret ← trid_audioio_init;
        ret ← (if ret =? 0 then trid_resume_streams else mret ret);
        bmod (set_pm_error (ret <? 0));;
        mret ret
      else mret (-22)
  end.

(** ** Probe and remove *)

(** What the kernel answers during a probe; [has_clock] is the clock lookup *)
Record probe_env := ProbeEnv {
  enable : bool;
  alloc_ok : bool;
  mask_ret : Z;
  resource_ret : Z;
  has_clock : list bool;
  map_ret : Z;
  irq0 : Z;
  irq1 : Z;
  request0 : Z;
  request1 : Z;
  dma_cpu : Z;
  dma_handle : Z;
  card_new : Z;
  pcm_new : Z -> Z;
  ctl_add : Z -> Z;
  card_register : Z;
  misc_ret : Z;
}.

Definition zero_stream : trid_stream_state :=
  Stream 0 None false false false TRID_IFACE_I2SO0 0 0 0 0 0 0 0 0 0.
Definition zero_bridge : trid_audio_bridge :=
  Bridge false 0 0 (replicate 4 (Segment 0 0 0)) (replicate 2 (Segment 0 0 0))
    (replicate 4 (Segment 0 0 0)) false (replicate 4 false) (replicate 4 zero_stream)
    (replicate 4 zero_stream) (replicate 4 0) (replicate 4 0) (replicate 4 false)
    (replicate 4 false) 0 0 0 (replicate 2 TRID_SPDI_IDLE)
    (replicate 3 (I2so 0 0 0 0 0 0 0 0 0 0 0 0 (replicate 32 (I2soFrame 0 0)))).

Definition trid_probe (e : probe_env) : A Z :=
  if negb (enable e) then mret (-19) else
  if negb (alloc_ok e) then mret (-12) else
  bmod (fun _ => zero_bridge);;
  if negb (mask_ret e =? 0) then mret (mask_ret e) else
  if negb (resource_ret e =? 0) then mret (resource_ret e) else
  amod (set_clocks (has_clock e));;
  if negb (map_ret e =? 0) then mret (map_ret e) else
  if irq0 e <? 0 then mret (irq0 e) else
  if irq1 e <? 0 then mret (irq1 e) else
  if negb (request0 e =? 0) then mret (request0 e) else
  if negb (request1 e =? 0) then mret (request1 e) else
  ret ← trid_mem_init (dma_cpu e) (dma_handle e);
  if negb (ret =? 0) then mret ret else
  ret ← trid_audioio_init;
  if negb (ret =? 0) then trid_mem_exit;; mret ret else
  ret ← trid_register_pcm (card_new e) (pcm_new e) (ctl_add e) (card_register e);
  if negb (ret =? 0) then trid_audioio_exit;; trid_mem_exit;; mret ret else
  if negb (misc_ret e =? 0) then
    trid_unregister_pcm;; trid_audioio_exit;; trid_mem_exit;; mret (misc_ret e)
  else mret 0.

Definition trid_remove : A unit :=
  trid_unregister_pcm;;
  trid_audioio_exit;;
  trid_mem_exit;;
  amod (set_clocks (replicate 3 false)).
End Core.
