(* ===== verification/AudioInv.v ===== *)
(** The interfaces of the audio bridge keep the shape of its arrays, the streams
    and the memory, and the shadow of the interrupt mask: the proof rules for the
    monad, and one [safe] lemma for each function of AudioIf.

    [J] relates the device to [audif_irq_mask]; what is asked of it ([mask_law])
    is what a register that holds the last value written gives. *)
From S2P Require Import Prelude Mem Audio AudioIf AudioPcm.

Section Inv.
Context `{Hw : AudHw} {W : AudWin}.

(** ** Weakest preconditions *)

Definition awp {X} (m : A X) (Q : X -> aud_state -> Prop) (s : aud_state) : Prop :=
  match m s with ADone a s' => Q a s' | AStop _ => False end.

Lemma awp_bind {X Y} (m : A X) (k : X -> A Y) Q s : awp m (fun a s' => awp (k a) Q s') s -> awp (mbind k m) Q s.
Proof. unfold awp, mbind, A_bind. by destruct (m s). Qed.

Lemma awp_mono {X} (m : A X) (Q Q' : X -> aud_state -> Prop) s :
  (forall a s', Q a s' -> Q' a s') -> awp m Q s -> awp m Q' s.
Proof. unfold awp. intros H. destruct (m s); auto. Qed.

Lemma awp_done {X} (m : A X) (Q : X -> aud_state -> Prop) s : awp m Q s -> exists a s', m s = ADone a s' /\ Q a s'.
Proof. unfold awp. destruct (m s); [eauto | done]. Qed.

Lemma awp_elt {X} (f : trid_audio_bridge -> list X) i Q s :
  (exists x, f (bridge s) !! Z.to_nat i = Some x /\ Q x s) -> awp (elt f i) Q s.
Proof. intros (x & H & HQ). unfold awp, elt. by rewrite H. Qed.

Lemma awp_eltmod {X} (f : trid_audio_bridge -> list X) set i g (Q : unit -> aud_state -> Prop) s :
  (exists x, f (bridge s) !! Z.to_nat i = Some x /\
     Q tt (set_bridge (fun b => set (<[Z.to_nat i := g x]> (f b)) b) s)) ->
  awp (eltmod f set i g) Q s.
Proof. intros (x & H & HQ). apply awp_bind, awp_elt. eauto. Qed.

Lemma awp_ret {X} (a : X) (Q : X -> aud_state -> Prop) s : Q a s -> awp (mret a) Q s.
Proof. done. Qed.
Lemma awp_amod f (Q : unit -> aud_state -> Prop) s : Q tt (f s) -> awp (amod f) Q s.
Proof. done. Qed.
Lemma awp_aget {X} (f : aud_state -> X) (Q : X -> aud_state -> Prop) s : Q (f s) s -> awp (aget f) Q s.
Proof. done. Qed.

(** ** What every operation keeps *)

Record shape (b : trid_audio_bridge) : Prop := Shape {
  sh_istream : length (istream b) = 4%nat;
  sh_ostream : length (ostream b) = 2%nat;
  sh_playback : length (playback b) = 4%nat;
  sh_captures : length (captures b) = 4%nat;
  sh_ms : length (delayline_ms b) = 4%nat;
  sh_ticks : length (delayline_ticks b) = 4%nat;
  sh_open : length (delayline_open b) = 4%nat;
  sh_running : length (delayline_running b) = 4%nat;
  sh_spdi : length (spdi_state b) = 2%nat;
  sh_i2so : length (i2so b) = 3%nat;
  sh_closed : Forall (fun c => i2so_st c = 0) (i2so b);
}.

Record frame (s s' : aud_state) : Prop := Frame {
  fr_istream : istream (bridge s') = istream (bridge s);
  fr_ostream : ostream (bridge s') = ostream (bridge s);
  fr_playback : playback (bridge s') = playback (bridge s);
  fr_captures : captures (bridge s') = captures (bridge s);
  fr_mem : amem s' = amem s;
  fr_substreams : substreams s' = substreams s;
  fr_jiffies : jiffies s' = jiffies s;
}.

#[export] Instance frame_preorder : PreOrder frame.
Proof.
  split; [intros s; by constructor|].
  intros s1 s2 s3 [] []. constructor; by etrans.
Qed.

Definition mask_addr : Z := trid_translate_reg TRID_AUDIF_IRQ_MASK.

Record mask_law (J : hw -> Z -> Prop) : Prop := MaskLaw {
  law_read a h m : J h m -> J (snd (hw_read a h)) m;
  law_write a v h m : a <> mask_addr -> J h m -> J (hw_write a v h) m;
  law_set v h : J (hw_write mask_addr (u32 v) h) (u32 v);
}.

(** The windows are mapped, and no other window reaches the mask register. *)
Definition clear_of (base size : Z) : Prop :=
  0 < base /\ (base + size <= audif_base + 4 \/ audif_base + 8 <= base).
Record windows_ok : Prop := WindowsOk {
  win_audif : 0 < audif_base;
  win_audbrg : clear_of audbrg_base TRID_AUDBRG_MMIO_SIZE;
  win_clk : clear_of audio_top_clk_base TRID_AUDIO_TOP_CLK_MMIO_SIZE;
  win_high : clear_of high_addr_ctl_base 4;
  win_sw1 : clear_of sw_reg1_base 4;
  win_sw2 : clear_of sw_reg2_base 4;
  win_arc : clear_of arc_src_base 4;
  win_owa : clear_of msp_owa_out_base 4;
}.

Lemma clear_window base size x :
  clear_of base size -> base <= x -> x < base + size -> x <> audif_base + 4.
Proof. unfold clear_of. lia. Qed.

Lemma in_window_true base phys size reg :
  in_window base phys size reg = true -> base <= base + (reg - phys) < base + size.
Proof. unfold in_window. rewrite !andb_true_iff, Z.leb_le, Z.ltb_lt. lia. Qed.

Lemma mask_addr_eq : windows_ok -> mask_addr = audif_base + 4.
Proof.
  intros [H0 _ _ _ _ _ _ _]. unfold mask_addr, trid_translate_reg, in_window.
  by rewrite (eqb_neq_false audif_base 0) by lia.
Qed.

Lemma translate_not_mask reg :
  windows_ok -> reg <> TRID_AUDIF_IRQ_MASK -> trid_translate_reg reg <> mask_addr.
Proof.
  intros Hwin Hr. rewrite mask_addr_eq by done. destruct Hwin as [H0 H1 H2 H3 H4 H5 H6 H7].
  unfold trid_translate_reg.
  destruct (in_window audif_base _ _ _); [unfold TRID_AUDIF_IRQ_MASK in Hr; lia|].
  repeat lazymatch goal with
  | |- (if in_window ?b ?p ?n ?r then _ else _) <> _ =>
      let E := fresh in destruct (in_window b p n r) eqn:E;
      [apply in_window_true in E; apply (clear_window b n); [assumption | lia..]|]
  | |- (if ?b then ?x else _) <> _ => destruct b; [apply (clear_window x 4); [assumption | lia..]|]
  end. lia.
Qed.

(** ** Operations that keep it all *)

Section Safe.
Context (J : hw -> Z -> Prop) (HJ : mask_law J) (Hwin : windows_ok).

Definition inv (s : aud_state) : Prop := shape (bridge s) /\ J (dev s) (audif_irq_mask (bridge s)).

Definition safe {X} (m : A X) (Q : X -> Prop) : Prop :=
  forall s, inv s -> awp m (fun a s' => Q a /\ inv s' /\ frame s s') s.

Lemma safe_ret {X} (a : X) (Q : X -> Prop) : Q a -> safe (mret a) Q.
Proof. intros HQ s Hs. apply awp_ret. by ands. Qed.

Lemma safe_bind {X Y} (m : A X) (k : X -> A Y) P Q :
  safe m P -> (forall a, P a -> safe (k a) Q) -> safe (mbind k m) Q.
Proof.
  intros Hm Hk s Hs. apply awp_bind. eapply awp_mono; [|by apply Hm].
  intros a s' (Ha & Hs' & Hf). eapply awp_mono; [|by apply Hk]. cbv beta.
  intros b s2 (Hb & Hs2 & Hf2). ands; [done..|]. by etrans.
Qed.

Lemma safe_mono {X} (m : A X) (P Q : X -> Prop) : (forall a, P a -> Q a) -> safe m P -> safe m Q.
Proof. intros H Hm s Hs. eapply awp_mono; [|by apply Hm]. cbv beta. naive_solver. Qed.

Lemma safe_when b m : safe m (fun _ => True) -> safe (awhen b m) (fun _ => True).
Proof. destruct b; [done|]. intros _. by apply safe_ret. Qed.

Lemma safe_bget {X} (f : trid_audio_bridge -> X) : safe (bget f) (fun _ => True).
Proof. intros s Hs. apply awp_aget. by ands. Qed.

Lemma safe_read reg : safe (trid_reg_read reg) (fun v => 0 <= v < 2 ^ 32).
Proof.
  unfold trid_reg_read. destruct (_ =? 0); [by apply safe_ret|].
  intros s [Hs Hj]. unfold readl, awp. pose proof (law_read _ HJ (trid_translate_reg reg) _ _ Hj) as H.
  destruct (hw_read _ _) as [v h]. ands; [apply u32_range.. | by split | by constructor].
Qed.

Lemma safe_write reg v : reg <> TRID_AUDIF_IRQ_MASK -> safe (trid_reg_write reg v) (fun _ => True).
Proof.
  intros Hr. unfold trid_reg_write. destruct (_ =? 0); [by apply safe_ret|].
  intros s [Hs Hj]. apply awp_amod. ands; [done | | by constructor]. split; [done|].
  apply (law_write _ HJ); [by apply translate_not_mask | done].
Qed.

Lemma safe_update reg mask v :
  reg <> TRID_AUDIF_IRQ_MASK -> safe (trid_reg_update_bits reg mask v) (fun _ => True).
Proof.
  intros Hr. pose proof (safe_read reg) as Hrd. pose proof (fun v => safe_write reg v Hr) as Hwr.
  unfold trid_reg_update_bits, trid_reg_read, trid_reg_write in *.
  destruct (_ =? 0); [by apply safe_ret|]. eapply safe_bind; [done|]. intros; apply Hwr.
Qed.

(** The mask register, written with its shadow *)
Lemma safe_mask v {X} (m : A X) Q :
  0 <= v < 2 ^ 32 -> safe m Q ->
  safe (trid_reg_write TRID_AUDIF_IRQ_MASK v;; bmod (set_audif_irq_mask v);; m) Q.
Proof.
  intros Hv Hm. replace (set_audif_irq_mask v) with (set_audif_irq_mask (u32 v)) by (by rewrite u32_small).
  assert (Hmask : safe (trid_reg_write TRID_AUDIF_IRQ_MASK v;; bmod (set_audif_irq_mask (u32 v)))
                    (fun _ => True)).
  2: { intros s Hs. apply (safe_bind _ _ _ _ Hmask (fun _ _ => Hm)) in Hs.
       revert Hs. unfold awp, mbind, A_bind. by destruct (trid_reg_write _ _ s). }
  intros s [Hs Hj]. unfold trid_reg_write. fold mask_addr.
  rewrite (eqb_neq_false mask_addr 0) by (rewrite mask_addr_eq by done; destruct Hwin; lia).
  apply awp_bind, awp_amod, awp_amod.
  ands; [done| |by constructor]. split; [by destruct Hs|]. apply (law_set _ HJ).
Qed.

(** Fields outside the shape and the frame *)
Definition harmless (f : trid_audio_bridge -> trid_audio_bridge) : Prop := forall b,
  shape b -> shape (f b) /\ audif_irq_mask (f b) = audif_irq_mask b /\ istream (f b) = istream b /\
  ostream (f b) = ostream b /\ playback (f b) = playback b /\ captures (f b) = captures b.

Lemma safe_bmod f : harmless f -> safe (bmod f) (fun _ => True).
Proof.
  intros Hf s [Hs Hj]. destruct (Hf _ Hs) as (H1 & H2 & H3 & H4 & H5 & H6).
  apply awp_amod. ands; [done | | by constructor]. split; [done|]. simpl. by rewrite H2.
Qed.

Lemma safe_elt {X} (f : trid_audio_bridge -> list X) i n :
  (forall b, shape b -> length (f b) = n) -> (Z.to_nat i < n)%nat -> safe (elt f i) (fun _ => True).
Proof.
  intros Hl Hi s [Hs Hj]. apply awp_elt.
  destruct (lookup_lt_is_Some_2 (f (bridge s)) (Z.to_nat i)) as [x Hx]; [by rewrite (Hl _ Hs)|].
  exists x. by ands.
Qed.

Lemma safe_eltmod {X} (f : trid_audio_bridge -> list X) set i g n :
  (forall b, shape b -> length (f b) = n) -> (Z.to_nat i < n)%nat ->
  (forall x, harmless (fun b => set (<[Z.to_nat i := g x]> (f b)) b)) ->
  safe (eltmod f set i g) (fun _ => True).
Proof.
  intros Hl Hi Hh. eapply safe_bind; [by eapply safe_elt|]. intros x _. by apply safe_bmod.
Qed.

(** ** The functions of AudioIf *)

Lemma safe_irq_enable i e : safe (trid_audif_irq_enable i e) (fun _ => True).
Proof.
  unfold trid_audif_irq_enable. destruct (_ =? 0); [by apply safe_ret|].
  eapply safe_bind; [apply safe_when, safe_write; discriminate|]. intros _ _.
  eapply safe_bind; [apply safe_read|]. intros cur Hc. apply safe_mask.
  - destruct e; [apply lor_range; [lia | done | by destruct i] | by apply ldiff_range].
  - apply safe_when, safe_write. discriminate.
Qed.

Ltac notmask :=
  first [discriminate
        | unfold TRID_AUDBRG_ISTREAM_BASE, TRID_AUDBRG_OSTREAM_BASE, TRID_AUDBRG_ISTREAM_FLUSH,
            TRID_AUDBRG_OSTREAM_FLUSH, TRID_AUDBRG_ISTREAM_UMACREQ, TRID_AUDBRG_PHYS_BASE,
            TRID_STREAM_REG_START, TRID_STREAM_REG_END, TRID_STREAM_REG_STEP, TRID_STREAM_REG_CFG,
            TRID_AUDIF_IRQ_MASK, TRID_AUDIF_PHYS_BASE;
          rewrite ?Z.shiftl_mul_pow2 by lia; lia].

(** One step of a function: its first operation, by its lemma *)
Ltac safe_op :=
  lazymatch goal with
  | |- safe (mret _) _ => by apply safe_ret
  | |- safe (mbind _ _) _ => apply (safe_bind _ _ (fun _ => True)); [|intros ? _]
  | |- safe (awhen _ _) _ => apply safe_when
  | |- safe (trid_reg_write _ _) _ => apply safe_write; notmask
  | |- safe (trid_reg_read _) _ => by eapply safe_mono; [|apply safe_read]
  | |- safe (trid_reg_update_bits _ _ _) _ => apply safe_update; notmask
  | |- safe (bget _) _ => apply safe_bget
  | |- safe (bmod _) _ => apply safe_bmod; intros ? []; ands; by try constructor
  | |- safe (elt _ _) _ => eapply safe_elt; [by intros ? [] | lia]
  | |- safe (eltmod _ _ _ _) _ =>
      eapply safe_eltmod; [by intros ? [] | lia
                          | intros ? ? []; ands; try done; constructor; try done; (etrans; [apply length_insert | done])]
  | |- safe (if ?b then _ else _) _ => let E := fresh "E" in destruct b eqn:E
  end.
Ltac safe_ops := repeat safe_op.

Lemma safe_elapsed sub : safe (snd_pcm_period_elapsed sub) (fun _ => True).
Proof. intros s Hs. apply awp_amod. ands; [done.. | by constructor]. Qed.

Lemma safe_notify_streams a st brg mask l : safe (notify_streams a st brg mask l) (fun _ => True).
Proof.
  induction l as [|x l IH]; simpl; [by apply safe_ret|]. safe_op; [|done].
  unfold notify_stream. safe_ops. apply safe_elapsed.
Qed.

Lemma safe_notify a st : safe (trid_pcm_notify_irq a st) (fun _ => True).
Proof. unfold trid_pcm_notify_irq. safe_ops; apply safe_notify_streams. Qed.

Lemma safe_program_fs i r c b :
  0 <= r <= 192000 -> 0 <= c <= 2 -> 0 <= b <= 32 -> safe (trid_i2so_program_fs i r c b) (fun _ => True).
Proof.
  intros Hr Hc Hb. unfold trid_i2so_program_fs, div_round_closest.
  destruct (_ || _) eqn:E0; [by apply safe_ret|]. apply orb_false_iff in E0 as [_ Er]. zbool.
  assert (0 <= r * Z.max c 1 * Z.max b 16 < 2 ^ 30) as Hbc.
  { split; [|apply Z.le_lt_trans with (192000 * 2 * 32)]; [| |lia];
      repeat first [apply Z.mul_nonneg_nonneg | apply Z.mul_le_mono_nonneg]; lia. }
  revert Hbc. generalize (r * Z.max c 1 * Z.max b 16). intros bc Hbc.
  assert (0 <= Z.shiftr bc 8 < 2 ^ 30) as Hs.
  { rewrite Z.shiftr_div_pow2 by lia. split; [apply Z.div_pos; lia|]. apply Z.div_lt_upper_bound; lia. }
  safe_op; [by apply safe_ret|]. zbool. rewrite u32_small, eqb_neq_false by lia.
  safe_ops. destruct i; cbn in *; first [discriminate | safe_op].
Qed.

Lemma safe_apply_state line : 0 <= line < 4 -> safe (trid_delayline_apply_state line) (fun _ => True).
Proof. intros H. unfold trid_delayline_apply_state. safe_ops. destruct (trid_delayline_cfg_bits _ _ _). safe_ops. Qed.

Lemma safe_spdo_program r c b :
  0 <= r <= 192000 -> 0 <= c <= 2 -> safe (trid_spdo_program r c b) (fun _ => True).
Proof.
  intros Hr Hc. unfold trid_spdo_program, div_round_closest.
  do 4 (safe_op; [safe_op|]). safe_op; [safe_op|]. zbool.
  assert (0 < r * Z.max c 2 <= 192000 * 2) by (split; [|apply Z.mul_le_mono_nonneg]; lia).
  rewrite u32_small, eqb_neq_false by lia. safe_ops.
Qed.

Lemma safe_flush reg : reg <> TRID_AUDIF_IRQ_MASK -> safe (trid_flush_stream reg) (fun _ => True).
Proof. intros H. unfold trid_flush_stream. safe_op; by apply safe_update. Qed.

Lemma safe_istream_irq n e : safe (trid_istream_irq_enable n e) (fun _ => True).
Proof. unfold trid_istream_irq_enable, trid_audbrg_irq_ack. safe_ops. Qed.

Lemma safe_ostream_irq n e : safe (trid_ostream_irq_enable n e) (fun _ => True).
Proof. unfold trid_ostream_irq_enable, trid_audbrg_irq_ack. safe_ops. Qed.

Lemma safe_stream_window base dma size step cfg :
  TRID_AUDBRG_PHYS_BASE <= base -> safe (stream_window base dma size step cfg) (fun _ => True).
Proof. intros H. unfold TRID_AUDBRG_PHYS_BASE in H. unfold stream_window. safe_ops. Qed.

Lemma istream_base_ge n : 0 <= n -> TRID_AUDBRG_PHYS_BASE <= TRID_AUDBRG_ISTREAM_BASE n.
Proof. intros. unfold TRID_AUDBRG_ISTREAM_BASE, TRID_AUDBRG_PHYS_BASE. rewrite Z.shiftl_mul_pow2 by lia. lia. Qed.
Lemma ostream_base_ge n : 0 <= n -> TRID_AUDBRG_PHYS_BASE <= TRID_AUDBRG_OSTREAM_BASE n.
Proof. intros. unfold TRID_AUDBRG_OSTREAM_BASE, TRID_AUDBRG_PHYS_BASE. rewrite Z.shiftl_mul_pow2 by lia. lia. Qed.

Lemma safe_istream_config n r c b p e :
  0 <= n < 4 -> safe (trid_istream_config n r c b p e) (fun ret => ret = 0).
Proof.
  intros Hn. unfold trid_istream_config, TRID_MAX_ISTREAMS. rewrite leb_false by lia.
  safe_ops; [apply safe_stream_window, istream_base_ge; lia | apply safe_istream_irq].
Qed.

Lemma safe_ostream_config n r c b p e :
  0 <= n < 2 -> safe (trid_ostream_config n r c b p e) (fun ret => ret = 0).
Proof.
  intros Hn. unfold trid_ostream_config, TRID_MAX_OSTREAMS. rewrite leb_false by lia.
  safe_ops; [apply safe_stream_window, ostream_base_ge; lia | apply safe_ostream_irq].
Qed.

Lemma safe_iface_prepare i r c b p e :
  0 <= r <= 192000 -> 0 <= c <= 2 -> 0 <= b <= 32 ->
  safe (trid_iface_prepare i r c b p e) (fun ret => ret = 0).
Proof.
  intros Hr Hc Hb. destruct i; unfold trid_iface_prepare, trid_i2so_config, trid_spdi_config, set_spdi; cbv iota.
  4: { safe_op; [apply safe_irq_enable|]. eapply safe_bind; [by apply safe_ostream_config|].
       intros ret ->. cbn [negb Z.eqb]. cbv iota. safe_ops. by apply safe_spdo_program. }
  1-3: safe_op; [safe_ops; by cbn|]; safe_op; [by apply safe_program_fs|];
    safe_op; [apply safe_irq_enable|]; by apply safe_istream_config.
  all: do 3 (safe_op; [safe_ops|]); safe_op; [apply safe_irq_enable|]; by apply safe_ostream_config.
Qed.

Lemma safe_istream_start n : 0 <= n < 4 -> safe (trid_istream_start n) (fun ret => ret = 0).
Proof.
  intros Hn. unfold trid_istream_start, TRID_MAX_ISTREAMS. rewrite leb_false by lia.
  safe_ops. apply safe_flush. notmask.
Qed.

Lemma safe_istream_stop n : 0 <= n < 4 -> safe (trid_istream_stop n) (fun ret => ret = 0).
Proof.
  intros Hn. unfold trid_istream_stop, TRID_MAX_ISTREAMS. rewrite leb_false by lia.
  safe_ops; [apply safe_istream_irq | apply safe_flush; notmask].
Qed.

Lemma safe_ostream_stop n : 0 <= n < 2 -> safe (trid_ostream_stop n) (fun ret => ret = 0).
Proof.
  intros Hn. unfold trid_ostream_stop, TRID_MAX_OSTREAMS. rewrite leb_false by lia.
  safe_ops; [apply safe_irq_enable | apply safe_flush; notmask].
Qed.

(** The start of a capture stream clears its segment first. *)
Lemma awp_ostream_start n seg s :
  0 <= n < 2 -> ostream (bridge s) !! Z.to_nat n = Some seg -> inv s ->
  awp (trid_ostream_start n) (fun ret s' => ret = 0 /\ inv s' /\
    exists m, same_out (seg_cpu seg) (Z.max 0 (seg_size seg)) (amem s) m /\ frame (set_amem m s) s') s.
Proof.
  intros Hn Hseg Hs. unfold trid_ostream_start, TRID_MAX_OSTREAMS. rewrite leb_false by lia.
  apply awp_bind, awp_elt. exists seg. split; [done|].
  set (m := if seg_cpu seg =? 0 then amem s else fill (Z.to_nat (seg_size seg)) (amem s) (seg_cpu seg) 0).
  assert (Hout : same_out (seg_cpu seg) (Z.max 0 (seg_size seg)) (amem s) m).
  { unfold m. destruct (_ =? 0); [done|]. intros x Hx. apply ld8_fill_out. lia. }
  apply awp_bind. apply (awp_mono _ (fun _ s' => s' = set_amem m s)).
  2: { unfold m, awhen. destruct (seg_cpu seg =? 0); simpl; [apply awp_ret; by destruct s | by apply awp_amod]. }
  intros [] s' ->. eapply awp_mono; [|apply (safe_bind _ _ (fun _ => True) (fun ret => ret = 0)); [| |exact Hs]].
  - cbv beta. intros ret s' (H1 & H2 & H3). ands; [done..|]. by exists m.
  - apply safe_irq_enable.
  - intros _ _. unfold trid_audbrg_irq_enable. safe_ops. apply safe_flush. notmask.
Qed.

(** ** Delay lines, start and stop of the device, interrupts *)

Lemma safe_delayline_set line t : 0 <= line < 4 -> safe (trid_delayline_set line t) (fun ret => ret = 0).
Proof.
  intros Hl. unfold trid_delayline_set, TRID_MAX_DELAYLINES. rewrite leb_false by lia.
  assert (Hr : trid_delayline_reg line <> 0 /\ trid_delayline_reg line <> TRID_AUDIF_IRQ_MASK).
  { unfold trid_delayline_reg. repeat (case_match; [by split|]). zbool. lia. }
  destruct Hr as [Hr0 Hr]. unfold trid_delayline_stop_locked, trid_delayline_open_locked.
  rewrite (eqb_neq_false _ _ Hr0). cbv iota.
  safe_op; [do 3 (safe_op; [safe_op|]); safe_op; [by apply safe_write|]; safe_op; [by apply safe_apply_state | safe_ops]|].
  safe_op; [safe_ops|]. eapply safe_bind with (P := fun r => r = 0).
  { destruct a; [by apply safe_ret|]. do 4 (safe_op; [safe_ops|]). safe_op; [by apply safe_apply_state | safe_ops]. }
  intros ? ->. cbn [negb Z.eqb]. cbv iota. safe_op; [by apply safe_write|]. do 4 (safe_op; [safe_ops|]).
  destruct (trid_delayline_cfg_bits _ _ _). safe_ops.
Qed.
(** The controls *)
Lemma safe_delayline_put idx v : 0 <= idx < 4 -> safe (trid_delayline_put idx v) (fun _ => True).
Proof.
  intros Hi. unfold trid_delayline_put. safe_op; [safe_ops|]. safe_op; [safe_ops|].
  safe_op; [by eapply safe_mono; [|apply safe_delayline_set] | safe_ops].
Qed.

Lemma safe_arc_get : safe trid_arc_source_get (fun _ => True).
Proof. unfold trid_arc_source_get. safe_ops. Qed.
Lemma safe_arc_put i : safe (trid_arc_source_put i) (fun _ => True).
Proof. unfold trid_arc_source_put. generalize (if i =? 0 then 0 else 1). intros v. safe_ops. Qed.
Lemma safe_owa_get : safe trid_msp_owa_out_get (fun _ => True).
Proof. unfold trid_msp_owa_out_get. safe_ops. Qed.
Lemma safe_owa_put i : safe (trid_msp_owa_out_put i) (fun _ => True).
Proof. unfold trid_msp_owa_out_put. safe_ops. Qed.

Lemma safe_unmask {X} (m : A X) Q :
  safe m Q -> safe (bmod (set_audif_irq_mask 0);; trid_reg_write TRID_AUDIF_IRQ_MASK 0;; m) Q.
Proof.
  intros Hm s [Hs Hj]. apply awp_bind, awp_amod, awp_bind. unfold trid_reg_write. fold mask_addr.
  rewrite (eqb_neq_false mask_addr 0) by (rewrite mask_addr_eq by done; destruct Hwin; lia).
  apply awp_amod. eapply awp_mono; [|apply Hm].
  - cbv beta. intros a s' (HQ & Hi' & Hf'). ands; [done.. |]. etrans; [|done]. by constructor.
  - split; [by destruct Hs|]. apply (law_set _ HJ 0).
Qed.

Lemma safe_unmask_end :
  safe (bmod (set_audif_irq_mask 0);; trid_reg_write TRID_AUDIF_IRQ_MASK 0) (fun _ => True).
Proof.
  intros s Hs. assert (H0 : safe (mret tt : A unit) (fun _ => True)) by by apply safe_ret.
  pose proof (safe_unmask _ _ H0 s Hs) as H.
  revert H. unfold awp, mbind, A_bind, bmod, amod. cbv beta iota.
  by destruct (trid_reg_write TRID_AUDIF_IRQ_MASK 0 (set_bridge (set_audif_irq_mask 0) s)).
Qed.

Lemma safe_i2so_init : safe trid_i2so_init (fun _ => True).
Proof.
  assert (H : forall i c, 0 <= i < 3 -> i2so_st c = 0 -> safe (mod_i2so i (fun _ => c)) (fun _ => True)).
  { intros i c Hi Hc. eapply safe_eltmod; [by intros ? [] | lia|].
    intros ? ? []. ands; try done. constructor; try done; [etrans; [apply length_insert | done]|].
    by apply Forall_insert. }
  unfold trid_i2so_init. safe_op; [by apply H|]. safe_op; by apply H.
Qed.

Lemma safe_audioio_exit : safe trid_audioio_exit (fun _ => True).
Proof. unfold trid_audioio_exit, trid_audbrg_irq_enable. safe_op; [safe_op|]. apply safe_unmask_end. Qed.

(** A closed output takes no part in an interrupt. *)
Lemma safe_i2so_irq ch : 0 <= ch < 3 -> safe (trid_i2so_irq_channel ch) (fun _ => True).
Proof.
  intros Hc s Hs. apply awp_bind, awp_elt. destruct Hs as [Hs Hj].
  destruct (lookup_lt_is_Some_2 (i2so (bridge s)) (Z.to_nat ch)) as [x Hx]; [rewrite (sh_i2so _ Hs); lia|].
  exists x. split; [done|]. pose proof (sh_closed _ Hs) as Hcl. rewrite Forall_lookup in Hcl.
  rewrite (Hcl _ _ Hx). apply awp_ret. by ands.
Qed.

Lemma safe_spdi_channel ch i st err :
  0 <= ch < 2 -> safe (trid_spdi_run_channel ch i st err) (fun _ => True).
Proof.
  intros Hc. unfold trid_spdi_run_channel, set_spdi. safe_op; [safe_ops|].
  assert (trid_spdi_cfg_reg i <> TRID_AUDIF_IRQ_MASK) by (by destruct i).
  safe_op; [safe_op|]. safe_op; [safe_ops|]. destruct a0; [safe_ops | ..].
  - safe_op; [|safe_ops]. safe_op; [safe_ops|]. safe_op; [by apply safe_write | safe_ops].
  - safe_op; [apply safe_notify|]. safe_op; (safe_op; [first [by apply safe_write | safe_ops]|]);
      first [by apply safe_write | safe_ops].
Qed.

Lemma safe_audbrg_irq : safe trid_audbrg_irq_thread (fun _ => True).
Proof. unfold trid_audbrg_irq_thread, trid_audbrg_irq_ack. safe_ops. apply safe_notify. Qed.

Lemma safe_audif_irq : safe trid_audif_irq_thread (fun _ => True).
Proof.
  unfold trid_audif_irq_thread, trid_handle_spds_irq, trid_handle_i2so_irq, trid_handle_dly_irq,
    trid_handle_spdo_irq, trid_handle_spdi_irq.
  safe_ops; try apply safe_notify;
    first [apply safe_i2so_irq | apply safe_apply_state | apply safe_spdi_channel]; lia.
Qed.
End Safe.

(** The initialisation needs no relation of the device to the mask: it makes it. *)
Lemma safe_awp {X Y} J (m : A X) (k : X -> A Y) P Q s :
  safe J m P -> inv J s -> (forall a s', P a -> inv J s' -> frame s s' -> awp (k a) Q s') ->
  awp (mbind k m) Q s.
Proof.
  intros Hm Hs Hk. apply awp_bind. eapply awp_mono; [|by apply Hm]. cbv beta. intros a s' (H1 & H2 & H3). auto.
Qed.

Definition no_relation (h : hw) (m : Z) : Prop := True.
Lemma no_relation_law : mask_law no_relation.
Proof. by split. Qed.

Definition settles (J : hw -> Z -> Prop) (m : A Z) : Prop := forall s,
  shape (bridge s) -> awp m (fun r s' => r = 0 /\ inv J s' /\ frame s s') s.

Lemma settles_bind J {X} (m : A X) k :
  safe no_relation m (fun _ => True) -> (forall a, settles J (k a)) -> settles J (mbind k m).
Proof.
  intros Hm Hk s Hs. eapply safe_awp; [done | by split|]. cbv beta. intros a s' _ [Hs' _] Hf.
  eapply awp_mono; [|by apply Hk]. cbv beta. intros r s2 (H1 & H2 & H3). ands; [done.. | by etrans].
Qed.

Lemma settles_unmask J (m : A Z) :
  mask_law J -> windows_ok -> safe J m (fun r => r = 0) ->
  settles J (bmod (set_audif_irq_mask 0);; trid_reg_write TRID_AUDIF_IRQ_MASK 0;; m).
Proof.
  intros HJ Hwin Hm s Hs. apply awp_bind, awp_amod, awp_bind. unfold trid_reg_write. fold mask_addr.
  rewrite (eqb_neq_false mask_addr 0) by (rewrite mask_addr_eq by done; destruct Hwin; lia).
  apply awp_amod. eapply awp_mono; [|apply Hm].
  - cbv beta. intros a s' (HQ & Hi' & Hf'). ands; [done.. |]. etrans; [|done]. by constructor.
  - split; [by destruct Hs|]. apply (law_set _ HJ 0).
Qed.

Ltac init_op :=
  first [apply safe_ret; done
        | eapply safe_mono; [|by apply safe_read]; done
        | apply safe_write; [done.. | discriminate]
        | apply safe_update; [done.. | discriminate]
        | apply safe_bmod; intros ? []; ands; by try constructor
        | eapply safe_eltmod; [by intros ? [] | simpl; lia
            | intros ? ? []; ands; try done; constructor; try done; (etrans; [apply length_insert | done])]
        | by apply safe_i2so_init].

Lemma audioio_init_settles J : mask_law J -> windows_ok -> settles J trid_audioio_init.
Proof.
  intros HJ Hwin. pose proof no_relation_law as H0. unfold trid_audioio_init, set_spdi.
  do 6 (apply settles_bind; [init_op|]; intros ?).
  apply settles_unmask; [done..|].
  do 9 (apply safe_bind with (P := fun _ => True); [init_op|]; intros ? _). init_op.
Qed.
End Inv.
