(* ===== verification/AudioRing.v ===== *)
(** The data of a PCM stream: [trid_copy_ring] copies between two rings, and a
    stream's destination ring holds the newest bytes of all those transferred,
    in order.  For playback the destination is the shared segment and the source
    the ALSA buffer; for capture it is the reverse. *)
From S2P Require Import Prelude Mem Audio AudioIf AudioPcm AudioInv.

Section Ring.
Context `{Hw : AudHw} {W : AudWin} {T : AudTime}.

(** ** The copy *)

Lemma mod_shift a b k n : 0 < n -> ((a + b) mod n + k) mod n = (a + (b + k)) mod n.
Proof. intros. rewrite Zplus_mod_idemp_l. f_equal. lia. Qed.

Lemma copy_ring_spec fuel dst dsize doff src ssize soff n s :
  0 < dsize < 2 ^ 31 -> 0 < ssize < 2 ^ 31 -> 0 <= doff < dsize -> 0 <= soff < ssize ->
  0 <= n <= dsize -> n < Z.of_nat fuel ->
  dst + dsize <= src \/ src + ssize <= dst ->
  exists m, copy_ring fuel dst dsize doff src ssize soff n s = ADone tt (set_amem m s) /\
    (forall k, 0 <= k < n ->
      ld8 m (dst + (doff + k) mod dsize) = ld8 (amem s) (src + (soff + k) mod ssize)) /\
    (forall k, n <= k < dsize ->
      ld8 m (dst + (doff + k) mod dsize) = ld8 (amem s) (dst + (doff + k) mod dsize)) /\
    same_out dst dsize (amem s) m.
Proof.
  intros Hd Hs. revert doff soff n s. induction fuel as [|fuel IH]; intros doff soff n s Hdo Hso Hn Hf Hdis; [lia|].
  cbn [copy_ring]. destruct (Z.eqb_spec n 0) as [->|Hn0].
  { exists (amem s). ands; [by destruct s | lia | done | done]. }
  rewrite !u32_small by lia. set (c := Z.min _ _).
  assert (Hc : 0 < c <= n /\ doff + c <= dsize /\ soff + c <= ssize) by lia.
  clearbody c. unfold memcpy, arem. rewrite !(eqb_neq_false _ 0), !u32_small by lia.
  set (m1 := wrbytes (amem s) (dst + doff) (bytes (Z.to_nat c) (amem s) (src + soff))).
  assert (Hout : forall x, x < dst + doff \/ dst + doff + c <= x -> ld8 m1 x = ld8 (amem s) x).
  { intros x Hx. apply ld8_wrbytes_out. rewrite bytes_length. lia. }
  assert (Hin : forall k, 0 <= k < c -> ld8 m1 (dst + (doff + k)) = ld8 (amem s) (src + (soff + k))).
  { intros k Hk. unfold m1. rewrite ld8_copy by lia. f_equal. lia. }
  destruct (IH ((doff + c) mod dsize) ((soff + c) mod ssize) (n - c) (set_amem m1 s)) as (m & E & H1 & H2 & H3);
    [apply Z.mod_pos_bound; lia | apply Z.mod_pos_bound; lia | lia | lia | done |]. cbn [amem set_amem] in *.
  exists m. split; [exact E|]. ands.
  - intros k Hk. destruct (Z.lt_ge_cases k c) as [Hkc|Hkc].
    + specialize (H2 (k - c + dsize) ltac:(lia)). rewrite !mod_shift in H2 by lia.
      replace (doff + (c + (k - c + dsize))) with (doff + k + 1 * dsize) in H2 by lia.
      rewrite Z.mod_add in H2 by lia. rewrite H2, !Z.mod_small by lia. apply Hin. lia.
    + specialize (H1 (k - c) ltac:(lia)). rewrite !mod_shift in H1 by lia.
      replace (c + (k - c)) with k in H1 by lia. rewrite H1. apply Hout.
      pose proof (Z.mod_pos_bound (soff + k) ssize). lia.
  - intros k Hk. specialize (H2 (k - c) ltac:(lia)). rewrite !mod_shift in H2 by lia.
    replace (c + (k - c)) with k in H2 by lia. rewrite H2. apply Hout.
    destruct (Z.lt_ge_cases (doff + k) dsize) as [|Hwrap]; [rewrite Z.mod_small by lia; lia|].
    replace (doff + k) with (doff + k - dsize + 1 * dsize) by lia.
    rewrite Z.mod_add, Z.mod_small by lia. lia.
  - intros x Hx. rewrite H3 by done. apply Hout. lia.
Qed.

(** ** Positions *)

(** The ring of [size] bytes at [base] holds the newest bytes of [l]: byte [i]
    of all those transferred is at offset [i mod size]. *)
Definition ring_holds (m : mem) (base size : Z) (l : list Z) : Prop :=
  forall i, 0 <= i < Z.of_nat (length l) -> Z.of_nat (length l) - size <= i ->
    l !! Z.to_nat i = Some (ld8 m (base + i mod size)).

(** The [n] bytes of a ring from position [pos] on *)
Definition ring_bytes (m : mem) (base size pos n : Z) : list Z :=
  (fun k => ld8 m (base + (pos + k) mod size)) <$> seqZ 0 n.

Lemma ring_bytes_length m base size pos n : length (ring_bytes m base size pos n) = Z.to_nat n.
Proof. unfold ring_bytes. by rewrite length_fmap, length_seqZ. Qed.

Lemma ring_holds_same m m' base size l :
  0 < size -> same_on base size m m' -> ring_holds m base size l -> ring_holds m' base size l.
Proof.
  intros Hs Hm H i Hi Hl. rewrite (H i Hi Hl). f_equal. symmetry. apply Hm.
  pose proof (Z.mod_pos_bound i size Hs). lia.
Qed.

(** Copying the next [n] bytes of one ring into the other at the position the
    destination has reached appends them to what it holds. *)
Lemma ring_push dst dsize src ssize pos l n s :
  0 < dsize < 2 ^ 31 -> 0 < ssize < 2 ^ 31 -> 0 <= n <= dsize -> 0 <= pos < ssize ->
  dst + dsize <= src \/ src + ssize <= dst ->
  ring_holds (amem s) dst dsize l ->
  exists m, trid_copy_ring dst dsize (Z.of_nat (length l) mod dsize) src ssize pos n s = ADone tt (set_amem m s) /\
    ring_holds m dst dsize (l ++ ring_bytes (amem s) src ssize pos n) /\
    same_out dst dsize (amem s) m.
Proof.
  intros Hd Hs Hn Hp Hdis Hl. set (len := Z.of_nat (length l)) in *.
  destruct (copy_ring_spec (Z.to_nat n + 2) dst dsize (len mod dsize) src ssize pos n s) as (m & E & H1 & H2 & H3);
    [done | done | apply Z.mod_pos_bound; lia | done | done | lia | done |].
  exists m. split; [exact E|]. split; [|done]. intros i Hi Hi2.
  rewrite length_app, ring_bytes_length, Nat2Z.inj_add in Hi, Hi2. fold len in Hi, Hi2. rewrite Z2Nat.id in Hi, Hi2 by lia.
  destruct (Z.lt_ge_cases i len) as [Hlt|Hge].
  - rewrite lookup_app_l by lia. rewrite (Hl i) by lia. f_equal.
    specialize (H2 (i - len + dsize) ltac:(lia)). rewrite Zplus_mod_idemp_l in H2.
    replace (len + (i - len + dsize)) with (i + 1 * dsize) in H2 by lia. by rewrite Z.mod_add in H2 by lia.
  - rewrite lookup_app_r by lia. unfold ring_bytes. rewrite list_lookup_fmap, lookup_seqZ_lt by lia. simpl.
    specialize (H1 (i - len) ltac:(lia)). rewrite Zplus_mod_idemp_l in H1.
    replace (len + (i - len)) with i in H1 by lia. rewrite H1. do 4 f_equal. lia.
Qed.

(** ** A stream in its array *)

Definition stream_at (r : sref) (s : aud_state) : option trid_stream_state :=
  streams_of r (bridge s) !! Z.to_nat (snd r).
Definition put (r : sref) (st : trid_stream_state) (s : aud_state) : aud_state :=
  set_bridge (fun b => set_streams_of r (<[Z.to_nat (snd r) := st]> (streams_of r b)) b) s.

Lemma stream_at_put r st s : is_Some (stream_at r s) -> stream_at r (put r st s) = Some st.
Proof.
  unfold stream_at, put, streams_of, set_streams_of. intros H%lookup_lt_is_Some.
  destruct r as [[] i]; simpl in *; by apply list_lookup_insert_eq.
Qed.

Lemma put_other r r' st s :
  fst r <> fst r' \/ Z.to_nat (snd r) <> Z.to_nat (snd r') -> stream_at r' (put r st s) = stream_at r' s.
Proof.
  unfold stream_at, put, streams_of, set_streams_of. intros H.
  destruct r as [[] i], r' as [[] i']; simpl in *; try done; destruct H; try done; by apply list_lookup_insert_ne.
Qed.

Lemma shape_put r st s : shape (bridge s) -> shape (bridge (put r st s)).
Proof.
  intros []. destruct r as [[] i]; constructor; try done; (etrans; [apply length_insert | done]).
Qed.

Lemma put_put r st st' s : put r st (put r st' s) = put r st s.
Proof.
  destruct r as [[] i], s as [[] ? ? ? ? ? ?]; unfold put, set_bridge, set_streams_of, streams_of;
    cbn [fst snd bridge]; unfold set_captures, set_playback; cbn; by rewrite list_insert_insert_eq.
Qed.

Lemma bridge_put r st s : exists b, bridge (put r st s) = b /\
  istream b = istream (bridge s) /\ ostream b = ostream (bridge s) /\
  audif_irq_mask b = audif_irq_mask (bridge s).
Proof. destruct r as [[] i]; eexists; ands; done. Qed.

Lemma awp_get_stream r st (Q : trid_stream_state -> aud_state -> Prop) s :
  stream_at r s = Some st -> Q st s -> awp (get_stream r) Q s.
Proof. intros H HQ. apply awp_elt. eauto. Qed.

Lemma awp_mod_stream r f st (Q : unit -> aud_state -> Prop) s :
  stream_at r s = Some st -> Q tt (put r (f st) s) -> awp (mod_stream r f) Q s.
Proof. intros H HQ. apply awp_eltmod. eauto. Qed.

(** ** One stream *)

(** What a stream moves between, from its preparation on *)
Record geometry := Geometry {
  g_sub : Z; g_hw : Z; g_period : Z; g_buffer : Z; g_frame : Z;
  g_area : Z;                       (* the ALSA buffer *)
  g_seg : Z; g_size : Z;            (* the segment *)
}.

Record geometry_ok (r : sref) (g : geometry) : Prop := GeometryOk {
  go_sub : g_sub g <> 0;
  go_index : 0 <= snd r < (if fst r then TRID_MAX_OSTREAMS else TRID_MAX_PCMS);
  go_hw : 0 <= g_hw g < (if fst r then TRID_MAX_OSTREAMS else TRID_MAX_ISTREAMS);
  go_period : 0 < g_period g <= g_buffer g;
  go_period_seg : g_period g <= g_size g;
  go_buffer : g_buffer g < 2 ^ 30;
  go_size : g_size g < 2 ^ 30;
  go_frame : 0 < g_frame g;
  go_area : g_area g <> 0;
  go_apart : g_area g + g_buffer g <= g_seg g \/ g_seg g + g_size g <= g_area g;
}.

(** Source and destination: base and size *)
Definition g_src (r : sref) (g : geometry) : Z * Z :=
  if fst r then (g_seg g, g_size g) else (g_area g, g_buffer g).
Definition g_dst (r : sref) (g : geometry) : Z * Z :=
  if fst r then (g_area g, g_buffer g) else (g_seg g, g_size g).

(** The stream after [n] bytes *)
Record at_length (r : sref) (g : geometry) (n : Z) (st : trid_stream_state) : Prop := AtLength {
  al_sub : substream st = g_sub g;
  al_capture : capture st = fst r;
  al_hw : hw_stream st = g_hw g;
  al_period : period_bytes st = g_period g;
  al_buffer : buffer_bytes st = g_buffer g;
  al_ptr : hw_ptr_bytes st = n mod g_buffer g;
  al_offset : bridge_offset st = n mod g_size g;
}.

(** The state of the driver after the bytes [l] have been transferred *)
Record ring_rel (r : sref) (g : geometry) (l : list Z) (s : aud_state) : Prop := RingRel {
  rr_stream : exists st, stream_at r s = Some st /\ at_length r g (Z.of_nat (length l)) st;
  rr_sub : exists rt, substreams s !! g_sub g = Some (Substream (snd r) (fst r) (Some rt)) /\
    dma_area rt = g_area g /\ rt_frame_bytes rt = g_frame g;
  rr_seg : exists seg, (if fst r then ostream else istream) (bridge s) !! Z.to_nat (g_hw g) = Some seg /\
    seg_cpu seg = g_seg g /\ seg_size seg = g_size g;
  rr_mem : ring_holds (amem s) (fst (g_dst r g)) (snd (g_dst r g)) l;
  rr_shape : shape (bridge s);
}.

(** The bytes the next transfer takes *)
Definition next_period (r : sref) (g : geometry) (l : list Z) (s : aud_state) : list Z :=
  ring_bytes (amem s) (fst (g_src r g)) (snd (g_src r g))
    (Z.of_nat (length l) mod snd (g_src r g)) (g_period g).

(** A change of the stream's other fields, or of anything the relation does not read *)
Lemma ring_rel_move r g l0 l s st st' m :
  stream_at r s = Some st -> at_length r g (Z.of_nat (length l)) st' ->
  ring_holds m (fst (g_dst r g)) (snd (g_dst r g)) l ->
  ring_rel r g l0 s -> ring_rel r g l (put r st' (set_amem m s)).
Proof.
  intros Hst Hal Hm [_ H2 H3 _ H5]. destruct (bridge_put r st' (set_amem m s)) as (b & Hb & E1 & E2 & _).
  constructor; [|done | |done | by apply shape_put].
  - exists st'. split; [|done]. apply stream_at_put. exists st. exact Hst.
  - rewrite Hb. revert H3. destruct (fst r); by rewrite ?E1, ?E2.
Qed.

Lemma ring_rel_put r g l s st st' :
  stream_at r s = Some st -> at_length r g (Z.of_nat (length l)) st' ->
  ring_rel r g l s -> ring_rel r g l (put r st' s).
Proof.
  intros Hst Hal H. replace s with (set_amem (amem s) s) by (by destruct s).
  eapply ring_rel_move; [done.. | by destruct H | done].
Qed.

Lemma ring_rel_frame r g l s s' :
  frame s s' -> shape (bridge s') -> ring_rel r g l s -> ring_rel r g l s'.
Proof.
  intros [F1 F2 F3 F4 F6 F7 _] Hsh [H1 H2 H3 H4 H5]. constructor; [| | | |done].
  - destruct H1 as (st & E & Hal). exists st. split; [|done]. rewrite <- E.
    unfold stream_at, streams_of. destruct (fst r); congruence.
  - by rewrite F7.
  - revert H3. destruct (fst r); [by rewrite F2 | by rewrite F1].
  - by rewrite F6.
Qed.

(** ** A transfer *)

Lemma awp_get_sub p x (Q : snd_pcm_substream -> aud_state -> Prop) s :
  substreams s !! p = Some x -> Q x s -> awp (get_sub p) Q s.
Proof. intros H HQ. unfold awp, get_sub. by rewrite H. Qed.

Lemma awp_arem x d (Q : Z -> aud_state -> Prop) s : d <> 0 -> Q (u32 x mod d) s -> awp (arem x d) Q s.
Proof. intros H HQ. unfold arem. by rewrite (eqb_neq_false d 0). Qed.

Lemma next_period_length r g l s : geometry_ok r g ->
  Z.of_nat (length (l ++ next_period r g l s)) = Z.of_nat (length l) + g_period g.
Proof. intros []. rewrite length_app. unfold next_period. rewrite ring_bytes_length. lia. Qed.

Lemma at_length_next r g n st :
  geometry_ok r g -> at_length r g n st ->
  at_length r g (n + g_period g)
    (set_bridge_offset (u32 (bridge_offset st + period_bytes st) mod g_size g)
      (set_hw_ptr_bytes (u32 (hw_ptr_bytes st + period_bytes st) mod buffer_bytes st) st)).
Proof.
  intros [] []. constructor; try done; simpl.
  - rewrite al_ptr0, al_period0, al_buffer0. pose proof (Z.mod_pos_bound n (g_buffer g)).
    rewrite u32_small, Zplus_mod_idemp_l by lia. done.
  - rewrite al_offset0, al_period0. pose proof (Z.mod_pos_bound n (g_size g)).
    rewrite u32_small, Zplus_mod_idemp_l by lia. done.
Qed.

(** The copy of a transfer, in either direction *)
Lemma transfer_copy r g l s st :
  geometry_ok r g -> at_length r g (Z.of_nat (length l)) st ->
  ring_holds (amem s) (fst (g_dst r g)) (snd (g_dst r g)) l ->
  exists m, (if capture st then
       trid_copy_ring (g_area g) (buffer_bytes st) (hw_ptr_bytes st) (g_seg g) (g_size g)
         (bridge_offset st) (period_bytes st)
     else
       trid_copy_ring (g_seg g) (g_size g) (bridge_offset st) (g_area g) (buffer_bytes st)
         (hw_ptr_bytes st) (period_bytes st)) s = ADone tt (set_amem m s) /\
    ring_holds m (fst (g_dst r g)) (snd (g_dst r g)) (l ++ next_period r g l s).
Proof.
  intros [] [] Hm. rewrite al_capture0, al_buffer0, al_ptr0, al_period0, al_offset0.
  unfold next_period, g_dst, g_src in *. destruct (fst r); cbn [fst snd] in *.
  - edestruct (ring_push (g_area g) (g_buffer g) (g_seg g) (g_size g)) as (m & E & H & _);
      [lia | lia | | apply Z.mod_pos_bound | | exact Hm | by eauto]; lia.
  - edestruct (ring_push (g_seg g) (g_size g) (g_area g) (g_buffer g)) as (m & E & H & _);
      [lia | lia | | apply Z.mod_pos_bound | | exact Hm | by eauto]; lia.
Qed.

Lemma awp_transfer r g l s st :
  geometry_ok r g -> ring_rel r g l s -> stream_at r s = Some st ->
  awp (trid_stream_transfer r) (fun _ s' =>
    ring_rel r g (l ++ next_period r g l s) s' /\ dev s' = dev s /\ elapsed s' = elapsed s /\
    jiffies s' = jiffies s /\
    exists st', stream_at r s' = Some st' /\ running st' = running st /\ timer st' = timer st) s.
Proof.
  intros Hg [(st0 & Hst & Hal) (rt & Hsub & Hrt & Hfr) (seg & Hseg & Hs1 & Hs2) Hm Hsh] Hst'.
  rewrite Hst in Hst'. injection Hst' as ->.
  destruct (transfer_copy r g l s st Hg Hal Hm) as (m & Hc & Hm').
  pose proof (at_length_next r g _ st Hg Hal) as Hal'. rewrite <- (next_period_length r g l s Hg) in Hal'.
  destruct (go_period _ _ Hg) as [Hp1 Hp2]. pose proof (go_period_seg _ _ Hg) as Hp3.
  unfold trid_stream_transfer. apply awp_bind. eapply awp_get_stream; [exact Hst|].
  rewrite (al_sub _ _ _ _ Hal), (eqb_neq_false (g_sub g)) by apply (go_sub _ _ Hg).
  apply awp_bind. eapply awp_get_sub; [exact Hsub|]. cbv beta. cbn [sub_runtime].
  rewrite Hrt, (eqb_neq_false (g_area g)) by apply (go_area _ _ Hg).
  apply awp_bind, awp_elt. exists seg. split.
  { rewrite (al_capture _ _ _ _ Hal), (al_hw _ _ _ _ Hal). exact Hseg. }
  rewrite Hs1, Hs2. apply awp_bind. unfold awp at 1. rewrite Hc.
  apply awp_bind, awp_arem; [rewrite (al_buffer _ _ _ _ Hal); lia|].
  apply awp_bind. eapply awp_mod_stream; [exact Hst|]. apply awp_bind, awp_arem; [lia|].
  eapply awp_mod_stream; [apply stream_at_put; exists st; exact Hst|].
  rewrite put_put. ands; [| done.. |].
  - eapply ring_rel_move; [done.. | by constructor; eauto].
  - eexists. split; [apply stream_at_put; exists st; exact Hst | done].
Qed.

(** ** The operations on the stream *)

Lemma at_length_timer r g n st t : at_length r g n st -> at_length r g n (set_timer t st).
Proof. by intros []. Qed.
Lemma at_length_running r g n st b : at_length r g n st -> at_length r g n (set_running b st).
Proof. by intros []. Qed.

Lemma ring_rel_at r g l s st :
  ring_rel r g l s -> stream_at r s = Some st -> at_length r g (Z.of_nat (length l)) st.
Proof. intros [(st0 & H1 & H2) _ _ _ _] H. rewrite H1 in H. by injection H as ->. Qed.

(** Changes of a stream's timer and running flag *)
Lemma awp_mod_flags r g l f st (Q : unit -> aud_state -> Prop) s :
  ring_rel r g l s -> stream_at r s = Some st ->
  (forall n, at_length r g n st -> at_length r g n (f st)) ->
  (ring_rel r g l (put r (f st) s) -> stream_at r (put r (f st) s) = Some (f st) -> Q tt (put r (f st) s)) ->
  awp (mod_stream r f) Q s.
Proof.
  intros Hr Hst Hf HQ. eapply awp_mod_stream; [exact Hst|]. apply HQ; [|apply stream_at_put; by exists st].
  eapply ring_rel_put; [exact Hst | | done]. apply Hf. by eapply ring_rel_at.
Qed.

Lemma awp_expire r g l s st :
  geometry_ok r g -> ring_rel r g l s -> stream_at r s = Some st ->
  awp (trid_stream_timer r) (fun b s' => b = running st /\
    ring_rel r g (if b then l ++ next_period r g l s else l) s' /\
    elapsed s' = elapsed s ++ (if b then [g_sub g] else [])) s.
Proof.
  intros Hg Hr Hst. unfold trid_stream_timer, timer_delete. apply awp_bind.
  eapply awp_mod_flags; [exact Hr | exact Hst | intros n; apply at_length_timer |]. intros Hr1 Hst1.
  apply awp_bind. eapply awp_get_stream; [exact Hst1|].
  rewrite (al_sub _ _ _ _ (ring_rel_at _ _ _ _ _ Hr1 Hst1)), (eqb_neq_false (g_sub g)) by apply (go_sub _ _ Hg).
  rewrite orb_false_r. change (running (set_timer None st)) with (running st). destruct (running st); simpl.
  - apply awp_bind. eapply awp_mono; [|by eapply awp_transfer]. cbv beta. intros _ s2 (H1 & _ & H2 & _).
    apply awp_bind, awp_amod, awp_ret. ands; [done | | simpl; by rewrite H2].
    destruct H1. by constructor.
  - apply awp_ret. ands; [done.. |]. by rewrite app_nil_r.
Qed.

Lemma awp_rearm r g l s st :
  ring_rel r g l s -> stream_at r s = Some st ->
  awp (trid_stream_rearm r) (fun _ s' => ring_rel r g l s' /\ elapsed s' = elapsed s) s.
Proof.
  intros Hr Hst. unfold trid_stream_rearm. apply awp_bind. eapply awp_get_stream; [exact Hst|].
  destruct (running st); [|by apply awp_ret]. apply awp_bind, awp_aget.
  eapply awp_mod_flags; [exact Hr | exact Hst | intros n; apply at_length_timer |]. by ands.
Qed.

Lemma trid_get_stream_ref r g rt :
  geometry_ok r g -> trid_get_stream (Substream (snd r) (fst r) rt) = Some r.
Proof.
  intros []. unfold trid_get_stream. destruct r as [[] i]; simpl in *; [|done]. by rewrite leb_false by lia.
Qed.

Lemma awp_stop r g l s :
  windows_ok -> geometry_ok r g -> ring_rel r g l s ->
  awp (if fst r then trid_ostream_stop (g_hw g) else trid_istream_stop (g_hw g))
    (fun ret s' => ret = 0 /\ ring_rel r g l s') s.
Proof.
  intros Hwin [] Hr. pose proof no_relation_law as H0.
  apply (awp_mono _ (fun ret s' => ret = 0 /\ inv no_relation s' /\ frame s s')).
  { intros ret s' (H1 & [H2 _] & H3). split; [done|]. by eapply ring_rel_frame. }
  assert (Hi : inv no_relation s) by (by destruct Hr).
  destruct (fst r); [by apply safe_ostream_stop | by apply safe_istream_stop].
Qed.

Lemma awp_start r g l s :
  windows_ok -> geometry_ok r g -> ring_rel r g l s ->
  awp (if fst r then trid_ostream_start (g_hw g) else trid_istream_start (g_hw g))
    (fun ret s' => ret = 0 /\ ring_rel r g l s') s.
Proof.
  intros Hwin Hg Hr. pose proof no_relation_law as H0.
  assert (Hi : inv no_relation s) by (by destruct Hr). destruct (go_hw _ _ Hg) as [Hn1 Hn2].
  pose proof (go_apart _ _ Hg) as Ha. pose proof (go_period _ _ Hg) as Hp. pose proof (go_period_seg _ _ Hg) as Hps.
  destruct (fst r) eqn:Er.
  - destruct (rr_seg _ _ _ _ Hr) as (seg & Hseg & E1 & E2). rewrite Er in Hseg.
    eapply awp_mono; [|by eapply (awp_ostream_start no_relation)]. cbv beta.
    intros ret s' (H1 & [H2 _] & m & Hm & Hf). split; [done|].
    eapply ring_rel_frame; [exact Hf | done |]. destruct Hr as [R1 R2 R3 R4 R5]. constructor; try done.
    eapply ring_holds_same; [| |exact R4]; unfold g_dst; rewrite Er; cbn [fst snd amem set_amem]; [lia|].
    intros x Hx. apply Hm. lia.
  - eapply awp_mono; [|by apply (safe_istream_start no_relation)]. cbv beta.
    intros ret s' (H1 & [H2 _] & Hf). split; [done|]. by eapply ring_rel_frame.
Qed.

Lemma awp_trigger r g l s st cmd :
  windows_ok -> geometry_ok r g -> ring_rel r g l s -> stream_at r s = Some st ->
  awp (trid_pcm_trigger (g_sub g) cmd) (fun ret s' =>
    ret = (if starts cmd || stops cmd then 0 else -22) /\
    ring_rel r g (if starts cmd && negb (fst r) then l ++ next_period r g l s else l) s') s.
Proof.
  intros Hwin Hg Hr Hst. destruct (rr_sub _ _ _ _ Hr) as (rt & Hsub & _).
  unfold trid_pcm_trigger. apply awp_bind. eapply awp_get_sub; [exact Hsub|].
  rewrite (trid_get_stream_ref _ _ _ Hg). destruct (starts cmd) eqn:Es; simpl.
  - apply awp_bind. eapply awp_mod_flags; [exact Hr | exact Hst | intros n; apply at_length_running |].
    intros Hr1 Hst1. apply awp_bind. eapply awp_get_stream; [exact Hst1|].
    pose proof (ring_rel_at _ _ _ _ _ Hr1 Hst1) as [_ Hcap Hhw _ _ _ _]. rewrite Hcap, Hhw.
    apply awp_bind. apply (awp_mono _ (fun _ s' =>
      ring_rel r g (if negb (fst r) then l ++ next_period r g l s else l) s')).
    2: { destruct (fst r); simpl; [by apply awp_ret|].
         eapply awp_mono; [|by eapply awp_transfer]. cbv beta. by intros _ s' (H & _). }
    intros _ s2 Hr2. apply awp_bind. eapply awp_mono; [|by eapply awp_start]. cbv beta.
    intros ret s3 [-> Hr3]. simpl. apply awp_bind, awp_aget, awp_bind.
    destruct (rr_stream _ _ _ _ Hr3) as (st3 & Hst3 & _). eapply awp_get_stream; [exact Hst3|].
    apply awp_bind. eapply awp_mod_flags; [exact Hr3 | exact Hst3 | intros n; apply at_length_timer |].
    intros Hr4 _. by apply awp_ret.
  - destruct (stops cmd); [|by apply awp_ret].
    apply awp_bind. eapply awp_mod_flags; [exact Hr | exact Hst | intros n; apply at_length_running |].
    intros Hr1 Hst1. apply awp_bind.
    eapply awp_mod_flags; [exact Hr1 | exact Hst1 | intros n; apply at_length_timer |]. intros Hr2 Hst2.
    apply awp_bind. eapply awp_get_stream; [exact Hst2|].
    pose proof (ring_rel_at _ _ _ _ _ Hr2 Hst2) as [_ Hcap Hhw _ _ _ _]. rewrite Hcap, Hhw. by apply (awp_stop r g).
Qed.

Lemma awp_pointer r g l s st :
  geometry_ok r g -> ring_rel r g l s -> stream_at r s = Some st ->
  awp (trid_pcm_pointer (g_sub g)) (fun v s' =>
    v = Z.of_nat (length l) mod g_buffer g / g_frame g /\ s' = s) s.
Proof.
  intros Hg Hr Hst. destruct (rr_sub _ _ _ _ Hr) as (rt & Hsub & _ & Hfr).
  unfold trid_pcm_pointer. apply awp_bind. eapply awp_get_sub; [exact Hsub|].
  rewrite (trid_get_stream_ref _ _ _ Hg). apply awp_bind. eapply awp_get_stream; [exact Hst|].
  apply awp_bind. unfold get_runtime. simpl. unfold awp at 1. rewrite Hfr.
  rewrite (eqb_neq_false (g_frame g)) by (pose proof (go_frame _ _ Hg); lia).
  apply awp_ret. by rewrite (al_ptr _ _ _ _ (ring_rel_at _ _ _ _ _ Hr Hst)).
Qed.

(** ** Preparation *)

(** Parameters that the hardware description lets through *)
Record fits (h : snd_pcm_hardware) (rt : snd_pcm_runtime) : Prop := Fits {
  fit_width : rt_width rt ∈ hw_widths h;
  fit_rate : rt_rate rt ∈ hw_rates h;
  fit_channels : channels_min h <= rt_channels rt <= channels_max h;
  fit_frame : rt_frame_bytes rt = rt_width rt / 8 * rt_channels rt;
  fit_period : period_bytes_min h <= period_size rt * rt_frame_bytes rt <= period_bytes_max h;
  fit_buffer : period_size rt * rt_frame_bytes rt <= buffer_size rt * rt_frame_bytes rt <= buffer_bytes_max h;
}.

Definition trid_hw (r : sref) : snd_pcm_hardware := if fst r then trid_capture_hw else trid_playback_hw.

Lemma fits_bounds r rt : fits (trid_hw r) rt ->
  0 <= rt_rate rt <= 192000 /\ 0 <= rt_channels rt <= 2 /\ 0 <= rt_width rt <= 32 /\
  256 <= period_size rt * rt_frame_bytes rt <= 0x4000 /\
  period_size rt * rt_frame_bytes rt <= buffer_size rt * rt_frame_bytes rt <= 0x20000 /\
  0 < rt_frame_bytes rt.
Proof.
  intros [F1 F2 F3 F4 F5 F6].
  assert (Hwid : rt_width rt = 16 \/ rt_width rt = 32).
  { unfold trid_hw in F1. destruct (fst r); cbn in F1; set_solver. }
  assert (Hr : 0 <= rt_rate rt <= 192000).
  { unfold trid_hw in F2. destruct (fst r); cbn in F2;
      repeat (apply elem_of_cons in F2 as [->|F2]; [lia|]); by apply elem_of_nil in F2. }
  assert (Hc : 1 <= rt_channels rt <= 2 /\ period_bytes_min (trid_hw r) = 256 /\
    period_bytes_max (trid_hw r) = 0x4000 /\ buffer_bytes_max (trid_hw r) = 0x20000).
  { unfold trid_hw in *. destruct (fst r); cbn in *; lia. }
  destruct Hc as (Hc & E1 & E2 & E3). rewrite E1, E2 in F5. rewrite E3 in F6.
  ands; try lia. rewrite F4. destruct Hwid as [->| ->]; [change (16 / 8) with 2 | change (32 / 8) with 4]; lia.
Qed.

(** The stream after trid_pcm_open for the substream [p] *)
Record opened (r : sref) (p : Z) (st : trid_stream_state) : Prop := Opened {
  op_sub : substream st = p;
  op_capture : capture st = fst r;
  op_hw : hw_stream st = snd r;
}.

Definition geometry_of (r : sref) (p : Z) (rt : snd_pcm_runtime) (seg : trid_dma_segment) : geometry :=
  Geometry p (snd r) (period_size rt * rt_frame_bytes rt) (buffer_size rt * rt_frame_bytes rt)
    (rt_frame_bytes rt) (dma_area rt) (seg_cpu seg) (seg_size seg).

(** The stream and the buffers before a preparation *)
Record ready (r : sref) (p : Z) (rt : snd_pcm_runtime) (seg : trid_dma_segment) (s : aud_state) : Prop := Ready {
  rd_shape : shape (bridge s);
  rd_sub_nonnull : p <> 0;
  rd_index : 0 <= snd r < (if fst r then TRID_MAX_OSTREAMS else TRID_MAX_PCMS);
  rd_stream : exists st, stream_at r s = Some st /\ opened r p st;
  rd_sub : substreams s !! p = Some (Substream (snd r) (fst r) (Some rt));
  rd_fits : fits (trid_hw r) rt;
  rd_seg : (if fst r then ostream else istream) (bridge s) !! Z.to_nat (snd r) = Some seg;
  rd_size : seg_size seg = TRID_SEGMENT_BYTES;
  rd_area : dma_area rt <> 0;
  rd_apart : dma_area rt + buffer_size rt * rt_frame_bytes rt <= seg_cpu seg \/
             seg_cpu seg + seg_size seg <= dma_area rt;
}.

Lemma ready_geometry r p rt seg s : ready r p rt seg s -> geometry_ok r (geometry_of r p rt seg).
Proof.
  intros []. destruct (fits_bounds _ _ rd_fits0) as (_ & _ & _ & Hp & Hb & Hf).
  unfold TRID_SEGMENT_BYTES in *. constructor; cbn [g_sub g_hw g_period g_buffer g_frame g_area g_seg g_size geometry_of];
    try done; try lia.
Qed.

Lemma awp_prepare r p rt seg s :
  windows_ok -> ready r p rt seg s ->
  awp (trid_pcm_prepare p) (fun ret s' => ret = 0 /\ ring_rel r (geometry_of r p rt seg) [] s') s.
Proof.
  intros Hwin Hrd. pose proof (ready_geometry _ _ _ _ _ Hrd) as Hg. destruct Hrd.
  destruct rd_stream0 as (st & Hst & [O1 O2 O3]).
  destruct (fits_bounds _ _ rd_fits0) as (B1 & B2 & B3 & B4 & B5 & B6).
  unfold trid_pcm_prepare. apply awp_bind. eapply awp_get_sub; [exact rd_sub0|].
  rewrite (trid_get_stream_ref r _ _ Hg). apply awp_bind. unfold get_runtime. simpl. unfold awp at 1.
  apply awp_bind. eapply awp_mod_stream; [exact Hst|]. rewrite !u32_small by lia.
  set (st' := set_bridge_offset 0 _). apply awp_bind. eapply awp_get_stream; [apply stream_at_put; by exists st|].
  assert (Hrel : ring_rel r (geometry_of r p rt seg) [] (put r st' s)).
  { destruct (bridge_put r st' s) as (b & Hb & E1 & E2 & _). constructor.
    - exists st'. split; [apply stream_at_put; by exists st|]. by constructor.
    - by exists rt.
    - exists seg. rewrite Hb. split; [|done]. destruct (fst r); by rewrite ?E1, ?E2.
    - intros i Hi. simpl in Hi. lia.
    - by apply shape_put. }
  eapply awp_mono; [|apply (safe_iface_prepare no_relation no_relation_law Hwin); try done].
  - cbv beta. intros ret s' (H1 & [H2 _] & H3). split; [done|]. by eapply ring_rel_frame.
  - split; [by apply shape_put | done].
Qed.
End Ring.
