(* ===== verification/AudioPower.v ===== *)
(** Suspend and resume of the audio bridge, stream by stream: each stream of the
    two arrays changes by [suspended] and [resumed], and nothing else does. *)
From S2P Require Import Prelude Mem Audio AudioIf AudioPcm AudioCore AudioInv AudioRing.

Section Power.
Context `{Hw : AudHw} {W : AudWin} {T : AudTime}.
Context (J : hw -> Z -> Prop) (HJ : mask_law J) (Hwin : windows_ok).

(** The streams the two loops visit *)
Definition all_refs : list sref := stream_refs false TRID_MAX_PCMS ++ stream_refs true TRID_MAX_OSTREAMS.

(** Parameters are in the hardware's ranges (zero before the first preparation),
    and an open stream is set up for its place. *)
Record stream_wf (r : sref) (st : trid_stream_state) : Prop := StreamWf {
  wf_place : substream st <> 0 -> capture st = fst r /\ hw_stream st = snd r;
  wf_rate : 0 <= rate st <= 192000;
  wf_channels : 0 <= channels st <= 2;
  wf_bits : 0 <= sample_bits st <= 32;
}.
Definition streams_wf (s : aud_state) : Prop := forall r st,
  r ∈ all_refs -> stream_at r s = Some st -> stream_wf r st.

Definition suspended (st : trid_stream_state) : trid_stream_state :=
  if substream st =? 0 then st
  else if running st then set_running false (set_timer None (set_resume_running true st))
  else set_resume_running false st.

Definition resumed (j : Z) (st : trid_stream_state) : trid_stream_state :=
  if substream st =? 0 then st
  else if resume_running st then set_timer (Some (j + 1)) (set_running true st)
  else st.

Lemma suspended_stops st : substream st <> 0 ->
  running (suspended st) = false /\ (running st = true -> timer (suspended st) = None).
Proof.
  intros H. unfold suspended. rewrite (eqb_neq_false _ _ H). by destruct (running st) eqn:E.
Qed.

Lemma resumed_suspended j st : substream st <> 0 ->
  resumed j (suspended st) =
    if running st then set_timer (Some (j + 1)) (set_resume_running true st) else set_resume_running false st.
Proof.
  destruct st as [sub tm run rr ? ? ? ? ? ? ? ? ? ? ?]. unfold suspended. simpl. intros H.
  rewrite (eqb_neq_false _ _ H). destruct run; unfold resumed; simpl; by rewrite (eqb_neq_false _ _ H).
Qed.

Lemma resumed_twice j st : substream st <> 0 -> running (resumed j (suspended (suspended st))) = false.
Proof.
  destruct st as [sub tm run rr ? ? ? ? ? ? ? ? ? ? ?]. unfold suspended. simpl. intros H.
  rewrite !(eqb_neq_false _ _ H). destruct run; simpl; rewrite (eqb_neq_false _ _ H);
    unfold resumed; simpl; by rewrite (eqb_neq_false _ _ H).
Qed.

Lemma all_refs_range (r : sref) :
  r ∈ all_refs -> 0 <= snd r < (if fst r then TRID_MAX_OSTREAMS else TRID_MAX_PCMS).
Proof.
  unfold all_refs, stream_refs. rewrite elem_of_app, !list_elem_of_fmap.
  intros [(i & -> & Hi)|(i & -> & Hi)]; apply elem_of_seqZ in Hi; simpl in *;
    unfold TRID_MAX_PCMS, TRID_MAX_OSTREAMS in *; lia.
Qed.

Lemma refs_apart (r r' : sref) :
  r ∈ all_refs -> r' ∈ all_refs -> r <> r' -> fst r <> fst r' \/ Z.to_nat (snd r) <> Z.to_nat (snd r').
Proof.
  intros H%all_refs_range H'%all_refs_range Hne. destruct r as [a i], r' as [b k]; simpl in *.
  destruct (bool_decide (a = b)) eqn:E; [right | left]; [apply bool_decide_eq_true in E | by apply bool_decide_eq_false in E].
  subst. intros E. apply Hne. f_equal. lia.
Qed.

Definition segments_of (s : aud_state) : list trid_dma_segment * list trid_dma_segment :=
  (istream (bridge s), ostream (bridge s)).

Lemma segments_put r st s : segments_of (put r st s) = segments_of s.
Proof. destruct (bridge_put r st s) as (b & Hb & E1 & E2 & _). unfold segments_of. by rewrite Hb, E1, E2. Qed.
Lemma segments_frame s s' : frame s s' -> segments_of s' = segments_of s.
Proof. intros []. unfold segments_of. congruence. Qed.

(** [s'] is [s] with the stream [r] replaced. *)
Record replaced (r : sref) (st : trid_stream_state) (s s' : aud_state) : Prop := Replaced {
  rp_inv : inv J s';
  rp_same : stream_at r s' = Some st;
  rp_others r' : r' ∈ all_refs -> r' <> r -> stream_at r' s' = stream_at r' s;
  rp_jiffies : jiffies s' = jiffies s;
  rp_subs : substreams s' = substreams s;
  rp_segs : segments_of s' = segments_of s;
}.

Lemma inv_put r st s : inv J s -> inv J (put r st s).
Proof.
  intros [Hs Hj]. split; [by apply shape_put|]. destruct (bridge_put r st s) as (b & Hb & _ & _ & E).
  by rewrite Hb, E.
Qed.

Lemma replaced_refl r st s : inv J s -> stream_at r s = Some st -> replaced r st s s.
Proof. by constructor. Qed.

Lemma replaced_put r st0 st1 st s s' :
  r ∈ all_refs -> replaced r st0 s s' -> st = st1 -> replaced r st s (put r st1 s').
Proof.
  clear HJ Hwin. intros Hr [] ->. constructor.
  - by apply inv_put.
  - apply stream_at_put. by exists st0.
  - intros r' Hr' Hne. rewrite <- rp_others0 by done. by apply put_other, refs_apart.
  - done.
  - done.
  - by rewrite segments_put.
Qed.

Lemma frame_stream_at r s s' : frame s s' -> stream_at r s' = stream_at r s.
Proof. intros []. unfold stream_at, streams_of. destruct (fst r); congruence. Qed.

Lemma replaced_frame r st s s' s2 : replaced r st s s' -> inv J s2 -> frame s' s2 -> replaced r st s s2.
Proof.
  clear HJ Hwin. intros [] Hi Hf. constructor; [done | by rewrite (frame_stream_at _ _ _ Hf) | | destruct Hf; congruence..
    | by rewrite (segments_frame _ _ Hf)].
  intros r' Hr' Hne. rewrite (frame_stream_at _ _ _ Hf). by apply rp_others0.
Qed.

Lemma awp_suspend_stream r st s :
  r ∈ all_refs -> inv J s -> stream_at r s = Some st -> stream_wf r st ->
  awp (trid_suspend_stream r) (fun _ s' => replaced r (suspended st) s s') s.
Proof.
  intros Hr Hs Hst Hwf. pose proof (replaced_refl r st s Hs Hst) as R0. pose proof (all_refs_range r Hr) as Hi.
  unfold trid_suspend_stream, suspended, timer_delete. apply awp_bind. eapply awp_get_stream; [exact Hst|].
  destruct (Z.eqb_spec (substream st) 0) as [|Hne]; [by apply awp_ret|].
  destruct (wf_place _ _ Hwf Hne) as [W1 W2].
  apply awp_bind. eapply awp_mod_stream; [exact Hst|].
  pose proof (replaced_put r st _ _ s s Hr R0 eq_refl : replaced r (set_resume_running (running st) st) s _) as R1.
  destruct (running st) eqn:Er; simpl; [|by apply awp_ret].
  apply awp_bind. eapply awp_mod_stream; [exact (rp_same _ _ _ _ R1)|].
  pose proof (replaced_put r _ _ _ s _ Hr R1 eq_refl : replaced r (set_timer None (set_resume_running true st)) s _) as R2.
  apply awp_bind. apply (awp_mono _ (fun _ s' => replaced r (set_timer None (set_resume_running true st)) s s')).
  - intros ret s' R3. eapply awp_mod_stream; [exact (rp_same _ _ _ _ R3)|]. by eapply replaced_put.
  - eapply awp_mono; [|rewrite W1, W2; instantiate (1 := fun ret s' => ret = 0 /\ inv J s' /\ frame _ s')].
    + intros ret s' (_ & H1 & H2). by eapply replaced_frame.
    + destruct (fst r); [apply safe_ostream_stop | apply safe_istream_stop]; try done; by destruct R2.
Qed.

Lemma awp_start_stream r st0 s s' :
  r ∈ all_refs -> replaced r st0 s s' ->
  awp (if fst r then trid_ostream_start (snd r) else trid_istream_start (snd r))
    (fun ret s2 => ret = 0 /\ replaced r st0 s s2) s'.
Proof.
  intros Hr R. pose proof (all_refs_range r Hr) as Hi. pose proof (rp_inv _ _ _ _ R) as Hs.
  destruct (fst r) eqn:Er.
  - destruct (lookup_lt_is_Some_2 (ostream (bridge s')) (Z.to_nat (snd r))) as [seg Hseg].
    { destruct Hs as [Hs _]. rewrite (sh_ostream _ Hs). unfold TRID_MAX_OSTREAMS in Hi. lia. }
    eapply awp_mono; [|by eapply (awp_ostream_start J)]. cbv beta.
    intros ret s2 (H1 & H2 & m & _ & Hf). split; [done|]. eapply replaced_frame; [|done | exact Hf].
    by destruct R; constructor.
  - eapply awp_mono; [|by apply (safe_istream_start J)]. cbv beta.
    intros ret s2 (H1 & H2 & Hf). split; [done|]. by eapply replaced_frame.
Qed.

Lemma awp_resume_stream r st s :
  r ∈ all_refs -> inv J s -> stream_at r s = Some st -> stream_wf r st ->
  awp (trid_resume_stream r) (fun ret s' => ret = 0 /\ replaced r (resumed (jiffies s) st) s s') s.
Proof.
  intros Hr Hs Hst Hwf. pose proof (replaced_refl r st s Hs Hst) as R0.
  unfold trid_resume_stream, resumed, mod_timer. apply awp_bind. eapply awp_get_stream; [exact Hst|].
  destruct (Z.eqb_spec (substream st) 0) as [|Hne]; [by apply awp_ret|].
  destruct Hwf as [W0 W3 W4 W5]. destruct (W0 Hne) as [W1 W2].
  apply awp_bind. eapply awp_mono; [|by apply (safe_iface_prepare J)]. cbv beta.
  intros ret s1 (-> & H1 & H2). simpl. pose proof (replaced_frame r _ _ _ _ R0 H1 H2) as R1.
  destruct (resume_running st) eqn:Er; simpl; [|by apply awp_ret].
  apply awp_bind. rewrite W1, W2. eapply awp_mono; [|by eapply awp_start_stream]. cbv beta.
  intros ret s2 [-> R2]. simpl. apply awp_bind. eapply awp_mod_stream; [exact (rp_same _ _ _ _ R2)|].
  pose proof (replaced_put r _ _ _ s _ Hr R2 eq_refl : replaced r (set_running true st) s _) as R3.
  apply awp_bind, awp_aget, awp_bind. eapply awp_mod_stream; [exact (rp_same _ _ _ _ R3)|]. apply awp_ret.
  split; [done|]. rewrite (rp_jiffies _ _ _ _ R3). by eapply replaced_put.
Qed.

(** ** The loops *)

Lemma replaced_wf r st s s' :
  replaced r st s s' -> streams_wf s -> stream_wf r st -> streams_wf s'.
Proof.
  clear HJ Hwin. intros [] Hwf Hst r' st' Hr' Hst'. destruct (decide (r' = r)) as [->|Hne].
  - rewrite rp_same0 in Hst'. by injection Hst' as ->.
  - rewrite rp_others0 in Hst' by done. by apply Hwf.
Qed.

(** Each stream of [l] is changed by [f], the others are as they were. *)
Record changed (f : trid_stream_state -> trid_stream_state) (l : list sref) (s s' : aud_state) : Prop := Changed {
  ch_inv : inv J s';
  ch_wf : streams_wf s';
  ch_in r : r ∈ l -> stream_at r s' = f <$> stream_at r s;
  ch_out r : r ∈ all_refs -> r ∉ l -> stream_at r s' = stream_at r s;
  ch_jiffies : jiffies s' = jiffies s;
  ch_subs : substreams s' = substreams s;
  ch_segs : segments_of s' = segments_of s;
}.

Lemma changed_nil f s : inv J s -> streams_wf s -> changed f [] s s.
Proof. clear HJ Hwin. constructor; [done | done | set_solver | done | done | done | done]. Qed.

Lemma changed_cons f r l st s s1 s2 :
  r ∈ all_refs -> l ⊆ all_refs -> r ∉ l -> stream_at r s = Some st ->
  replaced r (f st) s s1 -> changed f l s1 s2 -> changed f (r :: l) s s2.
Proof.
  clear HJ Hwin. intros Hr Hl Hnr Hst [] []. constructor; [done | done | | | | |].
  - intros r' [->|Hr']%elem_of_cons.
    + by rewrite ch_out0, rp_same0, Hst.
    + rewrite ch_in0 by done. f_equal. apply rp_others0; set_solver.
  - intros r' Hr' Hn. rewrite ch_out0, rp_others0; set_solver.
  - by rewrite ch_jiffies0.
  - by rewrite ch_subs0.
  - by rewrite ch_segs0.
Qed.

Lemma changed_app f l1 l2 s s1 s2 :
  l2 ⊆ all_refs -> l1 ⊆ all_refs -> (forall r, r ∈ l1 -> r ∉ l2) ->
  changed f l1 s s1 -> changed f l2 s1 s2 -> changed f (l1 ++ l2) s s2.
Proof.
  clear HJ Hwin. intros Hl2 Hl1 Hd [] []. constructor; [done | done | | | | |].
  - intros r [H|H]%elem_of_app.
    + rewrite ch_out1 by (try apply Hl1; try apply Hd; done). by apply ch_in0.
    + rewrite ch_in1 by done. f_equal. apply ch_out0; [by apply Hl2|]. intros H1. by apply (Hd r).
  - intros r Hr Hn. rewrite ch_out1, ch_out0; set_solver.
  - by rewrite ch_jiffies1.
  - by rewrite ch_subs1.
  - by rewrite ch_segs1.
Qed.

Lemma stream_present r s : r ∈ all_refs -> inv J s -> is_Some (stream_at r s).
Proof.
  intros Hr [Hs _]. pose proof (all_refs_range r Hr) as Hi. apply lookup_lt_is_Some_2.
  unfold streams_of, TRID_MAX_OSTREAMS, TRID_MAX_PCMS in *.
  destruct (fst r); rewrite ?(sh_captures _ Hs), ?(sh_playback _ Hs); lia.
Qed.

Lemma suspended_wf r st : stream_wf r st -> stream_wf r (suspended st).
Proof. intros []. unfold suspended. repeat case_match; by constructor. Qed.
Lemma resumed_wf j r st : stream_wf r st -> stream_wf r (resumed j st).
Proof. intros []. unfold resumed. repeat case_match; by constructor. Qed.

Lemma awp_suspend_array l s :
  NoDup l -> l ⊆ all_refs -> inv J s -> streams_wf s ->
  awp (suspend_array l) (fun _ s' => changed suspended l s s') s.
Proof.
  intros Hnd. revert s. induction Hnd as [|r l Hr Hnd IH]; intros s Hl Hs Hwf; simpl.
  { apply awp_ret. by apply changed_nil. }
  assert (Hra : r ∈ all_refs) by set_solver. destruct (stream_present r s Hra Hs) as [st Hst].
  apply awp_bind. eapply awp_mono; [|by apply (awp_suspend_stream r st s Hra Hs Hst (Hwf r st Hra Hst))].
  cbv beta. intros _ s1 R. eapply awp_mono; [|apply IH; [set_solver | by destruct R |]].
  - cbv beta. intros _ s2 Hc. eapply changed_cons; [done | set_solver | done | done | exact R | done].
  - eapply replaced_wf; [exact R | done |]. apply suspended_wf. by apply Hwf.
Qed.

Lemma awp_resume_array l s :
  NoDup l -> l ⊆ all_refs -> inv J s -> streams_wf s ->
  awp (resume_array l) (fun ret s' => ret = 0 /\ changed (resumed (jiffies s)) l s s') s.
Proof.
  intros Hnd. revert s. induction Hnd as [|r l Hr Hnd IH]; intros s Hl Hs Hwf; simpl.
  { apply awp_ret. split; [done|]. by apply changed_nil. }
  assert (Hra : r ∈ all_refs) by set_solver. destruct (stream_present r s Hra Hs) as [st Hst].
  apply awp_bind. eapply awp_mono; [|by apply (awp_resume_stream r st s Hra Hs Hst (Hwf r st Hra Hst))].
  cbv beta. intros ret s1 [-> R]. simpl. eapply awp_mono; [|apply IH; [set_solver | by destruct R |]].
  - cbv beta. intros ret s2 [-> Hc]. split; [done|]. rewrite (rp_jiffies _ _ _ _ R) in Hc.
    eapply changed_cons; [done | set_solver | done | done | exact R | done].
  - eapply replaced_wf; [exact R | done |]. apply resumed_wf. by apply Hwf.
Qed.

(** ** Suspend and resume of the device *)

Lemma changed_frame f l s s1 s2 : changed f l s s1 -> inv J s2 -> frame s1 s2 -> changed f l s s2.
Proof.
  clear HJ Hwin. intros [] Hi Hf. constructor; [done | | | | | |].
  - intros r st Hr Hst. rewrite (frame_stream_at _ _ _ Hf) in Hst. by apply ch_wf0.
  - intros r Hr. rewrite (frame_stream_at _ _ _ Hf). by apply ch_in0.
  - intros r Hr Hn. rewrite (frame_stream_at _ _ _ Hf). by apply ch_out0.
  - destruct Hf. congruence.
  - destruct Hf. congruence.
  - by rewrite (segments_frame _ _ Hf).
Qed.

Lemma frame_changed f l s s1 s2 : frame s s1 -> changed f l s1 s2 -> changed f l s s2.
Proof.
  clear HJ Hwin. intros Hf []. constructor; [done | done | | | | |].
  - intros r Hr. by rewrite ch_in0, (frame_stream_at _ _ _ Hf).
  - intros r Hr Hn. by rewrite ch_out0, (frame_stream_at _ _ _ Hf).
  - rewrite ch_jiffies0. by destruct Hf.
  - rewrite ch_subs0. by destruct Hf.
  - rewrite ch_segs0. by rewrite (segments_frame _ _ Hf).
Qed.

Lemma wf_frame s s' : frame s s' -> streams_wf s -> streams_wf s'.
Proof. intros Hf H r st Hr Hst. rewrite (frame_stream_at _ _ _ Hf) in Hst. by apply H. Qed.

Lemma inv_pm b s : inv J s -> inv J (set_bridge (set_pm_error b) s).
Proof. intros [[] Hj]. by split. Qed.
Lemma frame_pm b s : frame s (set_bridge (set_pm_error b) s).
Proof. by constructor. Qed.

Lemma refs_nodup cap n : NoDup (stream_refs cap n).
Proof. apply NoDup_fmap_2; [intros ? ? [=]; done | apply NoDup_seqZ]. Qed.
Lemma playback_refs_all : stream_refs false TRID_MAX_PCMS ⊆ all_refs.
Proof. intros r H. apply elem_of_app. by left. Qed.
Lemma capture_refs_all : stream_refs true TRID_MAX_OSTREAMS ⊆ all_refs.
Proof. intros r H. apply elem_of_app. by right. Qed.
Lemma refs_disjoint r : r ∈ stream_refs false TRID_MAX_PCMS -> r ∉ stream_refs true TRID_MAX_OSTREAMS.
Proof.
  unfold stream_refs. rewrite !list_elem_of_fmap. intros (i & -> & _) (k & E & _). done.
Qed.

Lemma awp_suspend s :
  inv J s -> streams_wf s ->
  awp trid_suspend (fun ret s' => ret = 0 /\ changed suspended all_refs s s') s.
Proof.
  intros Hs Hwf. unfold trid_suspend, trid_suspend_streams. apply awp_bind, awp_bind.
  eapply awp_mono; [|apply awp_suspend_array; [apply refs_nodup | apply playback_refs_all | done | done]].
  cbv beta. intros _ s1 H1.
  eapply awp_mono; [|apply awp_suspend_array; [apply refs_nodup | apply capture_refs_all | by destruct H1 | by destruct H1]].
  cbv beta. intros _ s2 H2.
  pose proof (changed_app _ _ _ _ _ _ capture_refs_all playback_refs_all refs_disjoint H1 H2) as Hc.
  apply awp_bind. eapply awp_mono; [|apply (safe_audioio_exit J HJ Hwin); by destruct Hc]. cbv beta.
  intros _ s3 (_ & Hi & Hf). apply awp_bind, awp_amod, awp_ret. split; [done|].
  eapply changed_frame; [by eapply changed_frame | by apply inv_pm | apply frame_pm].
Qed.

Lemma awp_resume_streams s :
  inv J s -> streams_wf s ->
  awp trid_resume_streams (fun ret s' => ret = 0 /\ changed (resumed (jiffies s)) all_refs s s') s.
Proof.
  intros Hs Hwf. unfold trid_resume_streams. apply awp_bind.
  eapply awp_mono; [|apply awp_resume_array; [apply refs_nodup | apply playback_refs_all | done | done]].
  cbv beta. intros ret s1 [-> H1]. change (negb (0 =? 0)) with false. cbv iota.
  eapply awp_mono; [|apply awp_resume_array; [apply refs_nodup | apply capture_refs_all | by destruct H1 | by destruct H1]].
  cbv beta. intros ret s2 [-> H2]. split; [done|]. rewrite (ch_jiffies _ _ _ _ H1) in H2.
  exact (changed_app _ _ _ _ _ _ capture_refs_all playback_refs_all refs_disjoint H1 H2).
Qed.

Lemma awp_resume s :
  shape (bridge s) -> streams_wf s ->
  awp trid_resume (fun ret s' => ret = 0 /\ pm_error (bridge s') = false /\
    changed (resumed (jiffies s)) all_refs s s') s.
Proof.
  intros Hs Hwf. unfold trid_resume. apply awp_bind.
  eapply awp_mono; [|by apply (audioio_init_settles J HJ Hwin)]. cbv beta. intros ret s1 (-> & Hi & Hf).
  change (0 =? 0) with true. cbv iota.
  apply awp_bind. eapply awp_mono; [|apply awp_resume_streams; [done | by eapply wf_frame]]. cbv beta.
  intros ret s2 [-> Hc]. replace (jiffies s1) with (jiffies s) in Hc by (by destruct Hf).
  apply awp_bind, awp_amod, awp_ret. ands; [done.. |].
  eapply changed_frame; [by eapply frame_changed | | apply frame_pm].
  apply inv_pm. by destruct Hc.
Qed.
End Power.

(** ** Close and open *)

Section Reopen.
Context `{Hw : AudHw} {W : AudWin} {T : AudTime}.

Lemma replaced_changed J f r st s s' :
  r ∈ all_refs -> stream_at r s = Some st -> replaced J r (f st) s s' -> streams_wf s ->
  stream_wf r (f st) -> changed J f [r] s s'.
Proof.
  intros Hr Hst H Hs Hwf. eapply changed_cons; [done | set_solver | set_solver | exact Hst | exact H |].
  apply changed_nil; [by destruct H | by eapply replaced_wf].
Qed.

(** What a close and an open do to a stream *)
Definition closed (st : trid_stream_state) : trid_stream_state :=
  set_substream 0 (set_running false (set_timer None st)).
Definition reopened (r : sref) (p : Z) (st : trid_stream_state) : trid_stream_state :=
  set_timer None (set_bridge_offset 0 (set_hw_ptr_bytes 0 (set_hw_stream (snd r)
    (set_iface (if fst r then trid_capture_iface (snd r) else trid_playback_iface (snd r))
    (set_pcm_dev (snd r) (set_capture (fst r) (set_running false (set_substream p st)))))))).

Lemma awp_close J r p sub st s :
  substreams s !! p = Some sub -> trid_get_stream sub = Some r -> stream_at r s = Some st ->
  r ∈ all_refs -> inv J s -> streams_wf s ->
  awp (trid_pcm_close p) (fun ret s' => ret = 0 /\ changed J closed [r] s s' /\ amem s' = amem s) s.
Proof.
  intros Hsub Hget Hst Hr Hs Hwf. unfold trid_pcm_close, timer_delete. apply awp_bind.
  eapply awp_get_sub; [exact Hsub|]. rewrite Hget. apply awp_bind. eapply awp_mod_stream; [exact Hst|].
  apply awp_bind. eapply awp_mod_stream; [apply stream_at_put; by exists st|]. apply awp_ret.
  rewrite put_put. split; [done|]. split; [|by destruct r as [[] ?]].
  pose proof (replaced_refl J r st s Hs Hst) as R.
  eapply replaced_changed; [done | exact Hst | by eapply replaced_put | done |].
  destruct (Hwf r st Hr Hst). by constructor.
Qed.

Lemma awp_open J r p rt st s :
  substreams s !! p = Some (Substream (snd r) (fst r) rt) -> stream_at r s = Some st ->
  r ∈ all_refs -> inv J s -> streams_wf s ->
  awp (trid_pcm_open p) (fun ret s' => ret = 0 /\ changed J (reopened r p) [r] s s' /\ amem s' = amem s) s.
Proof.
  intros Hsub Hst Hr Hs Hwf. pose proof (all_refs_range r Hr) as Hi. unfold trid_pcm_open. apply awp_bind.
  eapply awp_get_sub; [exact Hsub|].
  assert (Hget : trid_get_stream (Substream (snd r) (fst r) rt) = Some r).
  { unfold trid_get_stream. destruct r as [[] i]; simpl in *; [by rewrite leb_false by lia | done]. }
  rewrite Hget. apply awp_bind. eapply awp_mod_stream; [exact Hst|]. apply awp_ret.
  split; [done|]. split; [|by destruct r as [[] ?]].
  pose proof (replaced_refl J r st s Hs Hst) as R.
  eapply replaced_changed; [done | exact Hst | | done | destruct (Hwf r st Hr Hst); by constructor].
  eapply replaced_put; [done | exact R |]. unfold reopened. simpl.
  unfold TRID_MAX_OSTREAMS, TRID_MAX_ISTREAMS, TRID_MAX_PCMS in *.
  destruct (fst r); rewrite Z.mod_small by lia; done.
Qed.
End Reopen.
