(* ===== verification/AudioMask.v ===== *)
(** The shadow of the AudIf interrupt mask over every run of the audio bridge: the
    operations of the driver as one type of steps, and what each of them keeps. *)
From S2P Require Import Prelude Mem Audio AudioIf AudioPcm AudioCore AudioInv AudioRing AudioPower.

Section Mask.
Context `{Hw : AudHw} {W : AudWin} {T : AudTime}.

(** ** Operations *)

Inductive aud_op : Type :=
| OpOpen (p : Z) | OpClose (p : Z) | OpPrepare (p : Z) | OpTrigger (p cmd : Z) | OpPointer (p : Z)
| OpTimer (r : sref) | OpRearm (r : sref)
| OpBridgeIrq | OpInterfaceIrq
| OpDelayPut (idx v : Z) | OpArcGet | OpArcPut (item : Z) | OpOwaGet | OpOwaPut (item : Z)
| OpIoctl (cmd : Z) (arg : option Z) | OpSuspend | OpResume
| OpAlsa (subs : gmap Z snd_pcm_substream)   (* ALSA opens, closes, sets parameters *)
| OpMemory (m : mem)                         (* the user, the hardware *)
| OpTick (j : Z).

Definition ignore {X} (m : A X) : A unit := _ ← m; mret tt.

Definition run_op (o : aud_op) : A unit :=
  match o with
  | OpOpen p => ignore (trid_pcm_open p)
  | OpClose p => ignore (trid_pcm_close p)
  | OpPrepare p => ignore (trid_pcm_prepare p)
  | OpTrigger p cmd => ignore (trid_pcm_trigger p cmd)
  | OpPointer p => ignore (trid_pcm_pointer p)
  | OpTimer r => ignore (trid_stream_timer r)
  | OpRearm r => trid_stream_rearm r
  | OpBridgeIrq => ignore trid_audbrg_irq_thread
  | OpInterfaceIrq => ignore trid_audif_irq_thread
  | OpDelayPut idx v => ignore (trid_delayline_put idx v)
  | OpArcGet => ignore trid_arc_source_get
  | OpArcPut i => ignore (trid_arc_source_put i)
  | OpOwaGet => ignore trid_msp_owa_out_get
  | OpOwaPut i => ignore (trid_msp_owa_out_put i)
  | OpIoctl cmd arg => ignore (trid_misc_ioctl cmd arg)
  | OpSuspend => ignore trid_suspend
  | OpResume => ignore trid_resume
  | OpAlsa subs => amod (set_substreams subs)
  | OpMemory m => amod (set_amem m)
  | OpTick j => amod (set_jiffies j)
  end.

(** A substream of one of the card's PCMs, with its runtime *)
Definition known_sub (p : Z) (r : sref) (rt : snd_pcm_runtime) (s : aud_state) : Prop :=
  p <> 0 /\ r ∈ all_refs /\ substreams s !! p = Some (Substream (snd r) (fst r) (Some rt)).
Definition is_open (p : Z) (r : sref) (s : aud_state) : Prop :=
  exists st, stream_at r s = Some st /\ substream st = p.

(** What ALSA and the kernel ensure of a call *)
Definition op_ok (o : aud_op) (s : aud_state) : Prop :=
  match o with
  | OpOpen p | OpClose p => exists r rt, known_sub p r rt s
  | OpPrepare p => exists r rt, known_sub p r rt s /\ is_open p r s /\ fits (trid_hw r) rt
  | OpTrigger p _ => exists r rt, known_sub p r rt s /\ is_open p r s
  | OpTimer r | OpRearm r => r ∈ all_refs
  | OpDelayPut idx _ => 0 <= idx < TRID_MAX_DELAYLINES
  | _ => True
  end.

Inductive aud_step : aud_state -> aud_state -> Prop :=
| AudStep o s s' : op_ok o s -> run_op o s = ADone tt s' -> aud_step s s'.

(** ** Partial correctness *)

Definition wlp {X} (m : A X) (Q : X -> aud_state -> Prop) (s : aud_state) : Prop :=
  match m s with ADone a s' => Q a s' | AStop _ => True end.

Lemma wlp_bind {X Y} (m : A X) (k : X -> A Y) Q s : wlp m (fun a s' => wlp (k a) Q s') s -> wlp (mbind k m) Q s.
Proof. unfold wlp, mbind, A_bind. by destruct (m s). Qed.
Lemma wlp_awp {X} (m : A X) (Q : X -> aud_state -> Prop) s : awp m Q s -> wlp m Q s.
Proof. unfold awp, wlp. by destruct (m s). Qed.
Lemma wlp_mono {X} (m : A X) (Q Q' : X -> aud_state -> Prop) s :
  (forall a s', Q a s' -> Q' a s') -> wlp m Q s -> wlp m Q' s.
Proof. unfold wlp. intros H. destruct (m s); auto. Qed.
Lemma wlp_ignore {X} (m : A X) (Q : aud_state -> Prop) s :
  wlp m (fun _ => Q) s -> wlp (ignore m) (fun _ => Q) s.
Proof. unfold ignore, wlp, mbind, A_bind. by destruct (m s). Qed.

Context (J : hw -> Z -> Prop) (HJ : mask_law J) (Hwin : windows_ok).

Definition good (s : aud_state) : Prop := inv J s /\ streams_wf s.

Lemma good_safe {X} (m : A X) P s :
  safe J m P -> good s -> wlp m (fun _ s' => good s' /\ frame s s') s.
Proof.
  intros Hm [Hs Hwf]. apply wlp_awp. eapply awp_mono; [|by apply Hm]. cbv beta.
  intros a s' (_ & H1 & H2). ands; [split; [done|] | done]. by eapply wf_frame.
Qed.

Lemma good_put r st s :
  r ∈ all_refs -> good s -> is_Some (stream_at r s) -> stream_wf r st -> good (put r st s).
Proof.
  intros Hr [Hs Hwf] Hat Hst. split; [by apply inv_put|]. intros r' st' Hr' Hst'.
  destruct (decide (r' = r)) as [->|Hne].
  - rewrite stream_at_put in Hst' by done. by injection Hst' as <-.
  - rewrite put_other in Hst' by (by apply refs_apart). by apply Hwf.
Qed.

Lemma wlp_mod_stream r f st (Q : unit -> aud_state -> Prop) s :
  r ∈ all_refs -> good s -> stream_at r s = Some st -> (stream_wf r st -> stream_wf r (f st)) ->
  (good (put r (f st) s) -> stream_at r (put r (f st) s) = Some (f st) -> Q tt (put r (f st) s)) ->
  wlp (mod_stream r f) Q s.
Proof.
  intros Hr Hg Hst Hf HQ. apply wlp_awp. eapply awp_mod_stream; [exact Hst|].
  apply HQ; [|apply stream_at_put; by exists st]. apply good_put; [done | done | by exists st |].
  apply Hf. by apply (proj2 Hg).
Qed.

Lemma wlp_amod f (Q : unit -> aud_state -> Prop) s : Q tt (f s) -> wlp (amod f) Q s.
Proof. done. Qed.
Lemma wlp_ret {X} (a : X) (Q : X -> aud_state -> Prop) s : Q a s -> wlp (mret a) Q s.
Proof. done. Qed.
Lemma wlp_arem x d (Q : Z -> aud_state -> Prop) s : (forall v, Q v s) -> wlp (arem x d) Q s.
Proof. intros H. unfold arem. destruct (d =? 0); [done | apply H]. Qed.
Lemma wlp_get_sub p (Q : snd_pcm_substream -> aud_state -> Prop) s :
  (forall x, substreams s !! p = Some x -> Q x s) -> wlp (get_sub p) Q s.
Proof. intros H. unfold wlp, get_sub. destruct (_ !! p); auto. Qed.
Lemma wlp_elt {X} (f : trid_audio_bridge -> list X) i (Q : X -> aud_state -> Prop) s :
  (forall x, Q x s) -> wlp (elt f i) Q s.
Proof. intros H. unfold wlp, elt. destruct (_ !! _); auto. Qed.

(** A copy changes the memory. *)
Lemma wlp_copy fuel dst dsize doff src ssize soff n s :
  wlp (copy_ring fuel dst dsize doff src ssize soff n) (fun _ s' => exists m, s' = set_amem m s) s.
Proof.
  revert doff soff n s. induction fuel as [|fuel IH]; intros doff soff n s; [done|]. cbn [copy_ring].
  destruct (n =? 0); [apply wlp_ret; exists (amem s); by destruct s|].
  apply wlp_bind, wlp_amod, wlp_bind, wlp_arem. intros d. apply wlp_bind, wlp_arem. intros e.
  eapply wlp_mono; [|apply IH]. cbv beta. intros _ s' [m ->]. by exists m.
Qed.

(** Streams at the same place *)
Definition same_place (st st' : trid_stream_state) : Prop :=
  substream st' = substream st /\ capture st' = capture st /\ hw_stream st' = hw_stream st.

Lemma good_amem m s : good s -> good (set_amem m s).
Proof. done. Qed.

Lemma wlp_transfer r st s :
  r ∈ all_refs -> good s -> stream_at r s = Some st ->
  wlp (trid_stream_transfer r) (fun _ s' => good s' /\ exists st', stream_at r s' = Some st' /\ same_place st st') s.
Proof.
  intros Hr Hg Hst. unfold trid_stream_transfer. apply wlp_bind, wlp_awp.
  eapply awp_get_stream; [exact Hst|]. destruct (_ =? 0); [apply wlp_ret; split; [done | by exists st]|].
  apply wlp_bind, wlp_get_sub. intros sub _. destruct (sub_runtime sub) as [rt|]; [|split; [done | by exists st]].
  destruct (_ =? 0); [apply wlp_ret; split; [done | by exists st]|]. apply wlp_bind, wlp_elt. intros seg.
  apply wlp_bind, (wlp_mono _ (fun _ s' => exists m, s' = set_amem m s)).
  2: { destruct (capture st); apply wlp_copy. }
  intros _ s1 [m ->]. apply wlp_bind, wlp_arem. intros hp. apply wlp_bind.
  eapply wlp_mod_stream; [done | by apply good_amem | exact Hst | by intros [] |]. intros Hg1 Hst1.
  apply wlp_bind, wlp_arem. intros off.
  eapply wlp_mod_stream; [done | exact Hg1 | exact Hst1 | by intros [] |]. intros Hg2 Hst2.
  split; [done|]. eexists. by split.
Qed.

(** ** Each operation *)

Definition to_good {X} (m : A X) (s : aud_state) : Prop := wlp m (fun _ s' => good s') s.

Lemma to_good_safe {X} (m : A X) P s : safe J m P -> good s -> to_good m s.
Proof. intros Hm Hg. eapply wlp_mono; [|by eapply good_safe]. by intros a s' [H _]. Qed.

Lemma changed_good f l s s' : changed J f l s s' -> good s'.
Proof. by intros []. Qed.

Lemma get_stream_ref (r : sref) rt : r ∈ all_refs -> trid_get_stream (Substream (snd r) (fst r) rt) = Some r.
Proof.
  intros Hr%all_refs_range. unfold trid_get_stream.
  destruct r as [[] i]; simpl in *; [by rewrite leb_false by lia | done].
Qed.

Lemma good_open p r rt s : known_sub p r rt s -> good s -> to_good (trid_pcm_open p) s.
Proof.
  intros (Hp & Hr & Hsub) [Hs Hwf]. destruct (stream_present J r s Hr Hs) as [st Hst].
  apply wlp_awp. eapply awp_mono; [|by eapply (awp_open J)]. cbv beta. intros ret s' (_ & Hc & _).
  by eapply changed_good.
Qed.

Lemma good_close p r rt s : known_sub p r rt s -> good s -> to_good (trid_pcm_close p) s.
Proof.
  intros (Hp & Hr & Hsub) [Hs Hwf]. destruct (stream_present J r s Hr Hs) as [st Hst].
  apply wlp_awp. eapply awp_mono; [|eapply (awp_close J); [exact Hsub | by apply get_stream_ref | exact Hst | done..]].
  cbv beta. intros ret s' (_ & Hc & _). by eapply changed_good.
Qed.

Lemma good_prepare p r rt s :
  known_sub p r rt s -> is_open p r s -> fits (trid_hw r) rt -> good s -> to_good (trid_pcm_prepare p) s.
Proof.
  intros (Hp & Hr & Hsub) (st & Hst & Ho) Hf Hg. destruct (fits_bounds _ _ Hf) as (B1 & B2 & B3 & _).
  unfold trid_pcm_prepare. apply wlp_awp, awp_bind. eapply awp_get_sub; [exact Hsub|].
  rewrite (get_stream_ref r _ Hr). apply awp_bind. unfold get_runtime. simpl. unfold awp at 1.
  apply awp_bind. eapply awp_mod_stream; [exact Hst|]. set (st' := set_bridge_offset 0 _).
  assert (Hst' : stream_at r (put r st' s) = Some st') by (apply stream_at_put; by exists st).
  assert (Hg' : good (put r st' s)).
  { apply good_put; [done | done | by exists st |]. destruct (proj2 Hg r st Hr Hst). by constructor. }
  apply awp_bind. eapply awp_get_stream; [exact Hst'|].
  eapply awp_mono; [|by apply (safe_iface_prepare J HJ Hwin); [| | | apply Hg']]. cbv beta.
  intros ret s' (_ & H1 & H2). split; [done|]. eapply wf_frame; [exact H2 | apply Hg'].
Qed.

Lemma good_start (r : sref) st s :
  r ∈ all_refs -> good s -> stream_at r s = Some st ->
  wlp (if fst r then trid_ostream_start (snd r) else trid_istream_start (snd r))
    (fun _ s' => good s' /\ stream_at r s' = Some st) s.
Proof.
  intros Hr [Hs Hwf] Hst. apply wlp_awp.
  eapply awp_mono; [|eapply (awp_start_stream J HJ Hwin r st s s Hr); by apply replaced_refl].
  cbv beta. intros ret s' [_ R]. split; [split; [by destruct R|] | by destruct R].
  eapply replaced_wf; [exact R | done | by apply Hwf].
Qed.

Lemma good_stop (r : sref) s :
  r ∈ all_refs -> good s ->
  to_good (if fst r then trid_ostream_stop (snd r) else trid_istream_stop (snd r)) s.
Proof.
  intros Hr Hg. pose proof (all_refs_range r Hr) as Hi.
  destruct (fst r); eapply to_good_safe; try done; [by apply safe_ostream_stop | by apply safe_istream_stop].
Qed.

Lemma good_trigger p r rt cmd s :
  known_sub p r rt s -> is_open p r s -> good s -> to_good (trid_pcm_trigger p cmd) s.
Proof.
  intros (Hp & Hr & Hsub) (st & Hst & Ho) Hg. unfold trid_pcm_trigger. apply wlp_bind, wlp_get_sub.
  intros x Hx. rewrite Hsub in Hx. injection Hx as <-. rewrite (get_stream_ref r _ Hr).
  destruct (proj2 Hg r st Hr Hst) as [Wp _ _ _]. rewrite Ho in Wp. destruct (Wp Hp) as [W1 W2].
  destruct (starts cmd).
  - apply wlp_bind. eapply wlp_mod_stream; [done.. | exact Hst | by intros [] |]. intros Hg1 Hst1.
    apply wlp_bind, wlp_awp. eapply awp_get_stream; [exact Hst1|]. cbn [capture hw_stream set_running].
    rewrite W1, W2. apply wlp_bind.
    apply (wlp_mono _ (fun _ s' => good s' /\ exists st', stream_at r s' = Some st')).
    2: { destruct (fst r); simpl; [apply wlp_ret; split; [done | by eexists]|].
         eapply wlp_mono; [|by eapply wlp_transfer]. cbv beta. intros _ s' (H1 & st' & H2 & _). eauto. }
    intros _ s2 (Hg2 & st2 & Hst2). apply wlp_bind. eapply wlp_mono; [|by eapply good_start]. cbv beta.
    intros ret s3 (Hg3 & Hst3). destruct (ret =? 0); [|by apply wlp_ret].
    apply wlp_awp, awp_bind, awp_aget, awp_bind. eapply awp_get_stream; [exact Hst3|]. apply awp_bind.
    eapply awp_mod_stream; [exact Hst3|]. apply awp_ret. apply good_put; [done | done | by eexists |].
    destruct (proj2 Hg3 r st2 Hr Hst3). by constructor.
  - destruct (stops cmd); [|by apply wlp_ret].
    apply wlp_bind. eapply wlp_mod_stream; [done.. | exact Hst | by intros [] |]. intros Hg1 Hst1.
    apply wlp_bind. eapply wlp_mod_stream; [done.. | exact Hst1 | by intros [] |]. intros Hg2 Hst2.
    apply wlp_bind, wlp_awp. eapply awp_get_stream; [exact Hst2|]. cbn [capture hw_stream set_running set_timer].
    rewrite W1, W2. by apply good_stop.
Qed.

Lemma good_timer r s : r ∈ all_refs -> good s -> to_good (trid_stream_timer r) s.
Proof.
  intros Hr Hg. destruct (stream_present J r s Hr (proj1 Hg)) as [st Hst].
  unfold trid_stream_timer, timer_delete. apply wlp_bind.
  eapply wlp_mod_stream; [done.. | exact Hst | by intros [] |]. intros Hg1 Hst1.
  apply wlp_bind, wlp_awp. eapply awp_get_stream; [exact Hst1|].
  destruct (_ || _); [by apply wlp_ret|]. apply wlp_bind.
  eapply wlp_mono; [|by eapply wlp_transfer]. cbv beta. intros _ s2 [Hg2 _]. done.
Qed.

Lemma good_rearm r s : r ∈ all_refs -> good s -> to_good (trid_stream_rearm r) s.
Proof.
  intros Hr Hg. destruct (stream_present J r s Hr (proj1 Hg)) as [st Hst].
  unfold trid_stream_rearm. apply wlp_bind, wlp_awp. eapply awp_get_stream; [exact Hst|].
  destruct (running st); [|by apply wlp_ret]. apply wlp_bind, wlp_awp, awp_aget.
  eapply wlp_mod_stream; [done.. | exact Hst | by intros [] | done].
Qed.

Lemma good_pointer p s : good s -> to_good (trid_pcm_pointer p) s.
Proof.
  intros Hg. unfold trid_pcm_pointer. apply wlp_bind, wlp_get_sub. intros x _.
  destruct (trid_get_stream x) as [r|]; [|by apply wlp_ret]. apply wlp_bind, wlp_elt. intros st.
  apply wlp_bind. unfold get_runtime. destruct (sub_runtime x) as [rt|]; [|done].
  change (wlp (if rt_frame_bytes rt =? 0 then astop DivByZero else mret (hw_ptr_bytes st / rt_frame_bytes rt))
    (fun _ s' => good s') s). by destruct (rt_frame_bytes rt =? 0).
Qed.

Lemma good_suspend s : good s -> to_good trid_suspend s.
Proof.
  intros [Hs Hwf]. apply wlp_awp. eapply awp_mono; [|by apply (awp_suspend J HJ Hwin)]. cbv beta.
  intros ret s' [_ Hc]. by eapply changed_good.
Qed.

Lemma good_resume s : good s -> to_good trid_resume s.
Proof.
  intros [Hs Hwf]. apply wlp_awp. eapply awp_mono; [|apply (awp_resume J HJ Hwin); [apply Hs | done]]. cbv beta.
  intros ret s' (_ & _ & Hc). by eapply changed_good.
Qed.

Lemma good_op o s : op_ok o s -> good s -> to_good (run_op o) s.
Proof.
  intros Ho Hg. destruct o; simpl in *; try (apply wlp_ignore).
  - destruct Ho as (r & rt & H). by eapply good_open.
  - destruct Ho as (r & rt & H). by eapply good_close.
  - destruct Ho as (r & rt & H1 & H2 & H3). by eapply good_prepare.
  - destruct Ho as (r & rt & H1 & H2). by eapply good_trigger.
  - by apply good_pointer.
  - by apply good_timer.
  - by apply good_rearm.
  - eapply to_good_safe; [by apply safe_audbrg_irq | done].
  - eapply to_good_safe; [by apply safe_audif_irq | done].
  - eapply to_good_safe; [by apply safe_delayline_put | done].
  - eapply to_good_safe; [by apply safe_arc_get | done].
  - eapply to_good_safe; [by apply safe_arc_put | done].
  - eapply to_good_safe; [by apply safe_owa_get | done].
  - eapply to_good_safe; [by apply safe_owa_put | done].
  - unfold trid_misc_ioctl. destruct (negb _); [by apply wlp_ret|]. destruct arg as [st|]; [|by apply wlp_ret].
    destruct (st =? TRID_PM_SUSPEND); [by apply good_suspend|].
    destruct (st =? TRID_PM_RESUME); [by apply good_resume | by apply wlp_ret].
  - by apply good_suspend.
  - by apply good_resume.
  - done.
  - done.
  - done.
Qed.

Lemma good_step s s' : good s -> aud_step s s' -> good s'.
Proof. intros Hg Hst. destruct Hst as [o s0 s1 Ho E]. pose proof (good_op o s0 Ho Hg) as H. unfold to_good, wlp in H. by rewrite E in H. Qed.
End Mask.
