(* ===== verification/AudioWindow.v ===== *)
(** The stream windows the audio bridge programs, on a device whose registers hold
    what is written to them, each window mapped at its physical address. *)
From S2P Require Import Prelude Mem Audio AudioIf AudioPcm AudioCore AudioInv AudioMask.

#[local] Instance FileHw : AudHw := {|
  hw := gmap Z Z;
  hw_read a h := (default 0 (h !! a), h);
  hw_write a v h := <[a := v]> h;
|}.
#[local] Instance IdWin : AudWin := {|
  audif_base := TRID_AUDIF_PHYS_BASE;
  audbrg_base := TRID_AUDBRG_PHYS_BASE;
  audio_top_clk_base := TRID_AUDIO_TOP_CLK_PHYS_BASE;
  high_addr_ctl_base := TRID_HIGH_ADDR_CTL_PHYS;
  sw_reg1_base := TRID_SW_REG1_PHYS;
  sw_reg2_base := TRID_SW_REG2_PHYS;
  arc_src_base := TRID_ARC_SRC_PHYS;
  msp_owa_out_base := TRID_MSP_OWA_OUT_SRC_PHYS;
|}.

Lemma file_windows_ok : windows_ok.
Proof.
  constructor; [reflexivity | ..]; (split; [reflexivity|]);
    first [left; vm_compute; discriminate | right; vm_compute; discriminate].
Qed.

(** What register [a] holds *)
Definition reg (h : hw) (a : Z) : Z := u32 (default 0 ((h : gmap Z Z) !! a)).

(** A register of the bridge's window, or the one of the high address bits *)
Definition mapped (a : Z) : Prop := trid_translate_reg a = a /\ a <> 0.

Lemma mapped_audif a : TRID_AUDIF_PHYS_BASE <= a < TRID_AUDIF_PHYS_BASE + TRID_AUDIF_MMIO_SIZE -> mapped a.
Proof.
  intros H. unfold mapped, trid_translate_reg, in_window.
  cbn [audif_base IdWin]. rewrite leb_true, ltb_true by lia. simpl. unfold TRID_AUDIF_PHYS_BASE in *. lia.
Qed.

Lemma mapped_audbrg a : TRID_AUDBRG_PHYS_BASE <= a < TRID_AUDBRG_PHYS_BASE + TRID_AUDBRG_MMIO_SIZE -> mapped a.
Proof.
  intros H. unfold mapped, trid_translate_reg, in_window. cbn [audif_base audbrg_base IdWin].
  rewrite (ltb_false a (TRID_AUDIF_PHYS_BASE + _)) by (unfold TRID_AUDIF_PHYS_BASE, TRID_AUDIF_MMIO_SIZE, TRID_AUDBRG_PHYS_BASE in *; lia).
  rewrite andb_false_r, leb_true, ltb_true by lia. simpl. unfold TRID_AUDBRG_PHYS_BASE in *. lia.
Qed.

Lemma mapped_high : mapped TRID_HIGH_ADDR_CTL_PHYS.
Proof. by split. Qed.

(** ** What an operation writes *)

(** Registers outside [P] and the segments are as they were. *)
Definition writes {X} (P : Z -> Prop) (m : A X) : Prop := forall s a s',
  m s = ADone a s' ->
  (forall x, ~ P x -> (dev s' : gmap Z Z) !! x = (dev s : gmap Z Z) !! x) /\
  istream (bridge s') = istream (bridge s) /\ ostream (bridge s') = ostream (bridge s).

Lemma writes_ret {X} P (a : X) : writes P (mret a).
Proof. intros s a' s' [= <- <-]. done. Qed.

Lemma writes_bind {X Y} P (m : A X) (k : X -> A Y) :
  writes P m -> (forall a, writes P (k a)) -> writes P (mbind k m).
Proof.
  intros Hm Hk s b s'. unfold mbind, A_bind. destruct (m s) as [a s1|] eqn:E; [|done]. intros E2.
  destruct (Hm _ _ _ E) as (H1 & H2 & H3). destruct (Hk _ _ _ _ E2) as (H4 & H5 & H6).
  ands; [intros x Hx; by rewrite H4, H1 | congruence..].
Qed.

Lemma writes_when P b m : writes P m -> writes P (awhen b m).
Proof. destruct b; [done|]. intros _. apply writes_ret. Qed.

Lemma writes_stop {X} P r : writes P (astop r : A X).
Proof. intros s a s' [=]. Qed.

Lemma writes_read P a : writes P (trid_reg_read a).
Proof.
  unfold trid_reg_read. destruct (_ =? 0); [apply writes_ret|]. intros s v s' [= <- <-]. done.
Qed.

Lemma writes_write (P : Z -> Prop) a v : mapped a -> P a -> writes P (trid_reg_write a v).
Proof.
  intros [Ha _] HP. unfold trid_reg_write. rewrite Ha. destruct (a =? 0); [apply writes_ret|].
  intros s x s' [= <- <-]. ands; try done. intros y Hy. simpl. apply lookup_insert_ne. congruence.
Qed.

Lemma writes_update (P : Z -> Prop) a mask v : mapped a -> P a -> writes P (trid_reg_update_bits a mask v).
Proof.
  intros Ha HP. pose proof (writes_read P a) as Hr. pose proof (fun v => writes_write P a v Ha HP) as Hw.
  unfold trid_reg_update_bits, trid_reg_read, trid_reg_write in *.
  destruct (_ =? 0); [apply writes_ret|]. apply writes_bind; [exact Hr | intros; apply Hw].
Qed.

Lemma writes_bmod (P : Z -> Prop) f :
  (forall b, istream (f b) = istream b /\ ostream (f b) = ostream b) -> writes P (bmod f).
Proof. intros H s a s' [= <- <-]. destruct (H (bridge s)). done. Qed.

(** The registers of the interfaces *)
Definition audif_reg (x : Z) : Prop :=
  TRID_AUDIF_PHYS_BASE <= x < TRID_AUDIF_PHYS_BASE + TRID_AUDIF_MMIO_SIZE.

Lemma writes_audif a v : audif_reg a -> writes audif_reg (trid_reg_write a v).
Proof. intros H. apply writes_write; [by apply mapped_audif | done]. Qed.

Lemma writes_mono {X} (P Q : Z -> Prop) (m : A X) : (forall x, P x -> Q x) -> writes P m -> writes Q m.
Proof. intros H Hm s a s' E. destruct (Hm _ _ _ E) as (H1 & H2 & H3). ands; auto. Qed.

Ltac writes_op :=
  lazymatch goal with
  | |- writes _ (mret _) => apply writes_ret
  | |- writes _ (astop _) => apply writes_stop
  | |- writes _ (mbind _ _) => apply writes_bind; [|intros ?]
  | |- writes _ (awhen _ _) => apply writes_when
  | |- writes _ (trid_reg_read _) => apply writes_read
  | |- writes _ (trid_reg_write _ _) => apply writes_audif; split; [vm_compute; discriminate | reflexivity]
  | |- writes _ (bmod _) => by apply writes_bmod
  | |- writes _ (if ?b then _ else _) => destruct b
  end.

Lemma writes_irq_enable i e : writes audif_reg (trid_audif_irq_enable i e).
Proof. unfold trid_audif_irq_enable. repeat writes_op. Qed.

Lemma writes_spdo_program r c b : writes audif_reg (trid_spdo_program r c b).
Proof. unfold trid_spdo_program, div_round_closest. repeat writes_op. Qed.

Lemma writes_program_fs i r c b : writes audif_reg (trid_i2so_program_fs i r c b).
Proof.
  unfold trid_i2so_program_fs, div_round_closest. destruct i; cbn [trid_i2so_clk_reg];
    [| | | apply writes_ret..]; repeat writes_op.
Qed.

(** The interrupt registers of the bridge *)
Definition audbrg_irq_reg (x : Z) : Prop := x = TRID_AUDBRG_IRQ_MASK \/ x = TRID_AUDBRG_IRQ_STATUS.

Lemma audbrg_irq_mapped a : audbrg_irq_reg a -> mapped a.
Proof. intros [-> | ->]; apply mapped_audbrg; by vm_compute. Qed.

Lemma writes_istream_irq n e : writes audbrg_irq_reg (trid_istream_irq_enable n e).
Proof.
  unfold trid_istream_irq_enable, trid_audbrg_irq_ack. writes_op; [apply writes_ret|]. cbv zeta.
  apply writes_bind; [|intros _]; apply writes_update; try apply audbrg_irq_mapped; by (left + right).
Qed.

Lemma writes_ostream_irq n e : writes audbrg_irq_reg (trid_ostream_irq_enable n e).
Proof.
  unfold trid_ostream_irq_enable, trid_audbrg_irq_ack. writes_op; [apply writes_ret|]. cbv zeta.
  apply writes_bind; [|intros _]; apply writes_update; try apply audbrg_irq_mapped; by (left + right).
Qed.

(** The registers of a stream's window *)
Definition window_reg (base x : Z) : Prop :=
  x ∈ [base + TRID_STREAM_REG_START; base + TRID_STREAM_REG_END; base + TRID_STREAM_REG_STEP;
       base + TRID_STREAM_REG_CFG; TRID_AUDBRG_STREAM_SYNC].

Lemma window_mapped base x :
  TRID_AUDBRG_PHYS_BASE <= base < TRID_AUDBRG_PHYS_BASE + 0x370 -> window_reg base x -> mapped x.
Proof.
  intros Hb Hx. apply mapped_audbrg. unfold window_reg, TRID_STREAM_REG_START, TRID_STREAM_REG_END,
    TRID_STREAM_REG_STEP, TRID_STREAM_REG_CFG, TRID_AUDBRG_STREAM_SYNC, TRID_AUDBRG_MMIO_SIZE in *.
  rewrite !elem_of_cons, elem_of_nil in Hx. destruct_or?; try done; lia.
Qed.

Lemma wlp_writes {X} P (m : A X) (Q : X -> aud_state -> Prop) s :
  writes P m ->
  (forall a s', (forall x, ~ P x -> (dev s' : gmap Z Z) !! x = (dev s : gmap Z Z) !! x) ->
     istream (bridge s') = istream (bridge s) -> ostream (bridge s') = ostream (bridge s) -> Q a s') ->
  wlp m Q s.
Proof.
  intros Hm HQ. unfold wlp. destruct (m s) as [a s'|] eqn:E; [|done].
  destruct (Hm _ _ _ E) as (H1 & H2 & H3). auto.
Qed.

Lemma wlp_reg_write a v (Q : unit -> aud_state -> Prop) s :
  mapped a -> Q tt (set_dev (<[a := u32 v]> (dev s : gmap Z Z)) s) -> wlp (trid_reg_write a v) Q s.
Proof. intros [Ha H0] HQ. unfold trid_reg_write. rewrite Ha, (eqb_neq_false a 0) by done. exact HQ. Qed.

Lemma wlp_reg_update a mask v (Q : unit -> aud_state -> Prop) s :
  mapped a ->
  Q tt (set_dev (<[a := u32 (bic (reg (dev s) a) mask |. (v &. mask))]> (dev s : gmap Z Z)) s) ->
  wlp (trid_reg_update_bits a mask v) Q s.
Proof. intros [Ha H0] HQ. unfold trid_reg_update_bits. rewrite Ha, (eqb_neq_false a 0) by done. exact HQ. Qed.

Lemma reg_same (h h' : gmap Z Z) a : h' !! a = h !! a -> reg h' a = reg h a.
Proof. intros H. unfold reg. by rewrite H. Qed.

Lemma reg_insert (h : gmap Z Z) a v : reg (<[a := u32 v]> h) a = u32 v.
Proof. unfold reg. rewrite lookup_insert_eq. simpl. apply u32_idem. Qed.

Lemma wlp_stream_window base dma size step cfg (Q : unit -> aud_state -> Prop) s :
  TRID_AUDBRG_PHYS_BASE <= base < TRID_AUDBRG_PHYS_BASE + 0x370 ->
  (forall s', reg (dev s') (base + TRID_STREAM_REG_START) = Z.shiftr (lower_32_bits dma) 4 &. 0x00FFFFFF ->
     (forall x, ~ window_reg base x -> (dev s' : gmap Z Z) !! x = (dev s : gmap Z Z) !! x) ->
     istream (bridge s') = istream (bridge s) -> ostream (bridge s') = ostream (bridge s) -> Q tt s') ->
  wlp (stream_window base dma size step cfg) Q s.
Proof.
  intros Hb HQ. pose proof (fun x => window_mapped base x Hb) as Hm. unfold window_reg in Hm.
  unfold stream_window. do 4 (apply wlp_bind, wlp_reg_write; [apply Hm; set_solver|]).
  apply wlp_reg_write; [apply Hm; set_solver|]. apply HQ; try done; cbn [dev set_dev].
  - unfold TRID_STREAM_REG_START, TRID_STREAM_REG_END, TRID_STREAM_REG_STEP, TRID_STREAM_REG_CFG,
      TRID_AUDBRG_STREAM_SYNC, TRID_AUDBRG_PHYS_BASE in *.
    rewrite (reg_same (<[base + 0 := u32 (Z.shiftr (lower_32_bits dma) 4 &. 0x00FFFFFF)]> (dev s : gmap Z Z))).
    + rewrite reg_insert. apply u32_small. change 0x00FFFFFF with (Z.ones 24).
      rewrite Z.land_ones by lia. pose proof (Z.mod_pos_bound (Z.shiftr (lower_32_bits dma) 4) (2 ^ 24)). lia.
    + by rewrite !lookup_insert_ne by lia.
  - intros x Hx. unfold window_reg in Hx. rewrite !elem_of_cons, elem_of_nil in Hx.
    rewrite !lookup_insert_ne; [done | intros <-; apply Hx; tauto..].
Qed.

(** ** Addresses *)

(** The address the hardware takes from a window: the stock driver's
    [(high << 28) | (ptr << 4)] quoted in audio_bridge_pcm.c *)
Definition window_address (h : hw) (base : Z) : Z :=
  Z.shiftl (reg h TRID_HIGH_ADDR_CTL_PHYS &. 0xF) 28
  |. Z.shiftl (reg h (base + TRID_STREAM_REG_START) &. 0x00FFFFFF) 4.

Lemma window_bits dma : 0 <= dma < 2 ^ 32 -> dma mod 16 = 0 ->
  Z.shiftl ((Z.shiftr (lower_32_bits dma) 4 &. 0x00FFFFFF) &. 0x00FFFFFF) 4 = dma mod 2 ^ 28.
Proof.
  intros Hd H16. unfold lower_32_bits. rewrite u32_small by done. change 0x00FFFFFF with (Z.ones 24).
  rewrite !Z.land_ones, Z.mod_mod by lia. rewrite Z.shiftr_div_pow2, Z.shiftl_mul_pow2 by lia.
  change (2 ^ 4) with 16. pose proof (Z.div_mod dma 16) as E. rewrite H16 in E.
  replace (2 ^ 28) with (2 ^ 24 * 16) by done. rewrite E at 2 by lia.
  rewrite Z.add_0_r, (Z.mul_comm 16), Z.mul_mod_distr_r by lia. done.
Qed.

(** The low four bits of HIGH_ADDR_CTL are cleared for a 32-bit address. *)
Lemma high_cleared x dma : 0 <= dma < 2 ^ 32 -> 0 <= x < 2 ^ 32 ->
  u32 (bic x (GENMASK 3 0) |. (upper_32_bits dma &. GENMASK 3 0)) &. 0xF = 0.
Proof.
  intros Hd Hx. unfold upper_32_bits. rewrite Z.shiftr_div_pow2, Z.div_small by lia.
  change (u32 0 &. GENMASK 3 0) with 0. rewrite Z.lor_0_r. unfold bic.
  rewrite u32_small by (apply ldiff_range; lia). change (GENMASK 3 0) with 0xF.
  apply Z.bits_inj'. intros k Hk. rewrite Z.land_spec, Z.ldiff_spec, Z.bits_0.
  by destruct (Z.testbit x k), (Z.testbit 15 k).
Qed.

Lemma high_not_window base :
  TRID_AUDBRG_PHYS_BASE <= base < TRID_AUDBRG_PHYS_BASE + 0x370 -> ~ window_reg base TRID_HIGH_ADDR_CTL_PHYS.
Proof.
  unfold window_reg. rewrite !elem_of_cons, elem_of_nil. unfold TRID_HIGH_ADDR_CTL_PHYS, TRID_STREAM_REG_START,
    TRID_STREAM_REG_END, TRID_STREAM_REG_STEP, TRID_STREAM_REG_CFG, TRID_AUDBRG_STREAM_SYNC, TRID_AUDBRG_PHYS_BASE.
  lia.
Qed.

Lemma wlp_istream_config n r c b p e seg (Q : Z -> aud_state -> Prop) s :
  0 <= n < 4 -> istream (bridge s) !! Z.to_nat n = Some seg ->
  0 <= seg_dma seg < 2 ^ 32 -> seg_dma seg mod 16 = 0 ->
  (forall s', window_address (dev s') (TRID_AUDBRG_ISTREAM_BASE n) = seg_dma seg mod 2 ^ 28 -> Q 0 s') ->
  wlp (trid_istream_config n r c b p e) Q s.
Proof.
  intros Hn Hseg Hd H16 HQ. unfold trid_istream_config, TRID_MAX_ISTREAMS. rewrite leb_false by lia.
  apply wlp_bind, wlp_awp, awp_elt. exists seg. split; [done|].
  apply wlp_bind, wlp_reg_update; [apply mapped_high|].
  assert (Hb : TRID_AUDBRG_PHYS_BASE <= TRID_AUDBRG_ISTREAM_BASE n < TRID_AUDBRG_PHYS_BASE + 0x370).
  { unfold TRID_AUDBRG_ISTREAM_BASE, TRID_AUDBRG_PHYS_BASE. rewrite Z.shiftl_mul_pow2 by lia. lia. }
  apply wlp_bind, wlp_stream_window; [done|]. intros s1 Hstart Hother _ _. apply wlp_bind.
  eapply wlp_writes; [apply writes_istream_irq|]. intros _ s2 H2 _ _. apply wlp_ret, HQ.
  assert (E1 : (dev s2 : gmap Z Z) !! TRID_HIGH_ADDR_CTL_PHYS = (dev s1 : gmap Z Z) !! TRID_HIGH_ADDR_CTL_PHYS).
  { apply H2. by intros [|]. }
  assert (E2 : (dev s2 : gmap Z Z) !! (TRID_AUDBRG_ISTREAM_BASE n + TRID_STREAM_REG_START)
             = (dev s1 : gmap Z Z) !! (TRID_AUDBRG_ISTREAM_BASE n + TRID_STREAM_REG_START)).
  { apply H2. unfold audbrg_irq_reg, TRID_AUDBRG_IRQ_MASK, TRID_AUDBRG_IRQ_STATUS, TRID_STREAM_REG_START. lia. }
  unfold window_address. rewrite (reg_same _ _ _ E2), Hstart, (reg_same _ _ _ E1).
  rewrite (reg_same _ _ _ (Hother _ (high_not_window _ Hb))). cbn [dev set_dev].
  rewrite reg_insert, high_cleared, window_bits by (done || apply u32_range). done.
Qed.

(** ** Preparation of a playback *)

Lemma wlp_i2so_prepare n r c b p e seg (Q : Z -> aud_state -> Prop) s :
  0 <= n < 3 -> istream (bridge s) !! Z.to_nat n = Some seg ->
  0 <= seg_dma seg < 2 ^ 32 -> seg_dma seg mod 16 = 0 ->
  (forall s', window_address (dev s') (TRID_AUDBRG_ISTREAM_BASE n) = seg_dma seg mod 2 ^ 28 -> Q 0 s') ->
  wlp (trid_iface_prepare (trid_playback_iface n) r c b p e) Q s.
Proof.
  intros Hn Hseg Hd H16 HQ.
  assert (Hgo : forall i, audif_reg (trid_i2so_data_reg i) ->
    wlp (awhen (negb (trid_i2so_data_reg i =? 0)) (trid_reg_write (trid_i2so_data_reg i) 0);;
         trid_i2so_program_fs i r c b;; trid_audif_irq_enable i e;; trid_istream_config n r c b p e) Q s).
  { intros i Hi. apply wlp_bind. eapply wlp_writes; [by apply writes_when, writes_audif|]. intros _ s1 _ E1 _.
    apply wlp_bind. eapply wlp_writes; [apply writes_program_fs|]. intros _ s2 _ E2 _.
    apply wlp_bind. eapply wlp_writes; [apply writes_irq_enable|]. intros _ s3 _ E3 _.
    eapply wlp_istream_config; [lia | by rewrite E3, E2, E1 | done..]. }
  assert (n = 0 \/ n = 1 \/ n = 2) as [->|[->| ->]] by lia; apply (Hgo _); by split; vm_compute.
Qed.

(** The registers outside the window of bridge input 3 *)
Definition outside3 (x : Z) : Prop := ~ (TRID_AUDBRG_ISTREAM_BASE 3 <= x < TRID_AUDBRG_ISTREAM_BASE 3 + 0x20).

Lemma audif_outside3 x : audif_reg x -> outside3 x.
Proof.
  unfold audif_reg, outside3, TRID_AUDIF_PHYS_BASE, TRID_AUDIF_MMIO_SIZE.
  change (TRID_AUDBRG_ISTREAM_BASE 3) with 0x6148340. lia.
Qed.
Lemma irq_outside3 x : audbrg_irq_reg x -> outside3 x.
Proof.
  unfold audbrg_irq_reg, outside3, TRID_AUDBRG_IRQ_MASK, TRID_AUDBRG_IRQ_STATUS, TRID_AUDBRG_PHYS_BASE.
  change (TRID_AUDBRG_ISTREAM_BASE 3) with 0x6148340. lia.
Qed.
Lemma window_outside3 x : window_reg (TRID_AUDBRG_OSTREAM_BASE 1) x -> outside3 x.
Proof.
  unfold window_reg. rewrite !elem_of_cons, elem_of_nil. unfold outside3, TRID_STREAM_REG_START,
    TRID_STREAM_REG_END, TRID_STREAM_REG_STEP, TRID_STREAM_REG_CFG, TRID_AUDBRG_STREAM_SYNC, TRID_AUDBRG_PHYS_BASE.
  change (TRID_AUDBRG_ISTREAM_BASE 3) with 0x6148340. change (TRID_AUDBRG_OSTREAM_BASE 1) with 0x6148140. lia.
Qed.

Lemma wlp_spdo_prepare r c b p e seg (Q : Z -> aud_state -> Prop) s :
  ostream (bridge s) !! 1%nat = Some seg ->
  (forall s', reg (dev s') (TRID_AUDBRG_OSTREAM_BASE 1 + TRID_STREAM_REG_START)
       = Z.shiftr (lower_32_bits (seg_dma seg)) 4 &. 0x00FFFFFF ->
     (forall x, ~ outside3 x -> (dev s' : gmap Z Z) !! x = (dev s : gmap Z Z) !! x) -> Q 0 s') ->
  wlp (trid_iface_prepare TRID_IFACE_SPDO0 r c b p e) Q s.
Proof.
  intros Hseg HQ. cbn [trid_iface_prepare]. apply wlp_bind.
  eapply wlp_writes; [apply writes_irq_enable|]. intros _ s1 D1 _ O1. apply wlp_bind.
  unfold trid_ostream_config, TRID_MAX_OSTREAMS. change (2 <=? 1) with false. cbv iota.
  apply wlp_bind, wlp_awp, awp_elt. exists seg. split; [by rewrite O1|].
  apply wlp_bind, wlp_reg_update; [apply mapped_high|].
  apply wlp_bind, wlp_stream_window; [by vm_compute|]. intros s2 Hstart D2 _ _. apply wlp_bind.
  eapply wlp_writes; [apply writes_ostream_irq|]. intros _ s3 D3 _ _. apply wlp_ret.
  change (negb (0 =? 0)) with false. cbv iota. apply wlp_bind.
  eapply wlp_writes; [apply writes_spdo_program|]. intros _ s4 D4 _ _. apply wlp_ret, HQ.
  - set (x := TRID_AUDBRG_OSTREAM_BASE 1 + TRID_STREAM_REG_START) in *.
    rewrite (reg_same (dev s3)), (reg_same (dev s2)); [exact Hstart | apply D3 | apply D4].
    + by intros [|].
    + unfold x, audif_reg. change (TRID_AUDBRG_OSTREAM_BASE 1 + TRID_STREAM_REG_START) with 0x6148140.
      unfold TRID_AUDIF_PHYS_BASE, TRID_AUDIF_MMIO_SIZE. lia.
  - intros x Hx. rewrite D4, D3, D2.
    + cbn [dev set_dev]. rewrite lookup_insert_ne; [apply D1 |].
      * by intros H%audif_outside3.
      * intros <-. apply Hx. unfold outside3. change (TRID_AUDBRG_ISTREAM_BASE 3) with 0x6148340.
        unfold TRID_HIGH_ADDR_CTL_PHYS. lia.
    + by intros H%window_outside3.
    + by intros H%irq_outside3.
    + by intros H%audif_outside3.
Qed.

(** A segment the window registers can describe *)
Definition aligned_segment (seg : trid_dma_segment) : Prop :=
  0 <= seg_dma seg < 2 ^ 32 /\ seg_dma seg mod 16 = 0.

(** C38: The window a preparation leaves in the bridge: for an I2S playback the address
    the hardware takes from it is the segment's address modulo 2^28, so a segment at or
    above 256 MB is missed; a playback on the S/PDIF output programs the window of
    capture 1 with the segment of capture 1, and leaves the window of bridge input 3,
    from which its data are played, as it was. *)
Theorem programmed_windows r c b p e s :
  shape (bridge s) -> Forall aligned_segment (istream (bridge s)) ->
  0 <= r <= 192000 -> 0 <= c <= 2 -> 0 <= b <= 32 ->
  (forall n, 0 <= n < 3 -> exists seg s',
     istream (bridge s) !! Z.to_nat n = Some seg /\
     trid_iface_prepare (trid_playback_iface n) r c b p e s = ADone 0 s' /\
     window_address (dev s') (TRID_AUDBRG_ISTREAM_BASE n) = seg_dma seg mod 2 ^ 28 /\
     (window_address (dev s') (TRID_AUDBRG_ISTREAM_BASE n) = seg_dma seg <-> seg_dma seg < 2 ^ 28)) /\
  (exists seg s',
     ostream (bridge s) !! 1%nat = Some seg /\
     trid_iface_prepare (trid_playback_iface 3) r c b p e s = ADone 0 s' /\
     reg (dev s') (TRID_AUDBRG_OSTREAM_BASE 1 + TRID_STREAM_REG_START)
       = Z.shiftr (lower_32_bits (seg_dma seg)) 4 &. 0x00FFFFFF /\
     forall off, 0 <= off < 0x20 ->
       (dev s' : gmap Z Z) !! (TRID_AUDBRG_ISTREAM_BASE 3 + off)
         = (dev s : gmap Z Z) !! (TRID_AUDBRG_ISTREAM_BASE 3 + off)).
Proof.
  intros Hs Hal Hr Hc Hb.
  assert (Hrun : forall i, exists s', trid_iface_prepare i r c b p e s = ADone 0 s').
  { intros i. destruct (awp_done _ _ _ (safe_iface_prepare no_relation no_relation_law file_windows_ok
      i r c b p e Hr Hc Hb s (conj Hs I))) as (ret & s' & E & -> & _). by exists s'. }
  split.
  - intros n Hn. destruct (lookup_lt_is_Some_2 (istream (bridge s)) (Z.to_nat n)) as [seg Hseg].
    { rewrite (sh_istream _ Hs). lia. }
    rewrite Forall_lookup in Hal. destruct (Hal _ _ Hseg) as [H1 H2].
    destruct (Hrun (trid_playback_iface n)) as [s' E]. exists seg, s'. split; [done|]. split; [exact E|].
    pose proof (wlp_i2so_prepare n r c b p e seg
      (fun _ s' => window_address (dev s') (TRID_AUDBRG_ISTREAM_BASE n) = seg_dma seg mod 2 ^ 28)
      s Hn Hseg H1 H2 (fun s' H => H)) as H. unfold wlp in H. rewrite E in H. split; [exact H|].
    rewrite H. split; [|intros; apply Z.mod_small; lia].
    intros <-. apply Z.mod_pos_bound. lia.
  - destruct (lookup_lt_is_Some_2 (ostream (bridge s)) 1) as [seg Hseg].
    { rewrite (sh_ostream _ Hs). lia. }
    destruct (Hrun (trid_playback_iface 3)) as [s' E]. exists seg, s'. split; [done|]. split; [exact E|].
    pose proof (wlp_spdo_prepare r c b p e seg (fun _ s' =>
      reg (dev s') (TRID_AUDBRG_OSTREAM_BASE 1 + TRID_STREAM_REG_START)
        = Z.shiftr (lower_32_bits (seg_dma seg)) 4 &. 0x00FFFFFF /\
      forall x, ~ outside3 x -> (dev s' : gmap Z Z) !! x = (dev s : gmap Z Z) !! x)
      s Hseg (fun s' H1 H2 => conj H1 H2)) as H. unfold wlp in H.
    change (trid_playback_iface 3) with TRID_IFACE_SPDO0 in E. rewrite E in H. destruct H as [H1 H2].
    split; [exact H1|]. intros off Hoff. apply H2. unfold outside3. lia.
Qed.

(** ** A device to evaluate on *)

(** 100 ticks a second *)
#[local] Instance DemoTime : AudTime := {| msecs_to_jiffies ms := (ms + 9) / 10 |}.

Definition after {X} (m : A X) (s : aud_state) : aud_state :=
  match m s with ADone _ s' => s' | AStop _ => s end.

(** A bridge with its shared memory at 0x80000000, 0x50000000 for the hardware *)
Definition booted : aud_state :=
  after (bmod (set_shared_cpu 0x80000000);; bmod (set_shared_dma 0x50000000);;
         trid_setup_segments;; trid_audioio_init)
    (AudState _ zero_bridge (∅ : gmap Z Z) ∅ ∅ 0 [] []).

Lemma booted_shape : shape (bridge booted).
Proof. constructor; vm_compute; repeat constructor. Qed.

Lemma programmed_windows_witness :
  (exists s', trid_iface_prepare TRID_IFACE_I2SO1 48000 2 16 1024 true booted = ADone 0 s' /\
     window_address (dev s') (TRID_AUDBRG_ISTREAM_BASE 1) = 0x10000 /\
     (window_address (dev s') (TRID_AUDBRG_ISTREAM_BASE 1) = 0x50010000 -> 0x50010000 < 2 ^ 28)) /\
  exists s', trid_iface_prepare TRID_IFACE_SPDO0 48000 2 16 1024 true booted = ADone 0 s' /\
     reg (dev s') (TRID_AUDBRG_OSTREAM_BASE 1 + TRID_STREAM_REG_START) = 0x5000 /\
     (dev s' : gmap Z Z) !! (TRID_AUDBRG_ISTREAM_BASE 3 + 0) = None.
Proof.
  destruct (programmed_windows 48000 2 16 1024 true booted booted_shape) as [H1 H2].
  - change (Forall aligned_segment [Segment 0x80000000 0x50000000 0x10000; Segment 0x80010000 0x50010000 0x10000;
      Segment 0x80020000 0x50020000 0x10000; Segment 0x80030000 0x50030000 0x10000]).
    unfold aligned_segment. repeat constructor; simpl; first [lia | reflexivity].
  - lia.
  - lia.
  - lia.
  - split.
    + destruct (H1 1 ltac:(lia)) as (seg & s' & Hseg & E & Hw & Hiff).
      assert (Hd : seg = Segment 0x80010000 0x50010000 0x10000).
      { vm_compute in Hseg. injection Hseg as <-. reflexivity. }
      rewrite Hd in Hw, Hiff. exists s'. split; [exact E|]. split; [exact Hw|]. exact (proj1 Hiff).
    + destruct H2 as (seg & s' & Hseg & E & Hs & Ho).
      assert (Hd : seg = Segment 0x80050000 0x50050000 0x10000).
      { vm_compute in Hseg. injection Hseg as <-. reflexivity. }
      rewrite Hd in Hs. exists s'. split; [exact E|]. split; [exact Hs|]. exact (Ho 0 ltac:(lia)).
Defined.
