(* ===== verification/AudioSafe.v ===== *)
(** The audio bridge: what its streams deliver, how it comes through a suspend, and
    what the interrupt mask says (src/drivers/audio/bridge). *)
From S2P Require Import Prelude Mem Audio AudioIf AudioPcm AudioCore AudioInv AudioRing AudioPower AudioMask AudioWindow.

Section Safe.
Context `{Hw : AudHw} {W : AudWin} {T : AudTime}.

(** ** The run of a stream *)

(** A step on a stream, with the bytes transferred so far: an operation of the
    driver on it, or anything that leaves its fields and its destination ring
    alone (the user's or the hardware's accesses to the source ring, interrupts,
    other streams). *)
Inductive ring_step (r : sref) (g : geometry) : list Z * aud_state -> list Z * aud_state -> Prop :=
| RingExpire l s b s' :
    trid_stream_timer r s = ADone b s' ->
    ring_step r g (l, s) (if b then l ++ next_period r g l s else l, s')
| RingRearm l s s' :
    trid_stream_rearm r s = ADone tt s' -> ring_step r g (l, s) (l, s')
| RingTrigger l s cmd ret s' :
    trid_pcm_trigger (g_sub g) cmd s = ADone ret s' ->
    ring_step r g (l, s) (if starts cmd && negb (fst r) then l ++ next_period r g l s else l, s')
| RingElsewhere l s s' :
    stream_at r s' = stream_at r s -> substreams s' = substreams s ->
    istream (bridge s') = istream (bridge s) -> ostream (bridge s') = ostream (bridge s) ->
    shape (bridge s') -> same_on (fst (g_dst r g)) (snd (g_dst r g)) (amem s) (amem s') ->
    ring_step r g (l, s) (l, s').

Lemma awp_of {X} (m : A X) Q s a s' : awp m Q s -> m s = ADone a s' -> Q a s'.
Proof. unfold awp. intros H E. by rewrite E in H. Qed.

Lemma ring_step_rel r g l s l' s' :
  windows_ok -> geometry_ok r g -> ring_rel r g l s -> ring_step r g (l, s) (l', s') -> ring_rel r g l' s'.
Proof.
  intros Hwin Hg Hr Hst. destruct (rr_stream _ _ _ _ Hr) as (st & Hat & _). inversion Hst as
    [l0 s0 b s1 E | l0 s0 s1 E | l0 s0 cmd ret s1 E | l0 s0 s1 A1 A2 A3 A4 A5 A6]; subst.
  - by destruct (awp_of _ _ _ _ _ (awp_expire r g l s st Hg Hr Hat) E) as (_ & H & _).
  - by destruct (awp_of _ _ _ _ _ (awp_rearm r g l' s st Hr Hat) E).
  - by destruct (awp_of _ _ _ _ _ (awp_trigger r g l s st cmd Hwin Hg Hr Hat) E).
  - destruct Hr as [R1 R2 R3 R4 R5]. constructor; [| | | |done].
    + by rewrite A1.
    + by rewrite A2.
    + revert R3. destruct (fst r); by rewrite ?A3, ?A4.
    + eapply ring_holds_same; [| exact A6 | exact R4].
      unfold g_dst. destruct Hg. destruct (fst r); simpl; lia.
Qed.

(** C7: From its preparation on, a stream delivers its source in order, whatever the
    interleaving of timer, triggers and everything else: after the bytes [l] have
    been transferred, the destination ring (the shared segment for playback, the
    ALSA buffer for capture) holds the newest of them, the pointer that ALSA reads is
    the position [l] has reached in the ALSA buffer, and the timer and every trigger
    complete, the timer of a running stream with one more period and one
    notification. *)
Theorem streams_refine r p rt seg s0 l s :
  windows_ok -> ready r p rt seg s0 ->
  let g := geometry_of r p rt seg in
  exists s1, trid_pcm_prepare p s0 = ADone 0 s1 /\
  (star (ring_step r g) ([], s1) (l, s) ->
    ring_holds (amem s) (fst (g_dst r g)) (snd (g_dst r g)) l /\
    trid_pcm_pointer p s = ADone (Z.of_nat (length l) mod g_buffer g / g_frame g) s /\
    (forall cmd, exists s', trid_pcm_trigger p cmd s =
      ADone (if starts cmd || stops cmd then 0 else -22) s') /\
    exists st s', stream_at r s = Some st /\ trid_stream_timer r s = ADone (running st) s' /\
      elapsed s' = elapsed s ++ (if running st then [p] else []) /\
      ring_holds (amem s') (fst (g_dst r g)) (snd (g_dst r g))
        (if running st then l ++ next_period r g l s else l)).
Proof.
  intros Hwin Hrd g. pose proof (ready_geometry _ _ _ _ _ Hrd) as Hg. fold g in Hg.
  destruct (awp_done _ _ _ (awp_prepare r p rt seg s0 Hwin Hrd)) as (ret & s1 & E & -> & Hr). fold g in Hr.
  exists s1. split; [exact E|]. intros Hrun.
  pose proof (star_invariant (ring_step r g) (fun c => ring_rel r g (fst c) (snd c))) as Hinv.
  specialize (Hinv ltac:(intros [] [] H1 H2; by eapply ring_step_rel) ([], s1) (l, s) Hr Hrun). simpl in Hinv.
  destruct (rr_stream _ _ _ _ Hinv) as (st & Hst & _). split; [by destruct Hinv|]. ands.
  - destruct (awp_done _ _ _ (awp_pointer r g l s st Hg Hinv Hst)) as (v & s' & Ep & -> & ->). exact Ep.
  - intros cmd. destruct (awp_done _ _ _ (awp_trigger r g l s st cmd Hwin Hg Hinv Hst)) as (v & s' & Et & -> & _).
    by exists s'.
  - destruct (awp_done _ _ _ (awp_expire r g l s st Hg Hinv Hst)) as (b & s' & Et & -> & H1 & H2).
    exists st, s'. ands; [done.. | by destruct H1].
Qed.

(** ** Suspend and resume *)

Lemma changed_run J f s s' r st :
  changed J f all_refs s s' -> r ∈ all_refs -> stream_at r s = Some st -> stream_at r s' = Some (f st).
Proof. intros [] Hr Hst. by rewrite ch_in, Hst. Qed.

(** C27: A suspend and a resume bring every stream back: between them no stream runs
    and no timer of a running one is pending; afterwards each has its parameters and
    its position, those that ran run again with a timer due at the next tick, and the
    others stay stopped.  Only one suspend is remembered: a second one before the
    resume leaves every stream stopped. *)
Theorem suspend_resume J s :
  mask_law J -> windows_ok -> inv J s -> streams_wf s ->
  exists s1 s2 s3 s4,
    trid_misc_ioctl TRID_IOCTL_PM (Some TRID_PM_SUSPEND) s = ADone 0 s1 /\
    trid_misc_ioctl TRID_IOCTL_PM (Some TRID_PM_RESUME) s1 = ADone 0 s2 /\
    trid_suspend s1 = ADone 0 s3 /\ trid_resume s3 = ADone 0 s4 /\
    forall r st, r ∈ all_refs -> stream_at r s = Some st -> substream st <> 0 ->
      (exists st1, stream_at r s1 = Some st1 /\ running st1 = false /\
         (running st = true -> timer st1 = None)) /\
      stream_at r s2 = Some (if running st
        then set_timer (Some (jiffies s + 1)) (set_resume_running true st)
        else set_resume_running false st) /\
      exists st4, stream_at r s4 = Some st4 /\ running st4 = false.
Proof.
  intros HJ Hwin Hs Hwf.
  destruct (awp_done _ _ _ (awp_suspend J HJ Hwin s Hs Hwf)) as (? & s1 & E1 & -> & C1).
  destruct (awp_done _ _ _ (awp_resume J HJ Hwin s1 (proj1 (ch_inv _ _ _ _ _ C1)) (ch_wf _ _ _ _ _ C1)))
    as (? & s2 & E2 & -> & _ & C2).
  destruct (awp_done _ _ _ (awp_suspend J HJ Hwin s1 (ch_inv _ _ _ _ _ C1) (ch_wf _ _ _ _ _ C1)))
    as (? & s3 & E3 & -> & C3).
  destruct (awp_done _ _ _ (awp_resume J HJ Hwin s3 (proj1 (ch_inv _ _ _ _ _ C3)) (ch_wf _ _ _ _ _ C3)))
    as (? & s4 & E4 & -> & _ & C4).
  exists s1, s2, s3, s4. ands; [exact E1 | exact E2 | exact E3 | exact E4 |]. intros r st Hr Hst Hne.
  pose proof (changed_run _ _ _ _ _ _ C1 Hr Hst) as H1. pose proof (changed_run _ _ _ _ _ _ C2 Hr H1) as H2.
  pose proof (changed_run _ _ _ _ _ _ C3 Hr H1) as H3. pose proof (changed_run _ _ _ _ _ _ C4 Hr H3) as H4.
  rewrite (ch_jiffies _ _ _ _ _ C1) in H2. ands.
  - exists (suspended st). split; [exact H1 | by apply suspended_stops].
  - rewrite H2. f_equal. by apply resumed_suspended.
  - eexists. split; [exact H4 | by apply resumed_twice].
Qed.

(** ** A resume after the stream was closed *)

(** ALSA opens the substream anew: its runtime is another one. *)
Definition reruntime (r : sref) (p : Z) (rt : snd_pcm_runtime) (s : aud_state) : aud_state :=
  set_substreams (<[p := Substream (snd r) (fst r) (Some rt)]> (substreams s)) s.

(** The stream after suspend, close, open and resume, from a running one *)
Lemma stale_stream r p j st : p <> 0 -> substream st = p -> running st = true ->
  resumed j (reopened r p (closed (suspended st))) =
  set_timer (Some (j + 1)) (set_running true (reopened r p (set_resume_running true st))).
Proof.
  intros Hp Hs Hr. unfold suspended. rewrite (eqb_neq_false (substream st)) by congruence. rewrite Hr.
  unfold resumed. simpl. by rewrite (eqb_neq_false p).
Qed.

Lemma reopen_run J r p rt st s :
  mask_law J -> windows_ok -> inv J s -> streams_wf s -> r ∈ all_refs ->
  stream_at r s = Some st -> substream st = p -> p <> 0 -> running st = true ->
  (exists rt0, substreams s !! p = Some (Substream (snd r) (fst r) rt0)) ->
  exists s1 s2 s3 s4,
    trid_suspend s = ADone 0 s1 /\ trid_pcm_close p s1 = ADone 0 s2 /\
    trid_pcm_open p (reruntime r p rt s2) = ADone 0 s3 /\ trid_resume s3 = ADone 0 s4 /\
    stream_at r s4 = Some (set_timer (Some (jiffies s + 1))
      (set_running true (reopened r p (set_resume_running true st)))) /\
    substreams s4 !! p = Some (Substream (snd r) (fst r) (Some rt)) /\
    segments_of s4 = segments_of s /\ shape (bridge s4).
Proof.
  intros HJ Hwin Hs Hwf Hr Hst Hsub Hp Hrun [rt0 Hsubs].
  destruct (awp_done _ _ _ (awp_suspend J HJ Hwin s Hs Hwf)) as (? & s1 & E1 & -> & C1).
  pose proof (changed_run _ _ _ _ _ _ C1 Hr Hst) as H1.
  assert (Hget : forall x, trid_get_stream (Substream (snd r) (fst r) x) = Some r).
  { intros x. pose proof (all_refs_range r Hr). unfold trid_get_stream.
    destruct r as [[] i]; simpl in *; [by rewrite leb_false by lia | done]. }
  rewrite <- (ch_subs _ _ _ _ _ C1) in Hsubs.
  destruct (awp_done _ _ _ (awp_close J r p _ _ s1 Hsubs (Hget _) H1 Hr (ch_inv _ _ _ _ _ C1) (ch_wf _ _ _ _ _ C1)))
    as (? & s2 & E2 & -> & C2 & _).
  assert (H2 : stream_at r (reruntime r p rt s2) = Some (closed (suspended st))).
  { etrans; [exact (ch_in _ _ _ _ _ C2 r (list_elem_of_here r [])) | by rewrite H1]. }
  destruct (awp_done _ _ _ (awp_open J r p (Some rt) _ (reruntime r p rt s2)
    (lookup_insert_eq _ _ _) H2 Hr (ch_inv _ _ _ _ _ C2) (ch_wf _ _ _ _ _ C2))) as (? & s3 & E3 & -> & C3 & _).
  pose proof (ch_in _ _ _ _ _ C3 r (list_elem_of_here r [])) as H3. rewrite H2 in H3. simpl in H3.
  destruct (awp_done _ _ _ (awp_resume J HJ Hwin s3 (proj1 (ch_inv _ _ _ _ _ C3)) (ch_wf _ _ _ _ _ C3)))
    as (? & s4 & E4 & -> & _ & C4).
  exists s1, s2, s3, s4. ands; [exact E1 | exact E2 | exact E3 | exact E4 | | | |].
  - rewrite (changed_run _ _ _ _ _ _ C4 Hr H3). rewrite (ch_jiffies _ _ _ _ _ C3). simpl.
    rewrite (ch_jiffies _ _ _ _ _ C2), (ch_jiffies _ _ _ _ _ C1). f_equal. by apply stale_stream.
  - rewrite (ch_subs _ _ _ _ _ C4), (ch_subs _ _ _ _ _ C3). apply lookup_insert_eq.
  - rewrite (ch_segs _ _ _ _ _ C4), (ch_segs _ _ _ _ _ C3). etrans; [exact (ch_segs _ _ _ _ _ C2) |].
    exact (ch_segs _ _ _ _ _ C1).
  - exact (proj1 (ch_inv _ _ _ _ _ C4)).
Qed.

Lemma reopened_rel r p rt st seg s t b :
  let g := Geometry p (snd r) (period_bytes st) (buffer_bytes st) (rt_frame_bytes rt) (dma_area rt)
             (seg_cpu seg) (seg_size seg) in
  stream_at r s = Some (set_timer t (set_running true (reopened r p (set_resume_running b st)))) ->
  substreams s !! p = Some (Substream (snd r) (fst r) (Some rt)) ->
  (if fst r then ostream else istream) (bridge s) !! Z.to_nat (snd r) = Some seg ->
  shape (bridge s) -> ring_rel r g [] s.
Proof.
  intros g Hst Hsub Hseg Hsh. constructor.
  - eexists. split; [exact Hst|]. by constructor.
  - by exists rt.
  - by exists seg.
  - intros i Hi. simpl in Hi. lia.
  - done.
Qed.

(** Where a transfer of stream [r] writes and where it reads. *)
Definition copy_to (r : sref) (rt : snd_pcm_runtime) (seg : trid_dma_segment) : Z :=
  if fst r then dma_area rt else seg_cpu seg.
Definition copy_from (r : sref) (rt : snd_pcm_runtime) (seg : trid_dma_segment) : Z :=
  if fst r then seg_cpu seg else dma_area rt.

(** C37: A stream - playback or capture - that ran at the suspend, was closed and is opened again is
    started by the resume, though the new substream was neither prepared nor triggered: it runs
    with the period and the buffer size of the old one, and when its timer expires it copies a
    whole old period between the new buffer and its segment (a capture writes it to the buffer, a
    playback reads it from there), whatever the size of the new buffer.  (For an old period that
    fits the old buffer and the segment, as every prepared one does, and a new buffer apart from
    the segment.) *)
Theorem stale_resume J r p rt st seg s :
  mask_law J -> windows_ok -> inv J s -> streams_wf s -> r ∈ all_refs ->
  stream_at r s = Some st -> substream st = p -> p <> 0 -> running st = true ->
  (exists rt0, substreams s !! p = Some (Substream (snd r) (fst r) rt0)) ->
  (if fst r then ostream else istream) (bridge s) !! Z.to_nat (snd r) = Some seg ->
  seg_size seg = TRID_SEGMENT_BYTES ->
  0 < period_bytes st <= buffer_bytes st -> period_bytes st <= TRID_SEGMENT_BYTES ->
  buffer_bytes st < 2 ^ 30 -> dma_area rt <> 0 -> 0 < rt_frame_bytes rt ->
  dma_area rt + buffer_bytes st <= seg_cpu seg \/ seg_cpu seg + seg_size seg <= dma_area rt ->
  exists s1 s2 s3 s4 st4 s5,
    trid_suspend s = ADone 0 s1 /\ trid_pcm_close p s1 = ADone 0 s2 /\
    trid_pcm_open p (reruntime r p rt s2) = ADone 0 s3 /\ trid_resume s3 = ADone 0 s4 /\
    stream_at r s4 = Some st4 /\ substream st4 = p /\ running st4 = true /\
    timer st4 = Some (jiffies s + 1) /\
    period_bytes st4 = period_bytes st /\ buffer_bytes st4 = buffer_bytes st /\
    trid_stream_timer r s4 = ADone true s5 /\
    forall k, 0 <= k < period_bytes st ->
      ld8 (amem s5) (copy_to r rt seg + k) = ld8 (amem s4) (copy_from r rt seg + k).
Proof.
  intros HJ Hwin Hs Hwf Hr Hst Hsub Hp Hrun Hsubs Hseg Hsz Hper Hps Hbuf Harea Hfr Hap.
  destruct (reopen_run J r p rt st s HJ Hwin Hs Hwf Hr Hst Hsub Hp Hrun Hsubs)
    as (s1 & s2 & s3 & s4 & E1 & E2 & E3 & E4 & H4 & H5 & H6 & H7).
  assert (Hseg4 : (if fst r then ostream else istream) (bridge s4) !! Z.to_nat (snd r) = Some seg).
  { injection H6 as Hi Ho. destruct (fst r); [by rewrite Ho | by rewrite Hi]. }
  pose proof (reopened_rel r p rt st seg s4 _ _ H4 H5 Hseg4 H7) as Hrel.
  set (g := Geometry _ _ _ _ _ _ _ _) in Hrel.
  assert (Hg : geometry_ok r g).
  { pose proof (all_refs_range r Hr) as Hi. unfold TRID_SEGMENT_BYTES in *.
    constructor; simpl; [done | done | exact Hi | done | lia | done | lia | done | done | done]. }
  destruct (awp_done _ _ _ (awp_expire r g [] s4 _ Hg Hrel H4)) as (b & s5 & E5 & Hb & Hr5 & _).
  cbn [running set_timer set_running] in Hb. subst b.
  exists s1, s2, s3, s4. eexists. exists s5. ands; [exact E1 | exact E2 | exact E3 | exact E4 | exact H4 | done.. | exact E5 |].
  intros k Hk. pose proof (rr_mem _ _ _ _ Hr5 k) as Hh. unfold g_dst, next_period, g_src, copy_to, copy_from in *.
  unfold TRID_SEGMENT_BYTES in *.
  destruct (fst r); cbn [fst snd g_area g_buffer g_seg g_size g_period g app length] in Hh;
    rewrite ring_bytes_length, Z2Nat.id in Hh by lia; specialize (Hh ltac:(lia) ltac:(lia));
    rewrite ?Hsz in Hh; rewrite (Z.mod_small k) in Hh by lia; unfold ring_bytes in Hh;
    rewrite list_lookup_fmap, lookup_seqZ_lt in Hh by lia; simpl in Hh; injection Hh as Hh;
    rewrite <- Hh; f_equal; f_equal; change (Z.of_nat 0) with 0; rewrite Z.mod_0_l, Z.mod_small; lia.
Qed.

(** ** The interrupt mask *)

(** The mask register just holds its value: [val] is what it holds. *)
Record plain_mask (val : hw -> Z) : Prop := PlainMask {
  pm_read a h : val (snd (hw_read a h)) = val h;
  pm_write a v h : a <> mask_addr -> val (hw_write a v h) = val h;
  pm_set v h : val (hw_write mask_addr (u32 v) h) = u32 v;
}.

(** C8: From the initialisation on, over every run of the driver's operations (ALSA's
    callbacks, timers, both interrupts, the controls, suspends and resumes, in any
    order), the AudIf interrupt mask in the hardware is the one the driver keeps, by
    which the interrupt thread filters its sources, and that thread completes; no I2S
    output is ever opened, so the frame rings of the interrupt path are never used. *)
Theorem mask_shadow val s0 :
  plain_mask val -> windows_ok -> shape (bridge s0) -> streams_wf s0 ->
  exists s1, trid_audioio_init s0 = ADone 0 s1 /\
  forall s, star aud_step s1 s ->
    val (dev s) = audif_irq_mask (bridge s) /\ Forall (fun c => i2so_st c = 0) (i2so (bridge s)) /\
    exists v s', trid_audif_irq_thread s = ADone v s'.
Proof.
  intros Hval Hwin Hs Hwf. set (J := fun h m => val h = m).
  assert (HJ : mask_law J).
  { destruct Hval as [V1 V2 V3]. unfold J. split; intros; [by rewrite V1 | by rewrite V2 | apply V3]. }
  destruct (awp_done _ _ _ (audioio_init_settles J HJ Hwin s0 Hs)) as (? & s1 & E & -> & Hi & Hf).
  exists s1. split; [exact E|]. intros s Hrun.
  assert (Hg : good J s).
  { refine (star_invariant aud_step (good J) _ s1 s _ Hrun).
    - intros t t'. by apply good_step.
    - split; [done | by eapply wf_frame]. }
  destruct Hg as [[Hsh Hj] _]. ands; [exact Hj | by destruct Hsh |].
  destruct (awp_done _ _ _ (safe_audif_irq J HJ Hwin s (conj Hsh Hj))) as (v & s' & E' & _). by exists v, s'.
Qed.
End Safe.

(** ** Witnesses, on the device of AudioWindow *)

#[local] Existing Instance FileHw.
#[local] Existing Instance IdWin.
#[local] Existing Instance DemoTime.

Definition result {X} (m : A X) (s : aud_state) : option X :=
  match m s with ADone a _ => Some a | AStop _ => None end.

Lemma run_after {X} (m : A X) a s : result m s = Some a -> m s = ADone a (after m s).
Proof. unfold result, after. destruct (m s); [by intros [= ->] | done]. Qed.

Lemma done_inj {X} (a b : X) (s t : aud_state) : ADone a s = ADone b t -> t = s.
Proof. by intros [= _ ->]. Qed.

(** Periods of 64 frames of 4 bytes, twice in the buffer at [area] *)
Definition demo_runtime (area period : Z) : snd_pcm_runtime := Runtime area 2 48000 16 4 period (2 * period).

(** Substream 1 captures on PCM 0, substream 2 plays on it; the user has written to
    the buffer of the second. *)
Definition demo : aud_state :=
  let subs := <[1 := Substream 0 true (Some (demo_runtime 0x100000 64))]>
                {[2 := Substream 0 false (Some (demo_runtime 0x200000 64))]} in
  after (trid_pcm_open 1;; trid_pcm_open 2)
    (set_amem (wrbytes ∅ 0x200000 [10; 20; 30]) (set_substreams subs booted)).

Lemma demo_shape : shape (bridge demo).
Proof. constructor; vm_compute; repeat constructor. Qed.

(** The stream at a place of a state *)
Definition the_stream (r : sref) (s : aud_state) : trid_stream_state :=
  match stream_at r s with Some st => st | None => zero_stream end.

Lemma demo_ready : ready (false, 0) 2 (demo_runtime 0x200000 64) (Segment 0x80000000 0x50000000 0x10000) demo.
Proof.
  constructor.
  - exact demo_shape.
  - discriminate.
  - split; vm_compute; [discriminate | reflexivity].
  - exists (the_stream (false, 0) demo). split; [vm_compute; reflexivity |]. constructor; vm_compute; reflexivity.
  - vm_compute. reflexivity.
  - constructor; simpl; [set_solver | set_solver | lia | reflexivity | lia | lia].
  - vm_compute. reflexivity.
  - reflexivity.
  - discriminate.
  - left. simpl. lia.
Qed.

Lemma streams_refine_witness :
  exists s1 s, trid_pcm_prepare 2 demo = ADone 0 s1 /\ trid_pcm_trigger 2 1 s1 = ADone 0 s /\
    ld8 (amem s) 0x80000001 = 20 /\ trid_pcm_pointer 2 s = ADone 64 s.
Proof.
  set (s1 := after (trid_pcm_prepare 2) demo). set (s := after (trid_pcm_trigger 2 1) s1).
  assert (E1 : trid_pcm_prepare 2 demo = ADone 0 s1)
    by (refine (run_after (trid_pcm_prepare 2) 0 demo _); vm_compute; reflexivity).
  assert (E2 : trid_pcm_trigger 2 1 s1 = ADone 0 s)
    by (refine (run_after (trid_pcm_trigger 2 1) 0 s1 _); vm_compute; reflexivity).
  pose (g := geometry_of (false, 0) 2 (demo_runtime 0x200000 64) (Segment 0x80000000 0x50000000 0x10000)).
  destruct (streams_refine (false, 0) 2 _ _ demo ([] ++ next_period (false, 0) g [] s1) s file_windows_ok demo_ready)
    as (s1' & E & H).
  rewrite E1 in E. apply done_inj in E. subst s1'. exists s1, s. split; [exact E1|]. split; [exact E2|].
  destruct H as (Hh & Hp & _).
  - eapply star_right; [apply star_refl |]. exact (RingTrigger (false, 0) g [] s1 1 0 s E2).
  - split; [|exact Hp].
    assert (Hx : ([] ++ next_period (false, 0) g [] s1) !! Z.to_nat 1 = Some 20) by (vm_compute; reflexivity).
    rewrite Hh in Hx.
    + apply (inj Some) in Hx. exact Hx.
    + split; vm_compute; [discriminate | reflexivity].
    + vm_compute. discriminate.
Defined.

(** Well-formed streams, by evaluation *)
Definition wf_check (s : aud_state) : bool :=
  forallb (fun r => match stream_at r s with
    | Some st =>
        ((substream st =? 0) || (eqb (capture st) (fst r) && (hw_stream st =? snd r))) &&
        (0 <=? rate st) && (rate st <=? 192000) && (0 <=? channels st) && (channels st <=? 2) &&
        (0 <=? sample_bits st) && (sample_bits st <=? 32)
    | None => true
    end) all_refs.

Lemma wf_check_sound s : wf_check s = true -> streams_wf s.
Proof.
  unfold wf_check. rewrite forallb_forall. intros H r st Hr Hst.
  apply list_elem_of_In, H in Hr. rewrite Hst in Hr.
  rewrite !andb_true_iff, orb_true_iff, andb_true_iff, !Z.leb_le, !Z.eqb_eq, eqb_true_iff in Hr.
  destruct Hr as [[[[[[Hp ?] ?] ?] ?] ?] ?]. constructor; [|done..].
  intros Hne. destruct Hp as [Hp|Hp]; [by destruct Hne | exact Hp].
Qed.

(** [demo] with a prepared and running stream *)
Definition demo_running (r : sref) (p : Z) : aud_state :=
  after (trid_pcm_prepare p;; mod_stream r (set_running true)) demo.

Lemma suspend_resume_witness :
  let s := demo_running (false, 0) 2 in let st := the_stream (false, 0) s in
  running st = true /\ period_bytes st = 256 /\
  exists s1 s2, trid_misc_ioctl 0x6666 (Some 1) s = ADone 0 s1 /\ trid_misc_ioctl 0x6666 (Some 2) s1 = ADone 0 s2 /\
    stream_at (false, 0) s2 = Some (set_timer (Some 1) (set_resume_running true st)).
Proof.
  intros s st. split; [vm_compute; reflexivity |]. split; [vm_compute; reflexivity |].
  destruct (suspend_resume no_relation s no_relation_law file_windows_ok) as (s1 & s2 & s3 & s4 & E1 & E2 & _ & _ & H).
  - split; [constructor; vm_compute; repeat constructor | exact I].
  - apply wf_check_sound. vm_compute. reflexivity.
  - exists s1, s2. split; [exact E1|]. split; [exact E2|].
    destruct (H (false, 0) st) as (_ & H2 & _).
    + apply list_elem_of_In. vm_compute. left. reflexivity.
    + vm_compute. reflexivity.
    + vm_compute. discriminate.
    + rewrite H2.
      assert (Hr : running st = true) by (vm_compute; reflexivity).
      assert (Hj : jiffies s = 0) by (vm_compute; reflexivity).
      rewrite Hr, Hj. reflexivity.
Defined.

(** The old capture has periods of 256 bytes, the new one's whole buffer 128. *)
Lemma stale_resume_witness :
  let s := demo_running (true, 0) 1 in let rt := demo_runtime 0x100000 16 in
  buffer_size rt * rt_frame_bytes rt = 128 /\
  exists s2 s3 s4 st4 s5,
    trid_pcm_open 1 (reruntime (true, 0) 1 rt s2) = ADone 0 s3 /\ trid_resume s3 = ADone 0 s4 /\
    stream_at (true, 0) s4 = Some st4 /\ running st4 = true /\
    trid_stream_timer (true, 0) s4 = ADone true s5 /\
    ld8 (amem s5) (0x100000 + 200) = ld8 (amem s4) (0x80040000 + 200).
Proof.
  intros s rt. split; [reflexivity |].
  pose (st := the_stream (true, 0) s). pose (seg := Segment 0x80040000 0x50040000 0x10000).
  assert (Hper : period_bytes st = 256) by (vm_compute; reflexivity).
  assert (Hbuf : buffer_bytes st = 512) by (vm_compute; reflexivity).
  destruct (stale_resume no_relation (true, 0) 1 rt st seg s no_relation_law file_windows_ok)
    as (s1 & s2 & s3 & s4 & st4 & s5 & _ & _ & E3 & E4 & H1 & _ & H3 & _ & _ & _ & E5 & H5).
  - split; [constructor; vm_compute; repeat constructor | exact I].
  - apply wf_check_sound. vm_compute. reflexivity.
  - apply list_elem_of_In. vm_compute. tauto.
  - vm_compute. reflexivity.
  - vm_compute. reflexivity.
  - discriminate.
  - vm_compute. reflexivity.
  - exists (Some (demo_runtime 0x100000 64)). vm_compute. reflexivity.
  - vm_compute. reflexivity.
  - reflexivity.
  - rewrite Hper, Hbuf. lia.
  - rewrite Hper. discriminate.
  - rewrite Hbuf. lia.
  - discriminate.
  - reflexivity.
  - left. rewrite Hbuf. simpl. lia.
  - exists s2, s3, s4, st4, s5. rewrite Hper in H5.
    exact (conj E3 (conj E4 (conj H1 (conj H3 (conj E5 (H5 200 ltac:(lia))))))).
Defined.

Lemma mask_shadow_witness :
  let val := fun h : hw => reg h TRID_AUDIF_IRQ_MASK in
  exists s1, trid_audioio_init demo = ADone 0 s1 /\
  forall s, star aud_step s1 s -> val (dev s) = audif_irq_mask (bridge s).
Proof.
  intros val. destruct (mask_shadow val demo) as (s1 & E & H).
  - split.
    + reflexivity.
    + intros a v h Ha. apply reg_same. apply lookup_insert_ne. exact Ha.
    + intros v h. exact (reg_insert h TRID_AUDIF_IRQ_MASK v).
  - exact file_windows_ok.
  - exact demo_shape.
  - apply wf_check_sound. vm_compute. reflexivity.
  - exists s1. split; [exact E|]. intros s Hs. exact (proj1 (H s Hs)).
Defined.
